(* ===== verification/_CoqProject ===== *)
-Q . S2P
Prelude.v
PyText.v
Utf8.v
JsonText.v
Domain.v
Cursor.v
Keyset.v
GraphRuntime.v
SystemGraphs.v
Gates.v
Results.v
Persistence.v
PersistenceFacts.v
Approval.v
Worker.v
WorkerFacts.v
WorkerRuns.v
Outbox.v
Breaker.v
BreakerFacts.v
RateLimit.v
PromptRegistry.v
PromptFacts.v
ShellAgent.v
ShellAgentFacts.v
BugFix.v
BugFixFacts.v
Tools.v
LocalHandlers.v
FileSystem.v
LocalWorkspace.v
LocalWorkspaceFacts.v
ToolFacts.v
DockerWorkspace.v
WebDocs.v
Workspaces.v
WorkspaceFacts.v
CodeIndex.v
LlmClients.v
LlmFacts.v
Redaction.v
Reporting.v
Auth.v
Observability.v
QueryApi.v
Api.v
CodeReview.v
GitProvider.v
OpenRouter.v
Configs.v
AutoPr.v
Wiring.v
Bootstrap.v
PermissionGate.v
RedisGate.v
Webhooks.v
TenantIsolation.v
WebhookFacts.v
RepositoryPorts.v
Queue.v
Langfuse.v
Cli.v
CliFacts.v
Server.v
ServerFacts.v
Smoke.v
SmokeFacts.v
Telemetry.v
Lifecycle.v
Scenarios.v
ApiScenarios.v
Rows.v
RowsFacts.v
CliScenarios.v
