(* ===== verification/Prelude.v ===== *)
(** * meta-agent: a verification development

    meta-agent runs software tasks (bug fixes, shell agents, pull requests) for
    many tenants.  An API process writes a task and an outbox event in one
    transaction; a dispatcher publishes outbox events to a Redis stream; a
    worker claims deliveries, drives a graph of nodes for the task, checkpoints
    after every node, pauses for operators, and writes one terminal result.
    Circuit breakers and rate limiters sit in front of the language model and
    the git provider.  Paths below are relative to [src/src/meta_agent/].

    ** Files and what they model

    - [Prelude]: Python calls as functions [W -> res A * W] that return or raise
      ([M], [try_except], [try_finally], [for_each]), the JSON values and ordered
      dictionaries the code keeps in [state.data], the [str] functions it uses,
      and weakest preconditions ([wp]) for proofs over exceptions.
    - [Domain]: [core/domain/], [infra/security/context.py] and
      [infra/persistence/_guard.py]: entities, error categories, the request
      context and the tenant guard.  [HasContext] is the interface the guard is
      proved against; [Persistence.World] implements it.
    - [GraphRuntime]: [core/orchestration/state.py] and [graph.py]: the builder,
      [compile], [step], [run] and the snapshot round trip; [settles] is the
      shared notion of a run that ends on its own.
    - [SystemGraphs], [Gates], [Results]: the echo and git_inspect graphs,
      [human_gate.py] and [budget_gate.py], and [result.py],
      [failure_explain.py], [chain.py], [registry.py].
    - [Persistence], [PersistenceFacts]: the task, checkpoint, outbox and audit
      repositories over a database value, with their unique constraints and
      transactions.  Every statement consults a fault oracle of the world, so a
      theorem about all worlds covers a failure at any point.
    - [Approval]: [approval_gateway.py] and [worker/expiry_sweeper.py].
    - [Worker], [WorkerFacts], [WorkerRuns]: [worker/runner.py],
      [session_history.py], [task_submitter.py]: the whole handling of one
      delivery and the recovery at boot.
    - [Outbox]: [outbox_dispatcher.py] and its retry schedule.
    - [Breaker], [BreakerFacts]: both circuit breakers; concurrent calls are a
      step relation in which a call's gate and its outcome are separate steps.
    - [RateLimit]: both token buckets, with the Lua script and key expiry.
    - [PromptRegistry], [PromptFacts]: [infra/prompt_registry/] and its port.
      [PromptRegistryLaws] is the contract; the in-memory registry, the Postgres
      one and the cache over a lawful registry are instances.
    - [ShellAgent], [ShellAgentFacts]: the plan / tool / observe graph with its
      permission modes.
    - [LlmClients], [LlmFacts]: the decorators of [infra/llm/] in the order
      [worker/bootstrap.py] stacks them, and the budget enforcer.
      [CircuitBreakerPort] states what a breaker promises its client; the
      in-memory breaker is an instance.
    - [Redaction]: the expressions of [infra/redaction/patterns.py], run as the
      [re] module runs them on ASCII text, and what the loop of [Redactor.scrub]
      ([LlmClients.scrub]) lets through.
    - [BugFix], [BugFixFacts]: the edit / verify / replan / push graph around the
      shell agent.
    - [PyText], [Utf8]: further [str] functions; decoding of bytes in the modes
      the code uses.
    - [Tools], [LocalHandlers], [ToolFacts]: the tool ports, registry and executor
      of [core/], and the specifications and argument handling of
      [infra/tools/local_handlers.py].
    - [FileSystem], [LocalWorkspace], [LocalWorkspaceFacts], [DockerWorkspace]: a
      file tree with symbolic links and [Path.resolve], and the tools of
      [local_workspace.py] and [docker_workspace.py] on it.
    - [WebDocs], [CodeIndex]: [web_fetch.py], [doc_search.py] and
      [infra/tools/code_index/].
    - [PermissionGate], [RedisGate]: [infra/permission/].  The in-memory gate is a
      step relation of interleaved coroutines; the Redis gate is proved against
      the interface [PubSub] with the laws [PubSubLaws] of at-most-once delivery,
      which [Server], with connections that can be cut off, meets.
    - [CodeReview]: [graphs/code_review.py] and the JSON form of a request.
    - [GitProvider], [AutoPr]: [core/ports/git_provider.py], the adapters and
      decorators of [infra/git_provider/], and [graphs/auto_pr.py].
    - [Webhooks], [WebhookFacts]: [core/domain/webhook.py],
      [infra/persistence/webhook_repo.py] and [infra/webhook/].
    - [TenantIsolation]: every method of the repositories of
      [infra/persistence/], the guarded ones and the ones across tenants.
    - [Cursor], [Keyset]: the codec of [api/cursor.py] and the ordered, keyset
      paged query, for any strict total order of the keys.
    - [Reporting]: the listings of the repositories, [llm_usage_repo.py],
      [session_repo.py] and [trajectory_repo.py].  [TextOrder], [DayKey] and
      [LocalZone] are what the database and the process decide.
    - [Auth], [Observability], [QueryApi], [Api]: [infra/auth/] and the request
      context of [api/deps.py], the task summary, and the handlers of
      [api/routers/] with their schemas and [task_submission.py].
    - [OpenRouter]: [infra/llm/openrouter.py] and its configuration.
    - [Queue]: [infra/queue/] over the interface [StreamOps] with the laws
      [StreamLaws]; [MemStream] is an instance.
    - [Workspaces], [WorkspaceFacts]: the two workspace managers of
      [infra/workspace/] on the file tree, with [git] and [docker] as programs.
    - [Configs]: the environment of the breakers, limiters and budgets with their
      factories, [infra/secrets/] and [github_config.py].
    - [Wiring], [Bootstrap]: [worker/bootstrap.py]: the settings, the builders that
      choose an implementation for each port and the wrappers around the language
      model and the git provider; the guards that are switched off ([noop.py]).
    - [RepositoryPorts]: [core/ports/repository.py] and the ports of the usage,
      trajectory and webhook repositories as records of operations, with the
      Postgres repositories as values; [TaskLifecycle] is the contract on the
      lifecycle of a task.
    - [Langfuse]: [infra/observability/langfuse_exporter.py] over its client.
    - [JsonText], [Cli], [CliFacts]: [json.dumps] in the forms the tools use, and
      [cli/]: parser, client, commands and [main], for any peer.
    - [Server], [ServerFacts]: [api/app.py] as such a peer: the routes the command
      line calls, their answers and the answer to an exception.
    - [Smoke], [SmokeFacts]: [evals/smoke_catalog.py] and [smoke_runner.py].
    - [Telemetry]: [infra/observability/logging.py] and [tracing.py].
    - [Rows], [RowsFacts]: the [_row_to_*] functions and the column lists of the
      statements; [RowCodec] is the contract of a table, and the statements on
      [tasks] are related to the operations of [Persistence] on entities.
    - [Lifecycle]: the loops of worker and dispatcher with their stop flags,
      [build_worker] with what it opens, [worker/__main__.py], and the lifespan of
      the API.
    - [Scenarios], [ApiScenarios], [CliScenarios]: concrete runs on which the
      repository, worker, operator, outbox, API and command line theorems are
      applied.

    ** What the theorems show

    - Runtime: a compiled graph keeps its invariant, its steps can only fail for
      the reasons [step_error_sources] lists, runs are bounded, and a run resumed
      from a JSON snapshot is the uninterrupted run.
    - Worker: whatever fails, a delivery is acknowledged only when its task is
      settled or cannot be run, and task rows only move along the lifecycle
      ([handle_safe]); redelivery of a finished task runs nothing; recovery
      re-enqueues exactly running tasks; the result agrees with the run.
    - Repositories: one terminal write per task, checkpoints as faithful resume
      points; tenant isolation over all methods: the guarded ones raise outside
      their tenant and keep to it inside, the others read, or mark the one row
      they are given.
    - Operators: decisions are atomic, one of two racing decisions wins, and a
      decision opens the gate it was made for.  Gates open only on a decision.
    - Outbox: attempts stay within the budget, the delays are bounded and
      monotone.
    - Resilience: the breaker's window, invariant and single probe; the rate
      bound and the exactness of the retry hint; the Redis adapters agree with
      the in-memory ones for one client clock; denied model calls stop where
      they are denied, and a request is at most one provider call; a secret of a
      described form does not come through the scrubber.
    - Agents: the shell agent and the bug fix graph end within bounds of their
      own; tools a user did not allow are not executed; only verified work is
      pushed and chained into a pull request.
    - Tools: the executor bounds every result at a code point boundary; a path
      argument reads and writes inside the workspace only, unless a [.tmp] link
      or the root itself is written; what is written is read back, also through
      handlers, registry and executor; listings respect their byte budget; the
      schemas and the argument checks agree; the docker tools start nothing but
      [docker exec] in the container of the task's workspace below the root; a fetch is allow-listed; searches
      return the best documents and genuine references.
    - Permission gates: pending prompts and waiting requests correspond, and a
      decision delivered for a waiting request is what the request returns; across
      processes, when its connection loses nothing and the wait lasts long enough
      to read it, and otherwise the wait ends with its own error.
    - Pull requests: the GitHub adapter creates only after an empty search, within
      its retry budget and clamped delays; the auto_pr graph publishes exactly the
      verified, committed work it was given, and every follow-up of a bug fix
      carries a payload it publishes, or skips and says so.
    - Prompts and reviews: the deployed registry answers as the in-memory one;
      seeding only adds, makes every seed the latest version and is idempotent; a
      code review run is the direct program fetch, ask, parse, project.
    - Webhooks: an event is fanned out once per listening subscription of its
      tenant; a pass posts only signed bodies of due rows to their own
      subscriptions and keeps the attempts within the budget.
    - API: a request runs under the identity its token was granted, and is
      answered 401 or 503 otherwise; a submission
      writes session, task and command together or not at all; an accepted bug-fix
      request passes the checks of its graph; following the cursors of a listing
      returns every row once; the usage report, the task summary and the budget
      gate account for exactly the rows of the usage log; a trajectory is the
      stable merge of its sources.
    - Provider and queue: a completion is a bounded number of attempts, of which
      only retryable ones are repeated; a claimed batch is what was pending on the
      consumer and what is new, and stays pending until it is acknowledged, which
      unreadable entries are at once.
    - Workspaces: below an existing root provisioning is all or nothing, and
      cleaning up restores the disk; a cleanup stays inside the configured root and can be repeated; a
      workspace comes with its container, which is the one the docker tools run
      in.
    - Deployment: every task type has its compiled graph; an environment that
      parses builds its guards; the secrets port changes nothing for the default
      backend and lets the file win otherwise; an exported trajectory is one
      observation per item, and audit payloads leave through an allow-list.
    - Repository contract: whatever sequence of pauses, resumptions and
      completions is sent, a task is completed once ([settled_once] for every
      repository that keeps the contract, [pg_settled_once] for the deployed one).
    - Tables: valid entities are read back from their columns, and a row of [tasks]
      holds the entity the other theorems are about after any sequence of
      statements ([task_rows_refine]).
    - Command line: [tail] returns exactly when a poll sees a terminal state, with
      the exit code of the row in the database; [submit] prints the task it has
      created; the figures of [trace] are those of the tables; the exit code is 0,
      2, 3 or 4 and errors are messages; a smoke case becomes a task the bug-fix
      graph accepts.
    - Processes: a loop ends after the pass in which it is stopped or by the error
      of a pass; the worker releases what it holds however the loop ends; a log
      record is one line and carries the bound identifiers.
    - Some theorems state behaviour the documentation does not promise or
      denies: the sweeper that expires nothing, the poison message that is never
      drained, the follow-up lost with its redelivery, claims that are not
      exclusive, two probes in flight, replicas with different clocks, a timed
      out plan that runs its tools, a provider called twice when Redis fails
      after the call, a write that leaves the workspace, a crashed suite that
      verifies a change, a redirect that leaves the allow-list, a prompt that
      reaches another tenant, a malformed webhook URL that blocks the queue, a
      subscription rewritten by another tenant, a created pull request reported
      as an invalid request, a seeder that loses its race, a cache filled with a
      version that was just replaced, a message thread that is never shown, a
      token the validator raises on, a breaker window of no time, secrets the
      patterns do not describe, identifiers the log drops, a dispatcher that dies of
      one database error, a shutdown that then closes nothing.

    ** Modelling decisions and bounds

    - Times are integers (microseconds; milliseconds in the Redis scripts), read
      from a clock the world supplies; rates are exact fractions where the code
      uses floats.  Integers are unbounded, as in Python: the widths of the integer
      columns (BIGINT for [budget_threshold_micros]) and the range of [timedelta],
      which [backoff] would leave only after more than forty doublings of a second,
      are not modelled.  Strings are byte strings: [str.lower], [splitlines],
      [strip] and the classes of [re] act on ASCII.
    - [check_usage_record] has the numeric constraints of the usage record, the ones
      a provider's answer can break; the ones on [prompt_id], [prompt_version] and
      [step_kind] are already constraints of [LLMRequest], and [Rows.check_usage_row]
      has them all.
    - [Graph.run]'s fuel is the code's own [max_steps].  The worker's own loop
      has no cap in the code; [drive] takes fuel and ends with [OutOfFuel],
      which no handler catches, and [drive_fuel_irrelevant] shows that fuel does
      not change a run that ends.  [substitute] and [redact_from] take the
      length of their input as fuel, and each call consumes a character.
      [Path.resolve] takes [PATH_FUEL] steps, the kernel's limit on the length
      of a path, and ends with [OutOfFuel] beyond; it detects link loops itself.
      [tail_until_terminal] and [loop_while_running] have no cap in the code:
      [tail_spec] and [run_forever_spec] say for which fuel they return, namely one
      more than the polls or passes they make.
    - Messages of exceptions keep their constant text; interpolated parts are
      dropped unless the code inspects or publishes them.
    - Field constraints of pydantic models are checked where a model is built
      from outside data ([model_validate], [check_task_result],
      [check_request]); models rebuilt from already validated parts are not
      validated again.
    - The language model, the tool executor, the permission gate, git and the file
      system, the publisher and the workspace manager are parameters where they are
      used; theorems quantify over them, with named hypotheses where
      they need any ([quiet_ports] and [quiet_nodes]: graph nodes and ports do
      not write the task tables themselves).

    ** Not modelled

    What is not in the repository: the tokenising of [argparse] ([split]), [urlparse],
    [httpx], FastAPI's own dispatch, pydantic's coercions, asyncpg and redis-py,
    the OpenTelemetry SDK, tree-sitter, the [langfuse] package; each is a parameter
    where it matters.  Of the repository itself: constructors that
    only keep their arguments; the dependency providers of the API, which read
    [app.state]; the [close] methods that forward; re-exporting [__init__]
    modules. *)

From stdpp Require Export base tactics option list strings pretty gmap sorting.
From Stdlib Require Export ZArith Lia.
#[global] Open Scope Z_scope.

(** ** Results and exceptions

    A Python call either returns or raises.  The exception classes the
    modelled code raises, catches or tells apart are constructors; the
    interpolated parts of a message are dropped, its constant part is kept
    where the code stores [str(exc)].  [OutOfFuel] is not a Python exception: it
    marks a run of a loop model that was given too little fuel, and no handler
    catches it. *)

Inductive exn : Type :=
  | GraphError (msg : string)
  | MissingContextError
  | TenantIsolationError
  | IllegalTaskTransitionError
  | TaskNotAwaitingApprovalError
  | UniqueViolationError
  | WorkspaceError (msg : string)
  | PermissionTimeoutError
  | PermissionGateError
  | CircuitBreakerOpenError (retry_after_ms : option Z)
  | CircuitBreakerBackendError
  | RateLimiterBackendError
  | BudgetBackendError
  | LLMError (msg : string)
  | LLMTransientError (msg : string)
  | LLMRateLimitedError (retry_after_ms : option Z)
  | LLMInvalidRequestError (msg : string)
  | LLMAuthError (msg : string)
  | LLMBudgetExceededError (tokens_used : Z) (limit_tokens : option Z)
  | ToolError (msg : string)
  | ToolValidationError (msg : string)
  | ToolPermissionError (msg : string)
  | ToolExecutionError (msg : string)
  | ToolNotFoundError (msg : string)
  | GitProviderError (msg : string)
  | GitProviderTransientError (msg : string)
  | GitProviderAuthError (msg : string)
  | GitProviderInvalidRequestError (msg : string)
  | PromptNotFoundError (prompt_id : string) (version : option Z)
  | CursorError (msg : string)
  | QueueError (msg : string)
  | AuthBackendError
  | SecretNotFoundError (msg : string)
  | SecretBackendError (msg : string)
  | HTTPException (status : Z) (detail : string)
  | CLIError (exit_code : Z) (msg : string)
  | LangfuseExporterError (msg : string)
  | OSError (cls : string)
  | ValidationError (msg : string)
  | ValueError (msg : string)
  | TypeError (msg : string)
  | RuntimeError (msg : string)
  | KeyError (key : string)
  | AssertionError
  | CancelledError
  | KeyboardInterrupt
  | ExternalError (cls : string)
  | OutOfFuel.

#[global] Instance exn_eq_dec : EqDecision exn.
Proof. solve_decision. Defined.

(** [isinstance(exc, Exception)], what [except Exception] catches:
    cancellation and an interrupt are [BaseException]s. *)
Definition is_exception (e : exn) : bool :=
  match e with CancelledError | KeyboardInterrupt | OutOfFuel => false | _ => true end.

Inductive res (A : Type) : Type :=
  | Ok (a : A)
  | Err (e : exn).
Arguments Ok {A} a.
Arguments Err {A} e.

Definition res_bind {A B} (m : res A) (k : A -> res B) : res B :=
  match m with Ok a => k a | Err e => Err e end.

Lemma res_bind_inv {A B} (m : res A) (k : A -> res B) b :
  res_bind m k = Ok b -> exists a, m = Ok a /\ k a = Ok b.
Proof. destruct m; simpl; naive_solver. Qed.

(** ** The effect monad

    Stateful code threads a world [W].  An exception does not roll the world
    back: what was written before a [raise] stays written. *)

Definition M (W A : Type) : Type := W -> res A * W.

Definition ret {W A} (a : A) : M W A := fun w => (Ok a, w).
Definition bind {W A B} (m : M W A) (k : A -> M W B) : M W B :=
  fun w => match m w with
           | (Ok a, w') => k a w'
           | (Err e, w') => (Err e, w')
           end.
Definition raise {W A} (e : exn) : M W A := fun w => (Err e, w).
Definition get {W} : M W W := fun w => (Ok w, w).
Definition modify {W} (f : W -> W) : M W unit := fun w => (Ok tt, f w).
Definition lift {W A} (r : res A) : M W A := fun w => (r, w).

(** [try: m  except <handled>: h] -- [h e] is [None] for an exception that the
    [except] clause does not name, which then propagates. *)
Definition try_except {W A} (m : M W A) (h : exn -> option (M W A)) : M W A :=
  fun w => match m w with
           | (Ok a, w') => (Ok a, w')
           | (Err e, w') => match h e with
                            | Some k => k w'
                            | None => (Err e, w')
                            end
           end.

(** [try: m  finally: f] -- an exception of the [finally] body replaces the
    outcome of [m]. *)
Definition try_finally {W A} (m : M W A) (f : M W unit) : M W A :=
  fun w => let '(r, w1) := m w in
           match f w1 with
           | (Ok _, w2) => (r, w2)
           | (Err e, w2) => (Err e, w2)
           end.

Declare Scope py_scope.
Delimit Scope py_scope with py.
Notation "x <- m ;; k" := (bind m (fun x => k))
  (at level 100, m at next level, right associativity) : py_scope.
Notation "m ;;; k" := (bind m (fun _ => k))
  (at level 100, right associativity) : py_scope.
Notation "'let?' x := r 'in' k" := (res_bind r (fun x => k))
  (at level 10, x pattern, r at level 100, k at level 200) : py_scope.
Open Scope py_scope.

(** [for x in l: body] over an accumulator. *)
Fixpoint for_each {W A S} (l : list A) (s : S) (body : A -> S -> M W S) : M W S :=
  match l with
  | [] => ret s
  | x :: l' => s' <- body x s ;; for_each l' s' body
  end.

Fixpoint mapM_res {A B} (f : A -> res B) (l : list A) : res (list B) :=
  match l with
  | [] => Ok []
  | x :: l' => let? y := f x in let? ys := mapM_res f l' in Ok (y :: ys)
  end.

Section MonadFacts.
Context {W : Type}.

Lemma bind_ok {A B} (m : M W A) (k : A -> M W B) w a w' :
  m w = (Ok a, w') -> bind m k w = k a w'.
Proof. intros H. unfold bind. by rewrite H. Qed.

Lemma bind_err {A B} (m : M W A) (k : A -> M W B) w e w' :
  m w = (Err e, w') -> bind m k w = (Err e, w').
Proof. intros H. unfold bind. by rewrite H. Qed.

Lemma bind_ret_l {A B} (a : A) (k : A -> M W B) w : bind (ret a) k w = k a w.
Proof. done. Qed.

Lemma bind_assoc {A B C} (m : M W A) (k : A -> M W B) (h : B -> M W C) w :
  bind (bind m k) h w = bind m (fun a => bind (k a) h) w.
Proof. unfold bind. by destruct (m w) as [[a|e] w']. Qed.

Lemma bind_inv_ok {A B} (m : M W A) (k : A -> M W B) w b w2 :
  bind m k w = (Ok b, w2) ->
  exists a w1, m w = (Ok a, w1) /\ k a w1 = (Ok b, w2).
Proof. unfold bind. destruct (m w) as [[a|e] w1]; naive_solver. Qed.

Lemma for_each_nil {A S} (s : S) (body : A -> S -> M W S) w :
  for_each [] s body w = (Ok s, w).
Proof. done. Qed.

(** An invariant of the world that every iteration keeps, whether it
    returns or raises, is kept by the loop. *)
Lemma for_each_invariant {A S} (Inv : W -> Prop) (body : A -> S -> M W S) l :
  (forall x s w, x ∈ l -> Inv w -> Inv (body x s w).2) ->
  forall s w, Inv w -> Inv (for_each l s body w).2.
Proof.
  induction l as [|x l IH]; intros Hb s w Hw; [done|].
  simpl. unfold bind.
  pose proof (Hb x s w ltac:(set_solver) Hw) as Hx.
  destruct (body x s w) as [[s'|e] w']; simpl in *; [|done].
  apply IH; [set_solver|done].
Qed.
End MonadFacts.

(** ** Weakest preconditions

    [wp m Q E w]: [m] started in [w] either returns with [Q] or raises with [E].
    Proofs about long handlers walk through the code with these rules. *)

Definition wp {W A} (m : M W A) (Q : A -> W -> Prop) (E : exn -> W -> Prop) (w : W) : Prop :=
  match m w with (Ok a, w') => Q a w' | (Err e, w') => E e w' end.

Section WpFacts.
Context {W : Type}.

Lemma wp_bind {A B} (m : M W A) (k : A -> M W B) Q E w :
  wp m (fun a w' => wp (k a) Q E w') E w -> wp (bind m k) Q E w.
Proof. unfold wp, bind. by destruct (m w) as [[a|e] w']. Qed.

Lemma wp_ret {A} (a : A) (Q : A -> W -> Prop) E w : Q a w -> wp (ret a) Q E w.
Proof. done. Qed.

Lemma wp_raise {A} e (Q : A -> W -> Prop) E w : E e w -> wp (raise e) Q E w.
Proof. done. Qed.

Lemma wp_lift {A} (r : res A) (Q : A -> W -> Prop) (E : exn -> W -> Prop) w :
  (forall a, r = Ok a -> Q a w) -> (forall e, r = Err e -> E e w) -> wp (lift r) Q E w.
Proof. unfold wp, lift. destruct r; auto. Qed.

Lemma wp_try_except {A} (m : M W A) h Q E w :
  wp m Q (fun e w' => match h e with Some k => wp k Q E w' | None => E e w' end) w ->
  wp (try_except m h) Q E w.
Proof. unfold wp, try_except. destruct (m w) as [[a|e] w']; [done|]. by destruct (h e). Qed.

Lemma wp_try_finally {A} (m : M W A) f Q E w :
  wp m (fun a w1 => wp f (fun _ w2 => Q a w2) E w1)
       (fun e w1 => wp f (fun _ w2 => E e w2) E w1) w ->
  wp (try_finally m f) Q E w.
Proof.
  unfold wp, try_finally. destruct (m w) as [[a|e] w1]; by destruct (f w1) as [[[]|x] w2].
Qed.

Lemma wp_mono {A} (m : M W A) (Q Q' : A -> W -> Prop) (E E' : exn -> W -> Prop) w :
  wp m Q E w -> (forall a w', Q a w' -> Q' a w') -> (forall e w', E e w' -> E' e w') ->
  wp m Q' E' w.
Proof. unfold wp. destruct (m w) as [[a|e] w']; auto. Qed.

Lemma wp_run {A} (m : M W A) Q E w r w' :
  wp m Q E w -> m w = (r, w') -> match r with Ok a => Q a w' | Err e => E e w' end.
Proof. unfold wp. intros H E1. by rewrite E1 in H. Qed.

(** An assertion about the world that holds afterwards on every path. *)
Lemma wp_always {A} (m : M W A) (P : W -> Prop) w :
  P (m w).2 -> wp m (fun _ w' => P w') (fun _ w' => P w') w.
Proof. unfold wp. by destruct (m w) as [[a|e] w']. Qed.
End WpFacts.

(** ** JSON values and Python dictionaries

    [state.data], payloads and snapshots are JSON values.  A Python [dict]
    is an association list in insertion order: assigning to a present key
    replaces the value in place, a new key goes to the end.  A float is
    identified by its [repr], which Python keeps injective. *)

Inductive json : Type :=
  | JNull
  | JBool (b : bool)
  | JInt (n : Z)
  | JFloat (repr : string)
  | JStr (s : string)
  | JList (l : list json)
  | JDict (d : list (string * json)).

Abbreviation dict := (list (string * json)).

Section Dict.
Context {V : Type}.
Implicit Types (d : list (string * V)) (k : string) (v : V).

Fixpoint dget d k : option V :=
  match d with
  | [] => None
  | (k', v) :: d' => if String.eqb k k' then Some v else dget d' k
  end.

Fixpoint dset d k v : list (string * V) :=
  match d with
  | [] => [(k, v)]
  | (k', v') :: d' => if String.eqb k k' then (k', v) :: d' else (k', v') :: dset d' k v
  end.

Definition dupdate d (u : list (string * V)) : list (string * V) :=
  fold_left (fun acc kv => dset acc kv.1 kv.2) u d.

Definition dmem d k : bool := match dget d k with Some _ => true | None => false end.

Lemma dget_dset_eq d k v : dget (dset d k v) k = Some v.
Proof.
  induction d as [|[k' v'] d IH]; simpl; [by rewrite String.eqb_refl|].
  destruct (String.eqb_spec k k') as [->|]; simpl.
  - by rewrite String.eqb_refl.
  - destruct (String.eqb_spec k k'); naive_solver.
Qed.

Lemma dget_dset_ne d k k' v : k <> k' -> dget (dset d k v) k' = dget d k'.
Proof.
  intros Hne. induction d as [|[k1 v1] d IH]; simpl.
  - destruct (String.eqb_spec k' k); naive_solver.
  - destruct (String.eqb_spec k k1) as [->|]; simpl;
      destruct (String.eqb_spec k' k1); naive_solver.
Qed.

Lemma dget_dset d k k' v :
  dget (dset d k v) k' = if String.eqb k k' then Some v else dget d k'.
Proof.
  destruct (String.eqb_spec k k') as [->|Hne].
  - apply dget_dset_eq.
  - by apply dget_dset_ne.
Qed.

Lemma dget_None_iff d k : dget d k = None <-> k ∉ d.*1.
Proof.
  induction d as [|[k' v'] d IH]; simpl; [set_solver|].
  destruct (String.eqb_spec k k') as [->|]; set_solver.
Qed.

Lemma dupdate_nil d : dupdate d [] = d.
Proof. done. Qed.

Lemma dupdate_cons d k v u : dupdate d ((k, v) :: u) = dupdate (dset d k v) u.
Proof. done. Qed.

Lemma dupdate_app d u1 u2 : dupdate d (u1 ++ u2) = dupdate (dupdate d u1) u2.
Proof. apply fold_left_app. Qed.

(** Keys that the update does not mention keep their value. *)
Lemma dget_dupdate_ne d u k : k ∉ u.*1 -> dget (dupdate d u) k = dget d k.
Proof.
  revert d. induction u as [|[k1 v1] u IH]; intros d Hk; [done|].
  rewrite dupdate_cons, IH by set_solver. apply dget_dset_ne. set_solver.
Qed.

(** The update wins; with distinct keys, the result is a plain merge. *)
Lemma dget_dupdate d u k :
  NoDup u.*1 ->
  dget (dupdate d u) k = match dget u k with Some v => Some v | None => dget d k end.
Proof.
  revert d. induction u as [|[k1 v1] u IH]; intros d Hnd; [done|].
  apply NoDup_cons in Hnd as [Hni Hnd].
  rewrite dupdate_cons, IH by done. simpl.
  destruct (String.eqb_spec k k1) as [->|Hne].
  - apply dget_None_iff in Hni. simpl in Hni. rewrite Hni. apply dget_dset_eq.
  - destruct (dget u k); [done|]. apply dget_dset_ne. naive_solver.
Qed.

Lemma dset_absent d k v : dget d k = None -> dset d k v = d ++ [(k, v)].
Proof.
  induction d as [|[k' v'] d IH]; simpl; [done|].
  destruct (String.eqb k k'); [done|]. intros H. by rewrite IH.
Qed.

Lemma dset_keys d k v : (dset d k v).*1 = if dmem d k then d.*1 else d.*1 ++ [k].
Proof.
  unfold dmem. induction d as [|[k' v'] d IH]; csimpl; [done|].
  destruct (String.eqb_spec k k') as [->|]; csimpl; [done|].
  rewrite IH. by destruct (dget d k).
Qed.

Lemma dset_NoDup d k v : NoDup d.*1 -> NoDup (dset d k v).*1.
Proof.
  intros Hd. rewrite dset_keys. unfold dmem.
  destruct (dget d k) eqn:E; [done|]. apply dget_None_iff in E.
  apply NoDup_app. split; [done|]. split; [set_solver|]. apply NoDup_singleton.
Qed.

Lemma dupdate_NoDup d u : NoDup d.*1 -> NoDup (dupdate d u).*1.
Proof.
  revert d. induction u as [|[k v] u IH]; intros d Hd; [done|].
  rewrite dupdate_cons. by apply IH, dset_NoDup.
Qed.
End Dict.

(** Python truthiness of a JSON value: [bool(x)]. *)
Definition truthy (v : json) : bool :=
  match v with
  | JNull => false
  | JBool b => b
  | JInt n => negb (n =? 0)
  | JFloat r => negb (String.eqb r "0.0" || String.eqb r "-0.0")
  | JStr s => negb (String.eqb s "")
  | JList l => match l with [] => false | _ => true end
  | JDict d => match d with [] => false | _ => true end
  end.

(** [d.get(k)]: [None] (JSON null) for a missing key. *)
Definition getd (d : dict) (k : string) : json := default JNull (dget d k).

(** [x == "literal"]. *)
Definition is_str (v : json) (s : string) : bool :=
  match v with JStr t => String.eqb t s | _ => false end.

(** [isinstance(x, str)], [isinstance(x, dict)], [isinstance(x, list)]. *)
Definition as_str (v : json) : option string := match v with JStr s => Some s | _ => None end.
Definition as_dict (v : json) : option dict := match v with JDict d => Some d | _ => None end.
Definition as_list (v : json) : option (list json) := match v with JList l => Some l | _ => None end.

(** [isinstance(x, int)]: a [bool] is an [int] in Python. *)
Definition as_int (v : json) : option Z :=
  match v with JInt n => Some n | JBool b => Some (if b then 1 else 0) | _ => None end.

(** [isinstance(x, str) and x]. *)
Definition as_nonempty_str (v : json) : option string :=
  match v with JStr s => if String.eqb s "" then None else Some s | _ => None end.

Definition nonempty (s : string) : bool := negb (String.eqb s "").

Definition opt_json {A} (f : A -> json) (o : option A) : json :=
  match o with Some a => f a | None => JNull end.

(** Python slicing [s[:n]] and [l[:n]] for [n >= 0]. *)
Fixpoint str_take (n : nat) (s : string) : string :=
  match n, s with
  | S n', String c s' => String c (str_take n' s')
  | _, _ => EmptyString
  end.

Lemma str_take_length n s : (String.length (str_take n s) <= n)%nat.
Proof. revert s. induction n as [|n IH]; intros [|c s]; simpl; try lia. specialize (IH s). lia. Qed.

Lemma str_take_all n s : (String.length s <= n)%nat -> str_take n s = s.
Proof.
  revert n. induction s as [|c s IH]; intros [|n] Hn; simpl in *; try done; try lia.
  f_equal. apply IH. lia.
Qed.

(** ** [str] and [repr] *)

Fixpoint str_join (sep : string) (l : list string) : string :=
  match l with
  | [] => ""
  | [x] => x
  | x :: l' => x +:+ sep +:+ str_join sep l'
  end.

Fixpoint str_exists (f : Ascii.ascii -> bool) (s : string) : bool :=
  match s with EmptyString => false | String c s' => f c || str_exists f s' end.

Definition hex_digit (n : nat) : string :=
  default "f" (["0"; "1"; "2"; "3"; "4"; "5"; "6"; "7"; "8"; "9"; "a"; "b"; "c"; "d"; "e"; "f"] !! n).

(** The escapes Python's [repr] writes for one ASCII character inside quotes
    [q]; characters from 127 up are kept as they are. *)
Definition repr_char (q c : Ascii.ascii) : string :=
  let n := Ascii.nat_of_ascii c in
  if Ascii.eqb c q || Ascii.eqb c (Ascii.ascii_of_nat 92) then String (Ascii.ascii_of_nat 92) (String c "")
  else if Nat.eqb n 10 then "\n" else if Nat.eqb n 13 then "\r" else if Nat.eqb n 9 then "\t"
  else if Nat.ltb n 32 then "\x" +:+ hex_digit (n / 16) +:+ hex_digit (n mod 16)
  else String c "".

Fixpoint repr_chars (q : Ascii.ascii) (s : string) : string :=
  match s with EmptyString => "" | String c s' => repr_char q c +:+ repr_chars q s' end.

(** Single quotes, unless the text has a single quote and no double quote. *)
Definition py_repr_str (s : string) : string :=
  let q : Ascii.ascii :=
    if str_exists (Ascii.eqb (Ascii.ascii_of_nat 39)) s && negb (str_exists (Ascii.eqb (Ascii.ascii_of_nat 34)) s)
    then (Ascii.ascii_of_nat 34) else (Ascii.ascii_of_nat 39) in
  String q (repr_chars q s +:+ String q "").

Fixpoint py_repr (v : json) : string :=
  match v with
  | JNull => "None"
  | JBool b => if b then "True" else "False"
  | JInt n => pretty n
  | JFloat r => r
  | JStr s => py_repr_str s
  | JList l => "[" +:+ str_join ", " (map py_repr l) +:+ "]"
  | JDict d =>
      "{" +:+ str_join ", " (map (fun kv => py_repr_str kv.1 +:+ ": " +:+ py_repr kv.2) d) +:+ "}"
  end.

Definition py_str (v : json) : string := match v with JStr s => s | _ => py_repr v end.

(** ** [str.splitlines], [str.strip] on ASCII text *)

Definition is_linebreak (c : Ascii.ascii) : bool :=
  let n := Ascii.nat_of_ascii c in
  (Nat.leb 10 n && Nat.leb n 13) || (Nat.leb 28 n && Nat.leb n 30).

Definition is_space (c : Ascii.ascii) : bool :=
  let n := Ascii.nat_of_ascii c in
  (Nat.leb 9 n && Nat.leb n 13) || (Nat.leb 28 n && Nat.leb n 32).

Fixpoint splitlines_from (cur s : string) : list string :=
  match s with
  | EmptyString => if nonempty cur then [cur] else []
  | String c s' =>
      if Nat.eqb (Ascii.nat_of_ascii c) 13 then
        match s' with
        | String c' s'' =>
            if Nat.eqb (Ascii.nat_of_ascii c') 10 then cur :: splitlines_from "" s''
            else cur :: splitlines_from "" s'
        | EmptyString => [cur]
        end
      else if is_linebreak c then cur :: splitlines_from "" s'
      else splitlines_from (cur +:+ String c "") s'
  end.
Definition py_splitlines (s : string) : list string := splitlines_from "" s.

Fixpoint str_lstrip (s : string) : string :=
  match s with
  | String c s' => if is_space c then str_lstrip s' else s
  | EmptyString => EmptyString
  end.
Fixpoint str_rstrip (s : string) : string :=
  match s with
  | EmptyString => EmptyString
  | String c s' =>
      let t := str_rstrip s' in
      if is_space c && negb (nonempty t) then EmptyString else String c t
  end.
Definition py_strip (s : string) : string := str_rstrip (str_lstrip s).

Lemma nonempty_true s : nonempty s = true <-> s <> "".
Proof. unfold nonempty. rewrite negb_true_iff. apply String.eqb_neq. Qed.

Lemma app_char_nonempty s c : nonempty (s +:+ String c "") = true.
Proof. by destruct s. Qed.

(** Non-empty text has a first line, so [splitlines()[0]] does not raise. *)
Lemma splitlines_cons s : s <> "" -> exists l ls, py_splitlines s = l :: ls.
Proof.
  assert (Hgo : forall s cur, s <> "" \/ cur <> "" -> exists l ls, splitlines_from cur s = l :: ls).
  { clear s. induction s as [|c s IH]; intros cur Hs; simpl.
    - destruct Hs as [|Hs]; [done|]. apply nonempty_true in Hs. rewrite Hs. eauto.
    - destruct (Nat.eqb _ 13).
      { destruct s as [|c' s'']; [eauto|]. destruct (Nat.eqb _ 10); eauto. }
      destruct (is_linebreak c); [eauto|]. apply IH. right.
      apply nonempty_true, app_char_nonempty. }
  intros Hs. apply Hgo. by left.
Qed.

Lemma str_exists_app f a b : str_exists f (a +:+ b) = str_exists f a || str_exists f b.
Proof.
  induction a as [|c a IH]; [done|]. change (String c a +:+ b) with (String c (a +:+ b)). simpl.
  by rewrite IH, orb_assoc.
Qed.

Lemma str_take_nonempty n s : (0 < n)%nat -> s <> "" -> str_take n s <> "".
Proof. destruct n, s; simpl; try lia; done. Qed.

(** ** Automation *)

Create HintDb meta.
#[export] Hint Rewrite @dget_dset_eq : meta.
#[export] Hint Rewrite @dget_dset_ne using (apply String.eqb_neq; reflexivity) : meta.

(** Read a literal key through a chain of literal dictionary updates. *)
Ltac simp_dict :=
  unfold getd, dmem in *;
  repeat first
    [ rewrite !dupdate_cons | rewrite !dupdate_nil
    | rewrite dget_dset_eq
    | rewrite dget_dset_ne by (apply String.eqb_neq; reflexivity) ].

(** Split on the scrutinee of a [match] or [if], recording the equation. *)
Ltac split_match :=
  match goal with
  | |- context [match ?x with _ => _ end] => destruct x eqn:?
  | H : context [match ?x with _ => _ end] |- _ => destruct x eqn:?
  end.

Ltac split_matches := repeat (split_match; simplify_eq/=; try done).
