(* ===== verification/PyText.v ===== *)
(** * PyText: text functions of the Python standard library

    The [str], [int], [string.Template] and [pathlib] functions several
    components share, on ASCII text as everywhere in this development. *)

From S2P Require Import Prelude.

(** [sep in s] and [s.split(sep, 1)] for a non-empty separator: the first
    occurrence, with what comes before and after it. *)
Fixpoint str_split_once (sep s : string) : option (string * string) :=
  if String.prefix sep s then Some ("", String.substring (String.length sep) (String.length s) s)
  else match s with
  | EmptyString => None
  | String c s' => match str_split_once sep s' with
                   | Some (a, b) => Some (String c a, b)
                   | None => None
                   end
  end.
Definition str_contains (sep s : string) : bool :=
  match str_split_once sep s with Some _ => true | None => false end.

Definition is_alpha (c : Ascii.ascii) : bool :=
  let n := Ascii.nat_of_ascii c in
  (Nat.leb 65 n && Nat.leb n 90) || (Nat.leb 97 n && Nat.leb n 122).
Definition is_digit (c : Ascii.ascii) : bool :=
  let n := Ascii.nat_of_ascii c in Nat.leb 48 n && Nat.leb n 57.
Definition char_is (n : nat) (c : Ascii.ascii) : bool := Nat.eqb (Ascii.nat_of_ascii c) n.

(** The longest prefix of characters in a class, and the rest. *)
Fixpoint str_span (f : Ascii.ascii -> bool) (s : string) : string * string :=
  match s with
  | String c s' => if f c then let '(a, b) := str_span f s' in (String c a, b) else ("", s)
  | EmptyString => ("", "")
  end.

(** [string.Template(t).safe_substitute(name=value)]: [$$], [$name] and
    [${name}]; an unknown name and a lone [$] are kept.  [fuel] bounds the
    remaining length. *)
Definition is_ident_char (c : Ascii.ascii) : bool := is_alpha c || is_digit c || char_is 95 c.
Definition str_ident (s : string) : string * string :=
  match s with
  | String c _ => if is_digit c then ("", s) else str_span is_ident_char s
  | EmptyString => ("", "")
  end.
Fixpoint substitute (fuel : nat) (name value s : string) : string :=
  match fuel, s with
  | S fuel', String c s' =>
      if negb (char_is 36 c) then String c (substitute fuel' name value s')
      else match s' with
      | String c1 r =>
          if char_is 36 c1 then String c (substitute fuel' name value r)
          else if char_is 123 c1 then
            let '(ident, rest) := str_ident r in
            match rest with
            | String c2 rest' =>
                if nonempty ident && char_is 125 c2 then
                  (if String.eqb ident name then value
                   else String c (String c1 (ident +:+ String c2 ""))) +:+ substitute fuel' name value rest'
                else String c (substitute fuel' name value s')
            | EmptyString => String c (substitute fuel' name value s')
            end
          else
            let '(ident, rest) := str_ident s' in
            if nonempty ident then
              (if String.eqb ident name then value else String c ident) +:+ substitute fuel' name value rest
            else String c (substitute fuel' name value s')
      | EmptyString => String c ""
      end
  | _, _ => ""
  end.
Definition safe_substitute (template name value : string) : string :=
  substitute (String.length template) name value template.

(** [int(text)]: surrounding blanks, a sign, digits with single underscores
    between them. *)
Fixpoint digits_value (acc : Z) (after_digit : bool) (s : string) : option Z :=
  match s with
  | EmptyString => if after_digit then Some acc else None
  | String c s' =>
      if is_digit c then
        digits_value (10 * acc + Z.of_nat (Ascii.nat_of_ascii c - 48)) true s'
      else if char_is 95 c && after_digit then
        match s' with
        | String c' _ => if is_digit c' then digits_value acc false s' else None
        | EmptyString => None
        end
      else None
  end.
Definition py_int (text : string) : res Z :=
  let t := py_strip text in
  let out := match t with
             | String c t' =>
                 if char_is 45 c then option_map Z.opp (digits_value 0 false t')
                 else if char_is 43 c then digits_value 0 false t'
                 else digits_value 0 false t
             | EmptyString => None
             end in
  match out with Some n => Ok n | None => Err (ValueError "invalid literal for int()") end.

Lemma substring_whole b : forall m, (String.length b <= m)%nat -> String.substring 0 m b = b.
Proof.
  induction b as [|c b IH]; intros [|m] H; cbn in *; [done|done|lia|]. f_equal. apply IH. lia.
Qed.

(** [str(Path(p))] on POSIX. *)
Fixpoint split_on (n : nat) (s : string) : list string :=
  match s with
  | EmptyString => [""]
  | String c s' =>
      match split_on n s' with
      | x :: xs => if char_is n c then "" :: x :: xs else String c x :: xs
      | [] => []
      end
  end.
Definition py_path (p : string) : string :=
  let root := if String.prefix "///" p then "/" else if String.prefix "//" p then "//"
              else if String.prefix "/" p then "/" else "" in
  let parts := List.filter (fun x => nonempty x && negb (String.eqb x ".")) (split_on 47 p) in
  let r := root +:+ str_join "/" parts in
  if nonempty r then r else ".".

Definition newline : string := String (Ascii.ascii_of_nat 10) "".

(** [str.lower] and the order of [sorted] on strings. *)
Definition lower_char (c : Ascii.ascii) : Ascii.ascii :=
  let n := Ascii.nat_of_ascii c in
  if Nat.leb 65 n && Nat.leb n 90 then Ascii.ascii_of_nat (n + 32) else c.
Fixpoint py_lower (s : string) : string :=
  match s with EmptyString => EmptyString | String c s' => String (lower_char c) (py_lower s') end.

Definition str_le (a b : string) : Prop := String.leb a b = true.
#[global] Instance str_le_dec : RelDecision str_le.
Proof. intros a b. unfold str_le. apply _. Defined.

#[global] Instance str_le_total : Total str_le.
Proof. intros a b. unfold str_le. destruct (String.leb_total a b); auto. Qed.
#[global] Instance str_le_trans : Transitive str_le.
Proof.
  intros a b c. unfold str_le. intros H1%Is_true_true H2%Is_true_true. apply Is_true_true.
  exact (transitivity (R:=String.le) H1 H2).
Qed.

(** The rest of [s] after a prefix, and what is before a suffix. *)
Fixpoint str_drop_prefix (p s : string) : option string :=
  match p, s with
  | EmptyString, _ => Some s
  | String a p', String b s' => if Ascii.eqb a b then str_drop_prefix p' s' else None
  | _, _ => None
  end.

Fixpoint str_drop_suffix (suffix s : string) : option string :=
  if String.eqb s suffix then Some ""
  else match s with String c s' => String c <$> str_drop_suffix suffix s' | EmptyString => None end.

(** [s.isascii()]. *)
Fixpoint is_ascii (s : string) : bool :=
  match s with EmptyString => true | String c s' => Nat.leb (Ascii.nat_of_ascii c) 127 && is_ascii s' end.
