(* ===== verification/Utf8.v ===== *)
(** * Utf8: decoding bytes the way Python's codec does

    Strings of this development are the UTF-8 bytes of a Python [str].  The tools
    cut byte strings at a cap and decode what is left with [errors="ignore"] or
    [errors="replace"]; [pieces] splits bytes into well-formed code points and
    ill-formed subparts exactly as that decoder does, and both modes are folds of
    it. *)

From S2P Require Import Prelude.

Module Utf8.

Definition in_range (lo hi : nat) (c : Ascii.ascii) : bool :=
  let n := Ascii.nat_of_ascii c in Nat.leb lo n && Nat.leb n hi.
Definition one_byte : Ascii.ascii -> bool := in_range 0 127.
Definition lead2 : Ascii.ascii -> bool := in_range 194 223.
Definition lead3 : Ascii.ascii -> bool := in_range 224 239.
Definition lead4 : Ascii.ascii -> bool := in_range 240 244.
Definition cont : Ascii.ascii -> bool := in_range 128 191.

(** The second byte excludes overlong forms, surrogates and values above
    U+10FFFF. *)
Definition second (lead c : Ascii.ascii) : bool :=
  let n := Ascii.nat_of_ascii lead in
  if Nat.eqb n 224 then in_range 160 191 c
  else if Nat.eqb n 237 then in_range 128 159 c
  else if Nat.eqb n 240 then in_range 144 191 c
  else if Nat.eqb n 244 then in_range 128 143 c
  else cont c.

(** [Some p]: a code point with its bytes [p]; [None]: one ill-formed subpart,
    which [errors="replace"] turns into a single U+FFFD. *)
Fixpoint pieces (s : string) : list (option string) :=
  match s with
  | EmptyString => []
  | String a r1 =>
      if one_byte a then Some (String a "") :: pieces r1
      else if lead2 a then
        match r1 with
        | String b r2 =>
            if cont b then Some (String a (String b "")) :: pieces r2 else None :: pieces r1
        | EmptyString => [None]
        end
      else if lead3 a then
        match r1 with
        | String b r2 =>
            if second a b then
              match r2 with
              | String c r3 =>
                  if cont c then Some (String a (String b (String c ""))) :: pieces r3
                  else None :: pieces r2
              | EmptyString => [None]
              end
            else None :: pieces r1
        | EmptyString => [None]
        end
      else if lead4 a then
        match r1 with
        | String b r2 =>
            if second a b then
              match r2 with
              | String c r3 =>
                  if cont c then
                    match r3 with
                    | String d r4 =>
                        if cont d then
                          Some (String a (String b (String c (String d "")))) :: pieces r4
                        else None :: pieces r3
                    | EmptyString => [None]
                    end
                  else None :: pieces r2
              | EmptyString => [None]
              end
            else None :: pieces r1
        | EmptyString => [None]
        end
      else None :: pieces r1
  end.

Fixpoint concat_str (l : list string) : string :=
  match l with [] => "" | x :: l' => x +:+ concat_str l' end.

Definition decode (bad : string) (s : string) : string :=
  concat_str (map (default bad) (pieces s)).

(** U+FFFD. *)
Definition replacement : string :=
  String (Ascii.ascii_of_nat 239) (String (Ascii.ascii_of_nat 191) (String (Ascii.ascii_of_nat 189) "")).
Definition decode_ignore : string -> string := decode "".
Definition decode_replace : string -> string := decode replacement.

Definition valid (s : string) : bool := forallb (fun p => match p with Some _ => true | None => false end) (pieces s).

(** Code points of a valid string. *)
Definition code_points (s : string) : list string := omap id (pieces s).

(** ** Facts *)

Lemma app_cons c a b : String c a +:+ b = String c (a +:+ b).
Proof. done. Qed.

Lemma length_app_str a b : String.length (a +:+ b) = (String.length a + String.length b)%nat.
Proof. induction a; [done|]. rewrite app_cons. simpl. by rewrite IHa. Qed.

Lemma app_str_assoc a b c : (a +:+ b) +:+ c = a +:+ (b +:+ c).
Proof. induction a; [done|]. by rewrite !app_cons, IHa. Qed.

Lemma app_str_nil_r a : a +:+ "" = a.
Proof. induction a; [done|]. by rewrite app_cons, IHa. Qed.

Lemma str_take_app n a b :
  (String.length a <= n)%nat -> str_take n (a +:+ b) = a +:+ str_take (n - String.length a) b.
Proof.
  revert n. induction a as [|c a IH]; intros n Hn; [by rewrite Nat.sub_0_r|].
  destruct n as [|n]; simpl in *; [lia|]. rewrite !app_cons. simpl. by rewrite IH by lia.
Qed.

Lemma str_take_app_short n a b :
  (n <= String.length a)%nat -> str_take n (a +:+ b) = str_take n a.
Proof.
  revert n. induction a as [|c a IH]; intros n Hn; simpl in *.
  - by replace n with 0%nat by lia; destruct b.
  - destruct n as [|n]; [done|]. rewrite app_cons. simpl. by rewrite IH by lia.
Qed.

(** A code point [p] at the front: what [pieces] does does not depend on what
    follows, and a proper non-empty prefix of it is one ill-formed subpart. *)
Definition code_point (p : string) : Prop :=
  (1 <= String.length p)%nat /\
  (forall t, pieces (p +:+ t) = Some p :: pieces t) /\
  (forall n, (0 < n < String.length p)%nat -> pieces (str_take n p) = [None]).

Ltac small_cut :=
  repeat match goal with
  | H : _ /\ _ |- _ => destruct H
  end;
  simpl in *;
  repeat match goal with
  | n : nat |- _ => destruct n as [|n]; simpl in *; try lia
  end.

(** Run the decoder on a string whose byte classes are known. *)
Ltac classify :=
  cbv [String.append]; cbn [pieces str_take];
  repeat match goal with E : ?c = ?b |- _ => match type of b with bool => rewrite E end end; try done.
Ltac good_piece p rest :=
  left; exists p, rest; split; [done|]; split; [|by classify];
  split_and!; [simpl; lia|by intros t; classify|intros n Hn; small_cut; by classify].
Ltac bad_piece b rest :=
  right; exists b, rest; split; [done|]; split; [simpl; lia|by classify].

(** One step of the decoder. *)
Lemma pieces_step s :
  s = "" \/
  (exists p s', s = p +:+ s' /\ code_point p /\ pieces s = Some p :: pieces s') \/
  (exists b s', s = b +:+ s' /\ (1 <= String.length b)%nat /\ pieces s = None :: pieces s').
Proof.
  destruct s as [|a r1]; [by left|right].
  destruct (one_byte a) eqn:E1; [good_piece (String a "") r1|].
  destruct (lead2 a) eqn:E2.
  { destruct r1 as [|b r2]; [bad_piece (String a "") ""|].
    destruct (cont b) eqn:Eb;
      [good_piece (String a (String b "")) r2|bad_piece (String a "") (String b r2)]. }
  destruct (lead3 a) eqn:E3.
  { destruct r1 as [|b r2]; [bad_piece (String a "") ""|].
    destruct (second a b) eqn:Eb; [|bad_piece (String a "") (String b r2)].
    destruct r2 as [|c r3]; [bad_piece (String a (String b "")) ""|].
    destruct (cont c) eqn:Ec;
      [good_piece (String a (String b (String c ""))) r3
      |bad_piece (String a (String b "")) (String c r3)]. }
  destruct (lead4 a) eqn:E4; [|bad_piece (String a "") r1].
  destruct r1 as [|b r2]; [bad_piece (String a "") ""|].
  destruct (second a b) eqn:Eb; [|bad_piece (String a "") (String b r2)].
  destruct r2 as [|c r3]; [bad_piece (String a (String b "")) ""|].
  destruct (cont c) eqn:Ec; [|bad_piece (String a (String b "")) (String c r3)].
  destruct r3 as [|d r4]; [bad_piece (String a (String b (String c ""))) ""|].
  destruct (cont d) eqn:Ed;
    [good_piece (String a (String b (String c (String d "")))) r4
    |bad_piece (String a (String b (String c ""))) (String d r4)].
Qed.

(** Induction over the pieces of a byte string. *)
Lemma pieces_ind (P : string -> Prop) :
  P "" ->
  (forall p s, code_point p -> pieces (p +:+ s) = Some p :: pieces s -> P s -> P (p +:+ s)) ->
  (forall b s, (1 <= String.length b)%nat -> pieces (b +:+ s) = None :: pieces s -> P s -> P (b +:+ s)) ->
  forall s, P s.
Proof.
  intros H0 H1 H2 s.
  remember (String.length s) as n eqn:En. revert s En.
  induction n as [n IH] using (well_founded_induction Nat.lt_wf_0). intros s En.
  destruct (pieces_step s) as [->|[(p & s' & -> & Hp & E)|(b & s' & -> & Hb & E)]]; [done| |].
  - apply H1; [done..|]. rewrite length_app_str in En. destruct Hp as (Hp & _).
    eapply IH; [|reflexivity]. lia.
  - apply H2; [done..|]. rewrite length_app_str in En. eapply IH; [|reflexivity]. lia.
Qed.

Lemma decode_cons bad p s :
  pieces (p +:+ s) = Some p :: pieces s -> decode bad (p +:+ s) = p +:+ decode bad s.
Proof. intros E. unfold decode. by rewrite E. Qed.

(** [errors="ignore"] never lengthens. *)
Lemma decode_ignore_length s : (String.length (decode_ignore s) <= String.length s)%nat.
Proof.
  induction s as [|p s Hp E IH|b s Hb E IH] using pieces_ind; [done| |].
  - unfold decode_ignore in *. rewrite decode_cons by done. rewrite !length_app_str. lia.
  - assert (decode_ignore (b +:+ s) = decode_ignore s) as ->.
    { unfold decode_ignore, decode. by rewrite E. }
    rewrite length_app_str. lia.
Qed.

(** [errors="replace"] at most triples. *)
Lemma decode_replace_length s : (String.length (decode_replace s) <= 3 * String.length s)%nat.
Proof.
  induction s as [|p s Hp E IH|b s Hb E IH] using pieces_ind; [done| |].
  - unfold decode_replace in *. rewrite decode_cons by done. rewrite !length_app_str. lia.
  - unfold decode_replace, decode in *. rewrite E. cbn [map concat_str default].
    rewrite !length_app_str. change (String.length replacement) with 3%nat. lia.
Qed.

(** Valid text survives both modes unchanged. *)
Lemma decode_valid bad s : valid s = true -> decode bad s = s.
Proof.
  unfold valid. induction s as [|p s Hp E IH|b s Hb E IH] using pieces_ind; [done| |].
  - rewrite E. simpl. intros H. rewrite decode_cons by done. by rewrite IH.
  - rewrite E. done.
Qed.

Lemma valid_cons p s : code_point p -> valid (p +:+ s) = valid s.
Proof. intros (_ & H & _). unfold valid. by rewrite H. Qed.

Lemma valid_app a b : valid a = true -> valid b = true -> valid (a +:+ b) = true.
Proof.
  induction a as [|p a Hp E IH|x a Hx E IH] using pieces_ind; [done| |].
  - rewrite app_str_assoc, !valid_cons by done. auto.
  - unfold valid at 1. by rewrite E.
Qed.

(** Decoding a cut of valid text gives the longest run of whole code points
    that fits: the kept part is valid, a prefix of the text, and the first code
    point left out did not fit. *)
Definition longest_prefix (n : nat) (s out : string) : Prop :=
  exists rest, s = out +:+ rest /\ valid out = true /\ (String.length out <= n)%nat /\
    (rest = "" \/ exists p t, rest = p +:+ t /\ code_point p /\
                              (n < String.length out + String.length p)%nat).

Lemma decode_cut n s :
  valid s = true -> longest_prefix n s (decode_ignore (str_take n s)).
Proof.
  revert n. induction s as [|p s Hp E IH|b s Hb E IH] using pieces_ind; intros n Hv.
  - exists "". destruct n; simpl; split_and!; try done; try lia; by left.
  - rewrite valid_cons in Hv by done.
    destruct (decide (String.length p <= n)%nat) as [Hle|Hgt].
    + rewrite str_take_app by done. destruct Hp as (H1 & H2 & H3).
      destruct (IH (n - String.length p)%nat Hv) as (rest & Hs & Hvo & Hlen & Hr).
      set (out := decode_ignore (str_take (n - String.length p) s)) in *.
      unfold decode_ignore. rewrite decode_cons by apply H2. fold decode_ignore. fold out.
      exists rest. rewrite app_str_assoc, <- Hs. split; [done|].
      split; [by rewrite valid_cons|]. rewrite length_app_str. split; [lia|].
      destruct Hr as [->|(q & t & -> & Hq & Hn)]; [by left|right].
      exists q, t. split_and!; try done; lia.
    + rewrite str_take_app_short by lia.
      assert (decode_ignore (str_take n p) = "") as ->.
      { destruct Hp as (H1 & H2 & H3). destruct n as [|n]; [by destruct p|].
        unfold decode_ignore, decode. rewrite H3 by lia. done. }
      exists (p +:+ s). split; [done|]. split; [done|]. split; [simpl; lia|].
      right. exists p, s. split_and!; try done; simpl; lia.
  - unfold valid in Hv. by rewrite E in Hv.
Qed.

End Utf8.
