(* ===== verification/JsonText.v ===== *)
(** * JsonText: [json.dumps] on the values of [Prelude.json]

    The writer of the [json] module with [ensure_ascii=False]: compact, with or
    without sorted keys, and indented.  A written value contains no line break
    of its own when it is compact. *)

From S2P Require Import Prelude PyText Utf8.
Import Utf8.

(** ** The writer *)

Definition json_escape (c : Ascii.ascii) : string :=
  let n := Ascii.nat_of_ascii c in
  let bs := String (Ascii.ascii_of_nat 92) in
  if Nat.eqb n 34 || Nat.eqb n 92 then bs (String c "")
  else if Nat.eqb n 10 then bs "n" else if Nat.eqb n 13 then bs "r" else if Nat.eqb n 9 then bs "t"
  else if Nat.eqb n 8 then bs "b" else if Nat.eqb n 12 then bs "f"
  else if Nat.ltb n 32 then bs ("u00" +:+ hex_digit (n / 16) +:+ hex_digit (n mod 16))
  else String c "".
Fixpoint json_chars (s : string) : string :=
  match s with EmptyString => "" | String c s' => json_escape c +:+ json_chars s' end.
Definition dquote : string := String (Ascii.ascii_of_nat 34) "".
Definition json_text (s : string) : string := dquote +:+ json_chars s +:+ dquote.
(** [float.__repr__] of the special values, as JSON spells them. *)
Definition json_float (r : string) : string :=
  if String.eqb r "nan" then "NaN" else if String.eqb r "inf" then "Infinity"
  else if String.eqb r "-inf" then "-Infinity" else r.

Definition json_key_le {V} (a b : string * V) : Prop := str_le a.1 b.1.
#[global] Instance json_key_le_dec {V} (a b : string * V) : Decision (json_key_le a b).
Proof. unfold json_key_le. apply _. Defined.

(** [separators=(",", ":")], with [sort_keys]. *)
Fixpoint dumps_with (sort_keys : bool) (v : json) : string :=
  match v with
  | JNull => "null"
  | JBool b => if b then "true" else "false"
  | JInt n => pretty n
  | JFloat r => json_float r
  | JStr s => json_text s
  | JList l => "[" +:+ str_join "," (map (dumps_with sort_keys) l) +:+ "]"
  | JDict d =>
      let fields := map (fun kv => (kv.1, dumps_with sort_keys kv.2)) d in
      "{" +:+ str_join "," (map (fun kv => json_text kv.1 +:+ ":" +:+ kv.2)
                (if sort_keys then merge_sort json_key_le fields else fields)) +:+ "}"
  end.
Definition dumps_compact : json -> string := dumps_with true.

Definition spaces (n : nat) : string := concat_str (repeat " " n).
(** [indent=2]; [level] is the column of the enclosing bracket. *)
Fixpoint dumps_indent (level : nat) (v : json) : string :=
  let block (l r : string) (items : list string) :=
    match items with
    | [] => l +:+ r
    | _ => l +:+ newline +:+ spaces (level + 2) +:+
           str_join ("," +:+ newline +:+ spaces (level + 2)) items +:+ newline +:+ spaces level +:+ r
    end in
  match v with
  | JList l => block "[" "]" (map (dumps_indent (level + 2)) l)
  | JDict d => block "{" "}" (map (fun kv => json_text kv.1 +:+ ": " +:+ dumps_indent (level + 2) kv.2) d)
  | _ => dumps_compact v
  end.

(** ** One line *)

Definition one_line (s : string) : Prop := str_exists (char_is 10) s = false.

Lemma one_line_app a b : one_line a -> one_line b -> one_line (a +:+ b).
Proof. unfold one_line. intros Ha Hb. by rewrite str_exists_app, Ha, Hb. Qed.
Lemma one_line_join sep l : one_line sep -> Forall one_line l -> one_line (str_join sep l).
Proof.
  intros Hs. induction 1 as [|x l Hx _ IH]; simpl; [done|]. destruct l; [done|]. by repeat apply one_line_app.
Qed.
Lemma json_escape_line c : one_line (json_escape c).
Proof. destruct c as [[] [] [] [] [] [] [] []]; done. Qed.
Lemma json_text_line s : one_line (json_text s).
Proof.
  unfold json_text. apply one_line_app; [done|]. apply one_line_app; [|done].
  induction s as [|c s IH]; simpl; [done|]. apply one_line_app; [apply json_escape_line|exact IH].
Qed.

(** The compact form of a flat record of texts is one line, whatever the texts. *)
Lemma flat_record_line (d : list (string * string)) :
  one_line (dumps_with false (JDict (map (fun kv => (kv.1, JStr kv.2)) d))).
Proof.
  cbn [dumps_with]. apply one_line_app; [done|]. apply one_line_app; [|done]. apply one_line_join; [done|].
  rewrite !map_map. apply Forall_map, Forall_forall. intros [k v] _. simpl.
  apply one_line_app; [apply json_text_line|]. apply one_line_app; [done|apply json_text_line].
Qed.
