(* ===== verification/Domain.v ===== *)
(** * Domain: the value types of meta-agent

    The enums and frozen models of [core/domain/], the request context of
    [infra/security/context.py] and the tenant guard of
    [infra/persistence/_guard.py].  A [datetime] is an integer number of
    microseconds since the epoch, so comparison and addition are exact.
    Field prefixes ([t_], [cp_], [ob_], [ae_], [env_], [ctx_], [ws_]) keep the
    record projections of different models apart. *)

From S2P Require Import Prelude.

(** ** Task enums ([core/domain/task.py]) *)

Inductive TaskType : Type :=
  | BUG_FIX | CODE_REVIEW | AUTO_PR
  | SYSTEM_ECHO | SYSTEM_GIT_INSPECT | SYSTEM_SHELL_AGENT.

Inductive TaskState : Type :=
  | PENDING | RUNNING | AWAITING_APPROVAL
  | SUCCEEDED | FAILED | CANCELLED | EXPIRED.

Inductive PermissionMode : Type :=
  | AUTO | APPROVE_BEFORE_PUSH | APPROVE_EACH_TOOL | PLAN.

Inductive BudgetPolicy : Type :=
  | BP_NONE | GATE_ON_THRESHOLD | ABORT_ON_THRESHOLD.

#[global] Instance TaskType_eq_dec : EqDecision TaskType.
Proof. solve_decision. Defined.
#[global] Instance TaskState_eq_dec : EqDecision TaskState.
Proof. solve_decision. Defined.

(** [StrEnum] values. *)
Definition TaskType_value (t : TaskType) : string :=
  match t with
  | BUG_FIX => "bug_fix" | CODE_REVIEW => "code_review" | AUTO_PR => "auto_pr"
  | SYSTEM_ECHO => "system_echo" | SYSTEM_GIT_INSPECT => "system_git_inspect"
  | SYSTEM_SHELL_AGENT => "system_shell_agent"
  end.

Definition TaskState_value (s : TaskState) : string :=
  match s with
  | PENDING => "pending" | RUNNING => "running" | AWAITING_APPROVAL => "awaiting_approval"
  | SUCCEEDED => "succeeded" | FAILED => "failed" | CANCELLED => "cancelled"
  | EXPIRED => "expired"
  end.

Definition PermissionMode_value (m : PermissionMode) : string :=
  match m with
  | AUTO => "auto" | APPROVE_BEFORE_PUSH => "approve_before_push"
  | APPROVE_EACH_TOOL => "approve_each_tool" | PLAN => "plan"
  end.

Definition BudgetPolicy_value (p : BudgetPolicy) : string :=
  match p with
  | BP_NONE => "none" | GATE_ON_THRESHOLD => "gate_on_threshold"
  | ABORT_ON_THRESHOLD => "abort_on_threshold"
  end.

(** [TaskState(value)] raises on an unknown value. *)
Definition TaskState_of_value (s : string) : option TaskState :=
  if String.eqb s "pending" then Some PENDING
  else if String.eqb s "running" then Some RUNNING
  else if String.eqb s "awaiting_approval" then Some AWAITING_APPROVAL
  else if String.eqb s "succeeded" then Some SUCCEEDED
  else if String.eqb s "failed" then Some FAILED
  else if String.eqb s "cancelled" then Some CANCELLED
  else if String.eqb s "expired" then Some EXPIRED
  else None.

Lemma TaskState_value_roundtrip s : TaskState_of_value (TaskState_value s) = Some s.
Proof. by destruct s. Qed.

Record Task : Type := mkTask {
  t_task_id : string;
  t_tenant_id : string;
  t_session_id : option string;
  t_principal_id : string;
  t_trace_id : string;
  t_idempotency_key : option string;
  t_task_type : TaskType;
  t_graph_id : option string;
  t_state : TaskState;
  t_permission_mode : PermissionMode;
  t_budget_policy : BudgetPolicy;
  t_budget_threshold_micros : option Z;
  t_input_payload : dict;
  t_created_at : Z;
  t_updated_at : Z
}.

(** [UPDATE tasks SET state = .., updated_at = ..] on one row. *)
Definition task_with_state (t : Task) (s : TaskState) (at_ : Z) : Task :=
  mkTask (t_task_id t) (t_tenant_id t) (t_session_id t) (t_principal_id t) (t_trace_id t)
    (t_idempotency_key t) (t_task_type t) (t_graph_id t) s (t_permission_mode t)
    (t_budget_policy t) (t_budget_threshold_micros t) (t_input_payload t) (t_created_at t) at_.

(** [TERMINAL_TASK_STATES] of [core/ports/repository.py]. *)
Definition TERMINAL_TASK_STATES (s : TaskState) : bool :=
  match s with SUCCEEDED | FAILED | CANCELLED | EXPIRED => true | _ => false end.

(** ** Error taxonomy ([core/domain/errors.py]) *)

Inductive ErrorCategory : Type :=
  | TRANSIENT | EXTERNAL | PERMISSION | VALIDATION | LOGIC | USER_CANCELLED.

#[global] Instance ErrorCategory_eq_dec : EqDecision ErrorCategory.
Proof. solve_decision. Defined.

(** The [category] class attribute of each [AgentError] subclass; [None] for
    an exception that is not an [AgentError]. *)
Definition category (e : exn) : option ErrorCategory :=
  match e with
  | MissingContextError => Some LOGIC
  | TenantIsolationError => Some PERMISSION
  | IllegalTaskTransitionError => Some LOGIC
  | TaskNotAwaitingApprovalError => Some LOGIC
  | CircuitBreakerOpenError _ => Some TRANSIENT
  | CircuitBreakerBackendError => Some EXTERNAL
  | RateLimiterBackendError => Some EXTERNAL
  | BudgetBackendError => Some EXTERNAL
  | LLMError _ => Some EXTERNAL
  | LLMTransientError _ | LLMRateLimitedError _ => Some TRANSIENT
  | LLMInvalidRequestError _ => Some VALIDATION
  | LLMAuthError _ => Some PERMISSION
  | LLMBudgetExceededError _ _ => Some PERMISSION
  | ToolError _ | ToolExecutionError _ => Some EXTERNAL
  | ToolValidationError _ | ToolNotFoundError _ => Some VALIDATION
  | ToolPermissionError _ => Some PERMISSION
  | GitProviderError _ => Some EXTERNAL
  | GitProviderTransientError _ => Some TRANSIENT
  | GitProviderAuthError _ => Some PERMISSION
  | GitProviderInvalidRequestError _ => Some VALIDATION
  | PromptNotFoundError _ _ => Some LOGIC
  | QueueError _ => Some TRANSIENT
  | _ => None
  end.

Definition retryable (e : exn) : bool :=
  match category e with Some c => bool_decide (c = TRANSIENT) | None => false end.

(** ** Checkpoints, outbox and audit rows *)

Record TaskCheckpoint : Type := mkCheckpoint {
  cp_checkpoint_id : string;
  cp_task_id : string;
  cp_tenant_id : string;
  cp_trace_id : string;
  cp_node_name : string;
  cp_sequence : Z;
  cp_state_snapshot : dict;
  cp_created_at : Z
}.

Inductive OutboxStatus : Type := OB_PENDING | OB_DISPATCHED | OB_FAILED.

#[global] Instance OutboxStatus_eq_dec : EqDecision OutboxStatus.
Proof. solve_decision. Defined.

Record OutboxEvent : Type := mkOutboxEvent {
  ob_event_id : string;
  ob_tenant_id : string;
  ob_trace_id : string;
  ob_aggregate_type : string;
  ob_aggregate_id : string;
  ob_topic : string;
  ob_payload : dict;
  ob_idempotency_key : string;
  ob_status : OutboxStatus;
  ob_attempts : Z;
  ob_created_at : Z;
  ob_dispatched_at : option Z
}.

Record AuditEvent : Type := mkAuditEvent {
  ae_event_id : string;
  ae_tenant_id : string;
  ae_principal_id : string;
  ae_session_id : option string;
  ae_task_id : option string;
  ae_trace_id : string;
  ae_action : string;
  ae_payload : dict;
  ae_occurred_at : Z
}.

Record MessageEnvelope : Type := mkEnvelope {
  env_message_id : string;
  env_topic : string;
  env_tenant_id : string;
  env_trace_id : string;
  env_idempotency_key : string;
  env_principal_id : option string;
  env_session_id : option string;
  env_task_id : option string;
  env_request_id : option string;
  env_aggregate_type : option string;
  env_aggregate_id : option string;
  env_event_type : string;
  env_payload : dict;
  env_attempts : Z;
  env_occurred_at : Z;
  env_enqueued_at : Z
}.

Record Workspace : Type := mkWorkspace {
  ws_workspace_id : string;
  ws_tenant_id : string;
  ws_task_id : string;
  ws_trace_id : string;
  ws_repo_url : option string;
  ws_base_ref : option string;
  ws_branch : string;
  ws_worktree_path : string;
  ws_created_at : Z
}.

(** ** Request context ([infra/security/context.py]) *)

Record RequestContext : Type := mkContext {
  ctx_tenant_id : string;
  ctx_principal_id : string;
  ctx_trace_id : string;
  ctx_request_id : string;
  ctx_session_id : option string;
  ctx_task_id : option string;
  ctx_idempotency_key : option string
}.

(** A world with a context variable: the [ContextVar] [_CURRENT]. *)
Class HasContext (W : Type) : Type := {
  current_ctx : W -> option RequestContext;
  set_ctx : option RequestContext -> W -> W;
  current_set_ctx : forall c w, current_ctx (set_ctx c w) = c;
  set_ctx_current : forall w, set_ctx (current_ctx w) w = w;
  set_ctx_set_ctx : forall c1 c2 w, set_ctx c1 (set_ctx c2 w) = set_ctx c1 w
}.

Section Context.
Context {W : Type} `{!HasContext W}.

Definition require_current : M W RequestContext := fun w =>
  match current_ctx w with
  | Some c => (Ok c, w)
  | None => (Err MissingContextError, w)
  end.

Definition require_tenant_id : M W string :=
  c <- require_current ;; ret (ctx_tenant_id c).

(** [with bind_context(context): body] restores the previous binding on the
    way out, also when the body raises. *)
Definition bind_context {A} (c : RequestContext) (body : M W A) : M W A := fun w =>
  let saved := current_ctx w in
  let '(r, w') := body (set_ctx (Some c) w) in (r, set_ctx saved w').

(** [check_tenant] of [infra/persistence/_guard.py]. *)
Definition check_tenant (tenant_id : string) : M W unit :=
  bound <- require_tenant_id ;;
  if String.eqb bound tenant_id then ret tt else raise TenantIsolationError.

Lemma check_tenant_ok tenant w c :
  current_ctx w = Some c -> ctx_tenant_id c = tenant ->
  check_tenant tenant w = (Ok tt, w).
Proof.
  intros Hc <-. unfold check_tenant, require_tenant_id, require_current, bind. rewrite Hc. simpl.
  by rewrite String.eqb_refl.
Qed.

Lemma check_tenant_mismatch tenant w c :
  current_ctx w = Some c -> ctx_tenant_id c <> tenant ->
  check_tenant tenant w = (Err TenantIsolationError, w).
Proof.
  intros Hc Hne. unfold check_tenant, require_tenant_id, require_current, bind. rewrite Hc. simpl.
  apply String.eqb_neq in Hne. by rewrite Hne.
Qed.

Lemma check_tenant_unbound tenant w :
  current_ctx w = None -> check_tenant tenant w = (Err MissingContextError, w).
Proof. intros Hc. unfold check_tenant, require_tenant_id, require_current, bind. by rewrite Hc. Qed.

(** The guard never changes the world, and it passes exactly when the bound
    context carries the requested tenant. *)
Lemma check_tenant_inv tenant w r w' :
  check_tenant tenant w = (r, w') ->
  w' = w /\ (r = Ok tt <-> exists c, current_ctx w = Some c /\ ctx_tenant_id c = tenant).
Proof.
  unfold check_tenant, require_tenant_id, require_current, bind.
  destruct (current_ctx w) as [c|]; simpl.
  - destruct (String.eqb_spec (ctx_tenant_id c) tenant); unfold ret, raise;
      intros [= <- <-]; naive_solver.
  - intros [= <- <-]. naive_solver.
Qed.

(** [bind_context] leaves the binding the caller had, on every path. *)
Lemma bind_context_restores {A} c (body : M W A) w :
  current_ctx (bind_context c body w).2 = current_ctx w.
Proof.
  unfold bind_context. destruct (body _) as [r w']. simpl. apply current_set_ctx.
Qed.

Lemma bind_context_eq {A} c (body : M W A) w r w' :
  body (set_ctx (Some c) w) = (r, w') ->
  bind_context c body w = (r, set_ctx (current_ctx w) w').
Proof. unfold bind_context. by intros ->. Qed.
End Context.

(** ** Usage rows ([core/domain/llm_usage.py]) *)

Inductive LLMUsageStatus : Type := USAGE_OK | USAGE_ERROR.

Record LLMUsageRecord : Type := mkUsageRecord {
  ur_record_id : string; ur_tenant_id : string; ur_trace_id : string; ur_request_id : option string;
  ur_principal_id : option string; ur_session_id : option string; ur_task_id : option string;
  ur_provider : string; ur_model : option string; ur_requested_model : option string;
  ur_prompt_tokens : option Z; ur_completion_tokens : option Z; ur_total_tokens : option Z;
  ur_finish_reason : option string; ur_provider_response_id : option string;
  ur_prompt_id : option string; ur_prompt_version : option Z; ur_prompt_excerpt : option string;
  ur_step_kind : option string; ur_cost_usd_micros : option Z; ur_latency_ms : Z;
  ur_status : LLMUsageStatus; ur_error_category : option ErrorCategory;
  ur_error_message : option string; ur_created_at : Z
}.

(** The numeric constraints of the row; [LLMUsage] has none of its own. *)
Definition check_usage_record (r : LLMUsageRecord) : res LLMUsageRecord :=
  let nonneg o := match o with Some n => 0 <=? n | None => true end in
  if nonneg (ur_prompt_tokens r) && nonneg (ur_completion_tokens r) && nonneg (ur_total_tokens r)
     && nonneg (ur_cost_usd_micros r) && (0 <=? ur_latency_ms r)
  then Ok r else Err (ValidationError "LLMUsageRecord").

(** ** Sessions ([core/domain/session.py]) *)

Record Session : Type := mkSession {
  se_session_id : string; se_tenant_id : string; se_principal_id : string;
  se_created_at : Z; se_last_active_at : Z; se_is_closed : bool
}.
