(* ===== verification/Cursor.v ===== *)
(** * Cursor: the opaque cursors of the query API

    [api/cursor.py]: a timestamp and an id, joined with a bar and written in
    unpadded URL-safe base64.  The base64 of the standard library is modelled
    with its lenient decoder, which skips characters outside the alphabet and
    stops at a complete padding.  [datetime.isoformat] and [fromisoformat] are a
    parameter with their documented laws. *)

From S2P Require Import Prelude PyText Utf8.
Import Utf8.

(** ** Base64 *)

(** [base64.urlsafe_b64encode]. *)
Definition b64_char (n : N) : Ascii.ascii :=
  Ascii.ascii_of_N
    (if N.ltb n 26 then n + 65 else if N.ltb n 52 then n + 71 else if N.ltb n 62 then n - 4
     else if N.eqb n 62 then 45 else 95)%N.

Fixpoint b64_encode (s : string) : string :=
  match s with
  | EmptyString => ""
  | String a s1 =>
      let x := Ascii.N_of_ascii a in
      match s1 with
      | EmptyString =>
          String (b64_char (x / 4)) (String (b64_char (x mod 4 * 16)) "==")
      | String b s2 =>
          let y := Ascii.N_of_ascii b in
          match s2 with
          | EmptyString =>
              String (b64_char (x / 4)) (String (b64_char (x mod 4 * 16 + y / 16))
                (String (b64_char (y mod 16 * 4)) "="))
          | String c s3 =>
              let z := Ascii.N_of_ascii c in
              String (b64_char (x / 4)) (String (b64_char (x mod 4 * 16 + y / 16))
                (String (b64_char (y mod 16 * 4 + z / 64)) (String (b64_char (z mod 64)) (b64_encode s3))))
          end
      end
  end%N.

(** The alphabet after the translation of [-_] to [+/], which leaves [+/] in. *)
Definition b64_value (c : Ascii.ascii) : option N :=
  let n := Ascii.N_of_ascii c in
  (if N.leb 65 n && N.leb n 90 then Some (n - 65)
   else if N.leb 97 n && N.leb n 122 then Some (n - 71)
   else if N.leb 48 n && N.leb n 57 then Some (n + 4)
   else if N.eqb n 45 || N.eqb n 43 then Some 62
   else if N.eqb n 95 || N.eqb n 47 then Some 63
   else None)%N.

(** [binascii.a2b_base64], not strict: [quad] characters of the current group are
    read, [left] are the bits left over from the last of them. *)
Fixpoint b64_decode_from (quad : nat) (left : N) (pads : nat) (s : string) : option string :=
  match s with
  | EmptyString => if Nat.eqb quad 0 then Some "" else None
  | String c s' =>
      if char_is 61 c then
        if Nat.leb 2 quad then if Nat.leb 4 (quad + S pads) then Some "" else b64_decode_from quad left (S pads) s'
        else b64_decode_from quad left pads s'
      else
        match b64_value c with
        | None => b64_decode_from quad left pads s'
        | Some v =>
            match quad with
            | O => b64_decode_from 1 v 0 s'
            | 1%nat => String (Ascii.ascii_of_N (left * 4 + v / 16)) <$> b64_decode_from 2 (v mod 16) 0 s'
            | 2%nat => String (Ascii.ascii_of_N (left * 16 + v / 4)) <$> b64_decode_from 3 (v mod 4) 0 s'
            | _ => String (Ascii.ascii_of_N (left * 64 + v)) <$> b64_decode_from 0 0 0 s'
            end
        end
  end%N.
Definition b64_decode (s : string) : option string := b64_decode_from 0 0 0 s.

(** [rstrip(b"=")]. *)
Fixpoint rstrip_pad (s : string) : string :=
  match s with
  | EmptyString => ""
  | String c s' => let t := rstrip_pad s' in
                   if char_is 61 c && negb (nonempty t) then "" else String c t
  end.

(** ** The codec *)

Record DateTime : Type := mkDateTime { dt_aware : bool; dt_instant : Z }.

Class IsoFormat := {
  isoformat : DateTime -> string;
  fromisoformat : string -> option DateTime
}.

(** What [datetime] documents: ISO 8601 text, read back to the same instant. *)
Class IsoFormatLaws `{!IsoFormat} : Prop := {
  iso_roundtrip : forall t, dt_aware t = true -> fromisoformat (isoformat t) = Some t;
  iso_ascii : forall t, is_ascii (isoformat t) = true;
  iso_no_bar : forall t, str_contains "|" (isoformat t) = false
}.

Section Codec.
Context `{!IsoFormat}.

Definition encode_cursor (timestamp : DateTime) (identifier : string) : res string :=
  if negb (dt_aware timestamp) then Err (CursorError "cursor timestamps must be timezone-aware")
  else if negb (nonempty identifier) then Err (CursorError "cursor identifier must be non-empty")
  else if str_contains "|" identifier then Err (CursorError "cursor identifier must not contain '|'")
  else Ok (rstrip_pad (b64_encode (isoformat timestamp +:+ "|" +:+ identifier))).

(** ["=" * (-len(cursor) % 4)]. *)
Definition padding (n : nat) : string :=
  match Nat.modulo n 4 with O => "" | 1%nat => "===" | 2%nat => "==" | _ => "=" end.

Definition decode_cursor (cursor : string) : res (DateTime * string) :=
  if negb (nonempty cursor) then Err (CursorError "cursor must be non-empty")
  else if negb (is_ascii cursor) then Err (CursorError "cursor base64 invalid")
  else match b64_decode (cursor +:+ padding (String.length cursor)) with
  | None => Err (CursorError "cursor base64 invalid")
  | Some raw =>
      if negb (valid raw) then Err (CursorError "cursor payload not utf-8")
      else match str_split_once "|" raw with
      | None => Err (CursorError "cursor payload missing separator")
      | Some (ts_part, id_part) =>
          if negb (nonempty id_part) then Err (CursorError "cursor identifier missing")
          else match fromisoformat ts_part with
          | None => Err (CursorError "cursor timestamp invalid")
          | Some t => if dt_aware t then Ok (t, id_part)
                      else Err (CursorError "cursor timestamp must be timezone-aware")
          end
      end
  end.
End Codec.

(** ** Base64 round trip *)

Lemma b64_value_char n : (n < 64)%N -> b64_value (b64_char n) = Some n /\ char_is 61 (b64_char n) = false /\
  Nat.leb (Ascii.nat_of_ascii (b64_char n)) 127 = true.
Proof.
  intros H. assert (In n (map N.of_nat (List.seq 0 64))) as Hin.
  { apply in_map_iff. exists (N.to_nat n). split; [lia|]. apply in_seq. lia. }
  assert (List.Forall (fun n => b64_value (b64_char n) = Some n /\ char_is 61 (b64_char n) = false /\
    Nat.leb (Ascii.nat_of_ascii (b64_char n)) 127 = true) (map N.of_nat (List.seq 0 64))) as Hall by repeat constructor.
  rewrite List.Forall_forall in Hall. by apply Hall.
Qed.

Lemma byte_bound a : (Ascii.N_of_ascii a < 256)%N.
Proof. apply Ascii.N_ascii_bounded. Qed.

(** Reading a group of the encoder. *)
Lemma decode_char quad left pads n s :
  (n < 64)%N -> b64_decode_from quad left pads (String (b64_char n) s) =
  match quad with
  | O => b64_decode_from 1 n 0 s
  | 1%nat => String (Ascii.ascii_of_N (left * 4 + n / 16)) <$> b64_decode_from 2 (n mod 16) 0 s
  | 2%nat => String (Ascii.ascii_of_N (left * 16 + n / 4)) <$> b64_decode_from 3 (n mod 4) 0 s
  | _ => String (Ascii.ascii_of_N (left * 64 + n)) <$> b64_decode_from 0 0 0 s
  end.
Proof.
  intros Hn. destruct (b64_value_char n Hn) as (Hv & Hp & _). cbn [b64_decode_from]. by rewrite Hp, Hv.
Qed.

Lemma ascii_of_byte a n : n = Ascii.N_of_ascii a -> Ascii.ascii_of_N n = a.
Proof. intros ->. apply Ascii.ascii_N_embedding. Qed.

Lemma string_ind3 (P : string -> Prop) :
  P "" -> (forall a, P (String a "")) -> (forall a b, P (String a (String b ""))) ->
  (forall a b c s, P s -> P (String a (String b (String c s)))) -> forall s, P s.
Proof.
  intros H0 H1 H2 H3. fix IH 1. intros [|a [|b [|c s]]]; [exact H0|apply H1|apply H2|apply H3, IH].
Qed.

Ltac divlia := zify; Z.to_euclidean_division_equations; lia.

Lemma b64_roundtrip s : b64_decode (b64_encode s) = Some s.
Proof.
  unfold b64_decode. induction s as [|a|a b|a b c s IH] using string_ind3; [done|..].
  all: pose proof (byte_bound a); try pose proof (byte_bound b); try pose proof (byte_bound c).
  all: cbn [b64_encode]; rewrite !decode_char by divlia.
  - change (b64_decode_from 2 _ 0 "==") with (Some ""). cbn [fmap option_fmap option_map].
    do 2 f_equal. apply ascii_of_byte. divlia.
  - change (b64_decode_from 3 _ 0 "=") with (Some ""). cbn [fmap option_fmap option_map].
    do 2 f_equal; [|f_equal]; apply ascii_of_byte; divlia.
  - rewrite IH. cbn [fmap option_fmap option_map].
    do 2 f_equal; [|f_equal; [|f_equal]]; apply ascii_of_byte; divlia.
Qed.

(** ** Padding *)

Lemma rstrip_char n t : (n < 64)%N -> rstrip_pad (String (b64_char n) t) = String (b64_char n) (rstrip_pad t).
Proof. intros Hn. cbn [rstrip_pad]. by rewrite (proj1 (proj2 (b64_value_char n Hn))). Qed.

(** Stripping the padding and putting it back. *)
Lemma strip_and_pad s :
  let t := rstrip_pad (b64_encode s) in t +:+ padding (String.length t) = b64_encode s.
Proof.
  induction s as [|a|a b|a b c s IH] using string_ind3; [done|..].
  all: pose proof (byte_bound a); try pose proof (byte_bound b); try pose proof (byte_bound c).
  all: cbn [b64_encode]; rewrite !rstrip_char by divlia; cbv zeta; cbn [String.length]; rewrite ?app_cons; do 2 f_equal.
  cbv zeta in IH. do 2 f_equal.
  replace (padding _) with (padding (String.length (rstrip_pad (b64_encode s)))); [exact IH|].
  unfold padding. set (n := String.length _). replace (S (S (S (S n)))) with (n + 1 * 4)%nat by lia.
  by rewrite Nat.Div0.mod_add.
Qed.

Lemma b64_ascii s : is_ascii (rstrip_pad (b64_encode s)) = true.
Proof.
  induction s as [|a|a b|a b c s IH] using string_ind3; [done|..].
  all: pose proof (byte_bound a); try pose proof (byte_bound b); try pose proof (byte_bound c).
  all: cbn [b64_encode]; rewrite !rstrip_char by divlia; cbn [is_ascii].
  all: repeat (match goal with |- context [b64_char ?n] =>
         rewrite (proj2 (proj2 (b64_value_char n ltac:(divlia)))); cbn [andb] end); try done; exact IH.
Qed.

(** ** Cursor round trip *)

Definition bar : Ascii.ascii := Ascii.ascii_of_nat 124.

Lemma prefix_bar c s : String.prefix "|" (String c s) = Ascii.eqb bar c.
Proof.
  change "|" with (String bar ""). cbn [String.prefix]. destruct (Ascii.ascii_dec bar c) as [<-|Hne].
  - rewrite Ascii.eqb_refl. by destruct s.
  - by apply Ascii.eqb_neq in Hne.
Qed.

Lemma split_once_cons c s :
  str_split_once "|" (String c s) =
  if Ascii.eqb bar c then Some ("", s)
  else match str_split_once "|" s with Some (a, b) => Some (String c a, b) | None => None end.
Proof.
  change (str_split_once "|" (String c s)) with
    (if String.prefix "|" (String c s)
     then Some ("", String.substring (String.length "|") (String.length (String c s)) (String c s))
     else match str_split_once "|" s with Some (a, b) => Some (String c a, b) | None => None end).
  rewrite prefix_bar. destruct (Ascii.eqb bar c); [|done]. do 2 f_equal. cbn [String.length String.substring].
  apply substring_whole. lia.
Qed.

Lemma split_once_bar a b : str_contains "|" a = false -> str_split_once "|" (a +:+ "|" +:+ b) = Some (a, b).
Proof.
  unfold str_contains. induction a as [|c a IH]; intros H.
  - change ("" +:+ "|" +:+ b) with (String bar b). by rewrite split_once_cons, Ascii.eqb_refl.
  - rewrite app_cons, split_once_cons. rewrite split_once_cons in H. destruct (Ascii.eqb bar c); [done|].
    destruct (str_split_once "|" a) as [[x y]|] eqn:E; [done|]. by rewrite IH.
Qed.

Lemma ascii_valid s : is_ascii s = true -> valid s = true.
Proof.
  induction s as [|c s IH]; [done|]. cbn [is_ascii]. intros [Hc Hs]%andb_true_iff.
  unfold valid. cbn [pieces]. unfold one_byte, in_range. rewrite Hc. cbn [Nat.leb andb forallb]. by apply IH.
Qed.

Lemma encoded_nonempty s : s <> "" -> nonempty (rstrip_pad (b64_encode s)) = true.
Proof.
  intros Hs. apply nonempty_true. intros E. pose proof (strip_and_pad s) as H. rewrite E in H. cbn in H.
  pose proof (b64_roundtrip s) as R. rewrite <- H in R. by injection R as <-.
Qed.

Section CodecFacts.
Context `{!IsoFormat, !IsoFormatLaws}.

Lemma cursor_roundtrip t i :
  dt_aware t = true -> nonempty i = true -> str_contains "|" i = false -> valid i = true ->
  exists c, encode_cursor t i = Ok c /\ decode_cursor c = Ok (t, i).
Proof.
  intros Ht Hi Hb Hv. unfold encode_cursor. rewrite Ht, Hi, Hb. cbn [negb]. eexists. split; [done|].
  set (raw := isoformat t +:+ "|" +:+ i). assert (raw <> "") as Hraw.
  { unfold raw. destruct (isoformat t); [done|]. by rewrite app_cons. }
  unfold decode_cursor. rewrite encoded_nonempty, b64_ascii by done. cbn [negb].
  rewrite strip_and_pad, b64_roundtrip.
  assert (valid raw = true) as ->.
  { apply valid_app; [by apply ascii_valid, iso_ascii|]. by apply (valid_app "|" i). }
  cbn [negb]. unfold raw. rewrite split_once_bar by apply iso_no_bar. rewrite Hi. cbn [negb].
  by rewrite iso_roundtrip, Ht.
Qed.

(** Every cursor the codec accepts names an aware time and a non-empty id. *)
Lemma decode_cursor_inv c t i : decode_cursor c = Ok (t, i) -> dt_aware t = true /\ nonempty i = true.
Proof.
  unfold decode_cursor. destruct (negb (nonempty c)); [done|]. destruct (negb (is_ascii c)); [done|].
  destruct (b64_decode _); [|done]. destruct (negb (valid s)); [done|].
  destruct (str_split_once "|" s) as [[a b]|]; [|done]. destruct (nonempty b) eqn:E; [|done]. cbn [negb].
  destruct (fromisoformat a) as [d|]; [|done]. destruct (dt_aware d) eqn:Ed; [|done]. by intros [= <- <-].
Qed.
End CodecFacts.
