(* ===== verification/Keyset.v ===== *)
(** * Keyset: pages of an ordered query

    The listing queries order rows by a time and an id and continue strictly
    after the key of the last row of the previous page.  This file has the query
    and what the pages of one unchanged table add up to, for any strict total
    order of the keys; [Reporting] uses it in both directions.

    Text is compared by the collation of the database, a parameter: [TextOrder]
    asks for a strict total order, and byte order is an instance. *)

From S2P Require Import Prelude.
From Stdlib Require Import OrdersEx.

Class StrictOrderB {K : Type} (lt : K -> K -> bool) : Prop := {
  lt_irrefl : forall a, lt a a = false;
  lt_trans : forall a b c, lt a b = true -> lt b c = true -> lt a c = true;
  lt_total : forall a b, lt a b = false -> lt b a = false -> a = b
}.

Class TextOrder : Type := {
  text_lt : string -> string -> bool;
  text_lt_strict :: StrictOrderB text_lt
}.

(** Byte order, the [C] collation. *)
Definition byte_lt (a b : string) : bool := match String_as_OT.compare a b with Lt => true | _ => false end.

Lemma byte_lt_strict : StrictOrderB byte_lt.
Proof.
  assert (forall a b, byte_lt a b = true <-> String_as_OT.lt a b) as Hlt.
  { intros a b. unfold byte_lt, String_as_OT.lt. by destruct (String_as_OT.compare a b). }
  pose proof String_as_OT.lt_strorder as [Hirr Htr]. split.
  - intros a. destruct (byte_lt a a) eqn:E; [|done]. apply Hlt in E. by apply Hirr in E.
  - intros a b c H1 H2. apply Hlt in H1, H2. apply Hlt. by eapply Htr.
  - intros a b H1 H2. pose proof (String_as_OT.compare_spec a b) as HC.
    inversion HC as [E|L|L]; [done| |]; apply Hlt in L; congruence.
Qed.

(** [a < b OR (a = b AND id < id')] on (time, id). *)
Definition key_lt `{!TextOrder} (a b : Z * string) : bool :=
  (a.1 <? b.1) || ((a.1 =? b.1) && text_lt a.2 b.2).
Definition key_gt `{!TextOrder} (a b : Z * string) : bool := key_lt b a.

#[export] Instance key_lt_strict `{!TextOrder} : StrictOrderB key_lt.
Proof.
  split; unfold key_lt.
  - intros [x i]. simpl. by rewrite Z.ltb_irrefl, Z.eqb_refl, lt_irrefl.
  - intros [x i] [y j] [z k]. simpl. rewrite !orb_true_iff, !andb_true_iff, !Z.ltb_lt, !Z.eqb_eq.
    intros [?|[-> ?]] [?|[-> ?]]; [left; lia|by left|by left|right; split; [done|by eapply lt_trans]].
  - intros [x i] [y j]. simpl. rewrite !orb_false_iff, !andb_false_iff, !Z.ltb_ge, !Z.eqb_neq.
    intros [? [?|?]] [? [?|?]]; try lia. assert (x = y) as -> by lia. f_equal. by apply lt_total.
Qed.

#[export] Instance key_gt_strict `{!TextOrder} : StrictOrderB key_gt.
Proof.
  split; unfold key_gt; [apply lt_irrefl|intros a b c H1 H2; by eapply lt_trans|intros a b H1 H2; by apply lt_total].
Qed.

(** ** The query *)

Section Keyset.
Context {A K : Type} (key : A -> K) (lt : K -> K -> bool) `{!StrictOrderB lt}.

Definition row_le (a b : A) : Prop := lt (key b) (key a) = false.
#[local] Instance row_le_dec : RelDecision row_le.
Proof. intros a b. unfold row_le. apply _. Defined.

Definition past (cursor : option K) (x : A) : bool :=
  match cursor with None => true | Some k => lt k (key x) end.

(** [WHERE p AND key > cursor ORDER BY key LIMIT n]. *)
Definition ordered (p : A -> bool) (rows : list A) : list A := merge_sort row_le (List.filter p rows).
Definition keyset_page (p : A -> bool) (cursor : option K) (n : nat) (rows : list A) : list A :=
  take n (ordered (fun x => p x && past cursor x) rows).

#[local] Instance row_le_total : Total row_le.
Proof.
  intros a b. unfold row_le. destruct (lt (key b) (key a)) eqn:E1; [|by left].
  destruct (lt (key a) (key b)) eqn:E2; [|by right].
  pose proof (lt_trans _ _ _ E1 E2) as H. by rewrite lt_irrefl in H.
Qed.

#[local] Instance row_le_trans : Transitive row_le.
Proof.
  intros a b c. unfold row_le. intros H1 H2. destruct (lt (key c) (key a)) eqn:E; [|done].
  destruct (lt (key a) (key b)) eqn:E1.
  - pose proof (lt_trans _ _ _ E E1) as H. congruence.
  - assert (key a = key b) as Hk by by apply lt_total. rewrite Hk in E. congruence.
Qed.

Lemma ordered_perm p rows : ordered p rows ≡ₚ List.filter p rows.
Proof. apply merge_sort_Permutation. Qed.

(** Rows of distinct keys are strictly increasing. *)
Definition increasing : list A -> Prop := StronglySorted (fun a b => lt (key a) (key b) = true).

Lemma ordered_increasing p rows : NoDup (map key (List.filter p rows)) -> increasing (ordered p rows).
Proof.
  intros Hn. unfold increasing, ordered.
  pose proof (StronglySorted_merge_sort row_le (List.filter p rows)) as HS.
  pose proof (merge_sort_Permutation row_le (List.filter p rows)) as HP.
  assert (NoDup (map key (merge_sort row_le (List.filter p rows)))) as Hn' by (by rewrite HP).
  clear HP Hn. induction HS as [|a l HS IH Hall]; [constructor|].
  simpl in Hn'. apply NoDup_cons in Hn' as [Hnew Hn']. constructor; [by apply IH|].
  rewrite Forall_forall in Hall |- *. intros b Hb. specialize (Hall b Hb). unfold row_le in Hall.
  destruct (lt (key a) (key b)) eqn:E; [done|]. exfalso. apply Hnew.
  assert (key a = key b) as -> by by apply lt_total. apply list_elem_of_fmap. by exists b.
Qed.

Lemma increasing_unique l1 l2 : increasing l1 -> increasing l2 -> l1 ≡ₚ l2 -> l1 = l2.
Proof.
  unfold increasing. revert l2. induction l1 as [|a l1 IH]; intros [|b l2] H1 H2 HP.
  - done.
  - by apply Permutation_nil_cons in HP.
  - symmetry in HP. by apply Permutation_nil_cons in HP.
  - apply StronglySorted_inv in H1 as [H1 Ha], H2 as [H2 Hb]. rewrite Forall_forall in Ha, Hb.
    assert (a = b) as ->.
    { assert (a ∈ b :: l2) as H by (rewrite <- HP; left). assert (b ∈ a :: l1) as H' by (rewrite HP; left).
      apply elem_of_cons in H as [->|H]; [done|]. apply elem_of_cons in H' as [->|H']; [done|].
      pose proof (lt_trans _ _ _ (Ha _ H') (Hb _ H)) as F. by rewrite lt_irrefl in F. }
    f_equal. apply IH; [done..|]. by eapply Permutation_cons_inv.
Qed.

(** Where a client is in the full listing: the rows still to come. *)
Definition at_cursor (all : list A) (cursor : option K) (rest : list A) : Prop :=
  match cursor with
  | None => rest = all
  | Some k => exists before x, all = before ++ x :: rest /\ k = key x
  end.

Lemma filter_increasing_past before x rest :
  increasing (before ++ x :: rest) -> List.filter (past (Some (key x))) (before ++ x :: rest) = rest.
Proof.
  unfold increasing. induction before as [|a before IH]; simpl; intros H.
  - apply StronglySorted_inv in H as [_ H]. rewrite lt_irrefl. clear -H. induction H as [|b l Hb _ IH]; [done|].
    simpl. by rewrite Hb, IH.
  - apply StronglySorted_inv in H as [H Ha]. rewrite Forall_forall in Ha.
    assert (lt (key a) (key x) = true) as Hax by (apply Ha; set_solver).
    destruct (lt (key x) (key a)) eqn:E; [|by apply IH].
    pose proof (lt_trans _ _ _ E Hax) as F. by rewrite lt_irrefl in F.
Qed.

Lemma filter_and {B} (p q : B -> bool) l : List.filter (fun x => p x && q x) l = List.filter q (List.filter p l).
Proof. induction l as [|x l IH]; simpl; [done|]. destruct (p x); simpl; [destruct (q x)|]; by rewrite ?IH. Qed.

Lemma filter_perm {B} (q : B -> bool) l1 l2 : l1 ≡ₚ l2 -> List.filter q l1 ≡ₚ List.filter q l2.
Proof.
  induction 1 as [|x l1 l2 _ IH|x y l|l1 l2 l3 _ IH1 _ IH2]; simpl; [done| | |by etrans].
  - destruct (q x); by rewrite ?IH.
  - destruct (q x), (q y); try done. apply Permutation_swap.
Qed.

Lemma filter_increasing q l : increasing l -> increasing (List.filter q l).
Proof.
  unfold increasing. induction 1 as [|a l H IH Ha]; simpl; [constructor|]. destruct (q a); [|done].
  constructor; [done|]. rewrite Forall_forall in Ha |- *. intros b Hb. apply Ha.
  rewrite list_elem_of_In in *. by apply filter_In in Hb as [Hb _].
Qed.

(** A page is the next rows of the full listing. *)
Lemma keyset_page_at p rows cursor rest n :
  NoDup (map key (List.filter p rows)) -> at_cursor (ordered p rows) cursor rest ->
  keyset_page p cursor n rows = take n rest.
Proof.
  intros Hn Hat. unfold keyset_page. f_equal. pose proof (ordered_increasing p rows Hn) as Hinc.
  assert (ordered (fun x => p x && past cursor x) rows = List.filter (past cursor) (ordered p rows)) as ->.
  { apply increasing_unique.
    - apply ordered_increasing. rewrite filter_and. clear -Hn. induction (List.filter p rows) as [|a l IH]; [done|].
      simpl in Hn. apply NoDup_cons in Hn as [Ha Hn]. simpl. destruct (past cursor a); [|by apply IH].
      simpl. apply NoDup_cons. split; [|by apply IH]. intros H. apply Ha.
      apply list_elem_of_fmap in H as (b & -> & Hb). apply list_elem_of_fmap. exists b. split; [done|].
      rewrite list_elem_of_In in *. by apply filter_In in Hb as [Hb _].
    - by apply filter_increasing.
    - rewrite ordered_perm, filter_and. apply filter_perm. symmetry. apply ordered_perm. }
  destruct cursor as [k|]; simpl in Hat.
  - destruct Hat as (before & x & E & ->). rewrite E in Hinc |- *. by apply filter_increasing_past.
  - subst rest. clear. induction (ordered p rows) as [|a l IH]; [done|]. simpl. by f_equal.
Qed.

(** A full page ends at a row from which the client can continue. *)
Lemma at_cursor_next all cursor rest n :
  (0 < n)%nat -> at_cursor all cursor rest -> length (take n rest) = n ->
  exists y, last (take n rest) = Some y /\ at_cursor all (Some (key y)) (drop n rest).
Proof.
  intros Hn Hat Hl. destruct (last (take n rest)) as [y|] eqn:E.
  2:{ apply last_None in E. rewrite E in Hl. simpl in Hl. lia. }
  exists y. split; [done|]. apply last_Some in E as [l' E].
  assert (rest = l' ++ y :: drop n rest) as Er.
  { rewrite <- (take_drop n rest) at 1. rewrite E, <- app_assoc. done. }
  destruct cursor as [k|]; simpl in *.
  - destruct Hat as (before & x & -> & _). exists (before ++ x :: l'), y. split; [|done].
    rewrite <- app_assoc. simpl. by rewrite <- Er.
  - subst all. by exists l', y.
Qed.
End Keyset.
