(* ===== verification/GraphRuntime.v ===== *)
(** * GraphRuntime: the orchestration runtime

    [core/orchestration/state.py] (the immutable [TaskRunState], its
    [advance], and its JSON snapshot) and [core/orchestration/graph.py] (the
    [Graph] builder, [compile], [_resolve_next], [step] and [run]).  A graph is
    polymorphic in the world [W] its nodes act on. *)

From S2P Require Import Prelude Domain.

(** ** [TaskRunState] *)

Definition START : string := "__start__".
Definition END : string := "__end__".

Record TaskRunState : Type := mkRunState {
  task_id : string;
  tenant_id : string;
  trace_id : string;
  graph_id : string;
  current_node : string;
  sequence : Z;
  data : dict;
  finished : bool;
  awaiting_approval : bool;
  error : option string
}.

(** A fresh run: [TaskRunState(task_id=.., .., data=data)] with the model's
    defaults. *)
Definition initial_state (tid ten tra gid : string) (d : dict) : TaskRunState :=
  mkRunState tid ten tra gid START 0 d false false None.

(** [state.model_copy(update={"data": ..})]. *)
Definition with_data (s : TaskRunState) (d : dict) : TaskRunState :=
  mkRunState (task_id s) (tenant_id s) (trace_id s) (graph_id s) (current_node s) (sequence s) d
    (finished s) (awaiting_approval s) (error s).

Definition advance (s : TaskRunState) (next_node : string) (data_update : dict)
    (fin : option bool) (awaiting : option bool) (err : option string) : TaskRunState :=
  let merged := dupdate (data s) data_update in
  let resolved_finished := match fin with Some b => b | None => String.eqb next_node END end in
  let resolved_awaiting := match awaiting with Some b => b | None => false end in
  mkRunState (task_id s) (tenant_id s) (trace_id s) (graph_id s) next_node (sequence s + 1) merged
    resolved_finished resolved_awaiting err.

(** [model_dump(mode="json")]: every declared field, in declaration order. *)
Definition model_dump (s : TaskRunState) : dict :=
  [ ("task_id", JStr (task_id s)); ("tenant_id", JStr (tenant_id s));
    ("trace_id", JStr (trace_id s)); ("graph_id", JStr (graph_id s));
    ("current_node", JStr (current_node s)); ("sequence", JInt (sequence s));
    ("data", JDict (data s)); ("finished", JBool (finished s));
    ("awaiting_approval", JBool (awaiting_approval s));
    ("error", opt_json JStr (error s)) ].

Definition run_state_fields : list string :=
  [ "task_id"; "tenant_id"; "trace_id"; "graph_id"; "current_node"; "sequence"; "data";
    "finished"; "awaiting_approval"; "error" ].

(** One field of [model_validate]: required, or with a default. *)
Definition field_str (d : dict) (k : string) (dflt : option string) : res string :=
  match dget d k with
  | Some (JStr s) => if nonempty s then Ok s else Err (ValidationError k)
  | Some _ => Err (ValidationError k)
  | None => match dflt with Some s => Ok s | None => Err (ValidationError k) end
  end.
Definition field_bool (d : dict) (k : string) (dflt : bool) : res bool :=
  match dget d k with
  | Some (JBool b) => Ok b
  | Some _ => Err (ValidationError k)
  | None => Ok dflt
  end.
Definition field_nonneg (d : dict) (k : string) (dflt : Z) : res Z :=
  match dget d k with
  | Some (JInt n) => if 0 <=? n then Ok n else Err (ValidationError k)
  | Some _ => Err (ValidationError k)
  | None => Ok dflt
  end.
Definition field_dict (d : dict) (k : string) : res dict :=
  match dget d k with
  | Some (JDict x) => Ok x
  | Some _ => Err (ValidationError k)
  | None => Ok []
  end.
Definition field_opt_str (d : dict) (k : string) : res (option string) :=
  match dget d k with
  | Some (JStr s) => Ok (Some s)
  | Some JNull | None => Ok None
  | Some _ => Err (ValidationError k)
  end.

(** [TaskRunState.model_validate] with [extra="forbid"]: an unknown key, a
    missing required field, an empty identifier or a negative sequence is
    refused. *)
Definition model_validate (d : dict) : res TaskRunState :=
  if forallb (fun kv => existsb (String.eqb kv.1) run_state_fields) d then
    let? tid := field_str d "task_id" None in
    let? ten := field_str d "tenant_id" None in
    let? tra := field_str d "trace_id" None in
    let? gid := field_str d "graph_id" None in
    let? cur := field_str d "current_node" (Some START) in
    let? seq := field_nonneg d "sequence" 0 in
    let? dat := field_dict d "data" in
    let? fin := field_bool d "finished" false in
    let? awa := field_bool d "awaiting_approval" false in
    let? err := field_opt_str d "error" in
    Ok (mkRunState tid ten tra gid cur seq dat fin awa err)
  else Err (ValidationError "extra").

(** The constraints pydantic checks when a state is constructed. *)
Definition valid_run_state (s : TaskRunState) : Prop :=
  nonempty (task_id s) = true /\ nonempty (tenant_id s) = true /\
  nonempty (trace_id s) = true /\ nonempty (graph_id s) = true /\
  nonempty (current_node s) = true /\ 0 <= sequence s.

Lemma model_dump_validate s : valid_run_state s -> model_validate (model_dump s) = Ok s.
Proof.
  destruct s as [tid ten tra gid cur seq dat fin awa err].
  intros (H1 & H2 & H3 & H4 & H5 & H6). simpl in *. apply Z.leb_le in H6.
  unfold model_validate, field_str, field_nonneg, field_dict, field_bool, field_opt_str. simpl.
  rewrite H1. simpl. rewrite H2. simpl. rewrite H3. simpl. rewrite H4. simpl. rewrite H5. simpl.
  rewrite H6. simpl. by destruct err.
Qed.

(** ** [Graph] *)

Record NodeResult : Type := mkNodeResult {
  nr_data_update : dict;
  nr_next_node : option string;
  nr_awaiting_approval : bool;
  nr_error : option string
}.

(** [NodeResult(data_update=..)] with the dataclass defaults. *)
Definition node_update (u : dict) : NodeResult := mkNodeResult u None false None.

Definition NodeFn (W : Type) : Type := TaskRunState -> M W NodeResult.
Definition RouterFn : Type := TaskRunState -> string.

Record Edge : Type := mkEdge { e_static : option string; e_router : option RouterFn }.

Record Graph (W : Type) : Type := mkGraph {
  g_graph_id : string;
  g_nodes : list (string * NodeFn W);
  g_edges : list (string * Edge);
  g_entry : option string
}.
Arguments mkGraph {W}.
Arguments g_graph_id {W}.
Arguments g_nodes {W}.
Arguments g_edges {W}.
Arguments g_entry {W}.

Section Builder.
Context {W : Type}.
Implicit Types g : Graph W.

Definition known g (name : string) : bool := dmem (g_nodes g) name.

Definition new_graph (gid : string) : res (Graph W) :=
  if nonempty gid then Ok (mkGraph gid [] [] None)
  else Err (GraphError "graph_id must be non-empty").

Definition add_node g (name : string) (fn : NodeFn W) : res (Graph W) :=
  if String.eqb name START || String.eqb name END then Err (GraphError "reserved sentinel")
  else if known g name then Err (GraphError "node already registered")
  else Ok (mkGraph (g_graph_id g) (dset (g_nodes g) name fn) (g_edges g) (g_entry g)).

Definition set_entry g (name : string) : res (Graph W) :=
  if known g name then Ok (mkGraph (g_graph_id g) (g_nodes g) (g_edges g) (Some name))
  else Err (GraphError "entry node is not registered").

Definition require_known g (name : string) : res unit :=
  if known g name then Ok tt else Err (GraphError "node is not registered").

Definition add_edge g (src dst : string) : res (Graph W) :=
  let? _ := require_known g src in
  let? _ := (if String.eqb dst END then Ok tt else require_known g dst) in
  if dmem (g_edges g) src then Err (GraphError "edge already declared")
  else Ok (mkGraph (g_graph_id g) (g_nodes g)
             (dset (g_edges g) src (mkEdge (Some dst) None)) (g_entry g)).

Definition add_conditional g (src : string) (router : RouterFn) : res (Graph W) :=
  let? _ := require_known g src in
  if dmem (g_edges g) src then Err (GraphError "edge already declared")
  else Ok (mkGraph (g_graph_id g) (g_nodes g)
             (dset (g_edges g) src (mkEdge None (Some router))) (g_entry g)).

Definition compile g : res unit :=
  match g_entry g with
  | None => Err (GraphError "entry node not set")
  | Some _ =>
      if forallb (fun kv => dmem (g_edges g) kv.1) (g_nodes g) then Ok tt
      else Err (GraphError "node has no outgoing edge")
  end.

Definition resolve_next g (current : string) (s : TaskRunState) (override : option string)
    : res string :=
  match override with
  | Some o =>
      if negb (String.eqb o END) && negb (known g o)
      then Err (GraphError "node returned unknown next_node") else Ok o
  | None =>
      match dget (g_edges g) current with
      | None => Err (KeyError current)
      | Some e =>
          match e_static e with
          | Some dst => Ok dst
          | None =>
              match e_router e with
              | None => Err AssertionError
              | Some r =>
                  let dst := r s in
                  if negb (String.eqb dst END) && negb (known g dst)
                  then Err (GraphError "router returned unknown next_node") else Ok dst
              end
          end
      end
  end.

(** [model_copy(update={"current_node": n, "finished": n == END})]. *)
Definition goto (s : TaskRunState) (n : string) : TaskRunState :=
  mkRunState (task_id s) (tenant_id s) (trace_id s) (graph_id s) n (sequence s) (data s)
    (String.eqb n END) (awaiting_approval s) (error s).

Definition step g (s : TaskRunState) : M W TaskRunState :=
  if finished s || awaiting_approval s then ret s
  else match g_entry g with
  | None => raise (GraphError "graph is not compiled (entry missing)")
  | Some entry =>
      let current := if String.eqb (current_node s) START then entry else current_node s in
      match dget (g_nodes g) current with
      | None => raise (GraphError "state points at unknown node")
      | Some fn =>
          r <- fn s ;;
          if nr_awaiting_approval r then
            ret (advance s current (nr_data_update r) (Some false) (Some true) None)
          else
            let advanced := advance s current (nr_data_update r) None None (nr_error r) in
            next <- lift (resolve_next g current advanced (nr_next_node r)) ;;
            ret (goto advanced next)
      end
  end.

(** [run]: [fuel] is [max_steps - steps], so the bound is the code's own. *)
Fixpoint run g (fuel : nat) (s : TaskRunState) : M W TaskRunState :=
  if finished s || awaiting_approval s then ret s
  else match fuel with
  | O => raise (GraphError "graph exceeded max_steps")
  | S fuel' => s' <- step g s ;; run g fuel' s'
  end.
End Builder.

Definition default_max_steps : nat := 1000.

(** ** Well-formedness of graphs, kept by every builder call *)

Section GraphFacts.
Context {W : Type}.
Implicit Types g : Graph W.

Definition target_known g (n : string) : Prop := n = END \/ known g n = true.

Record wf_graph g : Prop := {
  wf_nodup : NoDup (g_nodes g).*1;
  wf_sentinels : known g START = false /\ known g END = false;
  wf_entry : forall n, g_entry g = Some n -> known g n = true;
  wf_static : forall src e dst, dget (g_edges g) src = Some e -> e_static e = Some dst ->
              target_known g dst;
  wf_router : forall src e, dget (g_edges g) src = Some e -> e_static e = None ->
              is_Some (e_router e)
}.

Lemma known_add_node g name fn n :
  dmem (dset (g_nodes g) name fn) n = String.eqb name n || known g n.
Proof. unfold dmem, known, dmem. rewrite dget_dset. by destruct (String.eqb name n). Qed.

Lemma new_graph_wf gid g : new_graph gid = Ok g -> wf_graph g.
Proof.
  unfold new_graph. destruct (nonempty gid); intros [= <-].
  split; simpl; try done. constructor.
Qed.

Lemma add_node_wf g name fn g' : wf_graph g -> add_node g name fn = Ok g' -> wf_graph g'.
Proof.
  intros [Hnd [Hs He] Hen Hst Hro]. unfold add_node.
  destruct (String.eqb_spec name START) as [|HneS]; [done|].
  destruct (String.eqb_spec name END) as [|HneE]; [done|].
  simpl. destruct (known g name) eqn:Hk; intros [= <-].
  split; unfold target_known, known; simpl.
  - by apply dset_NoDup.
  - rewrite !known_add_node, Hs, He.
    apply String.eqb_neq in HneS, HneE. by rewrite HneS, HneE.
  - intros n Hn. rewrite known_add_node, (Hen n Hn). apply orb_true_r.
  - intros src e dst Hsrc Hd. destruct (Hst _ _ _ Hsrc Hd) as [->|Hkd]; [by left|].
    right. rewrite known_add_node, Hkd. apply orb_true_r.
  - exact Hro.
Qed.

Lemma set_entry_wf g name g' : wf_graph g -> set_entry g name = Ok g' -> wf_graph g'.
Proof.
  intros [Hnd Hs Hen Hst Hro]. unfold set_entry.
  destruct (known g name) eqn:Hk; intros [= <-]. split; try done.
  intros n [= <-]. done.
Qed.

Lemma put_edge_wf g src e :
  wf_graph g ->
  (forall dst, e_static e = Some dst -> target_known g dst) ->
  (e_static e = None -> is_Some (e_router e)) ->
  wf_graph (mkGraph (g_graph_id g) (g_nodes g) (dset (g_edges g) src e) (g_entry g)).
Proof.
  intros [Hnd Hs Hen Hst Hro] He Hr. split; try done; simpl.
  - intros src' e' dst. rewrite dget_dset. destruct (String.eqb src src'); [|by apply Hst].
    intros [= <-]. apply He.
  - intros src' e'. rewrite dget_dset. destruct (String.eqb src src'); [|by apply Hro].
    intros [= <-]. exact Hr.
Qed.

Lemma add_edge_wf g src dst g' : wf_graph g -> add_edge g src dst = Ok g' -> wf_graph g'.
Proof.
  intros Hwf. unfold add_edge, require_known.
  destruct (known g src) eqn:Hk; [|done]. simpl.
  destruct (String.eqb_spec dst END) as [->|]; simpl.
  - destruct (dmem _ _); intros [= <-]. apply put_edge_wf; [done| |done].
    intros d [= <-]. by left.
  - destruct (known g dst) eqn:Hkd; [|done]. simpl.
    destruct (dmem _ _); intros [= <-]. apply put_edge_wf; [done| |done].
    intros d [= <-]. by right.
Qed.

Lemma add_conditional_wf g src r g' :
  wf_graph g -> add_conditional g src r = Ok g' -> wf_graph g'.
Proof.
  intros Hwf. unfold add_conditional, require_known.
  destruct (known g src) eqn:Hk; [|done]. simpl.
  destruct (dmem _ _); intros [= <-]. by apply put_edge_wf.
Qed.

(** A compiled graph: well formed and accepted by [compile]. *)
Definition compiled g : Prop := wf_graph g /\ compile g = Ok tt.

Lemma compiled_entry g : compiled g -> exists n, g_entry g = Some n /\ known g n = true.
Proof.
  intros [Hwf Hc]. unfold compile in Hc. destruct (g_entry g) as [n|] eqn:He; [|done].
  exists n. split; [done|]. by apply (wf_entry g Hwf).
Qed.

Lemma known_dget g n : known g n = true <-> is_Some (dget (g_nodes g) n).
Proof. unfold known, dmem. destruct (dget _ n); naive_solver. Qed.

Lemma dget_in {V} (d : list (string * V)) k v : dget d k = Some v -> (k, v) ∈ d.
Proof.
  induction d as [|[k' v'] d IH]; simpl; [done|].
  destruct (String.eqb_spec k k') as [->|]; [|set_solver].
  intros [= <-]. set_solver.
Qed.

Lemma compiled_edge g n : compiled g -> known g n = true -> is_Some (dget (g_edges g) n).
Proof.
  intros [Hwf Hc] Hk. unfold compile in Hc. destruct (g_entry g); [|done].
  destruct (forallb _ _) eqn:Hf; [|done]. rewrite forallb_forall in Hf.
  apply known_dget in Hk as [fn Hfn]. apply dget_in in Hfn.
  specialize (Hf _ (proj1 (list_elem_of_In _ _) Hfn)). simpl in Hf.
  unfold dmem in Hf. by destruct (dget (g_edges g) n).
Qed.
End GraphFacts.

(** A graph built by a sequence of builder calls ending in [compile] is
    compiled: collect the calls and push well-formedness through them. *)
Ltac solve_compiled H :=
  repeat match type of H with
    | res_bind _ _ = Ok _ => apply res_bind_inv in H as (? & ? & H)
    end;
  injection H as <-;
  repeat match goal with
    | H' : new_graph _ = Ok _ |- _ => apply new_graph_wf in H'
    | Hw : wf_graph ?g, H' : add_node ?g _ _ = Ok _ |- _ => apply (add_node_wf _ _ _ _ Hw) in H'
    | Hw : wf_graph ?g, H' : set_entry ?g _ = Ok _ |- _ => apply (set_entry_wf _ _ _ Hw) in H'
    | Hw : wf_graph ?g, H' : add_edge ?g _ _ = Ok _ |- _ => apply (add_edge_wf _ _ _ _ Hw) in H'
    | Hw : wf_graph ?g, H' : add_conditional ?g _ _ = Ok _ |- _ =>
        apply (add_conditional_wf _ _ _ _ Hw) in H'
    | u : unit |- _ => destruct u
    end;
  split; assumption.

(** ** The runtime's invariant and its behaviour *)

Section RuntimeFacts.
Context {W : Type}.
Implicit Types g : Graph W.

Record wf_state g (s : TaskRunState) : Prop := {
  ws_cursor : current_node s = START \/ target_known g (current_node s);
  ws_finished : finished s = true <-> current_node s = END;
  ws_exclusive : finished s = true -> awaiting_approval s = false
}.

(** The identifiers that a run never changes. *)
Definition same_identity (s s' : TaskRunState) : Prop :=
  task_id s' = task_id s /\ tenant_id s' = tenant_id s /\
  trace_id s' = trace_id s /\ graph_id s' = graph_id s.

Definition active (s : TaskRunState) : bool := negb (finished s || awaiting_approval s).

Lemma initial_state_wf g a b c d x : wf_state g (initial_state a b c d x).
Proof. split; simpl; [by left|by vm_compute|done]. Qed.

Lemma resolve_next_target g current s o n :
  compiled g -> resolve_next g current s o = Ok n -> target_known g n.
Proof.
  intros [Hwf _]. unfold resolve_next, target_known. destruct o as [o|].
  - destruct (String.eqb_spec o END); simpl; [naive_solver|].
    destruct (known g o) eqn:?; simpl; naive_solver.
  - destruct (dget (g_edges g) current) as [e|] eqn:He; [|done].
    destruct (e_static e) as [dst|] eqn:Hs.
    + intros [= <-]. by apply (wf_static g Hwf) with current e.
    + destruct (e_router e) as [r|]; [|done].
      destruct (String.eqb_spec (r s) END); simpl; [naive_solver|].
      destruct (known g (r s)) eqn:?; simpl; naive_solver.
Qed.

(** The node a step executes. *)
Definition exec_node g (s : TaskRunState) : string :=
  if String.eqb (current_node s) START then default "" (g_entry g) else current_node s.

(** Every way an active step can go, under the invariant. *)
Lemma step_cases g s w :
  compiled g -> wf_state g s -> active s = true ->
  exists fn, dget (g_nodes g) (exec_node g s) = Some fn /\
    match fn s w with
    | (Err e, w') => step g s w = (Err e, w')
    | (Ok r, w') =>
        if nr_awaiting_approval r then
          step g s w = (Ok (advance s (exec_node g s) (nr_data_update r)
                              (Some false) (Some true) None), w')
        else
          let adv := advance s (exec_node g s) (nr_data_update r) None None (nr_error r) in
          match resolve_next g (exec_node g s) adv (nr_next_node r) with
          | Ok n => target_known g n /\ step g s w = (Ok (goto adv n), w')
          | Err e => step g s w = (Err e, w')
          end
    end.
Proof.
  intros Hc Hs Ha. unfold active in Ha. apply negb_true_iff in Ha.
  destruct (compiled_entry g Hc) as (en & Hen & Hken).
  assert (Hk : known g (exec_node g s) = true).
  { unfold exec_node. rewrite Hen. simpl.
    destruct (String.eqb_spec (current_node s) START) as [|Hne]; [done|].
    destruct (ws_cursor g s Hs) as [|[HE|]]; [done| |done].
    apply (ws_finished g s Hs) in HE. by rewrite HE in Ha. }
  apply known_dget in Hk as [fn Hfn]. exists fn. split; [done|].
  unfold step. rewrite Ha, Hen. fold (exec_node g s).
  replace (if String.eqb (current_node s) START then en else current_node s)
    with (exec_node g s) by (unfold exec_node; by rewrite Hen).
  rewrite Hfn. unfold bind, lift.
  destruct (fn s w) as [[r|e] w']; [|done]. destruct (nr_awaiting_approval r); [done|].
  destruct (resolve_next _ _ _ _) as [n|e] eqn:Hr; [|done].
  split; [|done]. eapply resolve_next_target; eauto.
Qed.

Lemma step_inactive g s w : active s = false -> step g s w = (Ok s, w).
Proof. unfold active, step. intros ->%negb_false_iff. done. Qed.

Lemma exec_node_not_END g s fn :
  compiled g -> dget (g_nodes g) (exec_node g s) = Some fn -> exec_node g s <> END.
Proof.
  intros [Hwf _] Hfn HE. destruct (wf_sentinels g Hwf) as [_ HkE].
  rewrite HE in Hfn. unfold known, dmem in HkE. by rewrite Hfn in HkE.
Qed.

Lemma step_ok g s w s' w' :
  compiled g -> wf_state g s -> step g s w = (Ok s', w') ->
  wf_state g s' /\ same_identity s s' /\
  sequence s' = sequence s + (if active s then 1 else 0).
Proof.
  intros Hc Hs Hst. destruct (active s) eqn:Ha; cycle 1.
  { rewrite step_inactive in Hst by done. simplify_eq. split_and!; try done. lia. }
  destruct (step_cases g s w Hc Hs Ha) as (fn & Hfn & Hcase).
  pose proof (exec_node_not_END g s fn Hc Hfn) as HnE.
  assert (Hkn : known g (exec_node g s) = true) by (apply known_dget; eauto).
  destruct (fn s w) as [[r|e] w1]; [|congruence].
  destruct (nr_awaiting_approval r).
  - rewrite Hcase in Hst. simplify_eq. split_and!; try done.
    split; simpl; try done. right. by right.
  - simpl in Hcase. destruct (resolve_next _ _ _ _) as [n|e]; [|congruence].
    destruct Hcase as [Hn Heq]. rewrite Heq in Hst. simplify_eq.
    split_and!; try done. split; simpl; [by right| |done].
    by rewrite String.eqb_eq.
Qed.

(** Iterating [step] without the cap: what the worker's [while] loop does
    between two checkpoints. *)
Fixpoint steps g (k : nat) (s : TaskRunState) : M W TaskRunState :=
  match k with
  | O => ret s
  | S k' => s' <- step g s ;; steps g k' s'
  end.

Lemma steps_inactive g k s w : active s = false -> steps g k s w = (Ok s, w).
Proof.
  intros Ha. induction k as [|k IH]; [done|]. simpl. unfold bind.
  by rewrite step_inactive.
Qed.

Lemma run_inactive g n s w : active s = false -> run g n s w = (Ok s, w).
Proof. unfold active. intros H%negb_false_iff. destruct n; simpl; by rewrite H. Qed.

Lemma run_active g n s w :
  active s = true -> run g (S n) s w = (s' <- step g s ;; run g n s') w.
Proof. unfold active. intros H%negb_true_iff. simpl. by rewrite H. Qed.
End RuntimeFacts.

(** ** Theorems *)

Section Theorems.
Context {W : Type}.
Implicit Types g : Graph W.

Lemma active_false_iff s : active s = false <-> finished s || awaiting_approval s = true.
Proof. unfold active. by rewrite negb_false_iff. Qed.

Lemma run_ok g n s w s' w' :
  compiled g -> wf_state g s -> run g n s w = (Ok s', w') ->
  wf_state g s' /\ same_identity s s' /\ active s' = false /\
  sequence s <= sequence s' <= sequence s + Z.of_nat n.
Proof.
  intros Hc. revert s w. induction n as [|n IH]; intros s w Hs Hr;
    destruct (active s) eqn:Ha;
    try (rewrite run_inactive in Hr by done; simplify_eq; split_and!; done || lia).
  - unfold active in Ha. apply negb_true_iff in Ha. simpl in Hr. by rewrite Ha in Hr.
  - rewrite run_active in Hr by done.
    apply bind_inv_ok in Hr as (s1 & w1 & Hst & Hr).
    destruct (step_ok g s w s1 w1 Hc Hs Hst) as (Hs1 & Hid & Hseq). rewrite Ha in Hseq.
    destruct (IH s1 w1 Hs1 Hr) as (? & Hid' & ? & ?).
    split_and!; try done; try lia; unfold same_identity in *; naive_solver congruence.
Qed.

(** Where a failed run stopped: a step raised, or the budget ran out. *)
Definition step_raised g (n : nat) s w e w' : Prop :=
  exists k s1 w1, (k < n)%nat /\ steps g k s w = (Ok s1, w1) /\ active s1 = true /\
    step g s1 w1 = (Err e, w').
Definition budget_spent g (n : nat) s w e w' : Prop :=
  exists s1, steps g n s w = (Ok s1, w') /\ active s1 = true /\ e = GraphError "graph exceeded max_steps".

Lemma step_raised_S g n s w s1 w1 e w' :
  active s = true -> step g s w = (Ok s1, w1) -> step_raised g n s1 w1 e w' ->
  step_raised g (S n) s w e w'.
Proof.
  intros Ha Hst (k & s2 & w2 & Hk & Hs & Ha2 & He). exists (S k), s2, w2.
  split_and!; [lia| |done|done]. simpl. unfold bind. by rewrite Hst.
Qed.

Lemma run_err g n s w e w' :
  run g n s w = (Err e, w') -> step_raised g n s w e w' \/ budget_spent g n s w e w'.
Proof.
  revert s w. induction n as [|n IH]; intros s w Hr; destruct (active s) eqn:Ha;
    try (by rewrite run_inactive in Hr).
  - right. exists s. pose proof Ha as Hn. unfold active in Hn. apply negb_true_iff in Hn.
    simpl in Hr. rewrite Hn in Hr. injection Hr as <- <-. done.
  - rewrite run_active in Hr by done. unfold bind in Hr.
    destruct (step g s w) as [[s1|e1] w1] eqn:Hst.
    + destruct (IH s1 w1 Hr) as [Hx|(s2 & Hs & Ha2 & He)].
      * left. by eapply step_raised_S.
      * right. exists s2. split_and!; [|done|done]. simpl. unfold bind. by rewrite Hst.
    + injection Hr as <- <-. left. exists 0%nat, s, w. split_and!; [lia|done|done|done].
Qed.

(** *** Runs that end on their own

    [settles g Q n s w]: with a budget of [n] the run finishes in a state with
    [Q], or raises what a step raised; the cap plays no part, so any larger
    budget gives the same outcome and effects. *)
Definition settles g (Q : TaskRunState -> Prop) (n : nat) s w : Prop :=
  (forall j, run g (n + j) s w = run g n s w) /\
  match run g n s w with
  | (Ok s', _) => finished s' = true /\ Q s'
  | (Err e, w') => step_raised g n s w e w'
  end.

Lemma settles_finished g Q n s w : finished s = true -> Q s -> settles g Q n s w.
Proof.
  intros Hf Hq. assert (Hi : active s = false) by (unfold active; by rewrite Hf).
  split; [intros j; by rewrite !run_inactive|]. by rewrite run_inactive.
Qed.

Lemma settles_step g Q n s w :
  active s = true -> (forall s1 w1, step g s w = (Ok s1, w1) -> settles g Q n s1 w1) ->
  settles g Q (S n) s w.
Proof.
  intros Ha Hk. split.
  - intros j. change (S n + j)%nat with (S (n + j)). rewrite !run_active by done. unfold bind.
    destruct (step g s w) as [[s1|e] w1]; [|done]. by apply Hk.
  - rewrite run_active by done. unfold bind. destruct (step g s w) as [[s1|e] w1] eqn:Hst.
    + destruct (Hk s1 w1 eq_refl) as [_ H].
      destruct (run g n s1 w1) as [[s2|e] w2]; [done|]. by eapply step_raised_S.
    + exists 0%nat, s, w. split_and!; [lia|done|done|done].
Qed.

(** A longer budget settles too. *)
Lemma settles_more g Q n k s w : (n <= k)%nat -> settles g Q n s w -> settles g Q k s w.
Proof.
  intros Hle [Hj Hq]. replace k with (n + (k - n))%nat by lia. split.
  - intros j. replace (n + (k - n) + j)%nat with (n + (k - n + j))%nat by lia. by rewrite !Hj.
  - rewrite Hj. destruct (run g n s w) as [[s'|e] w']; [done|].
    destruct Hq as (i & s1 & w1 & Hi & H). exists i, s1, w1. split; [lia|done].
Qed.

(** A run that returned is not changed by a longer budget. *)
Lemma run_more g n j s w s' w' : run g n s w = (Ok s', w') -> run g (n + j) s w = (Ok s', w').
Proof.
  revert s w. induction n as [|n IH]; intros s w Hr; destruct (active s) eqn:Ha;
    try (rewrite run_inactive in Hr by done; by rewrite run_inactive).
  - pose proof Ha as Hn. unfold active in Hn. apply negb_true_iff in Hn. simpl in Hr. by rewrite Hn in Hr.
  - simpl plus. rewrite run_active in Hr by done. rewrite run_active by done. unfold bind in *.
    destruct (step g s w) as [[s1|e] w1]; [by apply IH|done].
Qed.

Lemma settles_run g Q n k s w s' w' :
  settles g Q n s w -> run g k s w = (Ok s', w') -> finished s' = true /\ Q s'.
Proof.
  intros [Hj Hq] Hr. apply (run_more g k n) in Hr. replace (k + n)%nat with (n + k)%nat in Hr by lia.
  rewrite Hj in Hr. by rewrite Hr in Hq.
Qed.

(** The cursor is at node [n]. *)
Definition at_node g (n : string) (s : TaskRunState) : Prop := active s = true /\ exec_node g s = n.

Lemma at_node_goto g a n :
  awaiting_approval a = false -> n <> START -> n <> END -> at_node g n (goto a n).
Proof.
  intros Ha Hs He. unfold at_node, active, exec_node, goto. simpl.
  apply String.eqb_neq in Hs, He. by rewrite Hs, He, Ha.
Qed.

(** One step at a node that neither pauses nor redirects. *)
Lemma step_plain g entry n fn s w (next : TaskRunState -> string) :
  g_entry g = Some entry -> at_node g n s -> dget (g_nodes g) n = Some fn ->
  (forall a, resolve_next g n a None = Ok (next a)) ->
  (forall r w', fn s w = (Ok r, w') -> exists u, r = node_update u) ->
  step g s w =
  match fn s w with
  | (Ok r, w') => let a := advance s n (nr_data_update r) None None None in (Ok (goto a (next a)), w')
  | (Err e, w') => (Err e, w')
  end.
Proof.
  intros He [Ha Hn] Hfn Hnext Hu. unfold step. unfold active in Ha. apply negb_true_iff in Ha.
  rewrite Ha, He. unfold exec_node in Hn. rewrite He in Hn. simpl in Hn. rewrite Hn, Hfn.
  unfold bind, lift, ret. destruct (fn s w) as [[r|e] w2]; [|done].
  destruct (Hu r w2 eq_refl) as [u ->].
  cbn [node_update nr_awaiting_approval nr_next_node nr_data_update nr_error]. by rewrite Hnext.
Qed.

Lemma settles_node g entry Q k n fn s w (next : TaskRunState -> string) :
  g_entry g = Some entry -> at_node g n s -> dget (g_nodes g) n = Some fn ->
  (forall a, resolve_next g n a None = Ok (next a)) ->
  (forall r w', fn s w = (Ok r, w') -> exists u, r = node_update u /\
     settles g Q k (goto (advance s n u None None None) (next (advance s n u None None None))) w') ->
  settles g Q (S k) s w.
Proof.
  intros He Hat Hfn Hnext Hk. apply settles_step; [apply Hat|]. intros s1 w1 Hst.
  rewrite (step_plain g entry n fn s w next) in Hst; [|done..|naive_solver].
  destruct (fn s w) as [[r|e] w2]; [|done]. destruct (Hk r w2 eq_refl) as (u & -> & Hset).
  by injection Hst as <- <-.
Qed.

(** A state in which the worker starts a graph. *)
Definition at_start (s : TaskRunState) : Prop :=
  finished s = false /\ awaiting_approval s = false /\ current_node s = START.

Lemma at_start_entry g entry s : g_entry g = Some entry -> at_start s -> at_node g entry s.
Proof.
  intros He (Hf & Ha & Hc). split; [unfold active; by rewrite Hf, Ha|unfold exec_node; by rewrite Hc, He].
Qed.

(** A run through one plain node. *)
Lemma run_node g entry k n fn s w (next : TaskRunState -> string) :
  g_entry g = Some entry -> at_node g n s -> dget (g_nodes g) n = Some fn ->
  (forall a, resolve_next g n a None = Ok (next a)) ->
  (forall r w', fn s w = (Ok r, w') -> exists u, r = node_update u) ->
  run g (S k) s w =
  match fn s w with
  | (Ok r, w') => let a := advance s n (nr_data_update r) None None None in run g k (goto a (next a)) w'
  | (Err e, w') => (Err e, w')
  end.
Proof.
  intros He Hat Hfn Hnext Hu. rewrite run_active by apply Hat. unfold bind.
  rewrite (step_plain g entry n fn s w next) by done. by destruct (fn s w) as [[r|e] w'].
Qed.

(** Two graphs that agree step by step, along an invariant, run the same. *)
Lemma run_agree g1 g2 (Inv : TaskRunState -> Prop) :
  (forall s w, Inv s -> active s = true -> step g1 s w = step g2 s w /\
     forall s1 w1, step g1 s w = (Ok s1, w1) -> Inv s1) ->
  forall n s w, Inv s -> run g1 n s w = run g2 n s w.
Proof.
  intros Hst n. induction n as [|n IH]; intros s w Hs; destruct (active s) eqn:Ha;
    try (by rewrite !run_inactive).
  - unfold active in Ha. apply negb_true_iff in Ha. simpl. by rewrite Ha.
  - rewrite !run_active by done. destruct (Hst s w Hs Ha) as [E Hk]. unfold bind. rewrite <- E.
    destruct (step g1 s w) as [[s1|e] w1]; [by apply IH, (Hk s1 w1)|done].
Qed.

Lemma step_valid g s w s' w' :
  compiled g -> known g "" = false -> wf_state g s -> valid_run_state s ->
  step g s w = (Ok s', w') -> valid_run_state s'.
Proof.
  intros Hc Hne Hs (H1 & H2 & H3 & H4 & H5 & H6) Hst.
  destruct (step_ok g s w s' w' Hc Hs Hst) as (Hs' & (E1 & E2 & E3 & E4) & Hseq).
  unfold valid_run_state. rewrite E1, E2, E3, E4.
  split_and!; try done; cycle 1. { rewrite Hseq. destruct (active s); lia. }
  unfold nonempty. apply negb_true_iff, String.eqb_neq. intros Hcur.
  destruct (ws_cursor g s' Hs') as [E|[E|E]]; rewrite Hcur in E; [done|done|congruence].
Qed.

Lemma steps_run g k n s w :
  run g (k + n) s w = (s' <- steps g k s ;; run g n s') w.
Proof.
  revert s w. induction k as [|k IH]; intros s w; [done|].
  destruct (active s) eqn:Ha.
  - simpl plus. rewrite run_active by done. simpl steps. rewrite bind_assoc.
    unfold bind at 1 2. destruct (step g s w) as [[s1|e] w1]; [apply IH|done].
  - unfold bind. rewrite steps_inactive by done. by rewrite !run_inactive.
Qed.

Lemma steps_valid g k s w s' w' :
  compiled g -> known g "" = false -> wf_state g s -> valid_run_state s ->
  steps g k s w = (Ok s', w') -> wf_state g s' /\ valid_run_state s'.
Proof.
  intros Hc Hne. revert s w. induction k as [|k IH]; intros s w Hs Hv; simpl.
  - unfold ret. intros [= <- <-]. done.
  - intros (s1 & w1 & Hst & Hr)%bind_inv_ok.
    apply (IH s1 w1); [|by eapply step_valid|done].
    by destruct (step_ok g s w s1 w1 Hc Hs Hst).
Qed.

(** C2: one [Graph.step] of a compiled graph keeps the runtime invariant: the
    cursor names a registered node or a sentinel, [finished] holds exactly at
    [END], a finished state is never paused; the four identifiers are
    untouched and the checkpoint sequence grows by one exactly when a node
    ran. *)
Theorem step_invariant g s w s' w' :
  compiled g -> wf_state g s -> step g s w = (Ok s', w') ->
  wf_state g s' /\ same_identity s s' /\
  sequence s' = sequence s + (if finished s || awaiting_approval s then 0 else 1).
Proof.
  intros Hc Hs Hst. destruct (step_ok g s w s' w' Hc Hs Hst) as (? & ? & ->).
  split_and!; try done. unfold active. by destruct (finished s || awaiting_approval s).
Qed.

(** [compile] is sound: on a compiled graph and a well-formed state,
    [step] can only raise what the executed node raised, or reject a
    destination that the node or the router named and that is not
    registered.  It never misses an entry, a node or an edge. *)
Theorem step_error_sources g s w e w' :
  compiled g -> wf_state g s -> step g s w = (Err e, w') ->
  exists fn, dget (g_nodes g) (exec_node g s) = Some fn /\
    (fn s w = (Err e, w') \/
     exists r, fn s w = (Ok r, w') /\
       ((e = GraphError "node returned unknown next_node" /\
         exists n, nr_next_node r = Some n /\ ~ target_known g n) \/
        (e = GraphError "router returned unknown next_node" /\ nr_next_node r = None))).
Proof.
  intros Hc Hs Hst. destruct (active s) eqn:Ha; cycle 1.
  { by rewrite step_inactive in Hst. }
  destruct (step_cases g s w Hc Hs Ha) as (fn & Hfn & Hcase). exists fn. split; [done|].
  destruct (fn s w) as [[r|e'] w1] eqn:Hfr; [|left; congruence]. right. exists r.
  destruct (nr_awaiting_approval r); [congruence|]. simpl in Hcase.
  destruct (compiled_edge g (exec_node g s) Hc) as [ed Hed]; [apply known_dget; eauto|].
  unfold resolve_next in Hcase. destruct (nr_next_node r) as [o|].
  - unfold target_known. destruct (String.eqb_spec o END); simpl in Hcase;
      [destruct Hcase; congruence|].
    destruct (known g o) eqn:Hko; simpl in Hcase; [destruct Hcase; congruence|].
    rewrite Hcase in Hst. simplify_eq. split; [done|]. left. split; [done|].
    exists o. split; [done|]. intros [?|?]; congruence.
  - rewrite Hed in Hcase. destruct (e_static ed) eqn:Hes; [destruct Hcase; congruence|].
    destruct (wf_router g (proj1 Hc) _ _ Hed Hes) as [ro Hro]. rewrite Hro in Hcase.
    destruct (_ && _); [|destruct Hcase; congruence]. rewrite Hcase in Hst. simplify_eq.
    split; [done|]. by right.
Qed.

(** [Graph.run] is bounded: when it returns, the state is finished or
    paused, the invariant holds, and between zero and [max_steps] nodes ran;
    when it raises, either one of its first [max_steps] steps raised that
    error, or exactly [max_steps] steps ran, the state is still active and
    the error is the runtime's own cap. *)
Theorem run_bounded g n s w :
  compiled g -> wf_state g s ->
  match run g n s w with
  | (Ok s', _) =>
      finished s' || awaiting_approval s' = true /\ wf_state g s' /\ same_identity s s' /\
      sequence s <= sequence s' <= sequence s + Z.of_nat n
  | (Err e, w') => step_raised g n s w e w' \/ budget_spent g n s w e w'
  end.
Proof.
  intros Hc Hs. destruct (run g n s w) as [[s'|e] w'] eqn:Hr.
  - destruct (run_ok g n s w s' w' Hc Hs Hr) as (? & ? & ?%active_false_iff & ?). done.
  - by apply run_err.
Qed.

(** C7: crash and resume is transparent: running [k] nodes, writing the state
    as a JSON snapshot, reading it back with [model_validate] and running the
    remaining budget gives the same outcome, and the same world, as the
    uninterrupted run. *)
Theorem resume_from_snapshot g k n s w :
  compiled g -> known g "" = false -> wf_state g s -> valid_run_state s ->
  (s1 <- steps g k s ;; s2 <- lift (model_validate (model_dump s1)) ;; run g n s2) w
  = run g (k + n) s w.
Proof.
  intros Hc Hne Hs Hv. rewrite steps_run. unfold bind.
  destruct (steps g k s w) as [[s1|e] w1] eqn:Hst; [|done].
  destruct (steps_valid g k s w s1 w1 Hc Hne Hs Hv Hst) as [_ Hv1].
  unfold lift. by rewrite model_dump_validate.
Qed.
End Theorems.
