(* ===== verification/SystemGraphs.v ===== *)
(** * SystemGraphs: the built-in system graphs

    [core/orchestration/graphs/echo.py] and
    [core/orchestration/graphs/git_inspect.py].  The [git] subprocess is a
    parameter: a function from the working directory to its exit code and
    decoded, stripped output, or a timeout. *)

From S2P Require Import Prelude Domain GraphRuntime.

(** ** [builtin.echo] *)

Module Echo.
Definition ECHO_GRAPH_ID : string := "builtin.echo".

Definition message (s : TaskRunState) : string :=
  py_str (default (JStr "") (dget (data s) "message")).

Definition transcript (s : TaskRunState) : list json :=
  match dget (data s) "transcript" with
  | Some (JList l) => map (fun x => JStr (py_str x)) l
  | _ => []
  end.

Section Nodes.
Context {W : Type}.

Definition plan : NodeFn W := fun s =>
  let line := "plan: received " +:+ py_repr_str (message s) in
  ret (node_update [("transcript", JList (transcript s ++ [JStr line]))]).

Definition execute : NodeFn W := fun s =>
  let line := "execute: echo " +:+ py_repr_str (message s) in
  ret (node_update
    [ ("transcript", JList (transcript s ++ [JStr line]));
      ("output", JDict [("echo", JStr (message s))]) ]).

Definition review : NodeFn W := fun s =>
  ret (node_update [("transcript", JList (transcript s ++ [JStr "review: ok"]))]).

Definition build_echo_graph : res (Graph W) :=
  let? g := new_graph ECHO_GRAPH_ID in
  let? g := add_node g "plan" plan in
  let? g := add_node g "execute" execute in
  let? g := add_node g "review" review in
  let? g := set_entry g "plan" in
  let? g := add_edge g "plan" "execute" in
  let? g := add_edge g "execute" "review" in
  let? g := add_edge g "review" END in
  let? _ := compile g in
  Ok g.

(** The value [build_echo_graph] returns, as a closed term. *)
Definition echo_graph : Graph W :=
  mkGraph ECHO_GRAPH_ID
    [("plan", plan); ("execute", execute); ("review", review)]
    [("plan", mkEdge (Some "execute") None); ("execute", mkEdge (Some "review") None);
     ("review", mkEdge (Some END) None)]
    (Some "plan").

Lemma build_echo_graph_eq : build_echo_graph = Ok echo_graph.
Proof. reflexivity. Qed.
End Nodes.
End Echo.

(** ** [builtin.git_inspect] *)

Module GitInspect.
Definition GIT_INSPECT_GRAPH_ID : string := "builtin.git_inspect".

(** Outcome of [git -C cwd log --oneline -5] under the 30 s timeout. *)
Inductive subprocess_result : Type :=
  | Timeout
  | Exited (returncode : Z) (stdout stderr : string).

Section Nodes.
Context {W : Type} (git_log : string -> M W subprocess_result).

Definition workspace_path (s : TaskRunState) : res string :=
  match as_nonempty_str (getd (data s) "_workspace_path") with
  | Some p => Ok p
  | None => Err (GraphError "git_inspect: _workspace_path missing from state.data")
  end.

Definition inspect : NodeFn W := fun s =>
  cwd <- lift (workspace_path s) ;;
  out <- git_log cwd ;;
  match out with
  | Timeout => raise (GraphError "git_inspect: git log timed out")
  | Exited code text _ =>
      if negb (code =? 0) then raise (GraphError "git_inspect: git log failed")
      else
        let commits := List.filter nonempty (py_splitlines text) in
        ret (node_update [("_git_log", JList (map JStr commits))])
  end.

Definition summarise : NodeFn W := fun s =>
  let commits := match dget (data s) "_git_log" with
                 | Some (JList l) => map py_str l | _ => [] end in
  ret (node_update
    [("output", JDict
        [ ("branch", opt_json JStr (as_str (getd (data s) "_workspace_branch")));
          ("commit_count", JInt (Z.of_nat (length commits)));
          ("head", opt_json JStr (head commits));
          ("log", JList (map JStr commits)) ])]).

Definition build_git_inspect_graph : res (Graph W) :=
  let? g := new_graph GIT_INSPECT_GRAPH_ID in
  let? g := add_node g "inspect" inspect in
  let? g := add_node g "summarise" summarise in
  let? g := set_entry g "inspect" in
  let? g := add_edge g "inspect" "summarise" in
  let? g := add_edge g "summarise" END in
  let? _ := compile g in
  Ok g.
End Nodes.
End GitInspect.

(** ** Facts *)

Section EchoFacts.
Context {W : Type}.

Lemma build_echo_compiled (g : Graph W) : Echo.build_echo_graph = Ok g -> compiled g.
Proof. intros H. unfold Echo.build_echo_graph in H. solve_compiled H. Qed.

Lemma echo_compiled : compiled (@Echo.echo_graph W).
Proof. apply build_echo_compiled, Echo.build_echo_graph_eq. Qed.

Lemma build_git_inspect_compiled log (g : Graph W) :
  GitInspect.build_git_inspect_graph log = Ok g -> compiled g.
Proof. intros H. unfold GitInspect.build_git_inspect_graph in H. solve_compiled H. Qed.

(** The echo smoke flow completes: from any initial data it visits its
    three nodes in order, ends after exactly three steps without error or
    effect, and exposes the message under [output.echo]. *)
Theorem echo_run_completes tid ten tra d (w : W) :
  let s0 := initial_state tid ten tra Echo.ECHO_GRAPH_ID d in
  exists s, run Echo.echo_graph 3 s0 w = (Ok s, w) /\
    finished s = true /\ sequence s = 3 /\ error s = None /\
    getd (data s) "output" = JDict [("echo", JStr (Echo.message s0))] /\
    run Echo.echo_graph 2 s0 w = (Err (GraphError "graph exceeded max_steps"), w).
Proof.
  simpl. unfold bind. simpl. eexists. split; [reflexivity|]. simpl.
  split_and!; try done. unfold Echo.message. simpl. simp_dict. reflexivity.
Qed.
End EchoFacts.

(** ** Witnesses for the runtime theorems, on the echo graph *)

Definition echo_start : TaskRunState :=
  initial_state "t1" "acme" "tr1" Echo.ECHO_GRAPH_ID [("message", JStr "hi")].

Definition echo_next : TaskRunState :=
  match step Echo.echo_graph echo_start tt with (Ok s, _) => s | _ => echo_start end.

Lemma step_invariant_witness :
  sequence echo_next = 1 /\ wf_state (@Echo.echo_graph unit) echo_next.
Proof.
  destruct (step_invariant Echo.echo_graph echo_start tt echo_next tt echo_compiled
              (initial_state_wf _ _ _ _ _ _) eq_refl) as (H1 & _ & H2).
  split; [exact H2|exact H1].
Defined.

(** A one-node graph whose node names an unregistered destination. *)
Definition stray_graph : Graph unit :=
  mkGraph "stray" [("a", fun _ => ret (mkNodeResult [] (Some "nowhere") false None))]
    [("a", mkEdge (Some END) None)] (Some "a").

Lemma stray_compiled : compiled stray_graph.
Proof.
  assert (H : (let? g := new_graph "stray" in
               let? g := add_node g "a" (fun _ => ret (mkNodeResult [] (Some "nowhere") false None)) in
               let? g := set_entry g "a" in
               let? g := add_edge g "a" END in
               let? _ := compile g in Ok g) = Ok stray_graph) by reflexivity.
  solve_compiled H.
Qed.

Lemma step_error_sources_witness :
  exists fn, dget (g_nodes stray_graph) "a" = Some fn /\
    (fn (initial_state "t" "n" "r" "stray" []) tt = (Err (GraphError "node returned unknown next_node"), tt) \/
     exists r, fn (initial_state "t" "n" "r" "stray" []) tt = (Ok r, tt) /\
       ((GraphError "node returned unknown next_node" = GraphError "node returned unknown next_node" /\
         exists n, nr_next_node r = Some n /\ ~ target_known stray_graph n) \/
        (GraphError "node returned unknown next_node" = GraphError "router returned unknown next_node" /\
         nr_next_node r = None))).
Proof.
  apply (step_error_sources stray_graph (initial_state "t" "n" "r" "stray" []) tt
           (GraphError "node returned unknown next_node") tt stray_compiled
           (initial_state_wf _ _ _ _ _ _)).
  reflexivity.
Defined.

Lemma run_bounded_witness :
  match run Echo.echo_graph 10 echo_start tt with
  | (Ok s', _) => finished s' || awaiting_approval s' = true /\ sequence s' <= 10
  | (Err _, _) => False
  end.
Proof.
  pose proof (run_bounded Echo.echo_graph 10 echo_start tt echo_compiled
                (initial_state_wf _ _ _ _ _ _)) as H.
  destruct (run Echo.echo_graph 10 echo_start tt) as [[s'|e] w'] eqn:E; [|done].
  destruct H as (H1 & _ & _ & H2). split; [exact H1|]. simpl in H2. lia.
Defined.

Lemma resume_from_snapshot_witness :
  (s1 <- steps Echo.echo_graph 2 echo_start ;;
   s2 <- lift (model_validate (model_dump s1)) ;; run Echo.echo_graph 5 s2) tt
  = run Echo.echo_graph 7 echo_start tt.
Proof.
  apply (resume_from_snapshot Echo.echo_graph 2 5 echo_start tt echo_compiled eq_refl
           (initial_state_wf _ _ _ _ _ _)).
  by vm_compute.
Defined.
