(* ===== verification/Gates.v ===== *)
(** * Gates: human approval and per-task budget gates

    [core/orchestration/human_gate.py] and
    [core/orchestration/budget_gate.py].  Both return a [NodeResult]; a pause
    is [nr_awaiting_approval = true].  The usage repository is a parameter. *)

From S2P Require Import Prelude Domain GraphRuntime.

Definition HUMAN_DECISION_KEY : string := "_human_decision".
Definition HUMAN_FEEDBACK_KEY : string := "_human_feedback".
Definition HUMAN_GATE_AT_KEY : string := "_human_gate_at".

(** ** [build_human_gate] *)

Section HumanGate.
Context {W : Type}.

(** The inner [gate] coroutine. *)
Definition gate (gate_id next_node_when_approved : string)
    (next_node_when_rejected : option string) : NodeFn W := fun s =>
  let decision := getd (data s) HUMAN_DECISION_KEY in
  if is_str decision "approve" then
    ret (mkNodeResult [(HUMAN_DECISION_KEY, JNull); (HUMAN_GATE_AT_KEY, JNull)]
           (Some next_node_when_approved) false None)
  else if is_str decision "reject" then
    match next_node_when_rejected with
    | None =>
        ret (mkNodeResult
               [(HUMAN_DECISION_KEY, JNull); (HUMAN_GATE_AT_KEY, JNull);
                ("_rejected_by_human", JBool true)]
               (Some END) false None)
    | Some n =>
        ret (mkNodeResult
               [(HUMAN_DECISION_KEY, JNull); (HUMAN_GATE_AT_KEY, JNull);
                ("_rejected_with_feedback", JBool true)]
               (Some n) false None)
    end
  else
    ret (mkNodeResult [(HUMAN_GATE_AT_KEY, JStr gate_id)] None true None).

Definition build_human_gate (gate_id next_node_when_approved : string)
    (next_node_when_rejected : option string) : res (NodeFn W) :=
  if negb (nonempty gate_id) then
    Err (GraphError "human_gate: gate_id must be a non-empty string")
  else if negb (nonempty next_node_when_approved) then
    Err (GraphError "human_gate: next_node_when_approved must be a non-empty string")
  else match next_node_when_rejected with
  | Some n =>
      if negb (nonempty n)
      then Err (GraphError "human_gate: next_node_when_rejected must be a non-empty string when supplied")
      else Ok (gate gate_id next_node_when_approved next_node_when_rejected)
  | None => Ok (gate gate_id next_node_when_approved next_node_when_rejected)
  end.
End HumanGate.

(** ** [check_budget_policy] *)

Definition BUDGET_GATE_ID : string := "budget".

(** One row of [aggregate_for_task] ([core/ports/llm_usage.py]). *)
Record UsageAggregate : Type := mkUsageAggregate {
  ub_key : string; ub_tokens : Z; ub_cost_usd_micros : Z; ub_calls : Z
}.

Definition spent_micros (buckets : list UsageAggregate) : Z :=
  fold_left (fun acc b => acc + ub_cost_usd_micros b) buckets 0.

Section BudgetGate.
Context {W : Type}.
(** [llm_usage.aggregate_for_task(tenant_id, task_id, STEP_KIND)]. *)
Context (aggregate_for_task : string -> string -> M W (list UsageAggregate)).

Definition check_budget_policy (s : TaskRunState) (llm_usage : bool) (this_node : string)
    : M W (option NodeResult) :=
  if negb llm_usage then ret None
  else
  let policy := getd (data s) "_budget_policy" in
  if negb (is_str policy "gate_on_threshold" || is_str policy "abort_on_threshold")
  then ret None
  else
  let decision := getd (data s) HUMAN_DECISION_KEY in
  let gate_at := getd (data s) HUMAN_GATE_AT_KEY in
  if is_str gate_at BUDGET_GATE_ID && is_str decision "approve" then
    ret (Some (mkNodeResult
      [("_budget_gate_passed", JBool true); (HUMAN_DECISION_KEY, JNull);
       (HUMAN_GATE_AT_KEY, JNull)] (Some this_node) false None))
  else if is_str gate_at BUDGET_GATE_ID && is_str decision "reject" then
    ret (Some (mkNodeResult
      [(HUMAN_DECISION_KEY, JNull); (HUMAN_GATE_AT_KEY, JNull);
       ("_budget_exceeded", JBool true)] (Some END) false
      (Some "budget gate rejected by operator")))
  else
  let threshold_raw := getd (data s) "_budget_threshold_micros" in
  match as_int threshold_raw with
  | None => ret None
  | Some threshold =>
      if threshold <=? 0 then ret None
      else if truthy (getd (data s) "_budget_gate_passed") then ret None
      else
        buckets <- aggregate_for_task (tenant_id s) (task_id s) ;;
        let spent := spent_micros buckets in
        if spent <? threshold then ret None
        else if is_str policy "abort_on_threshold" then
          ret (Some (mkNodeResult
            [("_budget_exceeded", JBool true); ("_budget_spent_micros", JInt spent);
             ("_budget_threshold_micros_at_abort", threshold_raw)] (Some END) false
            (Some ("budget exceeded: spent " +:+ pretty spent +:+ " >= threshold "
                   +:+ py_str threshold_raw +:+ " micro-USD"))))
        else
          ret (Some (mkNodeResult
            [(HUMAN_GATE_AT_KEY, JStr BUDGET_GATE_ID); ("_budget_spent_micros", JInt spent)]
            None true None))
  end.
End BudgetGate.

(** ** Facts *)

Section HumanGateFacts.
Context {W : Type}.
Implicit Types g : Graph W.

Definition reject_marker (rej : option string) : string :=
  match rej with None => "_rejected_by_human" | Some _ => "_rejected_with_feedback" end.

(** What one step of a gate node may do, by the operator's recorded
    decision; [here] is the gate's own node name. *)
Definition gate_outcome (here gid ok : string) (rej : option string) (s s' : TaskRunState)
    : Prop :=
  let decision := getd (data s) HUMAN_DECISION_KEY in
  if is_str decision "approve" then
    current_node s' = ok /\ awaiting_approval s' = false /\
    getd (data s') HUMAN_DECISION_KEY = JNull /\ getd (data s') HUMAN_GATE_AT_KEY = JNull
  else if is_str decision "reject" then
    current_node s' = default END rej /\ awaiting_approval s' = false /\
    getd (data s') HUMAN_DECISION_KEY = JNull /\ getd (data s') HUMAN_GATE_AT_KEY = JNull /\
    getd (data s') (reject_marker rej) = JBool true
  else
    current_node s' = here /\ awaiting_approval s' = true /\ finished s' = false /\
    getd (data s') HUMAN_GATE_AT_KEY = JStr gid.

(** A node that neither pauses nor fails, with a known destination. *)
Lemma step_to g s w fn r n :
  compiled g -> wf_state g s -> active s = true ->
  dget (g_nodes g) (exec_node g s) = Some fn ->
  fn s w = (Ok r, w) -> nr_awaiting_approval r = false ->
  nr_next_node r = Some n -> target_known g n ->
  step g s w =
    (Ok (goto (advance s (exec_node g s) (nr_data_update r) None None (nr_error r)) n), w).
Proof.
  intros Hc Hs Ha Hfn Hr Hnp Hn Ht.
  destruct (step_cases g s w Hc Hs Ha) as (fn' & Hfn' & Hcase).
  rewrite Hfn in Hfn'. simplify_eq. rewrite Hr, Hnp in Hcase. simpl in Hcase.
  rewrite Hn in Hcase. unfold resolve_next in Hcase.
  replace (negb (String.eqb n END) && negb (known g n)) with false in Hcase; [by destruct Hcase|].
  destruct Ht as [->| ->]; [by rewrite String.eqb_refl|]. by destruct (String.eqb n END).
Qed.

Lemma step_pause g s w fn r :
  compiled g -> wf_state g s -> active s = true ->
  dget (g_nodes g) (exec_node g s) = Some fn ->
  fn s w = (Ok r, w) -> nr_awaiting_approval r = true ->
  step g s w =
    (Ok (advance s (exec_node g s) (nr_data_update r) (Some false) (Some true) None), w).
Proof.
  intros Hc Hs Ha Hfn Hr Hp.
  destruct (step_cases g s w Hc Hs Ha) as (fn' & Hfn' & Hcase).
  rewrite Hfn in Hfn'. simplify_eq. by rewrite Hr, Hp in Hcase.
Qed.

Ltac gate_node E1 E2 := unfold gate; rewrite E1, ?E2; reflexivity.
Ltac gate_data := simpl; unfold getd; rewrite ?dget_dset; reflexivity.

(** A human gate only opens on a recorded decision.  Executing the gate
    node moves to the approved destination exactly on "approve", to the
    reject destination (or [END]) exactly on "reject", and otherwise pauses
    in place with the gate's id recorded; both decisions consume the
    decision, so a later gate starts closed.  The step never fails and never
    touches the world. *)
Theorem human_gate_step g s w gid ok rej :
  compiled g -> wf_state g s -> active s = true ->
  dget (g_nodes g) (exec_node g s) = Some (gate gid ok rej) ->
  target_known g ok -> target_known g (default END rej) ->
  exists s', step g s w = (Ok s', w) /\ gate_outcome (exec_node g s) gid ok rej s s'.
Proof.
  intros Hc Hs Ha Hfn Hok Hrej. unfold gate_outcome.
  destruct (is_str (getd (data s) HUMAN_DECISION_KEY) "approve") eqn:E1;
    [|destruct (is_str (getd (data s) HUMAN_DECISION_KEY) "reject") eqn:E2;
      [destruct rej as [rn|]|]]; eexists; split.
  1: eapply (step_to g s w _ _ ok Hc Hs Ha Hfn); [gate_node E1 E1|done..].
  2: eapply (step_to g s w _ _ rn Hc Hs Ha Hfn); [gate_node E1 E2|done..].
  3: eapply (step_to g s w _ _ END Hc Hs Ha Hfn); [gate_node E1 E2|done..].
  4: eapply (step_pause g s w _ _ Hc Hs Ha Hfn); [gate_node E1 E2|done].
  all: repeat split; gate_data.
Qed.
End HumanGateFacts.

Section BudgetGateFacts.
Context {W : Type} (aggregate_for_task : string -> string -> M W (list UsageAggregate)).

Definition gated_policy (s : TaskRunState) : bool :=
  is_str (getd (data s) "_budget_policy") "gate_on_threshold"
  || is_str (getd (data s) "_budget_policy") "abort_on_threshold".

(** The budget gate is armed: a gating policy, a positive threshold, not yet
    approved, and no decision waiting to be consumed. *)
Definition armed (s : TaskRunState) (threshold : Z) : Prop :=
  gated_policy s = true /\
  is_str (getd (data s) HUMAN_GATE_AT_KEY) BUDGET_GATE_ID = false /\
  as_int (getd (data s) "_budget_threshold_micros") = Some threshold /\ 0 < threshold /\
  truthy (getd (data s) "_budget_gate_passed") = false.

(** An armed budget gate never lets a node run at or over its ceiling.
    Below the threshold it does not fire; at or above it, the abort policy
    ends the run with an error and the gate policy pauses it, and in both
    cases the spend that triggered it is recorded. *)
Theorem budget_gate_enforces s threshold node w buckets w' :
  armed s threshold ->
  aggregate_for_task (tenant_id s) (task_id s) w = (Ok buckets, w') ->
  match check_budget_policy aggregate_for_task s true node w with
  | (Ok None, w1) => w1 = w' /\ spent_micros buckets < threshold
  | (Ok (Some r), w1) =>
      w1 = w' /\ threshold <= spent_micros buckets /\
      getd (nr_data_update r) "_budget_spent_micros" = JInt (spent_micros buckets) /\
      (if is_str (getd (data s) "_budget_policy") "abort_on_threshold"
       then nr_next_node r = Some END /\ nr_awaiting_approval r = false /\ is_Some (nr_error r)
       else nr_next_node r = None /\ nr_awaiting_approval r = true /\ nr_error r = None)
  | (Err _, _) => False
  end.
Proof.
  intros (Hp & Hga & Hth & Hpos & Hnp) Hagg. unfold check_budget_policy, gated_policy in *.
  simpl. rewrite Hp, Hga, Hth, Hnp. simpl.
  destruct (Z.leb_spec threshold 0); [lia|]. unfold bind. rewrite Hagg.
  destruct (Z.ltb_spec (spent_micros buckets) threshold); simpl; [done|].
  destruct (is_str _ "abort_on_threshold"); simpl; split_and!; try done; try lia; eauto.
Qed.

(** The state a node resumes with after the operator's verdict was merged. *)
Definition with_decision (s : TaskRunState) (d : string) : TaskRunState :=
  with_data s (dset (data s) HUMAN_DECISION_KEY (JStr d)).

(** One approval opens the budget gate for the rest of the run.  After
    the gate paused and the operator approved, the check re-enters the same
    node, and from then on the gate stays open whatever the spend, without
    reading the usage log again. *)
Theorem budget_gate_approved s node w :
  gated_policy s = true ->
  is_str (getd (data s) HUMAN_GATE_AT_KEY) BUDGET_GATE_ID = true ->
  exists r,
    check_budget_policy aggregate_for_task (with_decision s "approve") true node w
      = (Ok (Some r), w) /\
    nr_next_node r = Some node /\ nr_awaiting_approval r = false /\ nr_error r = None /\
    forall cur fin awa err w1,
      check_budget_policy aggregate_for_task
        (advance (with_decision s "approve") cur (nr_data_update r) fin awa err) true node w1
      = (Ok None, w1).
Proof.
  intros Hp Hga. unfold gated_policy in Hp. eexists. split.
  { unfold check_budget_policy. simpl. simp_dict. unfold getd in Hp, Hga. rewrite Hp, Hga. done. }
  split_and!; try done. intros cur fin awa err w1. unfold check_budget_policy. simpl.
  simp_dict. unfold getd in Hp. rewrite Hp. simpl.
  destruct (as_int _) as [t|]; [|done]. by destruct (t <=? 0).
Qed.
End BudgetGateFacts.

(** ** Witnesses *)

Section Witnesses.
Definition gate_graph : Graph unit :=
  mkGraph "g" [("gate", gate "only" "done" None); ("done", fun _ => ret (node_update []))]
    [("gate", mkEdge (Some END) None); ("done", mkEdge (Some END) None)] (Some "gate").

Lemma gate_graph_compiled : compiled gate_graph.
Proof.
  split; [|reflexivity]. split; simpl.
  - apply (bool_decide_unpack _). by vm_compute.
  - done.
  - by intros n [= <-].
  - intros src e dst. unfold dget. simpl.
    destruct (String.eqb src "gate"); [intros [= <-] [= <-]; by left|].
    destruct (String.eqb src "done"); [intros [= <-] [= <-]; by left|done].
  - intros src e. simpl. destruct (String.eqb src "gate"); [by intros [= <-]|].
    destruct (String.eqb src "done"); [by intros [= <-]|done].
Qed.

Definition gate_state : TaskRunState := initial_state "t" "ten" "tr" "g" [].

Lemma human_gate_step_witness :
  exists s', step gate_graph gate_state tt = (Ok s', tt) /\
             gate_outcome "gate" "only" "done" None gate_state s'.
Proof.
  apply (human_gate_step gate_graph gate_state tt "only" "done" None gate_graph_compiled
           (initial_state_wf _ _ _ _ _ _)); try reflexivity; [right|left]; reflexivity.
Defined.

Definition budget_state (policy : string) : TaskRunState :=
  initial_state "t" "ten" "tr" "g"
    [("_budget_policy", JStr policy); ("_budget_threshold_micros", JInt 100)].
Definition usage_150 : string -> string -> M unit (list UsageAggregate) :=
  fun _ _ => ret [mkUsageAggregate "plan" 10 90 1; mkUsageAggregate "edit" 5 60 1].

Lemma budget_gate_enforces_witness :
  armed (budget_state "abort_on_threshold") 100 /\
  match check_budget_policy usage_150 (budget_state "abort_on_threshold") true "plan" tt with
  | (Ok (Some r), _) => nr_next_node r = Some END
  | _ => False
  end.
Proof.
  split; [by repeat split|].
  pose proof (budget_gate_enforces usage_150 (budget_state "abort_on_threshold") 100 "plan" tt
    [mkUsageAggregate "plan" 10 90 1; mkUsageAggregate "edit" 5 60 1] tt
    ltac:(by repeat split) eq_refl) as H.
  destruct (check_budget_policy _ _ _ _ _) as [[[r|]|e] w]; [|destruct H as [_ H]; done|done].
  apply H.
Defined.

Lemma budget_gate_approved_witness :
  exists r, check_budget_policy usage_150
    (with_decision (with_data gate_state
       [("_budget_policy", JStr "gate_on_threshold"); (HUMAN_GATE_AT_KEY, JStr BUDGET_GATE_ID)])
       "approve") true "plan" tt = (Ok (Some r), tt) /\ nr_next_node r = Some "plan".
Proof.
  destruct (budget_gate_approved usage_150 (with_data gate_state
       [("_budget_policy", JStr "gate_on_threshold"); (HUMAN_GATE_AT_KEY, JStr BUDGET_GATE_ID)])
       "plan" tt eq_refl eq_refl) as (r & H1 & H2 & _).
  exists r. split; [exact H1|exact H2].
Defined.
End Witnesses.
