(* ===== verification/Results.v ===== *)
(** * Results: task results, chaining and graph lookup

    [core/orchestration/result.py] (the [TaskResult] contract),
    [core/orchestration/chain.py] (the follow-up policy and its registry),
    [core/orchestration/registry.py] (graph registration, materialisation and
    resolution) and [core/orchestration/failure_explain.py]. *)

From S2P Require Import Prelude PyText Domain GraphRuntime.

(** ** [TaskResult] *)

Inductive TaskResultStatus : Type := RS_succeeded | RS_failed.

Definition TaskResultStatus_value (s : TaskResultStatus) : string :=
  match s with RS_succeeded => "succeeded" | RS_failed => "failed" end.

Inductive TaskErrorCode : Type := GRAPH_ERROR | ABANDONED | INTERNAL.

Definition TaskErrorCode_value (c : TaskErrorCode) : string :=
  match c with GRAPH_ERROR => "graph_error" | ABANDONED => "abandoned" | INTERNAL => "internal" end.

Record TaskError : Type := mkTaskError {
  te_code : TaskErrorCode;
  te_message : string;
  te_details : option dict
}.

(** [TaskError(..)]: [message] has [min_length=1]. *)
Definition make_task_error (code : TaskErrorCode) (msg : string) (details : option dict)
    : res TaskError :=
  if nonempty msg then Ok (mkTaskError code msg details)
  else Err (ValidationError "TaskError.message").

Record TaskResult : Type := mkTaskResult {
  tr_task_id : string;
  tr_tenant_id : string;
  tr_trace_id : string;
  tr_graph_id : string;
  tr_status : TaskResultStatus;
  tr_output : option dict;
  tr_error : option TaskError;
  tr_node_sequence : Z;
  tr_started_at : Z;
  tr_finished_at : Z
}.

(** [_check_status_error_invariant] together with the field constraints: what
    constructing a [TaskResult] checks. *)
Definition check_task_result (r : TaskResult) : res TaskResult :=
  if negb (nonempty (tr_task_id r) && nonempty (tr_tenant_id r) && nonempty (tr_trace_id r)
           && nonempty (tr_graph_id r) && (0 <=? tr_node_sequence r))
  then Err (ValidationError "TaskResult field")
  else match tr_status r, tr_error r with
  | RS_succeeded, Some _ =>
      Err (ValidationError "TaskResult.error must be None when status='succeeded'")
  | RS_failed, None => Err (ValidationError "TaskResult.error is required when status='failed'")
  | _, _ =>
      if tr_finished_at r <? tr_started_at r
      then Err (ValidationError "TaskResult.finished_at must be >= started_at")
      else Ok r
  end.

(** What a constructed result guarantees its readers. *)
Definition result_contract (r : TaskResult) : Prop :=
  (tr_status r = RS_failed <-> is_Some (tr_error r)) /\
  tr_started_at r <= tr_finished_at r /\ 0 <= tr_node_sequence r.

Lemma check_task_result_ok r r' :
  check_task_result r = Ok r' -> r' = r /\ result_contract r.
Proof.
  unfold check_task_result, result_contract.
  destruct (negb _) eqn:Hb; [done|]. apply negb_false_iff in Hb.
  rewrite !andb_true_iff, Z.leb_le in Hb. destruct Hb as [_ Hseq].
  destruct (tr_status r), (tr_error r) as [e|]; try done;
    destruct (Z.ltb_spec (tr_finished_at r) (tr_started_at r)); try done;
    intros [= <-]; split_and!; try done; try lia; split; try done; try (by eexists);
    by intros [? ?].
Qed.

(** ** [failure_explanation] *)

Definition failure_explanation (cat summary : string) (retry : bool) (hints : list string)
    (details : dict) : dict :=
  [("category", JStr cat); ("summary", JStr summary); ("retryable", JBool retry);
   ("hints", JList (map JStr hints))]
  ++ match details with [] => [] | _ => [("details", JDict details)] end.

(** ** Task chaining *)

Record FollowUpSpec : Type := mkFollowUpSpec {
  fu_task_type : TaskType;
  fu_input_payload : dict;
  fu_idempotency_key : string;
  fu_topic : string
}.

Definition MAX_ISSUE_TITLE_LEN : nat := 72.
Definition DEFAULT_TASK_TOPIC : string := "task.commands".

Definition derive_issue_title (issue_description : string) : string :=
  let first_line :=
    if nonempty issue_description
    then match py_splitlines issue_description with l :: _ => py_strip l | [] => "" end
    else "" in
  let first_line := if nonempty first_line then first_line else "bug fix" in
  str_take MAX_ISSUE_TITLE_LEN first_line.

Definition bug_fix_to_auto_pr_policy (parent : Task) (result : TaskResult) : option FollowUpSpec :=
  if negb (bool_decide (t_task_type parent = BUG_FIX)) then None
  else match tr_status result, tr_output result with
  | RS_succeeded, Some output =>
      if negb (truthy (getd output "pushed")) then None
      else match as_nonempty_str (getd output "repo_url"),
                 as_nonempty_str (getd output "head_commit_sha"),
                 as_nonempty_str (getd output "head_branch"),
                 as_nonempty_str (getd output "base_ref") with
      | Some repo_url, Some head_commit_sha, Some head_branch, Some base_ref =>
          let issue_description :=
            default "" (as_str (default (JStr "") (dget (t_input_payload parent) "issue_description"))) in
          let payload :=
            [ ("repo_url", JStr repo_url); ("base_ref", JStr base_ref);
              ("head_branch", JStr head_branch); ("head_commit_sha", JStr head_commit_sha);
              ("verifier_passed", JBool (truthy (default (JBool false) (dget output "verifier_passed"))));
              ("verifier_output", JStr (py_str (default (JStr "") (dget output "verifier_output"))));
              ("diff_stat", JStr (py_str (default (JStr "") (dget output "diff_stat"))));
              ("issue_title", JStr (derive_issue_title issue_description));
              ("issue_description", JStr issue_description);
              ("_parent_task_id", JStr (t_task_id parent)) ] in
          Some (mkFollowUpSpec AUTO_PR payload
                  ("chain:" +:+ t_task_id parent +:+ ":auto_pr") DEFAULT_TASK_TOPIC)
      | _, _, _, _ => None
      end
  | _, _ => None
  end.

Definition TaskChainPolicy : Type := Task -> TaskResult -> option FollowUpSpec.

(** [TaskChainRegistry]: a dict keyed by task type ([StrEnum] keys hash and
    compare as their string values). *)
Definition TaskChainRegistry : Type := list (string * TaskChainPolicy).
Definition chain_register (r : TaskChainRegistry) (t : TaskType) (p : TaskChainPolicy)
    : TaskChainRegistry := dset r (TaskType_value t) p.
Definition chain_derive (r : TaskChainRegistry) (parent : Task) (result : TaskResult)
    : option FollowUpSpec :=
  match dget r (TaskType_value (t_task_type parent)) with
  | None => None
  | Some policy => policy parent result
  end.

(** ** [GraphRegistry] *)

Module Registry.
Section Registry.
Context {W Deps : Type}.

Definition GraphFactory : Type := Deps -> res (Graph W).

Record GraphRegistry : Type := mkRegistry {
  rg_factories : list (string * GraphFactory);
  rg_defaults : list (string * string);
  rg_graphs : list (string * Graph W);
  rg_requires_workspace : list string;
  rg_materialized : bool
}.

Definition empty_registry : GraphRegistry := mkRegistry [] [] [] [] false.

(** [register] writes the factory and the workspace flag before it looks at
    [default_for]: a conflicting default raises with both already stored. *)
Definition register (graph_id : string) (factory : GraphFactory)
    (default_for : option TaskType) (requires_ws : bool) : M GraphRegistry unit := fun r =>
  if rg_materialized r then (Err (GraphError "cannot register after materialize()"), r)
  else if negb (nonempty graph_id) then (Err (GraphError "graph_id must be non-empty"), r)
  else if dmem (rg_factories r) graph_id then (Err (GraphError "graph already registered"), r)
  else
    let r1 := mkRegistry (dset (rg_factories r) graph_id factory) (rg_defaults r) (rg_graphs r)
                (if requires_ws then graph_id :: rg_requires_workspace r
                 else rg_requires_workspace r) false in
    match default_for with
    | None => (Ok tt, r1)
    | Some t =>
        if dmem (rg_defaults r) (TaskType_value t)
        then (Err (GraphError "task_type already has a default graph"), r1)
        else (Ok tt, mkRegistry (rg_factories r1) (dset (rg_defaults r) (TaskType_value t) graph_id)
                       (rg_graphs r1) (rg_requires_workspace r1) false)
    end.

Definition put_graph (gid : string) (g : Graph W) (r : GraphRegistry) : GraphRegistry :=
  mkRegistry (rg_factories r) (rg_defaults r) (dset (rg_graphs r) gid g)
    (rg_requires_workspace r) (rg_materialized r).

Fixpoint materialize_loop (fs : list (string * GraphFactory)) (deps : Deps)
    : M GraphRegistry unit :=
  match fs with
  | [] => ret tt
  | (gid, factory) :: fs' =>
      g <- lift (factory deps) ;;
      if negb (String.eqb (g_graph_id g) gid)
      then raise (GraphError "factory returned graph with mismatched graph_id")
      else
        lift (compile g) ;;;
        modify (put_graph gid g) ;;;
        materialize_loop fs' deps
  end.

Definition materialize (deps : Deps) : M GraphRegistry unit := fun r =>
  if rg_materialized r then (Err (GraphError "registry already materialized"), r)
  else
    match materialize_loop (rg_factories r) deps r with
    | (Ok _, r') =>
        (Ok tt, mkRegistry (rg_factories r') (rg_defaults r') (rg_graphs r')
                  (rg_requires_workspace r') true)
    | (Err e, r') => (Err e, r')
    end.

Definition require_materialized (r : GraphRegistry) : res unit :=
  if rg_materialized r then Ok tt else Err (GraphError "registry not materialized").

Definition get_graph (r : GraphRegistry) (gid : string) : res (Graph W) :=
  let? _ := require_materialized r in
  match dget (rg_graphs r) gid with
  | None => Err (GraphError "unknown graph_id")
  | Some g => Ok g
  end.

Definition resolve (r : GraphRegistry) (t : TaskType) (gid : option string) : res (Graph W) :=
  let? _ := require_materialized r in
  match gid with
  | Some g => get_graph r g
  | None =>
      match dget (rg_defaults r) (TaskType_value t) with
      | None => Err (GraphError "no default graph registered for task_type")
      | Some d =>
          match dget (rg_graphs r) d with Some g => Ok g | None => Err (KeyError d) end
      end
  end.

Definition requires_workspace (r : GraphRegistry) (gid : string) : bool :=
  existsb (String.eqb gid) (rg_requires_workspace r).

(** Every default names a registered factory; once materialised, every
    factory has its compiled graph stored under the graph's own id. *)
Record wf_registry (r : GraphRegistry) : Prop := {
  wr_defaults : forall t d, dget (rg_defaults r) t = Some d -> is_Some (dget (rg_factories r) d);
  wr_graphs : rg_materialized r = true ->
              forall gid, is_Some (dget (rg_factories r) gid) -> is_Some (dget (rg_graphs r) gid);
  wr_ids : forall gid g, dget (rg_graphs r) gid = Some g ->
           g_graph_id g = gid /\ compile g = Ok tt
}.
End Registry.
Arguments GraphRegistry : clear implicits.
Arguments mkRegistry {W Deps}.
End Registry.

(** ** Facts *)

Lemma derive_issue_title_bounds issue :
  derive_issue_title issue <> "" /\ (String.length (derive_issue_title issue) <= 72)%nat.
Proof.
  unfold derive_issue_title. split; [|apply str_take_length].
  apply str_take_nonempty; [unfold MAX_ISSUE_TITLE_LEN; lia|].
  match goal with |- (if nonempty ?x then _ else _) <> _ => destruct (nonempty x) eqn:E end; [|done].
  by apply nonempty_true.
Qed.

Lemma as_nonempty_str_Some v s : as_nonempty_str v = Some s <-> v = JStr s /\ s <> "".
Proof.
  destruct v; simpl; try (split; [done|by intros [? _]]).
  destruct (String.eqb_spec s0 ""); naive_solver.
Qed.

(** The conditions under which a finished bug fix spawns a pull request. *)
Definition chain_ready (parent : Task) (result : TaskResult) (out : dict) : Prop :=
  t_task_type parent = BUG_FIX /\ tr_status result = RS_succeeded /\ tr_output result = Some out /\
  truthy (getd out "pushed") = true /\
  forall k, k ∈ ["repo_url"; "head_commit_sha"; "head_branch"; "base_ref"] ->
    exists s, getd out k = JStr s /\ s <> "".

(** The chain policy fires exactly on a succeeded bug fix that pushed and
    reports the four coordinates a pull request needs.  The follow-up is an
    [AUTO_PR] task whose payload carries those coordinates, the parent id and a
    title of 1 to 72 characters, under an idempotency key that depends on the
    parent id only. *)
Theorem chain_policy_spec parent result :
  match bug_fix_to_auto_pr_policy parent result with
  | Some spec =>
      exists out, chain_ready parent result out /\
        fu_task_type spec = AUTO_PR /\
        fu_idempotency_key spec = "chain:" +:+ t_task_id parent +:+ ":auto_pr" /\
        (forall k, k ∈ ["repo_url"; "head_commit_sha"; "head_branch"; "base_ref"] ->
           getd (fu_input_payload spec) k = getd out k) /\
        getd (fu_input_payload spec) "_parent_task_id" = JStr (t_task_id parent) /\
        exists title, getd (fu_input_payload spec) "issue_title" = JStr title /\
          title <> "" /\ (String.length title <= 72)%nat
  | None => forall out, ~ chain_ready parent result out
  end.
Proof.
  unfold bug_fix_to_auto_pr_policy, chain_ready.
  destruct (bool_decide_reflect (t_task_type parent = BUG_FIX)); simpl; [|naive_solver].
  destruct (tr_status result) eqn:Hst; [|naive_solver].
  destruct (tr_output result) as [out|] eqn:Hout; [|naive_solver].
  destruct (truthy (getd out "pushed")) eqn:Hp; simpl; [|intros o (_&_&[= <-]&?&_); congruence].
  assert (Hnone : forall k, k ∈ ["repo_url"; "head_commit_sha"; "head_branch"; "base_ref"] ->
            as_nonempty_str (getd out k) = None ->
            ~ (t_task_type parent = BUG_FIX /\ RS_succeeded = RS_succeeded /\ Some out = Some out /\
               true = true /\ forall k, k ∈ ["repo_url"; "head_commit_sha"; "head_branch"; "base_ref"] ->
               exists s, getd out k = JStr s /\ s <> "")).
  { intros k Hk Hn (_ & _ & _ & _ & Hall). destruct (Hall k Hk) as (s & Hs & Hne).
    assert (as_nonempty_str (getd out k) = Some s) by by apply as_nonempty_str_Some. congruence. }
  destruct (as_nonempty_str (getd out "repo_url")) as [u|] eqn:E1; cycle 1.
  { intros o H. eapply (Hnone "repo_url"); [set_solver|done|]. destruct H as (?&?&[= <-]&?&?). done. }
  destruct (as_nonempty_str (getd out "head_commit_sha")) as [c|] eqn:E2; cycle 1.
  { intros o H. eapply (Hnone "head_commit_sha"); [set_solver|done|]. destruct H as (?&?&[= <-]&?&?). done. }
  destruct (as_nonempty_str (getd out "head_branch")) as [b|] eqn:E3; cycle 1.
  { intros o H. eapply (Hnone "head_branch"); [set_solver|done|]. destruct H as (?&?&[= <-]&?&?). done. }
  destruct (as_nonempty_str (getd out "base_ref")) as [r|] eqn:E4; cycle 1.
  { intros o H. eapply (Hnone "base_ref"); [set_solver|done|]. destruct H as (?&?&[= <-]&?&?). done. }
  apply as_nonempty_str_Some in E1 as [E1 ?], E2 as [E2 ?], E3 as [E3 ?], E4 as [E4 ?].
  exists out. split_and!; try done.
  - intros k Hk. set_unfold in Hk. destruct_or! Hk; subst k; eauto.
  - intros k Hk. set_unfold in Hk. destruct_or! Hk; subst k; rewrite ?E1, ?E2, ?E3, ?E4; reflexivity.
  - eexists. split; [reflexivity|]. apply derive_issue_title_bounds.
Qed.

Module RegistryFacts.
Import Registry.
Section Facts.
Context {W Deps : Type}.
Implicit Types r : GraphRegistry W Deps.

Lemma empty_registry_wf : wf_registry (@empty_registry W Deps).
Proof. split; simpl; done. Qed.

Lemma dget_dset_is_Some {V} (d : list (string * V)) k v k' :
  is_Some (dget d k') -> is_Some (dget (dset d k v) k').
Proof. rewrite dget_dset. destruct (String.eqb k k'); eauto. Qed.

Lemma register_wf gid f d b r res r' :
  wf_registry r -> register gid f d b r = (res, r') -> wf_registry r'.
Proof.
  intros [Hd Hg Hi]. unfold register.
  destruct (rg_materialized r) eqn:Hm; [intros [= <- <-]; by split; try rewrite Hm|].
  destruct (negb (nonempty gid)); [intros [= <- <-]; split; rewrite ?Hm; done|].
  destruct (dmem _ _); [intros [= <- <-]; split; rewrite ?Hm; done|].
  destruct d as [t|]; [destruct (dmem _ _)|]; intros [= <- <-]; split; simpl; try done.
  1,3: intros t' x Hx; apply dget_dset_is_Some; eauto.
  intros t' x. rewrite dget_dset. destruct (String.eqb _ t').
  - intros [= <-]. rewrite dget_dset_eq. eauto.
  - intros Hx. apply dget_dset_is_Some; eauto.
Qed.

(** The loop only adds compiled graphs under their own ids, and on success
    every factory it walked has one. *)
Lemma materialize_loop_spec fs deps r res r' :
  materialize_loop fs deps r = (res, r') ->
  (forall gid g, dget (rg_graphs r) gid = Some g -> g_graph_id g = gid /\ compile g = Ok tt) ->
  (forall gid g, dget (rg_graphs r') gid = Some g -> g_graph_id g = gid /\ compile g = Ok tt) /\
  rg_factories r' = rg_factories r /\ rg_defaults r' = rg_defaults r /\
  rg_materialized r' = rg_materialized r /\
  (forall gid, is_Some (dget (rg_graphs r) gid) -> is_Some (dget (rg_graphs r') gid)) /\
  (res = Ok tt -> forall gid, is_Some (dget fs gid) -> is_Some (dget (rg_graphs r') gid)).
Proof.
  revert r. induction fs as [|[gid f] fs IH]; intros r Hr Hi; simpl in Hr.
  { unfold ret in Hr. simplify_eq. split_and!; try done. intros _ gid [x Hx]. done. }
  unfold bind, lift in Hr. destruct (f deps) as [g|e]; cycle 1.
  { simplify_eq. split_and!; done. }
  destruct (String.eqb_spec (g_graph_id g) gid) as [Hid|]; simpl in Hr; cycle 1.
  { unfold raise in Hr. simplify_eq. split_and!; done. }
  destruct (compile g) as [[]|e] eqn:Hc; cycle 1. { simplify_eq. split_and!; done. }
  unfold modify in Hr. apply IH in Hr as (H1 & H2 & H3 & H4 & H5 & H6); cycle 1.
  { intros gid' g'. simpl. rewrite dget_dset. destruct (String.eqb_spec gid gid') as [<-|].
    - intros [= <-]. done.
    - apply Hi. }
  split_and!; try done.
  - intros x Hx. apply H5. simpl. by apply dget_dset_is_Some.
  - intros Hok x. simpl. destruct (String.eqb_spec x gid) as [->|]; [|by apply H6].
    intros _. apply H5. simpl. rewrite dget_dset_eq. eauto.
Qed.

Lemma materialize_wf deps r res r' :
  wf_registry r -> materialize deps r = (res, r') -> wf_registry r'.
Proof.
  intros [Hd Hg Hi]. unfold materialize. destruct (rg_materialized r) eqn:Hm.
  { intros [= <- <-]. split; rewrite ?Hm; done. }
  destruct (materialize_loop _ _ _) as [[[]|e] r1] eqn:Hl;
    apply materialize_loop_spec in Hl as (H1 & H2 & H3 & H4 & H5 & H6); try done;
    intros [= <- <-]; split; simpl; rewrite ?H2, ?H3; try done.
  - intros _ gid Hx. by apply H6.
  - rewrite H4, Hm. done.
Qed.

(** Every registry reachable by [register] and [materialize] calls,
    including the ones that raised. *)
Inductive reachable : GraphRegistry W Deps -> Prop :=
  | reach_empty : reachable empty_registry
  | reach_register gid f d b r res r' :
      reachable r -> register gid f d b r = (res, r') -> reachable r'
  | reach_materialize deps r res r' :
      reachable r -> materialize deps r = (res, r') -> reachable r'.

Lemma reachable_wf r : reachable r -> wf_registry r.
Proof.
  induction 1; [apply empty_registry_wf|by eapply register_wf|by eapply materialize_wf].
Qed.

(** Graph resolution is total up to its documented error.  In every
    registry the process can build, [resolve] either returns a compiled
    graph stored under its own id, or raises [GraphError]; a [KeyError] from
    a default that has no graph cannot happen. *)
Theorem resolve_sound r t gid :
  reachable r ->
  match resolve r t gid with
  | Ok g => compile g = Ok tt /\
            (forall x, gid = Some x -> g_graph_id g = x) /\
            (gid = None -> dget (rg_defaults r) (TaskType_value t) = Some (g_graph_id g))
  | Err e => exists msg, e = GraphError msg
  end.
Proof.
  intros [Hd Hg Hi]%reachable_wf. unfold resolve, get_graph, require_materialized.
  destruct (rg_materialized r) eqn:Hm; simpl; [|by eexists].
  destruct gid as [x|]; simpl.
  - destruct (dget (rg_graphs r) x) as [g|] eqn:Hx; [|by eexists].
    destruct (Hi x g Hx) as [? ?]. split_and!; naive_solver.
  - destruct (dget (rg_defaults r) _) as [d|] eqn:Hdef; [|by eexists].
    destruct (Hg eq_refl d (Hd _ _ Hdef)) as [g Hgd]. rewrite Hgd.
    destruct (Hi d g Hgd) as [-> ?]. split_and!; naive_solver.
Qed.
End Facts.
End RegistryFacts.
