(* ===== verification/Persistence.v ===== *)
(** * Persistence: the PostgreSQL repositories

    The tables of [migrations/versions/0001_initial_schema.py] and the
    repositories of [infra/persistence/] that read and write them:
    [task_repo.py], [checkpoint_repo.py], [outbox_repo.py], [audit_repo.py]
    ([append] only) and the transaction of [pool.py].

    A table is a value: [tasks] is a finite map keyed by its primary key, the
    append-only tables are lists in insertion order.  Unique indexes are checked
    on insert and raise [UniqueViolationError].  Each statement first consults
    the fault oracle [w_fault], so any database call may fail with an
    infrastructure exception before it takes effect; a failed transaction
    restores the tables.  Clock readings and generated ids come from oracles
    [w_clock] and [w_ids], indexed by how many were taken. *)

From S2P Require Import Prelude Domain GraphRuntime Results.

Record TaskRow : Type := mkTaskRow { row_task : Task; row_result : option TaskResult }.

Record OutboxRow : Type := mkOutboxRow {
  or_event : OutboxEvent;
  or_last_error : option string;
  or_next_attempt_at : option Z
}.

(** A row of [api_keys]: the hash of a token and what it grants. *)
Record ApiKey : Type := mkApiKey {
  ak_id : string; ak_token_hash : string; ak_tenant_id : string; ak_principal_id : string;
  ak_scopes : list string; ak_revoked_at : option Z; ak_last_used_at : option Z
}.

Record Db : Type := mkDb {
  db_tasks : gmap string TaskRow;
  db_checkpoints : list TaskCheckpoint;
  db_outbox : list OutboxRow;
  db_audits : list AuditEvent;
  db_sessions : gmap string Session;
  db_usage : list LLMUsageRecord;
  db_api_keys : list ApiKey
}.

(** Why a statement may not come back: an exception of the driver, or the
    cancellation of the awaiting task. *)
Inductive fault : Type := InfraFault (cls : string) | CancelFault.
Definition fault_exn (f : fault) : exn :=
  match f with InfraFault cls => ExternalError cls | CancelFault => CancelledError end.

Record World : Type := mkWorld {
  w_ctx : option RequestContext;
  w_db : Db;
  w_acked : list string;
  w_clock : nat -> Z;
  w_ticks : nat;
  w_ids : nat -> string;
  w_nids : nat;
  w_fault : nat -> option fault;
  w_ops : nat
}.

Definition with_db (f : Db -> Db) (w : World) : World :=
  mkWorld (w_ctx w) (f (w_db w)) (w_acked w) (w_clock w) (w_ticks w) (w_ids w) (w_nids w)
    (w_fault w) (w_ops w).
Definition with_ctx (c : option RequestContext) (w : World) : World :=
  mkWorld c (w_db w) (w_acked w) (w_clock w) (w_ticks w) (w_ids w) (w_nids w) (w_fault w) (w_ops w).
Definition with_acked (e : string) (w : World) : World :=
  mkWorld (w_ctx w) (w_db w) (e :: w_acked w) (w_clock w) (w_ticks w) (w_ids w) (w_nids w)
    (w_fault w) (w_ops w).

#[global] Instance World_HasContext : HasContext World.
Proof. refine {| current_ctx := w_ctx; set_ctx := with_ctx |}; by intros; try destruct w. Defined.

(** [self._clock()] and [self._id_factory()]. *)
Definition clock : M World Z := fun w =>
  (Ok (w_clock w (w_ticks w)),
   mkWorld (w_ctx w) (w_db w) (w_acked w) (w_clock w) (S (w_ticks w)) (w_ids w) (w_nids w)
     (w_fault w) (w_ops w)).
Definition id_factory : M World string := fun w =>
  (Ok (w_ids w (w_nids w)),
   mkWorld (w_ctx w) (w_db w) (w_acked w) (w_clock w) (w_ticks w) (w_ids w) (S (w_nids w))
     (w_fault w) (w_ops w)).

(** One statement reaching the database. *)
Definition db_call : M World unit := fun w =>
  let w' := mkWorld (w_ctx w) (w_db w) (w_acked w) (w_clock w) (w_ticks w) (w_ids w) (w_nids w)
              (w_fault w) (S (w_ops w)) in
  match w_fault w (w_ops w) with Some f => (Err (fault_exn f), w') | None => (Ok tt, w') end.

(** [RedisStreamConsumer.ack]: a [RedisError] of [XACK], the driver's exception,
    is logged and swallowed; a cancellation is not. *)
Definition ack (entry_id : string) : M World unit := fun w =>
  match db_call w with
  | (Ok _, w') => (Ok tt, with_acked entry_id w')
  | (Err e, w') => (if is_exception e then Ok tt else Err e, w')
  end.

(** [async with pool.transaction() as conn]: all or nothing. *)
Definition transaction {A} (m : M World A) : M World A := fun w =>
  match m w with
  | (Ok a, w') => (Ok a, w')
  | (Err e, w') => (Err e, with_db (fun _ => w_db w) w')
  end.

(** ** Table updates *)

Definition with_tasks (f : gmap string TaskRow -> gmap string TaskRow) (d : Db) : Db :=
  mkDb (f (db_tasks d)) (db_checkpoints d) (db_outbox d) (db_audits d) (db_sessions d) (db_usage d)
    (db_api_keys d).
Definition with_checkpoints (f : list TaskCheckpoint -> list TaskCheckpoint) (d : Db) : Db :=
  mkDb (db_tasks d) (f (db_checkpoints d)) (db_outbox d) (db_audits d) (db_sessions d) (db_usage d)
    (db_api_keys d).
Definition with_outbox (f : list OutboxRow -> list OutboxRow) (d : Db) : Db :=
  mkDb (db_tasks d) (db_checkpoints d) (f (db_outbox d)) (db_audits d) (db_sessions d) (db_usage d)
    (db_api_keys d).
Definition with_audits (f : list AuditEvent -> list AuditEvent) (d : Db) : Db :=
  mkDb (db_tasks d) (db_checkpoints d) (db_outbox d) (f (db_audits d)) (db_sessions d) (db_usage d)
    (db_api_keys d).
Definition with_sessions (f : gmap string Session -> gmap string Session) (d : Db) : Db :=
  mkDb (db_tasks d) (db_checkpoints d) (db_outbox d) (db_audits d) (f (db_sessions d)) (db_usage d)
    (db_api_keys d).
Definition with_usage (f : list LLMUsageRecord -> list LLMUsageRecord) (d : Db) : Db :=
  mkDb (db_tasks d) (db_checkpoints d) (db_outbox d) (db_audits d) (db_sessions d) (f (db_usage d))
    (db_api_keys d).
Definition with_api_keys (f : list ApiKey -> list ApiKey) (d : Db) : Db :=
  mkDb (db_tasks d) (db_checkpoints d) (db_outbox d) (db_audits d) (db_sessions d) (db_usage d)
    (f (db_api_keys d)).

(** ** [PgTaskRepository] *)

(** [WHERE tenant_id = $1 AND task_id = $2]. *)
Definition select_task (d : Db) (tenant task : string) : option TaskRow :=
  match db_tasks d !! task with
  | Some r => if String.eqb (t_tenant_id (row_task r)) tenant then Some r else None
  | None => None
  end.

(** [ORDER BY key] of the rows that satisfy a predicate; rows with equal keys
    keep the order of the map, one of the orders PostgreSQL may return. *)
Definition rows_where (p : TaskRow -> bool) (d : Db) : list TaskRow :=
  List.filter p (map snd (map_to_list (db_tasks d))).
Definition key_le (key : Task -> Z) (a b : TaskRow) : Prop := key (row_task a) <= key (row_task b).
#[global] Instance key_le_dec key : RelDecision (key_le key).
Proof. intros a b. unfold key_le. apply _. Defined.
Definition order_by (key : Task -> Z) (l : list TaskRow) : list TaskRow :=
  merge_sort (key_le key) l.
Definition limit_tasks (n : nat) (l : list TaskRow) : list Task := map row_task (take n l).

(** [uq_tasks_tenant_idem]: partial unique index on [(tenant_id,
    idempotency_key)] where the key is not null. *)
Definition task_idem_conflict (d : Db) (t : Task) : bool :=
  match t_idempotency_key t with
  | None => false
  | Some k =>
      existsb (fun r => String.eqb (t_tenant_id (row_task r)) (t_tenant_id t) &&
                        bool_decide (t_idempotency_key (row_task r) = Some k))
        (rows_where (fun _ => true) d)
  end.

(** [ON CONFLICT (task_id) DO UPDATE SET ..]: the listed columns only, and no
    condition on the tenant of the row already there. *)
Definition upsert_row (old : TaskRow) (t : Task) : TaskRow :=
  let o := row_task old in
  mkTaskRow
    (mkTask (t_task_id o) (t_tenant_id o) (t_session_id t) (t_principal_id o) (t_trace_id o)
       (t_idempotency_key o) (t_task_type o) (t_graph_id t) (t_state t) (t_permission_mode t)
       (t_budget_policy t) (t_budget_threshold_micros t) (t_input_payload t) (t_created_at o)
       (t_updated_at t))
    (row_result old).

Definition upsert_in_conn (t : Task) : M World unit :=
  check_tenant (t_tenant_id t) ;;;
  db_call ;;;
  w <- get ;;
  match db_tasks (w_db w) !! t_task_id t with
  | Some old => modify (with_db (with_tasks (<[t_task_id t := upsert_row old t]>)))
  | None =>
      if task_idem_conflict (w_db w) t then raise UniqueViolationError
      else modify (with_db (with_tasks (<[t_task_id t := mkTaskRow t None]>)))
  end.

Definition upsert (t : Task) : M World unit :=
  check_tenant (t_tenant_id t) ;;; upsert_in_conn t.

Definition get_task (tenant task : string) : M World (option Task) :=
  check_tenant tenant ;;;
  db_call ;;;
  w <- get ;; ret (row_task <$> select_task (w_db w) tenant task).

Definition list_by_state (tenant : string) (st : TaskState) (limit : nat) : M World (list Task) :=
  check_tenant tenant ;;;
  db_call ;;;
  w <- get ;;
  ret (limit_tasks limit (order_by t_created_at
    (rows_where (fun r => String.eqb (t_tenant_id (row_task r)) tenant &&
                          bool_decide (t_state (row_task r) = st)) (w_db w)))).

(** [ORDER BY created_at ASC LIMIT n]: the oldest [n] tasks of the session. *)
Definition list_by_session (tenant session : string) (limit : nat) : M World (list Task) :=
  check_tenant tenant ;;;
  db_call ;;;
  w <- get ;;
  ret (limit_tasks limit (order_by t_created_at
    (rows_where (fun r => String.eqb (t_tenant_id (row_task r)) tenant &&
                          bool_decide (t_session_id (row_task r) = Some session)) (w_db w)))).

(** Cross-tenant: no [check_tenant]. *)
Definition list_awaiting_approval_older_than (threshold : Z) (limit : nat) : M World (list Task) :=
  db_call ;;;
  w <- get ;;
  ret (limit_tasks limit (order_by t_updated_at
    (rows_where (fun r => bool_decide (t_state (row_task r) = AWAITING_APPROVAL) &&
                          (t_updated_at (row_task r) <? threshold)) (w_db w)))).

Definition list_running_for_resume (limit : nat) : M World (list Task) :=
  db_call ;;;
  w <- get ;;
  ret (limit_tasks limit (order_by t_created_at
    (rows_where (fun r => bool_decide (t_state (row_task r) = RUNNING)) (w_db w)))).

(** [UPDATE tasks SET .. WHERE tenant_id = $1 AND task_id = $2 AND guard]:
    the number of rows changed, 0 or 1. *)
Definition update_where (tenant task : string) (guard : TaskRow -> bool) (f : TaskRow -> TaskRow)
    : M World nat :=
  db_call ;;;
  w <- get ;;
  match select_task (w_db w) tenant task with
  | Some r =>
      if guard r then modify (with_db (with_tasks (<[task := f r]>))) ;;; ret 1%nat
      else ret 0%nat
  | None => ret 0%nat
  end.

Definition row_with_state (s : TaskState) (at_ : Z) (r : TaskRow) : TaskRow :=
  mkTaskRow (task_with_state (row_task r) s at_) (row_result r).

(** [_UPDATE_STATE] has no guard on the current state and ignores the count. *)
Definition update_state (tenant task : string) (s : TaskState) (at_ : Z) : M World unit :=
  check_tenant tenant ;;;
  update_where tenant task (fun _ => true) (row_with_state s at_) ;;; ret tt.

Definition set_awaiting_approval (tenant task : string) (at_ : Z) : M World unit :=
  check_tenant tenant ;;;
  n <- update_where tenant task (fun r => bool_decide (t_state (row_task r) = RUNNING))
         (row_with_state AWAITING_APPROVAL at_) ;;
  if Nat.eqb n 0 then raise IllegalTaskTransitionError else ret tt.

Definition transition_from_awaiting_approval (tenant task : string) (s : TaskState) (at_ : Z)
    : M World unit :=
  check_tenant tenant ;;;
  n <- update_where tenant task (fun r => bool_decide (t_state (row_task r) = AWAITING_APPROVAL))
         (row_with_state s at_) ;;
  if Nat.eqb n 0 then raise IllegalTaskTransitionError else ret tt.

Definition complete (tenant task : string) (result : TaskResult) (terminal : TaskState) (at_ : Z)
    : M World unit :=
  check_tenant tenant ;;;
  if negb (TERMINAL_TASK_STATES terminal) then raise IllegalTaskTransitionError
  else
    n <- update_where tenant task (fun r => negb (TERMINAL_TASK_STATES (t_state (row_task r))))
           (fun r => mkTaskRow (task_with_state (row_task r) terminal at_) (Some result)) ;;
    if Nat.eqb n 0 then raise IllegalTaskTransitionError else ret tt.

Definition get_result (tenant task : string) : M World (option TaskResult) :=
  check_tenant tenant ;;;
  db_call ;;;
  w <- get ;; ret (select_task (w_db w) tenant task ≫= row_result).

(** ** [PgCheckpointRepository] *)

(** [uq_checkpoints_task_sequence] and the primary key. *)
Definition checkpoint_conflict (d : Db) (c : TaskCheckpoint) : bool :=
  existsb (fun x => String.eqb (cp_checkpoint_id x) (cp_checkpoint_id c) ||
                    (String.eqb (cp_task_id x) (cp_task_id c) &&
                     (cp_sequence x =? cp_sequence c))) (db_checkpoints d).

Definition append_checkpoint (c : TaskCheckpoint) : M World unit :=
  check_tenant (cp_tenant_id c) ;;;
  db_call ;;;
  w <- get ;;
  if checkpoint_conflict (w_db w) c then raise UniqueViolationError
  else modify (with_db (with_checkpoints (fun l => l ++ [c]))).

Definition task_checkpoints (d : Db) (tenant task : string) : list TaskCheckpoint :=
  List.filter (fun c => String.eqb (cp_tenant_id c) tenant && String.eqb (cp_task_id c) task)
    (db_checkpoints d).

(** [ORDER BY sequence DESC LIMIT 1]. *)
Fixpoint max_sequence (best : option TaskCheckpoint) (l : list TaskCheckpoint)
    : option TaskCheckpoint :=
  match l with
  | [] => best
  | c :: l' =>
      max_sequence (match best with
                    | Some b => if cp_sequence b <? cp_sequence c then Some c else best
                    | None => Some c
                    end) l'
  end.

Definition latest (tenant task : string) : M World (option TaskCheckpoint) :=
  check_tenant tenant ;;;
  db_call ;;;
  w <- get ;; ret (max_sequence None (task_checkpoints (w_db w) tenant task)).

(** ** [PgOutboxRepository] *)

(** [uq_outbox_tenant_idem] and the primary key. *)
Definition outbox_conflict (d : Db) (e : OutboxEvent) : bool :=
  existsb (fun r => String.eqb (ob_event_id (or_event r)) (ob_event_id e) ||
                    (String.eqb (ob_tenant_id (or_event r)) (ob_tenant_id e) &&
                     String.eqb (ob_idempotency_key (or_event r)) (ob_idempotency_key e)))
    (db_outbox d).

(** [_ENQUEUE] stores [created_at] also as [next_attempt_at]. *)
Definition enqueue_in_conn (e : OutboxEvent) : M World unit :=
  check_tenant (ob_tenant_id e) ;;;
  db_call ;;;
  w <- get ;;
  if outbox_conflict (w_db w) e then raise UniqueViolationError
  else modify (with_db (with_outbox (fun l => l ++ [mkOutboxRow e None (Some (ob_created_at e))]))).

Definition enqueue (e : OutboxEvent) : M World unit :=
  check_tenant (ob_tenant_id e) ;;; enqueue_in_conn e.

(** [WHERE status = 'pending' AND (next_attempt_at IS NULL OR next_attempt_at
    <= now)]. *)
Definition outbox_due (now : Z) (r : OutboxRow) : bool :=
  bool_decide (ob_status (or_event r) = OB_PENDING) &&
  match or_next_attempt_at r with None => true | Some t => t <=? now end.

Definition created_le (a b : OutboxRow) : Prop :=
  ob_created_at (or_event a) <= ob_created_at (or_event b).
#[global] Instance created_le_dec : RelDecision created_le.
Proof. intros a b. unfold created_le. apply _. Defined.

(** [claim_pending]: the [FOR UPDATE SKIP LOCKED] select is the only statement
    of its transaction, so the row locks end when it returns and no column
    changes. *)
Definition claim_pending (batch_size : nat) (now : Z) : M World (list OutboxEvent) :=
  transaction (
    db_call ;;;
    w <- get ;;
    ret (map or_event (take batch_size
           (merge_sort created_le (List.filter (outbox_due now) (db_outbox (w_db w))))))).

Definition map_row (event_id : string) (f : OutboxRow -> OutboxRow) (l : list OutboxRow)
    : list OutboxRow :=
  map (fun r => if String.eqb (ob_event_id (or_event r)) event_id then f r else r) l.

Definition event_with (e : OutboxEvent) (st : OutboxStatus) (att : Z) (disp : option Z)
    : OutboxEvent :=
  mkOutboxEvent (ob_event_id e) (ob_tenant_id e) (ob_trace_id e) (ob_aggregate_type e)
    (ob_aggregate_id e) (ob_topic e) (ob_payload e) (ob_idempotency_key e) st att
    (ob_created_at e) disp.

Definition mark_dispatched (event_id : string) (at_ : Z) : M World unit :=
  db_call ;;;
  modify (with_db (with_outbox (map_row event_id (fun r =>
    mkOutboxRow (event_with (or_event r) OB_DISPATCHED (ob_attempts (or_event r)) (Some at_))
      None (or_next_attempt_at r))))).

Definition mark_failed (event_id err : string) (next_attempt_at : option Z) (terminal : bool)
    : M World unit :=
  db_call ;;;
  modify (with_db (with_outbox (map_row event_id (fun r =>
    mkOutboxRow (event_with (or_event r) (if terminal then OB_FAILED else OB_PENDING)
                   (ob_attempts (or_event r) + 1) (ob_dispatched_at (or_event r)))
      (Some err) next_attempt_at)))).

(** ** [PgAuditRepository.append] *)

Definition audit_conflict (d : Db) (e : AuditEvent) : bool :=
  existsb (fun x => String.eqb (ae_event_id x) (ae_event_id e)) (db_audits d).

Definition append_audit (e : AuditEvent) : M World unit :=
  check_tenant (ae_tenant_id e) ;;;
  db_call ;;;
  w <- get ;;
  if audit_conflict (w_db w) e then raise UniqueViolationError
  else modify (with_db (with_audits (fun l => l ++ [e]))).

(** ** Effects of calls on the tables

    [respects R m]: whatever [m] does, returning or raising, the tables before
    and after are related by the preorder [R].  The lemmas below push this
    through the monad, so that a component's proof only looks at its own
    statements. *)

Definition respects (R : Db -> Db -> Prop) {A} (m : M World A) : Prop :=
  forall w, R (w_db w) (w_db (m w).2).

(** The context binding survives a call. *)
Definition keeps_ctx {A} (m : M World A) : Prop := forall w, w_ctx (m w).2 = w_ctx w.

Section Respects.
Context (R : Db -> Db -> Prop) `{!PreOrder R}.

Lemma respects_ret {A} (a : A) : respects R (ret a).
Proof. by intros w. Qed.
Lemma respects_raise {A} e : respects R (@raise World A e).
Proof. by intros w. Qed.
Lemma respects_lift {A} (r : res A) : respects R (lift r).
Proof. by intros w. Qed.
Lemma respects_get : respects R get.
Proof. by intros w. Qed.
Lemma respects_clock : respects R clock.
Proof. by intros w. Qed.
Lemma respects_id_factory : respects R id_factory.
Proof. by intros w. Qed.
Lemma respects_db_call : respects R db_call.
Proof. intros w. unfold db_call. by destruct (w_fault w _). Qed.
Lemma respects_ack e : respects R (ack e).
Proof. intros w. unfold ack, db_call. by destruct (w_fault w _) as [[]|]. Qed.

Lemma respects_bind {A B} (m : M World A) (k : A -> M World B) :
  respects R m -> (forall a, respects R (k a)) -> respects R (bind m k).
Proof.
  intros Hm Hk w. unfold bind. specialize (Hm w).
  destruct (m w) as [[a|e] w1]; simpl in *; [|done].
  etransitivity; [exact Hm|apply Hk].
Qed.

Lemma respects_check_tenant t : respects R (check_tenant t).
Proof.
  intros w. destruct (check_tenant t w) as [r w'] eqn:E.
  apply check_tenant_inv in E as [-> _]. done.
Qed.

Lemma respects_try_except {A} (m : M World A) h :
  respects R m -> (forall e k, h e = Some k -> respects R k) -> respects R (try_except m h).
Proof.
  intros Hm Hh w. unfold try_except. specialize (Hm w).
  destruct (m w) as [[a|e] w1]; simpl in *; [done|].
  destruct (h e) as [k|] eqn:E; [|done]. etransitivity; [exact Hm|by eapply Hh].
Qed.

Lemma respects_try_finally {A} (m : M World A) f :
  respects R m -> respects R f -> respects R (try_finally m f).
Proof.
  intros Hm Hf w. unfold try_finally. specialize (Hm w).
  destruct (m w) as [r w1]; simpl in *. specialize (Hf w1).
  destruct (f w1) as [[[]|e] w2]; simpl in *; etransitivity; eauto.
Qed.

Lemma respects_bind_context {A} c (m : M World A) :
  respects R m -> respects R (bind_context c m).
Proof.
  intros Hm w. unfold bind_context. specialize (Hm (set_ctx (Some c) w)).
  by destruct (m (set_ctx (Some c) w)) as [r w1].
Qed.

Lemma respects_transaction {A} (m : M World A) : respects R m -> respects R (transaction m).
Proof.
  intros Hm w. unfold transaction. specialize (Hm w).
  destruct (m w) as [[a|e] w1]; simpl in *; done.
Qed.

Lemma respects_for_each {A S} (l : list A) (s : S) (body : A -> S -> M World S) :
  (forall x s, respects R (body x s)) -> respects R (for_each l s body).
Proof.
  intros Hb. revert s. induction l as [|x l IH]; intros s; simpl; [apply respects_ret|].
  apply respects_bind; auto.
Qed.
End Respects.

Create HintDb respects.
#[export] Hint Resolve respects_ret respects_raise respects_lift respects_get respects_clock
  respects_id_factory respects_db_call respects_ack respects_check_tenant : respects.

(** Walk through a monadic body; leaves the table updates it cannot discharge. *)
Ltac respects_tac :=
  repeat (intros; first
    [ progress eauto with respects typeclass_instances
    | match goal with
      | |- respects _ (bind_context _ _) => apply respects_bind_context
      | |- respects _ (transaction _) => apply respects_transaction
      | |- respects _ (try_finally _ _) => apply respects_try_finally
      | |- respects _ (try_except _ _) =>
          apply respects_try_except; [apply _| |intros ? ? ?; simplify_eq/=]
      | |- respects _ (for_each _ _ _) => apply respects_for_each
      | |- respects _ (bind _ _) => apply respects_bind; [apply _| |intros ?]
      | |- respects _ (match ?x with _ => _ end) => destruct x
      | |- respects _ (if ?b then _ else _) => destruct b
      | |- respects _ (let _ := _ in _) => cbv zeta
      end ]).

(** *** Relations between table states *)

(** A row in a terminal state is never written again. *)
Definition terminal_frozen (d d' : Db) : Prop :=
  forall id r, db_tasks d !! id = Some r -> TERMINAL_TASK_STATES (t_state (row_task r)) = true ->
  db_tasks d' !! id = Some r.

(** Rows of tenants other than [t] are untouched, in every table. *)
Definition other_tenants_same (t : string) (d d' : Db) : Prop :=
  (forall id r, t_tenant_id (row_task r) <> t ->
     db_tasks d !! id = Some r <-> db_tasks d' !! id = Some r) /\
  List.filter (fun c => negb (String.eqb (cp_tenant_id c) t)) (db_checkpoints d')
    = List.filter (fun c => negb (String.eqb (cp_tenant_id c) t)) (db_checkpoints d) /\
  List.filter (fun e => negb (String.eqb (ae_tenant_id e) t)) (db_audits d')
    = List.filter (fun e => negb (String.eqb (ae_tenant_id e) t)) (db_audits d) /\
  List.filter (fun r => negb (String.eqb (ob_tenant_id (or_event r)) t)) (db_outbox d')
    = List.filter (fun r => negb (String.eqb (ob_tenant_id (or_event r)) t)) (db_outbox d) /\
  (forall id s, se_tenant_id s <> t -> db_sessions d !! id = Some s <-> db_sessions d' !! id = Some s) /\
  List.filter (fun r => negb (String.eqb (ur_tenant_id r) t)) (db_usage d')
    = List.filter (fun r => negb (String.eqb (ur_tenant_id r) t)) (db_usage d) /\
  db_api_keys d' = db_api_keys d.

(** Checkpoints and audit rows are append-only. *)
Definition append_only (d d' : Db) : Prop :=
  db_checkpoints d `prefix_of` db_checkpoints d' /\ db_audits d `prefix_of` db_audits d'.

#[global] Instance terminal_frozen_pre : PreOrder terminal_frozen.
Proof. split; [by intros d id r|]. intros a b c Hab Hbc id r Hr Ht. eauto. Qed.
#[global] Instance append_only_pre : PreOrder append_only.
Proof.
  split; [intros d; by split|]. intros a b c [H1 H2] [H3 H4]. split; [exact (transitivity H1 H3)|exact (transitivity H2 H4)].
Qed.
#[global] Instance other_tenants_same_pre t : PreOrder (other_tenants_same t).
Proof.
  split; [intros d; by repeat split|].
  intros a b c (H1 & H2 & H3 & H4 & H5 & H6 & H7) (I1 & I2 & I3 & I4 & I5 & I6 & I7). split_and!; try congruence.
  - intros id r Hne. rewrite (H1 id r Hne). by apply I1.
  - intros id r Hne. rewrite (H5 id r Hne). by apply I5.
Qed.

Lemma modify_db_respects (R : Db -> Db -> Prop) f w :
  R (w_db w) (f (w_db w)) -> R (w_db w) (w_db (modify (with_db f) w).2).
Proof. done. Qed.

(** Every way a guarded [UPDATE] can go. *)
Lemma update_where_cases tenant task guard f w :
  (exists e, w_fault w (w_ops w) = Some e /\ (update_where tenant task guard f w).1 = Err (fault_exn e) /\
             w_db (update_where tenant task guard f w).2 = w_db w) \/
  (w_fault w (w_ops w) = None /\
   match select_task (w_db w) tenant task with
   | Some r => if guard r
       then (update_where tenant task guard f w).1 = Ok 1%nat /\
            w_db (update_where tenant task guard f w).2
              = with_tasks (<[task := f r]>) (w_db w)
       else (update_where tenant task guard f w).1 = Ok 0%nat /\
            w_db (update_where tenant task guard f w).2 = w_db w
   | None => (update_where tenant task guard f w).1 = Ok 0%nat /\
             w_db (update_where tenant task guard f w).2 = w_db w
   end).
Proof.
  unfold update_where, bind, db_call. destruct (w_fault w (w_ops w)) as [e|] eqn:Hf.
  - left. by exists e.
  - right. split; [done|]. simpl. destruct (select_task (w_db w) tenant task) as [r|]; [|done].
    by destruct (guard r).
Qed.

Lemma select_task_Some d tenant task r :
  select_task d tenant task = Some r <->
  db_tasks d !! task = Some r /\ t_tenant_id (row_task r) = tenant.
Proof.
  unfold select_task. destruct (db_tasks d !! task) as [r'|]; [|naive_solver].
  destruct (String.eqb_spec (t_tenant_id (row_task r')) tenant); naive_solver.
Qed.

(** A guarded update respects any relation its own row write respects. *)
Lemma update_where_rel (R : Db -> Db -> Prop) `{!Reflexive R} tenant task guard f w :
  (forall r, select_task (w_db w) tenant task = Some r -> guard r = true ->
     R (w_db w) (with_tasks (<[task := f r]>) (w_db w))) ->
  R (w_db w) (w_db (update_where tenant task guard f w).2).
Proof.
  intros HR. destruct (update_where_cases tenant task guard f w) as [(e & _ & _ & ->)|[_ H]]; [done|].
  destruct (select_task _ _ _) as [r|]; [|by destruct H as [_ ->]].
  destruct (guard r) eqn:Hg; destruct H as [_ ->]; [by apply HR|done].
Qed.

Lemma insert_frozen d task r r' :
  db_tasks d !! task = Some r -> TERMINAL_TASK_STATES (t_state (row_task r)) = false ->
  terminal_frozen d (with_tasks (<[task := r']>) d).
Proof.
  intros Hr Hnt id x Hx Ht. simpl. destruct (decide (id = task)) as [->|Hne].
  - congruence.
  - by rewrite lookup_insert_ne.
Qed.

(** *** The task lifecycle as an abstract state machine *)

Inductive lifecycle : TaskState -> TaskState -> Prop :=
  | lc_start : lifecycle PENDING RUNNING
  | lc_pause : lifecycle RUNNING AWAITING_APPROVAL
  | lc_resume : lifecycle AWAITING_APPROVAL RUNNING
  | lc_abort : lifecycle AWAITING_APPROVAL CANCELLED
  | lc_expire : lifecycle AWAITING_APPROVAL EXPIRED
  | lc_finish s t : TERMINAL_TASK_STATES s = false -> t = SUCCEEDED \/ t = FAILED -> lifecycle s t.

(** The columns no update touches. *)
Definition same_task (a b : Task) : Prop :=
  t_task_id b = t_task_id a /\ t_tenant_id b = t_tenant_id a /\
  t_principal_id b = t_principal_id a /\ t_trace_id b = t_trace_id a /\
  t_idempotency_key b = t_idempotency_key a /\ t_task_type b = t_task_type a /\
  t_graph_id b = t_graph_id a /\ t_input_payload b = t_input_payload a.

Definition row_evolves (r r' : TaskRow) : Prop :=
  same_task (row_task r) (row_task r') /\
  rtc lifecycle (t_state (row_task r)) (t_state (row_task r')) /\
  (TERMINAL_TASK_STATES (t_state (row_task r)) = true -> r' = r).

(** No task row is lost, rows only move along the lifecycle, and a terminal
    row keeps its state and its result. *)
Definition evolves (d d' : Db) : Prop :=
  forall id r, db_tasks d !! id = Some r -> exists r', db_tasks d' !! id = Some r' /\ row_evolves r r'.

Lemma terminal_stuck s t :
  TERMINAL_TASK_STATES s = true -> rtc lifecycle s t -> t = s.
Proof.
  intros Hs [->|(y & Hst & _)]%rtc_inv; [done|]. destruct Hst; simplify_eq/=; congruence.
Qed.

#[global] Instance row_evolves_pre : PreOrder row_evolves.
Proof.
  split.
  - intros r. by repeat split.
  - intros a b c ((?&?&?&?&?&?&?&?) & Hl1 & Ht1) ((?&?&?&?&?&?&?&?) & Hl2 & Ht2).
    split_and!; try (unfold same_task; split_and!; congruence).
    + by etrans.
    + intros Ht. specialize (Ht1 Ht). subst b. auto.
Qed.
#[global] Instance evolves_pre : PreOrder evolves.
Proof.
  split.
  - intros d id r Hr. by exists r.
  - intros a b c Hab Hbc id r Hr. destruct (Hab id r Hr) as (r1 & H1 & E1).
    destruct (Hbc id r1 H1) as (r2 & H2 & E2). exists r2. split; [done|]. by etrans.
Qed.

Lemma evolves_frozen d d' : evolves d d' -> terminal_frozen d d'.
Proof.
  intros H id r Hr Ht. destruct (H id r Hr) as (r' & Hr' & (_ & _ & Heq)). by rewrite Heq in Hr'.
Qed.

Lemma evolves_insert d task r r' :
  db_tasks d !! task = Some r -> row_evolves r r' -> evolves d (with_tasks (<[task := r']>) d).
Proof.
  intros Hr He id x Hx. simpl. destruct (decide (id = task)) as [->|Hne].
  - rewrite lookup_insert_eq. exists r'. split; [done|]. by simplify_eq.
  - rewrite lookup_insert_ne by done. by exists x.
Qed.

Lemma evolves_insert_new d task r' :
  db_tasks d !! task = None -> evolves d (with_tasks (<[task := r']>) d).
Proof.
  intros Hr id x Hx. simpl. exists x. split; [|done].
  rewrite lookup_insert_ne; [done|]. congruence.
Qed.

Lemma row_with_state_evolves r s at_ :
  TERMINAL_TASK_STATES (t_state (row_task r)) = false ->
  rtc lifecycle (t_state (row_task r)) s -> row_evolves r (row_with_state s at_ r).
Proof. intros Hnt Hl. split_and!; simpl; try done. by rewrite Hnt. Qed.

(** *** Each repository call and the lifecycle *)

Lemma same_tasks_evolves d d' : db_tasks d' = db_tasks d -> evolves d d'.
Proof. intros E id r Hr. exists r. by rewrite E. Qed.

Lemma respects_set_awaiting tenant task at_ : respects evolves (set_awaiting_approval tenant task at_).
Proof.
  unfold set_awaiting_approval. respects_tac. intros w. apply update_where_rel; [apply _|].
  intros r [Hr Hten]%select_task_Some Hg. apply bool_decide_eq_true in Hg.
  apply (evolves_insert _ _ r); [done|]. apply row_with_state_evolves; rewrite Hg; [done|].
  apply rtc_once. constructor.
Qed.

Lemma respects_transition tenant task s at_ :
  lifecycle AWAITING_APPROVAL s ->
  respects evolves (transition_from_awaiting_approval tenant task s at_).
Proof.
  intros Hl. unfold transition_from_awaiting_approval. respects_tac.
  intros w. apply update_where_rel; [apply _|].
  intros r [Hr Hten]%select_task_Some Hg. apply bool_decide_eq_true in Hg.
  apply (evolves_insert _ _ r); [done|]. apply row_with_state_evolves; rewrite Hg; [done|].
  by apply rtc_once.
Qed.

Lemma respects_complete tenant task result s at_ :
  s = SUCCEEDED \/ s = FAILED -> respects evolves (complete tenant task result s at_).
Proof.
  intros Hs. unfold complete. respects_tac. intros w. apply update_where_rel; [apply _|].
  intros r [Hr Hten]%select_task_Some Hg. apply negb_true_iff in Hg.
  apply (evolves_insert _ _ r); [done|]. split_and!; simpl; try done; [|by rewrite Hg].
  apply rtc_once. by apply lc_finish.
Qed.

(** [update_state] has no guard: it follows the lifecycle only when the caller
    knows that the row is not terminal. *)
Lemma update_state_evolves tenant task at_ w :
  (forall r, db_tasks (w_db w) !! task = Some r ->
     TERMINAL_TASK_STATES (t_state (row_task r)) = false) ->
  evolves (w_db w) (w_db (update_state tenant task RUNNING at_ w).2).
Proof.
  intros Hnt. unfold update_state, bind.
  destruct (check_tenant tenant w) as [[[]|e] w1] eqn:Hct;
    apply check_tenant_inv in Hct as [-> _]; [|done].
  assert (H : evolves (w_db w) (w_db (update_where tenant task (fun _ => true)
                (row_with_state RUNNING at_) w).2)).
  { apply update_where_rel; [apply _|]. intros r [Hr _]%select_task_Some _.
    specialize (Hnt r Hr). apply (evolves_insert _ _ r); [done|].
    apply row_with_state_evolves; [done|].
    destruct (t_state (row_task r)); try done; by (apply rtc_once; constructor). }
  destruct (update_where _ _ _ _ w) as [[n|e] w2]; done.
Qed.

Lemma respects_append_checkpoint c : respects evolves (append_checkpoint c).
Proof.
  unfold append_checkpoint. respects_tac. intros w. by apply same_tasks_evolves.
Qed.
Lemma respects_append_audit e : respects evolves (append_audit e).
Proof. unfold append_audit. respects_tac. intros w. by apply same_tasks_evolves. Qed.
Lemma respects_enqueue_in_conn e : respects evolves (enqueue_in_conn e).
Proof. unfold enqueue_in_conn. respects_tac. intros w. by apply same_tasks_evolves. Qed.
Lemma respects_enqueue e : respects evolves (enqueue e).
Proof. unfold enqueue. respects_tac. apply respects_enqueue_in_conn. Qed.

Section Reads.
Context (R : Db -> Db -> Prop) `{!PreOrder R}.
Lemma respects_get_task t i : respects R (get_task t i).
Proof. unfold get_task. respects_tac. Qed.
Lemma respects_get_result t i : respects R (get_result t i).
Proof. unfold get_result. respects_tac. Qed.
Lemma respects_latest t i : respects R (latest t i).
Proof. unfold latest. respects_tac. Qed.
Lemma respects_list_by_session t s n : respects R (list_by_session t s n).
Proof. unfold list_by_session. respects_tac. Qed.
Lemma respects_list_running n : respects R (list_running_for_resume n).
Proof. unfold list_running_for_resume. respects_tac. Qed.
Lemma respects_list_awaiting t n : respects R (list_awaiting_approval_older_than t n).
Proof. unfold list_awaiting_approval_older_than. respects_tac. Qed.
Lemma respects_claim n t : respects R (claim_pending n t).
Proof. unfold claim_pending. respects_tac. Qed.
End Reads.

#[export] Hint Resolve respects_set_awaiting respects_transition respects_complete
  respects_append_checkpoint respects_append_audit respects_enqueue_in_conn respects_enqueue
  respects_get_task respects_get_result respects_latest respects_list_by_session
  respects_list_running respects_list_awaiting respects_claim : respects.
