(* ===== verification/PersistenceFacts.v ===== *)
(** * PersistenceFacts: what the repositories guarantee

    The functional contract of [complete] and the checkpoint log. *)

From S2P Require Import Prelude Domain GraphRuntime Results Persistence.

(** ** Guarded writes, functionally *)

Definition bound_to (w : World) (tenant : string) : Prop :=
  exists c, w_ctx w = Some c /\ ctx_tenant_id c = tenant.

(** The next statement does not fail. *)
Definition db_up (w : World) : Prop := w_fault w (w_ops w) = None.

Lemma check_tenant_bound w tenant : bound_to w tenant -> check_tenant tenant w = (Ok tt, w).
Proof. intros (c & Hc & Ht). by apply (check_tenant_ok tenant w c). Qed.

Lemma check_tenant_none w tenant :
  w_ctx w = None -> check_tenant tenant w = (Err MissingContextError, w).
Proof. intros H. by apply check_tenant_unbound. Qed.
Lemma check_tenant_other w tenant c :
  w_ctx w = Some c -> ctx_tenant_id c <> tenant ->
  check_tenant tenant w = (Err TenantIsolationError, w).
Proof. intros H Hne. by eapply check_tenant_mismatch. Qed.

(** C3: the terminal write happens at most once.  With the tenant bound and
    the database up, [complete] succeeds exactly on an existing, non-terminal
    row, and then stores the terminal state and the result together; on a
    missing, foreign or already terminal row it raises
    [IllegalTaskTransitionError] and changes nothing. *)
Theorem complete_spec tenant task result terminal at_ w :
  bound_to w tenant -> db_up w -> TERMINAL_TASK_STATES terminal = true ->
  let out := complete tenant task result terminal at_ w in
  match select_task (w_db w) tenant task with
  | Some r =>
      if TERMINAL_TASK_STATES (t_state (row_task r))
      then out.1 = Err IllegalTaskTransitionError /\ w_db out.2 = w_db w
      else out.1 = Ok tt /\
           w_db out.2 = with_tasks (<[task := mkTaskRow (task_with_state (row_task r) terminal at_)
                                                (Some result)]>) (w_db w)
  | None => out.1 = Err IllegalTaskTransitionError /\ w_db out.2 = w_db w
  end.
Proof.
  intros Hb Hup Ht. cbv zeta. unfold complete, bind.
  rewrite (check_tenant_bound w tenant Hb), Ht. simpl.
  pose proof (update_where_cases tenant task
    (fun r => negb (TERMINAL_TASK_STATES (t_state (row_task r))))
    (fun r => mkTaskRow (task_with_state (row_task r) terminal at_) (Some result)) w) as Hc.
  destruct (update_where _ _ _ _ w) as [r w1].
  destruct Hc as [(e & Hf & _)|[_ Hc]]; [unfold db_up in Hup; congruence|].
  destruct (select_task (w_db w) tenant task) as [row|]; simpl in *; [|by destruct Hc as [-> ?]].
  destruct (TERMINAL_TASK_STATES (t_state (row_task row))); simpl in *; by destruct Hc as [-> ?].
Qed.

(** ** The checkpoint log *)

Definition checkpoints_unique (d : Db) : Prop :=
  forall i j a b, db_checkpoints d !! i = Some a -> db_checkpoints d !! j = Some b ->
  cp_task_id a = cp_task_id b -> cp_sequence a = cp_sequence b -> i = j.

Lemma max_sequence_spec l best c :
  max_sequence best l = Some c ->
  (c ∈ l \/ best = Some c) /\
  (forall x, x ∈ l -> cp_sequence x <= cp_sequence c) /\
  (forall b, best = Some b -> cp_sequence b <= cp_sequence c).
Proof.
  revert best. induction l as [|a l IH]; intros best; simpl; [set_solver by lia|].
  intros H. apply IH in H as (Hin & Hle & Hb).
  destruct best as [b|]; [destruct (Z.ltb_spec (cp_sequence b) (cp_sequence a))|].
  - specialize (Hb a eq_refl). split_and!; [set_solver|set_solver|naive_solver lia].
  - specialize (Hb b eq_refl). split_and!; [set_solver| |naive_solver].
    intros x [->|Hx]%elem_of_cons; [lia|auto].
  - specialize (Hb a eq_refl). split_and!; [set_solver|set_solver|done].
Qed.

Lemma max_sequence_snoc l best c :
  (forall x, x ∈ l \/ best = Some x -> cp_sequence x < cp_sequence c) ->
  max_sequence best (l ++ [c]) = Some c.
Proof.
  revert best. induction l as [|a l IH]; intros best Hlt; simpl.
  - destruct best as [b|]; [|done]. specialize (Hlt b (or_intror eq_refl)).
    apply Z.ltb_lt in Hlt. by rewrite Hlt.
  - apply IH. intros x [Hx|Hx]; [apply Hlt; set_solver|].
    destruct best as [b|]; [destruct (_ <? _)|]; simplify_eq; apply Hlt; set_solver.
Qed.

Lemma append_checkpoint_db c w w' :
  append_checkpoint c w = (Ok tt, w') ->
  checkpoint_conflict (w_db w) c = false /\
  w_db w' = with_checkpoints (fun l => l ++ [c]) (w_db w) /\ w_ctx w' = w_ctx w.
Proof.
  unfold append_checkpoint, bind, db_call, get, modify, raise.
  destruct (check_tenant _ _) as [[[]|e] w1] eqn:Hc; apply check_tenant_inv in Hc as [-> _]; [|done].
  destruct (w_fault w (w_ops w)); [done|]. simpl.
  destruct (checkpoint_conflict _ _); [done|]. by intros [= <-].
Qed.

(** The checkpoint log is a faithful resume point.  An append that
    succeeds keeps [(task, sequence)] unique, and when its sequence is above
    the task's earlier ones, [latest] returns exactly the appended checkpoint;
    an append that repeats a sequence raises and changes no table. *)
Theorem checkpoint_append_latest c w :
  bound_to w (cp_tenant_id c) -> (forall n, w_fault w n = None) -> checkpoints_unique (w_db w) ->
  (forall x, x ∈ task_checkpoints (w_db w) (cp_tenant_id c) (cp_task_id c) ->
     cp_sequence x < cp_sequence c) ->
  match append_checkpoint c w with
  | (Ok tt, w') =>
      checkpoints_unique (w_db w') /\
      exists w'', latest (cp_tenant_id c) (cp_task_id c) w' = (Ok (Some c), w'')
  | (Err e, w') =>
      e = UniqueViolationError /\ w_db w' = w_db w /\ checkpoint_conflict (w_db w) c = true
  end.
Proof.
  intros Hb Hup Hu Hlt. destruct (append_checkpoint c w) as [[[]|e] w'] eqn:Ha.
  - destruct (append_checkpoint_db c w w' Ha) as (Hnc & Hdb & Hctx). split.
    + unfold checkpoint_conflict in Hnc.
      assert (Hfresh : forall x, x ∈ db_checkpoints (w_db w) ->
                cp_task_id x = cp_task_id c -> cp_sequence x = cp_sequence c -> False).
      { intros x Hx E1 E2. apply not_true_iff_false in Hnc. apply Hnc, existsb_exists.
        exists x. split; [by apply list_elem_of_In|].
        by rewrite E1, E2, String.eqb_refl, Z.eqb_refl, orb_true_r. }
      rewrite Hdb. intros i j a b. simpl. rewrite !lookup_app_Some.
      intros [Hi|[Li Hi]] [Hj|[Lj Hj]] E1 E2.
      * by apply (Hu i j a b).
      * apply list_lookup_singleton_Some in Hj as [_ <-].
        exfalso. apply (Hfresh a); [by eapply list_elem_of_lookup_2|done|done].
      * apply list_lookup_singleton_Some in Hi as [_ <-].
        exfalso. apply (Hfresh b); [by eapply list_elem_of_lookup_2|done|done].
      * apply list_lookup_singleton_Some in Hi as [? _], Hj as [? _]. lia.
    + eexists. unfold latest, bind. rewrite check_tenant_bound; cycle 1.
      { destruct Hb as (x & ? & ?). exists x. by rewrite Hctx. }
      assert (Hup' : w_fault w' = w_fault w).
      { revert Ha. unfold append_checkpoint, bind, db_call, get, modify, raise.
        rewrite check_tenant_bound, Hup by done. simpl.
        destruct (checkpoint_conflict _ _); [done|]. by intros [= <-]. }
      unfold db_call. rewrite Hup', Hup. simpl. unfold ret. do 3 f_equal.
      unfold task_checkpoints. rewrite Hdb. simpl. rewrite List.filter_app. simpl.
      rewrite !String.eqb_refl. simpl. apply max_sequence_snoc. intros x [Hx|Hx]; [|done].
      by apply Hlt.
  - revert Ha. unfold append_checkpoint, bind, db_call, get, modify, raise.
    rewrite check_tenant_bound, Hup by done. simpl.
    destruct (checkpoint_conflict (w_db w) c) eqn:E; [|done]. intros [= <- <-]. done.
Qed.
