(* ===== verification/Approval.v ===== *)
(** * Approval: operator decisions and expiry of paused tasks

    [infra/persistence/approval_gateway.py] ([approve], [reject], [abort]) and
    [worker/expiry_sweeper.py] ([AwaitingApprovalSweeper.run_once]). *)

From S2P Require Import Prelude Domain GraphRuntime Gates Results Persistence PersistenceFacts.

(** ** [TaskApprovalGateway] *)

Definition merge_decision (snapshot : dict) (decision : string) (feedback : option string)
    (seq : Z) : res dict :=
  let new := dset (dset snapshot "awaiting_approval" (JBool false)) "sequence" (JInt seq) in
  match default (JDict []) (dget new "data") with
  | JDict data0 =>
      let data1 := dset data0 HUMAN_DECISION_KEY (JStr decision) in
      let data2 := match feedback with
                   | Some f => dset data1 HUMAN_FEEDBACK_KEY (JStr f)
                   | None => data1
                   end in
      Ok (dset new "data" (JDict data2))
  | _ => Err (ValueError "dict(data)")
  end.

(** [raise TaskNotAwaitingApprovalError from exc] for the two exceptions the
    transaction may end with. *)
Definition not_awaiting (e : exn) : option (M World unit) :=
  match e with
  | IllegalTaskTransitionError | UniqueViolationError => Some (raise TaskNotAwaitingApprovalError)
  | _ => None
  end.

(** The three writes of the approve / reject transaction. *)
Definition resume_tx (new_cp : TaskCheckpoint) (tenant task : string) (next_state : TaskState)
    (now : Z) (event : OutboxEvent) : M World unit :=
  transaction (
    append_checkpoint new_cp ;;;
    transition_from_awaiting_approval tenant task next_state now ;;;
    enqueue_in_conn event).

Section Gateway.
Context (topic : string).

Definition resolve_paused (tenant task decision : string) (feedback : option string)
    (next_state : TaskState) : M World Task :=
  now <- clock ;;
  current <- get_task tenant task ;;
  match current with
  | None => raise TaskNotAwaitingApprovalError
  | Some cur =>
      if negb (bool_decide (t_state cur = AWAITING_APPROVAL)) then raise TaskNotAwaitingApprovalError
      else
      cp <- latest tenant task ;;
      match cp with
      | None => raise TaskNotAwaitingApprovalError
      | Some cp =>
          snap <- lift (merge_decision (cp_state_snapshot cp) decision feedback (cp_sequence cp + 1)) ;;
          cid <- id_factory ;;
          let new_cp := mkCheckpoint cid task tenant (cp_trace_id cp) (cp_node_name cp)
                          (cp_sequence cp + 1) snap now in
          eid <- id_factory ;;
          let event := mkOutboxEvent eid tenant (t_trace_id cur) "task" task topic
                         (t_input_payload cur)
                         ("resume:" +:+ task +:+ ":" +:+ pretty (cp_sequence new_cp))
                         OB_PENDING 0 now None in
          try_except (resume_tx new_cp tenant task next_state now event) not_awaiting ;;;
          refreshed <- get_task tenant task ;;
          match refreshed with Some t => ret t | None => raise AssertionError end
      end
  end.

Definition approve (tenant task : string) (feedback : option string) : M World Task :=
  resolve_paused tenant task "approve" feedback RUNNING.

Definition reject (tenant task : string) (feedback : option string) : M World Task :=
  resolve_paused tenant task "reject" feedback RUNNING.

(** [except IllegalTaskTransitionError] only. *)
Definition abort (tenant task : string) : M World Task :=
  now <- clock ;;
  try_except (transition_from_awaiting_approval tenant task CANCELLED now)
    (fun e => match e with
              | IllegalTaskTransitionError => Some (raise TaskNotAwaitingApprovalError)
              | _ => None
              end) ;;;
  refreshed <- get_task tenant task ;;
  match refreshed with Some t => ret t | None => raise AssertionError end.
End Gateway.

(** ** [AwaitingApprovalSweeper] *)

Section Sweeper.
(** [timedelta(days=expiry_days)] in microseconds, and the batch size. *)
Context (expiry_days : Z) (batch_size : nat).
Definition day_micros : Z := 86400000000.

(** [datetime.isoformat] of the standard library. *)
Context (isoformat : Z -> string).

Definition expire_one (now : Z) (task : Task) (expired : Z) : M World Z :=
  moved <- try_except
    (transition_from_awaiting_approval (t_tenant_id task) (t_task_id task) EXPIRED now ;;; ret true)
    (fun e => if is_exception e then Some (ret false) else None) ;;
  if negb moved then ret expired
  else
    rid <- id_factory ;;
    bind_context
      (mkContext (t_tenant_id task) "system" (t_trace_id task) rid None None None)
      (eid <- id_factory ;;
       append_audit (mkAuditEvent eid (t_tenant_id task) "system" (t_session_id task)
         (Some (t_task_id task)) (t_trace_id task) "task.expired"
         [("task_id", JStr (t_task_id task)); ("expired_after_days", JInt expiry_days);
          ("paused_at", JStr (isoformat (t_updated_at task)))] now)) ;;;
    ret (expired + 1).

Definition sweeper_run_once : M World Z :=
  now <- clock ;;
  let threshold := now - expiry_days * day_micros in
  stale <- list_awaiting_approval_older_than threshold batch_size ;;
  for_each stale 0 (expire_one now).
End Sweeper.

(** ** Facts *)

(** Resuming: the snapshot the gateway writes, read back by the worker. *)
Definition resumed (s : TaskRunState) (decision : string) (feedback : option string) : TaskRunState :=
  mkRunState (task_id s) (tenant_id s) (trace_id s) (graph_id s) (current_node s) (sequence s + 1)
    (let d := dset (data s) HUMAN_DECISION_KEY (JStr decision) in
     match feedback with Some f => dset d HUMAN_FEEDBACK_KEY (JStr f) | None => d end)
    (finished s) false (error s).

Lemma merge_decision_dump s decision feedback :
  merge_decision (model_dump s) decision feedback (sequence s + 1)
  = Ok (model_dump (resumed s decision feedback)).
Proof. destruct s. by destruct feedback. Qed.

(** C8: an approved gate opens.  Take any state a human gate paused in, write
    the operator's decision with the gateway's [_merge_decision], reload it with
    [model_validate] and execute one step: the run continues at the node the
    decision selects, with the decision consumed and the operator's feedback
    still in place. *)
Theorem decision_resumes_gate {W} (g : Graph W) s gid ok rej decision feedback w :
  compiled g -> wf_state g s -> valid_run_state s ->
  awaiting_approval s = true -> current_node s <> START ->
  dget (g_nodes g) (current_node s) = Some (gate gid ok rej) ->
  target_known g ok -> target_known g (default END rej) ->
  decision = "approve" \/ decision = "reject" ->
  exists snap s1 s2,
    merge_decision (model_dump s) decision feedback (sequence s + 1) = Ok snap /\
    model_validate snap = Ok s1 /\ step g s1 w = (Ok s2, w) /\
    awaiting_approval s2 = false /\
    current_node s2 = (if String.eqb decision "approve" then ok else default END rej) /\
    getd (data s2) HUMAN_DECISION_KEY = JNull /\
    (forall f, feedback = Some f -> getd (data s2) HUMAN_FEEDBACK_KEY = JStr f).
Proof.
  intros Hc Hs Hv Hpaused Hns Hfn Hok Hrej Hdec.
  set (s1 := resumed s decision feedback).
  assert (Hfin : finished s = false).
  { destruct (finished s) eqn:E; [|done]. by rewrite (ws_exclusive g s Hs E) in Hpaused. }
  assert (Hv1 : valid_run_state s1).
  { destruct Hv as (?&?&?&?&?&?). unfold s1, resumed, valid_run_state; simpl. split_and!; try done. lia. }
  assert (Hs1 : wf_state g s1).
  { split; [apply (ws_cursor g s Hs)|apply (ws_finished g s Hs)|done]. }
  assert (Hex : exec_node g s1 = current_node s).
  { unfold exec_node. simpl. apply String.eqb_neq in Hns. by rewrite Hns. }
  assert (Hact : active s1 = true) by (unfold active; simpl; by rewrite Hfin).
  assert (Hd : getd (data s1) HUMAN_DECISION_KEY = JStr decision)
    by (destruct feedback; simpl; by simp_dict).
  exists (model_dump s1), s1.
  destruct Hdec as [->| ->]; [|destruct rej as [rn|]]; eexists;
    (split; [apply merge_decision_dump|]); (split; [by apply model_dump_validate|]).
  1: split; [eapply (step_to g s1 w _ _ ok Hc Hs1 Hact);
              [by rewrite Hex|unfold gate; rewrite Hd; reflexivity|done..]|].
  2: split; [eapply (step_to g s1 w _ _ rn Hc Hs1 Hact);
              [by rewrite Hex|unfold gate; rewrite Hd; reflexivity|done..]|].
  3: split; [eapply (step_to g s1 w _ _ END Hc Hs1 Hact);
              [by rewrite Hex|unfold gate; rewrite Hd; reflexivity|done..]|].
  all: split_and!; try done; simpl; [by simp_dict|].
  all: intros f ->; simpl; by simp_dict.
Qed.

(** *** The approve / reject transaction *)

(** The tables after a committed [resume_tx]. *)
Definition resume_writes (cp : TaskCheckpoint) (task : string) (r : TaskRow) (next_state : TaskState)
    (now : Z) (event : OutboxEvent) (d : Db) : Db :=
  with_outbox (fun l => l ++ [mkOutboxRow event None (Some (ob_created_at event))])
    (with_tasks (<[task := row_with_state next_state now r]>)
      (with_checkpoints (fun l => l ++ [cp]) d)).

Lemma transition_cases tenant task s at_ w :
  match transition_from_awaiting_approval tenant task s at_ w with
  | (Ok tt, w') => exists r, select_task (w_db w) tenant task = Some r /\
      t_state (row_task r) = AWAITING_APPROVAL /\
      w_db w' = with_tasks (<[task := row_with_state s at_ r]>) (w_db w)
  | (Err e, w') => w_db w' = w_db w /\
      (forall r, bound_to w tenant -> db_up w -> select_task (w_db w) tenant task = Some r ->
         t_state (row_task r) <> AWAITING_APPROVAL /\ e = IllegalTaskTransitionError)
  end.
Proof.
  unfold transition_from_awaiting_approval, bind.
  destruct (check_tenant tenant w) as [[[]|e] w0] eqn:Hc; pose proof Hc as Hc';
    apply check_tenant_inv in Hc' as [-> _]; cycle 1.
  { split; [done|]. intros r Hb. rewrite check_tenant_bound in Hc by done. done. }
  pose proof (update_where_cases tenant task
    (fun r => bool_decide (t_state (row_task r) = AWAITING_APPROVAL)) (row_with_state s at_) w) as Hu.
  destruct (update_where _ _ _ _ w) as [o w1]. simpl in Hu.
  destruct Hu as [(e & Hf & -> & Hd)|[Hf Hu]].
  { split; [done|]. intros r _ Hup. unfold db_up in Hup. congruence. }
  destruct (select_task (w_db w) tenant task) as [r|]; cycle 1.
  { destruct Hu as [-> Hd]. simpl. split; [done|]. by intros. }
  destruct (bool_decide_reflect (t_state (row_task r) = AWAITING_APPROVAL)); simpl in Hu;
    destruct Hu as [-> Hd]; simpl; [by exists r|]. split; [done|]. naive_solver.
Qed.

Lemma enqueue_cases e w :
  match enqueue_in_conn e w with
  | (Ok tt, w') => outbox_conflict (w_db w) e = false /\
      w_db w' = with_outbox (fun l => l ++ [mkOutboxRow e None (Some (ob_created_at e))]) (w_db w)
  | (Err _, w') => w_db w' = w_db w
  end.
Proof.
  unfold enqueue_in_conn, bind, db_call, get, modify, raise.
  destruct (check_tenant _ w) as [[[]|x] w1] eqn:Hc; apply check_tenant_inv in Hc as [-> _]; [|done].
  destruct (w_fault w (w_ops w)); [done|]. simpl. by destruct (outbox_conflict _ _).
Qed.

Lemma resume_tx_cases cp tenant task st now ev w :
  match resume_tx cp tenant task st now ev w with
  | (Ok tt, w') => exists r, select_task (w_db w) tenant task = Some r /\
      t_state (row_task r) = AWAITING_APPROVAL /\ w_db w' = resume_writes cp task r st now ev (w_db w)
  | (Err _, w') => w_db w' = w_db w
  end.
Proof.
  unfold resume_tx, transaction, bind.
  destruct (append_checkpoint cp w) as [[[]|e] w1] eqn:Ha; [|done].
  apply append_checkpoint_db in Ha as (_ & Hd1 & _).
  pose proof (transition_cases tenant task st now w1) as Ht.
  destruct (transition_from_awaiting_approval _ _ _ _ w1) as [[[]|e] w2]; [|done].
  destruct Ht as (r & Hr & Hst & Hd2).
  pose proof (enqueue_cases ev w2) as He.
  destruct (enqueue_in_conn ev w2) as [[[]|e] w3]; [|done]. destruct He as [_ Hd3].
  exists r. rewrite Hd1 in Hr. split_and!; [done|done|].
  rewrite Hd3, Hd2, Hd1. done.
Qed.

Lemma get_task_cases tenant task w :
  match get_task tenant task w with
  | (Ok o, w') => w_db w' = w_db w /\ o = row_task <$> select_task (w_db w) tenant task
  | (Err _, w') => w_db w' = w_db w
  end.
Proof.
  unfold get_task, bind, db_call, get, ret.
  destruct (check_tenant _ w) as [[[]|x] w1] eqn:Hc; apply check_tenant_inv in Hc as [-> _]; [|done].
  by destruct (w_fault w (w_ops w)).
Qed.

Lemma latest_cases tenant task w :
  match latest tenant task w with
  | (Ok o, w') => w_db w' = w_db w /\ o = max_sequence None (task_checkpoints (w_db w) tenant task)
  | (Err _, w') => w_db w' = w_db w
  end.
Proof.
  unfold latest, bind, db_call, get, ret.
  destruct (check_tenant _ w) as [[[]|x] w1] eqn:Hc; apply check_tenant_inv in Hc as [-> _]; [|done].
  by destruct (w_fault w (w_ops w)).
Qed.

(** The tables an operator decision may leave behind: untouched, or all three
    writes of one decision on the paused row and its latest checkpoint. *)
Definition decided (topic tenant task decision : string) (feedback : option string)
    (st : TaskState) (d d' : Db) : Prop :=
  exists r old snap cid eid now,
    select_task d tenant task = Some r /\ t_state (row_task r) = AWAITING_APPROVAL /\
    max_sequence None (task_checkpoints d tenant task) = Some old /\
    merge_decision (cp_state_snapshot old) decision feedback (cp_sequence old + 1) = Ok snap /\
    d' = resume_writes
           (mkCheckpoint cid task tenant (cp_trace_id old) (cp_node_name old) (cp_sequence old + 1)
              snap now) task r st now
           (mkOutboxEvent eid tenant (t_trace_id (row_task r)) "task" task topic
              (t_input_payload (row_task r))
              ("resume:" +:+ task +:+ ":" +:+ pretty (cp_sequence old + 1)) OB_PENDING 0 now None) d.

(** C18: an operator decision is all or nothing.  Whatever fails (a missing or
    unpaused task, a lost race, a unique violation, a database fault at any
    statement), the tables are either exactly as before or carry all three
    writes: the checkpoint with the merged decision at the next sequence, the
    task moved out of [AWAITING_APPROVAL], and one outbox event keyed by that
    sequence.  A call that returns has done the writes and reports the new
    state. *)
Theorem decision_atomic topic tenant task decision feedback st w :
  match resolve_paused topic tenant task decision feedback st w with
  | (Ok t, w') => decided topic tenant task decision feedback st (w_db w) (w_db w') /\ t_state t = st
  | (Err _, w') => w_db w' = w_db w \/
                   decided topic tenant task decision feedback st (w_db w) (w_db w')
  end.
Proof.
  unfold resolve_paused, bind. simpl.
  match goal with |- context [get_task tenant task ?w1] =>
    pose proof (get_task_cases tenant task w1) as Hg; destruct (get_task tenant task w1) as [[cur|e] w2] end;
    simpl in Hg; [|by left].
  destruct Hg as [Hd2 Hcur]. destruct cur as [cur|]; [|by left].
  destruct (select_task (w_db w) tenant task) as [r|] eqn:Hr; simplify_eq/=.
  destruct (bool_decide_reflect (t_state (row_task r) = AWAITING_APPROVAL)) as [Hst|]; simpl; [|by left].
  pose proof (latest_cases tenant task w2) as Hl.
  destruct (latest tenant task w2) as [[cp|e] w3]; [|left; simpl; congruence].
  destruct Hl as [Hd3 Hcp]. destruct cp as [old|]; [|left; simpl; congruence].
  unfold lift. destruct (merge_decision _ _ _ _) as [snap|e] eqn:Hm; [|left; simpl; congruence].
  simpl. unfold try_except.
  match goal with |- context [resume_tx ?c ?a ?b ?x ?n ?e ?w4] =>
    pose proof (resume_tx_cases c a b x n e w4) as Ht; destruct (resume_tx c a b x n e w4) as [[[]|e5] w5] end.
  - destruct Ht as (r' & Hr' & _ & Hd5). simpl in Hr', Hd5. rewrite Hd3, Hd2, Hr in Hr'. simplify_eq.
    assert (Hdec : decided topic tenant task decision feedback st (w_db w) (w_db w5)).
    { do 6 eexists. split_and!; [done|done|by rewrite <- Hd2|done|]. rewrite Hd5, Hd3, Hd2. done. }
    pose proof (get_task_cases tenant task w5) as Hg2.
    destruct (get_task tenant task w5) as [[o|e] w6]; [|right; by rewrite Hg2].
    destruct Hg2 as [Hd6 Ho]. assert (Hsel : select_task (w_db w5) tenant task = Some (row_with_state st (w_clock w (w_ticks w)) r')).
    { apply select_task_Some. rewrite Hd5. simpl. rewrite lookup_insert_eq. split; [done|].
      by apply select_task_Some in Hr as [_ ?]. }
    rewrite Hsel in Ho. simpl in Ho. subst o. simpl. by rewrite Hd6.
  - simpl in Ht. rewrite Hd3, Hd2 in Ht. destruct e5; simpl; by left.
Qed.

(** Two operators deciding the same pause: the loser changes nothing.
    Both transactions were prepared from the same paused row; once the first
    has committed, the second one, whatever its decision, fails and leaves the
    tables as the first wrote them. *)
Theorem racing_decisions cp1 cp2 tenant task st1 st2 now1 now2 ev1 ev2 w w1 :
  resume_tx cp1 tenant task st1 now1 ev1 w = (Ok tt, w1) ->
  st1 <> AWAITING_APPROVAL ->
  exists e w2, resume_tx cp2 tenant task st2 now2 ev2 w1 = (Err e, w2) /\ w_db w2 = w_db w1.
Proof.
  intros H1 Hne. pose proof (resume_tx_cases cp1 tenant task st1 now1 ev1 w) as C1. rewrite H1 in C1.
  destruct C1 as (r & Hr & Hst & Hd).
  pose proof (resume_tx_cases cp2 tenant task st2 now2 ev2 w1) as C2.
  destruct (resume_tx cp2 _ _ _ _ _ w1) as [[[]|e] w2]; [|by exists e, w2].
  destruct C2 as (r2 & Hr2 & Hst2 & _). apply select_task_Some in Hr2 as [Hr2 _].
  rewrite Hd in Hr2. simpl in Hr2. rewrite lookup_insert_eq in Hr2. by simplify_eq/=.
Qed.

(** *** The sweeper *)

Lemma expire_one_unbound days iso now t n w :
  w_ctx w = None ->
  exists w', expire_one days iso now t n w = (Ok n, w') /\ w_db w' = w_db w /\ w_ctx w' = None.
Proof.
  intros Hn. exists w. unfold expire_one, bind, try_except, transition_from_awaiting_approval, bind.
  by rewrite check_tenant_none.
Qed.

Lemma expire_all_unbound days iso now l n w :
  w_ctx w = None ->
  exists w', for_each l n (expire_one days iso now) w = (Ok n, w') /\ w_db w' = w_db w.
Proof.
  revert w. induction l as [|t l IH]; intros w Hn; simpl; [by exists w|].
  destruct (expire_one_unbound days iso now t n w Hn) as (w1 & E & Hd & Hn1).
  unfold bind. rewrite E. destruct (IH w1 Hn1) as (w2 & E2 & Hd2). exists w2. by rewrite E2, Hd2.
Qed.

(** Run as its documentation describes it, from a system loop with no
    request context bound, the sweeper expires nothing: every transition is
    refused by the tenant guard, the refusal is swallowed, and one pass leaves
    every table as it was and reports 0, however many stale tasks there are. *)
Theorem sweeper_unbound_expires_nothing days batch iso w :
  w_ctx w = None ->
  w_db (sweeper_run_once days batch iso w).2 = w_db w /\
  (forall n, (sweeper_run_once days batch iso w).1 = Ok n -> n = 0).
Proof.
  intros Hn. unfold sweeper_run_once, bind. simpl.
  unfold list_awaiting_approval_older_than, bind, db_call. simpl.
  destruct (w_fault w (w_ops w)) as [e|]; [done|]. simpl.
  match goal with |- context [for_each ?l 0 ?b ?w1] =>
    destruct (expire_all_unbound days iso (w_clock w (w_ticks w)) l 0 w1 Hn) as (w2 & E & Hd) end.
  rewrite E. split; [done|]. simpl. by intros n [= <-].
Qed.

Lemma respects_expire_one days iso now t n : respects evolves (expire_one days iso now t n).
Proof.
  unfold expire_one. respects_tac; [apply respects_transition, lc_expire|].
  destruct (is_exception _); simplify_eq. apply respects_ret, _.
Qed.

Lemma respects_sweeper days batch iso : respects evolves (sweeper_run_once days batch iso).
Proof. unfold sweeper_run_once. respects_tac. apply respects_expire_one. Qed.

Lemma respects_resume_tx cp tenant task now ev :
  respects evolves (resume_tx cp tenant task RUNNING now ev).
Proof. unfold resume_tx. respects_tac. apply respects_transition, lc_resume. Qed.

Lemma not_awaiting_raises e k : not_awaiting e = Some k -> respects evolves k.
Proof. destruct e; intros; simplify_eq/=; apply respects_raise, _. Qed.

Lemma respects_resolve_paused topic tenant task decision feedback :
  respects evolves (resolve_paused topic tenant task decision feedback RUNNING).
Proof.
  unfold resolve_paused. respects_tac; [apply respects_resume_tx|].
  by eapply not_awaiting_raises.
Qed.

Lemma respects_abort tenant task : respects evolves (abort tenant task).
Proof.
  unfold abort. respects_tac; [apply respects_transition, lc_abort|].
  destruct e; simplify_eq/=; apply respects_raise, _.
Qed.
