(* ===== verification/Worker.v ===== *)
(** * Worker: the loop that executes graphs

    [worker/runner.py] ([WorkerLoop]), with what it calls:
    [core/orchestration/session_history.py] ([build_prior_messages]) and
    [infra/persistence/task_submitter.py] ([PgTaskSubmitter]).

    The worker's collaborators are ports: the workspace manager, the usage log,
    the trajectory store and its exporter, the webhook fanout.  They are the
    fields of [Ports], each [None] when the worker was built without it.  The
    delivery stream is the World's list of acknowledged entries. *)

From S2P Require Import Prelude Domain GraphRuntime Gates Results Persistence.
Import Registry.

Record DeliveredMessage : Type := mkDelivered {
  dm_envelope : MessageEnvelope;
  dm_entry_id : string;
  dm_delivery_count : Z
}.

(** [WorkspaceManager] of [core/ports/workspace.py]. *)
Record WorkspaceManager : Type := mkWorkspaceManager {
  wm_provision : string -> string -> string -> string -> option string -> option string ->
                 M World Workspace;
  wm_cleanup : Workspace -> M World unit
}.

(** [TaskTrajectoryExporter.export_task]: the trace id and observation count. *)
Record Ports : Type := mkPorts {
  p_workspaces : option WorkspaceManager;
  p_submitter : option (Task -> FollowUpSpec -> M World (option Task));
  p_chain : option TaskChainRegistry;
  p_outbox : bool;
  p_fanout : option (AuditEvent -> M World unit);
  p_llm_usage : option (string -> string -> M World (list UsageAggregate));
  p_trajectory : option (string -> string -> M World json);
  p_exporter : option (string -> dict -> json -> M World (string * Z))
}.

(** [or] on an optional string: [None] and the empty string are falsy. *)
Definition or_str (o : option string) (d : string) : string :=
  match o with Some s => if nonempty s then s else d | None => d end.

Definition envelope_to_context (e : MessageEnvelope) : RequestContext :=
  mkContext (env_tenant_id e) (or_str (env_principal_id e) "system") (env_trace_id e)
    (or_str (env_request_id e) (env_message_id e)) (env_session_id e) (env_task_id e)
    (Some (env_idempotency_key e)).

Definition task_to_context (t : Task) : RequestContext :=
  mkContext (t_tenant_id t) (t_principal_id t) (t_trace_id t) (t_task_id t) (t_session_id t)
    (Some (t_task_id t)) (t_idempotency_key t).

Definition result_observability_metadata (r : TaskResult) : dict :=
  let output := default [] (tr_output r) in
  let failure := as_dict (getd output "failure_explanation") in
  let failure_category := match failure with Some f => getd f "category" | None => JNull end in
  let failure_kind :=
    match failure with
    | Some f => match getd f "details" with JDict d => getd d "failure_kind" | _ => JNull end
    | None => JNull
    end in
  let '(failure_category, failure_kind) :=
    match failure_category, tr_error r with
    | JNull, Some e =>
        let details := default [] (te_details e) in
        (getd details "failure_category",
         match failure_kind with JNull => getd details "failure_kind" | _ => failure_kind end)
    | _, _ => (failure_category, failure_kind)
    end in
  [("result_status", JStr (TaskResultStatus_value (tr_status r)));
   ("failure_category", failure_category); ("failure_kind", failure_kind);
   ("node_sequence", JInt (tr_node_sequence r))]
  ++ match tr_error r with
     | Some e => [("error_code", JStr (TaskErrorCode_value (te_code e)))]
     | None => []
     end.

(** ** [build_prior_messages] *)

Definition DEFAULT_PRIOR_LIMIT : Z := 20.

Definition user_prompt_of (t : Task) : option string :=
  as_nonempty_str (getd (t_input_payload t) "user_prompt").

Definition assistant_message_of (t : Task) : M World (option string) :=
  result <- get_result (t_tenant_id t) (t_task_id t) ;;
  ret (match result with
       | Some r => match tr_output r with
                   | Some out => as_nonempty_str (getd out "assistant_message")
                   | None => None
                   end
       | None => None
       end).

Definition chat (role content : string) : json :=
  JDict [("role", JStr role); ("content", JStr content)].

Definition prior_turn (exclude_task_id : string) (prior : Task) (messages : list json)
    : M World (list json) :=
  if String.eqb (t_task_id prior) exclude_task_id then ret messages
  else if negb (bool_decide (t_state prior = SUCCEEDED)) then ret messages
  else
    let user_content := user_prompt_of prior in
    assistant_content <- assistant_message_of prior ;;
    match user_content, assistant_content with
    | Some u, Some a => ret (messages ++ [chat "user" u; chat "assistant" a])
    | _, _ => ret messages
    end.

Definition build_prior_messages (tenant session exclude_task_id : string) (limit : Z)
    : M World (list json) :=
  if limit <=? 0 then raise (ValueError "limit must be > 0")
  else
    tasks <- list_by_session tenant session (Z.to_nat (limit + 1)) ;;
    for_each tasks [] (prior_turn exclude_task_id).

(** ** [PgTaskSubmitter] *)

Definition submit_follow_up (parent : Task) (follow_up : FollowUpSpec) : M World (option Task) :=
  now <- clock ;;
  child_task_id <- id_factory ;;
  let task := mkTask child_task_id (t_tenant_id parent) (t_session_id parent)
                (t_principal_id parent) (t_trace_id parent) (Some (fu_idempotency_key follow_up))
                (fu_task_type follow_up) None PENDING AUTO BP_NONE None
                (fu_input_payload follow_up) now now in
  eid <- id_factory ;;
  let event := mkOutboxEvent eid (t_tenant_id parent) (t_trace_id parent) "task" child_task_id
                 (fu_topic follow_up) (fu_input_payload follow_up)
                 (fu_idempotency_key follow_up) OB_PENDING 0 now None in
  try_except
    (transaction (upsert_in_conn task ;;; enqueue_in_conn event) ;;; ret (Some task))
    (fun e => match e with UniqueViolationError => Some (ret None) | _ => None end).

(** ** [WorkerLoop] *)

Section WorkerLoop.
Context {Deps : Type} (registry : GraphRegistry World Deps) (ports : Ports).
Context (task_topic : string) (max_attempts : Z).
(** [str(exc)], [type(exc).__name__] and [datetime.isoformat]. *)
Context (exn_str exn_name : exn -> string) (isoformat : Z -> string).

Definition audit (ctx : RequestContext) (action : string) (payload : dict) : M World unit :=
  eid <- id_factory ;;
  now <- clock ;;
  let event := mkAuditEvent eid (ctx_tenant_id ctx) (ctx_principal_id ctx) (ctx_session_id ctx)
                 (ctx_task_id ctx) (ctx_trace_id ctx) action payload now in
  append_audit event ;;;
  match p_fanout ports with Some f => f event | None => ret tt end.

(** [task.model_dump(mode="json")]. *)
Definition task_model_dump (t : Task) : dict :=
  [ ("task_id", JStr (t_task_id t)); ("tenant_id", JStr (t_tenant_id t));
    ("session_id", opt_json JStr (t_session_id t)); ("principal_id", JStr (t_principal_id t));
    ("trace_id", JStr (t_trace_id t)); ("idempotency_key", opt_json JStr (t_idempotency_key t));
    ("task_type", JStr (TaskType_value (t_task_type t)));
    ("graph_id", opt_json JStr (t_graph_id t)); ("state", JStr (TaskState_value (t_state t)));
    ("permission_mode", JStr (PermissionMode_value (t_permission_mode t)));
    ("budget_policy", JStr (BudgetPolicy_value (t_budget_policy t)));
    ("budget_threshold_micros", opt_json JInt (t_budget_threshold_micros t));
    ("input_payload", JDict (t_input_payload t));
    ("created_at", JStr (isoformat (t_created_at t)));
    ("updated_at", JStr (isoformat (t_updated_at t))) ].

(** The [with contextlib.suppress(Exception)] around the failure audit. *)
Definition suppress (m : M World unit) : M World unit :=
  try_except m (fun e => if is_exception e then Some (ret tt) else None).

Definition export_trajectory (ctx : RequestContext) (task : Task) (terminal_state : TaskState)
    (result : TaskResult) : M World unit :=
  match p_trajectory ports, p_exporter ports with
  | Some list_for_task, Some export_task =>
      exported <- try_except
        (page <- list_for_task (t_tenant_id task) (t_task_id task) ;;
         now <- clock ;;
         let payload := dupdate (task_model_dump (task_with_state task terminal_state now))
                          (result_observability_metadata result) in
         x <- export_task (t_task_id task) payload page ;; ret (Some x))
        (fun e =>
           if is_exception e then Some (
             suppress (audit ctx "observability.langfuse_export_failed"
               [("task_id", JStr (t_task_id task)); ("error_type", JStr (exn_name e))]) ;;;
             ret None)
           else None) ;;
      match exported with
      | None => ret tt
      | Some (trace_id, count) =>
          audit ctx "observability.langfuse_exported"
            [("task_id", JStr (t_task_id task)); ("langfuse_trace_id", JStr trace_id);
             ("observation_count", JInt count)]
      end
  | _, _ => ret tt
  end.

Definition load_state (task : Task) (g : Graph World) : M World TaskRunState :=
  cp <- latest (t_tenant_id task) (t_task_id task) ;;
  match cp with
  | Some c => lift (model_validate (cp_state_snapshot c))
  | None =>
      let d := dset (t_input_payload task) "_permission_mode"
                 (JStr (PermissionMode_value (t_permission_mode task))) in
      let d := dset d "_budget_policy" (JStr (BudgetPolicy_value (t_budget_policy task))) in
      let d := match t_budget_threshold_micros task with
               | Some n => dset d "_budget_threshold_micros" (JInt n)
               | None => d
               end in
      d <- match t_session_id task with
           | Some session =>
               if nonempty session then
                 prior <- try_except
                   (build_prior_messages (t_tenant_id task) session (t_task_id task)
                      DEFAULT_PRIOR_LIMIT)
                   (fun e => if is_exception e then Some (ret []) else None) ;;
                 ret (match prior with [] => d | _ => dset d "_prior_messages" (JList prior) end)
               else ret d
           | None => ret d
           end ;;
      ret (initial_state (t_task_id task) (t_tenant_id task) (t_trace_id task) (g_graph_id g) d)
  end.

Definition persist_step (task : Task) (s : TaskRunState) : M World unit :=
  cid <- id_factory ;;
  now <- clock ;;
  append_checkpoint (mkCheckpoint cid (t_task_id task) (t_tenant_id task) (t_trace_id task)
                       (current_node s) (sequence s) (model_dump s) now) ;;;
  audit (task_to_context task) "task.node_completed"
    [("node", JStr (current_node s)); ("sequence", JInt (sequence s))].

(** [while not state.finished and not state.awaiting_approval]: uncapped in
    the code, so the model takes fuel and marks its exhaustion. *)
Fixpoint drive (task : Task) (g : Graph World) (fuel : nat) (s : TaskRunState)
    : M World TaskRunState :=
  if finished s || awaiting_approval s then ret s
  else match fuel with
  | O => raise OutOfFuel
  | S fuel' =>
      s' <- step g s ;;
      persist_step task s' ;;;
      drive task g fuel' s'
  end.

Definition build_result (task : Task) (g : Graph World) (s : TaskRunState)
    (started_at finished_at : Z) : res (TaskResult * TaskState) :=
  let output := as_dict (getd (data s) "output") in
  let? x := match error s with
            | Some msg =>
                let? e := make_task_error GRAPH_ERROR msg
                            (Some [("failure_category", JStr "infra_error");
                                   ("current_node", JStr (current_node s));
                                   ("sequence", JInt (sequence s))]) in
                Ok (FAILED, Some e, RS_failed)
            | None => Ok (SUCCEEDED, None, RS_succeeded)
            end in
  let '(terminal, err, status) := x in
  let? r := check_task_result
              (mkTaskResult (t_task_id task) (t_tenant_id task) (t_trace_id task) (g_graph_id g)
                 status output err (sequence s) started_at finished_at) in
  Ok (r, terminal).

Definition bucket_view (b : UsageAggregate) : json :=
  JDict [("step_kind", JStr (ub_key b)); ("tokens", JInt (ub_tokens b));
         ("cost_usd_micros", JInt (ub_cost_usd_micros b)); ("calls", JInt (ub_calls b))].

Definition result_with_output (r : TaskResult) (out : dict) : TaskResult :=
  mkTaskResult (tr_task_id r) (tr_tenant_id r) (tr_trace_id r) (tr_graph_id r) (tr_status r)
    (Some out) (tr_error r) (tr_node_sequence r) (tr_started_at r) (tr_finished_at r).

Definition augment_with_cost (task : Task) (result : TaskResult) : M World TaskResult :=
  match p_llm_usage ports with
  | None => ret result
  | Some aggregate_for_task =>
      buckets <- try_except
        (b <- aggregate_for_task (t_tenant_id task) (t_task_id task) ;; ret (Some b))
        (fun e => if is_exception e then Some (ret None) else None) ;;
      ret (match buckets with
           | None => result
           | Some bs => result_with_output result
               (dset (default [] (tr_output result)) "cost_by_step_kind"
                  (JList (map bucket_view bs)))
           end)
  end.

Definition maybe_enqueue_follow_up (ctx : RequestContext) (parent : Task) (result : TaskResult)
    (terminal_state : TaskState) : M World unit :=
  match p_submitter ports, p_chain ports with
  | Some submit, Some chain =>
      if negb (bool_decide (terminal_state = SUCCEEDED)) then ret tt
      else match chain_derive chain parent result with
      | None => ret tt
      | Some spec =>
          let follow := ("follow_up_type", JStr (TaskType_value (fu_task_type spec))) in
          child <- try_except (c <- submit parent spec ;; ret (Some c))
            (fun e =>
               if is_exception e then Some (
                 audit ctx "task.chain_failed"
                   [("parent_task_id", JStr (t_task_id parent)); follow;
                    ("error", JStr (exn_str e))] ;;;
                 ret None)
               else None) ;;
          match child with
          | None => ret tt
          | Some None =>
              audit ctx "task.chain_skipped"
                [("parent_task_id", JStr (t_task_id parent)); follow; ("reason", JStr "duplicate")]
          | Some (Some c) =>
              audit ctx "task.chain_enqueued"
                [("parent_task_id", JStr (t_task_id parent)); ("child_task_id", JStr (t_task_id c));
                 follow; ("idempotency_key", JStr (fu_idempotency_key spec))]
          end
      end
  | _, _ => ret tt
  end.

Definition provision_workspace (wm : WorkspaceManager) (task : Task) (ctx : RequestContext)
    (gid : string) : M World Workspace :=
  ws <- wm_provision wm (t_tenant_id task) (t_task_id task) (t_trace_id task)
          ("agent/" +:+ t_task_id task) (as_str (getd (t_input_payload task) "repo_url"))
          (as_str (getd (t_input_payload task) "base_ref")) ;;
  audit ctx "workspace.provisioned"
    [("task_id", JStr (t_task_id task)); ("graph_id", JStr gid);
     ("workspace_id", JStr (ws_workspace_id ws)); ("branch", JStr (ws_branch ws));
     ("worktree_path", JStr (ws_worktree_path ws))] ;;;
  ret ws.

Definition is_workspace_error (e : exn) : bool :=
  match e with WorkspaceError _ => true | _ => false end.

Definition cleanup_workspace (wm : WorkspaceManager) (ws : Workspace) (ctx : RequestContext)
    : M World unit :=
  cleaned <- try_except (wm_cleanup wm ws ;;; ret true)
    (fun e =>
       if is_workspace_error e then Some (
         audit ctx "workspace.cleanup_failed"
           [("workspace_id", JStr (ws_workspace_id ws));
            ("worktree_path", JStr (ws_worktree_path ws)); ("error", JStr (exn_str e))] ;;;
         ret false)
       else None) ;;
  if negb cleaned then ret tt
  else audit ctx "workspace.cleaned" [("workspace_id", JStr (ws_workspace_id ws))].

(** [except IllegalTaskTransitionError: audit; ack; return]: [true] when the
    guarded write happened. *)
Definition guarded_write (ctx : RequestContext) (entry_id action : string) (payload : dict)
    (write : M World unit) : M World bool :=
  try_except (write ;;; ret true)
    (fun e => match e with
              | IllegalTaskTransitionError =>
                  Some (audit ctx action payload ;;; ack entry_id ;;; ret false)
              | _ => None
              end).

Definition pause_task (msg : DeliveredMessage) (ctx : RequestContext) (task : Task)
    (s : TaskRunState) : M World unit :=
  paused_at <- clock ;;
  done <- guarded_write ctx (dm_entry_id msg) "worker.task_already_advanced"
    [("task_id", JStr (t_task_id task)); ("attempted", JStr "awaiting_approval")]
    (set_awaiting_approval (t_tenant_id task) (t_task_id task) paused_at) ;;
  if negb done then ret tt
  else
    audit ctx "task.awaiting_approval"
      [("task_id", JStr (t_task_id task)); ("sequence", JInt (sequence s));
       ("gate_id", opt_json JStr (as_str (getd (data s) HUMAN_GATE_AT_KEY)))] ;;;
    ack (dm_entry_id msg).

Definition finish_task (msg : DeliveredMessage) (ctx : RequestContext) (task : Task)
    (g : Graph World) (s : TaskRunState) (started_at : Z) : M World unit :=
  finished_at <- clock ;;
  rt <- lift (build_result task g s started_at finished_at) ;;
  let '(result0, terminal_state) := rt in
  result <- augment_with_cost task result0 ;;
  done <- guarded_write ctx (dm_entry_id msg) "worker.task_already_terminal"
    [("task_id", JStr (t_task_id task)); ("attempted", JStr (TaskState_value terminal_state))]
    (complete (t_tenant_id task) (t_task_id task) result terminal_state finished_at) ;;
  if negb done then ret tt
  else
    audit ctx ("task." +:+ TaskState_value terminal_state)
      [("sequence", JInt (sequence s)); ("output", opt_json JDict (tr_output result))] ;;;
    export_trajectory ctx task terminal_state result ;;;
    maybe_enqueue_follow_up ctx task result terminal_state ;;;
    ack (dm_entry_id msg).

Definition run_graph (fuel : nat) (msg : DeliveredMessage) (ctx : RequestContext) (task : Task)
    (g : Graph World) (workspace : option Workspace) : M World unit :=
  s0 <- load_state task g ;;
  let s1 := match workspace with
            | Some ws => with_data s0 (dupdate (data s0)
                           [("_workspace_path", JStr (ws_worktree_path ws));
                            ("_workspace_branch", JStr (ws_branch ws))])
            | None => s0
            end in
  started_at <- (if bool_decide (t_state task = RUNNING) then ret (t_updated_at task)
                 else at_ <- clock ;;
                      update_state (t_tenant_id task) (t_task_id task) RUNNING at_ ;;;
                      ret at_) ;;
  s <- drive task g fuel s1 ;;
  if awaiting_approval s then pause_task msg ctx task s
  else finish_task msg ctx task g s started_at.

(** The part of [_dispatch] after the task was found not to be terminal. *)
Definition dispatch_task (fuel : nat) (msg : DeliveredMessage) (ctx : RequestContext)
    (task : Task) : M World unit :=
  g <- lift (resolve registry (t_task_type task) (t_graph_id task)) ;;
  if requires_workspace registry (g_graph_id g) then
    match p_workspaces ports with
    | None =>
        audit ctx "worker.workspace_unavailable"
          [("task_id", JStr (t_task_id task)); ("graph_id", JStr (g_graph_id g))] ;;;
        ack (dm_entry_id msg)
    | Some wm =>
        ws <- try_except (provision_workspace wm task ctx (g_graph_id g))
          (fun e =>
             if is_workspace_error e then Some (
               audit ctx "workspace.provision_failed"
                 [("task_id", JStr (t_task_id task)); ("error", JStr (exn_str e))] ;;;
               raise e)
             else None) ;;
        try_finally (run_graph fuel msg ctx task g (Some ws)) (cleanup_workspace wm ws ctx)
    end
  else run_graph fuel msg ctx task g None.

Definition dispatch (fuel : nat) (msg : DeliveredMessage) (ctx : RequestContext) : M World unit :=
  let envelope := dm_envelope msg in
  match env_task_id envelope with
  | None =>
      audit ctx "worker.envelope_invalid" [("reason", JStr "missing_task_id")] ;;;
      ack (dm_entry_id msg)
  | Some tid =>
      found <- get_task (env_tenant_id envelope) tid ;;
      match found with
      | None =>
          audit ctx "worker.task_missing" [("task_id", JStr tid)] ;;;
          ack (dm_entry_id msg)
      | Some task =>
          if TERMINAL_TASK_STATES (t_state task) then
            audit ctx "worker.task_already_terminal"
              [("task_id", JStr (t_task_id task)); ("state", JStr (TaskState_value (t_state task)))] ;;;
            ack (dm_entry_id msg)
          else dispatch_task fuel msg ctx task
      end
  end.

(** The states [_abandon] leaves alone: not [EXPIRED]. *)
Definition abandon_leaves (s : TaskState) : bool :=
  match s with SUCCEEDED | FAILED | CANCELLED => true | _ => false end.

Definition abandon (msg : DeliveredMessage) (ctx : RequestContext) (reason : string)
    : M World unit :=
  let envelope := dm_envelope msg in
  audit ctx "task.abandoned"
    [("delivery_count", JInt (dm_delivery_count msg)); ("reason", JStr reason)] ;;;
  match env_task_id envelope with
  | None => ack (dm_entry_id msg)
  | Some tid =>
      found <- get_task (env_tenant_id envelope) tid ;;
      match found with
      | None => ack (dm_entry_id msg)
      | Some task =>
          if abandon_leaves (t_state task) then ack (dm_entry_id msg)
          else
            g <- lift (resolve registry (t_task_type task) (t_graph_id task)) ;;
            cp <- latest (t_tenant_id task) (t_task_id task) ;;
            finished_at <- clock ;;
            err <- lift (make_task_error ABANDONED ("delivery_count exceeded: " +:+ reason)
                           (Some [("delivery_count", JInt (dm_delivery_count msg))])) ;;
            result <- lift (check_task_result
              (mkTaskResult (t_task_id task) (t_tenant_id task) (t_trace_id task) (g_graph_id g)
                 RS_failed None (Some err)
                 (match cp with Some c => cp_sequence c | None => 0 end)
                 (t_updated_at task) finished_at)) ;;
            try_except
              (complete (t_tenant_id task) (t_task_id task) result FAILED finished_at ;;;
               export_trajectory ctx task FAILED result)
              (fun e => match e with IllegalTaskTransitionError => Some (ret tt) | _ => None end) ;;;
            ack (dm_entry_id msg)
      end
  end.

Definition handle (fuel : nat) (msg : DeliveredMessage) : M World unit :=
  let ctx := envelope_to_context (dm_envelope msg) in
  bind_context ctx (
    if max_attempts <? dm_delivery_count msg then abandon msg ctx "delivery_count_exceeded"
    else try_except (dispatch fuel msg ctx)
           (fun e => if is_exception e then Some (ret tt) else None)).

Definition run_once (fuel : nat) (claim_batch : M World (list DeliveredMessage)) : M World Z :=
  batch <- claim_batch ;;
  for_each batch tt (fun msg _ => handle fuel msg) ;;;
  ret (Z.of_nat (length batch)).

(** [int(now.timestamp())]: whole seconds, towards zero. *)
Definition timestamp_seconds (t : Z) : Z := Z.quot t 1000000.

Definition recover_one (task : Task) (count : Z) : M World Z :=
  let ctx := task_to_context task in
  now <- clock ;;
  eid <- id_factory ;;
  let event := mkOutboxEvent eid (t_tenant_id task) (t_trace_id task) "task" (t_task_id task)
                 task_topic (t_input_payload task)
                 ("recover:" +:+ t_task_id task +:+ ":" +:+ pretty (timestamp_seconds now))
                 OB_PENDING 0 now None in
  counted <- bind_context ctx (
    ok <- try_except (enqueue event ;;; ret true)
      (fun e =>
         if is_exception e then Some (
           audit ctx "worker.recover_failed"
             [("task_id", JStr (t_task_id task)); ("error_type", JStr (exn_name e))] ;;;
           ret false)
         else None) ;;
    if negb ok then ret false
    else audit ctx "worker.task_recovered" [("task_id", JStr (t_task_id task))] ;;; ret true) ;;
  ret (if counted then count + 1 else count).

Definition recover_in_flight (limit : nat) : M World Z :=
  if negb (p_outbox ports) then ret 0
  else
    rows <- list_running_for_resume limit ;;
    for_each rows 0 recover_one.
End WorkerLoop.
