(* ===== verification/WorkerFacts.v ===== *)
(** * WorkerFacts: what handling a message guarantees

    Acknowledgement, redelivery, pausing, the task lifecycle and the poison
    message, proved for every graph and every port that leaves the task table
    alone. *)

From S2P Require Import Prelude Domain GraphRuntime Gates Results Persistence PersistenceFacts Worker.
Import Registry.

(** ** Quiet calls

    What the worker's own control flow depends on: the task table, the
    acknowledged entries and the bound context.  A call is quiet when it keeps
    all three, on every path.  (It may draw generated ids.) *)

Record calm (w w' : World) : Prop := {
  calm_tasks : db_tasks (w_db w') = db_tasks (w_db w);
  calm_acked : w_acked w' = w_acked w;
  calm_ctx : w_ctx w' = w_ctx w;
  calm_ids : w_ids w' = w_ids w;
  calm_nids : (w_nids w <= w_nids w')%nat
}.

#[global] Instance calm_pre : PreOrder calm.
Proof.
  split; [intros w; by split|]. intros a b c [] []. split; try congruence. lia.
Qed.

Definition quiet {A} (m : M World A) : Prop := forall w, calm w (m w).2.

Section Quiet.
Lemma quiet_ret {A} (a : A) : quiet (ret a).
Proof. by intros w. Qed.
Lemma quiet_raise {A} e : quiet (@raise World A e).
Proof. by intros w. Qed.
Lemma quiet_lift {A} (r : res A) : quiet (lift r).
Proof. by intros w. Qed.
Lemma quiet_get : quiet get.
Proof. by intros w. Qed.
Lemma quiet_clock : quiet clock.
Proof. by intros w. Qed.
Lemma quiet_id : quiet id_factory.
Proof. intros w. split; try done. simpl. lia. Qed.
Lemma quiet_db_call : quiet db_call.
Proof. intros w. unfold db_call. by destruct (w_fault w _). Qed.
Lemma quiet_check_tenant t : quiet (check_tenant t).
Proof.
  intros w. destruct (check_tenant t w) as [r w'] eqn:E. by apply check_tenant_inv in E as [-> _].
Qed.

Lemma quiet_bind {A B} (m : M World A) (k : A -> M World B) :
  quiet m -> (forall a, quiet (k a)) -> quiet (bind m k).
Proof.
  intros Hm Hk w. unfold bind. specialize (Hm w).
  destruct (m w) as [[a|e] w1]; simpl in *; [|done].
  etransitivity; [exact Hm|apply Hk].
Qed.

Lemma quiet_try_except {A} (m : M World A) h :
  quiet m -> (forall e k, h e = Some k -> quiet k) -> quiet (try_except m h).
Proof.
  intros Hm Hh w. unfold try_except. specialize (Hm w).
  destruct (m w) as [[a|e] w1]; simpl in *; [done|].
  destruct (h e) as [k|] eqn:E; [|done]. etransitivity; [exact Hm|by eapply Hh].
Qed.

Lemma quiet_for_each {A S} (l : list A) (s : S) (body : A -> S -> M World S) :
  (forall x s, quiet (body x s)) -> quiet (for_each l s body).
Proof.
  intros Hb. revert s. induction l as [|x l IH]; intros s; simpl; [apply quiet_ret|].
  apply quiet_bind; auto.
Qed.

Lemma wp_quiet {A} (m : M World A) (Q : A -> World -> Prop) E w :
  quiet m -> (forall a w', calm w w' -> Q a w') ->
  (forall e w', calm w w' -> E e w') -> wp m Q E w.
Proof. intros Hm HQ HE. specialize (Hm w). unfold wp. destruct (m w) as [[a|e] w']; auto. Qed.
End Quiet.

Create HintDb quiet.
#[export] Hint Resolve quiet_ret quiet_raise quiet_lift quiet_get quiet_clock quiet_id quiet_db_call
  quiet_check_tenant : quiet.

Ltac quiet_tac :=
  repeat (intros; first
    [ progress eauto with quiet
    | match goal with
      | |- quiet (try_except _ _) => apply quiet_try_except; [|intros ? ? ?; simplify_eq/=]
      | |- quiet (for_each _ _ _) => apply quiet_for_each
      | |- quiet (bind _ _) => apply quiet_bind; [|intros ?]
      | |- quiet (match ?x with _ => _ end) => destruct x eqn:?
      | |- quiet (if ?b then _ else _) => destruct b
      | H : (if ?b then _ else _) = Some _ |- quiet _ => destruct b; simplify_eq
      end ]).

Lemma quiet_append_audit e : quiet (append_audit e).
Proof. unfold append_audit. quiet_tac. by intros w. Qed.
Lemma quiet_append_checkpoint c : quiet (append_checkpoint c).
Proof. unfold append_checkpoint. quiet_tac. by intros w. Qed.
Lemma quiet_latest t i : quiet (latest t i).
Proof. unfold latest. quiet_tac. Qed.
Lemma quiet_get_task t i : quiet (get_task t i).
Proof. unfold get_task. quiet_tac. Qed.
Lemma quiet_get_result t i : quiet (get_result t i).
Proof. unfold get_result. quiet_tac. Qed.
Lemma quiet_list_by_session t i n : quiet (list_by_session t i n).
Proof. unfold list_by_session. quiet_tac. Qed.
#[export] Hint Resolve quiet_append_audit quiet_append_checkpoint quiet_latest quiet_get_task
  quiet_get_result quiet_list_by_session : quiet.

Lemma quiet_prior ten ses ex n : quiet (build_prior_messages ten ses ex n).
Proof. unfold build_prior_messages, prior_turn, assistant_message_of. quiet_tac. Qed.
#[export] Hint Resolve quiet_prior : quiet.

(** ** Assumptions on the worker's collaborators *)

(** Generated ids never name an existing task. *)
Definition fresh_ids (w : World) : Prop :=
  (forall i j, w_ids w i = w_ids w j -> i = j) /\
  (forall n, (w_nids w <= n)%nat -> db_tasks (w_db w) !! w_ids w n = None).

(** A call that may add tasks, but moves existing ones along the lifecycle only. *)
Definition tame {A} (m : M World A) : Prop := forall w, fresh_ids w ->
  let w' := (m w).2 in
  evolves (w_db w) (w_db w') /\ w_acked w' = w_acked w /\ w_ctx w' = w_ctx w /\ fresh_ids w'.

Record quiet_ports (p : Ports) : Prop := {
  qp_provision : forall wm a b c d e f, p_workspaces p = Some wm -> quiet (wm_provision wm a b c d e f);
  qp_cleanup : forall wm ws, p_workspaces p = Some wm -> quiet (wm_cleanup wm ws);
  qp_fanout : forall f e, p_fanout p = Some f -> quiet (f e);
  qp_usage : forall f a b, p_llm_usage p = Some f -> quiet (f a b);
  qp_trajectory : forall f a b, p_trajectory p = Some f -> quiet (f a b);
  qp_exporter : forall f a b c, p_exporter p = Some f -> quiet (f a b c);
  qp_submit : forall f a b, p_submitter p = Some f -> tame (f a b)
}.

Definition quiet_nodes {Deps} (r : GraphRegistry World Deps) : Prop :=
  forall gid g n fn s, dget (rg_graphs r) gid = Some g -> dget (g_nodes g) n = Some fn ->
  quiet (fn s).

Lemma fresh_calm w w' : fresh_ids w -> calm w w' -> fresh_ids w'.
Proof.
  intros [Hi Hf] [Ht _ _ Hids Hn]. split; rewrite Hids; [done|]. intros n Hle. rewrite Ht. apply Hf. lia.
Qed.

Lemma calm_evolves w w' : calm w w' -> evolves (w_db w) (w_db w').
Proof. intros H. apply same_tasks_evolves, (calm_tasks w w' H). Qed.

Lemma quiet_tame {A} (m : M World A) : quiet m -> tame m.
Proof.
  intros Hq w Hf. specialize (Hq w). cbv zeta.
  split_and!; [by apply calm_evolves|by destruct Hq..|by eapply fresh_calm].
Qed.

Lemma tame_bind {A B} (m : M World A) (k : A -> M World B) :
  tame m -> (forall a, tame (k a)) -> tame (bind m k).
Proof.
  intros Hm Hk w Hf. unfold bind. destruct (Hm w Hf) as (E1 & A1 & C1 & F1).
  destruct (m w) as [[a|e] w1]; simpl in *; [|done].
  destruct (Hk a w1 F1) as (E2 & A2 & C2 & F2). split_and!; [by etrans|congruence..|done].
Qed.

Lemma tame_try_except {A} (m : M World A) h :
  tame m -> (forall e k, h e = Some k -> tame k) -> tame (try_except m h).
Proof.
  intros Hm Hh w Hf. unfold try_except. destruct (Hm w Hf) as (E1 & A1 & C1 & F1).
  destruct (m w) as [[a|e] w1]; simpl in *; [done|]. destruct (h e) as [k|] eqn:He; [|done].
  destruct (Hh e k He w1 F1) as (E2 & A2 & C2 & F2). split_and!; [by etrans|congruence..|done].
Qed.

Lemma wp_tame {A} (m : M World A) (Q : A -> World -> Prop) E w :
  tame m -> fresh_ids w ->
  (forall a w', evolves (w_db w) (w_db w') -> w_acked w' = w_acked w -> w_ctx w' = w_ctx w ->
     fresh_ids w' -> Q a w') ->
  (forall e w', evolves (w_db w) (w_db w') -> w_acked w' = w_acked w -> w_ctx w' = w_ctx w ->
     fresh_ids w' -> E e w') -> wp m Q E w.
Proof.
  intros Hm Hf HQ HE. destruct (Hm w Hf) as (?&?&?&?). unfold wp. destruct (m w) as [[a|e] w']; auto.
Qed.

(** [PgTaskSubmitter] satisfies the submitter's contract. *)
Lemma submit_follow_up_tame parent spec : tame (submit_follow_up parent spec).
Proof.
  intros w [Hinj Hfresh]. cbv zeta.
  unfold submit_follow_up, bind, clock, id_factory, try_except, transaction. simpl.
  match goal with |- context [upsert_in_conn ?t ?w1] => set (child := t); set (w2 := w1) end.
  assert (Hnew : db_tasks (w_db w2) !! t_task_id child = None) by (apply Hfresh; lia).
  assert (Hf2 : fresh_ids w2) by (split; simpl; [done|intros n Hn; apply Hfresh; lia]).
  assert (Hback : forall w3, w_ctx w3 = w_ctx w2 -> w_acked w3 = w_acked w2 -> w_ids w3 = w_ids w2 ->
            w_nids w3 = w_nids w2 -> w_db w3 = w_db w2 -> fresh_ids w3).
  { intros w3 _ _ E1 E2 E3. destruct Hf2 as [? Hf2]. split; rewrite E1; [done|]. rewrite E2, E3. done. }
  unfold upsert_in_conn, bind.
  destruct (check_tenant _ w2) as [[[]|e] w'] eqn:Hc; apply check_tenant_inv in Hc as [-> _];
    cycle 1. { destruct e; simpl; split_and!; try done; apply (Hback w2); done. }
  unfold db_call. destruct (w_fault w2 (w_ops w2)) as [e|]; simpl.
  { destruct e; simpl; split_and!; try done; apply Hback; done. }
  unfold child in Hnew. simpl in Hnew. rewrite Hnew.
  destruct (task_idem_conflict _ _); simpl. { split_and!; try done; apply Hback; done. }
  match goal with |- context [enqueue_in_conn ?e ?w1] => set (ev := e); set (w4 := w1) end.
  assert (Hf4 : fresh_ids w4).
  { split; simpl; [done|]. intros n Hn. rewrite lookup_insert_ne; [apply Hfresh; lia|].
    intros E. apply Hinj in E. lia. }
  unfold enqueue_in_conn, bind.
  destruct (check_tenant _ w4) as [[[]|e] w'] eqn:Hc; apply check_tenant_inv in Hc as [-> _];
    cycle 1. { destruct e; simpl; split_and!; try done; apply Hback; done. }
  unfold db_call. destruct (w_fault w4 (w_ops w4)) as [e|]; simpl.
  { destruct e; simpl; split_and!; try done; apply Hback; done. }
  destruct (outbox_conflict _ _); simpl. { split_and!; try done; apply Hback; done. }
  split_and!; try done. by apply (evolves_insert_new (w_db w)).
Qed.

(** ** The worker's own quiet calls *)

Section Handle.
Context {Deps : Type} (registry : GraphRegistry World Deps) (ports : Ports).
Context (max_attempts : Z) (exn_str exn_name : exn -> string) (isoformat : Z -> string).
Context (Hports : quiet_ports ports) (Hnodes : quiet_nodes registry).

Lemma quiet_audit ctx action payload : quiet (audit ports ctx action payload).
Proof. unfold audit. quiet_tac. by eapply (qp_fanout _ Hports). Qed.
#[local] Hint Resolve quiet_audit : quiet.

Lemma quiet_export ctx t st r : quiet (export_trajectory ports exn_name isoformat ctx t st r).
Proof.
  unfold export_trajectory, suppress.
  destruct (p_trajectory ports) eqn:E1; [|quiet_tac]. destruct (p_exporter ports) eqn:E2; [|quiet_tac].
  quiet_tac; [by apply (qp_trajectory _ Hports)|by apply (qp_exporter _ Hports)].
Qed.

Lemma quiet_load_state t g : quiet (load_state t g).
Proof. unfold load_state. quiet_tac. Qed.

Lemma quiet_persist t s : quiet (persist_step ports t s).
Proof. unfold persist_step. quiet_tac. Qed.

Lemma quiet_augment t r : quiet (augment_with_cost ports t r).
Proof.
  unfold augment_with_cost. destruct (p_llm_usage ports) eqn:E; [|quiet_tac].
  quiet_tac. by apply (qp_usage _ Hports).
Qed.

Lemma quiet_cleanup wm ws ctx :
  p_workspaces ports = Some wm -> quiet (cleanup_workspace ports exn_str wm ws ctx).
Proof. intros E. unfold cleanup_workspace. quiet_tac. by apply (qp_cleanup _ Hports). Qed.

Lemma quiet_provision wm t ctx gid :
  p_workspaces ports = Some wm -> quiet (provision_workspace ports wm t ctx gid).
Proof. intros E. unfold provision_workspace. quiet_tac. by apply (qp_provision _ Hports). Qed.
#[local] Hint Resolve quiet_export quiet_load_state quiet_persist quiet_augment quiet_cleanup
  quiet_provision : quiet.

Lemma resolve_registered t gid g :
  resolve registry t gid = Ok g -> exists id, dget (rg_graphs registry) id = Some g.
Proof.
  unfold resolve, get_graph. destruct (require_materialized registry); [|done]. simpl.
  destruct gid as [x|].
  - destruct (dget (rg_graphs registry) x) eqn:E; intros [= <-]. eauto.
  - destruct (dget (rg_defaults registry) _) as [d|]; [|done].
    destruct (dget (rg_graphs registry) d) eqn:E; intros [= <-]. eauto.
Qed.

Definition registered (g : Graph World) : Prop := exists id, dget (rg_graphs registry) id = Some g.

Lemma quiet_step g s : registered g -> quiet (step g s).
Proof.
  intros [id Hg]. unfold step. destruct (_ || _); [quiet_tac|]. destruct (g_entry g); [|quiet_tac].
  destruct (dget (g_nodes g) _) as [fn|] eqn:Hfn; [|quiet_tac].
  quiet_tac.
Qed.

Lemma quiet_drive t g fuel s : registered g -> quiet (drive ports t g fuel s).
Proof.
  intros Hg. revert s. induction fuel as [|fuel IH]; intros s; simpl; quiet_tac. by apply quiet_step.
Qed.

Lemma tame_follow_up ctx t r st : tame (maybe_enqueue_follow_up ports exn_str ctx t r st).
Proof.
  unfold maybe_enqueue_follow_up. destruct (p_submitter ports) as [f|] eqn:E; [|apply quiet_tame; quiet_tac].
  destruct (p_chain ports); [|apply quiet_tame; quiet_tac].
  destruct (negb _); [apply quiet_tame; quiet_tac|].
  destruct (chain_derive _ _ _); [|apply quiet_tame; quiet_tac]. cbv zeta.
  apply tame_bind; [apply tame_try_except|].
  - apply tame_bind; [by apply (qp_submit _ Hports)|]. intros a. apply quiet_tame. quiet_tac.
  - intros e k He. apply quiet_tame. quiet_tac.
  - intros a. apply quiet_tame. quiet_tac.
Qed.

(** *** Safety of one delivery

    [good w0 w]: a state the handler of [msg], started in [w0], may leave:
    tasks moved along the lifecycle, the context binding is back, and the
    only entry acknowledged is [msg]'s own, for a reason. *)

Context (msg : DeliveredMessage).
Notation ten := (env_tenant_id (dm_envelope msg)).

Definition settled (w : World) : Prop :=
  exists tid r, env_task_id (dm_envelope msg) = Some tid /\
    select_task (w_db w) ten tid = Some r /\
    (TERMINAL_TASK_STATES (t_state (row_task r)) = true \/
     t_state (row_task r) = AWAITING_APPROVAL).

Definition droppable (w : World) : Prop :=
  match env_task_id (dm_envelope msg) with
  | None => True
  | Some tid =>
      match select_task (w_db w) ten tid with
      | None => True
      | Some r => exists g,
          resolve registry (t_task_type (row_task r)) (t_graph_id (row_task r)) = Ok g /\
          requires_workspace registry (g_graph_id g) = true /\ p_workspaces ports = None
      end
  end.

Record good (w0 w : World) : Prop := {
  good_evolves : evolves (w_db w0) (w_db w);
  good_fresh : fresh_ids w;
  good_ctx : w_ctx w = w_ctx w0;
  good_acks : forall e, e ∈ w_acked w ->
    e ∈ w_acked w0 \/ (e = dm_entry_id msg /\ (droppable w0 \/ settled w))
}.

(** Before the acknowledgement, with the task of the message in state [st]. *)
Record mid (w0 : World) (tid : string) (st : TaskState) (w : World) : Prop := {
  mid_evolves : evolves (w_db w0) (w_db w);
  mid_fresh : fresh_ids w;
  mid_ctx : w_ctx w = w_ctx w0;
  mid_acked : w_acked w = w_acked w0;
  mid_row : exists r, select_task (w_db w) ten tid = Some r /\ t_state (row_task r) = st
}.

Lemma select_task_calm w w' t i : calm w w' -> select_task (w_db w') t i = select_task (w_db w) t i.
Proof. intros H. unfold select_task. by rewrite (calm_tasks _ _ H). Qed.

Lemma good_calm w0 w w' : good w0 w -> calm w w' -> good w0 w'.
Proof.
  intros [He Hf Hc Ha] Hw. pose proof (calm_evolves _ _ Hw). pose proof Hw as [Ht Hak Hcx Hi Hn].
  split; [by etrans|by eapply fresh_calm|congruence|].
  intros e. rewrite Hak. intros He'. destruct (Ha e He') as [?|[? [?|(tid & r & ? & ? & ?)]]]; eauto.
  right. split; [done|]. right. exists tid, r. split_and!; try done. by rewrite (select_task_calm _ _ _ _ Hw).
Qed.

Lemma mid_calm w0 tid st w w' : mid w0 tid st w -> calm w w' -> mid w0 tid st w'.
Proof.
  intros [He Hf Hc Ha (r & Hr & Hs)] Hw. pose proof (calm_evolves _ _ Hw).
  split; [by etrans|by eapply fresh_calm|by rewrite (calm_ctx _ _ Hw)|by rewrite (calm_acked _ _ Hw)|].
  exists r. by rewrite (select_task_calm _ _ _ _ Hw).
Qed.

Lemma mid_good w0 tid st w : mid w0 tid st w -> good w0 w.
Proof. intros [? ? ? Ha ?]. split; try done. intros e. rewrite Ha. by left. Qed.

Lemma start_good w0 : fresh_ids w0 -> good w0 w0.
Proof. intros Hf. split; [by exact (reflexivity _)|done|done|]. intros e. by left. Qed.

Definition safe {A} (w0 : World) (m : M World A) (w : World) : Prop :=
  wp m (fun _ => good w0) (fun _ => good w0) w.

Lemma safe_quiet {A} w0 (m : M World A) w : quiet m -> good w0 w -> safe w0 m w.
Proof. intros Hq Hg. apply wp_quiet; [done|intros; by eapply good_calm..]. Qed.

Lemma safe_quiet_mid {A B} w0 tid st (m : M World A) (k : A -> M World B) w :
  quiet m -> mid w0 tid st w -> (forall a w', mid w0 tid st w' -> safe w0 (k a) w') ->
  safe w0 (bind m k) w.
Proof.
  intros Hq Hm Hk. apply wp_bind, wp_quiet; [done| |].
  - intros a w' Hc. apply Hk. by eapply mid_calm.
  - intros e w' Hc. eapply good_calm; [by eapply mid_good|done].
Qed.

Lemma safe_quiet_good {A B} w0 (m : M World A) (k : A -> M World B) w :
  quiet m -> good w0 w -> (forall a w', good w0 w' -> calm w w' -> safe w0 (k a) w') ->
  safe w0 (bind m k) w.
Proof.
  intros Hq Hm Hk. apply wp_bind, wp_quiet; [done| |].
  - intros a w' Hc. apply Hk; [by eapply good_calm|done].
  - intros e w' Hc. by eapply good_calm.
Qed.

Lemma safe_ack w0 w : good w0 w -> droppable w0 \/ settled w -> safe w0 (ack (dm_entry_id msg)) w.
Proof.
  intros [He Hf Hc Ha] Hr. unfold safe, wp, ack, db_call.
  destruct (w_fault w (w_ops w)) as [[]|]; simpl; split; try done.
  intros e [->|Hin]%elem_of_cons; [by right|]. by apply Ha.
Qed.

(** A guarded write on the row of the message: it fails with an exception
    that is not [IllegalTaskTransitionError], or, when the guard holds, the
    row is replaced and nothing else the handler looks at changes. *)
Lemma update_where_frame tenant task guard f w :
  let w' := (update_where tenant task guard f w).2 in
  w_acked w' = w_acked w /\ w_ctx w' = w_ctx w /\ w_ids w' = w_ids w /\ w_nids w' = w_nids w.
Proof.
  cbv zeta. unfold update_where, bind, db_call. destruct (w_fault w (w_ops w)); [done|]. simpl.
  destruct (select_task _ _ _) as [r|]; [|done]. by destruct (guard r).
Qed.

Lemma wp_guarded_update w0 tid st guard f w :
  mid w0 tid st w ->
  (forall r, t_state (row_task r) = st -> guard r = true) ->
  (forall r, t_state (row_task r) = st -> row_evolves r (f r)) ->
  wp (update_where ten tid guard f)
     (fun n w' => n = 1%nat /\ exists r, t_state (row_task r) = st /\
                  mid w0 tid (t_state (row_task (f r))) w')
     (fun e w' => good w0 w' /\ e <> IllegalTaskTransitionError) w.
Proof.
  intros [He Hf Hc Ha (r & Hr & Hst)] Hg Hev.
  pose proof (update_where_frame ten tid guard f w) as (Fa & Fc & Fi & Fn).
  pose proof (update_where_cases ten tid guard f w) as Hcases. rewrite Hr, (Hg r Hst) in Hcases.
  apply select_task_Some in Hr as [Hr Hten]. unfold wp.
  destruct (update_where ten tid guard f w) as [o w']. simpl in *.
  destruct Hcases as [(x & _ & -> & Hd)|[_ [-> Hd]]].
  - split; [|by destruct x].
    split; [by rewrite Hd|split; rewrite Fi, ?Fn, ?Hd; apply Hf|congruence|].
    intros e. rewrite Fa, Ha. by left.
  - split; [done|]. exists r. split; [done|].
    assert (Hstep : evolves (w_db w) (w_db w')).
    { rewrite Hd. by apply (evolves_insert _ _ r); [|apply Hev]. }
    split; [by etrans| |congruence|congruence|].
    + destruct Hf as [Hinj Hfr]. split; rewrite Fi; [done|]. rewrite Fn. intros n Hn. rewrite Hd. simpl.
      rewrite lookup_insert_ne; [by apply Hfr|]. intros ->. rewrite (Hfr n Hn) in Hr. done.
    + exists (f r). split; [|done]. apply select_task_Some. rewrite Hd. simpl. rewrite lookup_insert_eq.
      split; [done|]. destruct (Hev r Hst) as [(_ & E & _) _]. by rewrite E.
Qed.

Lemma wp_check_tenant t (Q : unit -> World -> Prop) (E : exn -> World -> Prop) w :
  Q tt w -> (forall e, e <> IllegalTaskTransitionError -> E e w) -> wp (check_tenant t) Q E w.
Proof.
  intros HQ HE. unfold wp, check_tenant, require_tenant_id, require_current, bind, raise, ret.
  destruct (current_ctx w); [|by apply HE]. simpl. destruct (String.eqb _ t); [done|by apply HE].
Qed.

Lemma lifecycle_running st : TERMINAL_TASK_STATES st = false -> rtc lifecycle st RUNNING.
Proof. destruct st; intros H; try done; apply rtc_once; constructor. Qed.

Lemma wp_update_state w0 tid st at_ w :
  mid w0 tid st w -> TERMINAL_TASK_STATES st = false ->
  wp (update_state ten tid RUNNING at_) (fun _ => mid w0 tid RUNNING) (fun _ => good w0) w.
Proof.
  intros Hm Hnt. unfold update_state.
  apply wp_bind, wp_check_tenant; [|intros; by eapply mid_good]. apply wp_bind.
  eapply wp_mono; [apply (wp_guarded_update w0 tid st); [done|done|]| |].
  - intros r Hr. apply row_with_state_evolves; rewrite Hr; [done|by apply lifecycle_running].
  - intros n w' [_ (r & _ & H)]. exact H.
  - intros e w' [H _]. exact H.
Qed.

Lemma wp_set_awaiting w0 tid at_ w :
  mid w0 tid RUNNING w ->
  wp (set_awaiting_approval ten tid at_) (fun _ => mid w0 tid AWAITING_APPROVAL)
     (fun e w' => good w0 w' /\ e <> IllegalTaskTransitionError) w.
Proof.
  intros Hm. unfold set_awaiting_approval.
  apply wp_bind, wp_check_tenant; [|intros; split; [by eapply mid_good|done]]. apply wp_bind.
  eapply wp_mono; [apply (wp_guarded_update w0 tid RUNNING); [done| |]| |done].
  - intros r ->. done.
  - intros r Hr. apply row_with_state_evolves; rewrite Hr; [done|]. apply rtc_once. constructor.
  - intros n w' [-> (r & _ & H)]. exact H.
Qed.

Lemma wp_complete w0 tid st result at_ final w :
  mid w0 tid st w -> TERMINAL_TASK_STATES st = false -> final = SUCCEEDED \/ final = FAILED ->
  wp (complete ten tid result final at_) (fun _ => mid w0 tid final)
     (fun e w' => good w0 w' /\ e <> IllegalTaskTransitionError) w.
Proof.
  intros Hm Hnt Hfin. unfold complete.
  apply wp_bind, wp_check_tenant; [|intros; split; [by eapply mid_good|done]].
  assert (Ht : TERMINAL_TASK_STATES final = true) by by destruct Hfin as [-> | ->].
  rewrite Ht. simpl. apply wp_bind.
  eapply wp_mono; [apply (wp_guarded_update w0 tid st); [done| |]| |done].
  - intros r ->. by rewrite Hnt.
  - intros r Hr. split_and!; simpl; [done| |by rewrite Hr, Hnt].
    rewrite Hr. apply rtc_once. by apply lc_finish.
  - intros n w' [-> (r & _ & H)]. exact H.
Qed.

Lemma mid_settled w0 tid st w :
  mid w0 tid st w -> env_task_id (dm_envelope msg) = Some tid ->
  TERMINAL_TASK_STATES st = true \/ st = AWAITING_APPROVAL -> settled w.
Proof.
  intros Hm He Hs. destruct (mid_row _ _ _ _ Hm) as (r & Hr & Hst).
  exists tid, r. split_and!; [done|done|]. by rewrite Hst.
Qed.

Lemma mid_tame w0 tid st w w' :
  mid w0 tid st w -> TERMINAL_TASK_STATES st = true ->
  evolves (w_db w) (w_db w') -> w_acked w' = w_acked w -> w_ctx w' = w_ctx w -> fresh_ids w' ->
  mid w0 tid st w'.
Proof.
  intros [He Hf Hc Ha (r & Hr & Hst)] Ht Hev Hak Hcx Hf'.
  split; [by etrans|done|congruence|congruence|].
  exists r. split; [|done]. apply select_task_Some in Hr as [Hr Hten]. apply select_task_Some.
  split; [|done]. apply (evolves_frozen _ _ Hev); [done|by rewrite Hst].
Qed.

Lemma wp_guarded_write w0 tid st ctx entry action payload write w :
  wp write (fun _ => mid w0 tid st)
     (fun e w' => good w0 w' /\ e <> IllegalTaskTransitionError) w ->
  wp (guarded_write ports ctx entry action payload write)
     (fun b w' => b = true /\ mid w0 tid st w') (fun _ => good w0) w.
Proof.
  intros Hw. unfold guarded_write. apply wp_try_except, wp_bind.
  eapply wp_mono; [exact Hw| |].
  - intros [] w' Hm. by apply wp_ret.
  - intros e w' [Hg Hne]. by destruct e.
Qed.

(** [complete] on a terminal row changes nothing. *)
Lemma complete_terminal w tid r res at_ :
  select_task (w_db w) ten tid = Some r -> TERMINAL_TASK_STATES (t_state (row_task r)) = true ->
  wp (complete ten tid res FAILED at_) (fun _ _ => False) (fun _ w' => calm w w') w.
Proof.
  intros Hr Ht. unfold complete. apply wp_bind, wp_check_tenant; [|done]. simpl. apply wp_bind.
  pose proof (update_where_frame ten tid (fun r => negb (TERMINAL_TASK_STATES (t_state (row_task r))))
    (fun r => mkTaskRow (task_with_state (row_task r) FAILED at_) (Some res)) w) as (Fa & Fc & Fi & Fn).
  pose proof (update_where_cases ten tid (fun r => negb (TERMINAL_TASK_STATES (t_state (row_task r))))
    (fun r => mkTaskRow (task_with_state (row_task r) FAILED at_) (Some res)) w) as Hc.
  rewrite Hr, Ht in Hc. simpl in Hc. unfold wp.
  destruct (update_where _ _ _ _ w) as [o w']. simpl in *.
  destruct Hc as [(x & _ & -> & Hd)|[_ [-> Hd]]]; simpl; (split; [by rewrite Hd|done..|by rewrite Fn]).
Qed.

#[local] Hint Resolve quiet_audit quiet_export quiet_load_state quiet_persist quiet_augment
  quiet_cleanup quiet_provision quiet_drive : quiet.

Lemma safe_pause ctx w0 task s w :
  t_tenant_id task = ten -> env_task_id (dm_envelope msg) = Some (t_task_id task) ->
  mid w0 (t_task_id task) RUNNING w -> safe w0 (pause_task ports msg ctx task s) w.
Proof.
  intros Hten Htid Hm. unfold pause_task. eapply safe_quiet_mid; [apply quiet_clock|exact Hm|].
  intros at_ w1 Hm1. apply wp_bind. rewrite Hten.
  eapply wp_mono; [apply wp_guarded_write, wp_set_awaiting, Hm1| |done].
  intros b w2 [-> Hm2]. simpl. eapply safe_quiet_mid; [apply quiet_audit|exact Hm2|].
  intros [] w3 Hm3. apply safe_ack; [by eapply mid_good|]. right. eapply mid_settled; [done|done|by right].
Qed.

Lemma build_result_state task g s a b r st :
  build_result task g s a b = Ok (r, st) -> st = SUCCEEDED \/ st = FAILED.
Proof.
  unfold build_result. intros ([[t err] status] & Hx & Hr)%res_bind_inv.
  apply res_bind_inv in Hr as (r' & _ & [= <- <-]). destruct (error s).
  - apply res_bind_inv in Hx as (e & _ & [= <- <- <-]). by right.
  - injection Hx as <- <- <-. by left.
Qed.

Lemma safe_finish ctx w0 task g s at0 w :
  t_tenant_id task = ten -> env_task_id (dm_envelope msg) = Some (t_task_id task) ->
  mid w0 (t_task_id task) RUNNING w ->
  safe w0 (finish_task ports exn_str exn_name isoformat msg ctx task g s at0) w.
Proof.
  intros Hten Htid Hm. unfold finish_task. eapply safe_quiet_mid; [apply quiet_clock|exact Hm|].
  intros at1 w1 Hm1. apply wp_bind, wp_lift; [|intros; by eapply mid_good].
  intros [res st] Hb. apply build_result_state in Hb.
  eapply safe_quiet_mid; [apply quiet_augment|exact Hm1|]. intros res' w2 Hm2.
  apply wp_bind. rewrite Hten.
  eapply wp_mono; [apply wp_guarded_write, (wp_complete w0 _ RUNNING); done| |done].
  intros b w3 [-> Hm3]. simpl.
  assert (Ht : TERMINAL_TASK_STATES st = true) by by destruct Hb as [-> | ->].
  eapply safe_quiet_mid; [apply quiet_audit|exact Hm3|]. intros [] w4 Hm4.
  eapply safe_quiet_mid; [apply quiet_export|exact Hm4|]. intros [] w5 Hm5.
  apply wp_bind, wp_tame; [apply tame_follow_up|by eapply mid_fresh| |].
  - intros [] w6 E1 E2 E3 E4. pose proof (mid_tame _ _ _ _ _ Hm5 Ht E1 E2 E3 E4) as Hm6.
    apply safe_ack; [by eapply mid_good|]. right. eapply mid_settled; [done|done|by left].
  - intros e w6 E1 E2 E3 E4. eapply mid_good. by apply (mid_tame _ _ _ _ _ Hm5 Ht E1 E2 E3 E4).
Qed.

Lemma safe_run_graph fuel ctx w0 task g ws w :
  registered g -> t_tenant_id task = ten -> env_task_id (dm_envelope msg) = Some (t_task_id task) ->
  TERMINAL_TASK_STATES (t_state task) = false -> mid w0 (t_task_id task) (t_state task) w ->
  safe w0 (run_graph ports exn_str exn_name isoformat fuel msg ctx task g ws) w.
Proof.
  intros Hg Hten Htid Hnt Hm. unfold run_graph.
  eapply safe_quiet_mid; [apply quiet_load_state|exact Hm|]. intros s0 w1 Hm1. cbv zeta.
  assert (Hrest : forall at0 w', mid w0 (t_task_id task) RUNNING w' ->
    safe w0 (s <- drive ports task g fuel
              (match ws with
               | Some ws => with_data s0 (dupdate (data s0)
                   [("_workspace_path", JStr (ws_worktree_path ws));
                    ("_workspace_branch", JStr (ws_branch ws))])
               | None => s0 end) ;;
       if awaiting_approval s then pause_task ports msg ctx task s
       else finish_task ports exn_str exn_name isoformat msg ctx task g s at0) w').
  { intros at0 w' Hm'. eapply safe_quiet_mid; [by apply quiet_drive|exact Hm'|].
    intros s w2 Hm2. destruct (awaiting_approval s); [by apply safe_pause|by apply safe_finish]. }
  apply wp_bind. destruct (bool_decide_reflect (t_state task = RUNNING)) as [Hrun|].
  - apply wp_ret, Hrest. by rewrite <- Hrun.
  - apply wp_bind, wp_quiet; [apply quiet_clock| |intros; eapply good_calm; [by eapply mid_good|done]].
    intros at0 w2 Hc. apply wp_bind. rewrite Hten.
    eapply wp_mono; [eapply wp_update_state; [by eapply mid_calm|done]| |done].
    intros [] w3 Hm3. by apply wp_ret, Hrest.
Qed.

(** The primary key of a row is its [task_id] column. *)
Definition keyed (d : Db) : Prop :=
  forall id r, db_tasks d !! id = Some r -> t_task_id (row_task r) = id.

(** The world right after [get_task] found the row of the message. *)
Lemma found_mid w0 w tid r :
  fresh_ids w0 -> calm w0 w -> select_task (w_db w0) ten tid = Some r ->
  mid w0 tid (t_state (row_task r)) w.
Proof.
  intros Hf Hc Hr. split; [by apply calm_evolves|by eapply fresh_calm|by apply calm_ctx|by apply calm_acked|].
  exists r. by rewrite (select_task_calm _ _ _ _ Hc).
Qed.

Lemma wp_get_task tid (Q : option Task -> World -> Prop) (E : exn -> World -> Prop) w :
  (forall w', calm w w' -> Q (row_task <$> select_task (w_db w) ten tid) w') ->
  (forall e w', calm w w' -> E e w') -> wp (get_task ten tid) Q E w.
Proof.
  intros HQ HE. pose proof (quiet_get_task ten tid w) as Hq. revert Hq.
  unfold wp, get_task, bind, db_call, get, ret.
  destruct (check_tenant ten w) as [[[]|e] w1] eqn:Hc; apply check_tenant_inv in Hc as [-> _];
    [|by intros; apply HE]. destruct (w_fault w (w_ops w)); simpl; intros Hq; [by apply HE|].
  by apply HQ.
Qed.

Lemma safe_dispatch_task fuel ctx w0 w tid r :
  keyed (w_db w0) -> fresh_ids w0 -> calm w0 w -> env_task_id (dm_envelope msg) = Some tid ->
  select_task (w_db w0) ten tid = Some r -> TERMINAL_TASK_STATES (t_state (row_task r)) = false ->
  safe w0 (dispatch_task registry ports exn_str exn_name isoformat fuel msg ctx (row_task r)) w.
Proof.
  intros Hk Hf Hc Htid Hr Hnt. pose proof (found_mid w0 w tid r Hf Hc Hr) as Hm.
  pose proof Hr as [Hrow Hten]%select_task_Some. pose proof (Hk _ _ Hrow) as Hid.
  unfold dispatch_task. apply wp_bind, wp_lift; [|intros; by eapply mid_good].
  intros g Hres. pose proof (resolve_registered _ _ _ Hres) as Hg.
  destruct (requires_workspace registry (g_graph_id g)) eqn:Hreq; cycle 1.
  { apply safe_run_graph; rewrite ?Hid; done. }
  destruct (p_workspaces ports) as [wm|] eqn:Hwm; cycle 1.
  { apply safe_quiet_good; [apply quiet_audit|by eapply mid_good|].
    intros [] w' Hg' _. apply safe_ack; [done|]. left. unfold droppable. rewrite Htid, Hr. eauto. }
  eapply safe_quiet_mid; [|exact Hm|].
  { apply quiet_try_except; [by apply quiet_provision|]. intros e k Hh. quiet_tac. }
  intros ws w' Hm'. apply wp_try_finally.
  eapply wp_mono; [apply safe_run_graph; rewrite ?Hid; done| |].
  - intros [] w2 Hg2. apply (safe_quiet w0 _ w2); [by apply quiet_cleanup|done].
  - intros e w2 Hg2. apply (safe_quiet w0 _ w2); [by apply quiet_cleanup|done].
Qed.

Lemma safe_audit_ack ctx action payload w0 w :
  good w0 w -> droppable w0 \/ (forall w', calm w w' -> settled w') ->
  safe w0 (audit ports ctx action payload ;;; ack (dm_entry_id msg)) w.
Proof.
  intros Hg Hr. apply safe_quiet_good; [apply quiet_audit|done|].
  intros [] w' Hg' Hc. apply safe_ack; [done|]. destruct Hr; [by left|right; auto].
Qed.

Lemma found_settled w0 tid r w :
  env_task_id (dm_envelope msg) = Some tid -> select_task (w_db w0) ten tid = Some r ->
  TERMINAL_TASK_STATES (t_state (row_task r)) = true -> calm w0 w -> settled w.
Proof.
  intros Htid Hr Ht Hc. exists tid, r. split_and!; [done|by rewrite (select_task_calm _ _ _ _ Hc)|by left].
Qed.

Lemma safe_dispatch fuel ctx w0 :
  keyed (w_db w0) -> fresh_ids w0 ->
  safe w0 (dispatch registry ports exn_str exn_name isoformat fuel msg ctx) w0.
Proof.
  intros Hk Hf. unfold dispatch. destruct (env_task_id (dm_envelope msg)) as [tid|] eqn:Htid; cycle 1.
  { apply safe_audit_ack; [by apply start_good|]. left. unfold droppable. by rewrite Htid. }
  apply wp_bind, wp_get_task; [|intros; eapply good_calm; [by apply start_good|done]].
  intros w Hc. destruct (select_task (w_db w0) ten tid) as [r|] eqn:Hr; simpl; cycle 1.
  { apply safe_audit_ack; [eapply good_calm; [by apply start_good|done]|].
    left. unfold droppable. by rewrite Htid, Hr. }
  destruct (TERMINAL_TASK_STATES (t_state (row_task r))) eqn:Ht; [|by eapply safe_dispatch_task].
  apply safe_audit_ack; [eapply good_calm; [by apply start_good|done]|].
  right. intros w' Hc'. eapply found_settled; [done..|by etrans].
Qed.

(** The tail of [_abandon]: an [EXPIRED] row is refused by the guarded write,
    which the handler suppresses; any other row becomes [FAILED]. *)
Lemma safe_abandon_write ctx w0 w4 tid r res at1 :
  fresh_ids w0 -> calm w0 w4 -> env_task_id (dm_envelope msg) = Some tid ->
  select_task (w_db w0) ten tid = Some r ->
  safe w0
    (try_except (complete ten tid res FAILED at1 ;;;
                 export_trajectory ports exn_name isoformat ctx (row_task r) FAILED res)
       (fun e => match e with IllegalTaskTransitionError => Some (ret tt) | _ => None end) ;;;
     ack (dm_entry_id msg)) w4.
Proof.
  intros Hf Hc04 Htid Hr. pose proof (found_mid w0 w4 tid r Hf Hc04 Hr) as Hm.
  apply wp_bind, wp_try_except, wp_bind.
  destruct (TERMINAL_TASK_STATES (t_state (row_task r))) eqn:Ht.
  - eapply wp_mono; [apply (complete_terminal w4 tid r); [by rewrite (select_task_calm _ _ _ _ Hc04)|done]
                    |done|].
    intros e w5 Hc5. assert (Hg5 : good w0 w5) by (eapply good_calm; [by eapply mid_good|done]).
    destruct e; try exact Hg5. apply wp_ret, safe_ack; [done|].
    right. eapply found_settled; [done..|by etrans].
  - eapply wp_mono;
      [apply (wp_complete w0 tid (t_state (row_task r)) res at1 FAILED); [exact Hm|done|by right]| |].
    + intros [] w5 Hm5. eapply wp_quiet; [apply quiet_export| |].
      * intros [] w6 Hc6. apply safe_ack; [eapply good_calm; [by eapply mid_good|done]|].
        right. eapply mid_settled; [by eapply mid_calm|done|by left].
      * intros e w6 Hc6. pose proof (mid_calm _ _ _ _ _ Hm5 Hc6) as Hm6.
        destruct e; try (by eapply mid_good). apply wp_ret, safe_ack; [by eapply mid_good|].
        right. eapply mid_settled; [done..|by left].
    + intros e w5 [Hg5 Hne]. by destruct e.
Qed.

Lemma safe_abandon ctx reason w0 :
  keyed (w_db w0) -> fresh_ids w0 ->
  safe w0 (abandon registry ports exn_name isoformat msg ctx reason) w0.
Proof.
  intros Hk Hf. pose proof (start_good w0 Hf) as Hg0. unfold abandon.
  apply safe_quiet_good; [apply quiet_audit|done|]. intros [] w1 Hg1 Hc1.
  destruct (env_task_id (dm_envelope msg)) as [tid|] eqn:Htid; cycle 1.
  { apply safe_ack; [done|]. left. unfold droppable. by rewrite Htid. }
  apply wp_bind, wp_get_task; [|intros; by eapply good_calm]. intros w2 Hc2.
  assert (Hc : calm w0 w2) by by etrans. pose proof (good_calm _ _ _ Hg0 Hc) as Hg2.
  rewrite (select_task_calm _ _ _ _ Hc1).
  destruct (select_task (w_db w0) ten tid) as [r|] eqn:Hr; simpl; cycle 1.
  { apply safe_ack; [done|]. left. unfold droppable. by rewrite Htid, Hr. }
  pose proof Hr as [Hrow Hten]%select_task_Some. pose proof (Hk _ _ Hrow) as Hid.
  destruct (abandon_leaves (t_state (row_task r))) eqn:Hl.
  { apply safe_ack; [done|]. right. eapply found_settled; [done..| |done]. by destruct (t_state (row_task r)). }
  apply wp_bind, wp_lift; [|done]. intros g _.
  apply safe_quiet_good; [apply quiet_latest|done|]. intros cp w3 Hg3 Hc3.
  apply safe_quiet_good; [apply quiet_clock|done|]. intros at1 w4 Hg4 Hc4.
  apply wp_bind, wp_lift; [|done]. intros err _. apply wp_bind, wp_lift; [|done]. intros res _.
  assert (Hc04 : calm w0 w4) by (etrans; [exact Hc|by etrans]).
  rewrite Hten, Hid. by eapply safe_abandon_write.
Qed.

Lemma fresh_set_ctx c w : fresh_ids (with_ctx c w) <-> fresh_ids w.
Proof. done. Qed.

(** C1: handling one delivery is safe, whatever fails on the way.  For every
    graph and port that leaves the task table alone, every task row moves
    along the lifecycle only (terminal rows keep state and result), the
    request context is restored, and the only entry that can be acknowledged
    is the message's own: either there is nothing to run (no task id, no such
    task for the tenant, or a graph that needs a workspace manager the worker
    does not have), or the task is terminal or paused for approval when the
    handler returns.  A task that is still to be run keeps its message. *)
Theorem handle_safe fuel w :
  keyed (w_db w) -> fresh_ids w ->
  let w' := (handle registry ports max_attempts exn_str exn_name isoformat fuel msg w).2 in
  evolves (w_db w) (w_db w') /\ w_ctx w' = w_ctx w /\
  forall e, e ∈ w_acked w' ->
    e ∈ w_acked w \/ (e = dm_entry_id msg /\ (droppable w \/ settled w')).
Proof.
  intros Hk Hf. cbv zeta. unfold handle, bind_context.
  set (c := envelope_to_context (dm_envelope msg)).
  set (body := if max_attempts <? dm_delivery_count msg then _ else _).
  assert (Hs : safe (set_ctx (Some c) w) body (set_ctx (Some c) w)).
  { unfold body. destruct (max_attempts <? dm_delivery_count msg); [by apply safe_abandon|].
    apply wp_try_except. eapply wp_mono; [by apply safe_dispatch|done|].
    intros e w' Hg. by destruct (is_exception e). }
  unfold safe, wp in Hs. destruct (body (set_ctx (Some c) w)) as [[[]|e] w1];
    destruct Hs as [He _ _ Ha]; simpl; split_and!; try done; exact Ha.
Qed.

(** A poison message is never drained.  When the task's graph cannot be
    resolved, no number of deliveries acknowledges the message or changes
    the task table; below the redelivery cap the failure is swallowed, and
    above it the handler itself raises, out of [run_once] and the worker
    loop. *)
Theorem poison_never_acked fuel w tid r e :
  env_task_id (dm_envelope msg) = Some tid ->
  select_task (w_db w) ten tid = Some r ->
  TERMINAL_TASK_STATES (t_state (row_task r)) = false ->
  resolve registry (t_task_type (row_task r)) (t_graph_id (row_task r)) = Err e ->
  let out := handle registry ports max_attempts exn_str exn_name isoformat fuel msg w in
  w_acked out.2 = w_acked w /\ db_tasks (w_db out.2) = db_tasks (w_db w) /\
  (max_attempts < dm_delivery_count msg -> exists x, out.1 = Err x).
Proof.
  intros Htid Hr Hnt Hres. cbv zeta. unfold handle, bind_context.
  set (c := envelope_to_context (dm_envelope msg)). set (w0 := set_ctx (Some c) w).
  assert (Hsel : select_task (w_db w0) ten tid = Some r) by done.
  destruct (Z.ltb_spec max_attempts (dm_delivery_count msg)) as [Hlt|Hge].
  - assert (Hs : wp (abandon registry ports exn_name isoformat msg c "delivery_count_exceeded")
                   (fun _ _ => False) (fun _ => calm w0) w0).
    { unfold abandon. rewrite Htid. apply wp_bind, wp_quiet; [apply quiet_audit| |done].
      intros [] w1 Hc1. apply wp_bind, wp_get_task; [|intros; by etrans].
      intros w2 Hc2. rewrite (select_task_calm _ _ _ _ Hc1), Hsel. simpl.
      destruct (abandon_leaves (t_state (row_task r))) eqn:Hl.
      { by destruct (t_state (row_task r)). }
      rewrite Hres. change (calm w0 w2). by etrans. }
    unfold wp in Hs. destruct (abandon _ _ _ _ _ _ _ w0) as [[[]|x] w1]; [done|].
    simpl. split_and!; [apply (calm_acked _ _ Hs)|apply (calm_tasks _ _ Hs)|by exists x].
  - assert (Hs : wp (try_except (dispatch registry ports exn_str exn_name isoformat fuel msg c)
                       (fun e => if is_exception e then Some (ret tt) else None))
                   (fun _ => calm w0) (fun _ => calm w0) w0).
    { apply wp_try_except. eapply wp_mono with (Q := fun _ => calm w0) (E := fun _ => calm w0); [|done|].
      2: { intros x w' Hc. by destruct (is_exception x). }
      unfold dispatch. rewrite Htid. apply wp_bind, wp_get_task; [|done].
      intros w2 Hc2. rewrite Hsel. simpl. rewrite Hnt. unfold dispatch_task. rewrite Hres. done. }
    unfold wp in Hs. destruct (try_except _ _ w0) as [[[]|x] w1]; simpl;
      (split_and!; [apply (calm_acked _ _ Hs)|apply (calm_tasks _ _ Hs)|lia]).
Qed.
End Handle.
