(* ===== verification/WorkerRuns.v ===== *)
(** * WorkerRuns: results, redelivery, recovery and session history

    Functional facts about the parts of the worker that [WorkerFacts] treats
    as opaque. *)

From S2P Require Import Prelude Domain GraphRuntime Gates Results Persistence PersistenceFacts Worker WorkerFacts.
Import Registry.

(** ** The terminal result *)

(** The terminal result agrees with the run.  When a finished state can be
    turned into a result at all, the result satisfies the public contract
    (failed exactly when it carries an error, finish not before start), the
    task state written is [FAILED] exactly when the run reported an error, the
    error message and sequence are the run's own, and a non-dictionary output
    is dropped.  It cannot be built exactly when the reported error is empty or
    the clock ran backwards. *)
Theorem build_result_spec task (g : Graph World) s a b :
  nonempty (t_task_id task) = true -> nonempty (t_tenant_id task) = true ->
  nonempty (t_trace_id task) = true -> nonempty (g_graph_id g) = true -> 0 <= sequence s ->
  match build_result task g s a b with
  | Ok (r, st) =>
      result_contract r /\ (st = SUCCEEDED \/ st = FAILED) /\
      (st = FAILED <-> is_Some (error s)) /\ te_message <$> tr_error r = error s /\
      tr_node_sequence r = sequence s /\ tr_output r = as_dict (getd (data s) "output")
  | Err e => (exists m, e = ValidationError m) /\ (error s = Some "" \/ b < a)
  end.
Proof.
  intros H1 H2 H3 H4 H5. apply Z.leb_le in H5.
  unfold build_result, make_task_error, check_task_result.
  destruct (error s) as [m|]; [destruct (nonempty m) eqn:Hm|]; simpl.
  - rewrite H1, H2, H3, H4, H5. simpl. destruct (Z.ltb_spec b a); simpl; [eauto|].
    apply Z.leb_le in H5. unfold result_contract. simpl. split_and!; try done; try (by right).
    all: split; try done; by eexists.
  - split; [by eexists|]. left. f_equal. apply not_true_iff_false in Hm. rewrite nonempty_true in Hm.
    destruct m; [done|]. by destruct Hm.
  - rewrite H1, H2, H3, H4, H5. simpl. destruct (Z.ltb_spec b a); simpl; [eauto|].
    apply Z.leb_le in H5. unfold result_contract. simpl. split_and!; try done; try (by left).
    all: split; try done; by intros [? ?].
Qed.

(** ** The graph loop *)

(** Fuel is only a device of the model.  A run of the worker's uncapped
    loop that does not exhaust its fuel has the same outcome and the same
    effects with any larger fuel. *)
Theorem drive_fuel_irrelevant ports task (g : Graph World) n k s w r w' :
  drive ports task g n s w = (r, w') -> r <> Err OutOfFuel ->
  drive ports task g (n + k) s w = (r, w').
Proof.
  revert s w. induction n as [|n IH]; intros s w; simpl.
  - destruct (finished s || awaiting_approval s) eqn:E.
    + destruct k; simpl; by rewrite E.
    + intros [= <- <-]. done.
  - destruct (finished s || awaiting_approval s); [done|]. unfold bind.
    destruct (step g s w) as [[s1|e] w1]; [|done].
    destruct (persist_step ports task s1 w1) as [[[]|e] w2]; [|done]. apply IH.
Qed.

(** Each turn of the loop appends at most the checkpoint of the state it
    reached; the loop stops only on a state that is finished or paused. *)
Lemma drive_stops ports task (g : Graph World) n s w s' w' :
  drive ports task g n s w = (Ok s', w') -> finished s' || awaiting_approval s' = true.
Proof.
  revert s w. induction n as [|n IH]; intros s w; simpl;
    (destruct (finished s || awaiting_approval s) eqn:E; [by intros [= <- _]|]); [done|].
  unfold bind. destruct (step g s w) as [[s1|e] w1]; [|done].
  destruct (persist_step ports task s1 w1) as [[[]|e] w2]; [|done]. apply IH.
Qed.

(** ** Redelivery of a finished task *)

(** Everything but the audit log is as it was. *)
Definition same_work (d d' : Db) : Prop :=
  db_tasks d' = db_tasks d /\ db_checkpoints d' = db_checkpoints d /\ db_outbox d' = db_outbox d.

#[global] Instance same_work_pre : PreOrder same_work.
Proof. split; [by repeat split|]. intros a b c (?&?&?) (?&?&?). repeat split; congruence. Qed.

Lemma respects_bind_at {A B} R `{!PreOrder R} (m : M World A) (k : A -> M World B) w :
  respects R m -> (forall a w', m w = (Ok a, w') -> R (w_db w') (w_db (k a w').2)) ->
  R (w_db w) (w_db (bind m k w).2).
Proof.
  intros Hm Hk. specialize (Hm w). unfold bind. destruct (m w) as [[a|e] w1] eqn:E; simpl in *; [|done].
  etransitivity; [exact Hm|by apply Hk].
Qed.

Section Redelivery.
Context {Deps : Type} (registry : GraphRegistry World Deps) (ports : Ports).
Context (max_attempts : Z) (exn_str exn_name : exn -> string) (isoformat : Z -> string).
Context (msg : DeliveredMessage).
Notation ten := (env_tenant_id (dm_envelope msg)).
Notation handle_msg fuel := (handle registry ports max_attempts exn_str exn_name isoformat fuel msg).

Lemma respects_audit ctx a p :
  (forall f e, p_fanout ports = Some f -> respects same_work (f e)) ->
  respects same_work (audit ports ctx a p).
Proof.
  intros Hf. unfold audit, append_audit. respects_tac. intros w. by repeat split.
Qed.

(** Redelivering a finished task runs nothing.  Below the redelivery
    cap, a message for a terminal task touches neither a task row nor a
    checkpoint nor the outbox, whatever its graph: so neither the result nor
    the chained follow-up is produced a second time, and a follow-up lost
    between the terminal write and its submission is not produced at all. *)
Theorem terminal_redelivery_drains fuel w tid r :
  (forall f e, p_fanout ports = Some f -> respects same_work (f e)) ->
  env_task_id (dm_envelope msg) = Some tid ->
  select_task (w_db w) ten tid = Some r ->
  TERMINAL_TASK_STATES (t_state (row_task r)) = true ->
  dm_delivery_count msg <= max_attempts ->
  same_work (w_db w) (w_db (handle_msg fuel w).2).
Proof.
  intros Hf Htid Hr Ht Hle. unfold handle, bind_context. apply Z.ltb_ge in Hle. rewrite Hle.
  set (w0 := set_ctx _ w).
  assert (Hd : same_work (w_db w0) (w_db (dispatch registry ports exn_str exn_name isoformat fuel msg
                 (envelope_to_context (dm_envelope msg)) w0).2)).
  { unfold dispatch. rewrite Htid. apply respects_bind_at; [apply _|respects_tac|].
    intros o w1 Hg. unfold get_task, bind, db_call, get, ret in Hg.
    destruct (check_tenant ten w0) as [[[]|e] w2] eqn:Hc; apply check_tenant_inv in Hc as [-> _]; [|done].
    destruct (w_fault w0 (w_ops w0)); [done|]. simpl in Hg. rewrite Hr in Hg. simplify_eq/=. rewrite Ht.
    match goal with |- same_work (w_db ?a) (w_db (?m ?b).2) =>
      enough (Hm : respects same_work m) by apply (Hm b) end.
    respects_tac. by apply respects_audit. }
  unfold try_except. destruct (dispatch _ _ _ _ _ _ _ _ w0) as [[[]|e] w1]; [exact Hd|].
  by destruct (is_exception e).
Qed.
End Redelivery.

(** ** Listings *)

Lemma limit_tasks_spec n key p d t :
  t ∈ limit_tasks n (order_by key (rows_where p d)) ->
  exists id r, db_tasks d !! id = Some r /\ p r = true /\ t = row_task r.
Proof.
  unfold limit_tasks, order_by, rows_where. intros Ht.
  apply list_elem_of_fmap in Ht as (r & -> & Hr). apply elem_of_take in Hr as (i & Hi & _).
  apply list_elem_of_lookup_2 in Hi. rewrite merge_sort_Permutation in Hi.
  apply list_elem_of_In, filter_In in Hi as [Hi Hp]. apply list_elem_of_In in Hi.
  apply list_elem_of_fmap in Hi as ([id r'] & -> & Hm). exists id, r'.
  split_and!; [by apply elem_of_map_to_list|done|done].
Qed.

Lemma limit_tasks_length n key p d : (length (limit_tasks n (order_by key (rows_where p d))) <= n)%nat.
Proof. unfold limit_tasks. rewrite length_map, length_take. lia. Qed.

(** ** Recovery after a crash *)

Section Recovery.
Context (ports : Ports) (task_topic : string) (exn_name : exn -> string).
Context (Hfan : forall f e, p_fanout ports = Some f -> respects same_work (f e)).

(** The event that re-enqueues [t], as stored. *)
Definition recovery_row (t : Task) (r : OutboxRow) : Prop :=
  ob_aggregate_id (or_event r) = t_task_id t /\ ob_tenant_id (or_event r) = t_tenant_id t /\
  ob_topic (or_event r) = task_topic /\ ob_status (or_event r) = OB_PENDING /\
  ob_payload (or_event r) = t_input_payload t.

Definition recovered (t : Task) (w : World) (c c' : Z) (w' : World) : Prop :=
  db_tasks (w_db w') = db_tasks (w_db w) /\
  ((c' = c /\ db_outbox (w_db w') = db_outbox (w_db w)) \/
   (c' = c + 1 /\ exists r, recovery_row t r /\ db_outbox (w_db w') = db_outbox (w_db w) ++ [r])).

Lemma wp_respects {A} R (m : M World A) (Q : A -> World -> Prop) E w :
  respects R m -> (forall a w', R (w_db w) (w_db w') -> Q a w') ->
  (forall e w', R (w_db w) (w_db w') -> E e w') -> wp m Q E w.
Proof. intros Hm HQ HE. specialize (Hm w). unfold wp. destruct (m w) as [[a|e] w']; auto. Qed.

Lemma wp_enqueue e w :
  wp (enqueue e)
     (fun _ w' => db_tasks (w_db w') = db_tasks (w_db w) /\
        db_outbox (w_db w') = db_outbox (w_db w) ++ [mkOutboxRow e None (Some (ob_created_at e))])
     (fun _ w' => w_db w' = w_db w) w.
Proof.
  unfold enqueue. apply wp_bind, wp_check_tenant; [|done].
  unfold enqueue_in_conn. apply wp_bind, wp_check_tenant; [|done]. unfold wp, bind, db_call.
  destruct (w_fault w (w_ops w)); [done|]. simpl. by destruct (outbox_conflict _ _).
Qed.

Lemma wp_recover_one t c w :
  wp (recover_one ports task_topic exn_name t c) (recovered t w c) (fun _ _ => True) w.
Proof.
  unfold recover_one. apply wp_bind. unfold wp at 1. simpl. apply wp_bind. unfold wp at 1. simpl.
  match goal with |- wp _ _ _ ?v => set (w1 := v) end. apply wp_bind. unfold wp at 1, bind_context.
  match goal with |- context [?body (set_ctx ?c ?v)] => set (w2 := set_ctx c v);
    set (m := body) end.
  assert (Hm : wp m (fun b w' => recovered t w2 c (if b then c + 1 else c) w') (fun _ _ => True) w2).
  { unfold m. apply wp_bind, wp_try_except, wp_bind. eapply wp_mono; [apply wp_enqueue| |].
    - intros [] w3 [Ht Ho]. apply wp_ret. simpl. apply wp_bind.
      eapply wp_respects; [by apply respects_audit| |done].
      intros [] w4 (Ht4 & _ & Ho4). apply wp_ret. split; [congruence|]. right. split; [done|].
      eexists. split; [|by rewrite Ho4]. done.
    - intros e w3 Hd. destruct (is_exception e); [|done]. apply wp_bind.
      eapply wp_respects; [by apply respects_audit| |done].
      intros [] w4 (Ht4 & _ & Ho4). apply wp_ret. simpl. apply wp_ret. split; [by rewrite Ht4, Hd|].
      left. by rewrite Ho4, Hd. }
  unfold wp in Hm. destruct (m w2) as [[b|e] w3]; [|done]. apply wp_ret. by destruct b.
Qed.

(** Recovery re-enqueues what was running and nothing else.  When
    [recover_in_flight] returns [n], exactly [n] outbox rows were appended,
    each a pending command for a task that is [RUNNING] in the table, for
    that task's own tenant and with its input payload; no task row changed,
    and [n] is at most the limit. *)
Theorem recover_in_flight_spec limit w n w' :
  recover_in_flight ports task_topic exn_name limit w = (Ok n, w') ->
  db_tasks (w_db w') = db_tasks (w_db w) /\
  exists rows, db_outbox (w_db w') = db_outbox (w_db w) ++ rows /\
    n = Z.of_nat (length rows) /\ (length rows <= limit)%nat /\
    forall x, x ∈ rows -> exists id r, db_tasks (w_db w) !! id = Some r /\
      t_state (row_task r) = RUNNING /\ recovery_row (row_task r) x.
Proof.
  unfold recover_in_flight. destruct (p_outbox ports); simpl; cycle 1.
  { intros [= <- <-]. split; [done|]. exists []. rewrite app_nil_r. split_and!; [done|done|simpl; lia|set_solver]. }
  unfold list_running_for_resume, bind at 1 2 3, db_call. simpl.
  destruct (w_fault w (w_ops w)); [done|]. simpl.
  match goal with |- for_each ?l 0 _ ?v = _ -> _ => set (ts := l); set (w1 := v) end.
  assert (Hlen : (length ts <= limit)%nat) by apply limit_tasks_length.
  assert (Hts : forall t, t ∈ ts -> exists id r, db_tasks (w_db w) !! id = Some r /\
            t_state (row_task r) = RUNNING /\ t = row_task r).
  { intros t (id & r & ? & Hp & ->)%limit_tasks_spec. apply bool_decide_eq_true in Hp. eauto. }
  clearbody ts. assert (Hgo : forall c v, for_each ts c (recover_one ports task_topic exn_name) v = (Ok n, w') ->
    db_tasks (w_db w') = db_tasks (w_db v) /\
    exists rows, db_outbox (w_db w') = db_outbox (w_db v) ++ rows /\
      n = c + Z.of_nat (length rows) /\ (length rows <= length ts)%nat /\
      forall x, x ∈ rows -> exists id r, db_tasks (w_db w) !! id = Some r /\
        t_state (row_task r) = RUNNING /\ recovery_row (row_task r) x).
  { clear w1 Hlen. induction ts as [|t ts IH]; intros c v H; simpl in H.
    - injection H as <- <-. split; [done|]. exists []. rewrite app_nil_r. simpl.
      split_and!; [done|lia|lia|set_solver].
    - apply bind_inv_ok in H as (c1 & v1 & H1 & H2). pose proof (wp_run _ _ _ _ _ _ (wp_recover_one t c v) H1) as Hr.
      simpl in Hr. destruct (IH ltac:(set_solver) c1 v1 H2) as (Et & rows & Eo & En & El & Hx).
      destruct Hr as [Ht [[-> Ho]|[-> (r & Hr & Ho)]]].
      + split; [congruence|]. exists rows. rewrite Eo, Ho. simpl. split_and!; [done|done|lia|done].
      + split; [congruence|]. exists (r :: rows). rewrite Eo, Ho, <- app_assoc. simpl.
        split_and!; [done|lia|lia|]. intros x [->|Hin]%elem_of_cons; [|by apply Hx].
        destruct (Hts t ltac:(set_solver)) as (id & row & ? & ? & ->). eauto. }
  intros H. destruct (Hgo 0 w1 H) as (? & rows & ? & -> & ? & ?).
  split; [done|]. exists rows. split_and!; [done|lia|lia|done].
Qed.
End Recovery.

(** ** Session history *)

(** One earlier turn: a succeeded task of the session, other than the current
    one, with its stored result. *)
Definition is_turn (d : Db) (tenant session exclude : string) (turn : string * string) : Prop :=
  exists id r out, db_tasks d !! id = Some r /\
    t_tenant_id (row_task r) = tenant /\ t_session_id (row_task r) = Some session /\
    t_task_id (row_task r) <> exclude /\ t_state (row_task r) = SUCCEEDED /\
    getd (t_input_payload (row_task r)) "user_prompt" = JStr turn.1 /\ turn.1 <> "" /\
    (exists r', select_task d tenant (t_task_id (row_task r)) = Some r' /\
       tr_output <$> row_result r' = Some (Some out)) /\
    getd out "assistant_message" = JStr turn.2 /\ turn.2 <> "".

Definition thread (turns : list (string * string)) : list json :=
  flat_map (fun t => [chat "user" t.1; chat "assistant" t.2]) turns.

Lemma wp_assistant_message t w :
  wp (assistant_message_of t)
     (fun o w' => w_db w' = w_db w /\
        o = (row ← select_task (w_db w) (t_tenant_id t) (t_task_id t);
             res ← row_result row; out ← tr_output res;
             as_nonempty_str (getd out "assistant_message")))
     (fun _ w' => w_db w' = w_db w) w.
Proof.
  unfold assistant_message_of, get_result. apply wp_bind, wp_bind, wp_check_tenant; [|done].
  unfold wp, bind, db_call. destruct (w_fault w (w_ops w)); [done|]. simpl. split; [done|].
  destruct (select_task _ _ _) as [row|]; [|done]. simpl. destruct (row_result row) as [res|]; [|done].
  simpl. by destruct (tr_output res).
Qed.

Lemma wp_prior_turn tenant session exclude t msgs w :
  (exists id r, db_tasks (w_db w) !! id = Some r /\ t = row_task r /\
     t_tenant_id (row_task r) = tenant /\ t_session_id (row_task r) = Some session) ->
  wp (prior_turn exclude t msgs)
     (fun out w' => w_db w' = w_db w /\
        (out = msgs \/ exists turn, is_turn (w_db w) tenant session exclude turn /\
                                    out = msgs ++ thread [turn]))
     (fun _ w' => w_db w' = w_db w) w.
Proof.
  intros (id & r & Hr & -> & Hten & Hses). unfold prior_turn.
  destruct (String.eqb_spec (t_task_id (row_task r)) exclude) as [|Hne]; [by split; [|left]|].
  destruct (bool_decide_reflect (t_state (row_task r) = SUCCEEDED)) as [Hst|]; simpl; [|by split; [|left]].
  apply wp_bind. eapply wp_mono; [apply wp_assistant_message| |done].
  intros o w1 [Hd ->]. unfold user_prompt_of.
  destruct (as_nonempty_str (getd _ "user_prompt")) as [u|] eqn:Hu; [|by split; [|left]].
  rewrite Hten. destruct (select_task (w_db w) tenant _) as [row|] eqn:Hsel; simpl; [|by split; [|left]].
  destruct (row_result row) as [res|] eqn:Hres; simpl; [|by split; [|left]].
  destruct (tr_output res) as [out|] eqn:Hout; simpl; [|by split; [|left]].
  destruct (as_nonempty_str (getd out _)) as [a|] eqn:Ha; [|by split; [|left]].
  apply as_nonempty_str_Some in Hu as [Hu Hu'], Ha as [Ha Ha'].
  split; [done|]. right. exists (u, a). split; [|done]. exists id, r, out.
  split_and!; try done. exists row. split; [done|]. by rewrite Hres, <- Hout.
Qed.

Lemma thread_app l l' : thread (l ++ l') = thread l ++ thread l'.
Proof. apply flat_map_app. Qed.

(** The history handed to a new turn is a clean conversation.  When
    [build_prior_messages] returns, the list is a sequence of user/assistant
    pairs, each taken from a succeeded task of that session and tenant other
    than the current one, with the prompt and the answer it stored; there are
    at most [limit + 1] pairs. *)
Theorem prior_messages_thread tenant session exclude limit w msgs w' :
  build_prior_messages tenant session exclude limit w = (Ok msgs, w') ->
  0 < limit /\
  exists turns, msgs = thread turns /\ Z.of_nat (length turns) <= limit + 1 /\
    forall t, t ∈ turns -> is_turn (w_db w) tenant session exclude t.
Proof.
  unfold build_prior_messages. destruct (Z.leb_spec limit 0) as [|Hpos]; [done|]. intros H. split; [done|].
  apply bind_inv_ok in H as (ts & w1 & Hl & H).
  assert (Hts : w_db w1 = w_db w /\ (length ts <= Z.to_nat (limit + 1))%nat /\ forall t, t ∈ ts ->
    exists id r, db_tasks (w_db w) !! id = Some r /\ t = row_task r /\
      t_tenant_id (row_task r) = tenant /\ t_session_id (row_task r) = Some session).
  { revert Hl. unfold list_by_session, bind, db_call, get, ret.
    destruct (check_tenant tenant w) as [[[]|e] v] eqn:Hc; apply check_tenant_inv in Hc as [-> _]; [|done].
    destruct (w_fault w (w_ops w)); [done|]. simpl. intros [= <- <-]. simpl.
    split_and!; [done|apply limit_tasks_length|].
    intros t (id & r & Hr & Hp & ->)%limit_tasks_spec. apply andb_true_iff in Hp as [Hp1 Hp2].
    apply String.eqb_eq in Hp1. apply bool_decide_eq_true in Hp2. eauto 7. }
  destruct Hts as (Hd & Hlen & Hts).
  assert (Hgo : forall acc v, w_db v = w_db w -> for_each ts (thread acc) (prior_turn exclude) v = (Ok msgs, w') ->
    exists turns, msgs = thread (acc ++ turns) /\ (length turns <= length ts)%nat /\
      forall t, t ∈ turns -> is_turn (w_db w) tenant session exclude t).
  { clear Hlen H Hl. induction ts as [|t ts IH]; intros acc v Hv H; simpl in H.
    - injection H as <- _. exists []. rewrite app_nil_r. split_and!; [done|done|set_solver].
    - apply bind_inv_ok in H as (m1 & v1 & H1 & H2).
      destruct (Hts t ltac:(set_solver)) as (id & r & Hr).
      pose proof (wp_run _ _ _ _ _ _ (wp_prior_turn tenant session exclude t (thread acc) v
        ltac:(exists id, r; by rewrite Hv)) H1) as [Hv1 Hcase]. rewrite Hv in Hv1, Hcase.
      specialize (IH ltac:(set_solver)).
      destruct Hcase as [->|(turn & Ht & ->)].
      + destruct (IH acc v1 Hv1 H2) as (turns & -> & ? & ?). exists turns. simpl. split_and!; [done|lia|done].
      + rewrite <- thread_app in H2. destruct (IH _ v1 Hv1 H2) as (turns & -> & ? & ?).
        exists (turn :: turns). rewrite <- app_assoc. simpl. split_and!; [done|lia|].
        intros x [->|Hx]%elem_of_cons; auto. }
  destruct (Hgo [] w1 Hd H) as (turns & -> & ? & ?). exists turns. split_and!; [done|lia|done].
Qed.
