(* ===== verification/Outbox.v ===== *)
(** * Outbox: the dispatcher that relays outbox rows to the queue

    [infra/persistence/outbox_dispatcher.py].  The publisher is a port; the
    rows, [claim_pending], [mark_dispatched] and [mark_failed] are those of
    [Persistence]. *)

From S2P Require Import Prelude Domain GraphRuntime Results Persistence PersistenceFacts.

Definition event_to_envelope (e : OutboxEvent) (enqueued_at : Z) : MessageEnvelope :=
  let task_id := if String.eqb (ob_aggregate_type e) "task" then Some (ob_aggregate_id e) else None in
  mkEnvelope (ob_event_id e) (ob_topic e) (ob_tenant_id e) (ob_trace_id e) (ob_idempotency_key e)
    None None task_id None (Some (ob_aggregate_type e)) (Some (ob_aggregate_id e))
    (ob_aggregate_type e) (ob_payload e) (ob_attempts e) (ob_created_at e) enqueued_at.

Definition event_to_context (e : OutboxEvent) : RequestContext :=
  mkContext (ob_tenant_id e) "system" (ob_trace_id e) (ob_event_id e) None None
    (Some (ob_idempotency_key e)).

(** [DispatcherConfig]; the two [timedelta]s in microseconds. *)
Record DispatcherConfig : Type := mkDispatcherConfig {
  dc_batch_size : nat;
  dc_max_attempts : Z;
  dc_base_backoff : Z;
  dc_max_backoff : Z
}.
Definition default_config : DispatcherConfig := mkDispatcherConfig 32 8 1000000 300000000.

Section Dispatcher.
Context (config : DispatcherConfig) (publish : MessageEnvelope -> M World unit).
Context (exn_str : exn -> string).

Definition backoff (attempts : Z) : Z :=
  Z.min (dc_base_backoff config * 2 ^ attempts) (dc_max_backoff config).

Definition handle_failure (event : OutboxEvent) (exc : exn) : M World unit :=
  let next_attempt := ob_attempts event + 1 in
  let terminal := dc_max_attempts config <=? next_attempt in
  next_at <- (if terminal then ret None
              else now <- clock ;; ret (Some (now + backoff (ob_attempts event)))) ;;
  mark_failed (ob_event_id event) (exn_str exc) next_at terminal.

Definition dispatch_one (event : OutboxEvent) : M World unit :=
  let ctx := event_to_context event in
  now <- clock ;;
  let envelope := event_to_envelope event now in
  published <- try_except (bind_context ctx (publish envelope) ;;; ret true)
    (fun e => if is_exception e then Some (handle_failure event e ;;; ret false) else None) ;;
  if negb published then ret tt
  else now <- clock ;; mark_dispatched (ob_event_id event) now.

Definition outbox_run_once : M World Z :=
  now <- clock ;;
  events <- claim_pending (dc_batch_size config) now ;;
  for_each events tt (fun e _ => dispatch_one e) ;;;
  ret (Z.of_nat (length events)).
End Dispatcher.

(** ** Backoff *)

(** The retry schedule is bounded and monotone.  With [0 < base <= max]
    every delay lies between the two, the first retry waits exactly the base,
    and each further retry waits at least as long as the one before and at most
    twice as long. *)
Theorem backoff_schedule config n :
  0 < dc_base_backoff config <= dc_max_backoff config -> 0 <= n ->
  dc_base_backoff config <= backoff config n <= dc_max_backoff config /\
  backoff config 0 = dc_base_backoff config /\
  backoff config n <= backoff config (n + 1) <= 2 * backoff config n.
Proof.
  intros Hb Hn. unfold backoff. rewrite Z.pow_add_r, Z.pow_1_r, Z.pow_0_r by lia.
  pose proof (Z.pow_pos_nonneg 2 n ltac:(lia) Hn). split_and!; nia.
Qed.

(** ** What one dispatch does to the table *)

Definition ids_unique (l : list OutboxRow) : Prop := NoDup (map (fun r => ob_event_id (or_event r)) l).

Lemma map_row_ids id f l :
  (forall r, ob_event_id (or_event (f r)) = ob_event_id (or_event r)) ->
  map (fun r => ob_event_id (or_event r)) (map_row id f l) = map (fun r => ob_event_id (or_event r)) l.
Proof.
  intros Hf. unfold map_row. rewrite map_map. apply map_ext. intros r.
  by destruct (String.eqb _ id); [apply Hf|].
Qed.

Lemma map_row_elem id f l x :
  x ∈ map_row id f l <->
  exists r, r ∈ l /\ x = if String.eqb (ob_event_id (or_event r)) id then f r else r.
Proof. unfold map_row. rewrite list_elem_of_fmap. naive_solver. Qed.

(** The row [r] becomes after the dispatch of its event at its current state. *)
Definition row_dispatched (r r' : OutboxRow) : Prop :=
  exists at_, r' = mkOutboxRow (event_with (or_event r) OB_DISPATCHED (ob_attempts (or_event r)) (Some at_))
                     None (or_next_attempt_at r).

Definition row_failed (config : DispatcherConfig) (r r' : OutboxRow) : Prop :=
  let att := ob_attempts (or_event r) + 1 in
  exists err next, r' = mkOutboxRow
      (event_with (or_event r) (if dc_max_attempts config <=? att then OB_FAILED else OB_PENDING) att
         (ob_dispatched_at (or_event r))) (Some err) next /\
    (dc_max_attempts config <= att -> next = None) /\
    (att < dc_max_attempts config -> exists now, next = Some (now + backoff config (ob_attempts (or_event r)))).

Section DispatchFacts.
Context (config : DispatcherConfig) (publish : MessageEnvelope -> M World unit).
Context (exn_str : exn -> string).
(** The broker is not the database. *)
Context (Hpub : forall env w, w_db (publish env w).2 = w_db w).

Lemma wp_publish ctx env (Q : unit -> World -> Prop) (E : exn -> World -> Prop) w :
  (forall w', w_db w' = w_db w -> Q tt w') -> (forall e w', w_db w' = w_db w -> E e w') ->
  wp (bind_context ctx (publish env)) Q E w.
Proof.
  intros HQ HE. unfold wp, bind_context. pose proof (Hpub env (set_ctx (Some ctx) w)) as H.
  destruct (publish env _) as [[[]|e] w']; simpl in *; [by apply HQ|by apply HE].
Qed.

Lemma mark_dispatched_db id at_ w :
  w_db (mark_dispatched id at_ w).2 = w_db w \/
  w_db (mark_dispatched id at_ w).2 = with_outbox (map_row id (fun r =>
    mkOutboxRow (event_with (or_event r) OB_DISPATCHED (ob_attempts (or_event r)) (Some at_))
      None (or_next_attempt_at r))) (w_db w).
Proof. unfold mark_dispatched, bind, db_call. destruct (w_fault w _); [by left|by right]. Qed.

Lemma mark_failed_db id err next term w :
  w_db (mark_failed id err next term w).2 = w_db w \/
  w_db (mark_failed id err next term w).2 = with_outbox (map_row id (fun r =>
    mkOutboxRow (event_with (or_event r) (if term then OB_FAILED else OB_PENDING)
                   (ob_attempts (or_event r) + 1) (ob_dispatched_at (or_event r)))
      (Some err) next)) (w_db w).
Proof. unfold mark_failed, bind, db_call. destruct (w_fault w _); [by left|by right]. Qed.

(** Everything a dispatch of [e] may leave behind. *)
Definition dispatch_effect (e : OutboxEvent) (d d' : Db) : Prop :=
  d' = d \/
  exists f, d' = with_outbox (map_row (ob_event_id e) f) d /\
    (forall r, ob_event_id (or_event (f r)) = ob_event_id (or_event r)) /\
    forall r, or_event r = e -> row_dispatched r (f r) \/ row_failed config r (f r).

Lemma handle_failure_effect e x w :
  dispatch_effect e (w_db w) (w_db (handle_failure config exn_str e x w).2).
Proof.
  unfold handle_failure, bind. destruct (Z.leb_spec (dc_max_attempts config) (ob_attempts e + 1)) as [Hle|Hlt]; simpl.
  - destruct (mark_failed_db (ob_event_id e) (exn_str x) None true w) as [->| ->]; [by left|].
    right. eexists. split; [done|]. split; [done|]. intros r <-. right. unfold row_failed.
    apply Z.leb_le in Hle. rewrite Hle. apply Z.leb_le in Hle. do 2 eexists. split; [done|]. split; [done|lia].
  - match goal with |- context [mark_failed ?a ?b ?c ?d ?v] =>
      destruct (mark_failed_db a b c d v) as [->| ->] end; [by left|].
    right. eexists. split; [done|]. split; [done|]. intros r <-. right. unfold row_failed.
    apply Z.leb_gt in Hlt. rewrite Hlt. apply Z.leb_gt in Hlt. do 2 eexists. split; [done|]. split; [lia|eauto].
Qed.

Lemma dispatch_one_effect e w :
  dispatch_effect e (w_db w) (w_db (dispatch_one config publish exn_str e w).2).
Proof.
  assert (H : wp (dispatch_one config publish exn_str e)
                (fun _ w' => dispatch_effect e (w_db w) (w_db w'))
                (fun _ w' => dispatch_effect e (w_db w) (w_db w')) w).
  { unfold dispatch_one. apply wp_bind. unfold wp at 1. simpl. apply wp_bind, wp_try_except, wp_bind.
    apply wp_publish.
    - intros w1 Hd. apply wp_ret. simpl. apply wp_bind. unfold wp at 1. simpl.
      apply (wp_always _ (fun w' => dispatch_effect e (w_db w) (w_db w'))).
      match goal with |- context [mark_dispatched ?a ?b ?v] =>
        destruct (mark_dispatched_db a b v) as [->| ->] end; simpl; rewrite Hd; [by left|].
      right. eexists. split; [done|]. split; [done|]. intros r _. left. by eexists.
    - intros x w1 Hd. destruct (is_exception x); [|by left].
      pose proof (handle_failure_effect e x w1) as Hf. rewrite Hd in Hf.
      unfold wp, bind. simpl in Hf. by destruct (handle_failure config exn_str e x w1) as [[[]|y] w2]. }
  unfold wp in H. by destruct (dispatch_one _ _ _ e w) as [[a|x] w'].
Qed.

(** *** The table invariant *)

Definition row_ok (r : OutboxRow) : Prop :=
  0 <= ob_attempts (or_event r) <= dc_max_attempts config /\
  (ob_status (or_event r) = OB_PENDING -> ob_attempts (or_event r) < dc_max_attempts config) /\
  (ob_status (or_event r) = OB_FAILED -> ob_attempts (or_event r) = dc_max_attempts config).

Definition outbox_inv (d : Db) : Prop :=
  ids_unique (db_outbox d) /\ forall r, r ∈ db_outbox d -> row_ok r.

(** A row that left [PENDING] is never written again, and no row is lost. *)
Definition outbox_progress (d d' : Db) : Prop :=
  forall r, r ∈ db_outbox d -> exists r', r' ∈ db_outbox d' /\
    ob_event_id (or_event r') = ob_event_id (or_event r) /\
    ob_attempts (or_event r) <= ob_attempts (or_event r') /\
    (ob_status (or_event r) <> OB_PENDING -> r' = r).

#[global] Instance outbox_progress_pre : PreOrder outbox_progress.
Proof.
  split; [intros d r Hr; by exists r|].
  intros a b c Hab Hbc r Hr. destruct (Hab r Hr) as (r1 & H1 & E1 & L1 & S1).
  destruct (Hbc r1 H1) as (r2 & H2 & E2 & L2 & S2). exists r2. split_and!; [done|congruence|lia|].
  intros Hs. specialize (S1 Hs). subst r1. auto.
Qed.

Lemma unique_row l a b :
  ids_unique l -> a ∈ l -> b ∈ l ->
  ob_event_id (or_event a) = ob_event_id (or_event b) -> a = b.
Proof.
  unfold ids_unique. induction l as [|x l IH]; simpl; intros Hn Ha Hb E; [set_solver|].
  apply NoDup_cons in Hn as [Hx Hn].
  assert (Hin : forall y, y ∈ l -> ob_event_id (or_event y) ∈ map (fun r => ob_event_id (or_event r)) l).
  { intros y Hy. apply list_elem_of_fmap. eauto. }
  apply elem_of_cons in Ha as [->|Ha], Hb as [->|Hb]; try done; [| |by apply IH].
  - exfalso. apply Hx. rewrite E. by apply Hin.
  - exfalso. apply Hx. rewrite <- E. by apply Hin.
Qed.

Lemma dispatch_keeps e d d' r0 :
  outbox_inv d -> r0 ∈ db_outbox d -> or_event r0 = e -> ob_status e = OB_PENDING ->
  dispatch_effect e d d' ->
  outbox_inv d' /\ outbox_progress d d' /\
  (forall r, r ∈ db_outbox d -> ob_event_id (or_event r) <> ob_event_id e -> r ∈ db_outbox d').
Proof.
  intros [Hu Hok] Hr0 He Hp [->|(f & -> & Hid & Hf)].
  { split_and!; [done|exact (reflexivity _)|done]. }
  assert (Hrow : forall r, r ∈ db_outbox d -> ob_event_id (or_event r) = ob_event_id e -> r = r0).
  { intros r Hr E. apply (unique_row (db_outbox d)); try done. by rewrite E, <- He. }
  destruct (Hok r0 Hr0) as (Hb & Hpend & _). rewrite He in Hpend. specialize (Hpend Hp). rewrite He in Hb.
  assert (Hnew : row_ok (f r0) /\ ob_attempts e <= ob_attempts (or_event (f r0))).
  { unfold row_ok. destruct (Hf r0 He) as [(at_ & ->)|(err & next & -> & _ & _)]; simpl; rewrite He.
    - split; [split_and!; try done; lia|lia].
    - destruct (Z.leb_spec (dc_max_attempts config) (ob_attempts e + 1)); split; try lia;
        split_and!; try done; try lia. }
  split_and!.
  - split; [unfold ids_unique; simpl; by rewrite map_row_ids|].
    intros x. simpl. rewrite map_row_elem. intros (r & Hr & ->).
    destruct (String.eqb_spec (ob_event_id (or_event r)) (ob_event_id e)) as [E|]; [|by apply Hok].
    rewrite (Hrow r Hr E). apply Hnew.
  - intros r Hr. exists (if String.eqb (ob_event_id (or_event r)) (ob_event_id e) then f r else r).
    simpl. split; [apply map_row_elem; eauto|].
    destruct (String.eqb_spec (ob_event_id (or_event r)) (ob_event_id e)) as [E|]; [|by split_and!].
    rewrite (Hrow r Hr E), He. split_and!; [rewrite Hid; by rewrite He|apply Hnew|done].
  - intros r Hr Hne. simpl. apply map_row_elem. exists r. split; [done|].
    apply String.eqb_neq in Hne. by rewrite Hne.
Qed.

Lemma dispatch_all es w :
  outbox_inv (w_db w) -> NoDup (map ob_event_id es) ->
  (forall e, e ∈ es -> ob_status e = OB_PENDING /\ exists r, r ∈ db_outbox (w_db w) /\ or_event r = e) ->
  let w' := (for_each es tt (fun e _ => dispatch_one config publish exn_str e) w).2 in
  outbox_inv (w_db w') /\ outbox_progress (w_db w) (w_db w').
Proof.
  revert w. induction es as [|e es IH]; intros w Hinv Hnd Hes; simpl.
  { split; [done|exact (reflexivity _)]. }
  apply NoDup_cons in Hnd as [Hni Hnd].
  destruct (Hes e ltac:(set_solver)) as [Hp (r & Hr & Hre)].
  destruct (dispatch_keeps e _ _ r Hinv Hr Hre Hp (dispatch_one_effect e w)) as (Hi & Hpr & Hother).
  unfold bind. destruct (dispatch_one config publish exn_str e w) as [[[]|x] w1]; simpl in *; [|done].
  destruct (IH w1 Hi Hnd) as [Hi' Hp'].
  - intros e' He'. destruct (Hes e' ltac:(set_solver)) as [Hp' (r' & Hr' & <-)]. split; [done|].
    exists r'. split; [|done]. apply Hother; [done|]. intros E. apply Hni. rewrite <- E.
    apply list_elem_of_fmap. eauto.
  - split; [done|]. by etrans.
Qed.

(** The events [claim_pending] returns are due rows of the table, once each. *)
Lemma claim_events n now w es w1 :
  claim_pending n now w = (Ok es, w1) -> ids_unique (db_outbox (w_db w)) ->
  w_db w1 = w_db w /\ NoDup (map ob_event_id es) /\ (length es <= n)%nat /\
  forall e, e ∈ es -> exists r, r ∈ db_outbox (w_db w) /\ or_event r = e /\ outbox_due now r = true.
Proof.
  unfold claim_pending, transaction, bind, db_call. destruct (w_fault w (w_ops w)); [done|]. simpl.
  intros [= <- <-] Hu. simpl.
  set (l := List.filter (outbox_due now) (db_outbox (w_db w))).
  assert (Hperm : merge_sort created_le l ≡ₚ l) by apply merge_sort_Permutation.
  split_and!; [done| |rewrite length_map, length_take; lia|].
  - rewrite map_map. apply (sublist_NoDup _ (map (fun r => ob_event_id (or_event r)) (merge_sort created_le l))); cycle 1.
    + apply fmap_sublist, sublist_take.
    + unfold ids_unique in Hu.
      rewrite (fmap_Permutation (fun r => ob_event_id (or_event r)) _ _ Hperm).
      clear Hperm. subst l. induction (db_outbox (w_db w)) as [|x l IH]; simpl in *; [constructor|].
      apply NoDup_cons in Hu as [Hx Hu]. destruct (outbox_due now x); simpl; [|by apply IH].
      apply NoDup_cons. split; [|by apply IH]. intros Hin. apply Hx.
      apply list_elem_of_fmap in Hin as (y & -> & Hy). apply list_elem_of_fmap. exists y. split; [done|].
      apply list_elem_of_In, filter_In in Hy as [Hy _]. by apply list_elem_of_In.
  - intros e He. apply list_elem_of_fmap in He as (r & -> & Hr). exists r.
    apply elem_of_take in Hr as (i & Hi & _). apply list_elem_of_lookup_2 in Hi. rewrite Hperm in Hi.
    apply list_elem_of_In, filter_In in Hi as [Hi Hd]. by rewrite list_elem_of_In.
Qed.

(** C9: the retry budget holds.  From a table whose rows respect it, one
    pass of the dispatcher, whatever the publisher and the database do,
    keeps event ids unique and every row within [max_attempts] attempts,
    [FAILED] exactly at the limit and never pending there; no row is lost,
    attempts never decrease, and rows that are [DISPATCHED] or [FAILED] are
    not touched. *)
Theorem outbox_run_once_inv w :
  outbox_inv (w_db w) ->
  let w' := (outbox_run_once config publish exn_str w).2 in
  outbox_inv (w_db w') /\ outbox_progress (w_db w) (w_db w').
Proof.
  intros Hinv. cbv zeta. destruct (outbox_run_once config publish exn_str w) as [o w'] eqn:E. simpl.
  unfold outbox_run_once in E. unfold bind at 1 in E. simpl in E.
  match type of E with bind (claim_pending ?n ?t) _ ?v = _ => set (w1 := v) in *; set (now := t) in * end.
  unfold bind at 1 in E.
  destruct (claim_pending (dc_batch_size config) now w1) as [[es|x] w2] eqn:Hc; cycle 1.
  { unfold claim_pending, transaction, bind, db_call in Hc. destruct (w_fault w1 (w_ops w1)); [|done].
    simpl in Hc. injection Hc as <- <-. injection E as <- <-. split; [done|exact (reflexivity _)]. }
  destruct (claim_events _ _ _ _ _ Hc (proj1 Hinv)) as (Hd & Hnd & _ & Hes).
  assert (E1 : w_db w2 = w_db w) by exact Hd. change (w_db w1) with (w_db w) in Hes.
  rewrite <- E1 in Hinv, Hes |- *.
  destruct (dispatch_all es w2 Hinv Hnd) as [H1 H2].
  { intros e He. destruct (Hes e He) as (r & Hr & <- & Hdue). split; [|eauto].
    unfold outbox_due in Hdue. apply andb_true_iff in Hdue as [Hdue _]. by apply bool_decide_eq_true in Hdue. }
  unfold bind in E. by destruct (for_each es tt _ w2) as [[[]|x] w3]; injection E as <- <-.
Qed.
End DispatchFacts.

(** Claiming a batch does not reserve it.  [claim_pending] is a transaction
    of one select, so it leaves the table as it was; a second replica that
    claims at the same instant, before the first has marked its rows, gets
    exactly the same events and will publish them again. *)
Theorem claim_not_exclusive n now w :
  (forall k, w_fault w k = None) ->
  exists es w1 w2, claim_pending n now w = (Ok es, w1) /\ claim_pending n now w1 = (Ok es, w2) /\
    w_db w2 = w_db w.
Proof.
  intros Hf. unfold claim_pending, transaction, bind, db_call. rewrite Hf. simpl.
  do 3 eexists. split; [done|]. simpl. rewrite Hf. by simpl.
Qed.
