(* ===== verification/Breaker.v ===== *)
(** * Breaker: the circuit breakers

    [infra/circuitbreaker/in_memory.py] ([InMemoryCircuitBreaker]) and
    [infra/circuitbreaker/redis_breaker.py] (the two Lua scripts and the client
    around them).  A monotonic reading is an integer number of microseconds for
    the in-memory adapter and of milliseconds for the Redis one.  Concurrent
    callers interleave at the two atomic sections of a call, the gate and the
    recording of its outcome; between them the call is in flight. *)

From S2P Require Import Prelude Domain.

Inductive CircuitBreakerState : Type := CLOSED | OPEN | HALF_OPEN.
#[global] Instance CircuitBreakerState_eq_dec : EqDecision CircuitBreakerState.
Proof. solve_decision. Defined.

(** [_should_count]: a cancellation never counts. *)
Definition should_count_exn (e : exn) (predicate : option (exn -> bool)) : bool :=
  match e with
  | CancelledError => false
  | _ => match predicate with None => true | Some p => p e end
  end.

(** [while xs and xs[0] < cutoff: xs.popleft()]. *)
Fixpoint prune (cutoff : Z) (l : list Z) : list Z :=
  match l with
  | x :: l' => if x <? cutoff then prune cutoff l' else l
  | [] => []
  end.

(** ** [InMemoryCircuitBreaker] *)

Record BucketState : Type := mkBucket {
  bk_state : CircuitBreakerState;
  bk_failures : list Z;
  bk_opened_at : option Z;
  bk_probe_in_flight : bool
}.

Definition empty_bucket : BucketState := mkBucket CLOSED [] None false.

Record BreakerConfig : Type := mkBreakerConfig {
  bc_failure_threshold : Z;
  bc_window : Z;
  bc_cooldown : Z
}.

(** The constructor's checks. *)
Definition make_breaker (threshold window cooldown : Z) : res BreakerConfig :=
  if threshold <? 1 then Err (ValueError "failure_threshold must be >= 1")
  else if window <=? 0 then Err (ValueError "window_seconds must be > 0")
  else if cooldown <=? 0 then Err (ValueError "cooldown_seconds must be > 0")
  else Ok (mkBreakerConfig threshold window cooldown).

Section InMemory.
Context (cfg : BreakerConfig).

(** [_gate]: [true] for a probe. *)
Definition breaker_gate (now : Z) (b : BucketState) : res bool * BucketState :=
  match bk_state b with
  | CLOSED => (Ok false, b)
  | OPEN =>
      match bk_opened_at b with
      | None => (Err AssertionError, b)
      | Some t0 =>
          let elapsed := now - t0 in
          if elapsed <? bc_cooldown cfg then
            (Err (CircuitBreakerOpenError
                    (Some (Z.max 1 (Z.quot (bc_cooldown cfg - elapsed) 1000)))), b)
          else (Ok true, mkBucket HALF_OPEN (bk_failures b) (bk_opened_at b) true)
      end
  | HALF_OPEN => (Err (CircuitBreakerOpenError None), b)
  end.

(** [_record_outcome]. *)
Definition record_outcome (now : Z) (success counted is_probe : bool) (b : BucketState)
    : BucketState :=
  if is_probe then
    if success then mkBucket CLOSED [] None false
    else mkBucket OPEN [] (Some now) false
  else if success || negb counted then b
  else
    let failures := prune (now - bc_window cfg) (bk_failures b ++ [now]) in
    if bc_failure_threshold cfg <=? Z.of_nat (length failures)
    then mkBucket OPEN failures (Some now) (bk_probe_in_flight b)
    else mkBucket (bk_state b) failures (bk_opened_at b) (bk_probe_in_flight b).
End InMemory.

(** [call] over a world that holds the buckets by key and a monotonic clock. *)
Record BreakerWorld : Type := mkBreakerWorld {
  bw_buckets : gmap string BucketState;
  bw_monotonic : nat -> Z;
  bw_ticks : nat
}.

Definition monotonic : M BreakerWorld Z := fun w =>
  (Ok (bw_monotonic w (bw_ticks w)), mkBreakerWorld (bw_buckets w) (bw_monotonic w) (S (bw_ticks w))).

Definition get_bucket (key : string) : M BreakerWorld BucketState := fun w =>
  match bw_buckets w !! key with
  | Some b => (Ok b, w)
  | None => (Ok empty_bucket,
             mkBreakerWorld (<[key := empty_bucket]> (bw_buckets w)) (bw_monotonic w) (bw_ticks w))
  end.

Definition put_bucket (key : string) (b : BucketState) : M BreakerWorld unit :=
  modify (fun w => mkBreakerWorld (<[key := b]> (bw_buckets w)) (bw_monotonic w) (bw_ticks w)).

Definition gate_key (cfg : BreakerConfig) (key : string) : M BreakerWorld bool :=
  b <- get_bucket key ;;
  now <- monotonic ;;
  let '(r, b') := breaker_gate cfg now b in
  put_bucket key b' ;;; lift r.

Definition record_key (cfg : BreakerConfig) (key : string) (success counted is_probe : bool)
    : M BreakerWorld unit :=
  b <- get_bucket key ;;
  now <- monotonic ;;
  put_bucket key (record_outcome cfg now success counted is_probe b).

(** The breaker's own steps inside a world that also holds what the guarded call
    works on. *)
Definition on_fst {B U A} (m : M B A) : M (B * U) A := fun w => let '(r, b') := m w.1 in (r, (b', w.2)).

Definition breaker_call {U A} (cfg : BreakerConfig) (key : string) (fn : M (BreakerWorld * U) A)
    (should_count : option (exn -> bool)) : M (BreakerWorld * U) A :=
  is_probe <- on_fst (gate_key cfg key) ;;
  result <- try_except fn
    (fun e => Some (on_fst (record_key cfg key false (should_count_exn e should_count) is_probe) ;;; raise e)) ;;
  on_fst (record_key cfg key true false is_probe) ;;;
  ret result.

(** ** [RedisCircuitBreaker]

    The [state] hash and the [fail] list with the time at which each expires;
    a key past its expiry reads as absent. *)

Record RedisHash : Type := mkRedisHash {
  rh_state : CircuitBreakerState;
  rh_opened_at_ms : Z;
  rh_probe_in_flight : bool
}.

Record RedisBreaker : Type := mkRedisBreaker {
  rb_hash : option RedisHash;
  rb_hash_expiry : option Z;
  rb_fail : list Z;
  rb_fail_expiry : option Z
}.

Definition expired (now : Z) (e : option Z) : bool := match e with Some t => t <=? now | None => false end.

Definition read_hash (now : Z) (s : RedisBreaker) : option RedisHash :=
  if expired now (rb_hash_expiry s) then None else rb_hash s.
Definition read_fail (now : Z) (s : RedisBreaker) : list Z :=
  if expired now (rb_fail_expiry s) then [] else rb_fail s.

Inductive GateReply : Type := Pass | OpenFor (retry_ms : Z) | Probe.

Section Redis.
Context (cfg : BreakerConfig) (ttl_ms : Z).

(** [_GATE_SCRIPT]; [HSET] on a live key keeps its expiry, on an absent key
    it creates one without expiry. *)
Definition gate_script (now_ms : Z) (s : RedisBreaker) : GateReply * RedisBreaker :=
  match read_hash now_ms s with
  | None => (Pass, s)
  | Some h =>
      match rh_state h with
      | CLOSED => (Pass, s)
      | OPEN =>
          let elapsed := now_ms - rh_opened_at_ms h in
          if elapsed <? bc_cooldown cfg then
            let retry := bc_cooldown cfg - elapsed in
            (OpenFor (if retry <? 1 then 1 else retry), s)
          else (Probe, mkRedisBreaker (Some (mkRedisHash HALF_OPEN (rh_opened_at_ms h) true))
                         (rb_hash_expiry s) (rb_fail s) (rb_fail_expiry s))
      | HALF_OPEN =>
          if rh_probe_in_flight h then (OpenFor (-1), s)
          else (Probe, mkRedisBreaker (Some (mkRedisHash HALF_OPEN (rh_opened_at_ms h) true))
                         (rb_hash_expiry s) (rb_fail s) (rb_fail_expiry s))
      end
  end.

(** [EXPIRE key ttl] does nothing on an absent key. *)
Definition record_script (now_ms : Z) (success counted is_probe : bool) (s : RedisBreaker)
    : RedisBreaker :=
  if is_probe then
    if success then mkRedisBreaker (Some (mkRedisHash CLOSED 0 false)) (Some (now_ms + ttl_ms)) [] None
    else mkRedisBreaker (Some (mkRedisHash OPEN now_ms false)) (Some (now_ms + ttl_ms)) [] None
  else if success || negb counted then s
  else
    let fails := prune (now_ms - bc_window cfg) (read_fail now_ms s ++ [now_ms]) in
    if bc_failure_threshold cfg <=? Z.of_nat (length fails)
    then mkRedisBreaker (Some (mkRedisHash OPEN now_ms false)) (Some (now_ms + ttl_ms)) [] None
    else mkRedisBreaker (read_hash now_ms s)
           (match read_hash now_ms s with Some _ => Some (now_ms + ttl_ms) | None => None end)
           fails (Some (now_ms + ttl_ms)).

(** [_gate] of the client. *)
Definition redis_gate (now_ms : Z) (s : RedisBreaker) : res bool * RedisBreaker :=
  let '(reply, s') := gate_script now_ms s in
  (match reply with
   | Pass => Ok false
   | Probe => Ok true
   | OpenFor retry => Err (CircuitBreakerOpenError (if retry <? 0 then None else Some retry))
   end, s').
End Redis.

(** [call] over a Redis that holds the keys, a clock, and an oracle for the
    script calls that fail with a [RedisError], which change nothing. *)
Record RedisWorld : Type := mkRedisWorld {
  rw_keys : gmap string RedisBreaker;
  rw_now_ms : nat -> Z;
  rw_ticks : nat;
  rw_fault : nat -> bool;
  rw_calls : nat
}.

Definition absent_breaker : RedisBreaker := mkRedisBreaker None None [] None.

(** One script call on the keys of [key]. *)
Definition run_script {A} (key : string) (script : Z -> RedisBreaker -> A * RedisBreaker)
    : M RedisWorld A := fun w =>
  let now := rw_now_ms w (rw_ticks w) in
  if rw_fault w (rw_calls w) then
    (Err CircuitBreakerBackendError,
     mkRedisWorld (rw_keys w) (rw_now_ms w) (S (rw_ticks w)) (rw_fault w) (S (rw_calls w)))
  else
    let '(a, s') := script now (default absent_breaker (rw_keys w !! key)) in
    (Ok a, mkRedisWorld (<[key := s']> (rw_keys w)) (rw_now_ms w) (S (rw_ticks w)) (rw_fault w)
             (S (rw_calls w))).

Definition redis_gate_call (cfg : BreakerConfig) (key : string) : M RedisWorld bool :=
  r <- run_script key (redis_gate cfg) ;; lift r.

Definition redis_record_call (cfg : BreakerConfig) (ttl_ms : Z) (key : string)
    (success counted is_probe : bool) : M RedisWorld unit :=
  run_script key (fun now s => (tt, record_script cfg ttl_ms now success counted is_probe s)).

Definition redis_breaker_call {U A} (cfg : BreakerConfig) (ttl_ms : Z) (key : string)
    (fn : M (RedisWorld * U) A) (should_count : option (exn -> bool)) : M (RedisWorld * U) A :=
  is_probe <- on_fst (redis_gate_call cfg key) ;;
  result <- try_except fn
    (fun e => Some (on_fst (redis_record_call cfg ttl_ms key false (should_count_exn e should_count) is_probe) ;;;
                    raise e)) ;;
  on_fst (redis_record_call cfg ttl_ms key true false is_probe) ;;;
  ret result.
