(* ===== verification/BreakerFacts.v ===== *)
(** * BreakerFacts: the circuit breakers under interleaving

    The sliding window, the invariant of every interleaving of calls, probes,
    and the agreement of the Redis and in-memory adapters. *)

From S2P Require Import Prelude Domain Breaker.

(** ** The sliding window *)

Lemma prune_filter c l :
  StronglySorted Z.le l -> prune c l = List.filter (fun t => c <=? t) l.
Proof.
  induction 1 as [|x l Hs IH Hall]; simpl; [done|].
  destruct (Z.ltb_spec x c); [destruct (Z.leb_spec c x); [lia|done]|].
  destruct (Z.leb_spec c x); [|lia]. f_equal.
  assert (Hge : Forall (fun t => c <= t) l) by (eapply Forall_impl; [exact Hall|simpl; lia]).
  clear -Hge. induction Hge as [|y l Hy _ IH]; simpl; [done|].
  apply Z.leb_le in Hy. rewrite Hy. by f_equal.
Qed.

Lemma sorted_snoc l x : StronglySorted Z.le l -> Forall (fun t => t <= x) l -> StronglySorted Z.le (l ++ [x]).
Proof.
  induction 1 as [|y l Hs IH Hall]; intros Hx; simpl; [by repeat constructor|].
  apply Forall_cons in Hx as [Hy Hx]. constructor; [by apply IH|]. apply Forall_app. auto.
Qed.

Lemma prune_suffix c l : exists k, l = k ++ prune c l.
Proof.
  induction l as [|x l [k IH]]; simpl; [by exists []|].
  destruct (x <? c); [|by exists []]. exists (x :: k). simpl. by f_equal.
Qed.

Lemma prune_snoc c l x : c <= x -> prune c (l ++ [x]) = prune c l ++ [x].
Proof.
  intros Hx. induction l as [|y l IH]; simpl.
  - destruct (Z.ltb_spec x c); [lia|done].
  - by destruct (y <? c).
Qed.

Lemma sorted_suffix l k m : StronglySorted Z.le l -> l = k ++ m -> StronglySorted Z.le m.
Proof. revert l. induction k as [|x k IH]; intros l Hl ->; [done|]. inversion Hl; subst. by eapply IH. Qed.

(** The trip decision is the sliding-window count.  When failures were
    stamped by a monotonic clock, recording a counted failure keeps exactly the
    failures of the trailing window, this one included, and opens the breaker
    if and only if they reach the threshold. *)
Theorem record_failure_window cfg now b :
  StronglySorted Z.le (bk_failures b) -> Forall (fun t => t <= now) (bk_failures b) ->
  let recent := List.filter (fun t => now - bc_window cfg <=? t) (bk_failures b ++ [now]) in
  let b' := record_outcome cfg now false true false b in
  bk_failures b' = recent /\
  (bc_failure_threshold cfg <= Z.of_nat (length recent) -> bk_state b' = OPEN /\ bk_opened_at b' = Some now) /\
  (Z.of_nat (length recent) < bc_failure_threshold cfg ->
     bk_state b' = bk_state b /\ bk_opened_at b' = bk_opened_at b).
Proof.
  intros Hs Hle. cbv zeta. unfold record_outcome. simpl.
  rewrite <- prune_filter by by apply sorted_snoc.
  destruct (Z.leb_spec (bc_failure_threshold cfg)
    (Z.of_nat (length (prune (now - bc_window cfg) (bk_failures b ++ [now]))))); simpl;
    (split; [done|split; [intros; try lia|intros; try lia]]); done.
Qed.

(** ** Interleavings

    [flight] lists the calls between their gate and their recorded outcome,
    each tagged with whether it is a probe.  With [stale = false] no call that
    was let through while [CLOSED] reports a counted failure after the state
    has changed. *)

Record System : Type := mkSystem { sys_bucket : BucketState; sys_clock : Z; sys_flight : list bool }.

Section System.
Context (cfg : BreakerConfig) (stale : bool).

Inductive sys_step : System -> System -> Prop :=
  | sys_tick b t fl d : 0 <= d -> sys_step (mkSystem b t fl) (mkSystem b (t + d) fl)
  | sys_begin b t fl p b' :
      breaker_gate cfg t b = (Ok p, b') -> sys_step (mkSystem b t fl) (mkSystem b' t (p :: fl))
  | sys_reject b t fl e b' :
      breaker_gate cfg t b = (Err e, b') -> sys_step (mkSystem b t fl) (mkSystem b' t fl)
  | sys_finish b t fl1 fl2 p success counted :
      (stale = false -> p = false -> success = false -> counted = true -> bk_state b = CLOSED) ->
      sys_step (mkSystem b t (fl1 ++ p :: fl2))
        (mkSystem (record_outcome cfg t success counted p b) t (fl1 ++ fl2)).

Definition sys_reachable (s : System) : Prop := rtc sys_step (mkSystem empty_bucket 0 []) s.

Record breaker_inv (s : System) : Prop := {
  bi_opened : bk_state (sys_bucket s) <> CLOSED ->
    exists t0, bk_opened_at (sys_bucket s) = Some t0 /\ t0 <= sys_clock s;
  bi_sorted : StronglySorted Z.le (bk_failures (sys_bucket s));
  bi_past : Forall (fun t => t <= sys_clock s) (bk_failures (sys_bucket s));
  bi_below : bk_state (sys_bucket s) = CLOSED ->
    Z.of_nat (length (bk_failures (sys_bucket s))) < bc_failure_threshold cfg;
  bi_probe : bk_state (sys_bucket s) = HALF_OPEN ->
    bk_probe_in_flight (sys_bucket s) = true /\ true ∈ sys_flight s
}.

Lemma prune_past c l (P : Z -> Prop) : Forall P l -> Forall P (prune c l).
Proof. destruct (prune_suffix c l) as [k E]. intros H. rewrite E in H. by apply Forall_app in H as [_ H]. Qed.

Lemma breaker_inv_step s s' :
  1 <= bc_failure_threshold cfg -> breaker_inv s -> sys_step s s' -> breaker_inv s'.
Proof.
  intros Hth [Ho Hs Hp Hb Hpr] Hst.
  destruct Hst as [b t fl d Hd|b t fl p b' Hg|b t fl e b' Hg|b t fl1 fl2 p success counted Hstale]; simpl in *.
  - split; simpl; try done.
    + intros Hc. destruct (Ho Hc) as (t0 & ? & ?). exists t0. split; [done|lia].
    + eapply Forall_impl; [exact Hp|simpl; lia].
  - unfold breaker_gate in Hg. destruct (bk_state b) eqn:Est.
    + injection Hg as <- <-. split; simpl; try rewrite Est; try done.
    + destruct (Ho ltac:(done)) as (t0 & E0 & Hle). rewrite E0 in Hg.
      destruct (t - t0 <? bc_cooldown cfg); [done|]. injection Hg as <- <-.
      split; simpl; try done; [eauto|]. split; [done|set_solver].
    + done.
  - unfold breaker_gate in Hg. destruct (bk_state b) eqn:Est; [done| |].
    + destruct (bk_opened_at b) as [t0|] eqn:E0; [destruct (_ <? _); [|done]|];
        injection Hg as <- <-; split; simpl; rewrite ?Est, ?E0; try done.
    + injection Hg as <- <-. split; simpl; rewrite ?Est; done.
  - unfold record_outcome. destruct p; [|destruct (success || negb counted)].
    + destruct success; split; simpl; try done; try apply SSorted_nil; try (intros; lia).
      intros _. exists t. split; [done|lia].
    + split; simpl; try done. intros Hh. destruct (Hpr Hh) as [? Hin]. split; [done|]. set_solver.
    + assert (Hs' : StronglySorted Z.le (prune (t - bc_window cfg) (bk_failures b ++ [t]))).
      { destruct (prune_suffix (t - bc_window cfg) (bk_failures b ++ [t])) as [k E].
        eapply sorted_suffix; [apply sorted_snoc; [exact Hs|exact Hp]|exact E]. }
      assert (Hp' : Forall (fun x => x <= t) (prune (t - bc_window cfg) (bk_failures b ++ [t]))).
      { apply prune_past, Forall_app. split; [done|]. constructor; [lia|constructor]. }
      destruct (Z.leb_spec (bc_failure_threshold cfg)
        (Z.of_nat (length (prune (t - bc_window cfg) (bk_failures b ++ [t]))))); split; simpl; try done.
      * intros _. exists t. split; [done|lia].
      * intros Hh. destruct (Hpr Hh) as [? Hin]. split; [done|]. set_solver.
Qed.
End System.

(** C16: the breaker is sane under every interleaving of concurrent calls.  In
    any reachable state an open breaker knows when it opened (so the
    assertion in the gate never fails and some moment lets a probe through),
    the failure log is sorted and in the past, a closed breaker is below its
    threshold, and a half-open one always has a probe in flight whose outcome
    will decide it: it cannot get stuck. *)
Theorem breaker_invariant cfg stale s :
  1 <= bc_failure_threshold cfg -> sys_reachable cfg stale s -> breaker_inv cfg s.
Proof.
  intros Hth. unfold sys_reachable. intros Hr.
  assert (Hinit : breaker_inv cfg (mkSystem empty_bucket 0 [])).
  { split; simpl; [done|apply SSorted_nil|by apply Forall_nil|lia|done]. }
  remember (mkSystem empty_bucket 0 []) as s0 eqn:E. clear E.
  induction Hr as [|x y z Hxy Hyz IH]; [done|]. apply IH. by eapply breaker_inv_step.
Qed.

Definition probes (s : System) : nat := length (List.filter (fun p => p) (sys_flight s)).

(** Exactly one probe, as long as no stale failure comes in.  If calls let
    through before the breaker opened do not report counted failures after
    it, then at every moment the number of probes in flight is one when the
    breaker is half open and zero otherwise. *)
Theorem single_probe cfg s :
  sys_reachable cfg false s ->
  probes s = (if bool_decide (bk_state (sys_bucket s) = HALF_OPEN) then 1 else 0)%nat.
Proof.
  unfold sys_reachable. intros Hr.
  assert (Hinit : probes (mkSystem empty_bucket 0 []) =
    (if bool_decide (bk_state (sys_bucket (mkSystem empty_bucket 0 [])) = HALF_OPEN) then 1 else 0)%nat) by done.
  remember (mkSystem empty_bucket 0 []) as s0 eqn:E. clear E.
  induction Hr as [|x y z Hxy Hyz IH]; [done|]. apply IH. clear IH Hyz z.
  unfold probes in *.
  destruct Hxy as [b t fl d Hd|b t fl p b' Hg|b t fl e b' Hg|b t fl1 fl2 p success counted Hstale]; simpl in *.
  - done.
  - unfold breaker_gate in Hg. destruct (bk_state b) eqn:Est; simpl in *; [by injection Hg as <- <-; rewrite Est| |done].
    destruct (bk_opened_at b); [|done]. destruct (_ <? _); [done|]. injection Hg as <- <-. simpl. by rewrite Hinit.
  - unfold breaker_gate in Hg. destruct (bk_state b) eqn:Est; [done| |].
    + destruct (bk_opened_at b); [destruct (_ <? _); [|done]|]; injection Hg as <- <-; by rewrite Est.
    + injection Hg as <- <-. by rewrite Est.
  - rewrite List.filter_app, length_app in *. simpl in Hinit. unfold record_outcome.
    destruct p; simpl in *.
    + destruct (bool_decide_reflect (bk_state b = HALF_OPEN)); [|lia]. destruct success; simpl; lia.
    + destruct success; [done|]. destruct counted; [|done]. simpl.
      specialize (Hstale eq_refl eq_refl eq_refl eq_refl). rewrite Hstale in Hinit. simpl in Hinit.
      destruct (_ <=? _); simpl; rewrite ?Hstale; simpl; lia.
Qed.

Definition cfg1 : BreakerConfig := mkBreakerConfig 1 30 30.

(** Without that proviso the half-open state does not limit probes to one.
    With a threshold of one, two calls let through while closed, and the second
    failing only once a probe is out: the late failure reopens the breaker
    under the probe, and after another cooldown a second probe is let through
    while the first is still in flight. *)
Theorem two_probes_reachable : exists s, sys_reachable cfg1 true s /\ probes s = 2%nat.
Proof.
  eexists. split; [unfold sys_reachable|].
  - eapply rtc_l; [eapply (sys_begin _ _ _ 0); reflexivity|].
    eapply rtc_l; [eapply (sys_begin _ _ _ 0); reflexivity|].
    eapply rtc_l; [eapply (sys_finish _ _ _ 0 [] [false] false false true); discriminate|].
    eapply rtc_l; [eapply (sys_tick _ _ _ _ _ 30); lia|].
    eapply rtc_l; [eapply (sys_begin _ _ _ 30); reflexivity|].
    eapply rtc_l; [eapply (sys_finish _ _ _ 30 [true] [] false false true); discriminate|].
    eapply rtc_l; [eapply (sys_tick _ _ _ _ _ 30); lia|].
    eapply rtc_l; [eapply (sys_begin _ _ _ 60); reflexivity|].
    apply rtc_refl.
  - reflexivity.
Qed.

(** ** The Redis adapter against the in-memory one *)

(** One call made on its own: gated at [t], its outcome recorded at [t'].
    [None] when it was rejected, otherwise whether it was a probe. *)
Definition memory_call (cfg : BreakerConfig) (t t' : Z) (success counted : bool) (b : BucketState)
    : option bool * BucketState :=
  match breaker_gate cfg t b with
  | (Ok p, b') => (Some p, record_outcome cfg t' success counted p b')
  | (Err _, b') => (None, b')
  end.

Definition redis_call (cfg : BreakerConfig) (ttl t t' : Z) (success counted : bool) (s : RedisBreaker)
    : option bool * RedisBreaker :=
  match redis_gate cfg t s with
  | (Ok p, s') => (Some p, record_script cfg ttl t' success counted p s')
  | (Err _, s') => (None, s')
  end.

(** [max(1, ceil((window + cooldown) * 2))] seconds, in milliseconds. *)
Definition redis_ttl_ms (cfg : BreakerConfig) : Z :=
  1000 * Z.max 1 ((2 * (bc_window cfg + bc_cooldown cfg) + 999) / 1000).

Lemma redis_ttl_outlives cfg :
  0 < bc_window cfg -> 0 < bc_cooldown cfg ->
  2 * (bc_window cfg + bc_cooldown cfg) <= redis_ttl_ms cfg.
Proof.
  intros Hw Hc. unfold redis_ttl_ms.
  pose proof (Z.mul_div_le (2 * (bc_window cfg + bc_cooldown cfg) + 999) 1000 ltac:(lia)).
  pose proof (Z.mod_pos_bound (2 * (bc_window cfg + bc_cooldown cfg) + 999) 1000 ltac:(lia)).
  pose proof (Z.div_mod (2 * (bc_window cfg + bc_cooldown cfg) + 999) 1000 ltac:(lia)). lia.
Qed.

(** The two adapters agree at time [now]: both closed with the same failures
    inside any later window, or both open since the same moment. *)
Definition agree (cfg : BreakerConfig) (now : Z) (b : BucketState) (s : RedisBreaker) : Prop :=
  Forall (fun x => x <= now) (bk_failures b) /\
  match bk_state b with
  | CLOSED =>
      match rb_hash s with Some h => rh_state h = CLOSED | None => True end /\
      forall t, now <= t -> prune (t - bc_window cfg) (bk_failures b) = prune (t - bc_window cfg) (read_fail t s)
  | OPEN => exists t0, bk_opened_at b = Some t0 /\
      rb_hash s = Some (mkRedisHash OPEN t0 false) /\ rb_hash_expiry s = Some (t0 + redis_ttl_ms cfg)
  | HALF_OPEN => False
  end.

Lemma prune_all c l : Forall (fun x => x < c) l -> prune c l = [].
Proof. induction 1 as [|x l Hx _ IH]; simpl; [done|]. apply Z.ltb_lt in Hx. by rewrite Hx. Qed.

(** Recording an ordinary call keeps two closed breakers in step. *)
Lemma agree_closed_record cfg now t' success counted b s :
  0 < bc_window cfg -> 0 < bc_cooldown cfg -> now <= t' -> bk_state b = CLOSED -> agree cfg now b s ->
  agree cfg t' (record_outcome cfg t' success counted false b)
    (record_script cfg (redis_ttl_ms cfg) t' success counted false s).
Proof.
  intros Hw Hc Ht Est [Hpast Hag]. rewrite Est in Hag. destruct Hag as [Hh Hf].
  pose proof (redis_ttl_outlives cfg Hw Hc) as Httl.
  assert (Hpast' : Forall (fun x => x <= t') (bk_failures b)) by (eapply Forall_impl; [exact Hpast|simpl; lia]).
  unfold record_outcome, record_script. destruct (success || negb counted).
  { split; [done|]. rewrite Est. split; [done|]. intros u Hu. apply Hf. lia. }
  rewrite !prune_snoc by lia. rewrite <- (Hf t') by lia.
  assert (Hp' : Forall (fun x => x <= t') (prune (t' - bc_window cfg) (bk_failures b) ++ [t'])).
  { apply Forall_app. split; [by apply prune_past|]. constructor; [lia|constructor]. }
  destruct (bc_failure_threshold cfg <=? _).
  { split; [exact Hp'|]. simpl. by exists t'. }
  split; [exact Hp'|]. simpl. rewrite Est. split.
  - unfold read_hash. destruct (expired _ _); [done|]. by destruct (rb_hash s).
  - intros u Hu. unfold read_fail. simpl. destruct (Z.leb_spec (t' + redis_ttl_ms cfg) u); [|done].
    apply prune_all. eapply Forall_impl; [exact Hp'|simpl; lia].
Qed.

(** A closed breaker lets the call through, whatever its keys' expiry. *)
Lemma agree_closed_gate cfg now t b s :
  bk_state b = CLOSED -> agree cfg now b s -> gate_script cfg t s = (Pass, s).
Proof.
  intros Est [_ Hag]. rewrite Est in Hag. destruct Hag as [Hh _]. unfold gate_script, read_hash.
  destruct (expired _ _); [done|]. destruct (rb_hash s); [by rewrite Hh|done].
Qed.

Lemma agree_call cfg now t t' success counted b s :
  0 < bc_window cfg -> 0 < bc_cooldown cfg -> agree cfg now b s -> now <= t <= t' ->
  (forall e, bk_state b = OPEN -> rb_hash_expiry s = Some e -> t < e) ->
  (memory_call cfg t t' success counted b).1 = (redis_call cfg (redis_ttl_ms cfg) t t' success counted s).1 /\
  agree cfg t' (memory_call cfg t t' success counted b).2
    (redis_call cfg (redis_ttl_ms cfg) t t' success counted s).2.
Proof.
  intros Hw Hc [Hpast Hag] Ht Hexp. pose proof (redis_ttl_outlives cfg Hw Hc) as Httl.
  unfold memory_call, redis_call, breaker_gate, redis_gate.
  destruct (bk_state b) eqn:Est; [|destruct Hag as (t0 & Eo & Eh & Ee)|done].
  - assert (Hall : agree cfg now b s) by (split; [done|by rewrite Est]).
    rewrite (agree_closed_gate cfg now t b s) by done. split; [done|].
    apply (agree_closed_record cfg now); [done|done|lia|done|done].
  - rewrite Eo. unfold gate_script, read_hash. rewrite Ee, Eh. specialize (Hexp _ eq_refl Ee).
    unfold expired. destruct (Z.leb_spec (t0 + redis_ttl_ms cfg) t); [lia|]. simpl.
    destruct (Z.ltb_spec (t - t0) (bc_cooldown cfg)).
    + split; [done|]. split; simpl; [eapply Forall_impl; [exact Hpast|simpl; lia]|]. rewrite Est. by exists t0.
    + split; [done|]. simpl. destruct success; simpl; (split; [constructor|]); [|by exists t'].
      split; [done|]. intros u _. done.
Qed.

(** A sequence of calls, each gated after the previous outcome was recorded. *)
Record Call : Type := mkCall { c_gate : Z; c_done : Z; c_success : bool; c_counted : bool }.

Fixpoint memory_run (cfg : BreakerConfig) (cs : list Call) (b : BucketState) : list (option bool) :=
  match cs with
  | [] => []
  | c :: cs' =>
      let '(d, b') := memory_call cfg (c_gate c) (c_done c) (c_success c) (c_counted c) b in
      d :: memory_run cfg cs' b'
  end.

Fixpoint redis_run (cfg : BreakerConfig) (cs : list Call) (s : RedisBreaker) : list (option bool) :=
  match cs with
  | [] => []
  | c :: cs' =>
      let '(d, s') := redis_call cfg (redis_ttl_ms cfg) (c_gate c) (c_done c) (c_success c) (c_counted c) s in
      d :: redis_run cfg cs' s'
  end.

(** Times never go back, a call takes less than the failure window, and the
    breaker is never left alone for a window and a cooldown. *)
Fixpoint timely (cfg : BreakerConfig) (now : Z) (cs : list Call) : Prop :=
  match cs with
  | [] => True
  | c :: cs' => now <= c_gate c <= c_done c /\ c_done c < c_gate c + bc_window cfg /\
                c_gate c < now + bc_window cfg + bc_cooldown cfg /\ timely cfg (c_done c) cs'
  end.

(** An open breaker opened less than a window and a cooldown ago. *)
Definition recently_opened (cfg : BreakerConfig) (now : Z) (b : BucketState) : Prop :=
  forall t0, bk_state b = OPEN -> bk_opened_at b = Some t0 -> now < t0 + bc_window cfg + bc_cooldown cfg.

Lemma recently_opened_call cfg t t' success counted b :
  0 < bc_window cfg -> 0 < bc_cooldown cfg -> t <= t' < t + bc_window cfg -> bk_state b <> HALF_OPEN ->
  recently_opened cfg t' (memory_call cfg t t' success counted b).2.
Proof.
  intros Hw Hc Ht Hh t0. unfold memory_call, breaker_gate. destruct (bk_state b) eqn:Est; [| |done].
  - simpl. unfold record_outcome. destruct (success || negb counted); [congruence|].
    destruct (bc_failure_threshold cfg <=? _); simpl; [intros _ [= <-]; lia|congruence].
  - destruct (bk_opened_at b) as [t1|] eqn:Eo; [|simpl; congruence].
    destruct (Z.ltb_spec (t - t1) (bc_cooldown cfg)); simpl.
    + intros _. rewrite Eo. intros [= <-]. lia.
    + destruct success; simpl; [done|]. intros _ [= <-]. lia.
Qed.

Lemma agree_run cfg cs now b s :
  0 < bc_window cfg -> 0 < bc_cooldown cfg -> agree cfg now b s -> recently_opened cfg now b ->
  timely cfg now cs -> memory_run cfg cs b = redis_run cfg cs s.
Proof.
  intros Hw Hc. pose proof (redis_ttl_outlives cfg Hw Hc) as Httl.
  revert now b s. induction cs as [|c cs IH]; intros now b s Hag Hro Ht; [done|]. simpl.
  destruct Ht as (Hle & Hdur & Hgap & Ht).
  destruct (agree_call cfg now (c_gate c) (c_done c) (c_success c) (c_counted c) b s Hw Hc Hag Hle) as [E Hag'].
  { intros e Ho He. destruct Hag as [_ Hst]. rewrite Ho in Hst. destruct Hst as (t0 & Eo & Eh & Ee).
    rewrite Ee in He. injection He as <-. specialize (Hro t0 Ho Eo). lia. }
  assert (Hro' : recently_opened cfg (c_done c)
            (memory_call cfg (c_gate c) (c_done c) (c_success c) (c_counted c) b).2).
  { apply recently_opened_call; [done|done|lia|]. intros Hh. destruct Hag as [_ Hst]. by rewrite Hh in Hst. }
  destruct (memory_call _ _ _ _ _ b) as [d b'], (redis_call _ _ _ _ _ _ s) as [d' s'].
  simpl in *. subst d'. f_equal. by apply (IH (c_done c)).
Qed.

Definition fresh_redis : RedisBreaker := mkRedisBreaker None None [] None.

(** C17: for calls made one after the other, the Redis breaker makes the
    decisions of the in-memory one.  Over any sequence of calls, each shorter
    than the failure window and none coming later than a window and a cooldown
    after the previous one, both adapters pass, probe and reject exactly the
    same calls, although they keep different failure logs and the Redis keys
    expire. *)
Theorem redis_refines_memory cfg cs :
  0 < bc_window cfg -> 0 < bc_cooldown cfg -> timely cfg 0 cs ->
  memory_run cfg cs empty_bucket = redis_run cfg cs fresh_redis.
Proof.
  intros Hw Hc Ht. apply (agree_run cfg cs 0); try done.
Qed.

(** ** Witnesses *)

Lemma record_failure_window_witness :
  let b := mkBucket CLOSED [10; 35] None false in
  bk_failures (record_outcome cfg1 50 false true false b) = [35; 50].
Proof.
  cbv zeta.
  exact (proj1 (record_failure_window cfg1 50 (mkBucket CLOSED [10; 35] None false)
    ltac:(repeat constructor; lia) ltac:(repeat constructor; simpl; lia))).
Defined.

(** One call let through by a closed breaker. *)
Definition one_in_flight : System := mkSystem empty_bucket 0 [false].

Lemma one_in_flight_reachable stale : sys_reachable cfg1 stale one_in_flight.
Proof. eapply rtc_l; [eapply (sys_begin _ _ _ 0); reflexivity|apply rtc_refl]. Qed.

Lemma breaker_invariant_witness : breaker_inv cfg1 one_in_flight.
Proof. exact (breaker_invariant cfg1 true one_in_flight ltac:(simpl; lia) (one_in_flight_reachable true)). Defined.

Lemma single_probe_witness : probes one_in_flight = 0%nat.
Proof. exact (single_probe cfg1 one_in_flight (one_in_flight_reachable false)). Defined.

(** A failure that trips the breaker, a rejected call, a probe and a call. *)
Definition demo_calls : list Call :=
  [mkCall 1 2 false true; mkCall 10 10 false false; mkCall 40 41 true false; mkCall 42 43 true false].

Lemma redis_refines_memory_witness :
  memory_run cfg1 demo_calls empty_bucket = [Some false; None; Some true; Some false] /\
  memory_run cfg1 demo_calls empty_bucket = redis_run cfg1 demo_calls fresh_redis.
Proof.
  split; [reflexivity|].
  exact (redis_refines_memory cfg1 demo_calls ltac:(simpl; lia) ltac:(simpl; lia)
           ltac:(unfold demo_calls, cfg1; simpl; lia)).
Defined.
