(* ===== verification/RateLimit.v ===== *)
(** * RateLimit: the token buckets

    [infra/ratelimit/in_memory.py] ([InMemoryTokenBucketRateLimiter]) and
    [infra/ratelimit/redis_token_bucket.py] (the Lua script and its client).

    The code computes in floats; the model computes exactly.  The refill rate
    is [rl_num / rl_den] tokens per millisecond and a bucket level is stored
    multiplied by [rl_den], so every quantity is an integer.  Times are
    milliseconds. *)

From S2P Require Import Prelude Domain.

Record LimiterConfig : Type := mkLimiterConfig { rl_num : Z; rl_den : Z; rl_burst : Z }.

Definition valid_config (c : LimiterConfig) : Prop := 0 < rl_num c /\ 0 < rl_den c /\ 1 <= rl_burst c.

(** The constructor's checks on [rate_per_sec] and [burst]. *)
Definition make_limiter (num den burst : Z) : res LimiterConfig :=
  if num <=? 0 then Err (ValueError "rate_per_sec must be > 0")
  else if burst <? 1 then Err (ValueError "burst must be >= 1")
  else Ok (mkLimiterConfig num den burst).

Record RateLimitDecision : Type := mkDecision {
  rd_allowed : bool;
  rd_remaining : Z;
  rd_retry_after_ms : option Z
}.

Record TokenBucket : Type := mkTokenBucket { tb_tokens : Z; tb_last_refill : Z }.

(** [math.ceil(a / b)] for [b > 0]. *)
Definition ceil_div (a b : Z) : Z := (a + b - 1) / b.

Section Limiter.
Context (cfg : LimiterConfig).
Notation full := (rl_burst cfg * rl_den cfg).

Definition refill (now : Z) (b : TokenBucket) : TokenBucket :=
  let elapsed := Z.max 0 (now - tb_last_refill b) in
  mkTokenBucket (Z.min full (tb_tokens b + elapsed * rl_num cfg)) now.

(** The branch after the refill. *)
Definition take_tokens (cost : Z) (b : TokenBucket) : RateLimitDecision * TokenBucket :=
  if cost * rl_den cfg <=? tb_tokens b then
    let t := tb_tokens b - cost * rl_den cfg in
    (mkDecision true (t / rl_den cfg) None, mkTokenBucket t (tb_last_refill b))
  else
    let deficit := cost * rl_den cfg - tb_tokens b in
    (mkDecision false (tb_tokens b / rl_den cfg)
       (Some (Z.max 1 (ceil_div deficit (rl_num cfg)))), b).

(** [acquire] on the bucket of one key, [None] when there is none yet. *)
Definition acquire (now cost : Z) (ob : option TokenBucket)
    : res RateLimitDecision * option TokenBucket :=
  if cost <? 1 then (Err (ValueError "cost must be >= 1"), ob)
  else if rl_burst cfg <? cost then (Ok (mkDecision false 0 None), ob)
  else
    let b := match ob with
             | None => mkTokenBucket full now
             | Some b => refill now b
             end in
    let '(d, b') := take_tokens cost b in (Ok d, Some b').

(** *** Redis *)

(** The hash of one key, with the time its expiry falls due. *)
Record RedisBucket : Type := mkRedisBucket { rk_bucket : TokenBucket; rk_expires : Z }.

Definition ttl_ms : Z := 1000 * Z.max 1 (ceil_div (2 * full) (1000 * rl_num cfg)).

Definition lua_script (now cost : Z) (s : option RedisBucket)
    : (bool * Z * Z) * option RedisBucket :=
  if rl_burst cfg <? cost then ((false, 0, -1), s)
  else
    let live := match s with
                | Some r => if rk_expires r <=? now then None else Some (rk_bucket r)
                | None => None
                end in
    let b := match live with
             | None => mkTokenBucket full now
             | Some b => refill now b
             end in
    if cost * rl_den cfg <=? tb_tokens b then
      let t := tb_tokens b - cost * rl_den cfg in
      ((true, t / rl_den cfg, 0), Some (mkRedisBucket (mkTokenBucket t now) (now + ttl_ms)))
    else
      let retry := ceil_div (cost * rl_den cfg - tb_tokens b) (rl_num cfg) in
      ((false, tb_tokens b / rl_den cfg, if retry <? 1 then 1 else retry),
       Some (mkRedisBucket (mkTokenBucket (tb_tokens b) now) (now + ttl_ms))).

Definition redis_acquire (now cost : Z) (s : option RedisBucket)
    : res RateLimitDecision * option RedisBucket :=
  if cost <? 1 then (Err (ValueError "cost must be >= 1"), s)
  else
    let '((allowed, remaining, retry), s') := lua_script now cost s in
    (Ok (mkDecision allowed remaining (if retry <=? 0 then None else Some retry)), s').
End Limiter.

(** ** Facts *)

Section Facts.
Context (cfg : LimiterConfig) (Hcfg : valid_config cfg).
Notation full := (rl_burst cfg * rl_den cfg).

Definition bucket_ok (b : TokenBucket) : Prop := 0 <= tb_tokens b <= full.
Definition obucket_ok (ob : option TokenBucket) : Prop :=
  match ob with Some b => bucket_ok b | None => True end.

Lemma full_pos : 0 < full.
Proof. destruct Hcfg as (?&?&?). nia. Qed.

Lemma refill_ok now b : bucket_ok b -> bucket_ok (refill cfg now b) /\ tb_last_refill (refill cfg now b) = now.
Proof.
  destruct Hcfg as (?&?&?). pose proof full_pos. unfold bucket_ok, refill. simpl. intros. split; [|done]. nia.
Qed.

Lemma start_ok now ob : obucket_ok ob ->
  let b := match ob with None => mkTokenBucket full now | Some b => refill cfg now b end in
  bucket_ok b /\ tb_last_refill b = now.
Proof.
  pose proof full_pos. destruct ob as [b|]; simpl; [apply refill_ok|]. intros _. split; [|done].
  unfold bucket_ok. simpl. lia.
Qed.

Lemma take_ok cost b : 0 <= cost -> bucket_ok b -> bucket_ok (take_tokens cfg cost b).2.
Proof.
  destruct Hcfg as (?&?&?). unfold take_tokens, bucket_ok. intros Hc Hb.
  destruct (Z.leb_spec (cost * rl_den cfg) (tb_tokens b)); simpl; nia.
Qed.

Lemma acquire_ok now cost ob : obucket_ok ob -> obucket_ok (acquire cfg now cost ob).2.
Proof.
  intros Hb. unfold acquire. destruct (Z.ltb_spec cost 1); [done|]. destruct (rl_burst cfg <? cost); [done|].
  destruct (start_ok now ob Hb) as [Hs _]. cbv zeta in Hs.
  pose proof (take_ok cost _ ltac:(lia) Hs) as Ht. by destruct (take_tokens cfg cost _) as [d b'].
Qed.

(** *** The rate guarantee *)

(** A run of acquires on one key: time and cost of each. *)
Fixpoint granted (reqs : list (Z * Z)) (ob : option TokenBucket) : Z :=
  match reqs with
  | [] => 0
  | (t, c) :: reqs' =>
      let '(r, ob') := acquire cfg t c ob in
      match r with
      | Ok d => (if rd_allowed d then c else 0) + granted reqs' ob'
      | Err _ => granted reqs' ob'
      end
  end.

Fixpoint ordered (now : Z) (reqs : list (Z * Z)) : Prop :=
  match reqs with [] => True | (t, _) :: reqs' => now <= t /\ ordered t reqs' end.

Definition last_time (now : Z) (reqs : list (Z * Z)) : Z :=
  match list.last reqs with Some (t, _) => t | None => now end.

Lemma ordered_last now reqs : ordered now reqs -> now <= last_time now reqs.
Proof.
  revert now. induction reqs as [|[t c] reqs IH]; intros now Ho; [unfold last_time; simpl; lia|].
  destruct Ho as [Hle Ho]. specialize (IH t Ho). revert IH. unfold last_time. rewrite last_cons.
  destruct (list.last reqs) as [[t' c']|]; lia.
Qed.

Lemma last_time_cons now t c reqs : last_time now ((t, c) :: reqs) = last_time t reqs.
Proof. unfold last_time. rewrite last_cons. by destruct (list.last reqs) as [[? ?]|]. Qed.

Lemma granted_bucket reqs now b :
  bucket_ok b -> tb_last_refill b <= now -> ordered now reqs ->
  granted reqs (Some b) * rl_den cfg
    <= tb_tokens b + (last_time now reqs - tb_last_refill b) * rl_num cfg.
Proof.
  destruct Hcfg as (Hn & Hd & Hbu).
  revert now b. induction reqs as [|[t c] reqs IH]; intros now b Hb Hl Ho.
  { unfold last_time, bucket_ok in *. simpl. nia. }
  rewrite last_time_cons. destruct Ho as [Hle Ho]. simpl. unfold acquire.
  pose proof (ordered_last t reqs Ho).
  destruct (Z.ltb_spec c 1); [specialize (IH t b Hb ltac:(lia) Ho); lia|].
  destruct (Z.ltb_spec (rl_burst cfg) c); [specialize (IH t b Hb ltac:(lia) Ho); simpl; lia|].
  destruct (refill_ok t b Hb) as [Hr Hlr]. pose proof (take_ok c _ ltac:(lia) Hr) as Ht.
  assert (Hlast : tb_last_refill (take_tokens cfg c (refill cfg t b)).2 = t)
    by (unfold take_tokens; by destruct (_ <=? _)).
  specialize (IH t _ Ht ltac:(lia) Ho). rewrite Hlast in IH.
  assert (Hup : tb_tokens (refill cfg t b) <= tb_tokens b + (t - tb_last_refill b) * rl_num cfg).
  { unfold refill. simpl. nia. }
  unfold take_tokens in *. destruct (c * rl_den cfg <=? tb_tokens (refill cfg t b)); simpl in *; nia.
Qed.

(** C15: the limiter enforces its rate.  Over any run of requests in time
    order, however they are spaced and sized, the total cost granted is at
    most the burst plus the refill of the elapsed time. *)
Theorem rate_bound t0 c0 reqs :
  ordered t0 reqs ->
  granted ((t0, c0) :: reqs) None * rl_den cfg
    <= full + (last_time t0 reqs - t0) * rl_num cfg.
Proof.
  intros Ho. destruct Hcfg as (Hn & Hd & Hbu). pose proof full_pos.
  pose proof (ordered_last t0 reqs Ho). simpl. unfold acquire.
  assert (Hnone : granted reqs None * rl_den cfg <= full + (last_time t0 reqs - t0) * rl_num cfg).
  { clear c0. revert t0 Ho H0. induction reqs as [|[t c] reqs IH]; intros t0 Ho Hl; [simpl; nia|].
    rewrite last_time_cons in *. destruct Ho as [Hle Ho]. simpl. unfold acquire.
    pose proof (ordered_last t reqs Ho). specialize (IH t Ho ltac:(lia)).
    destruct (c <? 1) eqn:E1; [nia|]. destruct (rl_burst cfg <? c) eqn:E2; [simpl; nia|].
    apply Z.ltb_ge in E1, E2. unfold take_tokens. simpl.
    assert (Hc : c * rl_den cfg <= full) by nia. apply Z.leb_le in Hc as Hc'. rewrite Hc'. simpl.
    pose proof (granted_bucket reqs t (mkTokenBucket (full - c * rl_den cfg) t)
      ltac:(unfold bucket_ok; simpl; nia) ltac:(simpl; lia) Ho) as Hg. simpl in Hg. nia. }
  destruct (c0 <? 1) eqn:E1; [done|]. destruct (rl_burst cfg <? c0) eqn:E2; [simpl; lia|].
  apply Z.ltb_ge in E1, E2. unfold take_tokens. simpl.
  assert (Hc : c0 * rl_den cfg <= full) by nia. apply Z.leb_le in Hc as Hc'. rewrite Hc'. simpl.
  pose proof (granted_bucket reqs t0 (mkTokenBucket (full - c0 * rl_den cfg) t0)
    ltac:(unfold bucket_ok; simpl; nia) ltac:(simpl; lia) Ho) as Hg. simpl in Hg. nia.
Qed.

Lemma ceil_div_spec a b : 0 < b -> a <= ceil_div a b * b < a + b.
Proof.
  intros Hb. unfold ceil_div. pose proof (Z.div_mod (a + b - 1) b ltac:(lia)).
  pose proof (Z.mod_pos_bound (a + b - 1) b Hb). lia.
Qed.

(** A denial's hint is exact.  A denied request of admissible cost comes
    with a positive delay; repeated after that delay, with nothing else in
    between, it is granted, and repeated any earlier it is denied again.  A
    request larger than the burst is denied without a hint and touches
    nothing. *)
Theorem retry_hint_exact now cost ob d ob' :
  obucket_ok ob -> 1 <= cost -> acquire cfg now cost ob = (Ok d, ob') -> rd_allowed d = false ->
  match rd_retry_after_ms d with
  | Some r => 1 <= r /\ cost <= rl_burst cfg /\
      (exists d' ob'', acquire cfg (now + r) cost ob' = (Ok d', ob'') /\ rd_allowed d' = true) /\
      (forall k, 0 <= k < r -> exists d' ob'', acquire cfg (now + k) cost ob' = (Ok d', ob'') /\
         rd_allowed d' = false)
  | None => rl_burst cfg < cost /\ ob' = ob
  end.
Proof.
  intros Hok Hc. destruct Hcfg as (Hn & Hd & Hbu). unfold acquire.
  destruct (Z.ltb_spec cost 1); [lia|].
  destruct (Z.ltb_spec (rl_burst cfg) cost); [intros [= <- <-] _; by split|].
  destruct (start_ok now ob Hok) as [Hs Hl]. cbv zeta in Hs, Hl.
  set (b := match ob with Some b => refill cfg now b | None => mkTokenBucket full now end) in *.
  unfold take_tokens at 1. destruct (Z.leb_spec (cost * rl_den cfg) (tb_tokens b)) as [|Hlt];
    [by intros [= <- <-]|]. intros [= <- <-] _. simpl.
  pose proof (ceil_div_spec (cost * rl_den cfg - tb_tokens b) (rl_num cfg) Hn) as Hceil.
  set (r := ceil_div (cost * rl_den cfg - tb_tokens b) (rl_num cfg)) in *.
  assert (Hr1 : 1 <= r) by nia. rewrite Z.max_r by lia.
  assert (Hcb : cost * rl_den cfg <= full) by nia.
  assert (Hat : forall k, 0 <= k -> tb_tokens (refill cfg (now + k) b) = Z.min full (tb_tokens b + k * rl_num cfg)).
  { intros k Hk. unfold refill. simpl. rewrite Hl. f_equal. f_equal. f_equal. lia. }
  split_and!; [done|done| |].
  - unfold take_tokens. rewrite Hat by lia.
    destruct (Z.leb_spec (cost * rl_den cfg) (Z.min full (tb_tokens b + r * rl_num cfg))); [eauto|lia].
  - intros k Hk. unfold take_tokens. rewrite Hat by lia.
    destruct (Z.leb_spec (cost * rl_den cfg) (Z.min full (tb_tokens b + k * rl_num cfg))); [nia|eauto].
Qed.

(** *** The Redis limiter against the in-memory one *)

(** An expired hash stands for a bucket that has refilled. *)
Definition same_bucket (now : Z) (ob : option TokenBucket) (s : option RedisBucket) : Prop :=
  match ob, s with
  | None, None => True
  | Some b, Some r => rk_bucket r = b /\ bucket_ok b /\ tb_last_refill b <= now /\
                      rk_expires r = tb_last_refill b + ttl_ms cfg
  | _, _ => False
  end.

Lemma ttl_refills : full <= ttl_ms cfg * rl_num cfg.
Proof.
  destruct Hcfg as (Hn & Hd & Hbu). pose proof full_pos. unfold ttl_ms.
  pose proof (ceil_div_spec (2 * full) (1000 * rl_num cfg) ltac:(lia)). nia.
Qed.

Lemma same_bucket_acquire now t cost ob s :
  same_bucket now ob s -> now <= t ->
  (acquire cfg t cost ob).1 = (redis_acquire cfg t cost s).1 /\
  same_bucket t (acquire cfg t cost ob).2 (redis_acquire cfg t cost s).2.
Proof.
  intros Hsame Ht. destruct Hcfg as (Hn & Hd & Hbu). pose proof ttl_refills as Httl.
  assert (Hkeep : same_bucket t ob s).
  { destruct ob as [b|], s as [r|]; simpl in *; try done. destruct Hsame as (?&?&?&?). split_and!; try done. lia. }
  unfold acquire, redis_acquire, lua_script. destruct (cost <? 1) eqn:E1; [done|]. apply Z.ltb_ge in E1.
  destruct (rl_burst cfg <? cost) eqn:E2; [done|]. apply Z.ltb_ge in E2.
  set (b := match ob with Some b => refill cfg t b | None => mkTokenBucket full t end).
  assert (Hb : (match (match s with
                       | Some r => if rk_expires r <=? t then None else Some (rk_bucket r)
                       | None => None end) with
                | None => mkTokenBucket full t
                | Some b => refill cfg t b end) = b).
  { unfold b. destruct ob as [b0|], s as [r|]; simpl in Hsame; try done.
    destruct Hsame as (-> & Hok & Hle & ->). destruct (Z.leb_spec (tb_last_refill b0 + ttl_ms cfg) t); [|done].
    unfold refill, bucket_ok in *. f_equal. rewrite Z.max_r by lia. nia. }
  rewrite Hb. assert (Hok : bucket_ok b /\ tb_last_refill b = t).
  { unfold b. apply (start_ok t ob). destruct ob, s; simpl in *; try done. by destruct Hsame as (?&?&?). }
  destruct Hok as [Hok Hl]. clearbody b. unfold take_tokens.
  destruct (Z.leb_spec (cost * rl_den cfg) (tb_tokens b)) as [Hge|Hlt]; simpl.
  - split; [done|]. unfold same_bucket, bucket_ok in *. simpl. rewrite Hl. split_and!; try done; nia.
  - pose proof (ceil_div_spec (cost * rl_den cfg - tb_tokens b) (rl_num cfg) Hn) as Hceil.
    set (r := ceil_div (cost * rl_den cfg - tb_tokens b) (rl_num cfg)) in *.
    assert (Hr : 1 <= r) by nia. rewrite Z.max_r by lia.
    destruct (Z.ltb_spec r 1); [lia|]. destruct (Z.leb_spec r 0); [lia|].
    split; [done|]. destruct b as [bt bl]. simpl in *. subst bl. split_and!; done || lia.
Qed.

Fixpoint decisions (reqs : list (Z * Z)) (ob : option TokenBucket) : list (res RateLimitDecision) :=
  match reqs with
  | [] => []
  | (t, c) :: reqs' => let '(d, ob') := acquire cfg t c ob in d :: decisions reqs' ob'
  end.
Fixpoint redis_decisions (reqs : list (Z * Z)) (s : option RedisBucket) : list (res RateLimitDecision) :=
  match reqs with
  | [] => []
  | (t, c) :: reqs' => let '(d, s') := redis_acquire cfg t c s in d :: redis_decisions reqs' s'
  end.

(** Swapping the in-memory limiter for the Redis one is not observable
    by a client whose clock does not go back: over any run of requests in
    time order both return the same decisions, remaining counts and hints,
    although the Redis bucket expires. *)
Theorem redis_limiter_equiv now reqs :
  ordered now reqs -> decisions reqs None = redis_decisions reqs None.
Proof.
  intros Ho. assert (Hgo : forall reqs now ob s, same_bucket now ob s -> ordered now reqs ->
    decisions reqs ob = redis_decisions reqs s).
  { clear now reqs Ho. induction reqs as [|[t c] reqs IH]; intros now ob s Hs Ho; [done|].
    destruct Ho as [Hle Ho]. simpl. destruct (same_bucket_acquire now t c ob s Hs Hle) as [E Hs'].
    destruct (acquire cfg t c ob) as [d ob'], (redis_acquire cfg t c s) as [d' s']. simpl in *. subst d'.
    f_equal. by apply (IH t). }
  by apply (Hgo reqs now).
Qed.
End Facts.

(** Replicas whose monotonic clocks differ defeat the shared limiter.  The
    timestamps come from each client's own monotonic clock; when one replica's
    clock is ahead of another's by at least the time a bucket takes to fill,
    and the two alternate, every request of the replica that is ahead is
    granted, however fast they come. *)
Theorem skewed_replicas_unlimited cfg ahead behind cost s :
  valid_config cfg -> 1 <= cost <= rl_burst cfg ->
  rl_burst cfg * rl_den cfg <= (ahead - behind) * rl_num cfg ->
  match s with Some r => bucket_ok cfg (rk_bucket r) /\ ahead < rk_expires r | None => True end ->
  ahead < behind + ttl_ms cfg ->
  let s1 := (redis_acquire cfg behind cost s).2 in
  exists d s2, redis_acquire cfg ahead cost s1 = (Ok d, Some s2) /\ rd_allowed d = true /\
    rk_expires s2 = ahead + ttl_ms cfg.
Proof.
  intros Hcfg Hc Hgap Hs Hlive. pose proof Hcfg as (Hn & Hd & Hbu). cbv zeta.
  assert (H1 : exists b, (redis_acquire cfg behind cost s).2 = Some (mkRedisBucket b (behind + ttl_ms cfg)) /\
            bucket_ok cfg b /\ tb_last_refill b = behind).
  { unfold redis_acquire, lua_script. destruct (Z.ltb_spec cost 1); [lia|].
    destruct (Z.ltb_spec (rl_burst cfg) cost); [lia|].
    set (ob := match s with Some r => if rk_expires r <=? behind then None else Some (rk_bucket r) | None => None end).
    assert (Hob : obucket_ok cfg ob).
    { unfold ob. destruct s as [r|]; [|done]. destruct (rk_expires r <=? behind); [done|]. apply Hs. }
    destruct (start_ok cfg Hcfg behind ob Hob) as [Hb Hl]. cbv zeta in Hb, Hl.
    destruct (Z.leb_spec (cost * rl_den cfg)
      (tb_tokens (match ob with Some b => refill cfg behind b | None => mkTokenBucket (rl_burst cfg * rl_den cfg) behind end)));
      simpl; eexists; (split; [reflexivity|]); unfold bucket_ok in *; simpl; split; [nia|done|done|done]. }
  destruct H1 as (b & -> & Hb & Hl). unfold redis_acquire, lua_script.
  destruct (Z.ltb_spec cost 1); [lia|]. destruct (Z.ltb_spec (rl_burst cfg) cost); [lia|]. simpl.
  destruct (Z.leb_spec (behind + ttl_ms cfg) ahead); [lia|].
  assert (Hfull : tb_tokens (refill cfg ahead b) = rl_burst cfg * rl_den cfg).
  { unfold refill, bucket_ok in *. simpl. rewrite Hl. nia. }
  rewrite Hfull. destruct (Z.leb_spec (cost * rl_den cfg) (rl_burst cfg * rl_den cfg)); [|nia].
  simpl. eauto.
Qed.

(** ** Witnesses *)

(** One token per second, burst of two. *)
Definition demo_limiter : LimiterConfig := mkLimiterConfig 1 1000 2.
Lemma demo_limiter_valid : valid_config demo_limiter.
Proof. unfold valid_config; simpl; lia. Qed.

Lemma rate_bound_witness :
  granted demo_limiter [(0, 1); (0, 1); (10, 1); (1000, 1)] None = 3 /\
  granted demo_limiter [(0, 1); (0, 1); (10, 1); (1000, 1)] None * 1000 <= 2000 + 1000.
Proof.
  split; [reflexivity|].
  exact (rate_bound demo_limiter demo_limiter_valid 0 1 [(0, 1); (10, 1); (1000, 1)] ltac:(simpl; lia)).
Defined.

Lemma retry_hint_exact_witness :
  let ob := Some (mkTokenBucket 400 0) in
  exists d ob', acquire demo_limiter 0 1 ob = (Ok d, ob') /\ rd_retry_after_ms d = Some 600 /\
    exists d' ob'', acquire demo_limiter 600 1 ob' = (Ok d', ob'') /\ rd_allowed d' = true.
Proof.
  cbv zeta. eexists _, _. split; [reflexivity|]. split; [reflexivity|].
  destruct (retry_hint_exact demo_limiter demo_limiter_valid 0 1 (Some (mkTokenBucket 400 0))
              (mkDecision false 0 (Some 600)) (Some (mkTokenBucket 400 0))
              ltac:(unfold obucket_ok, bucket_ok; simpl; lia) ltac:(lia) eq_refl eq_refl)
    as (_ & _ & H & _).
  exact H.
Defined.

Lemma redis_limiter_equiv_witness :
  decisions demo_limiter [(0, 1); (5, 2); (9000, 2)] None
  = redis_decisions demo_limiter [(0, 1); (5, 2); (9000, 2)] None.
Proof.
  exact (redis_limiter_equiv demo_limiter demo_limiter_valid 0 [(0, 1); (5, 2); (9000, 2)]
           ltac:(simpl; lia)).
Defined.

Lemma skewed_replicas_unlimited_witness :
  exists d s2, redis_acquire demo_limiter 3000 2 (redis_acquire demo_limiter 0 2 None).2 = (Ok d, Some s2) /\
    rd_allowed d = true.
Proof.
  destruct (skewed_replicas_unlimited demo_limiter 3000 0 2 None demo_limiter_valid ltac:(simpl; lia)
              ltac:(simpl; lia) I ltac:(vm_compute; reflexivity)) as (d & s2 & H1 & H2 & _).
  exists d, s2. split; [exact H1|exact H2].
Defined.
