(* ===== verification/PromptRegistry.v ===== *)
(** * PromptRegistry: versioned prompts

    [core/domain/prompt_asset.py], [core/ports/prompt_registry.py] and
    [infra/prompt_registry/]: the in-memory and the Postgres registry, the
    read-through cache in front of either, and the seeding of the built-in
    prompts at boot.

    [PromptRegistryLaws] is what the port promises, over the table of prompts a
    registry holds: a map from (prompt id, version, tenant) to the asset.  The two
    registries are instances, and so is the cache over any instance as long as
    its calls do not overlap; seeding is proved against the interface.  The hash
    is a parameter. *)

From S2P Require Import Prelude PyText Domain.

(** ** Assets *)

Record PromptAsset : Type := mkPromptAsset {
  pa_prompt_id : string; pa_version : Z; pa_tenant_id : option string; pa_content : string;
  pa_description : option string; pa_created_at : Z
}.

Definition id_char (c : Ascii.ascii) : bool :=
  let n := Ascii.nat_of_ascii c in
  (Nat.leb 48 n && Nat.leb n 57) || (Nat.leb 65 n && Nat.leb n 90) || (Nat.leb 97 n && Nat.leb n 122) ||
  Nat.eqb n 95 || Nat.eqb n 46 || Nat.eqb n 45.

Definition check_asset (a : PromptAsset) : res PromptAsset :=
  if negb (nonempty (pa_prompt_id a) && Nat.leb (String.length (pa_prompt_id a)) 128 &&
           forallb id_char (String.list_ascii_of_string (pa_prompt_id a)))
  then Err (ValidationError "prompt_id")
  else if pa_version a <? 1 then Err (ValidationError "version")
  else if bool_decide (pa_tenant_id a = Some "") then Err (ValidationError "tenant_id")
  else if negb (nonempty (pa_content a)) then Err (ValidationError "content")
  else Ok a.

Abbreviation PromptKey := (string * Z * option string)%type.
Definition pa_key (a : PromptAsset) : PromptKey := (pa_prompt_id a, pa_version a, pa_tenant_id a).
Abbreviation PromptTable := (gmap PromptKey PromptAsset).

(** ** The port *)

Record Registry (W : Type) : Type := mkRegistry {
  rg_fetch_or_none : string -> option Z -> option string -> M W (option PromptAsset);
  rg_register : PromptAsset -> M W unit;
  rg_latest_version : string -> option string -> M W (option Z)
}.
Arguments mkRegistry {W}.
Arguments rg_fetch_or_none {W}.
Arguments rg_register {W}.
Arguments rg_latest_version {W}.

(** [fetch], the same in every adapter. *)
Definition rg_fetch {W} (R : Registry W) (pid : string) (version : option Z) (tenant : option string)
    : M W PromptAsset :=
  asset <- rg_fetch_or_none R pid version tenant ;;
  match asset with None => raise (PromptNotFoundError pid version) | Some a => ret a end.

(** ** [InMemoryPromptRegistry] *)

Definition in_scope (pid : string) (scope : option string) (a : PromptAsset) : bool :=
  String.eqb (pa_prompt_id a) pid && bool_decide (pa_tenant_id a = scope).

(** [max(rows, key=lambda r: r.version)]: the first of the greatest. *)
Definition max_version (r0 : PromptAsset) (rows : list PromptAsset) : PromptAsset :=
  fold_left (fun best r => if pa_version best <? pa_version r then r else best) rows r0.

Fixpoint resolve_scopes (rows : list PromptAsset) (pid : string) (version : option Z)
    (scopes : list (option string)) : option PromptAsset :=
  match scopes with
  | [] => None
  | scope :: rest =>
      match List.filter (in_scope pid scope) rows with
      | [] => resolve_scopes rows pid version rest
      | r0 :: rs =>
          match version with
          | Some v => match List.filter (fun r => Z.eqb (pa_version r) v) (r0 :: rs) with
                      | e :: _ => Some e
                      | [] => resolve_scopes rows pid version rest
                      end
          | None => Some (max_version r0 rs)
          end
      end
  end.

Definition prompt_scopes (tenant : option string) : list (option string) :=
  match tenant with Some t => [Some t; None] | None => [None] end.

Definition prompt_resolve (rows : list PromptAsset) (pid : string) (version : option Z) (tenant : option string)
    : option PromptAsset := resolve_scopes rows pid version (prompt_scopes tenant).

Definition already_registered : exn := ValueError "prompt is already registered; versions are immutable".

Definition in_memory_registry : Registry (list PromptAsset) := mkRegistry
  (fun pid version tenant rows => (Ok (prompt_resolve rows pid version tenant), rows))
  (fun asset rows =>
     if existsb (fun e => String.eqb (pa_prompt_id e) (pa_prompt_id asset) &&
                          Z.eqb (pa_version e) (pa_version asset) &&
                          bool_decide (pa_tenant_id e = pa_tenant_id asset)) rows
     then (Err already_registered, rows)
     else (Ok tt, rows ++ [asset]))
  (fun pid tenant rows =>
     (Ok (match List.filter (in_scope pid tenant) rows with
          | [] => None
          | r0 :: rs => Some (fold_left Z.max (map pa_version rs) (pa_version r0))
          end), rows)).

(** ** [PgPromptRegistry]

    Every statement consults a fault oracle.  The two partial unique indexes of
    the migration separate the global rows from the tenants'. *)

Record PgPrompts : Type := mkPgPrompts {
  pg_rows : list PromptAsset; pg_step : nat; pg_fault : nat -> option exn
}.

Definition pg_statement {A} (f : list PromptAsset -> res A * list PromptAsset) : M PgPrompts A := fun w =>
  match pg_fault w (pg_step w) with
  | Some e => (Err e, mkPgPrompts (pg_rows w) (S (pg_step w)) (pg_fault w))
  | None => let '(o, rows) := f (pg_rows w) in (o, mkPgPrompts rows (S (pg_step w)) (pg_fault w))
  end.

Definition version_ge (a b : PromptAsset) : Prop := pa_version b <= pa_version a.
#[global] Instance version_ge_dec : RelDecision version_ge.
Proof. intros a b. unfold version_ge. apply _. Defined.

Definition is_global (pid : string) (a : PromptAsset) : bool :=
  String.eqb (pa_prompt_id a) pid && match pa_tenant_id a with None => true | Some _ => false end.
Definition is_tenant (pid t : string) (a : PromptAsset) : bool :=
  String.eqb (pa_prompt_id a) pid && match pa_tenant_id a with Some t' => String.eqb t' t | None => false end.

(** [WHERE <p> AND version = $2 LIMIT 1] and [WHERE <p> ORDER BY version DESC
    LIMIT 1]. *)
Definition fetch_specific (p : PromptAsset -> bool) (v : Z) : M PgPrompts (option PromptAsset) :=
  pg_statement (fun rows => (Ok (head (List.filter (fun a => p a && Z.eqb (pa_version a) v) rows)), rows)).
Definition fetch_latest (p : PromptAsset -> bool) : M PgPrompts (option PromptAsset) :=
  pg_statement (fun rows => (Ok (head (merge_sort version_ge (List.filter p rows))), rows)).
Definition select_max (p : PromptAsset -> bool) : M PgPrompts (option Z) :=
  pg_statement (fun rows => (Ok (pa_version <$> head (merge_sort version_ge (List.filter p rows))), rows)).

Definition pg_insert (asset : PromptAsset) : M PgPrompts unit :=
  pg_statement (fun rows =>
    let clash e := match pa_tenant_id asset, pa_tenant_id e with
                   | None, None => true
                   | Some t, Some t' => String.eqb t t'
                   | _, _ => false
                   end && String.eqb (pa_prompt_id e) (pa_prompt_id asset) &&
                   Z.eqb (pa_version e) (pa_version asset) in
    if existsb clash rows then (Err UniqueViolationError, rows) else (Ok tt, rows ++ [asset])).

Definition pg_registry : Registry PgPrompts := mkRegistry
  (fun pid version tenant =>
     own <- match tenant with
            | None => ret None
            | Some t => match version with
                        | Some v => fetch_specific (is_tenant pid t) v
                        | None => fetch_latest (is_tenant pid t)
                        end
            end ;;
     match own with
     | Some a => ret (Some a)
     | None => match version with
               | Some v => fetch_specific (is_global pid) v
               | None => fetch_latest (is_global pid)
               end
     end)
  (fun asset => try_except (pg_insert asset)
     (fun e => match e with UniqueViolationError => Some (raise already_registered) | _ => None end))
  (fun pid tenant => select_max (match tenant with None => is_global pid | Some t => is_tenant pid t end)).

(** ** [CachingPromptRegistry] *)

Abbreviation CacheKey := (string * option Z * option string)%type.
Record CacheEntry : Type := mkCacheEntry { ce_asset : option PromptAsset; ce_expires_at : Z }.
Record CacheConfig : Type := mkCacheConfig { cc_ttl : Z; cc_negative_ttl : Z }.
Definition default_cache_config : CacheConfig := mkCacheConfig 60000000 5000000.

Definition caching_init (c : CacheConfig) : res CacheConfig :=
  if cc_ttl c <=? 0 then Err (ValueError "ttl_seconds must be positive")
  else if cc_negative_ttl c <=? 0 then Err (ValueError "negative_ttl_seconds must be positive")
  else Ok c.

(** The cache beside the world of the inner registry, with the readings of the
    monotonic clock to come. *)
Record Cached (W : Type) : Type := mkCached {
  ca_cache : gmap CacheKey CacheEntry; ca_clock : nat -> Z; ca_step : nat; ca_inner : W
}.
Arguments mkCached {W}.
Arguments ca_cache {W}.
Arguments ca_clock {W}.
Arguments ca_step {W}.
Arguments ca_inner {W}.

Section Caching.
Context {W : Type} (config : CacheConfig) (inner : Registry W).

Definition inner_call {A} (m : M W A) : M (Cached W) A := fun w =>
  let '(o, u) := m (ca_inner w) in (o, mkCached (ca_cache w) (ca_clock w) (ca_step w) u).
Definition cache_monotonic : M (Cached W) Z := fun w =>
  (Ok (ca_clock w (ca_step w)), mkCached (ca_cache w) (ca_clock w) (S (ca_step w)) (ca_inner w)).

(** The two critical sections of [fetch_or_none] and the one of [register]. *)
Definition cache_lookup (key : CacheKey) (now : Z) : M (Cached W) (option CacheEntry) := fun w =>
  (Ok (match ca_cache w !! key with
       | Some e => if now <? ce_expires_at e then Some e else None
       | None => None
       end), w).
Definition cache_store (key : CacheKey) (asset : option PromptAsset) : M (Cached W) unit :=
  let ttl := match asset with Some _ => cc_ttl config | None => cc_negative_ttl config end in
  now <- cache_monotonic ;;
  modify (fun w => mkCached (<[key := mkCacheEntry asset (now + ttl)]> (ca_cache w)) (ca_clock w) (ca_step w)
                     (ca_inner w)).
Definition cache_drop (pid : string) : M (Cached W) unit :=
  modify (fun w => mkCached (filter (fun kv => kv.1.1.1 <> pid) (ca_cache w)) (ca_clock w) (ca_step w)
                     (ca_inner w)).

Definition caching_registry : Registry (Cached W) := mkRegistry
  (fun pid version tenant =>
     let key := (pid, version, tenant) in
     now <- cache_monotonic ;;
     entry <- cache_lookup key now ;;
     match entry with
     | Some e => ret (ce_asset e)
     | None =>
         asset <- inner_call (rg_fetch_or_none inner pid version tenant) ;;
         cache_store key asset ;;;
         ret asset
     end)
  (fun asset => inner_call (rg_register inner asset) ;;; cache_drop (pa_prompt_id asset))
  (fun pid tenant => inner_call (rg_latest_version inner pid tenant)).
End Caching.

(** ** Seeds *)

Record PromptSeed : Type := mkPromptSeed { ps_prompt_id : string; ps_description : string; ps_content : string }.

(** The texts are written with single quotes for the double quotes they contain. *)
Fixpoint double_quotes (s : string) : string :=
  match s with
  | "" => ""
  | String c s' => String (if Nat.eqb (Ascii.nat_of_ascii c) 39 then Ascii.ascii_of_nat 34 else c) (double_quotes s')
  end.

Definition BUG_FIX_PLAN_SYSTEM : string :=
  "You are a code repair agent. Read the issue and the listed files, then write a concise plan "
  +:+ "(at most 6 lines) describing the minimal change required to fix the bug. Do not output code "
  +:+ "yet; only the plan.".

Definition BUG_FIX_PATCH_SYSTEM : string :=
  double_quotes ("You are a code patcher. Apply the provided plan to fix the issue. Return ONLY JSON of the form "
  +:+ "{'files':[{'path':'<rel>','content':'<full>'}]}. You may only modify files in this allow-list: "
  +:+ "[$allow_list]. At most $max_files files; each file at most $max_file_bytes bytes. Emit the "
  +:+ "FULL new content of each modified file, not a diff.").

Definition BUG_FIX_V2_SYSTEM : string :=
  "You are a code repair agent working inside a dedicated task workspace. Use the available tools "
  +:+ "to inspect files, modify code, and optionally run safe verification commands. Only edit files "
  +:+ "in this allow-list: [$allow_list]. Prefer the smallest viable fix. When the change is ready, "
  +:+ "stop calling tools and reply with a one-line summary of what you changed.".

Definition CODE_REVIEW_SYSTEM : string :=
  double_quotes ("You are a senior code reviewer. Read the unified diff and any supplied context, then return "
  +:+ "ONLY a single JSON object matching this schema (no prose, no fences):" +:+ newline
  +:+ "{'verdict':'approve'|'request_changes'|'comment','summary':'<one-paragraph reviewer "
  +:+ "summary>','findings':[{'category':'bug'|'regression'|'security'|'test_gap'|'style'|'other',"
  +:+ "'severity':'blocker'|'major'|'minor'|'info','file':'<repo-relative path or "
  +:+ "null>','line_range':'<e.g. 12-18 or null>','message':'<what is wrong and "
  +:+ "why>','suggested_action':'<what to change or null>'}],'confidence':<float 0.0-1.0>}" +:+ newline
  +:+ "Emit at most $max_findings findings. Prefer fewer, higher-signal findings over volume. Focus "
  +:+ "on behavior regressions, missing tests, security risks and obvious bugs.").

Definition BUILTIN_PROMPT_SEEDS : list PromptSeed :=
  [mkPromptSeed "bug_fix.plan.system"
     "System framing for the bug_fix v1 plan node."
     BUG_FIX_PLAN_SYSTEM;
   mkPromptSeed "bug_fix.patch.system"
     ("System framing for the bug_fix v1 patch node. Placeholders: $allow_list, $max_files, " +:+ "$max_file_bytes.")
     BUG_FIX_PATCH_SYSTEM;
   mkPromptSeed "bug_fix.system"
     ("System framing for the bug_fix graph (tool-use loop). Placeholder: $allow_list.")
     BUG_FIX_V2_SYSTEM;
   mkPromptSeed "code_review.system"
     ("System framing for the code_review graph; produces the structured-JSON verdict. Placeholder: "
      +:+ "$max_findings.")
     CODE_REVIEW_SYSTEM].

Definition seed_asset (seed : PromptSeed) (version now : Z) : PromptAsset :=
  mkPromptAsset (ps_prompt_id seed) version None (ps_content seed) (Some (ps_description seed)) now.

Section Seeding.
(** [hashlib.sha256(...).hexdigest()]. *)
Context (compute_content_hash : string -> string).
Context {W : Type} (registry : Registry W).

(** The latest row when its hash is the seed's. *)
Definition matching_row (seed : PromptSeed) (current_version : option Z) : M W (option PromptAsset) :=
  match current_version with
  | None => ret None
  | Some v =>
      existing <- rg_fetch_or_none registry (ps_prompt_id seed) (Some v) None ;;
      ret (match existing with
           | Some a => if String.eqb (compute_content_hash (pa_content a)) (compute_content_hash (ps_content seed))
                       then Some a else None
           | None => None
           end)
  end.

Definition ensure_one (now : Z) (seed : PromptSeed) : M W PromptAsset :=
  current_version <- rg_latest_version registry (ps_prompt_id seed) None ;;
  let next_version := match current_version with None => 1 | Some v => v + 1 end in
  existing <- matching_row seed current_version ;;
  match existing with
  | Some a => ret a
  | None =>
      asset <- lift (check_asset (seed_asset seed next_version now)) ;;
      rg_register registry asset ;;;
      ret asset
  end.

Definition ensure_seeded (seeds : list PromptSeed) (now : Z) : M W (list PromptAsset) :=
  for_each seeds [] (fun seed materialised => asset <- ensure_one now seed ;; ret (materialised ++ [asset])).
End Seeding.
