(* ===== verification/PromptFacts.v ===== *)
(** * PromptFacts: what a prompt registry promises

    The laws of the port over the table of prompts, the in-memory, Postgres and
    caching registries as instances, their agreement on every sequence of
    operations, and the seeding of the built-in prompts against the laws.  The
    last part shows what overlapping calls do to the cache. *)

From S2P Require Import Prelude Domain PromptRegistry.

(** ** The table and its lookups *)

Definition latest_in (m : PromptTable) (pid : string) (scope : option string) (o : option PromptAsset) : Prop :=
  match o with
  | None => forall v, m !! (pid, v, scope) = None
  | Some a => m !! (pid, pa_version a, scope) = Some a /\
              forall v b, m !! (pid, v, scope) = Some b -> v <= pa_version a
  end.

Definition scope_spec (m : PromptTable) (pid : string) (version : option Z) (scope : option string)
    (o : option PromptAsset) : Prop :=
  match version with Some v => m !! (pid, v, scope) = o | None => latest_in m pid scope o end.

(** A tenant's row shadows the global one. *)
Definition fetch_spec (m : PromptTable) (pid : string) (version : option Z) (tenant : option string)
    (o : option PromptAsset) : Prop :=
  match tenant with
  | None => scope_spec m pid version None o
  | Some t => exists own, scope_spec m pid version (Some t) own /\
                match own with Some a => o = Some a | None => scope_spec m pid version None o end
  end.

Lemma latest_unique m pid scope o1 o2 : latest_in m pid scope o1 -> latest_in m pid scope o2 -> o1 = o2.
Proof.
  destruct o1 as [a|], o2 as [b|]; simpl; [|intros [H _] N; by rewrite N in H|intros N [H _]; by rewrite N in H|done].
  intros [Ha Ma] [Hb Mb]. specialize (Ma _ _ Hb). specialize (Mb _ _ Ha).
  assert (pa_version a = pa_version b) as E by lia. rewrite E in Ha. congruence.
Qed.

Lemma scope_unique m pid v scope o1 o2 : scope_spec m pid v scope o1 -> scope_spec m pid v scope o2 -> o1 = o2.
Proof. destruct v; simpl; [congruence|apply latest_unique]. Qed.

Lemma fetch_unique m pid v t o1 o2 : fetch_spec m pid v t o1 -> fetch_spec m pid v t o2 -> o1 = o2.
Proof.
  destruct t as [t|]; simpl; [|apply scope_unique].
  intros (x & Hx & H1) (y & Hy & H2). assert (x = y) as -> by eauto using scope_unique.
  destruct y; [congruence|eauto using scope_unique].
Qed.

(** Lookups depend on the rows of their own prompt only. *)
Definition same_prompt (pid : string) (m m' : PromptTable) : Prop :=
  forall v scope, m !! (pid, v, scope) = m' !! (pid, v, scope).

Lemma fetch_same_prompt pid m m' v t o : same_prompt pid m m' -> fetch_spec m pid v t o -> fetch_spec m' pid v t o.
Proof.
  intros E. assert (forall scope x, scope_spec m pid v scope x -> scope_spec m' pid v scope x) as Hs.
  { intros scope x. destruct v as [v|]; simpl; [by rewrite (E v scope)|].
    destruct x as [a|]; simpl; setoid_rewrite (fun u => E u scope); done. }
  destruct t as [t|]; simpl; [|apply Hs]. intros (own & Ho & H). exists own.
  split; [by apply Hs|]. destruct own; [done|by apply Hs].
Qed.

(** ** The laws *)

Class PromptRegistryLaws {W} (R : Registry W) := {
  rl_table : W -> PromptTable;
  rl_ok : W -> Prop;
  rl_up : W -> Prop;
  rl_fetch : forall pid v t w, rl_ok w ->
    let r := rg_fetch_or_none R pid v t w in
    rl_ok r.2 /\ rl_table r.2 = rl_table w /\
    (forall o, r.1 = Ok o -> fetch_spec (rl_table w) pid v t o) /\
    (rl_up w -> rl_up r.2 /\ exists o, r.1 = Ok o);
  rl_register : forall a w, rl_ok w ->
    let r := rg_register R a w in
    rl_ok r.2 /\
    (r.1 = Ok tt -> rl_table w !! pa_key a = None /\ rl_table r.2 = <[pa_key a := a]> (rl_table w)) /\
    (forall e, r.1 = Err e -> rl_table r.2 = rl_table w) /\
    (rl_up w -> rl_up r.2 /\
       r.1 = match rl_table w !! pa_key a with None => Ok tt | Some _ => Err already_registered end);
  rl_latest : forall pid t w, rl_ok w ->
    let r := rg_latest_version R pid t w in
    rl_ok r.2 /\ rl_table r.2 = rl_table w /\
    (forall o, r.1 = Ok o -> exists a, latest_in (rl_table w) pid t a /\ o = pa_version <$> a) /\
    (rl_up w -> rl_up r.2 /\ exists o, r.1 = Ok o)
}.

(** ** Rows as a table *)

Definition table_of (rows : list PromptAsset) : PromptTable := list_to_map (map (fun a => (pa_key a, a)) rows).

Lemma table_keys rows : (map (fun a => (pa_key a, a)) rows).*1 = map pa_key rows.
Proof. by induction rows; simpl; f_equal. Qed.

Lemma lookup_table rows k a :
  NoDup (map pa_key rows) -> table_of rows !! k = Some a <-> a ∈ rows /\ pa_key a = k.
Proof.
  intros Hn. unfold table_of. rewrite <- elem_of_list_to_map by (by rewrite table_keys).
  rewrite list_elem_of_fmap. split; [intros (x & [= -> ->] & Hx); done|intros [H <-]; by exists a].
Qed.

Lemma lookup_table_None rows k : table_of rows !! k = None <-> k ∉ map pa_key rows.
Proof. unfold table_of. rewrite <- not_elem_of_list_to_map, table_keys. done. Qed.

Lemma table_snoc rows a : pa_key a ∉ map pa_key rows -> table_of (rows ++ [a]) = <[pa_key a := a]> (table_of rows).
Proof.
  intros H. unfold table_of. rewrite map_app. simpl. apply list_to_map_snoc. by rewrite table_keys.
Qed.

Definition selects (p : PromptAsset -> bool) (pid : string) (scope : option string) : Prop :=
  forall a, p a = true <-> pa_prompt_id a = pid /\ pa_tenant_id a = scope.

Lemma in_scope_selects pid scope : selects (in_scope pid scope) pid scope.
Proof. intros a. unfold in_scope. rewrite andb_true_iff, bool_decide_eq_true, String.eqb_eq. done. Qed.

Lemma is_global_selects pid : selects (is_global pid) pid None.
Proof.
  intros a. unfold is_global. rewrite andb_true_iff, String.eqb_eq. destruct (pa_tenant_id a); naive_solver.
Qed.

Lemma is_tenant_selects pid t : selects (is_tenant pid t) pid (Some t).
Proof.
  intros a. unfold is_tenant. rewrite andb_true_iff, String.eqb_eq. destruct (pa_tenant_id a) as [t'|].
  - rewrite String.eqb_eq. naive_solver.
  - naive_solver.
Qed.

Lemma in_filter {A} (p : A -> bool) l x : x ∈ List.filter p l <-> x ∈ l /\ p x = true.
Proof. rewrite !list_elem_of_In. apply filter_In. Qed.

(** The greatest of the selected rows is the latest of the table. *)
Lemma latest_of_rows p rows pid scope o :
  NoDup (map pa_key rows) -> selects p pid scope ->
  match o with
  | None => List.filter p rows = []
  | Some a => a ∈ List.filter p rows /\ forall b, b ∈ List.filter p rows -> pa_version b <= pa_version a
  end -> latest_in (table_of rows) pid scope o.
Proof.
  intros Hn Hp. destruct o as [a|]; simpl.
  - intros [Ha Hmax]. apply in_filter in Ha as [Ha Hpa]. apply Hp in Hpa as [<- <-].
    split; [by apply lookup_table|]. intros v b Hb. apply lookup_table in Hb as [Hb [= E1 <- E3]]; [|done].
    apply Hmax, in_filter. split; [done|]. by apply Hp.
  - intros E v. destruct (table_of rows !! _) as [b|] eqn:Hb; [|done].
    apply lookup_table in Hb as [Hb [= E1 _ E3]]; [|done].
    assert (b ∈ List.filter p rows) as H by (apply in_filter; split; [done|by apply Hp]).
    rewrite E in H. by apply elem_of_nil in H.
Qed.

Lemma specific_of_rows p rows pid scope v :
  NoDup (map pa_key rows) -> selects p pid scope ->
  table_of rows !! (pid, v, scope) = head (List.filter (fun a => p a && Z.eqb (pa_version a) v) rows).
Proof.
  intros Hn Hp. destruct (List.filter _ rows) as [|a l] eqn:E; simpl.
  - destruct (table_of rows !! _) as [b|] eqn:Hb; [|done]. apply lookup_table in Hb as [Hb [= E1 E2 E3]]; [|done].
    assert (b ∈ List.filter (fun a => p a && Z.eqb (pa_version a) v) rows) as H.
    { apply in_filter. split; [done|]. apply andb_true_iff. split; [by apply Hp|by apply Z.eqb_eq]. }
    rewrite E in H. by apply elem_of_nil in H.
  - assert (a ∈ a :: l) as H by left. rewrite <- E in H. apply in_filter in H as [Ha H].
    apply andb_true_iff in H as [H1 H2]. apply Z.eqb_eq in H2. apply Hp in H1 as [<- <-].
    apply lookup_table; [done|]. unfold pa_key. by rewrite H2.
Qed.

(** ** The in-memory registry *)

Lemma max_version_spec r0 rs :
  max_version r0 rs ∈ r0 :: rs /\ forall b, b ∈ r0 :: rs -> pa_version b <= pa_version (max_version r0 rs).
Proof.
  unfold max_version. revert r0. induction rs as [|r rs IH]; intros r0; simpl.
  { split; [by left|]. intros b Hb. apply list_elem_of_singleton in Hb as ->. lia. }
  destruct (IH (if pa_version r0 <? pa_version r then r else r0)) as [Hin Hmax].
  split; [destruct (pa_version r0 <? pa_version r); set_solver|].
  assert (pa_version (if pa_version r0 <? pa_version r then r else r0) <=
          pa_version (fold_left (fun best x => if pa_version best <? pa_version x then x else best) rs
                        (if pa_version r0 <? pa_version r then r else r0))) as Hb0 by (apply Hmax; by left).
  intros b Hb. rewrite !elem_of_cons in Hb.
  destruct (Z.ltb_spec (pa_version r0) (pa_version r)); destruct Hb as [->|[->|Hb]]; try lia; apply Hmax; by right.
Qed.

Lemma max_versions rs : forall r0, fold_left Z.max (map pa_version rs) (pa_version r0) = pa_version (max_version r0 rs).
Proof.
  unfold max_version. induction rs as [|r rs IH]; intros r0; simpl; [done|]. rewrite <- IH. f_equal.
  destruct (Z.ltb_spec (pa_version r0) (pa_version r)); lia.
Qed.

Lemma latest_max p rows pid scope r0 rs :
  NoDup (map pa_key rows) -> selects p pid scope -> List.filter p rows = r0 :: rs ->
  latest_in (table_of rows) pid scope (Some (max_version r0 rs)).
Proof.
  intros Hn Hp E. apply (latest_of_rows p); [done..|]. simpl. rewrite E. apply max_version_spec.
Qed.

Lemma filter_filter {A} (p q : A -> bool) l : List.filter q (List.filter p l) = List.filter (fun x => p x && q x) l.
Proof. induction l as [|x l IH]; simpl; [done|]. destruct (p x); simpl; [destruct (q x)|]; by rewrite ?IH. Qed.

(** One round of [_resolve]. *)
Lemma resolve_scopes_cons rows pid v scope rest :
  NoDup (map pa_key rows) ->
  exists own, scope_spec (table_of rows) pid v scope own /\
    resolve_scopes rows pid v (scope :: rest) =
      match own with Some a => Some a | None => resolve_scopes rows pid v rest end.
Proof.
  intros Hn. cbn [resolve_scopes]. pose proof (in_scope_selects pid scope) as Hp.
  destruct (List.filter (in_scope pid scope) rows) as [|r0 rs] eqn:E.
  - exists None. split; [|done]. destruct v as [v|]; simpl; [|by apply (latest_of_rows _ _ _ _ None Hn Hp)].
    rewrite (specific_of_rows _ _ _ _ v Hn Hp), <- filter_filter, E. done.
  - destruct v as [v|]; [|exists (Some (max_version r0 rs)); split; [by eapply latest_max|done]].
    eexists. split; [exact (specific_of_rows _ _ _ _ v Hn Hp)|].
    rewrite <- filter_filter, E. by destruct (List.filter (fun x => Z.eqb (pa_version x) v) (r0 :: rs)).
Qed.

Lemma prompt_resolve_spec rows pid v t :
  NoDup (map pa_key rows) -> fetch_spec (table_of rows) pid v t (prompt_resolve rows pid v t).
Proof.
  intros Hn. unfold prompt_resolve, prompt_scopes. destruct t as [t|].
  - destruct (resolve_scopes_cons rows pid v (Some t) [None] Hn) as (own & Ho & ->). exists own.
    split; [done|]. destruct own; [done|].
    destruct (resolve_scopes_cons rows pid v None [] Hn) as (g & Hg & ->). by destruct g.
  - destruct (resolve_scopes_cons rows pid v None [] Hn) as (g & Hg & ->). by destruct g.
Qed.

Lemma clash_iff (clash : PromptAsset -> bool) rows asset :
  (forall e, clash e = true <-> pa_key e = pa_key asset) ->
  existsb clash rows = true <-> pa_key asset ∈ map pa_key rows.
Proof.
  intros Hc. rewrite existsb_exists, list_elem_of_fmap. setoid_rewrite <- list_elem_of_In.
  setoid_rewrite Hc. split; intros (x & H1 & H2); by exists x.
Qed.

(** Inserting a row unless its key is taken. *)
Lemma insert_unless_taken (clash : PromptAsset -> bool) rows asset :
  (forall e, clash e = true <-> pa_key e = pa_key asset) -> NoDup (map pa_key rows) ->
  if existsb clash rows
  then exists b, table_of rows !! pa_key asset = Some b
  else table_of rows !! pa_key asset = None /\ NoDup (map pa_key (rows ++ [asset])) /\
       table_of (rows ++ [asset]) = <[pa_key asset := asset]> (table_of rows).
Proof.
  intros Hc Hn. pose proof (clash_iff clash rows asset Hc) as Hi. destruct (existsb clash rows).
  - destruct (table_of rows !! pa_key asset) as [b|] eqn:E; [by exists b|].
    apply lookup_table_None in E. destruct E. by apply Hi.
  - assert (pa_key asset ∉ map pa_key rows) as H by (by intros H%Hi).
    split; [by apply lookup_table_None|]. split; [|by apply table_snoc].
    rewrite map_app. apply NoDup_app. simpl. split; [done|]. split; [by intros x Hx ->%list_elem_of_singleton|apply NoDup_singleton].
Qed.

#[export] Instance in_memory_laws : PromptRegistryLaws in_memory_registry.
Proof.
  refine {| rl_table := table_of; rl_ok := fun rows => NoDup (map pa_key rows); rl_up := fun _ => True |}.
  - intros pid v t rows Hn. simpl. split_and!; [done..| |by eauto].
    intros o [= <-]. by apply prompt_resolve_spec.
  - intros a rows Hn. cbn [rg_register in_memory_registry].
    assert (forall e, String.eqb (pa_prompt_id e) (pa_prompt_id a) && Z.eqb (pa_version e) (pa_version a) &&
              bool_decide (pa_tenant_id e = pa_tenant_id a) = true <-> pa_key e = pa_key a) as Hc.
    { intros e. rewrite !andb_true_iff, String.eqb_eq, Z.eqb_eq, bool_decide_eq_true. unfold pa_key.
      split; [by intros [[-> ->] ->]|by intros [= -> -> ->]]. }
    pose proof (insert_unless_taken _ rows a Hc Hn) as Hi. destruct (existsb _ rows); simpl.
    + destruct Hi as [b ->]. split_and!; [done| |done|done]. done.
    + destruct Hi as (-> & Hn' & ->). split_and!; done.
  - intros pid t rows Hn. simpl. split_and!; [done..| |by eauto].
    intros o [= <-]. destruct (List.filter (in_scope pid t) rows) as [|r0 rs] eqn:E.
    + exists None. split; [|done]. by apply (latest_of_rows _ _ _ _ None Hn (in_scope_selects pid t)).
    + exists (Some (max_version r0 rs)). split; [by apply (latest_max (in_scope pid t)); [|apply in_scope_selects|]|].
      simpl. f_equal. apply max_versions.
Defined.

(** ** The Postgres registry *)

#[local] Instance version_ge_trans : Transitive version_ge.
Proof. intros a b c. unfold version_ge. lia. Qed.
#[local] Instance version_ge_total : Total version_ge.
Proof. intros a b. unfold version_ge. lia. Qed.

Lemma head_latest p rows pid scope :
  NoDup (map pa_key rows) -> selects p pid scope ->
  latest_in (table_of rows) pid scope (head (merge_sort version_ge (List.filter p rows))).
Proof.
  intros Hn Hp. apply (latest_of_rows p); [done..|].
  pose proof (merge_sort_Permutation version_ge (List.filter p rows)) as HP.
  pose proof (StronglySorted_merge_sort version_ge (List.filter p rows)) as HS.
  destruct (merge_sort version_ge (List.filter p rows)) as [|a l]; simpl.
  - by apply Permutation_nil in HP.
  - split; [rewrite <- HP; by left|]. intros b Hb. rewrite <- HP, elem_of_cons in Hb.
    destruct Hb as [->|Hb]; [lia|]. apply StronglySorted_inv in HS as [_ HS].
    rewrite Forall_forall in HS. by apply HS.
Qed.

Definition pg_up (w : PgPrompts) : Prop := forall n, (pg_step w <= n)%nat -> pg_fault w n = None.

(** What a select does. *)
Definition reads {A} (m : M PgPrompts A) (Q : list PromptAsset -> A -> Prop) : Prop :=
  forall w, NoDup (map pa_key (pg_rows w)) ->
    pg_rows (m w).2 = pg_rows w /\ (forall o, (m w).1 = Ok o -> Q (pg_rows w) o) /\
    (pg_up w -> pg_up (m w).2 /\ exists o, (m w).1 = Ok o).

Lemma select_reads {A} (g : list PromptAsset -> A) (Q : list PromptAsset -> A -> Prop) :
  (forall rows, NoDup (map pa_key rows) -> Q rows (g rows)) -> reads (pg_statement (fun rows => (Ok (g rows), rows))) Q.
Proof.
  intros HQ w Hn. unfold pg_statement. destruct (pg_fault w (pg_step w)) eqn:E; simpl.
  - split_and!; [done..|]. intros Hu. by rewrite (Hu (pg_step w)) in E.
  - split_and!; [done|intros o [= <-]; auto|]. intros Hu. split; [|by eexists]. intros n Hle. apply Hu. simpl in Hle. lia.
Qed.

Lemma ret_reads {A} (a : A) (Q : list PromptAsset -> A -> Prop) : (forall rows, Q rows a) -> reads (ret a) Q.
Proof. intros HQ w Hn. simpl. split_and!; [done|by intros o [= <-]|eauto]. Qed.

Lemma bind_reads {A B} (m : M PgPrompts A) (k : A -> M PgPrompts B) (P : list PromptAsset -> A -> Prop)
    (Q : list PromptAsset -> B -> Prop) :
  reads m P -> (forall a, reads (k a) (fun rows b => P rows a -> Q rows b)) -> reads (bind m k) Q.
Proof.
  intros Hm Hk w Hn. destruct (Hm w Hn) as (Er & Ho & Hu). unfold bind.
  destruct (m w) as [[a|e] w1]; simpl in *.
  - destruct (Hk a w1) as (Er2 & Ho2 & Hu2); [by rewrite Er|]. rewrite Er in Er2, Ho2.
    split_and!; [done|eauto|]. intros H. destruct (Hu H) as [Hu1 _]. auto.
  - split_and!; [done..|]. intros H. by destruct (Hu H) as [_ [o Hx]].
Qed.

Lemma fetch_scope_reads p pid scope v :
  selects p pid scope ->
  reads (match v with Some v => fetch_specific p v | None => fetch_latest p end)
    (fun rows o => scope_spec (table_of rows) pid v scope o).
Proof.
  intros Hp. destruct v as [v|]; apply select_reads; intros rows Hn; simpl.
  - by apply specific_of_rows.
  - by apply head_latest.
Qed.

#[export] Instance pg_laws : PromptRegistryLaws pg_registry.
Proof.
  refine {| rl_table := fun w => table_of (pg_rows w); rl_ok := fun w => NoDup (map pa_key (pg_rows w));
            rl_up := pg_up |}.
  - intros pid v t w Hn.
    assert (reads (rg_fetch_or_none pg_registry pid v t) (fun rows o => fetch_spec (table_of rows) pid v t o)) as Hr.
    { cbn [rg_fetch_or_none pg_registry]. destruct t as [t|].
      - eapply bind_reads; [exact (fetch_scope_reads _ _ _ v (is_tenant_selects pid t))|].
        intros [a|]; [apply ret_reads; intros rows H; by exists (Some a)|].
        intros w' Hn'. destruct (fetch_scope_reads _ _ _ v (is_global_selects pid) w' Hn') as (H1 & H2 & H3).
        split_and!; [done| |done]. intros o Ho Hown. exists None. auto.
      - eapply (bind_reads _ _ (fun _ x => x = None)); [by apply ret_reads|]. intros own.
        destruct own as [a|]; [by apply ret_reads|].
        intros w' Hn'. destruct (fetch_scope_reads _ _ _ v (is_global_selects pid) w' Hn') as (H1 & H2 & H3).
        split_and!; [done| |done]. intros o Ho _. simpl. auto. }
    destruct (Hr w Hn) as (H1 & H2 & H3). cbv zeta. by rewrite H1.
  - intros a w Hn. cbn [rg_register pg_registry]. unfold try_except, pg_insert, pg_statement.
    destruct (pg_fault w (pg_step w)) as [e|] eqn:Ef.
    + assert (pg_up w -> False) as Hno by (intros Hu; by rewrite (Hu (pg_step w)) in Ef).
      destruct e; simpl; (split_and!; [done..| |]; [done|intros Hu; by destruct (Hno Hu)]).
    + set (clash := fun e : PromptAsset => _).
      assert (forall e, clash e = true <-> pa_key e = pa_key a) as Hc.
      { intros e. unfold clash. rewrite !andb_true_iff, String.eqb_eq, Z.eqb_eq. unfold pa_key.
        destruct (pa_tenant_id a) as [t|], (pa_tenant_id e) as [t'|]; rewrite ?String.eqb_eq; intuition congruence. }
      pose proof (insert_unless_taken _ (pg_rows w) a Hc Hn) as Hi.
      assert (forall rows, pg_up w -> pg_up (mkPgPrompts rows (S (pg_step w)) (pg_fault w))) as Hup.
      { intros rows Hu n Hle. apply Hu. simpl in Hle. lia. }
      cbv zeta. destruct (existsb clash (pg_rows w)); simpl.
      * destruct Hi as [b ->]. split_and!; [done|done|done|auto].
      * destruct Hi as (-> & Hn' & ->). split_and!; [done|done|done|auto].
  - intros pid t w Hn. cbn [rg_latest_version pg_registry].
    assert (selects (match t with None => is_global pid | Some t => is_tenant pid t end) pid t) as Hp
      by (destruct t; [apply is_tenant_selects|apply is_global_selects]).
    destruct (select_reads (fun rows => pa_version <$> head (merge_sort version_ge (List.filter
       (match t with None => is_global pid | Some t => is_tenant pid t end) rows)))
      (fun rows o => exists a, latest_in (table_of rows) pid t a /\ o = pa_version <$> a)
      ltac:(intros rows Hr; eexists; split; [by apply head_latest|done]) w Hn) as (H1 & H2 & H3).
    cbv zeta. unfold select_max. by rewrite H1.
Defined.

(** ** The cache over a lawful registry *)

Section CachingLaws.
Context {W : Type} (config : CacheConfig) (inner : Registry W) {L : PromptRegistryLaws inner}.

(** Every entry, expired or not, is what the inner registry would answer. *)
Definition coherent (w : Cached W) : Prop :=
  forall pid v t e, ca_cache w !! (pid, v, t) = Some e -> fetch_spec (rl_table (ca_inner w)) pid v t (ce_asset e).

Lemma coherent_insert m pid v t asset at_ clock step u :
  coherent (mkCached m clock step u) -> fetch_spec (rl_table u) pid v t asset ->
  coherent (mkCached (<[(pid, v, t) := mkCacheEntry asset at_]> m) clock step u).
Proof.
  intros Hc Hs pid' v' t' e. simpl. rewrite lookup_insert_Some.
  intros [[[= <- <- <-] <-]|[_ He]]; [done|]. by apply (Hc pid' v' t' e).
Qed.

Lemma coherent_drop m pid v scope a clock step (u u' : W) :
  coherent (mkCached m clock step u) -> rl_table u' = <[(pid, v, scope) := a]> (rl_table u) ->
  coherent (mkCached (filter (fun kv => kv.1.1.1 <> pid) m) clock step u').
Proof.
  intros Hc Ht pid' v' t' e. simpl. rewrite map_lookup_filter_Some. simpl. intros [He Hne].
  apply (fetch_same_prompt _ (rl_table u)); [|by apply (Hc pid' v' t' e)].
  intros x y. rewrite Ht, lookup_insert_ne; [done|congruence].
Qed.

(** What [fetch_or_none] guarantees of a run [r] from [w]. *)
Definition cached_answer pid v t (w : Cached W) (r : res (option PromptAsset) * Cached W) : Prop :=
  (rl_ok (ca_inner r.2) /\ coherent r.2) /\ rl_table (ca_inner r.2) = rl_table (ca_inner w) /\
  (forall o, r.1 = Ok o -> fetch_spec (rl_table (ca_inner w)) pid v t o) /\
  (rl_up (ca_inner w) -> rl_up (ca_inner r.2) /\ exists o, r.1 = Ok o).

Lemma cached_miss pid v t w :
  rl_ok (ca_inner w) -> coherent w ->
  cached_answer pid v t w
    ((asset <- inner_call (rg_fetch_or_none inner pid v t) ;;
      cache_store config (pid, v, t) asset ;;; ret asset) w).
Proof.
  intros Hok Hc. unfold cached_answer, bind, inner_call.
  destruct (rl_fetch pid v t (ca_inner w) Hok) as (H1 & H2 & H3 & H4). simpl in *.
  destruct (rg_fetch_or_none inner pid v t (ca_inner w)) as [[o|e] u]; simpl in *.
  - split_and!; [done| |done|intros x [= <-]; by apply H3|intros H; by split; [apply H4|eexists]].
    apply coherent_insert; [|rewrite H2; by apply H3].
    intros p' v' t' e He. simpl in *. rewrite H2. by apply (Hc p' v' t' e).
  - split_and!; [done| |done|done|intros H; destruct (H4 H) as [_ [o Ho]]; done].
    intros p' v' t' e' He. simpl in *. rewrite H2. by apply (Hc p' v' t' e').
Qed.

Lemma cached_fetch pid v t w :
  rl_ok (ca_inner w) -> coherent w ->
  cached_answer pid v t w (rg_fetch_or_none (caching_registry config inner) pid v t w).
Proof.
  intros Hok Hc. cbn [rg_fetch_or_none caching_registry]. unfold bind at 1, cache_monotonic at 1.
  unfold bind at 1, cache_lookup. cbv beta iota. cbn [ca_cache].
  set (w1 := mkCached _ _ (S (ca_step w)) _).
  destruct (ca_cache w !! (pid, v, t)) as [x|] eqn:E; [|by apply (cached_miss pid v t w1)].
  destruct (_ <? _); [|by apply (cached_miss pid v t w1)].
  unfold cached_answer. simpl. split_and!; [exact Hok|exact Hc|done| |eauto].
  intros o [= <-]. by apply (Hc pid v t x).
Qed.

#[export] Instance caching_laws : PromptRegistryLaws (caching_registry config inner).
Proof.
  refine {| rl_table := fun w => rl_table (ca_inner w);
            rl_ok := fun w => rl_ok (ca_inner w) /\ coherent w; rl_up := fun w => rl_up (ca_inner w) |}.
  - intros pid v t w [Hok Hc]. by apply cached_fetch.
  - intros a w [Hok Hc]. cbn [rg_register caching_registry]. unfold bind, inner_call, cache_drop, modify.
    destruct (rl_register a (ca_inner w) Hok) as (H1 & H2 & H3 & H4). simpl in *.
    destruct (rg_register inner a (ca_inner w)) as [[[]|e] u]; simpl in *.
    + destruct (H2 eq_refl) as [Hnew Ht]. split_and!; [done| |done|done|done].
      eapply (coherent_drop _ _ _ _ _ _ _ (ca_inner w)); [|exact Ht]. exact Hc.
    + split_and!; [done| |done|auto|done]. intros p v t e' He. simpl in *. rewrite (H3 e eq_refl).
      by apply (Hc p v t e').
  - intros pid t w [Hok Hc]. cbn [rg_latest_version caching_registry]. unfold inner_call.
    destruct (rl_latest pid t (ca_inner w) Hok) as (H1 & H2 & H3 & H4). simpl in *.
    destruct (rg_latest_version inner pid t (ca_inner w)) as [o u]; simpl in *. split_and!; [done| |done..].
    intros p v t' e' He. simpl in *. rewrite H2. by apply (Hc p v t' e').
Defined.
End CachingLaws.

(** ** Agreement of lawful registries *)

Inductive PromptOp : Type :=
  | OpFetch (pid : string) (version : option Z) (tenant : option string)
  | OpRegister (asset : PromptAsset)
  | OpLatest (pid : string) (tenant : option string).

Inductive PromptAnswer : Type :=
  | AnAsset (o : option PromptAsset)
  | AVersion (o : option Z)
  | Registered.

Definition run_op {W} (R : Registry W) (op : PromptOp) : M W PromptAnswer :=
  match op with
  | OpFetch pid v t => o <- rg_fetch_or_none R pid v t ;; ret (AnAsset o)
  | OpRegister a => rg_register R a ;;; ret Registered
  | OpLatest pid t => o <- rg_latest_version R pid t ;; ret (AVersion o)
  end.

(** A caller that goes on after an exception. *)
Fixpoint run_ops {W} (R : Registry W) (ops : list PromptOp) (w : W) : list (res PromptAnswer) * W :=
  match ops with
  | [] => ([], w)
  | op :: rest => let '(o, w1) := run_op R op w in let '(os, w2) := run_ops R rest w1 in (o :: os, w2)
  end.

Lemma run_op_agrees {W1 W2} (R1 : Registry W1) (R2 : Registry W2) {L1 : PromptRegistryLaws R1}
    {L2 : PromptRegistryLaws R2} op w1 w2 :
  rl_ok w1 -> rl_up w1 -> rl_ok w2 -> rl_up w2 -> rl_table w1 = rl_table w2 ->
  exists o v1 v2, run_op R1 op w1 = (o, v1) /\ run_op R2 op w2 = (o, v2) /\
    rl_ok v1 /\ rl_up v1 /\ rl_ok v2 /\ rl_up v2 /\ rl_table v1 = rl_table v2.
Proof.
  intros Ho1 Hu1 Ho2 Hu2 E. destruct op as [pid v t|a|pid t]; simpl; unfold bind, ret.
  - destruct (rl_fetch pid v t w1 Ho1) as (A1 & A2 & A3 & A4), (rl_fetch pid v t w2 Ho2) as (B1 & B2 & B3 & B4).
    destruct (A4 Hu1) as [A5 [x Hx]], (B4 Hu2) as [B5 [y Hy]].
    assert (x = y) as -> by (eapply fetch_unique; [by apply A3|rewrite E; by apply B3]).
    destruct (rg_fetch_or_none R1 pid v t w1) as [? u1], (rg_fetch_or_none R2 pid v t w2) as [? u2]. simpl in *; subst.
    eexists _, u1, u2. split_and!; try done. congruence.
  - destruct (rl_register a w1 Ho1) as (A1 & A2 & A3 & A4), (rl_register a w2 Ho2) as (B1 & B2 & B3 & B4).
    destruct (A4 Hu1) as [A5 Hx], (B4 Hu2) as [B5 Hy]. rewrite E in Hx.
    destruct (rg_register R1 a w1) as [o1 u1], (rg_register R2 a w2) as [o2 u2]. simpl in *; subst o1 o2.
    destruct (rl_table w2 !! pa_key a).
    + eexists _, u1, u2. split_and!; try done. rewrite (A3 _ eq_refl), (B3 _ eq_refl). done.
    + eexists _, u1, u2. split_and!; try done. destruct (A2 eq_refl) as [_ ->], (B2 eq_refl) as [_ ->]. by rewrite E.
  - destruct (rl_latest pid t w1 Ho1) as (A1 & A2 & A3 & A4), (rl_latest pid t w2 Ho2) as (B1 & B2 & B3 & B4).
    destruct (A4 Hu1) as [A5 [x Hx]], (B4 Hu2) as [B5 [y Hy]].
    destruct (A3 x Hx) as (a & Ha & ->), (B3 y Hy) as (b & Hb & ->). rewrite E in Ha.
    assert (a = b) as -> by eauto using latest_unique.
    destruct (rg_latest_version R1 pid t w1) as [? u1], (rg_latest_version R2 pid t w2) as [? u2]. simpl in *; subst.
    eexists _, u1, u2. split_and!; try done. congruence.
Qed.

Lemma run_ops_agree {W1 W2} (R1 : Registry W1) (R2 : Registry W2) {L1 : PromptRegistryLaws R1}
    {L2 : PromptRegistryLaws R2} ops : forall w1 w2,
  rl_ok w1 -> rl_up w1 -> rl_ok w2 -> rl_up w2 -> rl_table w1 = rl_table w2 ->
  (run_ops R1 ops w1).1 = (run_ops R2 ops w2).1 /\
  rl_table (run_ops R1 ops w1).2 = rl_table (run_ops R2 ops w2).2.
Proof.
  induction ops as [|op ops IH]; intros w1 w2 Ho1 Hu1 Ho2 Hu2 E; [done|]. simpl.
  destruct (run_op_agrees R1 R2 op w1 w2) as (o & v1 & v2 & -> & -> & H1 & H2 & H3 & H4 & H5); [done..|].
  destruct (IH v1 v2 H1 H2 H3 H4 H5) as [IH1 IH2].
  destruct (run_ops R1 ops v1) as [os1 x1], (run_ops R2 ops v2) as [os2 x2]. simpl in *. by subst.
Qed.

(** C26: the registries are interchangeable.  Whatever prompts are registered and
    looked up, in whatever order and at whatever times, the deployed registry (the
    cache over Postgres, starting empty, with the database up) gives call by
    call the answers and errors of the in-memory one, and ends with the same
    prompts; entries expire without changing an answer. *)
Theorem deployed_registry_agrees config rows fault clock step ops :
  NoDup (map pa_key rows) -> (forall n, (step <= n)%nat -> fault n = None) ->
  let deployed := run_ops (caching_registry config pg_registry) ops
                    (mkCached ∅ clock 0 (mkPgPrompts rows step fault)) in
  let reference := run_ops in_memory_registry ops rows in
  deployed.1 = reference.1 /\ table_of (pg_rows (ca_inner deployed.2)) = table_of reference.2.
Proof.
  intros Hn Hf. refine (run_ops_agree (caching_registry config pg_registry) in_memory_registry ops
    (mkCached ∅ clock 0 (mkPgPrompts rows step fault)) rows _ Hf Hn I eq_refl).
  split; [exact Hn|]. intros pid v t e H. simpl in H. by rewrite lookup_empty in H.
Qed.

(** ** Seeding *)

Section SeedingFacts.
Context (hash : string -> string).
Context {W : Type} (R : Registry W) {L : PromptRegistryLaws R}.

(** [a] is the latest global version of the seed's prompt and has its content. *)
Definition seeded (m : PromptTable) (seed : PromptSeed) (a : PromptAsset) : Prop :=
  latest_in m (ps_prompt_id seed) None (Some a) /\ hash (pa_content a) = hash (ps_content seed).

Definition valid_seed (seed : PromptSeed) : Prop :=
  forall v now, 1 <= v -> check_asset (seed_asset seed v now) = Ok (seed_asset seed v now).

(** At most one global row is added, of a version of its own. *)
Definition grown (seed : PromptSeed) (m m' : PromptTable) : Prop :=
  m' = m \/ exists v a, 1 <= v /\ m !! (ps_prompt_id seed, v, None) = None /\
                       m' = <[(ps_prompt_id seed, v, None) := a]> m.

Lemma check_asset_same a b : check_asset a = Ok b -> b = a /\ 1 <= pa_version a.
Proof.
  unfold check_asset. destruct (negb (_ && _)); [done|]. destruct (Z.ltb_spec (pa_version a) 1); [done|].
  repeat match goal with |- context [if ?c then _ else _] => destruct c; [done|] end. by intros [= <-].
Qed.

Lemma matching_row_reads seed cur w :
  rl_ok w -> let r := matching_row hash R seed cur w in
  rl_ok r.2 /\ rl_table r.2 = rl_table w /\
  (rl_up w -> rl_up r.2 /\ r.1 = Ok (match cur with
     | None => None
     | Some v => match rl_table w !! (ps_prompt_id seed, v, None) with
                 | Some a => if String.eqb (hash (pa_content a)) (hash (ps_content seed)) then Some a else None
                 | None => None
                 end
     end)).
Proof.
  intros Hok. unfold matching_row. destruct cur as [v|]; [|done]. unfold bind, ret.
  destruct (rl_fetch (ps_prompt_id seed) (Some v) None w Hok) as (B1 & B2 & B3 & B4).
  destruct (rg_fetch_or_none R _ _ None w) as [[o|e] w2]; simpl in *; (split_and!; [done..|]); intros Hu.
  - split; [by apply B4|]. by rewrite (B3 o eq_refl).
  - by destruct (B4 Hu) as [_ [o Ho]].
Qed.

Lemma ensure_one_grows now seed w :
  rl_ok w -> let r := ensure_one hash R now seed w in rl_ok r.2 /\ grown seed (rl_table w) (rl_table r.2).
Proof.
  intros Hok. unfold ensure_one, bind, lift, ret.
  destruct (rl_latest (ps_prompt_id seed) None w Hok) as (A1 & A2 & _).
  destruct (rg_latest_version R _ None w) as [[cur|e] w1]; simpl in *; [|split; [done|by left]].
  destruct (matching_row_reads seed cur w1 A1) as (B1 & B2 & _).
  destruct (matching_row hash R seed cur w1) as [[[a|]|e] w2]; simpl in *; rewrite <- A2, <- B2;
    [split; [done|by left]| |split; [done|by left]].
  destruct (check_asset _) as [a|e] eqn:Ea; [|split; [done|by left]]. apply check_asset_same in Ea as [-> Hv].
  set (a := seed_asset _ _ _) in *. destruct (rl_register a w2 B1) as (C1 & C2 & C3 & _).
  destruct (rg_register R a w2) as [[[]|e] w3]; simpl in *; (split; [done|]); [right|left; by rewrite (C3 e eq_refl)].
  destruct (C2 eq_refl) as [Hn ->]. by eexists _, _.
Qed.

(** With the backend up, a valid seed ends up as the latest version, and one
    that already is stays as it is. *)
Lemma ensure_one_seeds now seed w :
  rl_ok w -> rl_up w -> valid_seed seed -> (forall k a, rl_table w !! k = Some a -> 1 <= k.1.2) ->
  exists a w', ensure_one hash R now seed w = (Ok a, w') /\ rl_up w' /\ seeded (rl_table w') seed a /\
    (forall a0, seeded (rl_table w) seed a0 -> a = a0 /\ rl_table w' = rl_table w).
Proof.
  intros Hok Hu Hv Hpos. unfold ensure_one, bind, lift, ret.
  destruct (rl_latest (ps_prompt_id seed) None w Hok) as (A1 & A2 & A3 & A4).
  destruct (A4 Hu) as [Hu1 [cur Hcur]], (rg_latest_version R _ None w) as [? w1]. simpl in *. subst.
  destruct (A3 cur eq_refl) as (latest & Hl & ->). clear A3 A4.
  destruct (matching_row_reads seed (pa_version <$> latest) w1 A1) as (B1 & B2 & B3).
  destruct (B3 Hu1) as [Hu2 HB], (matching_row hash R seed _ w1) as [? w2]. simpl in HB, Hu2, B1, B2. subst.
  rewrite A2. destruct latest as [a|]; simpl in *.
  - destruct Hl as [Ha Hmax]. rewrite Ha. pose proof (Hpos _ _ Ha) as H1. simpl in H1.
    destruct (String.eqb_spec (hash (pa_content a)) (hash (ps_content seed))) as [Eh|Eh].
    + exists a, w2. rewrite B2, A2. split_and!; [done..|by split|]. intros a0 [H0 _].
      split; [|done]. by injection (latest_unique _ _ _ (Some a) (Some a0) (conj Ha Hmax) H0).
    + rewrite Hv by lia. destruct (rl_register (seed_asset seed (pa_version a + 1) now) w2 B1) as (C1 & C2 & C3 & C4).
      destruct (C4 Hu2) as [Hu3 Ho]. rewrite B2, A2 in Ho.
      assert (rl_table w !! pa_key (seed_asset seed (pa_version a + 1) now) = None) as Hn.
      { destruct (rl_table w !! pa_key (seed_asset seed (pa_version a + 1) now)) as [b|] eqn:E; [|done]. apply Hmax in E. simpl in E. lia. }
      rewrite Hn in Ho. destruct (rg_register R _ w2) as [? w3]. simpl in *. subst.
      destruct (C2 eq_refl) as [_ Ht]. exists (seed_asset seed (pa_version a + 1) now), w3. rewrite Ht, B2, A2.
      split_and!; [done..| |].
      * split; [|done]. simpl. split; [by rewrite lookup_insert_eq|]. intros v b Hb.
        rewrite lookup_insert_Some in Hb. destruct Hb as [[[= <-] _]|[_ Hb]]; [lia|]. apply Hmax in Hb. lia.
      * intros a0 [H0 Hh]. by injection (latest_unique _ _ _ (Some a) (Some a0) (conj Ha Hmax) H0) as <-.
  - rewrite Hv by lia. destruct (rl_register (seed_asset seed 1 now) w2 B1) as (C1 & C2 & C3 & C4).
    destruct (C4 Hu2) as [Hu3 Ho]. rewrite B2, A2 in Ho. unfold pa_key, seed_asset in Ho. simpl in Ho.
    rewrite Hl in Ho. destruct (rg_register R _ w2) as [? w3]. simpl in *. subst.
    destruct (C2 eq_refl) as [_ Ht]. exists (seed_asset seed 1 now), w3. rewrite Ht, B2, A2. split_and!; [done..| |].
    + split; [|done]. simpl. split; [by rewrite lookup_insert_eq|]. intros v b Hb.
      rewrite lookup_insert_Some in Hb. destruct Hb as [[[= <-] _]|[_ Hb]]; [lia|]. by rewrite Hl in Hb.
    + intros a0 [[H0 _] _]. by rewrite Hl in H0.
Qed.

(** Rows stay as they are, and only global rows of the named prompts are new. *)
Definition only_adds (ids : list string) (m m' : PromptTable) : Prop :=
  m ⊆ m' /\ forall pid v scope, m !! (pid, v, scope) = None -> is_Some (m' !! (pid, v, scope)) ->
    pid ∈ ids /\ scope = None /\ 1 <= v.

Lemma grown_only_adds seed m m' : grown seed m m' -> only_adds [ps_prompt_id seed] m m'.
Proof.
  intros [->|(v & a & Hv & Hn & ->)].
  - split; [done|]. intros pid v scope E [x Hx]. by rewrite E in Hx.
  - split; [by apply insert_subseteq|]. intros pid v' scope E [x Hx].
    rewrite lookup_insert_Some in Hx. destruct Hx as [[[= <- <- <-] _]|[_ Hx]]; [|by rewrite E in Hx].
    split; [by left|done].
Qed.

Lemma only_adds_trans ids1 ids2 m1 m2 m3 :
  only_adds ids1 m1 m2 -> only_adds ids2 m2 m3 -> only_adds (ids1 ++ ids2) m1 m3.
Proof.
  intros [S1 N1] [S2 N2]. split; [by transitivity m2|]. intros pid v scope E H3.
  destruct (m2 !! (pid, v, scope)) as [x|] eqn:E2.
  - destruct (N1 pid v scope E) as (H & ? & ?); [by exists x|]. split_and!; [set_solver|done..].
  - destruct (N2 pid v scope E2 H3) as (H & ? & ?). split_and!; [set_solver|done..].
Qed.

Lemma only_adds_same ids m m' pid : only_adds ids m m' -> pid ∉ ids -> same_prompt pid m m'.
Proof.
  intros [S N] H v scope. destruct (m !! (pid, v, scope)) as [x|] eqn:E.
  - symmetry. by eapply lookup_weaken.
  - destruct (m' !! (pid, v, scope)) as [y|] eqn:E'; [|done].
    destruct (N pid v scope E) as [? _]; [by exists y|done].
Qed.

Definition positive (m : PromptTable) : Prop := forall k a, m !! k = Some a -> 1 <= k.1.2.

Lemma only_adds_positive ids m m' : only_adds ids m m' -> positive m -> positive m'.
Proof.
  intros [S N] H [[pid v] scope] a Ha. destruct (m !! (pid, v, scope)) as [x|] eqn:E; [by apply (H _ x)|].
  by apply (N pid v scope E); exists a.
Qed.

Definition seed_loop (now : Z) (seeds : list PromptSeed) (acc : list PromptAsset) : M W (list PromptAsset) :=
  for_each seeds acc (fun seed materialised => asset <- ensure_one hash R now seed ;; ret (materialised ++ [asset])).

Lemma seed_loop_cons now seed seeds acc w :
  seed_loop now (seed :: seeds) acc w =
    match ensure_one hash R now seed w with
    | (Ok a, w1) => seed_loop now seeds (acc ++ [a]) w1
    | (Err e, w1) => (Err e, w1)
    end.
Proof. unfold seed_loop. simpl. unfold bind, ret. by destruct (ensure_one hash R now seed w) as [[a|e] w1]. Qed.

Lemma seed_loop_adds now seeds : forall acc w,
  rl_ok w -> let r := seed_loop now seeds acc w in
  rl_ok r.2 /\ only_adds (map ps_prompt_id seeds) (rl_table w) (rl_table r.2).
Proof.
  induction seeds as [|seed seeds IH]; intros acc w Hok.
  { split; [done|]. split; [done|]. intros pid v scope E [x Hx].
    change (rl_table w !! (pid, v, scope) = Some x) in Hx. congruence. }
  cbv zeta. rewrite seed_loop_cons.
  destruct (ensure_one_grows now seed w Hok) as [H1 H2%grown_only_adds].
  destruct (ensure_one hash R now seed w) as [[a|e] w1]; simpl in *.
  - destruct (IH (acc ++ [a]) w1 H1) as [H3 H4]. split; [exact H3|]. exact (only_adds_trans _ _ _ _ _ H2 H4).
  - split; [done|]. destruct H2 as [S N]. split; [done|]. intros pid v scope E Hx.
    destruct (N pid v scope E Hx) as (? & ? & ?). split_and!; [set_solver|done..].
Qed.

Lemma seed_loop_up now seeds : forall acc w,
  rl_ok w -> rl_up w -> positive (rl_table w) -> NoDup (map ps_prompt_id seeds) -> Forall valid_seed seeds ->
  exists assets w', seed_loop now seeds acc w = (Ok (acc ++ assets), w') /\ rl_up w' /\
    Forall2 (seeded (rl_table w')) seeds assets /\
    (forall assets0, Forall2 (seeded (rl_table w)) seeds assets0 -> assets = assets0 /\ rl_table w' = rl_table w).
Proof.
  induction seeds as [|seed seeds IH]; intros acc w Hok Hu Hpos Hnd Hv.
  { exists [], w. rewrite app_nil_r. split_and!; [done..|]. by intros ? ->%Forall2_nil_inv_l. }
  apply NoDup_cons in Hnd as [Hnew Hnd]. apply Forall_cons in Hv as [Hv Hvs].
  destruct (ensure_one_grows now seed w Hok) as [Hok1 Hg%grown_only_adds].
  destruct (ensure_one_seeds now seed w Hok Hu Hv Hpos) as (a & w1 & E & Hu1 & Hs & Hid).
  rewrite E in Hok1, Hg. simpl in Hok1, Hg.
  destruct (IH (acc ++ [a]) w1) as (assets & w' & E' & Hu' & Hall & Hid');
    [done|done|by eapply only_adds_positive|done|done|].
  exists (a :: assets), w'. split_and!; [|done| |].
  - by rewrite seed_loop_cons, E, E', <- app_assoc.
  - constructor; [|done]. destruct Hs as [Hl Hh]. split; [|done].
    destruct (seed_loop_adds now seeds (acc ++ [a]) w1 Hok1) as [_ Ha]. rewrite E' in Ha.
    pose proof (only_adds_same _ _ _ _ Ha Hnew) as Hsame.
    exact (fetch_same_prompt _ _ _ None None _ Hsame Hl).
  - intros assets0 H0. apply Forall2_cons_inv_l in H0 as (a0 & rest & H0 & Hrest & ->).
    destruct (Hid a0 H0) as [-> Ht]. rewrite Ht in Hid'. by destruct (Hid' rest Hrest) as [-> ?].
Qed.

(** Seeding at boot.  Against any registry that keeps the port's laws, whatever
    fails, no existing row changes and only global rows of the seeded prompts are
    added.  When the backend is up and the seeds are valid and of distinct ids,
    seeding succeeds, returns for every seed the latest global version with the
    content of the seed, and seeding again with any clock returns the same assets
    and registers nothing. *)
Theorem ensure_seeded_spec seeds now w :
  rl_ok w ->
  let r := ensure_seeded hash R seeds now w in
  only_adds (map ps_prompt_id seeds) (rl_table w) (rl_table r.2) /\
  (rl_up w -> positive (rl_table w) -> NoDup (map ps_prompt_id seeds) -> Forall valid_seed seeds ->
   exists assets, r.1 = Ok assets /\ Forall2 (seeded (rl_table r.2)) seeds assets /\
     forall now2, exists w2, ensure_seeded hash R seeds now2 r.2 = (Ok assets, w2) /\ rl_table w2 = rl_table r.2).
Proof.
  intros Hok r. destruct (seed_loop_adds now seeds [] w Hok) as [Hok' Ha]. split; [exact Ha|].
  intros Hu Hpos Hnd Hv. destruct (seed_loop_up now seeds [] w) as (assets & w' & E & Hu' & Hs & _); [done..|].
  unfold r, ensure_seeded. fold (seed_loop now seeds []). rewrite E in *. simpl in *.
  exists assets. split_and!; [done..|]. intros now2.
  destruct (seed_loop_up now2 seeds [] w') as (assets2 & w2 & E2 & _ & _ & Hid);
    [done|done|by eapply only_adds_positive|done|done|].
  destruct (Hid assets Hs) as [-> Ht]. exists w2. split; [exact E2|exact Ht].
Qed.

(** Another process seeds between the look at the latest version and the insert:
    the insert is refused and nothing handles the error. *)
Lemma seed_race_raises seed now now2 w a w1 :
  rl_ok w -> rl_up w -> valid_seed seed -> latest_in (rl_table w) (ps_prompt_id seed) None None ->
  ensure_one hash R now2 seed w = (Ok a, w1) ->
  (rg_register R (seed_asset seed 1 now) w1).1 = Err already_registered.
Proof.
  intros Hok Hu Hv Hl E. unfold ensure_one, bind, lift, ret in E.
  destruct (rl_latest (ps_prompt_id seed) None w Hok) as (A1 & A2 & A3 & A4).
  destruct (A4 Hu) as [Hu1 [cur Hcur]], (rg_latest_version R _ None w) as [? wa]. simpl in *. subst.
  destruct (A3 cur eq_refl) as (x & Hx & ->). rewrite (latest_unique _ _ _ _ None Hx Hl) in E. simpl in E.
  rewrite Hv in E by lia. destruct (rl_register (seed_asset seed 1 now2) wa A1) as (C1 & C2 & C3 & C4).
  destruct (C4 Hu1) as [Hu3 _]. destruct (rg_register R _ wa) as [[[]|e] wb]; [|done]. injection E as <- <-.
  simpl in *. destruct (C2 eq_refl) as [_ Ht].
  destruct (rl_register (seed_asset seed 1 now) wb C1) as (_ & _ & _ & D). destruct (D Hu3) as [_ ->].
  rewrite Ht. unfold pa_key, seed_asset. simpl. by rewrite lookup_insert_eq.
Qed.
End SeedingFacts.

(** ** Overlapping calls

    [fetch_or_none] suspends in the call of the inner registry; a [register] that
    runs in between clears the cache before the read is stored. *)

Section Overlap.
Context {W : Type} (config : CacheConfig) (inner : Registry W).

Definition fetch_until_store (pid : string) (version : option Z) (tenant : option string)
    : M (Cached W) (CacheEntry + option PromptAsset) :=
  now <- cache_monotonic ;;
  entry <- cache_lookup (pid, version, tenant) now ;;
  match entry with
  | Some e => ret (inl e)
  | None => asset <- inner_call (rg_fetch_or_none inner pid version tenant) ;; ret (inr asset)
  end.

Definition fetch_resume (key : CacheKey) (x : CacheEntry + option PromptAsset) : M (Cached W) (option PromptAsset) :=
  match x with inl e => ret (ce_asset e) | inr asset => cache_store config key asset ;;; ret asset end.

(** The two halves are the code. *)
Lemma fetch_in_two pid v t w :
  rg_fetch_or_none (caching_registry config inner) pid v t w =
  (x <- fetch_until_store pid v t ;; fetch_resume (pid, v, t) x) w.
Proof.
  cbn [rg_fetch_or_none caching_registry]. unfold fetch_until_store. unfold bind, cache_monotonic, cache_lookup.
  cbv beta iota. cbn [ca_cache]. destruct (ca_cache w !! (pid, v, t)) as [x|]; [destruct (_ <? _)|];
    unfold inner_call, ret; try done; cbn [ca_inner]; by destruct (rg_fetch_or_none inner pid v t (ca_inner w)) as [[o|e] u].
Qed.
End Overlap.

(** A new version is registered and [register] has returned; a read that was in
    flight then fills the cache, and until the entry expires every reader of the
    process gets the old version. *)
Lemma stale_after_register config old new clock :
  clock 2%nat < clock 1%nat + cc_ttl config ->
  pa_tenant_id old = None -> pa_tenant_id new = None -> pa_prompt_id new = pa_prompt_id old ->
  pa_version old < pa_version new ->
  let R := caching_registry config in_memory_registry in
  let pid := pa_prompt_id old in
  let '(x, w1) := fetch_until_store in_memory_registry pid None None (mkCached ∅ clock 0 [old]) in
  let '(done, w2) := rg_register R new w1 in
  let '(_, w3) := (bind (lift x) (fetch_resume config (pid, None, None))) w2 in
  done = Ok tt /\ (rg_fetch_or_none R pid None None w3).1 = Ok (Some old) /\
  (rg_fetch_or_none in_memory_registry pid None None (ca_inner w3)).1 = Ok (Some new).
Proof.
  destruct old as [p v t c d m], new as [p' v' t' c' d' m']. simpl. intros Ht -> -> -> Hv.
  unfold fetch_until_store, bind, cache_monotonic, cache_lookup, lift, ret. cbv beta iota. cbn [ca_cache].
  rewrite lookup_empty. unfold inner_call. cbn [ca_inner rg_fetch_or_none rg_register in_memory_registry ca_cache].
  unfold prompt_resolve. simpl. unfold in_scope. simpl. rewrite !String.eqb_refl. simpl.
  rewrite (proj2 (Z.eqb_neq v v')) by lia. simpl. unfold max_version. simpl.
  rewrite !String.eqb_refl. simpl. rewrite (proj2 (Z.ltb_lt v v')) by lia.
  rewrite lookup_insert_eq. simpl. by rewrite (proj2 (Z.ltb_lt _ _)).
Qed.

(** ** Concrete registries *)

Lemma builtin_seeds_valid : Forall valid_seed BUILTIN_PROMPT_SEEDS.
Proof.
  unfold BUILTIN_PROMPT_SEEDS. repeat constructor; intros v now Hv; unfold check_asset;
    (match goal with |- context [negb ?b] => replace (negb b) with false by (by vm_compute) end);
    cbn [pa_version seed_asset]; (rewrite (proj2 (Z.ltb_ge v 1)) by lia); by vm_compute.
Qed.

Definition demo_tenant_prompt : PromptAsset :=
  mkPromptAsset "code_review.system" 3 (Some "acme") "Review for acme." None 0.
Definition demo_deployed : Cached PgPrompts :=
  mkCached ∅ (fun n => Z.of_nat n) 0 (mkPgPrompts [demo_tenant_prompt] 0 (fun _ => None)).

Lemma demo_deployed_ok : rl_ok (R := caching_registry default_cache_config pg_registry) demo_deployed.
Proof. split; [apply NoDup_singleton|]. intros pid v t e H. simpl in H. by rewrite lookup_empty in H. Qed.

(** The deployed registry seeded at boot: the four prompts become version 1 and
    the tenant's row stays. *)
Lemma ensure_seeded_spec_witness :
  let R := caching_registry default_cache_config pg_registry in
  let r := ensure_seeded (fun c => c) R BUILTIN_PROMPT_SEEDS 7 demo_deployed in
  rl_ok (R := R) demo_deployed /\ only_adds (map ps_prompt_id BUILTIN_PROMPT_SEEDS)
    (rl_table (R := R) demo_deployed) (rl_table (R := R) r.2) /\
  (exists assets, r.1 = Ok assets /\ map pa_version assets = [1; 1; 1; 1]) /\
  length (pg_rows (ca_inner r.2)) = 5%nat.
Proof.
  intros R r. split; [exact demo_deployed_ok|].
  destruct (ensure_seeded_spec (fun c => c) R BUILTIN_PROMPT_SEEDS 7 demo_deployed demo_deployed_ok) as [Ha Hs].
  split; [exact Ha|]. split; [|by vm_compute].
  destruct Hs as (assets & E & _).
  - by intros n _.
  - intros k a Hk. apply lookup_table in Hk as [H <-]; [|apply NoDup_singleton].
    apply list_elem_of_singleton in H as ->. by vm_compute.
  - apply (bool_decide_unpack _). by vm_compute.
  - exact builtin_seeds_valid.
  - exists assets. split; [exact E|]. vm_compute in E. by injection E as <-.
Defined.

Definition demo_prompt_ops : list PromptOp :=
  [OpFetch "p" None (Some "acme"); OpRegister (mkPromptAsset "p" 1 None "one" None 0);
   OpFetch "p" None (Some "acme"); OpRegister (mkPromptAsset "p" 1 None "uno" None 0);
   OpRegister (mkPromptAsset "p" 2 (Some "acme") "two" None 0); OpFetch "p" None (Some "acme");
   OpFetch "p" (Some 1) (Some "acme"); OpLatest "p" None].

Lemma deployed_registry_agrees_witness :
  (run_ops (caching_registry default_cache_config pg_registry) demo_prompt_ops
     (mkCached ∅ (fun n => Z.of_nat n) 0 (mkPgPrompts [] 0 (fun _ => None)))).1 =
  [Ok (AnAsset None); Ok Registered; Ok (AnAsset (Some (mkPromptAsset "p" 1 None "one" None 0)));
   Err already_registered; Ok Registered; Ok (AnAsset (Some (mkPromptAsset "p" 2 (Some "acme") "two" None 0)));
   Ok (AnAsset (Some (mkPromptAsset "p" 1 None "one" None 0))); Ok (AVersion (Some 1))].
Proof.
  destruct (deployed_registry_agrees default_cache_config [] (fun _ => None) (fun n => Z.of_nat n) 0 demo_prompt_ops)
    as [E _]; [apply NoDup_nil_2|done|]. rewrite E. by vm_compute.
Defined.
