(* ===== verification/ShellAgent.v ===== *)
(** * ShellAgent: the plan / tool / observe loop

    [core/orchestration/graphs/shell_agent.py], with the message and tool
    models of [core/ports/llm.py] and [core/ports/tools.py] it stores in
    [state.data].

    The language model, the tool executor, the prompt registry, the permission
    gate, the audit sink, the clocks and the id source are ports, the fields of
    [ShellDeps]; the graph is polymorphic in the world they act on.  Validation
    accepts the JSON the graph itself wrote; pydantic's coercions between
    foreign types (a numeric string for an int) are reported as errors. *)

From S2P Require Import Prelude PyText Domain GraphRuntime Results PromptRegistry.

(** ** Messages and tools *)

Inductive MessageRole : Type := ROLE_SYSTEM | ROLE_USER | ROLE_ASSISTANT | ROLE_TOOL.

Definition MessageRole_value (r : MessageRole) : string :=
  match r with
  | ROLE_SYSTEM => "system" | ROLE_USER => "user" | ROLE_ASSISTANT => "assistant" | ROLE_TOOL => "tool"
  end.
Definition MessageRole_of_value (s : string) : option MessageRole :=
  if String.eqb s "system" then Some ROLE_SYSTEM
  else if String.eqb s "user" then Some ROLE_USER
  else if String.eqb s "assistant" then Some ROLE_ASSISTANT
  else if String.eqb s "tool" then Some ROLE_TOOL
  else None.

Inductive ToolCategory : Type := FILESYSTEM | EDIT | SHELL | TEST | WEB | CODE_INDEX.

Record ToolSpec : Type := mkToolSpec {
  ts_name : string; ts_description : string; ts_parameters : dict; ts_category : ToolCategory
}.
Record ToolCall : Type := mkToolCall { tc_id : string; tc_name : string; tc_arguments : dict }.
Record ToolResult : Type := mkToolResult {
  tl_call_id : string; tl_name : string; tl_content : string; tl_is_error : bool;
  tl_truncated : bool; tl_metadata : list (string * string)
}.
Record ToolContext : Type := mkToolContext {
  tx_tenant_id : string; tx_task_id : string; tx_trace_id : string;
  tx_workspace_path : option string; tx_output_byte_cap : Z
}.

Record ChatMessage : Type := mkChat {
  cm_role : MessageRole; cm_content : string; cm_tool_call_id : option string;
  cm_tool_calls : list ToolCall
}.
Record LLMUsage : Type := mkUsage {
  us_prompt_tokens : option Z; us_completion_tokens : option Z; us_total_tokens : option Z;
  us_cost_usd_micros : option Z
}.
Definition no_usage : LLMUsage := mkUsage None None None None.

Record LLMRequest : Type := mkRequest {
  rq_messages : list ChatMessage; rq_model : option string; rq_temperature : option json;
  rq_max_tokens : option Z; rq_stop : option (list string); rq_tools : list ToolSpec;
  rq_metadata : list (string * string); rq_prompt_id : option string; rq_prompt_version : option Z;
  rq_step_kind : option string
}.
Record LLMResponse : Type := mkResponse {
  rs_content : string; rs_model : string; rs_finish_reason : string; rs_usage : LLMUsage;
  rs_tool_calls : list ToolCall; rs_provider_response_id : option string
}.

(** *** [model_dump(mode="json")] *)

Definition tool_call_dump (c : ToolCall) : json :=
  JDict [("id", JStr (tc_id c)); ("name", JStr (tc_name c)); ("arguments", JDict (tc_arguments c))].
Definition message_dump (m : ChatMessage) : json :=
  JDict [("role", JStr (MessageRole_value (cm_role m))); ("content", JStr (cm_content m));
         ("tool_call_id", opt_json JStr (cm_tool_call_id m));
         ("tool_calls", JList (map tool_call_dump (cm_tool_calls m)))].
Definition usage_dump (u : LLMUsage) : json :=
  JDict [("prompt_tokens", opt_json JInt (us_prompt_tokens u));
         ("completion_tokens", opt_json JInt (us_completion_tokens u));
         ("total_tokens", opt_json JInt (us_total_tokens u));
         ("cost_usd_micros", opt_json JInt (us_cost_usd_micros u))].
Definition response_dump (r : LLMResponse) : json :=
  JDict [("content", JStr (rs_content r)); ("model", JStr (rs_model r));
         ("finish_reason", JStr (rs_finish_reason r)); ("usage", usage_dump (rs_usage r));
         ("tool_calls", JList (map tool_call_dump (rs_tool_calls r)));
         ("provider_response_id", opt_json JStr (rs_provider_response_id r))].

(** *** [model_validate] with [extra="forbid"] *)

Definition object_with (fields : list string) (v : json) : res dict :=
  match v with
  | JDict d => if forallb (fun kv => existsb (String.eqb kv.1) fields) d then Ok d
               else Err (ValidationError "extra")
  | _ => Err (ValidationError "object")
  end.
Definition req_str (d : dict) (k : string) : res string :=
  match dget d k with Some (JStr s) => Ok s | _ => Err (ValidationError k) end.
Definition req_nonempty_str (d : dict) (k : string) : res string :=
  match dget d k with
  | Some (JStr s) => if nonempty s then Ok s else Err (ValidationError k)
  | _ => Err (ValidationError k)
  end.
Definition opt_str_field (d : dict) (k : string) : res (option string) :=
  match dget d k with
  | Some (JStr s) => Ok (Some s)
  | Some JNull | None => Ok None
  | Some _ => Err (ValidationError k)
  end.
Definition opt_int_field (d : dict) (k : string) : res (option Z) :=
  match dget d k with
  | Some (JInt n) => Ok (Some n)
  | Some JNull | None => Ok None
  | Some _ => Err (ValidationError k)
  end.
Definition list_field (d : dict) (k : string) : res (list json) :=
  match dget d k with
  | Some (JList l) => Ok l
  | None => Ok []
  | Some _ => Err (ValidationError k)
  end.

Definition tool_call_validate (v : json) : res ToolCall :=
  let? d := object_with ["id"; "name"; "arguments"] v in
  let? i := req_nonempty_str d "id" in
  let? n := req_nonempty_str d "name" in
  match dget d "arguments" with
  | Some (JDict a) => Ok (mkToolCall i n a)
  | None => Ok (mkToolCall i n [])
  | Some _ => Err (ValidationError "arguments")
  end.
Definition message_validate (v : json) : res ChatMessage :=
  let? d := object_with ["role"; "content"; "tool_call_id"; "tool_calls"] v in
  let? r := req_str d "role" in
  match MessageRole_of_value r with
  | None => Err (ValidationError "role")
  | Some role =>
      let? c := req_str d "content" in
      let? t := opt_str_field d "tool_call_id" in
      let? l := list_field d "tool_calls" in
      let? calls := mapM_res tool_call_validate l in
      Ok (mkChat role c t calls)
  end.
Definition usage_validate (v : json) : res LLMUsage :=
  let? d := object_with ["prompt_tokens"; "completion_tokens"; "total_tokens"; "cost_usd_micros"] v in
  let? p := opt_int_field d "prompt_tokens" in
  let? c := opt_int_field d "completion_tokens" in
  let? t := opt_int_field d "total_tokens" in
  let? m := opt_int_field d "cost_usd_micros" in
  Ok (mkUsage p c t m).
Definition finish_reasons : list string := ["stop"; "length"; "content_filter"; "tool_call"; "other"].
Definition response_validate (v : json) : res LLMResponse :=
  let? d := object_with ["content"; "model"; "finish_reason"; "usage"; "tool_calls";
                         "provider_response_id"] v in
  let? c := req_str d "content" in
  let? m := req_str d "model" in
  let? f := req_str d "finish_reason" in
  if negb (existsb (String.eqb f) finish_reasons) then Err (ValidationError "finish_reason")
  else
    let? u := match dget d "usage" with Some v => usage_validate v | None => Ok no_usage end in
    let? l := list_field d "tool_calls" in
    let? calls := mapM_res tool_call_validate l in
    let? p := opt_str_field d "provider_response_id" in
    Ok (mkResponse c m f u calls p).

(** ** Reading [state.data] *)

Definition SHELL_AGENT_GRAPH_ID : string := "builtin.shell_agent".
Definition DEFAULT_MAX_STEPS : Z := 8.
Definition DEFAULT_OUTPUT_BYTE_CAP : Z := 65536.
Definition ERROR_EXCERPT_CHAR_LIMIT : nat := 200.

Definition str_or_none (s : TaskRunState) (key : string) : res (option string) :=
  match getd (data s) key with
  | JNull => Ok None
  | JStr x => Ok (Some x)
  | _ => Err (GraphError "shell_agent: state.data[key] must be str")
  end.
Definition int_or_default (s : TaskRunState) (key : string) (dflt : Z) : res Z :=
  match getd (data s) key with
  | JNull => Ok dflt
  | JInt n => Ok n
  | _ => Err (GraphError "shell_agent: state.data[key] must be int")
  end.
(** [float(raw)] keeps the numeric value. *)
Definition float_or_none (s : TaskRunState) (key : string) : res (option json) :=
  match getd (data s) key with
  | JNull => Ok None
  | JInt n => Ok (Some (JInt n))
  | JFloat r => Ok (Some (JFloat r))
  | _ => Err (GraphError "shell_agent: state.data[key] must be a number")
  end.
Definition positive_int_or_none (s : TaskRunState) (key : string) : res (option Z) :=
  match getd (data s) key with
  | JNull => Ok None
  | JInt n => if n <=? 0 then Err (GraphError "shell_agent: state.data[key] must be a positive int")
              else Ok (Some n)
  | _ => Err (GraphError "shell_agent: state.data[key] must be a positive int")
  end.
Definition tool_names_or_none (s : TaskRunState) : res (option (list string)) :=
  match getd (data s) "tool_names" with
  | JNull => Ok None
  | JList l =>
      let? names := mapM_res (fun v => match v with
        | JStr x => Ok x
        | _ => Err (GraphError "shell_agent: state.data['tool_names'] must be a list[str]") end) l in
      Ok (Some names)
  | _ => Err (GraphError "shell_agent: state.data['tool_names'] must be a list[str]")
  end.
Definition str_in (l : list string) (x : string) : bool := existsb (String.eqb x) l.

Definition select_specs (specs : list ToolSpec) (names : option (list string)) : res (list ToolSpec) :=
  match names with
  | None => Ok specs
  | Some ns =>
      if forallb (str_in (map ts_name specs)) ns
      then Ok (List.filter (fun t => str_in ns (ts_name t)) specs)
      else Err (GraphError "shell_agent: tool_names references unknown tools")
  end.

Definition prior_message (v : json) : res ChatMessage :=
  match v with
  | JDict e =>
      match getd e "role", getd e "content" with
      | JStr r, JStr c =>
          match MessageRole_of_value r with
          | Some role => Ok (mkChat role c None [])
          | None => Err (GraphError "shell_agent: _prior_messages role is not a MessageRole")
          end
      | _, _ => Err (GraphError "shell_agent: _prior_messages entries need str role + content")
      end
  | _ => Err (GraphError "shell_agent: _prior_messages entries must be objects")
  end.
Definition load_prior_messages (s : TaskRunState) : res (list ChatMessage) :=
  match getd (data s) "_prior_messages" with
  | JNull => Ok []
  | JList l => mapM_res prior_message l
  | _ => Err (GraphError "shell_agent: state.data['_prior_messages'] must be a list")
  end.

Definition truthy_str (o : option string) : option string :=
  match o with Some x => if nonempty x then Some x else None | None => None end.
Definition or_else (a b : option string) : option string :=
  match truthy_str a with Some x => Some x | None => b end.

Definition build_initial_messages (s : TaskRunState) (default_system_prompt : option string)
    : res (list ChatMessage) :=
  let? up := str_or_none s "user_prompt" in
  match truthy_str up with
  | None => Err (GraphError "shell_agent: state.data['user_prompt'] is required")
  | Some user_prompt =>
      let? sp := str_or_none s "system_prompt" in
      let? prior := load_prior_messages s in
      Ok ((match truthy_str (or_else sp default_system_prompt) with
           | Some x => [mkChat ROLE_SYSTEM x None []]
           | None => []
           end) ++ prior ++ [mkChat ROLE_USER user_prompt None []])
  end.

Definition load_messages (s : TaskRunState) (default_system_prompt : option string)
    : res (list ChatMessage) :=
  match getd (data s) "_messages" with
  | JNull => build_initial_messages s default_system_prompt
  | JList l => mapM_res message_validate l
  | _ => Err (GraphError "shell_agent: state.data['_messages'] must be a list")
  end.

Definition dump_messages (l : list ChatMessage) : json := JList (map message_dump l).

Definition build_tool_context (s : TaskRunState) : res ToolContext :=
  let? cap := int_or_default s "output_byte_cap" DEFAULT_OUTPUT_BYTE_CAP in
  if cap <=? 0 then Err (GraphError "shell_agent: output_byte_cap must be positive")
  else Ok (mkToolContext (tenant_id s) (task_id s) (trace_id s)
             (as_nonempty_str (getd (data s) "_workspace_path")) cap).

(** ** Usage and output *)

Definition sum_optional_int (l r : option Z) : option Z :=
  match l, r with
  | None, _ => r
  | _, None => l
  | Some a, Some b => Some (a + b)
  end.

Definition usage_from_state (v : json) : res LLMUsage :=
  match v with JDict _ => usage_validate v | _ => Ok no_usage end.

Definition merge_usage (prior : json) (current : LLMUsage) : res LLMUsage :=
  let? base := usage_from_state prior in
  Ok (mkUsage (sum_optional_int (us_prompt_tokens base) (us_prompt_tokens current))
        (sum_optional_int (us_completion_tokens base) (us_completion_tokens current))
        (sum_optional_int (us_total_tokens base) (us_total_tokens current))
        (sum_optional_int (us_cost_usd_micros base) (us_cost_usd_micros current))).

Definition shell_failure_explanation (by_max_steps by_token_budget : bool)
    (steps tool_invocations : Z) : option dict :=
  let details := [("steps", JInt steps); ("tool_invocations", JInt tool_invocations)] in
  if by_token_budget then Some (failure_explanation "budget_exceeded"
    "Agent stopped before another LLM planning step because max_total_tokens was reached." true
    ["Increase max_total_tokens for this task.";
     "Narrow the prompt or allowed files so fewer tokens are consumed."] details)
  else if by_max_steps then Some (failure_explanation "max_steps_truncated"
    "Agent stopped while the model was still requesting tools because max_steps was reached." true
    ["Increase max_steps if the task is expected to require more tool turns.";
     "Inspect tool events for repeated or low-value calls before retrying."] details)
  else None.

Definition output_summary (response : option LLMResponse) (steps tool_invocations : Z)
    (by_max_steps by_token_budget : bool) (usage : LLMUsage) : dict :=
  [("assistant_message", JStr (match response with Some r => rs_content r | None => "" end));
   ("model_used", JStr (match response with Some r => rs_model r | None => "" end));
   ("finish_reason", JStr (match response with Some r => rs_finish_reason r | None => "other" end));
   ("steps", JInt steps); ("tool_invocations", JInt tool_invocations);
   ("truncated_by_max_steps", JBool by_max_steps);
   ("truncated_by_token_budget", JBool by_token_budget); ("usage", usage_dump usage);
   ("failure_explanation",
     opt_json JDict (shell_failure_explanation by_max_steps by_token_budget steps tool_invocations))].

Definition over_budget (max_total_tokens total : option Z) : bool :=
  match max_total_tokens, total with
  | Some m, Some t => m <=? t
  | _, _ => false
  end.

(** ** Audit-safe summaries *)

Definition AUDIT_ARGUMENT_PATH_KEYS : list string :=
  ["path"; "repo_path"; "file"; "file_path"; "target"; "targets"; "path_globs"; "suite"].

Section Summaries.
(** [sha256(value.encode("utf-8")).hexdigest()[:12]]. *)
Context (sha256_12 : string -> string).

(** [_summarize_argument_value] for a key that is not path-like. *)
Definition summarize_plain (v : json) : json :=
  match v with
  | JNull | JBool _ | JInt _ | JFloat _ => v
  | JStr x => JDict [("type", JStr "str"); ("chars", JInt (Z.of_nat (String.length x)));
                     ("sha256", JStr (sha256_12 x))]
  | JList l => JDict [("type", JStr "list"); ("items", JInt (Z.of_nat (length l)))]
  | JDict d => JDict [("type", JStr "object");
                      ("keys", JList (map JStr (take 20 (merge_sort str_le d.*1))))]
  end.

Definition summarize_path_like (v : json) : json :=
  match v with
  | JStr x => JStr (str_take 200 x)
  | JList l => JList (map (fun i => match i with JStr x => JStr (str_take 200 x) | _ => summarize_plain i end)
                        (take 20 l))
  | _ => summarize_plain v
  end.

Definition summarize_argument_value (key : string) (v : json) : json :=
  if str_in AUDIT_ARGUMENT_PATH_KEYS (py_lower key) then summarize_path_like v else summarize_plain v.

Definition summarize_tool_arguments (args : dict) : dict :=
  map (fun kv => (kv.1, summarize_argument_value kv.1 kv.2)) args.
End Summaries.

(** ** The graph *)

Record PermissionPrompt : Type := mkPrompt {
  pp_prompt_id : string; pp_tenant_id : string; pp_task_id : string; pp_tool_name : string;
  pp_summary : string; pp_payload : dict; pp_created_at : Z
}.
Record PermissionDecision : Type := mkPermissionDecision {
  pd_prompt_id : string; pd_allow : bool; pd_reason : option string; pd_decided_at : Z
}.

Record ShellDeps (W : Type) : Type := mkShellDeps {
  sd_llm : LLMRequest -> M W LLMResponse;
  sd_tools : option (list ToolSpec * (ToolCall -> ToolContext -> M W ToolResult));
  sd_prompt_registry : option (string -> string -> M W PromptAsset);
  sd_permission_gate : option (PermissionPrompt -> M W PermissionDecision);
  sd_audit_sink : option (AuditEvent -> M W unit);
  sd_redact_text : option (string -> res string);
  (** [uuid.uuid4()], [datetime.now(UTC)] and [time.perf_counter()] (microseconds). *)
  sd_uuid : M W string;
  sd_now : M W Z;
  sd_perf_counter : M W Z;
  (** [json.dumps(.., sort_keys=True)], the hash prefix, [str(exc)] and the
      range check [0.0 <= t <= 2.0] on a float. *)
  sd_json_dumps : list (string * string) -> string;
  sd_sha256_12 : string -> string;
  sd_exn_str : exn -> string;
  sd_exn_name : exn -> string;
  sd_float_ok : string -> bool
}.
Arguments mkShellDeps {W}. Arguments sd_llm {W}. Arguments sd_tools {W}.
Arguments sd_prompt_registry {W}. Arguments sd_permission_gate {W}. Arguments sd_audit_sink {W}.
Arguments sd_redact_text {W}. Arguments sd_uuid {W}. Arguments sd_now {W}.
Arguments sd_perf_counter {W}. Arguments sd_json_dumps {W}. Arguments sd_sha256_12 {W}.
Arguments sd_exn_str {W}. Arguments sd_exn_name {W}. Arguments sd_float_ok {W}.

(** The field constraints of [LLMRequest]; [float_ok] is the range of the
    temperature on the text of a float. *)
Definition check_request (float_ok : string -> bool) (r : LLMRequest) : res LLMRequest :=
  let temp_ok := match rq_temperature r with
                 | Some (JInt n) => (0 <=? n) && (n <=? 2)
                 | Some (JFloat f) => float_ok f
                 | _ => true
                 end in
  let tokens_ok := match rq_max_tokens r with Some n => 0 <? n | None => true end in
  let id_ok := match rq_prompt_id r with
               | Some p => nonempty p && Nat.leb (String.length p) 128
               | None => true
               end in
  let ver_ok := match rq_prompt_version r with Some n => 1 <=? n | None => true end in
  let kind_ok := match rq_step_kind r with
                 | Some k => nonempty k && Nat.leb (String.length k) 32
                 | None => true
                 end in
  match rq_messages r with
  | [] => Err (ValidationError "messages")
  | _ => if temp_ok && tokens_ok && id_ok && ver_ok && kind_ok then Ok r else Err (ValidationError "LLMRequest")
  end.

Section Shell.
Context {W : Type} (deps : ShellDeps W).
Context (default_system_prompt default_system_prompt_id : option string).
(** The catalogue and the executor, once [_require_tool_caps] has passed. *)
Context (specs : list ToolSpec) (execute : ToolCall -> ToolContext -> M W ToolResult).

Definition tool_message_content (r : ToolResult) : string :=
  str_join (String (Ascii.ascii_of_nat 10) "")
    ((if tl_is_error r then ["tool_status=error"] else []) ++
     (if tl_truncated r then ["tool_output_truncated=true"] else []) ++
     (match tl_metadata r with [] => [] | m => ["tool_metadata=" +:+ sd_json_dumps deps m] end) ++
     [tl_content r]).

Definition error_excerpt (text : string) : option string :=
  if negb (nonempty text) then None
  else
    let scrubbed := match sd_redact_text deps with
                    | Some f => match f text with Ok x => x | Err _ => text end
                    | None => text
                    end in
    if negb (nonempty scrubbed) then None else Some (str_take ERROR_EXCERPT_CHAR_LIMIT scrubbed).

Definition audit_tool_event (s : TaskRunState) (action : string) (payload : dict) : M W unit :=
  match sd_audit_sink deps with
  | None => ret tt
  | Some append =>
      try_except
        (u <- sd_uuid deps ;;
         now <- sd_now deps ;;
         append (mkAuditEvent ("aud-" +:+ u) (tenant_id s) "system" None (Some (task_id s))
                   (trace_id s) action payload now))
        (fun e => if is_exception e then Some (ret tt) else None)
  end.

Definition elapsed_ms (started : Z) : M W Z :=
  t <- sd_perf_counter deps ;;
  let delta := t - started in
  ret (if delta <? 0 then 0 else Z.quot delta 1000).

Definition execute_with_audit (call : ToolCall) (ctx : ToolContext) (s : TaskRunState)
    (operation : M W ToolResult) : M W ToolResult :=
  step <- lift (int_or_default s "_step" 0) ;;
  audit_tool_event s "tool.invoked"
    [("call_id", JStr (tc_id call)); ("tool_name", JStr (tc_name call)); ("agent_step", JInt step);
     ("arguments", JDict (summarize_tool_arguments (sd_sha256_12 deps) (tc_arguments call)));
     ("workspace_path_present",
       JBool (match tx_workspace_path ctx with Some _ => true | None => false end))] ;;;
  started <- sd_perf_counter deps ;;
  result <- try_except operation
    (fun e => if is_exception e then Some (
       ms <- elapsed_ms started ;;
       audit_tool_event s "tool.failed"
         [("call_id", JStr (tc_id call)); ("tool_name", JStr (tc_name call));
          ("agent_step", JInt step); ("duration_ms", JInt ms);
          ("error_type", JStr (sd_exn_name deps e));
          ("error_excerpt", opt_json JStr (error_excerpt (sd_exn_str deps e)))] ;;;
       raise e) else None) ;;
  ms <- elapsed_ms started ;;
  let payload :=
    [("call_id", JStr (tl_call_id result)); ("tool_name", JStr (tl_name result));
     ("agent_step", JInt step); ("duration_ms", JInt ms);
     ("output_bytes", JInt (Z.of_nat (String.length (tl_content result))));
     ("truncated", JBool (tl_truncated result));
     ("metadata", JDict (map (fun kv => (kv.1, JStr kv.2)) (tl_metadata result)))] in
  audit_tool_event s (if tl_is_error result then "tool.failed" else "tool.completed")
    (if tl_is_error result
     then dset payload "error_excerpt" (opt_json JStr (error_excerpt (tl_content result)))
     else payload) ;;;
  ret result.

Definition denied_result (call : ToolCall) (content outcome prompt_id : string) : ToolResult :=
  mkToolResult (tc_id call) (tc_name call) content true false
    [("permission_outcome", outcome); ("prompt_id", prompt_id)].

Definition reason_suffix (r : option string) : string :=
  match truthy_str r with Some x => ": " +:+ x | None => "" end.

Definition is_permission_timeout (e : exn) : bool :=
  match e with PermissionTimeoutError => true | _ => false end.

Definition gated_execute (gate : PermissionPrompt -> M W PermissionDecision) (call : ToolCall)
    (ctx : ToolContext) (s : TaskRunState) : M W ToolResult :=
  u <- sd_uuid deps ;;
  now <- sd_now deps ;;
  let prompt := mkPrompt ("prm-" +:+ u) (tenant_id s) (task_id s) (tc_name call)
                  ("Run tool " +:+ py_repr_str (tc_name call)) (tc_arguments call) now in
  decision <- try_except (d <- gate prompt ;; ret (Some d))
    (fun e => if is_permission_timeout e then Some (ret None) else None) ;;
  match decision with
  | None => ret (denied_result call
              "[permission_timeout] user did not respond in time; tool was skipped" "timeout"
              (pp_prompt_id prompt))
  | Some d =>
      if negb (pd_allow d) then
        ret (denied_result call
               ("[permission_denied] user denied this tool call" +:+ reason_suffix (pd_reason d))
               "denied" (pp_prompt_id prompt))
      else execute call ctx
  end.

Definition PLAN_PROMPT_TOOL_NAME : string := "<plan>".

(** The decision and the prompt id; the code also writes the id into
    [state.data] in place. *)
Definition request_plan_decision (gate : PermissionPrompt -> M W PermissionDecision)
    (s : TaskRunState) (calls : list ToolCall) : M W (option PermissionDecision * string) :=
  u <- sd_uuid deps ;;
  let prompt_id := "prm-plan-" +:+ u in
  summary <- lift (str_or_none s "_pending_plan_summary") ;;
  now <- sd_now deps ;;
  let prompt := mkPrompt prompt_id (tenant_id s) (task_id s) PLAN_PROMPT_TOOL_NAME
                  (default "" summary)
                  [("tool_calls", JList (map tool_call_dump calls))] now in
  d <- try_except (d <- gate prompt ;; ret (Some d))
    (fun e => if is_permission_timeout e then Some (ret None) else None) ;;
  ret (d, prompt_id).

Definition synthetic_deny_result (call : ToolCall) (reason : option string)
    (outcome prompt_id : string) : ToolResult :=
  denied_result call
    (if String.eqb outcome "timeout"
     then "[plan_timeout] user did not respond in time; tool was skipped"
     else "[plan_denied] user denied the plan" +:+ reason_suffix reason)
    outcome prompt_id.

Definition resolve_default_prompt (s : TaskRunState)
    : M W (option string * option string * option Z) :=
  sp <- lift (str_or_none s "system_prompt") ;;
  match truthy_str sp with
  | Some _ =>
      sid <- lift (str_or_none s "system_prompt_id") ;;
      match getd (data s) "system_prompt_version" with
      | JNull => ret (None, sid, None)
      | JInt v => ret (None, sid, Some v)
      | _ => raise (GraphError "shell_agent: state.data['system_prompt_version'] must be int")
      end
  | None =>
      match default_system_prompt_id with
      | None => ret (default_system_prompt, None, None)
      | Some pid =>
          match sd_prompt_registry deps with
          | None => raise (GraphError "shell_agent: default_system_prompt_id requires deps.prompt_registry")
          | Some fetch =>
              a <- fetch pid (tenant_id s) ;;
              ret (Some (pa_content a), Some (pa_prompt_id a), Some (pa_version a))
          end
      end
  end.

Definition plan : NodeFn W := fun s =>
  dp <- resolve_default_prompt s ;;
  let '(default_sp, default_sp_id, default_sp_ver) := dp in
  messages <- lift (load_messages s default_sp) ;;
  max_steps <- lift (int_or_default s "max_steps" DEFAULT_MAX_STEPS) ;;
  if max_steps <=? 0 then raise (GraphError "shell_agent: max_steps must be positive")
  else
  max_total_tokens <- lift (positive_int_or_none s "max_total_tokens") ;;
  usage_so_far <- lift (usage_from_state (getd (data s) "_usage")) ;;
  if over_budget max_total_tokens (us_total_tokens usage_so_far) then
    ret (node_update [("_plan_next", JStr "finalize"); ("_truncated_by_token_budget", JBool true)])
  else
  step0 <- lift (int_or_default s "_step" 0) ;;
  let step := step0 + 1 in
  tool_names <- lift (tool_names_or_none s) ;;
  chosen <- lift (select_specs specs tool_names) ;;
  model <- lift (str_or_none s "model") ;;
  temperature <- lift (float_or_none s "temperature") ;;
  max_tokens <- lift (int_or_default s "max_tokens" 0) ;;
  request <- lift (check_request (sd_float_ok deps) (mkRequest messages model temperature
               (if max_tokens =? 0 then None else Some max_tokens) None chosen []
               default_sp_id default_sp_ver (Some "plan"))) ;;
  response <- sd_llm deps request ;;
  let messages' := messages ++ [mkChat ROLE_ASSISTANT (rs_content response) None (rs_tool_calls response)] in
  let has_calls := match rs_tool_calls response with [] => false | _ => true end in
  let wants_tools := has_calls && (step <? max_steps) in
  let pending := if wants_tools then map tool_call_dump (rs_tool_calls response) else [] in
  let truncated := has_calls && (max_steps <=? step) in
  merged <- lift (merge_usage (getd (data s) "_usage") (rs_usage response)) ;;
  let budget_truncated := over_budget max_total_tokens (us_total_tokens merged) in
  ret (node_update
    [("_messages", dump_messages messages'); ("_step", JInt step);
     ("_pending_tool_calls", JList pending);
     ("_plan_next", JStr (if wants_tools then "tool_call" else "finalize"));
     ("_last_response", response_dump response);
     ("_pending_plan_summary", JStr (rs_content response)); ("_usage", usage_dump merged);
     ("_truncated_by_max_steps", JBool (truthy (getd (data s) "_truncated_by_max_steps") || truncated));
     ("_truncated_by_token_budget",
       JBool (truthy (getd (data s) "_truncated_by_token_budget") || budget_truncated))]).

Definition observe (r : ToolResult) (acc : list ChatMessage * Z) : list ChatMessage * Z :=
  (acc.1 ++ [mkChat ROLE_TOOL (tool_message_content r) (Some (tl_call_id r)) []], acc.2 + 1).

Definition run_calls (ctx : ToolContext) (s : TaskRunState) (operation : ToolCall -> M W ToolResult)
    (calls : list ToolCall) (acc : list ChatMessage * Z) : M W (list ChatMessage * Z) :=
  for_each calls acc (fun call acc =>
    r <- execute_with_audit call ctx s (operation call) ;; ret (observe r acc)).

Definition observed_update (acc : list ChatMessage * Z) : dict :=
  [("_messages", dump_messages acc.1); ("_pending_tool_calls", JList []);
   ("_tool_invocations", JInt acc.2)].

(** In plan mode the code stores [_plan_prompt_id] in [state.data] itself
    before it runs the calls; the merge that follows the node keeps it, which
    is the same as leading the update with it.  The condition on the decision
    is the code's: a timeout ([None]) takes the executing branch. *)
Definition tool_call : NodeFn W := fun s =>
  match getd (data s) "_pending_tool_calls" with
  | JList ((_ :: _) as raw) =>
      ctx <- lift (build_tool_context s) ;;
      messages <- lift (load_messages s default_system_prompt) ;;
      invocations <- lift (int_or_default s "_tool_invocations" 0) ;;
      mode <- lift (str_or_none s "_permission_mode") ;;
      calls <- lift (mapM_res tool_call_validate raw) ;;
      match sd_permission_gate deps with
      | Some gate =>
          if String.eqb (default "" mode) "plan" then
            dp <- request_plan_decision gate s calls ;;
            let '(decision, prompt_id) := dp in
            acc <- run_calls ctx (with_data s (dset (data s) "_plan_prompt_id" (JStr prompt_id)))
              (fun call =>
                 match decision with
                 | None => execute call ctx
                 | Some d => if pd_allow d then execute call ctx
                             else ret (synthetic_deny_result call (pd_reason d) "denied" prompt_id)
                 end) calls (messages, invocations) ;;
            ret (node_update (("_plan_prompt_id", JStr prompt_id) :: observed_update acc))
          else if String.eqb (default "" mode) "approve_each_tool" then
            acc <- run_calls ctx s (fun call => gated_execute gate call ctx s) calls
                     (messages, invocations) ;;
            ret (node_update (observed_update acc))
          else
            acc <- run_calls ctx s (fun call => execute call ctx) calls (messages, invocations) ;;
            ret (node_update (observed_update acc))
      | None =>
          acc <- run_calls ctx s (fun call => execute call ctx) calls (messages, invocations) ;;
          ret (node_update (observed_update acc))
      end
  | _ => raise (GraphError "shell_agent: tool_call entered with no pending tool calls")
  end.

Definition finalize : NodeFn W := fun s =>
  response <- lift (match getd (data s) "_last_response" with
                    | JDict _ as v => let? r := response_validate v in Ok (Some r)
                    | _ => Ok None
                    end) ;;
  usage <- lift (usage_from_state (getd (data s) "_usage")) ;;
  steps <- lift (int_or_default s "_step" 0) ;;
  invocations <- lift (int_or_default s "_tool_invocations" 0) ;;
  ret (node_update [("output", JDict (output_summary response steps invocations
    (truthy (getd (data s) "_truncated_by_max_steps"))
    (truthy (getd (data s) "_truncated_by_token_budget")) usage))]).

Definition plan_router : RouterFn := fun s =>
  if is_str (getd (data s) "_plan_next") "tool_call" then "tool_call" else "finalize".

Definition shell_graph (gid : string) : res (Graph W) :=
  let? g := new_graph gid in
  let? g := add_node g "plan" plan in
  let? g := add_node g "tool_call" tool_call in
  let? g := add_node g "finalize" finalize in
  let? g := set_entry g "plan" in
  let? g := add_conditional g "plan" plan_router in
  let? g := add_edge g "tool_call" "plan" in
  let? g := add_edge g "finalize" END in
  let? _ := compile g in
  Ok g.
End Shell.

(** [_require_tool_caps], then the graph. *)
Definition build_shell_agent_graph {W} (deps : ShellDeps W) (gid : string)
    (default_system_prompt default_system_prompt_id : option string) : res (Graph W) :=
  match sd_tools deps with
  | None => Err (GraphError "shell_agent requires deps.tool_registry and deps.tool_executor")
  | Some (specs, execute) =>
      shell_graph deps default_system_prompt default_system_prompt_id specs execute gid
  end.
