(* ===== verification/ShellAgentFacts.v ===== *)
(** * ShellAgentFacts: the agent loop terminates, and permissions hold

    The bound on planning steps, what a denied permission does, what a timed
    out plan prompt does, and the round trip of the conversation through
    [state.data]. *)

From S2P Require Import Prelude PyText Domain GraphRuntime Results PromptRegistry ShellAgent.

(** ** The conversation survives its JSON form *)

Definition call_ok (c : ToolCall) : Prop := tc_id c <> "" /\ tc_name c <> "".
Definition message_ok (m : ChatMessage) : Prop := Forall call_ok (cm_tool_calls m).

Lemma nonempty_eqb s : s <> "" -> nonempty s = true.
Proof. intros H. by apply nonempty_true. Qed.

Lemma tool_call_roundtrip c : call_ok c -> tool_call_validate (tool_call_dump c) = Ok c.
Proof.
  destruct c as [i n a]. intros [Hi Hn]. unfold tool_call_validate. simpl.
  unfold req_nonempty_str. simpl. apply nonempty_eqb in Hi, Hn. simpl in *. by rewrite Hi; simpl; rewrite Hn.
Qed.

Lemma mapM_res_map {A B} (f : A -> res B) (g : B -> A) l :
  Forall (fun b => f (g b) = Ok b) l -> mapM_res f (map g l) = Ok l.
Proof. induction 1 as [|b l Hb _ IH]; simpl; [done|]. rewrite Hb. simpl. by rewrite IH. Qed.

Lemma message_roundtrip m : message_ok m -> message_validate (message_dump m) = Ok m.
Proof.
  destruct m as [r c t calls]. intros Hc. unfold message_validate. simpl.
  assert (Hcalls : mapM_res tool_call_validate (map tool_call_dump calls) = Ok calls).
  { apply mapM_res_map. eapply Forall_impl; [exact Hc|]. apply tool_call_roundtrip. }
  destruct r, t; simpl; unfold req_str, opt_str_field, list_field; simpl; by rewrite Hcalls.
Qed.

Lemma usage_roundtrip u : usage_validate (usage_dump u) = Ok u.
Proof. by destruct u as [[] [] [] []]. Qed.

(** The conversation [plan] and [tool_call] store is the one they load. *)
Lemma load_dumped_messages s ms d :
  Forall message_ok ms -> getd (data s) "_messages" = dump_messages ms -> load_messages s d = Ok ms.
Proof.
  intros Hm He. unfold load_messages. rewrite He. simpl. apply mapM_res_map.
  eapply Forall_impl; [exact Hm|]. apply message_roundtrip.
Qed.

(** ** The shape of the nodes *)

Section Nodes.
Context {W : Type} (deps : ShellDeps W) (dsp dspid : option string).
Context (specs : list ToolSpec) (execute : ToolCall -> ToolContext -> M W ToolResult).

(** What one planning step may decide. *)
Definition plan_outcome (s : TaskRunState) (r : NodeResult) : Prop :=
  exists u, r = node_update u /\
    (is_str (getd (dupdate (data s) u) "_plan_next") "tool_call" = false \/
     exists k m, int_or_default s "_step" 0 = Ok k /\ int_or_default s "max_steps" DEFAULT_MAX_STEPS = Ok m /\
       k + 1 < m /\ getd (dupdate (data s) u) "_step" = JInt (k + 1) /\
       getd (dupdate (data s) u) "max_steps" = getd (data s) "max_steps").

Lemma bind_lift_ok {A B} (r : res A) (k : A -> M W B) w b w' :
  bind (lift r) k w = (Ok b, w') -> exists a, r = Ok a /\ k a w = (Ok b, w').
Proof. unfold bind, lift. destruct r; naive_solver. Qed.

Lemma plan_shape s w r w' : plan deps dsp dspid specs s w = (Ok r, w') -> plan_outcome s r.
Proof.
  unfold plan. intros H. apply bind_inv_ok in H as ([[dp1 dp2] dp3] & w1 & _ & H).
  apply bind_lift_ok in H as (ms & _ & H). apply bind_lift_ok in H as (m & Hm & H).
  destruct (m <=? 0); [done|]. apply bind_lift_ok in H as (mt & _ & H).
  apply bind_lift_ok in H as (us & _ & H). destruct (over_budget _ _).
  { injection H as <- <-. eexists. split; [done|]. left. by simp_dict. }
  apply bind_lift_ok in H as (k & Hk & H). do 6 apply bind_lift_ok in H as (? & _ & H).
  apply bind_inv_ok in H as (resp & w2 & _ & H). apply bind_lift_ok in H as (merged & _ & H).
  injection H as <- <-. eexists. split; [done|]. simp_dict.
  destruct (match rs_tool_calls resp with [] => false | _ :: _ => true end && (k + 1 <? m)) eqn:E;
    [right|by left].
  apply andb_true_iff in E as [_ E]. apply Z.ltb_lt in E. exists k, m. split_and!; try done.
Qed.

(** A node that only reports observations. *)
Definition keeps_counters (s : TaskRunState) (r : NodeResult) : Prop :=
  exists u, r = node_update u /\
    getd (dupdate (data s) u) "_step" = getd (data s) "_step" /\
    getd (dupdate (data s) u) "max_steps" = getd (data s) "max_steps".

Lemma tool_call_shape s w r w' : tool_call deps dsp execute s w = (Ok r, w') -> keeps_counters s r.
Proof.
  unfold tool_call. destruct (getd (data s) "_pending_tool_calls") as [| | | | |[|c raw]|]; try done.
  intros H. do 5 apply bind_lift_ok in H as (? & _ & H).
  destruct (sd_permission_gate deps) as [gate|].
  - destruct (String.eqb _ "plan").
    { apply bind_inv_ok in H as ([d pid] & w1 & _ & H). apply bind_inv_ok in H as (acc & w2 & _ & H).
      injection H as <- <-. eexists. split; [done|]. unfold observed_update. by simp_dict. }
    destruct (String.eqb _ "approve_each_tool"); apply bind_inv_ok in H as (acc & w2 & _ & H);
      injection H as <- <-; eexists; (split; [done|]); unfold observed_update; by simp_dict.
  - apply bind_inv_ok in H as (acc & w2 & _ & H). injection H as <- <-.
    eexists. split; [done|]. unfold observed_update. by simp_dict.
Qed.

Lemma finalize_shape s (w : W) r w' : finalize s w = (Ok r, w') -> exists u : dict, r = node_update u /\ w' = w.
Proof.
  unfold finalize. intros H. do 4 apply bind_lift_ok in H as (? & _ & H). injection H as <- <-. eauto.
Qed.

(** ** The graph *)

Definition the_graph (gid : string) : Graph W :=
  mkGraph gid
    [("plan", plan deps dsp dspid specs); ("tool_call", tool_call deps dsp execute);
     ("finalize", finalize)]
    [("plan", mkEdge None (Some plan_router)); ("tool_call", mkEdge (Some "plan") None);
     ("finalize", mkEdge (Some END) None)] (Some "plan").

Lemma shell_graph_eq gid :
  nonempty gid = true -> shell_graph deps dsp dspid specs execute gid = Ok (the_graph gid).
Proof. intros H. unfold shell_graph, new_graph. by rewrite H. Qed.

Lemma shell_graph_compiled gid g :
  shell_graph deps dsp dspid specs execute gid = Ok g -> compiled g.
Proof. intros H. unfold shell_graph in H. solve_compiled H. Qed.

(** The run from each node settles. *)
Definition ends gid := settles (the_graph gid) (fun _ => True).

Lemma settles_at_finalize gid n s w : at_node (the_graph gid) "finalize" s -> ends gid (S n) s w.
Proof.
  intros Hat. eapply settles_node with (next := fun _ => END); try done.
  intros r w' E. apply finalize_shape in E as (u & -> & ->). exists u. split; [done|].
  by apply settles_finished.
Qed.

Lemma settles_at_tool_call gid n s w :
  at_node (the_graph gid) "tool_call" s ->
  (forall s1 w1, at_node (the_graph gid) "plan" s1 ->
     getd (data s1) "_step" = getd (data s) "_step" ->
     getd (data s1) "max_steps" = getd (data s) "max_steps" -> ends gid n s1 w1) ->
  ends gid (S n) s w.
Proof.
  intros Hat Hk. eapply settles_node with (next := fun _ => "plan"); try done.
  intros r w' E. apply tool_call_shape in E as (u & -> & Hs & Hm). exists u. split; [done|].
  apply Hk; [by apply at_node_goto|done|done].
Qed.

Lemma settles_at_plan gid n : forall s w,
  (1 <= n)%nat -> at_node (the_graph gid) "plan" s ->
  (forall k m, int_or_default s "_step" 0 = Ok k -> int_or_default s "max_steps" DEFAULT_MAX_STEPS = Ok m ->
     m - k <= Z.of_nat n) ->
  ends gid (2 * n) s w.
Proof.
  induction n as [|n IH]; intros s w Hn Hat Hle; [lia|].
  replace (2 * S n)%nat with (S (S (2 * n))) by lia.
  eapply settles_node with (next := plan_router); try done.
  { intros a. unfold resolve_next. simpl. unfold plan_router. by destruct (is_str _ _). }
  intros r w' E. apply plan_shape in E as (u & -> & Hout). exists u. split; [done|].
  unfold plan_router at 1. cbn [data advance].
  destruct (is_str (getd (dupdate (data s) u) "_plan_next") "tool_call");
    [|apply settles_at_finalize; by apply at_node_goto].
  destruct Hout as [Hout|(k & m & Hk & Hm & Hlt & Hs & Hms)]; [done|].
  specialize (Hle k m Hk Hm). apply settles_at_tool_call; [by apply at_node_goto|].
  intros s2 w3 Hat2 Hs2 Hm2. apply IH; [lia|done|].
  intros k2 m2. unfold int_or_default. rewrite Hs2, Hm2. cbn [data goto advance]. rewrite Hs, Hms.
  intros [= <-] Hm2'. unfold int_or_default in Hm. rewrite Hm in Hm2'. injection Hm2' as <-. lia.
Qed.
End Nodes.

(** ** Permissions *)

(** A gate that never returns a decision to allow. *)
Definition never_allows {W} (gate : PermissionPrompt -> M W PermissionDecision) : Prop :=
  forall p w d w', gate p w = (Ok d, w') -> pd_allow d = false.
(** A gate that always answers, or fails for another reason. *)
Definition never_times_out {W} (gate : PermissionPrompt -> M W PermissionDecision) : Prop :=
  forall p w w', gate p w <> (Err PermissionTimeoutError, w').

Definition with_gate {W} (d : ShellDeps W) (gate : PermissionPrompt -> M W PermissionDecision) : ShellDeps W :=
  mkShellDeps (sd_llm d) (sd_tools d) (sd_prompt_registry d) (Some gate) (sd_audit_sink d)
    (sd_redact_text d) (sd_uuid d) (sd_now d) (sd_perf_counter d) (sd_json_dumps d) (sd_sha256_12 d)
    (sd_exn_str d) (sd_exn_name d) (sd_float_ok d).
Definition timeout_gate {W} (p : PermissionPrompt) : M W PermissionDecision := raise PermissionTimeoutError.
Definition grant_gate {W} (p : PermissionPrompt) : M W PermissionDecision :=
  ret (mkPermissionDecision (pp_prompt_id p) true None (pp_created_at p)).

Section Permissions.
Context {W : Type} (deps : ShellDeps W) (dsp : option string).

Lemma bind_ext {A B} (m : M W A) (k k' : A -> M W B) w :
  (forall a w', m w = (Ok a, w') -> k a w' = k' a w') -> bind m k w = bind m k' w.
Proof. intros H. unfold bind. destruct (m w) as [[a|e] w'] eqn:E; [by apply H|done]. Qed.

Lemma for_each_ext {A S} (body body' : A -> S -> M W S) l :
  (forall x s w, body x s w = body' x s w) -> forall s w, for_each l s body w = for_each l s body' w.
Proof.
  intros H. induction l as [|x l IH]; intros s w; [done|]. cbn [for_each]. unfold bind. rewrite H.
  destruct (body' x s w) as [[s'|e] w']; [apply IH|done].
Qed.

Lemma execute_with_audit_ext call ctx s (op op' : M W ToolResult) w :
  (forall w, op w = op' w) ->
  execute_with_audit deps call ctx s op w = execute_with_audit deps call ctx s op' w.
Proof.
  intros H. unfold execute_with_audit. do 3 (apply bind_ext; intros ? ? _).
  unfold bind, try_except. by rewrite H.
Qed.

Lemma run_calls_ext ctx s (op op' : ToolCall -> M W ToolResult) calls :
  (forall c w, op c w = op' c w) ->
  forall acc w, run_calls deps ctx s op calls acc w = run_calls deps ctx s op' calls acc w.
Proof.
  intros H. apply for_each_ext. intros c acc w. unfold bind.
  by rewrite (execute_with_audit_ext c ctx s (op c) (op' c) w (H c)).
Qed.

Lemma gated_execute_denied gate ex ex' call ctx s w :
  never_allows gate ->
  gated_execute deps ex gate call ctx s w = gated_execute deps ex' gate call ctx s w.
Proof.
  intros Hn. unfold gated_execute, bind, try_except, ret.
  destruct (sd_uuid deps w) as [[u|e] w1]; [|done]. destruct (sd_now deps w1) as [[t|e] w2]; [|done].
  destruct (gate _ w2) as [[d|e] w3] eqn:E; [|by destruct (is_permission_timeout e)].
  by rewrite (Hn _ _ _ _ E).
Qed.

(** What the plan prompt can answer. *)
Lemma plan_decision_cases gate s calls w d pid w' :
  request_plan_decision deps gate s calls w = (Ok (d, pid), w') ->
  (exists p w1, gate p w1 = (Err PermissionTimeoutError, w') /\ d = None) \/
  (exists p w1 x, gate p w1 = (Ok x, w') /\ d = Some x).
Proof.
  unfold request_plan_decision. intros H. apply bind_inv_ok in H as (u & w1 & _ & H).
  apply bind_lift_ok in H as (sm & _ & H). apply bind_inv_ok in H as (t & w2 & _ & H).
  unfold bind, try_except, ret in H. destruct (gate _ w2) as [[x|e] w3] eqn:E.
  - right. injection H as <- _ <-. eauto.
  - left. destruct e; simpl in H; try done. injection H as <- _ <-. eauto.
Qed.

(** The two gates lead to the same world and the same prompt. *)
Lemma plan_prompt_timeout s calls w :
  match request_plan_decision (with_gate deps timeout_gate) timeout_gate s calls w with
  | (Ok (d, pid), w') =>
      d = None /\ exists x, pd_allow x = true /\
        request_plan_decision (with_gate deps grant_gate) grant_gate s calls w = (Ok (Some x, pid), w')
  | (Err e, w') => request_plan_decision (with_gate deps grant_gate) grant_gate s calls w = (Err e, w')
  end.
Proof.
  unfold request_plan_decision, bind, lift, try_except, ret, raise, timeout_gate, grant_gate.
  cbn [with_gate sd_uuid sd_now]. destruct (sd_uuid deps w) as [[u|e] w1]; [|done].
  destruct (str_or_none s "_pending_plan_summary") as [sm|e]; [|done].
  destruct (sd_now deps w1) as [[t|e] w2]; [|done]. split; [done|].
  eexists. split; [|reflexivity]. done.
Qed.
End Permissions.

(** C11: a tool the user did not allow is not executed.  When the gate never
    grants, in [approve_each_tool] mode whether it denies, times out or fails,
    and in [plan] mode as long as it does answer, the whole observable effect
    of the [tool_call] node, its result, its raised error, every audit row and
    clock reading, is independent of the tool executor: replacing the executor
    by any other changes nothing, so it was never consulted. *)
Theorem denied_tools_not_executed {W} (deps : ShellDeps W) dsp gate ex ex' s w :
  sd_permission_gate deps = Some gate -> never_allows gate ->
  (getd (data s) "_permission_mode" = JStr "approve_each_tool" \/
   getd (data s) "_permission_mode" = JStr "plan" /\ never_times_out gate) ->
  tool_call deps dsp ex s w = tool_call deps dsp ex' s w.
Proof.
  intros Hg Hn Hmode. unfold tool_call. rewrite Hg.
  destruct (getd (data s) "_pending_tool_calls") as [| | | | |[|c raw]|];
    [reflexivity ..| |reflexivity].
  do 3 (apply bind_ext; intros ? ? _). unfold str_or_none.
  destruct Hmode as [->|[-> Ht]]; apply bind_ext; intros mode w1 [= <- _];
    apply bind_ext; intros calls w2 _; cbn [default id String.eqb Ascii.eqb Bool.eqb].
  - unfold bind. erewrite run_calls_ext; [done|]. intros x w3. by apply gated_execute_denied.
  - apply bind_ext. intros [d pid] w3 E.
    apply plan_decision_cases in E as [(p & w4 & E & ->)|(p & w4 & x & E & ->)]; [by apply Ht in E|].
    by rewrite (Hn _ _ _ _ E).
Qed.

(** In plan mode a silent client does green-light the batch.  With a gate
    whose prompt times out, the [tool_call] node does exactly what it does with
    a gate that grants the plan, the same executions with the same effects:
    the timeout is not treated as a denial. *)
Theorem plan_timeout_runs_tools {W} (deps : ShellDeps W) dsp ex s w :
  getd (data s) "_permission_mode" = JStr "plan" ->
  tool_call (with_gate deps timeout_gate) dsp ex s w = tool_call (with_gate deps grant_gate) dsp ex s w.
Proof.
  intros Hmode. unfold tool_call.
  destruct (getd (data s) "_pending_tool_calls") as [| | | | |[|c raw]|];
    [reflexivity ..| |reflexivity].
  do 3 (apply bind_ext; intros ? ? _). unfold str_or_none. rewrite Hmode.
  apply bind_ext; intros mode w1 [= <- _]. apply bind_ext; intros calls w2 _.
  cbn [with_gate sd_permission_gate default id String.eqb Ascii.eqb Bool.eqb].
  unfold bind at 1 3. pose proof (plan_prompt_timeout deps s calls w2) as H.
  destruct (request_plan_decision _ timeout_gate s calls w2) as [[[d pid]|e] w3].
  - by destruct H as [-> (x & Hx & ->)]; simpl; rewrite Hx.
  - by rewrite H.
Qed.

(** ** Termination *)

(** C10: the agent loop is bounded by [max_steps].  Whatever the model and the
    tools do, a run that starts without a planned step makes at most
    [2 * max_steps] graph steps: with that budget it either finishes or raises
    what one of those steps raised, never the runtime's cap, and any larger
    budget gives the same outcome and the same effects.  So a run under the
    default cap of 1000 steps cannot hit it while [max_steps] is at most 500. *)
Theorem shell_agent_bounded {W} (deps : ShellDeps W) dsp dspid gid g s w m :
  build_shell_agent_graph deps gid dsp dspid = Ok g ->
  finished s = false -> awaiting_approval s = false -> current_node s = START ->
  getd (data s) "_step" = JNull ->
  int_or_default s "max_steps" DEFAULT_MAX_STEPS = Ok m -> 0 < m ->
  (forall j, run g (2 * Z.to_nat m + j) s w = run g (2 * Z.to_nat m) s w) /\
  match run g (2 * Z.to_nat m) s w with
  | (Ok s', _) => finished s' = true
  | (Err e, w') => step_raised g (2 * Z.to_nat m) s w e w'
  end.
Proof.
  unfold build_shell_agent_graph. intros Hg Hf Ha Hc Hs Hm Hpos.
  destruct (sd_tools deps) as [[specs execute]|]; [|done].
  assert (Hgid : nonempty gid = true).
  { unfold shell_graph, new_graph in Hg. by destruct (nonempty gid). }
  rewrite (shell_graph_eq deps dsp dspid specs execute gid Hgid) in Hg. injection Hg as <-.
  assert (He : ends deps dsp dspid specs execute gid (2 * Z.to_nat m) s w).
  { apply settles_at_plan; [lia|split; [by unfold active; rewrite Hf, Ha|unfold exec_node; by rewrite Hc]|].
    unfold int_or_default in *. rewrite Hs. intros k m' [= <-] Hm'. rewrite Hm in Hm'. injection Hm' as <-. lia. }
  destruct He as [Hj He]. split; [exact Hj|].
  by destruct (run _ _ s w) as [[s'|e] w']; [destruct He|].
Qed.


(** ** Concrete runs

    An agent over a world that counts tool executions, whose model asks for the
    tool [run] on every turn. *)
Section Witnesses.
Definition demo_call : ToolCall := mkToolCall "c1" "run" [].
Definition eager_llm (r : LLMRequest) : M nat LLMResponse :=
  ret (mkResponse "thinking" "m" "tool_call" no_usage [demo_call] None).
Definition counting_tool (c : ToolCall) (x : ToolContext) : M nat ToolResult := fun n =>
  (Ok (mkToolResult (tc_id c) (tc_name c) "done" false false []), S n).
Definition silent_tool (c : ToolCall) (x : ToolContext) : M nat ToolResult := raise (GraphError "boom").
Definition deny_gate (p : PermissionPrompt) : M nat PermissionDecision :=
  ret (mkPermissionDecision (pp_prompt_id p) false (Some "no") 0).
Definition demo_deps (gate : option (PermissionPrompt -> M nat PermissionDecision)) : ShellDeps nat :=
  mkShellDeps eager_llm (Some ([mkToolSpec "run" "runs" [] SHELL], counting_tool)) None gate None None
    (ret "u") (ret 0) (ret 0) (fun _ => "{}") (fun _ => "h") (fun _ => "e") (fun _ => "E") (fun _ => true).
Definition demo_start (extra : dict) : TaskRunState :=
  mkRunState "t1" "acme" "tr1" SHELL_AGENT_GRAPH_ID START 0
    (("user_prompt", JStr "go") :: extra) false false None.
Definition demo_pending (mode : string) : TaskRunState :=
  mkRunState "t1" "acme" "tr1" SHELL_AGENT_GRAPH_ID "tool_call" 1
    [("user_prompt", JStr "go"); ("_permission_mode", JStr mode);
     ("_pending_tool_calls", JList [tool_call_dump demo_call; tool_call_dump demo_call])] false false None.

Definition demo_graph : Graph nat :=
  the_graph (demo_deps None) None None [mkToolSpec "run" "runs" [] SHELL] counting_tool SHELL_AGENT_GRAPH_ID.

(** Three planning steps run the tool twice and finish. *)
Lemma shell_agent_bounded_witness :
  exists g, build_shell_agent_graph (demo_deps None) SHELL_AGENT_GRAPH_ID None None = Ok g /\
    (run g 6 (demo_start [("max_steps", JInt 3)]) 0%nat).2 = 2%nat /\
    forall j, run g (2 * Z.to_nat 3 + j) (demo_start [("max_steps", JInt 3)]) 0%nat =
              run g (2 * Z.to_nat 3) (demo_start [("max_steps", JInt 3)]) 0%nat.
Proof.
  exists demo_graph. split; [reflexivity|]. split; [vm_compute; reflexivity|].
  destruct (shell_agent_bounded (demo_deps None) None None SHELL_AGENT_GRAPH_ID demo_graph
    (demo_start [("max_steps", JInt 3)]) 0%nat 3) as [H _];
    [reflexivity|reflexivity|reflexivity|reflexivity|reflexivity|reflexivity|reflexivity|exact H].
Defined.

Lemma deny_gate_never_allows : never_allows deny_gate.
Proof. by intros p w d w' [= <- _]. Qed.

(** With the executor that raises, a denied batch still returns. *)
Lemma denied_tools_not_executed_witness :
  tool_call (demo_deps (Some deny_gate)) None counting_tool (demo_pending "approve_each_tool") 0%nat =
  tool_call (demo_deps (Some deny_gate)) None silent_tool (demo_pending "approve_each_tool") 0%nat /\
  tool_call (demo_deps (Some deny_gate)) None counting_tool (demo_pending "plan") 0%nat =
  tool_call (demo_deps (Some deny_gate)) None silent_tool (demo_pending "plan") 0%nat.
Proof.
  split; apply (denied_tools_not_executed _ _ deny_gate);
    [reflexivity|exact deny_gate_never_allows|by left
    |reflexivity|exact deny_gate_never_allows|right; split; [reflexivity|by intros p w w' H]].
Defined.

(** The timed out plan executes both tools. *)
Lemma plan_timeout_runs_tools_witness :
  (tool_call (with_gate (demo_deps None) timeout_gate) None counting_tool (demo_pending "plan") 0%nat).2 = 2%nat.
Proof.
  rewrite (plan_timeout_runs_tools (demo_deps None) None counting_tool (demo_pending "plan") 0%nat) by reflexivity.
  reflexivity.
Defined.
End Witnesses.
