(* ===== verification/BugFix.v ===== *)
(** * BugFix: the edit, verify, replan, push graph

    [core/orchestration/graphs/bug_fix.py].  The inner edit loop is the shell
    agent's graph, run to completion inside the [agent] node; verification is
    one call of the [test_run] tool.  The file system and the git processes are
    ports, the fields of [BugFixDeps]; everything else, the prompt assembly, the
    verifier report, the routing, the commit protocol and the output, is
    translated.  [_read_snapshot] and the git helpers act on a workspace path
    and a relative path, as the code joins them. *)

From S2P Require Import Prelude PyText Domain GraphRuntime SystemGraphs Gates Results PromptRegistry ShellAgent.

(** ** Reading [state.data] *)

Definition BUG_FIX_GRAPH_ID : string := "builtin.bug_fix".
Definition BUG_FIX_SYSTEM_PROMPT_ID : string := "bug_fix.system".
Definition MAX_REPLAN_ATTEMPTS : Z := 1.
Definition DEFAULT_VERIFY_SUITE : string := "python_test".
Definition MAX_VERIFIER_EXCERPT_CHARS : nat := 1000.
Definition DEFAULT_TOOL_NAMES : list string :=
  ["fs_read"; "fs_list_dir"; "fs_grep"; "edit_write"; "edit_patch_apply"; "shell_run"; "test_run"].
Definition VERIFIER_ENV_FAILURE_PATTERNS : list string :=
  ["command not found"; "no such file or directory"; "not installed"; "module not found";
   "permission denied"; "environment unavailable"; "failed to import"].

(** [data.get(k, default)]: the default only stands in for a missing key. *)
Definition get_or (d : dict) (k : string) (dflt : json) : json := default dflt (dget d k).

Definition required_str (s : TaskRunState) (key : string) : res string :=
  match as_nonempty_str (getd (data s) key) with
  | Some x => Ok x
  | None => Err (GraphError "bug_fix: state.data[key] must be a non-empty str")
  end.

Definition optional_str (s : TaskRunState) (key : string) : res (option string) :=
  match getd (data s) key with
  | JNull => Ok None
  | JStr x => Ok (if nonempty x then Some x else None)
  | _ => Err (GraphError "bug_fix: state.data[key] must be a str or null")
  end.

Definition target_files (s : TaskRunState) : res (list string) :=
  let bad := GraphError "bug_fix: state.data['target_files'] must be a non-empty list[str]" in
  match getd (data s) "target_files" with
  | JList ((_ :: _) as l) =>
      mapM_res (fun v => match as_nonempty_str v with Some x => Ok x | None => Err bad end) l
  | _ => Err bad
  end.

(** The raw value is kept when it is an [int], [True] and [False] included. *)
Definition replan_attempts (s : TaskRunState) : json :=
  let raw := get_or (data s) "_replan_attempts" (JInt 0) in
  match as_int raw with
  | Some n => if 0 <=? n then raw else JInt 0
  | None => JInt 0
  end.
Definition int_value (v : json) : Z := default 0 (as_int v).

Definition route_after_verify : RouterFn := fun s =>
  let report := as_dict (getd (data s) "_verify") in
  let passed := match report with Some d => truthy (getd d "passed") | None => false end in
  let retryable := match report with Some d => truthy (getd d "retryable") | None => false end in
  if passed || negb retryable || (MAX_REPLAN_ATTEMPTS <=? int_value (replan_attempts s))
  then "push" else "prepare".

Definition render_system_prompt (template : string) (targets : list string) : string :=
  safe_substitute template "allow_list" (str_join ", " (map py_repr_str targets)).

Definition truthy_text (o : option string) : option string :=
  match o with Some x => if nonempty x then Some x else None | None => None end.

Definition user_prompt (issue : string) (targets : list string) (snapshot : list (string * string))
    (prior_verifier_output prior_diff_stat human_feedback : option string) : string :=
  str_join newline
    (["Issue:" +:+ newline +:+ issue; newline +:+ "Allowed files:"]
     ++ map (fun rel => newline +:+ "--- " +:+ rel +:+ " ---" +:+ newline +:+
                        default "" (dget snapshot rel)) targets
     ++ (match truthy_text prior_verifier_output with
         | None => []
         | Some out =>
             [newline +:+ "The previous attempt failed verification. Read the feedback below, adjust the edit, and avoid repeating the same mistake.";
              newline +:+ "Verifier output:" +:+ newline +:+ out]
             ++ match truthy_text prior_diff_stat with
                | Some st => [newline +:+ "Previous diff stat:" +:+ newline +:+ st]
                | None => []
                end
         end)
     ++ (match truthy_text human_feedback with
         | None => []
         | Some fb =>
             [newline +:+ "A human reviewer left the following guidance. Treat it as authoritative; if it conflicts with the verifier feedback above, prefer the human guidance.";
              newline +:+ "Human feedback:" +:+ newline +:+ fb]
         end)).

Definition verify_suite (s : TaskRunState) : res string :=
  match getd (data s) "verify_suite" with
  | JNull => Ok DEFAULT_VERIFY_SUITE
  | v => match as_nonempty_str v with
         | Some x => Ok x
         | None => Err (GraphError "bug_fix: state.data['verify_suite'] must be a non-empty str")
         end
  end.

(** ** The verifier report *)

Definition output_excerpt (text : string) : string := str_take MAX_VERIFIER_EXCERPT_CHARS text.

Definition stdout_marker : string := newline +:+ "stdout:" +:+ newline.
Definition stderr_marker : string := newline +:+ "stderr:" +:+ newline.

(** Unpacking [remainder.split(stderr_marker, 1)] raises [ValueError] when the
    only stderr marker comes before the stdout marker. *)
Definition split_verifier_output (content : string) : res (string * string) :=
  if str_contains stdout_marker content && str_contains stderr_marker content then
    match str_split_once stdout_marker content with
    | Some (_, remainder) =>
        match str_split_once stderr_marker remainder with
        | Some (out, err) => Ok (out, err)
        | None => Err (ValueError "not enough values to unpack")
        end
    | None => Err (ValueError "not enough values to unpack")
    end
  else Ok ("", "").

Definition verifier_failure_kind (output : string) (exit_code : option Z) (timed_out : bool) : string :=
  if timed_out then "timeout"
  else
    let combined := py_lower output in
    if match exit_code with Some n => n =? 127 | None => false end
       || existsb (fun p => str_contains p combined) VERIFIER_ENV_FAILURE_PATTERNS
    then "env_failed" else "test_failed".

Definition build_verifier_report (suite output : string) (exit_code : option Z)
    (timed_out passed : bool) : res dict :=
  let? se := split_verifier_output output in
  let kind := if passed then None else Some (verifier_failure_kind output exit_code timed_out) in
  let retryable := match kind with
                   | Some k => String.eqb k "test_failed" || String.eqb k "no_diff"
                   | None => false
                   end in
  Ok [("passed", JBool passed); ("output", JStr output); ("suite", JStr suite);
      ("exit_code", opt_json JInt exit_code); ("timed_out", JBool timed_out);
      ("stdout_excerpt", JStr (output_excerpt se.1)); ("stderr_excerpt", JStr (output_excerpt se.2));
      ("failure_kind", opt_json JStr kind); ("retryable", JBool retryable)].

Definition no_diff_message : string := "no files changed; agent produced no workspace diff".
Definition no_diff_report (suite : string) : dict :=
  [("passed", JBool false); ("suite", JStr suite); ("exit_code", JNull); ("timed_out", JBool false);
   ("stdout_excerpt", JStr ""); ("stderr_excerpt", JStr no_diff_message);
   ("failure_kind", JStr "no_diff"); ("retryable", JBool true); ("output", JStr no_diff_message)].

Definition files_changed (baseline current : list (string * string)) : list string :=
  map fst (List.filter (fun kv => negb (String.eqb (default "" (dget current kv.1)) kv.2)) baseline).

(** ** Credentials in error text *)

Definition is_scheme_char (c : Ascii.ascii) : bool :=
  is_alpha c || is_digit c || char_is 43 c || char_is 46 c || char_is 45 c.
Definition is_secret_char (c : Ascii.ascii) : bool :=
  negb (char_is 47 c || char_is 64 c || is_space c).

(** One match of [scheme://secret@] at the start of [s]: the scheme with its
    slashes, and what follows the match.  The classes exclude the delimiters,
    so the regular expression has one way to match. *)
Definition match_credential (s : string) : option (string * string) :=
  match s with
  | String c _ =>
      if negb (is_alpha c) then None
      else
        let '(scheme, rest) := str_span is_scheme_char s in
        if String.prefix "://" rest then
          let '(_, rest') := str_span is_secret_char (String.substring 3 (String.length rest) rest) in
          match rest' with
          | String c' rest'' => if char_is 64 c' then Some (scheme +:+ "://", rest'') else None
          | EmptyString => None
          end
        else None
  | EmptyString => None
  end.
Fixpoint redact_from (fuel : nat) (s : string) : string :=
  match fuel, s with
  | S fuel', String c s' =>
      match match_credential s with
      | Some (scheme, rest) => scheme +:+ "<redacted>@" +:+ redact_from fuel' rest
      | None => String c (redact_from fuel' s')
      end
  | _, _ => ""
  end.
Definition redact_credentials (text : string) : string := redact_from (String.length text) text.

(** ** The graph *)

Record BugFixDeps (W : Type) : Type := mkBugFixDeps {
  bf_shell : ShellDeps W;
  bf_git_push_token : option string;
  (** [Path.is_dir], and [exists], [is_file], [read_text] of [workspace / rel]. *)
  bf_is_dir : string -> M W bool;
  bf_exists : string -> string -> M W bool;
  bf_is_file : string -> string -> M W bool;
  bf_read_text : string -> string -> M W string;
  (** [_run_subprocess]'s process: arguments, working directory, timeout in seconds. *)
  bf_subprocess : list string -> string -> Z -> M W GitInspect.subprocess_result;
  (** The push process: arguments, and the token in its environment. *)
  bf_push_process : list string -> string -> M W GitInspect.subprocess_result;
  (** [int(x)] of a float. *)
  bf_int_of_float : string -> res Z
}.
Arguments mkBugFixDeps {W}. Arguments bf_shell {W}. Arguments bf_git_push_token {W}.
Arguments bf_is_dir {W}. Arguments bf_exists {W}. Arguments bf_is_file {W}.
Arguments bf_read_text {W}. Arguments bf_subprocess {W}. Arguments bf_push_process {W}.
Arguments bf_int_of_float {W}.

(** [_push_skip]. *)
Definition push_skip (reason : string) (commit_sha : option string) (diff_stat : string)
    (changed : list string) : dict :=
  [("commit_sha", opt_json JStr commit_sha); ("diff_stat", JStr diff_stat);
   ("files_changed", JList (map JStr changed)); ("pushed", JBool false); ("skip_reason", JStr reason)].

(** [str(d.get(k) or dflt)] and [str(d.get(k, dflt))]. *)
Definition str_or (d : dict) (k dflt : string) : string :=
  let v := getd d k in if truthy v then py_str v else dflt.
Definition str_get (d : dict) (k dflt : string) : string := py_str (get_or d k (JStr dflt)).

Definition verifier_summary (kind suite : string) (attempts : Z) : string * list string :=
  if String.eqb kind "no_diff" then
    ("Verifier did not run successfully because the agent produced no workspace diff.",
     ["Inspect the assistant message and tool events to see why no edit was made.";
      "Check target_files and the prompt allow-list."])
  else if String.eqb kind "timeout" then
    ("Verifier suite " +:+ py_repr_str suite +:+ " timed out after " +:+ pretty attempts +:+ " attempt(s).",
     ["Inspect verifier_output for the command that timed out.";
      "Check whether the selected verify_suite is too expensive for this workspace."])
  else if String.eqb kind "env_failed" then
    ("Verifier suite " +:+ py_repr_str suite +:+
       " could not run successfully because the verification environment failed.",
     ["Inspect verifier_output for missing tools, dependencies, or environment setup errors.";
      "Retry only after fixing the verifier environment."])
  else
    ("Verifier suite " +:+ py_repr_str suite +:+ " failed after " +:+ pretty attempts +:+ " attempt(s).",
     ["Inspect verifier_output for the concrete failing command/test.";
      "Inspect tool events immediately before verification for the edit that produced the failure."]).

Definition bug_fix_failure_explanation (report : dict) (attempts : Z) (changed : list string)
    (agent_output : dict) : option dict :=
  let changed_json := JList (map JStr changed) in
  if negb (truthy (getd report "passed")) then
    let suite := str_or report "suite" "unknown" in
    let kind := str_or report "failure_kind" "test_failed" in
    let '(summary, hints) := verifier_summary kind suite attempts in
    Some (failure_explanation "verifier_failed" summary (truthy (getd report "retryable")) hints
      [("failure_kind", JStr kind); ("verify_suite", JStr suite); ("attempts", JInt attempts);
       ("files_changed", changed_json); ("exit_code", getd report "exit_code");
       ("timed_out", JBool (truthy (getd report "timed_out")));
       ("stdout_excerpt", JStr (str_get report "stdout_excerpt" ""));
       ("stderr_excerpt", JStr (str_get report "stderr_excerpt" ""));
       ("verifier_output_excerpt", JStr (output_excerpt (str_get report "output" "")))])
  else if truthy (getd agent_output "truncated_by_token_budget") then
    Some (failure_explanation "budget_exceeded"
      "Bug-fix agent stopped because the inner tool-use loop reached max_total_tokens." true
      ["Increase max_total_tokens for this task."; "Narrow target_files or issue context before retrying."]
      [("attempts", JInt attempts); ("files_changed", changed_json)])
  else if truthy (getd agent_output "truncated_by_max_steps") then
    Some (failure_explanation "max_steps_truncated"
      "Bug-fix agent stopped because the inner tool-use loop reached max_steps." true
      ["Increase max_steps if this task requires more tool turns.";
       "Inspect tool-call audit events for repeated or ineffective actions."]
      [("attempts", JInt attempts); ("files_changed", changed_json)])
  else None.

Section BugFix.
Context {W : Type} (deps : BugFixDeps W).
(** The compiled inner graph and the executor, once the factory has them. *)
Context (inner : Graph W) (execute : ToolCall -> ToolContext -> M W ToolResult).

Definition read_snapshot (workspace : string) (files : list string) : M W (list (string * string)) :=
  for_each files [] (fun rel snapshot =>
    there <- bf_exists deps workspace rel ;;
    if there then
      regular <- bf_is_file deps workspace rel ;;
      if negb regular then raise (GraphError "bug_fix: target_files entry is not a regular file")
      else text <- bf_read_text deps workspace rel ;; ret (dset snapshot rel text)
    else ret (dset snapshot rel "")).

Definition run_subprocess (args : list string) (cwd : string) (timeout : Z) : M W (Z * string * string) :=
  out <- bf_subprocess deps args cwd timeout ;;
  match out with
  | GitInspect.Timeout => raise (GraphError "bug_fix: subprocess timed out")
  | GitInspect.Exited code stdout stderr => ret (code, stdout, stderr)
  end.

Definition git (args : list string) (cwd : string) : M W string :=
  r <- run_subprocess (["git"; "-C"; cwd] ++ args) cwd 30 ;;
  let '(code, stdout, _) := r in
  if negb (code =? 0) then raise (GraphError "bug_fix: git failed") else ret stdout.

Definition diff_stat (workspace : string) : M W string :=
  r <- run_subprocess ["git"; "diff"; "--stat"] workspace 30 ;; ret (py_strip r.1.2).
Definition diff_patch (workspace : string) : M W string :=
  r <- run_subprocess ["git"; "diff"] workspace 30 ;; ret r.1.2.

Definition verify_with_test_tool (s : TaskRunState) (changed : list string) (workspace : string)
    : M W dict :=
  suite <- lift (verify_suite s) ;;
  match changed with
  | [] => ret (no_diff_report suite)
  | _ =>
      match get_or (data s) "output_byte_cap" (JInt 65536) with
      | JInt cap =>
          if cap <=? 0 then raise (GraphError "bug_fix: output_byte_cap must be a positive int")
          else
            result <- execute
              (mkToolCall ("verify-" +:+ task_id s) "test_run"
                 [("suite", JStr suite); ("targets", JList (map JStr changed))])
              (mkToolContext (tenant_id s) (task_id s) (trace_id s) (Some workspace) cap) ;;
            exit_code <- lift (match dget (tl_metadata result) "exit_code" with
                               | Some x => if nonempty x then (let? n := py_int x in Ok (Some n)) else Ok None
                               | None => Ok None
                               end) ;;
            let timed_out := match dget (tl_metadata result) "timed_out" with
                             | Some x => String.eqb x "true" | None => false end in
            lift (build_verifier_report suite (tl_content result) exit_code timed_out
                    (negb (tl_is_error result)))
      | _ => raise (GraphError "bug_fix: output_byte_cap must be a positive int")
      end
  end.

Definition commit_workspace (workspace issue branch : string) (changed : list string)
    : M W (option string * string * list string) :=
  match changed with
  | [] => ret (None, "", [])
  | _ =>
      git (["add"; "--"] ++ changed) workspace ;;;
      staged <- git ["diff"; "--cached"; "--name-only"] workspace ;;
      match List.filter nonempty (py_splitlines staged) with
      | [] => ret (None, "", [])
      | committed =>
          let first_line := if nonempty (py_strip issue) then hd "" (py_splitlines issue) else "bug fix" in
          git ["-c"; "user.email=agent@meta-agent.local"; "-c"; "user.name=meta-agent"; "commit"; "-m";
               "agent(" +:+ branch +:+ "): " +:+ str_take 72 first_line] workspace ;;;
          head <- git ["rev-parse"; "HEAD"] workspace ;;
          stat <- git ["show"; "--stat"; "--format="; "HEAD"] workspace ;;
          ret (truthy_text (Some (py_strip head)), py_strip stat, committed)
      end
  end.

Definition push_helper : string :=
  "credential.helper=!f() { echo username=x-access-token; echo " +:+ String (Ascii.ascii_of_nat 34) ""
  +:+ "password=$AGENT_GIT_PUSH_TOKEN" +:+ String (Ascii.ascii_of_nat 34) "" +:+ "; }; f".

Definition git_push (workspace branch token : string) : M W unit :=
  out <- bf_push_process deps
    ["git"; "-C"; workspace; "-c"; push_helper; "push"; "origin"; branch +:+ ":" +:+ branch] token ;;
  match out with
  | GitInspect.Timeout => raise (GraphError "bug_fix: git push timed out")
  | GitInspect.Exited code stdout stderr =>
      if code =? 0 then ret tt
      else
        let detail := redact_credentials
          (if nonempty (py_strip stderr) then py_strip stderr
           else if nonempty (py_strip stdout) then py_strip stdout else "no output") in
        raise (GraphError ("bug_fix: git push failed (exit=" +:+ pretty code +:+ "): " +:+ detail))
  end.

Definition fetch_prompt (tenant : string) : M W PromptAsset :=
  match sd_prompt_registry (bf_shell deps) with
  | None => raise (GraphError "bug_fix requires deps.prompt_registry")
  | Some fetch => fetch BUG_FIX_SYSTEM_PROMPT_ID tenant
  end.

Definition list_of_str (v : json) : option (list json) :=
  match v with
  | JList l => if forallb (fun x => match x with JStr _ => true | _ => false end) l then Some l else None
  | _ => None
  end.

Definition inner_data (s : TaskRunState) (asset : PromptAsset) (workspace issue : string)
    (targets : list string) (snapshot : list (string * string)) (prior prior_stat feedback : option string)
    : dict :=
  [("system_prompt", JStr (render_system_prompt (pa_content asset) targets));
   ("system_prompt_id", JStr (pa_prompt_id asset)); ("system_prompt_version", JInt (pa_version asset));
   ("user_prompt", JStr (user_prompt issue targets snapshot prior prior_stat feedback));
   ("tool_names", JList (default (map JStr DEFAULT_TOOL_NAMES) (list_of_str (getd (data s) "tool_names"))));
   ("max_steps", get_or (data s) "max_steps" (JInt 8));
   ("max_total_tokens", getd (data s) "max_total_tokens");
   ("output_byte_cap", get_or (data s) "output_byte_cap" (JInt 65536));
   ("_workspace_path", JStr workspace); ("model", getd (data s) "model");
   ("temperature", getd (data s) "temperature"); ("max_tokens", getd (data s) "max_tokens")].

Definition prepare : NodeFn W := fun s =>
  issue <- lift (required_str s "issue_description") ;;
  raw_workspace <- lift (required_str s "_workspace_path") ;;
  let workspace := py_path raw_workspace in
  targets <- lift (target_files s) ;;
  isdir <- bf_is_dir deps workspace ;;
  if negb isdir then raise (GraphError "bug_fix: workspace does not exist")
  else
  snapshot <- read_snapshot workspace targets ;;
  let baseline := match as_dict (getd (data s) "_baseline_snapshot") with
                  | Some d => d
                  | None => map (fun kv => (kv.1, JStr kv.2)) snapshot
                  end in
  let failed_report := match as_dict (getd (data s) "_verify") with
                       | Some d => if truthy (getd d "passed") then None else Some d
                       | None => None
                       end in
  let attempts0 := replan_attempts s in
  let attempts1 := match failed_report with Some _ => JInt (int_value attempts0 + 1) | None => attempts0 end in
  let prior := match failed_report with Some d => as_str (getd d "output") | None => None end in
  let prior_stat := match failed_report with Some _ => as_str (getd (data s) "_diff_stat") | None => None end in
  let rejected := truthy (getd (data s) "_rejected_with_feedback") in
  let feedback := if rejected then as_nonempty_str (getd (data s) HUMAN_FEEDBACK_KEY) else None in
  let attempts := if rejected then JInt (int_value attempts1 + 1) else attempts1 in
  asset <- fetch_prompt (tenant_id s) ;;
  let inner_state := initial_state (task_id s) (tenant_id s) (trace_id s) SHELL_AGENT_GRAPH_ID
    (inner_data s asset workspace issue targets snapshot prior prior_stat feedback) in
  ret (node_update
    [("_baseline_snapshot", JDict baseline); ("_replan_attempts", attempts);
     ("_inner_state", JDict (model_dump inner_state)); ("_rejected_with_feedback", JBool false);
     (HUMAN_FEEDBACK_KEY, JNull)]).

Definition agent : NodeFn W := fun s =>
  match as_dict (getd (data s) "_inner_state") with
  | None => raise (GraphError "bug_fix: prepare did not emit _inner_state")
  | Some raw =>
      inner_state <- lift (model_validate raw) ;;
      final <- run inner default_max_steps inner_state ;;
      match as_dict (getd (data final) "output") with
      | None => raise (GraphError "bug_fix: inner shell_agent did not emit output")
      | Some output =>
          ret (node_update [("_agent_output", JDict output); ("_agent_state", JDict (model_dump final))])
      end
  end.

Definition verify : NodeFn W := fun s =>
  raw_workspace <- lift (required_str s "_workspace_path") ;;
  let workspace := py_path raw_workspace in
  targets <- lift (target_files s) ;;
  match as_dict (getd (data s) "_baseline_snapshot") with
  | None => raise (GraphError "bug_fix: missing baseline snapshot")
  | Some raw =>
      let baseline := map (fun kv => (kv.1, py_str kv.2)) raw in
      current <- read_snapshot workspace targets ;;
      let changed := files_changed baseline current in
      report <- verify_with_test_tool s changed workspace ;;
      stat <- diff_stat workspace ;;
      patch <- diff_patch workspace ;;
      ret (node_update [("_files_changed", JList (map JStr changed)); ("_verify", JDict report);
                        ("_diff_stat", JStr stat); ("_patch", JStr patch)])
  end.

Definition push : NodeFn W := fun s =>
  let skip reason sha stat changed := ret (node_update [("_push", JDict (push_skip reason sha stat changed))]) in
  match as_dict (getd (data s) "_verify") with
  | None => raise (GraphError "bug_fix: push reached without verifier report")
  | Some report =>
      match map py_str (default [] (as_list (getd (data s) "_files_changed"))) with
      | [] => skip "no_commit" None "" []
      | changed =>
          if negb (truthy (getd report "passed")) then
            skip "verifier_failed" None (str_get (data s) "_diff_stat" "") changed
          else
          raw_workspace <- lift (required_str s "_workspace_path") ;;
          let workspace := py_path raw_workspace in
          branch <- lift (required_str s "_workspace_branch") ;;
          issue <- lift (required_str s "issue_description") ;;
          c <- commit_workspace workspace issue branch changed ;;
          let '(commit_sha, stat, committed) := c in
          match commit_sha with
          | None => skip "no_commit" None "" []
          | Some sha =>
              match as_nonempty_str (getd (data s) "repo_url") with
              | None => skip "no_repo_url" (Some sha) stat committed
              | Some _ =>
                  match truthy_text (bf_git_push_token deps) with
                  | None => skip "no_token" (Some sha) stat committed
                  | Some token =>
                      git_push workspace branch token ;;;
                      ret (node_update [("_push", JDict
                        [("commit_sha", JStr sha); ("diff_stat", JStr stat);
                         ("files_changed", JList (map JStr committed)); ("pushed", JBool true);
                         ("skip_reason", JNull)])])
                  end
              end
          end
      end
  end.

(** [int(d.get(k, 0) or 0)]. *)
Definition int_or_zero (d : dict) (k : string) : res Z :=
  let v := getd d k in
  if negb (truthy v) then Ok 0
  else match v with
  | JInt n => Ok n
  | JBool b => Ok (if b then 1 else 0)
  | JStr x => py_int x
  | JFloat r => bf_int_of_float deps r
  | _ => Err (TypeError "int() argument")
  end.

Definition finalize : NodeFn W := fun s =>
  let dict_of k := default [] (as_dict (getd (data s) k)) in
  let agent_output := dict_of "_agent_output" in
  let report := dict_of "_verify" in
  let pushed := dict_of "_push" in
  let changed := map py_str (default [] (as_list (getd pushed "files_changed"))) in
  let sha := opt_json JStr (as_str (getd pushed "commit_sha")) in
  let attempts := int_value (replan_attempts s) + 1 in
  steps <- lift (int_or_zero agent_output "steps") ;;
  invocations <- lift (int_or_zero agent_output "tool_invocations") ;;
  branch <- lift (optional_str s "_workspace_branch") ;;
  repo_url <- lift (optional_str s "repo_url") ;;
  base_ref <- lift (optional_str s "base_ref") ;;
  ret (node_update [("output", JDict
    [("assistant_message", JStr (str_get agent_output "assistant_message" ""));
     ("steps", JInt steps); ("tool_invocations", JInt invocations);
     ("truncated_by_max_steps", JBool (truthy (getd agent_output "truncated_by_max_steps")));
     ("truncated_by_token_budget", JBool (truthy (getd agent_output "truncated_by_token_budget")));
     ("usage", get_or agent_output "usage" (JDict []));
     ("files_changed", JList (map JStr changed)); ("patch", JStr (str_get (data s) "_patch" ""));
     ("diff_stat", JStr (if truthy (getd pushed "diff_stat") then py_str (getd pushed "diff_stat")
                         else str_get (data s) "_diff_stat" ""));
     ("verifier_passed", JBool (truthy (getd report "passed")));
     ("verifier_output", JStr (str_get report "output" "")); ("verifier", JDict report);
     ("failure_explanation",
       opt_json JDict (bug_fix_failure_explanation report attempts changed agent_output));
     ("attempts", JInt attempts); ("branch", opt_json JStr branch); ("commit_sha", sha);
     ("repo_url", opt_json JStr repo_url); ("base_ref", opt_json JStr base_ref);
     ("head_branch", opt_json JStr branch); ("head_commit_sha", sha);
     ("pushed", JBool (truthy (getd pushed "pushed")));
     ("push_skip_reason", opt_json JStr (as_str (getd pushed "skip_reason")))])]).

Definition bug_fix_graph : res (Graph W) :=
  let? g := new_graph BUG_FIX_GRAPH_ID in
  let? g := add_node g "prepare" prepare in
  let? g := add_node g "agent" agent in
  let? g := add_node g "verify" verify in
  let? g := add_node g "push" push in
  let? g := add_node g "finalize" finalize in
  let? g := set_entry g "prepare" in
  let? g := add_edge g "prepare" "agent" in
  let? g := add_edge g "agent" "verify" in
  let? g := add_conditional g "verify" route_after_verify in
  let? g := add_edge g "push" "finalize" in
  let? g := add_edge g "finalize" END in
  let? _ := compile g in
  Ok g.
End BugFix.

Definition build_bug_fix_graph {W} (deps : BugFixDeps W) : res (Graph W) :=
  let? inner := build_shell_agent_graph (bf_shell deps) SHELL_AGENT_GRAPH_ID None None in
  match sd_tools (bf_shell deps) with
  | None => Err (GraphError "bug_fix requires deps.tool_executor")
  | Some (_, execute) => bug_fix_graph deps inner execute
  end.
