(* ===== verification/Tools.v ===== *)
(** * Tools: the tool ports, the registry and the executor

    [core/ports/tools.py], [core/capabilities/registry.py] and
    [core/capabilities/executor.py].  Each capability ABC is a record of
    operations over a world [W]; a handler turns a call the model emitted into
    one of them; the registry finds the handler by name and the executor bounds
    and normalises what comes back.  [ToolSpec], [ToolCall], [ToolResult] and
    [ToolContext] are those of [ShellAgent]. *)

From S2P Require Import Prelude PyText Utf8 Domain GraphRuntime Results ShellAgent.
Import Utf8.

(** ** Outcomes of the typed tools *)

Record GrepHit : Type := mkGrepHit { gh_path : string; gh_line_no : Z; gh_line : string }.
Record EditOutcome : Type := mkEditOutcome { eo_files_changed : list string; eo_bytes_written : Z }.
Record ShellOutcome : Type := mkShellOutcome {
  so_argv : list string; so_exit_code : Z; so_stdout : string; so_stderr : string; so_timed_out : bool
}.
Record TestOutcome : Type := mkTestOutcome {
  to_suite : string; to_argv : list string; to_exit_code : Z; to_stdout : string; to_stderr : string;
  to_timed_out : bool
}.
Record WebFetchOutcome : Type := mkWebFetchOutcome {
  wo_final_url : string; wo_status : Z; wo_content_type : string; wo_content : string;
  wo_truncated : bool; wo_bytes_received : Z
}.
(** A score is the exact fraction [num / den] of the float the code computes. *)
Record Score : Type := mkScore { sc_num : Z; sc_den : Z }.
Record DocHit : Type := mkDocHit {
  dh_source_uri : string; dh_title : string; dh_snippet : string; dh_score : Score
}.

Inductive SymbolKind : Type :=
  | SK_FUNCTION | SK_METHOD | SK_CLASS | SK_INTERFACE | SK_VARIABLE | SK_CONSTANT | SK_OTHER.
#[global] Instance SymbolKind_eq_dec : EqDecision SymbolKind.
Proof. solve_decision. Defined.
Definition SymbolKind_value (k : SymbolKind) : string :=
  match k with
  | SK_FUNCTION => "function" | SK_METHOD => "method" | SK_CLASS => "class"
  | SK_INTERFACE => "interface" | SK_VARIABLE => "variable" | SK_CONSTANT => "constant"
  | SK_OTHER => "other"
  end.

Record CodeHit : Type := mkCodeHit {
  ch_path : string; ch_line_no : Z; ch_symbol : option string; ch_symbol_kind : option SymbolKind;
  ch_snippet : string; ch_score : Score
}.
Record CodeLocation : Type := mkCodeLocation {
  cl_path : string; cl_line_no : Z; cl_end_line_no : option Z; cl_symbol : string;
  cl_symbol_kind : SymbolKind; cl_snippet : string
}.
Record OutlineEntry : Type := mkOutlineEntry {
  oe_line_no : Z; oe_end_line_no : option Z; oe_symbol : string; oe_symbol_kind : SymbolKind;
  oe_depth : Z
}.

(** ** The capability interfaces

    Shell and test timeouts reach the adapters as [int | None], the only type
    their handlers let through; the web timeout is a JSON number. *)

Record FileSystemTool (W : Type) : Type := mkFileSystemTool {
  fs_read : ToolContext -> string -> Z -> option Z -> M W string;
  fs_list_dir : ToolContext -> string -> bool -> Z -> M W (list string);
  fs_grep : ToolContext -> string -> list string -> Z -> M W (list GrepHit)
}.
Record EditTool (W : Type) : Type := mkEditTool {
  edit_write : ToolContext -> string -> string -> M W EditOutcome;
  edit_patch_apply : ToolContext -> string -> M W EditOutcome
}.
Record ShellTool (W : Type) : Type := mkShellTool {
  shell_run : ToolContext -> list string -> option Z -> M W ShellOutcome
}.
Record TestTool (W : Type) : Type := mkTestTool {
  test_run : ToolContext -> string -> list string -> option Z -> M W TestOutcome
}.
Record WebFetchTool (W : Type) : Type := mkWebFetchTool {
  web_fetch : ToolContext -> string -> option json -> M W WebFetchOutcome
}.
Record DocSearchTool (W : Type) : Type := mkDocSearchTool {
  doc_search : ToolContext -> string -> Z -> M W (list DocHit)
}.
Record CodeRetrievalTool (W : Type) : Type := mkCodeRetrievalTool {
  code_search : ToolContext -> string -> list string -> option string -> Z -> M W (list CodeHit);
  code_get_definition :
    ToolContext -> string -> option string -> list string -> M W (list CodeLocation);
  code_get_references :
    ToolContext -> string -> option string -> list string -> Z -> M W (list CodeLocation);
  code_outline : ToolContext -> string -> M W (list OutlineEntry)
}.
Arguments mkFileSystemTool {W}. Arguments fs_read {W}. Arguments fs_list_dir {W}. Arguments fs_grep {W}.
Arguments mkEditTool {W}. Arguments edit_write {W}. Arguments edit_patch_apply {W}.
Arguments mkShellTool {W}. Arguments shell_run {W}.
Arguments mkTestTool {W}. Arguments test_run {W}.
Arguments mkWebFetchTool {W}. Arguments web_fetch {W}.
Arguments mkDocSearchTool {W}. Arguments doc_search {W}.
Arguments mkCodeRetrievalTool {W}. Arguments code_search {W}. Arguments code_get_definition {W}.
Arguments code_get_references {W}. Arguments code_outline {W}.

(** [isinstance(exc, ToolError)] and [str(exc)] of those. *)
Definition tool_error (e : exn) : option string :=
  match e with
  | ToolError m | ToolValidationError m | ToolPermissionError m
  | ToolExecutionError m | ToolNotFoundError m => Some m
  | _ => None
  end.

(** ** The registry *)

Section Registry.
Context {W : Type}.

Definition ToolHandler : Type := ToolCall -> ToolContext -> M W ToolResult.

Record RegisteredTool : Type := mkRegistered { rt_spec : ToolSpec; rt_handler : ToolHandler }.

(** [self._tools], in insertion order. *)
Definition ToolRegistry : Type := list (string * RegisteredTool).
Definition empty_registry : ToolRegistry := [].

Definition register (r : ToolRegistry) (spec : ToolSpec) (handler : ToolHandler) : res ToolRegistry :=
  if dmem r (ts_name spec) then
    Err (ToolValidationError ("tool " +:+ py_repr_str (ts_name spec) +:+
           " is already registered; names must be unique within a registry"))
  else Ok (dset r (ts_name spec) (mkRegistered spec handler)).

Definition registry_get (r : ToolRegistry) (name : string) : res RegisteredTool :=
  match dget r name with
  | Some t => Ok t
  | None => Err (ToolNotFoundError ("no tool registered under name " +:+ py_repr_str name))
  end.

Definition list_specs (r : ToolRegistry) : list ToolSpec :=
  omap (fun name => rt_spec <$> dget r name) (merge_sort str_le r.*1).

Definition registry_names (r : ToolRegistry) : gset string := list_to_set r.*1.
Definition registry_len (r : ToolRegistry) : nat := length r.
Definition registry_contains (r : ToolRegistry) (name : json) : bool :=
  match name with JStr s => dmem r s | _ => false end.

(** ** The executor *)

Definition DEFAULT_MAX_RESULT_BYTES : Z := 65536.

Definition truncate_utf8 (text : string) (max_bytes : Z) : string * bool :=
  if max_bytes <=? 0 then ("", nonempty text)
  else if Z.of_nat (String.length text) <=? max_bytes then (text, false)
  else (decode_ignore (str_take (Z.to_nat max_bytes) text), true).

Record ToolExecutor : Type := mkExecutor { te_registry : ToolRegistry; te_max_result_bytes : Z }.

Definition executor_init (r : ToolRegistry) (max_result_bytes : Z) : res ToolExecutor :=
  if max_result_bytes <=? 0 then Err (ValueError "max_result_bytes must be positive")
  else Ok (mkExecutor r max_result_bytes).

Definition error_result (call : ToolCall) (message : string) (cap : Z) : ToolResult :=
  let '(content, truncated) := truncate_utf8 message cap in
  mkToolResult (tc_id call) (tc_name call) content true truncated [].

Definition bound (r : ToolResult) (cap : Z) : ToolResult :=
  let '(content, truncated) := truncate_utf8 (tl_content r) cap in
  if negb truncated && String.eqb content (tl_content r) then r
  else mkToolResult (tl_call_id r) (tl_name r) content (tl_is_error r) (tl_truncated r || truncated)
         (tl_metadata r).

Definition executor_cap (x : ToolExecutor) (ctx : ToolContext) : Z :=
  Z.min (te_max_result_bytes x) (tx_output_byte_cap ctx).

Definition execute (x : ToolExecutor) (call : ToolCall) (ctx : ToolContext) : M W ToolResult :=
  let cap := executor_cap x ctx in
  match registry_get (te_registry x) (tc_name call) with
  | Err (ToolNotFoundError m) => ret (error_result call m cap)
  | Err e => raise e
  | Ok registered =>
      r <- try_except (result <- rt_handler registered call ctx ;; ret (inl result))
             (fun e => match tool_error e with
                       | Some m => Some (ret (inr (error_result call m cap)))
                       | None => None
                       end) ;;
      ret match r with inl result => bound result cap | inr observation => observation end
  end.
End Registry.
Arguments ToolHandler : clear implicits.
Arguments RegisteredTool : clear implicits.
Arguments ToolRegistry : clear implicits.
Arguments ToolExecutor : clear implicits.

(** ** Facts *)

Section RegistryFacts.
Context {W : Type}.
Implicit Types (r : ToolRegistry W) (x : ToolExecutor W).

(** Every entry sits under its own spec's name, and names are unique. *)
Definition registry_wf r : Prop :=
  NoDup r.*1 /\ Forall (fun e => ts_name (rt_spec e.2) = e.1) r.

Lemma registry_wf_empty : registry_wf empty_registry.
Proof. split; [by apply NoDup_nil|done]. Qed.

Lemma dget_In {V} (d : list (string * V)) k v : dget d k = Some v -> (k, v) ∈ d.
Proof.
  induction d as [|[k' v'] d IH]; simpl; [done|].
  destruct (String.eqb_spec k k') as [->|]; [|set_solver]. intros [= ->]. set_solver.
Qed.

Lemma dget_unique {V} (d : list (string * V)) k v : NoDup d.*1 -> (k, v) ∈ d -> dget d k = Some v.
Proof.
  induction d as [|[k' v'] d IH]; [set_solver|]. intros Hnd Hin. cbn [fmap list_fmap fst] in Hnd.
  apply NoDup_cons in Hnd as [Hni Hnd]. simpl.
  apply elem_of_cons in Hin as [[= -> ->]|Hin]; [by rewrite String.eqb_refl|].
  destruct (String.eqb_spec k k') as [->|]; [|auto].
  exfalso. apply Hni. apply list_elem_of_fmap. by exists (k', v).
Qed.

Lemma register_ok r spec h r' :
  register r spec h = Ok r' ->
  dget r (ts_name spec) = None /\ r' = r ++ [(ts_name spec, mkRegistered spec h)].
Proof.
  unfold register, dmem. destruct (dget r (ts_name spec)) eqn:E; [done|].
  intros [= <-]. split; [done|]. by apply dset_absent.
Qed.

Lemma tool_register_wf r spec h r' : registry_wf r -> register r spec h = Ok r' -> registry_wf r'.
Proof.
  intros [Hnd Hall] (Hn & ->)%register_ok. apply dget_None_iff in Hn. split.
  - rewrite fmap_app. apply NoDup_app. split; [done|]. split; [set_solver|]. apply NoDup_singleton.
  - apply Forall_app. split; [done|]. by apply Forall_singleton.
Qed.

(** Registering keeps lookup exact, and the advertised catalogue is the
    registered specs in name order. *)
Lemma list_specs_names r : registry_wf r -> map ts_name (list_specs r) = merge_sort str_le r.*1.
Proof.
  intros [Hnd Hall]. unfold list_specs.
  assert (Hsub : forall k, k ∈ merge_sort str_le r.*1 -> k ∈ r.*1).
  { intros k. by rewrite (merge_sort_Permutation str_le). }
  induction (merge_sort str_le r.*1) as [|k l IH]; [done|]. cbn.
  destruct (dget r k) as [t|] eqn:E.
  - cbn. f_equal; [|by apply IH; set_solver].
    apply dget_In in E. rewrite Forall_forall in Hall. exact (Hall _ E).
  - apply dget_None_iff in E. set_solver.
Qed.
End RegistryFacts.
#[export] Hint Resolve registry_wf_empty tool_register_wf : meta.

Section ExecutorFacts.
Context {W : Type}.
Implicit Types (x : ToolExecutor W).

Lemma truncate_bounded text cap :
  Z.of_nat (String.length (truncate_utf8 text cap).1) <= Z.max cap 0.
Proof.
  unfold truncate_utf8. destruct (Z.leb_spec cap 0); [simpl; lia|].
  destruct (Z.leb_spec (Z.of_nat (String.length text)) cap); simpl; [lia|].
  pose proof (decode_ignore_length (str_take (Z.to_nat cap) text)).
  pose proof (str_take_length (Z.to_nat cap) text). lia.
Qed.

Lemma truncate_flag text cap :
  (truncate_utf8 text cap).2 = (Z.max cap 0 <? Z.of_nat (String.length text)).
Proof.
  unfold truncate_utf8. destruct (Z.leb_spec cap 0).
  - rewrite Z.max_r by lia. destruct text; simpl; [done|]. symmetry. apply Z.ltb_lt. lia.
  - rewrite Z.max_l by lia.
    destruct (Z.leb_spec (Z.of_nat (String.length text)) cap); simpl; symmetry.
    + apply Z.ltb_ge. lia.
    + apply Z.ltb_lt. lia.
Qed.

(** What is kept of valid text is its longest prefix of whole code points. *)
Lemma truncate_prefix text cap :
  valid text = true -> 0 <= cap ->
  longest_prefix (Z.to_nat cap) text (truncate_utf8 text cap).1.
Proof.
  intros Hv Hcap. unfold truncate_utf8. destruct (Z.leb_spec cap 0).
  - replace cap with 0 by lia. pose proof (decode_cut 0 text Hv) as H'. by destruct text.
  - destruct (Z.leb_spec (Z.of_nat (String.length text)) cap); simpl.
    + exists "". rewrite app_str_nil_r. split_and!; [done..|lia|by left].
    + by apply decode_cut.
Qed.

Lemma bound_fields r cap :
  let r' := bound r cap in
  tl_call_id r' = tl_call_id r /\ tl_name r' = tl_name r /\ tl_is_error r' = tl_is_error r /\
  tl_metadata r' = tl_metadata r /\ tl_content r' = (truncate_utf8 (tl_content r) cap).1 /\
  tl_truncated r' = tl_truncated r || (truncate_utf8 (tl_content r) cap).2.
Proof.
  unfold bound. destruct (truncate_utf8 (tl_content r) cap) as [content truncated] eqn:E. simpl.
  destruct truncated; simpl; [done|].
  destruct (String.eqb_spec content (tl_content r)) as [->|Hne]; simpl; [|done].
  by rewrite orb_false_r.
Qed.

(** Whatever tool the model names and whatever its handler does, executing
    the call returns an observation of at most [min(max_result_bytes,
    output_byte_cap)] bytes or propagates an exception of the handler that is not
    a tool error.  An unknown name and every tool error become error
    observations with the exception's text; a successful result keeps its
    identity, status and metadata, is marked truncated exactly when something
    was dropped, and keeps the longest prefix of whole characters that fits. *)
Theorem execute_bounded x call ctx w :
  0 < te_max_result_bytes x -> 0 < tx_output_byte_cap ctx ->
  let cap := executor_cap x ctx in
  match execute x call ctx w with
  | (Ok r, w') =>
      Z.of_nat (String.length (tl_content r)) <= cap /\
      match dget (te_registry x) (tc_name call) with
      | None => w' = w /\ tl_is_error r = true
      | Some t =>
          match rt_handler t call ctx w with
          | (Ok h, w1) =>
              w' = w1 /\ tl_call_id r = tl_call_id h /\ tl_name r = tl_name h /\
              tl_is_error r = tl_is_error h /\ tl_metadata r = tl_metadata h /\
              tl_truncated r = tl_truncated h || (cap <? Z.of_nat (String.length (tl_content h))) /\
              (valid (tl_content h) = true ->
               longest_prefix (Z.to_nat cap) (tl_content h) (tl_content r))
          | (Err e, w1) =>
              w' = w1 /\ exists m, tool_error e = Some m /\ r = error_result call m cap
          end
      end
  | (Err e, w') =>
      exists t, dget (te_registry x) (tc_name call) = Some t /\
                rt_handler t call ctx w = (Err e, w') /\ tool_error e = None
  end.
Proof.
  intros Hx Hctx cap.
  assert (Hcap : 0 < cap) by (subst cap; unfold executor_cap; lia).
  assert (Herr : forall m, Z.of_nat (String.length (tl_content (error_result call m cap))) <= cap).
  { intros m. pose proof (truncate_bounded m cap). unfold error_result.
    destruct (truncate_utf8 m cap). simpl in *. lia. }
  unfold execute, registry_get. fold cap.
  destruct (dget (te_registry x) (tc_name call)) as [t|]; cbn.
  2: { split; [apply Herr|]. split; [done|]. unfold error_result. by destruct (truncate_utf8 _ cap). }
  unfold bind, try_except. destruct (rt_handler t call ctx w) as [[h|e] w1] eqn:Eh; cbn.
  - destruct (bound_fields h cap) as (E1 & E2 & E3 & E4 & E5 & E6).
    rewrite E1, E2, E3, E4, E5, E6. pose proof (truncate_bounded (tl_content h) cap).
    rewrite truncate_flag. rewrite Z.max_l by lia. split_and!; try done; [lia|].
    intros Hv. by apply truncate_prefix; [|lia].
  - destruct (tool_error e) as [m|] eqn:Em; cbn; [|exists t; split_and!; congruence].
    split; [apply Herr|]. split; [done|]. by exists m.
Qed.

(** The catalogue that the model sees is sound: starting from an empty
    registry, registering specs succeeds exactly while their names are new; a
    duplicate is refused and leaves the registry as it was; every registered
    handler is found under its name and no other lookup changes; the advertised
    specs are those registered, one per name, in name order. *)
Theorem registry_spec (r : ToolRegistry W) spec h :
  registry_wf r ->
  match register r spec h with
  | Ok r' =>
      ts_name spec ∉ registry_names r /\ registry_wf r' /\
      (forall n, registry_get r' n =
         if String.eqb (ts_name spec) n then Ok (mkRegistered spec h) else registry_get r n) /\
      map ts_name (list_specs r') ≡ₚ ts_name spec :: map ts_name (list_specs r) /\
      StronglySorted str_le (map ts_name (list_specs r')) /\
      registry_len r' = S (registry_len r)
  | Err e => ts_name spec ∈ registry_names r /\ exists m, e = ToolValidationError m
  end.
Proof.
  intros Hwf. destruct (register r spec h) as [r'|e] eqn:E.
  - pose proof (tool_register_wf _ _ _ _ Hwf E) as Hwf'. apply register_ok in E as (Hn & ->).
    unfold registry_names. split; [rewrite elem_of_list_to_set; exact (proj1 (dget_None_iff _ _) Hn)|].
    split; [done|]. split_and!.
    + intros n. unfold registry_get.
      rewrite <- (dset_absent r _ (mkRegistered spec h) Hn), dget_dset.
      by destruct (String.eqb (ts_name spec) n).
    + rewrite !list_specs_names by done. rewrite !merge_sort_Permutation, fmap_app. cbn.
      by rewrite Permutation_app_comm.
    + rewrite list_specs_names by done. apply (StronglySorted_merge_sort str_le).
    + unfold registry_len. rewrite length_app. simpl. lia.
  - unfold register, dmem in E. destruct (dget r (ts_name spec)) as [t|] eqn:Et; [|done].
    injection E as <-. split; [|by eexists]. unfold registry_names. rewrite elem_of_list_to_set.
    apply list_elem_of_fmap. exists (ts_name spec, t). split; [done|]. by apply dget_In.
Qed.
End ExecutorFacts.
