(* ===== verification/LocalHandlers.v ===== *)
(** * LocalHandlers: from a tool call's JSON arguments to a typed tool

    [infra/tools/local_handlers.py]: the argument helpers, the JSON schemas the
    model sees, one handler per tool and the registration of all of them.  The
    typed tools are the records of [Tools]; the only formatting that is left open
    is [f"{score:.3f}"]. *)

From S2P Require Import Prelude PyText Utf8 Domain GraphRuntime Results ShellAgent Tools.

Definition TOOL_FS_READ : string := "fs_read".
Definition TOOL_FS_LIST_DIR : string := "fs_list_dir".
Definition TOOL_FS_GREP : string := "fs_grep".
Definition TOOL_EDIT_WRITE : string := "edit_write".
Definition TOOL_EDIT_PATCH_APPLY : string := "edit_patch_apply".
Definition TOOL_SHELL_RUN : string := "shell_run".
Definition TOOL_TEST_RUN : string := "test_run".
Definition TOOL_WEB_FETCH : string := "web_fetch".
Definition TOOL_DOC_SEARCH : string := "doc_search".
Definition TOOL_CODE_SEARCH : string := "code_search".
Definition TOOL_GET_DEFINITION : string := "get_definition".
Definition TOOL_GET_REFERENCES : string := "get_references".
Definition TOOL_OUTLINE : string := "outline".

(** ** Arguments *)

Definition argument_must (key what : string) : exn :=
  ToolValidationError ("argument " +:+ py_repr_str key +:+ " must be " +:+ what).

(** [default = None] stands for [required=True]. *)
Definition arg_str (args : dict) (key : string) (dflt : option string) : res string :=
  match dget args key with
  | None => match dflt with
            | Some d => Ok d
            | None => Err (ToolValidationError ("missing required argument " +:+ py_repr_str key))
            end
  | Some (JStr s) => Ok s
  | Some _ => Err (argument_must key "a string")
  end.

Definition arg_int (args : dict) (key : string) (dflt : Z) : res Z :=
  match dget args key with
  | None => Ok dflt
  | Some (JInt n) => Ok n
  | Some _ => Err (argument_must key "an integer")
  end.

Definition arg_int_or_none (args : dict) (key : string) : res (option Z) :=
  match dget args key with
  | None | Some JNull => Ok None
  | Some (JInt n) => Ok (Some n)
  | Some _ => Err (argument_must key "an integer or null")
  end.

Definition arg_bool (args : dict) (key : string) (dflt : bool) : res bool :=
  match dget args key with
  | None => Ok dflt
  | Some (JBool b) => Ok b
  | Some _ => Err (argument_must key "a boolean")
  end.

(** [tuple(value)] when every item is a [str]. *)
Definition all_str (l : list json) : option (list string) := mapM as_str l.

Definition arg_str_tuple (args : dict) (key : string) (dflt : list string) : res (list string) :=
  let bad := argument_must key "an array of strings" in
  match dget args key with
  | None => Ok dflt
  | Some (JList l) => match all_str l with Some xs => Ok xs | None => Err bad end
  | Some _ => Err bad
  end.

Definition arg_argv (args : dict) (key : string) : res (list string) :=
  let bad := argument_must key "a non-empty array of strings" in
  match dget args key with
  | Some (JList ((_ :: _) as l)) => match all_str l with Some xs => Ok xs | None => Err bad end
  | _ => Err bad
  end.

(** [float(value)] of an integer below 2^53. *)
Definition arg_float_or_none (args : dict) (key : string) : res (option json) :=
  match dget args key with
  | None | Some JNull => Ok None
  | Some (JInt n) => Ok (Some (JFloat (pretty n +:+ ".0")))
  | Some (JFloat r) => Ok (Some (JFloat r))
  | Some _ => Err (argument_must key "a number or null")
  end.

(** ** Schemas *)

Definition object_schema (properties : dict) (required : list string) : dict :=
  [("type", JStr "object"); ("properties", JDict properties);
   ("required", JList (map JStr required)); ("additionalProperties", JBool false)].
Definition typed (t : string) : json := JDict [("type", JStr t)].
Definition nullable (t : string) : list (string * json) := [("type", JList [JStr t; JStr "null"])].
Definition at_least_one : json := JDict [("type", JStr "integer"); ("minimum", JInt 1)].
Definition str_array : json := JDict [("type", JStr "array"); ("items", typed "string")].

Definition FS_READ_SPEC : ToolSpec := mkToolSpec TOOL_FS_READ
  "Read a UTF-8 slice of a file inside the workspace."
  (object_schema
    [("path", JDict [("type", JStr "string"); ("description", JStr "Workspace-relative path.")]);
     ("offset", JDict [("type", JStr "integer"); ("minimum", JInt 0)]);
     ("max_bytes", JDict (nullable "integer"))] ["path"])
  FILESYSTEM.
Definition FS_LIST_DIR_SPEC : ToolSpec := mkToolSpec TOOL_FS_LIST_DIR
  "List entries under a workspace directory ('' for root)."
  (object_schema [("path", typed "string"); ("recursive", typed "boolean"); ("max_entries", at_least_one)] [])
  FILESYSTEM.
Definition FS_GREP_SPEC : ToolSpec := mkToolSpec TOOL_FS_GREP
  "Search a regex across files matching the given path globs."
  (object_schema [("pattern", typed "string"); ("path_globs", str_array); ("max_matches", at_least_one)]
     ["pattern"])
  FILESYSTEM.
Definition EDIT_WRITE_SPEC : ToolSpec := mkToolSpec TOOL_EDIT_WRITE
  "Overwrite a workspace file with UTF-8 content."
  (object_schema [("path", typed "string"); ("content", typed "string")] ["path"; "content"])
  EDIT.
Definition EDIT_PATCH_APPLY_SPEC : ToolSpec := mkToolSpec TOOL_EDIT_PATCH_APPLY
  "Apply a unified diff against the workspace root via 'git apply'."
  (object_schema [("unified_diff", typed "string")] ["unified_diff"])
  EDIT.
Definition SHELL_RUN_SPEC : ToolSpec := mkToolSpec TOOL_SHELL_RUN
  "Run an allow-listed command inside the workspace without invoking a shell."
  (object_schema
    [("argv", JDict [("type", JStr "array"); ("items", typed "string"); ("minItems", JInt 1)]);
     ("timeout_seconds", JDict (nullable "integer" ++ [("minimum", JInt 1)]))] ["argv"])
  SHELL.
Definition TEST_RUN_SPEC : ToolSpec := mkToolSpec TOOL_TEST_RUN
  "Run an allow-listed verification suite inside the workspace."
  (object_schema
    [("suite", typed "string"); ("targets", str_array);
     ("timeout_seconds", JDict (nullable "integer" ++ [("minimum", JInt 1)]))] ["suite"])
  TEST.
Definition WEB_FETCH_SPEC : ToolSpec := mkToolSpec TOOL_WEB_FETCH
  "Fetch a single HTTP/HTTPS URL by GET. The host must appear in the operator-configured allow-list; binary content is refused. The response body is bounded by the agent's output_byte_cap and may be truncated."
  (object_schema
    [("url", typed "string");
     ("timeout_seconds", JDict (nullable "number" ++ [("exclusiveMinimum", JInt 0)]))] ["url"])
  WEB.
Definition DOC_SEARCH_SPEC : ToolSpec := mkToolSpec TOOL_DOC_SEARCH
  "Search a configured knowledge base for documents matching a natural-language query. Returns ranked source_uri / title / snippet entries; pair with web_fetch (or an adapter-specific resolver) to retrieve full documents."
  (object_schema [("query", typed "string"); ("limit", at_least_one)] ["query"])
  WEB.
Definition CODE_SEARCH_SPEC : ToolSpec := mkToolSpec TOOL_CODE_SEARCH
  "Search the workspace for code matching a regex query. Returns ranked hits enriched with the enclosing symbol (function / class / method) when the file's language is supported. No persistent index — every call reads the live worktree."
  (object_schema
    [("query", typed "string"); ("path_globs", str_array); ("language", JDict (nullable "string"));
     ("limit", at_least_one)] ["query"])
  CODE_INDEX.
Definition GET_DEFINITION_SPEC : ToolSpec := mkToolSpec TOOL_GET_DEFINITION
  "Locate every definition site of a symbol (function / class / method) inside the workspace. Symbol must be a plain identifier. Returns file paths + line ranges."
  (object_schema
    [("symbol", typed "string"); ("language", JDict (nullable "string")); ("path_globs", str_array)]
    ["symbol"])
  CODE_INDEX.
Definition GET_REFERENCES_SPEC : ToolSpec := mkToolSpec TOOL_GET_REFERENCES
  "Return every file:line where a symbol is referenced. This is an identifier-level grep with word boundaries; it does not perform full type-aware resolution."
  (object_schema
    [("symbol", typed "string"); ("language", JDict (nullable "string")); ("path_globs", str_array);
     ("limit", at_least_one)] ["symbol"])
  CODE_INDEX.
Definition OUTLINE_SPEC : ToolSpec := mkToolSpec TOOL_OUTLINE
  "Return the top-level / nested symbol outline of a file (classes, functions, methods, interfaces). Pair with fs_read / get_definition once a relevant symbol is identified."
  (object_schema [("path", typed "string")] ["path"])
  CODE_INDEX.

(** ** Handlers *)

Definition str_or (s dflt : string) : string := if nonempty s then s else dflt.
Definition str_or_None (s : string) : option string := if nonempty s then Some s else None.

(** [f"[{idx + 1}] ..."] over [enumerate]. *)
Definition numbered {A} (f : string -> A -> string) (l : list A) : list string :=
  imap (fun i x => f ("[" +:+ pretty (Z.of_nat (S i)) +:+ "] ") x) l.
Fixpoint str_repeat (n : nat) (s : string) : string :=
  match n with O => "" | S n' => s +:+ str_repeat n' s end.

Section Handlers.
Context {W : Type} (fmt3 : Score -> string).

(** [ToolResult(call_id=call.id, name=call.name, content=..., metadata=...)]. *)
Definition observation (call : ToolCall) (content : string) (is_error : bool)
    (metadata : list (string * string)) : ToolResult :=
  mkToolResult (tc_id call) (tc_name call) content is_error false metadata.

Definition fs_read_handler (fs : FileSystemTool W) : ToolHandler W := fun call ctx =>
  path <- lift (arg_str (tc_arguments call) "path" None) ;;
  offset <- lift (arg_int (tc_arguments call) "offset" 0) ;;
  max_bytes <- lift (arg_int_or_none (tc_arguments call) "max_bytes") ;;
  content <- fs_read fs ctx path offset max_bytes ;;
  ret (observation call content false []).

Definition fs_list_dir_handler (fs : FileSystemTool W) : ToolHandler W := fun call ctx =>
  path <- lift (arg_str (tc_arguments call) "path" (Some "")) ;;
  recursive <- lift (arg_bool (tc_arguments call) "recursive" false) ;;
  max_entries <- lift (arg_int (tc_arguments call) "max_entries" 1000) ;;
  entries <- fs_list_dir fs ctx path recursive max_entries ;;
  ret (observation call (str_join newline entries) false []).

Definition fs_grep_handler (fs : FileSystemTool W) : ToolHandler W := fun call ctx =>
  pattern <- lift (arg_str (tc_arguments call) "pattern" None) ;;
  globs <- lift (arg_str_tuple (tc_arguments call) "path_globs" ["**/*"]) ;;
  max_matches <- lift (arg_int (tc_arguments call) "max_matches" 200) ;;
  hits <- fs_grep fs ctx pattern globs max_matches ;;
  ret (observation call
         (str_join newline (map (fun h => gh_path h +:+ ":" +:+ pretty (gh_line_no h) +:+ ":" +:+ gh_line h)
                              hits)) false []).

Definition edit_write_handler (edit : EditTool W) : ToolHandler W := fun call ctx =>
  path <- lift (arg_str (tc_arguments call) "path" None) ;;
  content <- lift (arg_str (tc_arguments call) "content" None) ;;
  outcome <- edit_write edit ctx path content ;;
  let n := pretty (eo_bytes_written outcome) in
  ret (observation call ("wrote " +:+ n +:+ " bytes to " +:+ path) false [("bytes_written", n)]).

Definition edit_patch_apply_handler (edit : EditTool W) : ToolHandler W := fun call ctx =>
  diff <- lift (arg_str (tc_arguments call) "unified_diff" None) ;;
  outcome <- edit_patch_apply edit ctx diff ;;
  let files := str_or (str_join ", " (eo_files_changed outcome)) "(none)" in
  ret (observation call ("applied diff; files: " +:+ files) false
         [("files_changed", str_join "," (eo_files_changed outcome))]).

Definition shell_run_handler (shell : ShellTool W) : ToolHandler W := fun call ctx =>
  argv <- lift (arg_argv (tc_arguments call) "argv") ;;
  timeout_seconds <- lift (arg_int_or_none (tc_arguments call) "timeout_seconds") ;;
  outcome <- shell_run shell ctx argv timeout_seconds ;;
  let code := pretty (so_exit_code outcome) in
  ret (observation call
         ("exit_code=" +:+ code +:+ newline +:+ "stdout:" +:+ newline +:+
          str_or (so_stdout outcome) "<empty>" +:+ newline +:+ "stderr:" +:+ newline +:+
          str_or (so_stderr outcome) "<empty>")
         (negb (so_exit_code outcome =? 0)) [("exit_code", code)]).

Definition web_fetch_handler (web : WebFetchTool W) : ToolHandler W := fun call ctx =>
  url <- lift (arg_str (tc_arguments call) "url" None) ;;
  timeout_seconds <- lift (arg_float_or_none (tc_arguments call) "timeout_seconds") ;;
  outcome <- web_fetch web ctx url timeout_seconds ;;
  let status := pretty (wo_status outcome) in
  let received := pretty (wo_bytes_received outcome) in
  ret (mkToolResult (tc_id call) (tc_name call)
         ("final_url=" +:+ wo_final_url outcome +:+ newline +:+
          "status=" +:+ status +:+ newline +:+
          "content_type=" +:+ wo_content_type outcome +:+ newline +:+
          "bytes_received=" +:+ received +:+ newline +:+
          "---" +:+ newline +:+ wo_content outcome)
         (negb ((200 <=? wo_status outcome) && (wo_status outcome <? 300)))
         (wo_truncated outcome)
         [("status", status); ("content_type", wo_content_type outcome); ("bytes_received", received)]).

Definition symbol_suffix (hit : CodeHit) : string :=
  match ch_symbol hit, ch_symbol_kind hit with
  | Some s, Some k => if nonempty s then " (" +:+ SymbolKind_value k +:+ " " +:+ s +:+ ")" else ""
  | _, _ => ""
  end.

Definition code_search_handler (code : CodeRetrievalTool W) : ToolHandler W := fun call ctx =>
  query <- lift (arg_str (tc_arguments call) "query" None) ;;
  path_globs <- lift (arg_str_tuple (tc_arguments call) "path_globs" ["**/*"]) ;;
  language <- lift (arg_str (tc_arguments call) "language" (Some "")) ;;
  limit <- lift (arg_int (tc_arguments call) "limit" 20) ;;
  hits <- code_search code ctx query path_globs (str_or_None language) limit ;;
  match hits with
  | [] => ret (observation call ("no matches for query " +:+ py_repr_str query) false [("hits", "0")])
  | _ =>
      ret (observation call
             (str_join newline (numbered (fun i hit =>
                i +:+ ch_path hit +:+ ":" +:+ pretty (ch_line_no hit) +:+ symbol_suffix hit +:+
                newline +:+ "    " +:+ ch_snippet hit) hits)) false
             [("hits", pretty (Z.of_nat (length hits)))])
  end.

Definition line_range (line_no : Z) (end_line_no : option Z) : string :=
  pretty line_no +:+ match end_line_no with Some e => "-" +:+ pretty e | None => "" end.

Definition get_definition_handler (code : CodeRetrievalTool W) : ToolHandler W := fun call ctx =>
  symbol <- lift (arg_str (tc_arguments call) "symbol" None) ;;
  path_globs <- lift (arg_str_tuple (tc_arguments call) "path_globs" ["**/*"]) ;;
  language <- lift (arg_str (tc_arguments call) "language" (Some "")) ;;
  locations <- code_get_definition code ctx symbol (str_or_None language) path_globs ;;
  match locations with
  | [] => ret (observation call ("no definition found for " +:+ py_repr_str symbol) false [("hits", "0")])
  | _ =>
      ret (observation call
             (str_join newline (numbered (fun i loc =>
                i +:+ cl_path loc +:+ ":" +:+ line_range (cl_line_no loc) (cl_end_line_no loc) +:+
                " (" +:+ SymbolKind_value (cl_symbol_kind loc) +:+ ")" +:+ newline +:+
                "    " +:+ cl_snippet loc) locations)) false
             [("hits", pretty (Z.of_nat (length locations)))])
  end.

Definition get_references_handler (code : CodeRetrievalTool W) : ToolHandler W := fun call ctx =>
  symbol <- lift (arg_str (tc_arguments call) "symbol" None) ;;
  path_globs <- lift (arg_str_tuple (tc_arguments call) "path_globs" ["**/*"]) ;;
  language <- lift (arg_str (tc_arguments call) "language" (Some "")) ;;
  limit <- lift (arg_int (tc_arguments call) "limit" 200) ;;
  locations <- code_get_references code ctx symbol (str_or_None language) path_globs limit ;;
  match locations with
  | [] => ret (observation call ("no references found for " +:+ py_repr_str symbol) false [("hits", "0")])
  | _ =>
      ret (observation call
             (str_join newline (map (fun loc =>
                cl_path loc +:+ ":" +:+ pretty (cl_line_no loc) +:+ ": " +:+ cl_snippet loc) locations))
             false [("hits", pretty (Z.of_nat (length locations)))])
  end.

Definition outline_handler (code : CodeRetrievalTool W) : ToolHandler W := fun call ctx =>
  path <- lift (arg_str (tc_arguments call) "path" None) ;;
  entries <- code_outline code ctx path ;;
  match entries with
  | [] => ret (observation call ("no symbols extracted from " +:+ py_repr_str path) false [("entries", "0")])
  | _ =>
      ret (observation call
             (str_join newline (map (fun e =>
                str_repeat (Z.to_nat (oe_depth e)) "  " +:+
                line_range (oe_line_no e) (oe_end_line_no e) +:+ ": " +:+
                SymbolKind_value (oe_symbol_kind e) +:+ " " +:+ oe_symbol e) entries))
             false [("entries", pretty (Z.of_nat (length entries)))])
  end.

Definition doc_search_handler (search : DocSearchTool W) : ToolHandler W := fun call ctx =>
  query <- lift (arg_str (tc_arguments call) "query" None) ;;
  limit <- lift (arg_int (tc_arguments call) "limit" 5) ;;
  hits <- doc_search search ctx query limit ;;
  match hits with
  | [] => ret (observation call ("no documents matched query " +:+ py_repr_str query) false [("hits", "0")])
  | _ =>
      ret (observation call
             (str_join (newline +:+ newline) (numbered (fun i hit =>
                i +:+ "score=" +:+ fmt3 (dh_score hit) +:+ " uri=" +:+ dh_source_uri hit +:+ newline +:+
                "title: " +:+ dh_title hit +:+ newline +:+ "snippet: " +:+ dh_snippet hit) hits))
             false [("hits", pretty (Z.of_nat (length hits)))])
  end.

Definition test_run_handler (test : TestTool W) : ToolHandler W := fun call ctx =>
  suite <- lift (arg_str (tc_arguments call) "suite" None) ;;
  targets <- lift (arg_str_tuple (tc_arguments call) "targets" []) ;;
  timeout_seconds <- lift (arg_int_or_none (tc_arguments call) "timeout_seconds") ;;
  outcome <- test_run test ctx suite targets timeout_seconds ;;
  let code := pretty (to_exit_code outcome) in
  ret (observation call
         ("suite=" +:+ to_suite outcome +:+ newline +:+ "exit_code=" +:+ code +:+ newline +:+
          "stdout:" +:+ newline +:+ str_or (to_stdout outcome) "<empty>" +:+ newline +:+
          "stderr:" +:+ newline +:+ str_or (to_stderr outcome) "<empty>")
         (negb (to_exit_code outcome =? 0))
         [("suite", to_suite outcome); ("exit_code", code);
          ("timed_out", if to_timed_out outcome then "true" else "false")]).

(** ** Registration *)

Record LocalTools : Type := mkLocalTools {
  lo_fs : FileSystemTool W; lo_edit : EditTool W; lo_shell : ShellTool W;
  lo_test : option (TestTool W); lo_web_fetch : option (WebFetchTool W);
  lo_doc_search : option (DocSearchTool W); lo_code_retrieval : option (CodeRetrievalTool W)
}.

Definition when_some {A} (o : option A) (f : A -> list (ToolSpec * ToolHandler W))
    : list (ToolSpec * ToolHandler W) :=
  match o with Some a => f a | None => [] end.

(** The registrations in the order of the calls. *)
Definition local_registrations (t : LocalTools) : list (ToolSpec * ToolHandler W) :=
  [(FS_READ_SPEC, fs_read_handler (lo_fs t)); (FS_LIST_DIR_SPEC, fs_list_dir_handler (lo_fs t));
   (FS_GREP_SPEC, fs_grep_handler (lo_fs t)); (EDIT_WRITE_SPEC, edit_write_handler (lo_edit t));
   (EDIT_PATCH_APPLY_SPEC, edit_patch_apply_handler (lo_edit t));
   (SHELL_RUN_SPEC, shell_run_handler (lo_shell t))]
  ++ when_some (lo_test t) (fun x => [(TEST_RUN_SPEC, test_run_handler x)])
  ++ when_some (lo_web_fetch t) (fun x => [(WEB_FETCH_SPEC, web_fetch_handler x)])
  ++ when_some (lo_doc_search t) (fun x => [(DOC_SEARCH_SPEC, doc_search_handler x)])
  ++ when_some (lo_code_retrieval t) (fun x =>
       [(CODE_SEARCH_SPEC, code_search_handler x); (GET_DEFINITION_SPEC, get_definition_handler x);
        (GET_REFERENCES_SPEC, get_references_handler x); (OUTLINE_SPEC, outline_handler x)]).

Fixpoint register_all (r : ToolRegistry W) (l : list (ToolSpec * ToolHandler W)) : res (ToolRegistry W) :=
  match l with
  | [] => Ok r
  | (spec, h) :: l' => let? r' := register r spec h in register_all r' l'
  end.

Definition register_local_workspace_tools (r : ToolRegistry W) (t : LocalTools) : res (ToolRegistry W) :=
  register_all r (local_registrations t).
End Handlers.
Arguments LocalTools : clear implicits.
