(* ===== verification/FileSystem.v ===== *)
(** * FileSystem: POSIX paths, links and files as [pathlib] sees them

    The local workspace tools confine every path to the task's workspace by
    resolving it first.  What resolving means depends on symbolic links, so the
    file system is a map from absolute paths to files, directories and links,
    and [Path.resolve], [is_file], [mkdir], [write_bytes], [replace] and the
    directory iterators are written out on it.  Links are resolved component by
    component with the links still being expanded kept as [active]: meeting one
    of them again is the loop for which [Path.resolve] raises [RuntimeError].
    Each step takes one unit of fuel; [PATH_FUEL] is the kernel's own limit on
    the length of a path. *)

From S2P Require Import Prelude PyText.

(** An absolute path, as its components from the root. *)
Abbreviation path := (list string).

Inductive node : Type :=
  | NFile (bytes : string)
  | NDir
  | NLink (target : string).
#[global] Instance node_eq_dec : EqDecision node.
Proof. solve_decision. Defined.

Abbreviation FS := (gmap path node).

(** ** Paths *)

Definition is_absolute (p : string) : bool := String.prefix "/" p.
Definition path_parts (p : string) : path :=
  List.filter (fun x => nonempty x && negb (String.eqb x ".")) (split_on 47 p).

(** [base / raw]: an absolute [raw] replaces [base]. *)
Definition join_path (base : path) (raw : string) : path :=
  if is_absolute raw then path_parts raw else base ++ path_parts raw.

Definition as_posix (p : path) : string := "/" +:+ str_join "/" p.
Definition rel_posix (p : path) : string := match p with [] => "." | _ => str_join "/" p end.

(** [p.relative_to(base)]; [None] is the [ValueError]. *)
Fixpoint relative_to (p base : path) : option path :=
  match base, p with
  | [], _ => Some p
  | b :: base', x :: p' => if String.eqb b x then relative_to p' base' else None
  | _ :: _, [] => None
  end.

Definition parent (p : path) : path := take (length p - 1) p.
Definition path_name (p : path) : string := default "" (last p).

(** [str.rfind(".")] as the split of a name into stem and suffix:
    [path.suffix], empty for a leading or trailing dot. *)
Fixpoint rsplit_dot (s : string) : option (string * string) :=
  match s with
  | EmptyString => None
  | String c s' =>
      match rsplit_dot s' with
      | Some (a, b) => Some (String c a, b)
      | None => if char_is 46 c then Some ("", s') else None
      end
  end.
Definition name_suffix (name : string) : string :=
  match rsplit_dot name with
  | Some (stem, ext) => if nonempty stem && nonempty ext then "." +:+ ext else ""
  | None => ""
  end.
Definition str_drop_end (n : nat) (s : string) : string := str_take (String.length s - n) s.

Definition with_suffix (p : path) (suffix : string) : res path :=
  let name := path_name p in
  if str_contains "/" suffix || (nonempty suffix && negb (String.prefix "." suffix))
     || String.eqb suffix "." then Err (ValueError "Invalid suffix")
  else if negb (nonempty name) then Err (ValueError "has an empty name")
  else
    let old := name_suffix name in
    Ok (parent p ++ [if nonempty old then str_drop_end (String.length old) name +:+ suffix
                     else name +:+ suffix]).

(** ** Resolving *)

Inductive todo : Type :=
  | Comp (name : string)
  | Done (link : path).

Definition PATH_FUEL : nat := 4096.

Fixpoint realpath (fuel : nat) (fs : FS) (active : list path) (cur : path) (rest : list todo)
    : res path :=
  match fuel with
  | O => Err OutOfFuel
  | S fuel' =>
      match rest with
      | [] => Ok cur
      | Done l :: rest' =>
          realpath fuel' fs (List.filter (fun a => negb (bool_decide (a = l))) active) cur rest'
      | Comp name :: rest' =>
          if String.eqb name ".." then realpath fuel' fs active (parent cur) rest'
          else
            let next := cur ++ [name] in
            match fs !! next with
            | Some (NLink target) =>
                if bool_decide (next ∈ active) then Err (RuntimeError "Symlink loop")
                else realpath fuel' fs (next :: active) (if is_absolute target then [] else cur)
                       (map Comp (path_parts target) ++ Done next :: rest')
            | _ => realpath fuel' fs active next rest'
            end
      end
  end.

(** [p.resolve()] for an absolute [p]. *)
Definition resolve (fs : FS) (p : path) : res path := realpath PATH_FUEL fs [] [] (map Comp p).

Arguments resolve : simpl never.

Definition node_at (fs : FS) (p : path) : option node :=
  match p with [] => Some NDir | _ => fs !! p end.

(** [os.stat]: follows links. *)
Definition stat (fs : FS) (p : path) : option node :=
  match resolve fs p with Ok q => node_at fs q | Err _ => None end.
Definition is_file (fs : FS) (p : path) : bool :=
  match stat fs p with Some (NFile _) => true | _ => false end.
Definition is_dir (fs : FS) (p : path) : bool :=
  match stat fs p with Some NDir => true | _ => false end.

(** [iterdir()] and [rglob("*")] in no particular order; [rglob] does not
    enter linked directories. *)
Definition iterdir (fs : FS) (p : path) : list path :=
  List.filter (fun q => bool_decide (parent q = p) && bool_decide (q <> []))
    (map fst (map_to_list fs)).
Definition rglob_all (fs : FS) (p : path) : list path :=
  List.filter (fun q => match relative_to q p with Some (_ :: _) => true | _ => false end)
    (map fst (map_to_list fs)).
Definition by_posix (a b : path) : Prop := str_le (as_posix a) (as_posix b).
#[global] Instance by_posix_dec : RelDecision by_posix.
Proof. intros a b. unfold by_posix. apply _. Defined.

(** ** Calls that change files

    [fault w op p] is the operating system's answer to an operation on [p]:
    [Some n] fails it with an [OSError], a write after [n] bytes. *)

Class HasFS (W : Type) : Type := {
  get_fs : W -> FS;
  set_fs : FS -> W -> W;
  get_set_fs : forall f w, get_fs (set_fs f w) = f
}.

Section Calls.
Context {W : Type} `{HasFS W} (fault : W -> string -> path -> option nat).

Definition os_check (op : string) (p : path) : M W unit := fun w =>
  match fault w op p with Some _ => (Err (OSError op), w) | None => (Ok tt, w) end.

(** [p.mkdir(parents=True, exist_ok=True)] for a resolved [p]: missing
    directories are created from the root down. *)
Fixpoint mkdirs (cur : path) (rest : path) : M W unit :=
  match rest with
  | [] => ret tt
  | n :: rest' =>
      let next := cur ++ [n] in
      w <- get ;;
      match get_fs w !! next with
      | Some NDir => mkdirs next rest'
      | Some _ => raise (OSError "FileExistsError")
      | None =>
          os_check "mkdir" next ;;;
          modify (fun w => set_fs (<[next := NDir]> (get_fs w)) w) ;;;
          mkdirs next rest'
      end
  end.

(** [open(p, "wb").write(data)]: links are followed, an existing file is
    truncated, a missing one is created in an existing directory. *)
Definition write_bytes (p : path) (data : string) : M W unit :=
  w <- get ;;
  let fs := get_fs w in
  match resolve fs p with
  | Err OutOfFuel => raise OutOfFuel
  | Err _ => raise (OSError "ELOOP")
  | Ok q =>
      match node_at fs q, node_at fs (parent q) with
      | Some NDir, _ => raise (OSError "IsADirectoryError")
      | _, Some NDir =>
          match fault w "write" q with
          | Some n =>
              modify (set_fs (<[q := NFile (str_take n data)]> fs)) ;;; raise (OSError "write")
          | None => modify (set_fs (<[q := NFile data]> fs))
          end
      | _, _ => raise (OSError "FileNotFoundError")
      end
  end.

(** [src.replace(dst)]: a rename, which follows no link in the last component. *)
Definition replace_path (src dst : path) : M W unit :=
  os_check "rename" dst ;;;
  w <- get ;;
  let fs := get_fs w in
  match fs !! src, node_at fs dst with
  | None, _ => raise (OSError "FileNotFoundError")
  | Some _, Some NDir => raise (OSError "IsADirectoryError")
  | Some n, _ => modify (set_fs (<[dst := n]> (delete src fs)))
  end.

(** [open(p, "rb")] with [seek] and [read] of a resolved regular file. *)
Definition read_bytes (p : path) : M W string :=
  os_check "read" p ;;;
  w <- get ;;
  match stat (get_fs w) p with
  | Some (NFile data) => ret data
  | Some _ => raise (OSError "IsADirectoryError")
  | None => raise (OSError "FileNotFoundError")
  end.
End Calls.

(** ** Facts about resolving *)

(** No link on the way to [p], and no [..] in it: what [resolve] returns. *)
Definition link_free (fs : FS) (p : path) : Prop :=
  forall q t, q `prefix_of` p -> fs !! q <> Some (NLink t).
Definition real (fs : FS) (p : path) : Prop := link_free fs p /\ ".." ∉ p.

Lemma parent_prefix p : parent p `prefix_of` p.
Proof. unfold parent. exists (drop (length p - 1) p). by rewrite take_drop. Qed.

Lemma parent_app p n : parent (p ++ [n]) = p.
Proof. unfold parent. rewrite length_app. simpl. by rewrite Nat.add_sub, take_app_length. Qed.

Lemma parent_length p : length (parent p) = (length p - 1)%nat.
Proof. unfold parent. rewrite length_take. lia. Qed.

Lemma real_prefix fs p q : real fs p -> q `prefix_of` p -> real fs q.
Proof.
  intros [Hl Hd] Hq. split.
  - intros q' t Hq'. apply Hl. by etrans.
  - destruct Hq as [k ->]. set_solver.
Qed.

Lemma real_snoc fs p n :
  real fs p -> n <> ".." -> (forall t, fs !! (p ++ [n]) <> Some (NLink t)) -> real fs (p ++ [n]).
Proof.
  intros [Hl Hd] Hn Hx. split; [|set_solver]. intros q t Hq.
  destruct (decide (q = p ++ [n])) as [->|Hne]; [apply Hx|]. apply Hl.
  destruct Hq as [k Hk]. destruct k as [|z k _] using rev_ind.
  - by rewrite app_nil_r in Hk.
  - rewrite app_assoc in Hk. apply app_inj_2 in Hk as [-> _]; [|done]. by exists k.
Qed.

Lemma realpath_real fuel fs active cur rest q :
  real fs cur -> fs !! [] = None -> realpath fuel fs active cur rest = Ok q -> real fs q.
Proof.
  revert active cur rest. induction fuel as [|fuel IH]; intros active cur rest Hc H0; [done|].
  simpl. destruct rest as [|[name|l] rest]; [by intros [= <-]| |by apply IH].
  destruct (String.eqb_spec name "..") as [_|Hn].
  { apply IH; [|done]. eapply real_prefix; [done|apply parent_prefix]. }
  destruct (fs !! (cur ++ [name])) as [[b| |t]|] eqn:E.
  - apply IH; [|done]. apply real_snoc; [done..|]. naive_solver.
  - apply IH; [|done]. apply real_snoc; [done..|]. naive_solver.
  - case_bool_decide; [done|]. apply IH; [|done]. destruct (is_absolute t); [|done].
    eapply real_prefix; [done|]. by exists cur.
  - apply IH; [|done]. apply real_snoc; [done..|]. naive_solver.
Qed.

Lemma realpath_length fuel fs active cur rest q :
  realpath fuel fs active cur rest = Ok q -> (length q < length cur + fuel)%nat.
Proof.
  revert active cur rest. induction fuel as [|fuel IH]; intros active cur rest; [done|].
  simpl. destruct rest as [|[name|l] rest]; [intros [= <-]; lia| |intros E; apply IH in E; lia].
  destruct (String.eqb name "..").
  { intros E%IH. rewrite parent_length in E. lia. }
  destruct (fs !! (cur ++ [name])) as [[b| |t]|].
  3: { case_bool_decide; [done|]. intros E%IH. destruct (is_absolute t); simpl in E; lia. }
  all: intros E%IH; rewrite length_app in E; simpl in E; lia.
Qed.

(** A real path resolves to itself, with one unit of fuel per component. *)
Lemma realpath_id fuel fs active cur rest :
  real fs (cur ++ rest) -> (length rest < fuel)%nat ->
  realpath fuel fs active cur (map Comp rest) = Ok (cur ++ rest).
Proof.
  revert fuel cur. induction rest as [|n rest IH]; intros fuel cur Hr Hf; destruct fuel as [|fuel];
    simpl in *; [lia|by rewrite app_nil_r|lia|].
  destruct (String.eqb_spec n "..") as [->|Hn].
  { destruct Hr as [_ Hd]. set_solver. }
  rewrite (app_assoc cur [n] rest : cur ++ n :: rest = _) in *.
  assert (forall t, fs !! (cur ++ [n]) <> Some (NLink t)) as Hx.
  { intros t. apply Hr. by exists rest. }
  destruct (fs !! (cur ++ [n])) as [[b| |t]|]; [apply IH; [done|lia]..|naive_solver|].
  apply IH; [done|lia].
Qed.

(** Facts below assume that the root is not itself recorded in the map. *)
Definition rooted (fs : FS) : Prop := fs !! [] = None.

Lemma real_root fs : rooted fs -> real fs [].
Proof.
  intros H0. split; [|set_solver]. intros q t [k Hk]. destruct q; [|done].
  unfold rooted in H0. congruence.
Qed.

Lemma resolve_real fs p q : rooted fs -> resolve fs p = Ok q -> real fs q.
Proof. intros H0. exact (realpath_real PATH_FUEL fs [] [] (map Comp p) q (real_root fs H0) H0). Qed.

Lemma resolve_short fs p q : resolve fs p = Ok q -> (length q < PATH_FUEL)%nat.
Proof. exact (realpath_length PATH_FUEL fs [] [] (map Comp p) q). Qed.

Lemma resolve_id fs q : real fs q -> (length q < PATH_FUEL)%nat -> resolve fs q = Ok q.
Proof. intros Hr Hl. exact (realpath_id PATH_FUEL fs [] [] q Hr Hl). Qed.

Lemma resolve_idem fs p q : rooted fs -> resolve fs p = Ok q -> resolve fs q = Ok q.
Proof. intros H0 H1. apply resolve_id; [by eapply resolve_real|by eapply resolve_short]. Qed.

Lemma relative_to_Some p base r : relative_to p base = Some r <-> p = base ++ r.
Proof.
  revert p. induction base as [|b base IH]; intros [|x p]; simpl; try naive_solver.
  destruct (String.eqb_spec b x) as [->|]; [|naive_solver].
  rewrite IH. naive_solver.
Qed.

(** Two file systems with the same links resolve every path alike. *)
Definition same_links (fs fs' : FS) : Prop :=
  forall q t, fs !! q = Some (NLink t) <-> fs' !! q = Some (NLink t).

Lemma realpath_same_links fuel fs fs' active cur rest :
  same_links fs fs' -> realpath fuel fs active cur rest = realpath fuel fs' active cur rest.
Proof.
  intros Hs. revert active cur rest.
  induction fuel as [|fuel IH]; intros active cur rest; [done|].
  cbn [realpath]. destruct rest as [|[name|l] rest]; [done| |apply IH].
  destruct (String.eqb name ".."); [apply IH|].
  destruct (fs !! (cur ++ [name])) as [[b| |t]|] eqn:E.
  3: { apply Hs in E. rewrite E. case_bool_decide; [done|apply IH]. }
  all: destruct (fs' !! (cur ++ [name])) as [[b'| |t']|] eqn:E'; try apply IH.
  all: apply Hs in E'; congruence.
Qed.

Lemma resolve_same_links fs fs' p : same_links fs fs' -> resolve fs p = resolve fs' p.
Proof. intros Hs. unfold resolve. by apply realpath_same_links. Qed.

(** Conversion never needs to run [resolve] on an unknown file system. *)
#[global] Strategy opaque [resolve realpath PATH_FUEL].

(** ** Links through a linked workspace: a closed example *)

Definition demo_fs : FS := list_to_map
  [(["w"], NDir); (["w"; "a"], NDir); (["w"; "a"; "f"], NFile "x"); (["w"; "l"], NLink "a");
   (["w"; "out"], NLink "/etc/passwd"); (["w"; "loop"], NLink "loop")].
Example demo_resolve :
  map (resolve demo_fs) [["w"; "l"; "f"]; ["w"; "l"; ".."; "b"]; ["w"; "out"]; ["w"; "loop"]] =
    [Ok ["w"; "a"; "f"]; Ok ["w"; "b"]; Ok ["etc"; "passwd"]; Err (RuntimeError "Symlink loop")].
Proof. vm_compute. reflexivity. Qed.
