(* ===== verification/LocalWorkspace.v ===== *)
(** * LocalWorkspace: file, edit, shell and test tools on a worktree

    [infra/tools/local_workspace.py], over the file system of [FileSystem].  The
    operating system's process table is the port [os_exec]; regular expressions
    and [Path.glob] are the ports [re_compile] and [glob]; each operation sees the
    faults of [FileSystem]'s oracle.  The tools implement the records of
    [Tools]. *)

From S2P Require Import Prelude PyText Utf8 Domain GraphRuntime Results ShellAgent Tools FileSystem.
Import Utf8.

(** What [communicate()] under [wait_for] yields. *)
Inductive ExecOutcome : Type :=
  | Exited (returncode : Z) (stdout stderr : string)
  | TimedOut.

Definition GIT_APPLY_TIMEOUT_SECONDS : Z := 60.
Definition DEFAULT_SHELL_TIMEOUT_SECONDS : Z := 60.
Definition DEFAULT_TEST_TIMEOUT_SECONDS : Z := 120.

Record OsPorts (W : Type) : Type := mkOsPorts {
  (** [create_subprocess_exec( *argv, cwd=..., stdin=...)], [communicate] within
      the timeout; on a timeout the process is killed and waited for. *)
  os_exec : list string -> string -> option string -> Z -> M W ExecOutcome;
  (** [re.compile(pattern)] and [search]; [None] for [re.error]. *)
  re_compile : string -> option (string -> bool);
  (** [sorted(root.glob(pattern))] before sorting. *)
  glob : FS -> path -> string -> res (list path);
  os_fault : W -> string -> path -> option nat;
  os_cwd : path;
  sys_executable : string
}.
Arguments mkOsPorts {W}. Arguments os_exec {W}. Arguments re_compile {W}. Arguments glob {W}.
Arguments os_fault {W}. Arguments os_cwd {W}. Arguments sys_executable {W}.

(** [raw[:cap].decode("utf-8", errors="replace")]. *)
Definition decode_bounded (raw : string) (cap : Z) : string :=
  decode_replace (str_take (Z.to_nat cap) raw).

(** [1 if out else 0]. *)
Definition sep_bytes {A} (out : list A) : Z := match out with [] => 0 | _ => 1 end.

(** ** Diff headers: [^diff --git a/(.+?) b/(.+?)$] on each line *)

Definition diff_header_path (line : string) : option string :=
  let head := "diff --git a/" in
  if String.prefix head line then
    match String.substring (String.length head) (String.length line) line with
    | EmptyString => None
    | String _ rest =>
        match str_split_once " b/" rest with
        | Some (_, b) => if nonempty b then Some b else None
        | None => None
        end
    end
  else None.

Definition extract_diff_files (unified_diff : string) : list string :=
  fold_left (fun files line =>
    match diff_header_path line with
    | Some p => if str_in files p then files else files ++ [p]
    | None => files
    end) (split_on 10 unified_diff) [].

Section Local.
Context {W : Type} `{HasFS W} (os : OsPorts W).

Definition require_workspace (ctx : ToolContext) : res path :=
  match tx_workspace_path ctx with
  | None => Err (ToolPermissionError "tool requires a workspace but ctx.workspace_path is None")
  | Some ws => Ok (join_path (os_cwd os) ws)
  end.

(** [cwd=str(workspace)]. *)
Definition workspace_str (ctx : ToolContext) : string := py_path (default "" (tx_workspace_path ctx)).

Definition effective_cap (ctx : ToolContext) (requested : option Z) : res Z :=
  let cap := match requested with
             | None => tx_output_byte_cap ctx
             | Some r => Z.min (tx_output_byte_cap ctx) r
             end in
  if cap <=? 0 then Err (ToolValidationError "max_bytes must be positive") else Ok cap.

Definition resolve_within (fs : FS) (workspace : path) (raw_path : string) : res path :=
  if negb (nonempty raw_path) then Err (ToolValidationError "path must not be empty")
  else
    let? candidate := resolve fs (join_path workspace raw_path) in
    let? workspace_resolved := resolve fs workspace in
    match relative_to candidate workspace_resolved with
    | Some _ => Ok candidate
    | None => Err (ToolPermissionError ("path " +:+ py_repr_str raw_path +:+ " escapes the workspace"))
    end.

(** ** Reading *)

Definition read_slice (target : path) (offset max_bytes : Z) : M W string :=
  data <- read_bytes (os_fault os) target ;;
  ret (str_take (Z.to_nat max_bytes) (String.substring (Z.to_nat offset) (String.length data) data)).

(** [except OSError as exc: raise ToolExecutionError(...)]. *)
Definition wrap_oserror {A} (what : string) (m : M W A) : M W A :=
  try_except m (fun e => match e with
                         | OSError cls => Some (raise (ToolExecutionError (what +:+ cls)))
                         | _ => None
                         end).

Definition local_read (ctx : ToolContext) (p : string) (offset : Z) (max_bytes : option Z) : M W string :=
  if offset <? 0 then raise (ToolValidationError "offset must be non-negative") else
  workspace <- lift (require_workspace ctx) ;;
  w <- get ;;
  target <- lift (resolve_within (get_fs w) workspace p) ;;
  if negb (is_file (get_fs w) target) then
    raise (ToolExecutionError ("path " +:+ py_repr_str p +:+ " is not a regular file"))
  else
    cap <- lift (effective_cap ctx max_bytes) ;;
    data <- wrap_oserror "read failed: " (read_slice target offset cap) ;;
    ret (decode_replace data).

(** The loop of [_list_entries] over the sorted entries. *)
Fixpoint list_entries (fs : FS) (root : path) (max_entries cap : Z) (entries : list path)
    (out : list string) (used : Z) : res (list string) :=
  match entries with
  | [] => Ok out
  | entry :: rest =>
      let? r := resolve fs entry in
      match relative_to r root with
      | None => list_entries fs root max_entries cap rest out used
      | Some rel =>
          let rendered := rel_posix rel +:+ (if is_dir fs entry then "/" else "") in
          let size := sep_bytes out + Z.of_nat (String.length rendered) in
          if cap <? used + size then Ok out
          else
            let out' := out ++ [rendered] in
            if max_entries <=? Z.of_nat (length out') then Ok out'
            else list_entries fs root max_entries cap rest out' (used + size)
      end
  end.

Definition local_list_dir (ctx : ToolContext) (p : string) (recursive : bool) (max_entries : Z)
    : M W (list string) :=
  if max_entries <=? 0 then raise (ToolValidationError "max_entries must be positive") else
  workspace <- lift (require_workspace ctx) ;;
  w <- get ;;
  let fs := get_fs w in
  target <- lift (if nonempty p then resolve_within fs workspace p else resolve fs workspace) ;;
  if negb (is_dir fs target) then
    raise (ToolExecutionError ("path " +:+ py_repr_str p +:+ " is not a directory"))
  else
    root <- lift (resolve fs workspace) ;;
    os_check (os_fault os) "scandir" target ;;;
    lift (list_entries fs root max_entries (tx_output_byte_cap ctx)
            (merge_sort by_posix (if recursive then rglob_all fs target else iterdir fs target)) [] 0).

(** The two loops of [_grep]: [Grep] carries the variables of the function,
    [gr_stop] its early return. *)
Record Grep : Type := mkGrep {
  gr_hits : list GrepHit; gr_seen : list path; gr_used : Z; gr_stop : bool
}.

Fixpoint grep_lines (rel : string) (search : string -> bool) (max_matches cap : Z) (line_no : Z)
    (lines : list string) (g : Grep) : Grep :=
  match lines with
  | [] => g
  | line :: rest =>
      if search line then
        let rendered := rel +:+ ":" +:+ pretty line_no +:+ ":" +:+ line in
        let size := sep_bytes (gr_hits g)
                    + Z.of_nat (String.length rendered) in
        if cap <? gr_used g + size then mkGrep (gr_hits g) (gr_seen g) (gr_used g) true
        else
          let hits := gr_hits g ++ [mkGrepHit rel line_no line] in
          if max_matches <=? Z.of_nat (length hits)
          then mkGrep hits (gr_seen g) (gr_used g + size) true
          else grep_lines rel search max_matches cap (line_no + 1) rest
                 (mkGrep hits (gr_seen g) (gr_used g + size) false)
      else grep_lines rel search max_matches cap (line_no + 1) rest g
  end.

Definition grep_entry (workspace : path) (search : string -> bool) (max_matches cap : Z) (entry : path)
    (g : Grep) : M W Grep :=
  if gr_stop g then ret g else
  w <- get ;;
  let fs := get_fs w in
  if negb (is_file fs entry) || bool_decide (entry ∈ gr_seen g) then ret g
  else
    let g1 := mkGrep (gr_hits g) (gr_seen g ++ [entry]) (gr_used g) false in
    r <- lift (resolve fs entry) ;;
    match relative_to r workspace with
    | None => ret g1
    | Some rel =>
        text <- try_except (data <- read_bytes (os_fault os) entry ;; ret (Some data))
                  (fun e => match e with OSError _ => Some (ret None) | _ => None end) ;;
        match text with
        | None => ret g1
        | Some data => ret (grep_lines (rel_posix rel) search max_matches cap 1
                              (py_splitlines (decode_replace data)) g1)
        end
    end.

Definition grep_files (workspace : path) (search : string -> bool) (globs : list string)
    (max_matches cap : Z) : M W (list GrepHit) :=
  g <- for_each globs (mkGrep [] [] 0 false) (fun pattern g =>
         if gr_stop g then ret g else
         w <- get ;;
         entries <- lift (glob os (get_fs w) workspace pattern) ;;
         for_each (merge_sort by_posix entries) g
           (grep_entry workspace search max_matches cap)) ;;
  ret (gr_hits g).

Definition local_grep (ctx : ToolContext) (pattern : string) (globs : list string) (max_matches : Z)
    : M W (list GrepHit) :=
  if max_matches <=? 0 then raise (ToolValidationError "max_matches must be positive") else
  match re_compile os pattern with
  | None => raise (ToolValidationError "invalid regex: ")
  | Some search =>
      ws <- lift (require_workspace ctx) ;;
      w <- get ;;
      workspace <- lift (resolve (get_fs w) ws) ;;
      grep_files workspace search globs max_matches (tx_output_byte_cap ctx)
  end.

Definition LocalWorkspaceFileSystemTool : FileSystemTool W :=
  mkFileSystemTool local_read local_list_dir local_grep.

(** ** Writing *)

Definition atomic_write (target : path) (data : string) : M W unit :=
  mkdirs (os_fault os) [] (parent target) ;;;
  tmp <- lift (with_suffix target (name_suffix (path_name target) +:+ ".tmp")) ;;
  write_bytes (os_fault os) tmp data ;;;
  replace_path (os_fault os) tmp target.

Definition local_write (ctx : ToolContext) (p content : string) : M W EditOutcome :=
  workspace <- lift (require_workspace ctx) ;;
  w <- get ;;
  target <- lift (resolve_within (get_fs w) workspace p) ;;
  wrap_oserror "write failed: " (atomic_write target content) ;;;
  ret (mkEditOutcome [p] (Z.of_nat (String.length content))).

Definition local_patch_apply (ctx : ToolContext) (unified_diff : string) : M W EditOutcome :=
  if negb (nonempty (py_strip unified_diff)) then
    raise (ToolValidationError "unified_diff must not be empty")
  else
    lift (require_workspace ctx) ;;;
    outcome <- os_exec os ["git"; "apply"; "--whitespace=nowarn"; "-"] (workspace_str ctx)
                 (Some unified_diff) GIT_APPLY_TIMEOUT_SECONDS ;;
    match outcome with
    | TimedOut => raise (ToolExecutionError "git apply timed out")
    | Exited code _ stderr =>
        if negb (code =? 0) then
          raise (ToolExecutionError ("git apply failed: " +:+ py_strip (decode_replace stderr)))
        else ret (mkEditOutcome (extract_diff_files unified_diff)
                    (Z.of_nat (String.length unified_diff)))
    end.

Definition LocalWorkspaceEditTool : EditTool W := mkEditTool local_write local_patch_apply.

(** ** Commands *)

Record LocalShell : Type := mkLocalShell { ls_allowed : list string; ls_timeout : Z }.

Definition local_shell_init (allowed : option (list string)) (timeout : Z) : res LocalShell :=
  let commands := match allowed with
                  | Some ((_ :: _) as l) => l
                  | _ => ["ruff"; "python"; "python3"; "pytest"]
                  end in
  if timeout <=? 0 then Err (ValueError "default_timeout_seconds must be positive")
  else Ok (mkLocalShell commands timeout).

(** [max(proc.returncode or 0, 0)]. *)
Definition clamp_code (returncode : Z) : Z := Z.max returncode 0.

Definition local_shell_run (sh : LocalShell) (ctx : ToolContext) (argv : list string)
    (timeout_seconds : option Z) : M W ShellOutcome :=
  match argv with
  | [] => raise (ToolValidationError "argv must not be empty")
  | argv0 :: _ =>
      let command := path_name (path_parts argv0) in
      if negb (str_in (ls_allowed sh) command) then
        raise (ToolPermissionError ("command " +:+ py_repr_str command +:+ " is not in the allow-list"))
      else
        let timeout := default (ls_timeout sh) timeout_seconds in
        if timeout <=? 0 then raise (ToolValidationError "timeout_seconds must be positive")
        else
          lift (require_workspace ctx) ;;;
          outcome <- os_exec os argv (workspace_str ctx) None timeout ;;
          match outcome with
          | TimedOut => raise (ToolExecutionError ("command " +:+ py_repr_str command +:+
                                 " timed out after " +:+ pretty timeout +:+ "s"))
          | Exited code stdout stderr =>
              ret (mkShellOutcome argv (clamp_code code)
                     (decode_bounded stdout (tx_output_byte_cap ctx))
                     (decode_bounded stderr (tx_output_byte_cap ctx)) false)
          end
  end.

Definition LocalWorkspaceShellTool (sh : LocalShell) : ShellTool W := mkShellTool (local_shell_run sh).

(** ** Test suites *)

Record LocalTest : Type := mkLocalTest { lt_suites : list (string * list string); lt_timeout : Z }.

Definition default_suites (python : string) : list (string * list string) :=
  [("python_lint", [python; "-m"; "ruff"; "check"; "--"]);
   ("python_test", [python; "-m"; "pytest"; "--"]);
   ("typescript_typecheck", ["npx"; "tsc"; "--noEmit"; "--pretty"; "false"; "--"]);
   ("typescript_test", ["npx"; "vitest"; "run"; "--globals"; "--"])].

Definition local_test_init (suites : option (list (string * list string))) (timeout : Z) : res LocalTest :=
  let table := match suites with
               | Some ((_ :: _) as l) => l
               | _ => default_suites (sys_executable os)
               end in
  if timeout <=? 0 then Err (ValueError "default_timeout_seconds must be positive")
  else Ok (mkLocalTest table timeout).

Definition normalize_targets (fs : FS) (workspace : path) (targets : list string) : res (list string) :=
  mapM_res (fun target =>
    let? resolved := resolve_within fs workspace target in
    let? root := resolve fs workspace in
    match relative_to resolved root with
    | Some rel => Ok (rel_posix rel)
    | None => Err (ValueError "is not in the subpath of")
    end) targets.

(** [suite in {"python_test", "typescript_test"}]. *)
Definition whole_suite (suite : string) : bool := str_in ["python_test"; "typescript_test"] suite.

Definition suite_targets (fs : FS) (workspace : path) (suite : string) (targets : list string)
    : res (list string) :=
  if whole_suite suite then Ok [] else normalize_targets fs workspace targets.

Definition local_test_run (t : LocalTest) (ctx : ToolContext) (suite : string) (targets : list string)
    (timeout_seconds : option Z) : M W TestOutcome :=
  if negb (nonempty suite) then raise (ToolValidationError "suite must not be empty") else
  match dget (lt_suites t) suite with
  | None => raise (ToolPermissionError ("test suite " +:+ py_repr_str suite +:+
                                          " is not in the allow-list"))
  | Some base =>
      let timeout := default (lt_timeout t) timeout_seconds in
      if timeout <=? 0 then raise (ToolValidationError "timeout_seconds must be positive")
      else
        workspace <- lift (require_workspace ctx) ;;
        w <- get ;;
        extra <- lift (suite_targets (get_fs w) workspace suite targets) ;;
        let argv := base ++ extra in
        outcome <- os_exec os argv (workspace_str ctx) None timeout ;;
        match outcome with
        | TimedOut => raise (ToolExecutionError ("test suite " +:+ py_repr_str suite +:+
                               " timed out after " +:+ pretty timeout +:+ "s"))
        | Exited code stdout stderr =>
            ret (mkTestOutcome suite argv (clamp_code code)
                   (decode_bounded stdout (tx_output_byte_cap ctx))
                   (decode_bounded stderr (tx_output_byte_cap ctx)) false)
        end
  end.

Definition LocalWorkspaceTestTool (t : LocalTest) : TestTool W := mkTestTool (local_test_run t).
End Local.
