(* ===== verification/LocalWorkspaceFacts.v ===== *)
(** * LocalWorkspaceFacts: confinement, atomicity and bounds of the local tools *)

From S2P Require Import Prelude PyText Utf8 Domain GraphRuntime Results ShellAgent Tools FileSystem LocalWorkspace.
Import Utf8.

Section Facts.
Context {W : Type} `{HasFS W} (os : OsPorts W).

(** ** Confinement *)

Lemma resolve_within_ok fs ws raw target :
  rooted fs -> resolve_within fs ws raw = Ok target ->
  exists root rel, resolve fs ws = Ok root /\ target = root ++ rel /\ real fs target /\
                   resolve fs target = Ok target.
Proof.
  intros H0. unfold resolve_within. destruct (nonempty raw); [|done]. simpl.
  destruct (resolve fs (join_path ws raw)) as [cand|] eqn:Ec; [|done]. simpl.
  destruct (resolve fs ws) as [root|] eqn:Er; [|done]. simpl.
  destruct (relative_to cand root) as [rel|] eqn:Erel; [|done]. intros [= <-].
  apply relative_to_Some in Erel. exists root, rel.
  split_and!; [done..|by eapply resolve_real|by eapply resolve_idem].
Qed.

Lemma read_bytes_spec p w :
  read_bytes (os_fault os) p w =
    (match os_fault os w "read" p with
     | Some _ => Err (OSError "read")
     | None => match stat (get_fs w) p with
               | Some (NFile data) => Ok data
               | Some _ => Err (OSError "IsADirectoryError")
               | None => Err (OSError "FileNotFoundError")
               end
     end, w).
Proof.
  unfold read_bytes, os_check, bind, get. destruct (os_fault os w "read" p); [done|].
  by destruct (stat (get_fs w) p) as [[]|].
Qed.

Lemma node_at_file fs p data : node_at fs p = Some (NFile data) -> fs !! p = Some (NFile data).
Proof. by destruct p. Qed.

(** Reading never changes the world; what it returns is a slice, decoded
    with replacement, of a regular file that lies under the resolved workspace
    with no link on the way; the text has at most three bytes per byte of the
    requested cap. *)
Theorem local_read_confined ctx p offset max_bytes w r w' :
  rooted (get_fs w) ->
  local_read os ctx p offset max_bytes w = (r, w') ->
  w' = w /\
  match r with
  | Ok text =>
      exists ws root rel data cap,
        require_workspace os ctx = Ok ws /\ resolve (get_fs w) ws = Ok root /\
        get_fs w !! (root ++ rel) = Some (NFile data) /\ real (get_fs w) (root ++ rel) /\
        effective_cap ctx max_bytes = Ok cap /\ 0 < cap <= tx_output_byte_cap ctx /\
        text = decode_replace (str_take (Z.to_nat cap)
                 (String.substring (Z.to_nat offset) (String.length data) data)) /\
        Z.of_nat (String.length text) <= 3 * cap
  | Err _ => True
  end.
Proof.
  intros H0. unfold local_read, bind, lift, get. destruct (offset <? 0); [by intros [= <- <-]|].
  destruct (require_workspace os ctx) as [ws|] eqn:Ews; [|by intros [= <- <-]].
  destruct (resolve_within (get_fs w) ws p) as [target|] eqn:Et; [|by intros [= <- <-]].
  destruct (is_file (get_fs w) target) eqn:Ef; cbn [negb]; [|by intros [= <- <-]].
  destruct (effective_cap ctx max_bytes) as [cap|] eqn:Ecap; [|by intros [= <- <-]].
  unfold wrap_oserror, try_except, read_slice, bind, ret. rewrite read_bytes_spec.
  apply resolve_within_ok in Et as (root & rel & Er & -> & Hreal & Hid); [|done].
  unfold is_file in Ef. destruct (os_fault os w "read" (root ++ rel)); [by intros [= <- <-]|].
  destruct (stat (get_fs w) (root ++ rel)) as [[data| |]|] eqn:Est; try done.
  intros [= <- <-]. split; [done|]. exists ws, root, rel, data, cap.
  unfold stat in Est. rewrite Hid in Est. apply node_at_file in Est.
  assert (0 < cap <= tx_output_byte_cap ctx) as Hcap.
  { unfold effective_cap in Ecap. revert Ecap. split_matches; intros; simplify_eq/=; lia. }
  split_and!; try done; try lia.
  set (s := str_take _ _). pose proof (decode_replace_length s) as H1.
  assert (String.length s <= Z.to_nat cap)%nat by apply str_take_length. lia.
Qed.

(** ** Writing *)

(** [mkdir(parents=True)] only adds directories on the way to its argument, and
    returns when every component is one. *)
Lemma mkdirs_spec rest : forall cur w r w',
  mkdirs (os_fault os) cur rest w = (r, w') ->
  (forall q, get_fs w' !! q = get_fs w !! q \/
     (get_fs w !! q = None /\ get_fs w' !! q = Some NDir /\
      exists k, q = cur ++ take (S k) rest /\ (k < length rest)%nat)) /\
  (r = Ok tt -> forall k, (k < length rest)%nat -> get_fs w' !! (cur ++ take (S k) rest) = Some NDir).
Proof.
  induction rest as [|n rest IH]; intros cur w r w'; simpl.
  { intros [= <- <-]. split; [by left|]. intros _ k. lia. }
  unfold bind, get. destruct (get_fs w !! (cur ++ [n])) as [[b| |t]|] eqn:E.
  1,3: unfold raise; intros [= <- <-]; split; [by left|done].
  - intros Hm. destruct (IH _ _ _ _ Hm) as [Hq Hok]. split.
    + intros q. destruct (Hq q) as [|(H1 & H2 & k & -> & Hk)]; [by left|right].
      split_and!; [done..|]. exists (S k). rewrite <- app_assoc. simpl. split; [done|lia].
    + intros Hr k Hk. destruct k as [|k].
      * simpl. rewrite take_0. destruct (Hq (cur ++ [n])) as [->|(H1 & _)]; [done|congruence].
      * specialize (Hok Hr k ltac:(lia)). by rewrite <- app_assoc in Hok.
  - unfold os_check. destruct (os_fault os w "mkdir" (cur ++ [n])).
    { intros [= <- <-]. split; [by left|done]. }
    unfold modify. intros Hm. destruct (IH _ _ _ _ Hm) as [Hq Hok]. rewrite get_set_fs in Hq.
    split.
    + intros q. destruct (decide (q = cur ++ [n])) as [->|Hne].
      * right. destruct (Hq (cur ++ [n])) as [Hx|(Hx & _)]; rewrite lookup_insert_eq in Hx; [|done].
        split_and!; [done..|]. exists 0%nat. simpl. rewrite take_0. split; [done|lia].
      * destruct (Hq q) as [Hx|(H1 & H2 & k & -> & Hk)];
          rewrite lookup_insert_ne in * by done; [by left|right].
        split_and!; [done..|]. exists (S k). rewrite <- app_assoc. simpl. split; [done|lia].
    + intros Hr k Hk. destruct k as [|k].
      * simpl. rewrite take_0.
        destruct (Hq (cur ++ [n])) as [->|(H1 & _)]; rewrite lookup_insert_eq in *; done.
      * specialize (Hok Hr k ltac:(lia)). by rewrite <- app_assoc in Hok.
Qed.

(** The temporary file of a target: its name with [.tmp] behind, whatever
    suffix it has. *)
Definition tmp_path (target : path) : path := parent target ++ [path_name target +:+ ".tmp"].

Lemma rsplit_dot_app s a b : rsplit_dot s = Some (a, b) -> s = a +:+ String (Ascii.ascii_of_nat 46) b.
Proof.
  revert a b. induction s as [|c s IH]; intros a b; simpl; [done|].
  destruct (rsplit_dot s) as [[a' b']|].
  - intros [= <- <-]. rewrite app_cons. by rewrite <- (IH _ _ eq_refl).
  - destruct (char_is 46 c) eqn:Ec; [|done]. intros [= <- <-].
    unfold char_is in Ec. apply Nat.eqb_eq in Ec.
    rewrite <- Ec, Ascii.ascii_nat_embedding. done.
Qed.

Lemma str_drop_end_app a b : str_drop_end (String.length b) (a +:+ b) = a.
Proof.
  unfold str_drop_end. rewrite length_app_str, Nat.add_sub, str_take_app, Nat.sub_diag by lia.
  destruct b; apply app_str_nil_r.
Qed.

Lemma with_suffix_tmp target p :
  with_suffix target (name_suffix (path_name target) +:+ ".tmp") = Ok p -> p = tmp_path target.
Proof.
  unfold with_suffix, tmp_path. destruct (_ || _); [done|].
  destruct (nonempty (path_name target)); simpl; [|done]. intros [= <-]. do 2 f_equal.
  unfold name_suffix. destruct (rsplit_dot (path_name target)) as [[stem ext]|] eqn:E; [|done].
  destruct (nonempty stem && nonempty ext); [|done]. apply rsplit_dot_app in E.
  change ("." +:+ ext) with (String (Ascii.ascii_of_nat 46) ext).
  cbn [nonempty String.eqb negb]. rewrite E, str_drop_end_app, app_str_assoc. done.
Qed.

Lemma write_bytes_real p data w r w' :
  resolve (get_fs w) p = Ok p -> write_bytes (os_fault os) p data w = (r, w') ->
  (forall q, q <> p -> get_fs w' !! q = get_fs w !! q) /\
  (r = Ok tt -> get_fs w' !! p = Some (NFile data)) /\
  (get_fs w' !! p = get_fs w !! p \/ exists b, get_fs w' !! p = Some (NFile b)).
Proof.
  intros Hp. unfold write_bytes, bind, get. rewrite Hp.
  destruct (node_at (get_fs w) p) as [[b| |t]|];
    destruct (node_at (get_fs w) (parent p)) as [[b'| |t']|];
    try (unfold raise; intros [= <- <-]; split_and!; [done|done|by left]).
  all: destruct (os_fault os w "write" p) as [n|]; unfold modify, raise; intros [= <- <-];
    rewrite get_set_fs, lookup_insert_eq; split_and!; try done; try (right; eauto).
  all: intros q Hq; by rewrite lookup_insert_ne.
Qed.

Lemma replace_spec src dst w r w' :
  src <> dst -> replace_path (os_fault os) src dst w = (r, w') ->
  match r with
  | Ok _ => get_fs w' !! dst = get_fs w !! src /\ get_fs w' !! src = None /\
            (forall q, q <> src -> q <> dst -> get_fs w' !! q = get_fs w !! q)
  | Err _ => w' = w
  end.
Proof.
  intros Hne. unfold replace_path, os_check, bind, get.
  destruct (os_fault os w "rename" dst); [by intros [= <- <-]|].
  destruct (get_fs w !! src) as [n|] eqn:Es; [|by intros [= <- <-]].
  destruct (node_at (get_fs w) dst) as [[b| |t]|]; unfold modify, raise; intros [= <- <-]; try done.
  all: rewrite get_set_fs, lookup_insert_eq, lookup_insert_ne, lookup_delete_eq by done;
    split_and!; [done..|].
  all: intros q H1 H2; by rewrite lookup_insert_ne, lookup_delete_ne.
Qed.

Lemma tmp_length target : target <> [] -> length (tmp_path target) = length target.
Proof.
  intros Ht. unfold tmp_path. rewrite length_app, parent_length. destruct target; [done|simpl; lia].
Qed.

Lemma target_split target : target <> [] -> target = parent target ++ [path_name target].
Proof.
  intros Ht. destruct target as [|x l _] using rev_ind; [done|].
  rewrite parent_app. unfold path_name. by rewrite last_snoc.
Qed.

Lemma tmp_ne target : target <> [] -> tmp_path target <> target.
Proof.
  intros Ht E. rewrite (target_split target Ht) in E at 2. unfold tmp_path in E.
  apply app_inj_2 in E as [_ E]; [|done]. injection E as E.
  apply (f_equal String.length) in E. rewrite length_app_str in E. simpl in E. lia.
Qed.

Lemma tmp_name_not_dotdot s : s +:+ ".tmp" <> "..".
Proof.
  intros E. apply (f_equal String.length) in E. rewrite length_app_str in E. simpl in E. lia.
Qed.

(** [fs'] is [fs] with directories added on the way to [p]. *)
Definition grown (fs fs' : FS) (p q : path) : Prop :=
  fs' !! q = fs !! q \/ (fs !! q = None /\ fs' !! q = Some NDir /\ q `prefix_of` p /\ q <> []).

Lemma mkdirs_grown p w r w' :
  mkdirs (os_fault os) [] p w = (r, w') ->
  (forall q, grown (get_fs w) (get_fs w') p q) /\
  (r = Ok tt -> node_at (get_fs w') p = Some NDir).
Proof.
  intros Hm. destruct (mkdirs_spec p [] w r w' Hm) as [Hq Hok]. split.
  - intros q. destruct (Hq q) as [|(H1 & H2 & k & -> & Hk)]; [by left|right].
    split_and!; [done|done|by apply prefix_take|]. by destruct p; simpl in *; [lia|].
  - intros Hr. destruct p as [|x p]; [done|]. specialize (Hok Hr (length p) ltac:(simpl; lia)).
    rewrite take_ge in Hok by (simpl; lia). done.
Qed.

Lemma grown_same_length fs fs' p q :
  grown fs fs' p q -> (length p < length q)%nat -> fs' !! q = fs !! q.
Proof. intros [|(_ & _ & Hq & _)] Hl; [done|]. apply prefix_length in Hq. lia. Qed.

Lemma grown_links fs fs' p : (forall q, grown fs fs' p q) -> same_links fs fs'.
Proof.
  intros Hg q t. destruct (Hg q) as [->|(-> & -> & _)]; naive_solver.
Qed.

Lemma real_same_links fs fs' p : same_links fs fs' -> real fs p -> real fs' p.
Proof. intros Hs [Hl Hd]. split; [|done]. intros q t Hq Hx%Hs. by apply (Hl q t). Qed.

Lemma atomic_write_spec target data w r w' :
  real (get_fs w) target -> target <> [] -> (length target < PATH_FUEL)%nat ->
  (forall t, get_fs w !! tmp_path target <> Some (NLink t)) ->
  atomic_write os target data w = (r, w') ->
  (forall q, q <> target -> q <> tmp_path target ->
             grown (get_fs w) (get_fs w') (parent target) q) /\
  match r with
  | Ok _ => get_fs w' !! target = Some (NFile data) /\ get_fs w' !! tmp_path target = None
  | Err _ => get_fs w' !! target = get_fs w !! target /\
             (get_fs w' !! tmp_path target = get_fs w !! tmp_path target \/
              exists b, get_fs w' !! tmp_path target = Some (NFile b))
  end.
Proof.
  intros Hreal Hne Hlen Hlink. unfold atomic_write, bind, lift.
  destruct (mkdirs (os_fault os) [] (parent target) w) as [r1 w1] eqn:E1.
  destruct (mkdirs_grown _ _ _ _ E1) as [Hg _].
  assert (Hshort : (length (parent target) < length target)%nat).
  { rewrite parent_length. destruct target; [done|simpl; lia]. }
  pose proof (tmp_length target Hne) as Htl. pose proof (tmp_ne target Hne) as Htn.
  assert (Ht : get_fs w1 !! target = get_fs w !! target) by (by eapply grown_same_length).
  assert (Hx : get_fs w1 !! tmp_path target = get_fs w !! tmp_path target)
    by (eapply grown_same_length; [done|lia]).
  destruct r1 as [[]|e].
  2: { intros [= <- <-]. split; [by intros|]. split; [done|by left]. }
  destruct (with_suffix _ _) as [tmp|e] eqn:Ew.
  2: { intros [= <- <-]. split; [by intros|]. split; [done|by left]. }
  apply with_suffix_tmp in Ew as ->.
  destruct (write_bytes (os_fault os) (tmp_path target) data w1) as [r2 w2] eqn:E2.
  apply write_bytes_real in E2 as (Hq2 & Hok2 & Hd2).
  2: { apply resolve_id; [|by rewrite Htl]. unfold tmp_path.
       apply (real_same_links _ _ _ (grown_links _ _ _ Hg)). apply real_snoc.
       - eapply real_prefix; [done|apply parent_prefix].
       - apply tmp_name_not_dotdot.
       - exact Hlink. }
  destruct r2 as [[]|e].
  2: { intros [= <- <-]. split.
       - intros q H1 H2. unfold grown. rewrite Hq2 by done. apply Hg.
       - rewrite Hq2 by done. split; [done|]. rewrite <- Hx. exact Hd2. }
  intros E3. apply replace_spec in E3; [|done].
  destruct r as [[]|e].
  - destruct E3 as (H1 & H2 & H3). split_and!; [|rewrite H1; auto|done].
    intros q Hq1 Hq3. unfold grown. rewrite H3, Hq2 by done. apply Hg.
  - subst w'. split.
    + intros q H1 H2. unfold grown. rewrite Hq2 by done. apply Hg.
    + rewrite Hq2 by done. split; [done|]. rewrite <- Hx. exact Hd2.
Qed.

(** The workspace exists: every directory on the way to it is one. *)
Definition dir_chain (fs : FS) (root : path) : Prop :=
  forall q, q `prefix_of` root -> q <> [] -> fs !! q = Some NDir.

Lemma dir_chain_check fs root :
  forallb (fun k => bool_decide (fs !! take (S k) root = Some NDir)) (seq 0 (length root)) = true ->
  dir_chain fs root.
Proof.
  intros Hc q [k ->] Hne. rewrite forallb_forall in Hc. destruct q as [|x q]; [done|].
  specialize (Hc (length q)). rewrite bool_decide_eq_true in Hc.
  rewrite (take_app_length' (x :: q) k) in Hc by done. apply Hc. apply in_seq.
  rewrite length_app. simpl. lia.
Qed.

(** What the adapter relies on and does not check: the path names something
    below the workspace, and the temporary name is not a link. *)
Definition safe_target (fs : FS) (root target : path) : Prop :=
  target <> root /\ forall t, fs !! tmp_path target <> Some (NLink t).

Lemma wrap_oserror_run {A} what (m : M W A) w r w' :
  wrap_oserror what m w = (r, w') ->
  exists r0, m w = (r0, w') /\ match r0 with Ok a => r = Ok a | Err _ => exists e, r = Err e end.
Proof.
  unfold wrap_oserror, try_except. destruct (m w) as [[a|e] w1].
  - intros [= <- <-]. by exists (Ok a).
  - intros Hx. exists (Err e). destruct e; unfold raise in Hx; injection Hx as <- <-; eauto.
Qed.

Lemma grown_outside fs fs' root rel q :
  dir_chain fs root -> rel <> [] -> grown fs fs' (parent (root ++ rel)) q ->
  ~ root `prefix_of` q -> fs' !! q = fs !! q.
Proof.
  intros Hd Hrel [|(H1 & H2 & Hq & Hne)] Hout; [done|].
  assert (Hp : q `prefix_of` root ++ rel) by (etrans; [exact Hq|apply parent_prefix]).
  destruct (prefix_weak_total q root (root ++ rel)) as [Hc|Hc]; [done|by exists rel| |done].
  rewrite (Hd q Hc Hne) in H1. done.
Qed.

Lemma tmp_under root rel : rel <> [] -> root `prefix_of` tmp_path (root ++ rel).
Proof.
  intros Hrel. destruct rel as [|x rel _] using rev_ind; [done|].
  unfold tmp_path. rewrite app_assoc, parent_app, <- app_assoc. by eexists.
Qed.

(** C19: a write stays in the workspace and is atomic.  For a path below the
    workspace whose temporary name is not a link: no node outside the workspace
    changes, whether the write returns or fails at any point; when it returns,
    the target holds exactly the content; when it fails, the target is what it
    was before. *)
Theorem local_write_confined ctx p content w r w' ws root :
  rooted (get_fs w) -> require_workspace os ctx = Ok ws -> resolve (get_fs w) ws = Ok root ->
  dir_chain (get_fs w) root ->
  (forall target, resolve_within (get_fs w) ws p = Ok target ->
                  safe_target (get_fs w) root target) ->
  local_write os ctx p content w = (r, w') ->
  (forall q, ~ root `prefix_of` q -> get_fs w' !! q = get_fs w !! q) /\
  match r with
  | Ok o =>
      o = mkEditOutcome [p] (Z.of_nat (String.length content)) /\
      exists target, resolve_within (get_fs w) ws p = Ok target /\
        get_fs w' !! target = Some (NFile content) /\ get_fs w' !! tmp_path target = None
  | Err _ =>
      forall target, resolve_within (get_fs w) ws p = Ok target ->
        get_fs w' !! target = get_fs w !! target
  end.
Proof.
  intros H0 Hws Hroot Hdir Hsafe. unfold local_write, bind, lift, get. rewrite Hws.
  destruct (resolve_within (get_fs w) ws p) as [target|e] eqn:Et.
  2: { intros [= <- <-]. split; [done|]. intros target. done. }
  destruct (Hsafe target eq_refl) as [Hnr Hlink].
  destruct (resolve_within_ok _ _ _ _ H0 Et) as (root' & rel & Er & -> & Hreal & Hid).
  assert (root' = root) as -> by congruence.
  assert (Hrel : rel <> []) by (intros ->; rewrite app_nil_r in Hnr; done).
  destruct (wrap_oserror _ _ w) as [r1 w1] eqn:E1.
  apply wrap_oserror_run in E1 as (r0 & E0 & Hr).
  apply atomic_write_spec in E0 as [Hq Hres]; [|done|by destruct root, rel|by eapply resolve_short|done].
  assert (Hout : forall q, ~ root `prefix_of` q -> get_fs w1 !! q = get_fs w !! q).
  { intros q Hnq. eapply grown_outside; [done..|apply Hq|done].
    - intros ->. apply Hnq. by exists rel.
    - intros ->. apply Hnq. by apply tmp_under. }
  destruct r0 as [[]|e0].
  - subst r1. intros [= <- <-]. destruct Hres as [Ha Hb]. split; [done|]. split; [done|].
    by exists (root ++ rel).
  - destruct Hr as [e1 ->]. intros [= <- <-]. split; [done|].
    intros target [= <-]. apply Hres.
Qed.

Lemma safe_write_links fs fs' target data :
  real fs target -> (forall t, fs !! tmp_path target <> Some (NLink t)) ->
  (forall q, q <> target -> q <> tmp_path target -> grown fs fs' (parent target) q) ->
  fs' !! target = Some (NFile data) -> fs' !! tmp_path target = None -> same_links fs fs'.
Proof.
  intros [Hl _] Ht Hg H1 H2 q t. destruct (decide (q = target)) as [->|Hn1].
  { split; intros Hx; [|congruence]. by apply Hl in Hx. }
  destruct (decide (q = tmp_path target)) as [->|Hn2].
  { split; intros Hx; [|congruence]. by apply Ht in Hx. }
  destruct (Hg q Hn1 Hn2) as [->|(-> & -> & _)]; naive_solver.
Qed.

(** What was written is what is read.  After a write that returned, reading
    the same path in the same context returns exactly the content, for valid text
    that fits the output cap. *)
Theorem local_write_read ctx p content w o w' ws root :
  rooted (get_fs w) -> require_workspace os ctx = Ok ws -> resolve (get_fs w) ws = Ok root ->
  (forall target, resolve_within (get_fs w) ws p = Ok target ->
                  safe_target (get_fs w) root target /\ os_fault os w' "read" target = None) ->
  valid content = true -> Z.of_nat (String.length content) <= tx_output_byte_cap ctx ->
  0 < tx_output_byte_cap ctx ->
  local_write os ctx p content w = (Ok o, w') ->
  local_read os ctx p 0 None w' = (Ok content, w').
Proof.
  intros H0 Hws Hroot Hsafe Hv Hlen Hcap. unfold local_write, bind, lift, get. rewrite Hws.
  destruct (resolve_within (get_fs w) ws p) as [target|e] eqn:Et; [|done].
  destruct (Hsafe target eq_refl) as [[Hnr Hlink] Hfault].
  destruct (resolve_within_ok _ _ _ _ H0 Et) as (root' & rel & Er & -> & Hreal & Hid).
  assert (root' = root) as -> by congruence.
  assert (Hne : root ++ rel <> []).
  { destruct rel; [by rewrite app_nil_r in Hnr|]. by destruct root. }
  destruct (wrap_oserror _ _ w) as [r1 w1] eqn:E1.
  apply wrap_oserror_run in E1 as (r0 & E0 & Hr).
  apply atomic_write_spec in E0 as [Hq Hres]; [|done|done|by eapply resolve_short|done].
  destruct r0 as [[]|]; [|by destruct Hr as [? ->]]. subst r1. intros [= _ <-].
  destruct Hres as [Ht Htmp].
  pose proof (safe_write_links _ _ _ _ Hreal Hlink Hq Ht Htmp) as Hs.
  unfold local_read, bind, lift, get. rewrite Hws. cbn [Z.ltb Z.compare].
  assert (resolve_within (get_fs w1) ws p = Ok (root ++ rel)) as ->.
  { revert Et. unfold resolve_within. by rewrite <- !(resolve_same_links _ _ _ Hs). }
  assert (Hst : stat (get_fs w1) (root ++ rel) = Some (NFile content)).
  { unfold stat. rewrite <- (resolve_same_links _ _ _ Hs), Hid.
    destruct (root ++ rel); [done|exact Ht]. }
  unfold is_file. rewrite Hst. cbn [negb]. unfold effective_cap.
  destruct (Z.leb_spec (tx_output_byte_cap ctx) 0); [lia|].
  unfold wrap_oserror, try_except, read_slice, bind, ret. rewrite read_bytes_spec, Hfault, Hst.
  change (Z.to_nat 0) with 0%nat. rewrite substring_whole, str_take_all by lia.
  unfold decode_replace. by rewrite decode_valid.
Qed.

(** ** Listings *)

Definition joined (l : list string) : Z := Z.of_nat (String.length (str_join newline l)).

Lemma joined_snoc l x :
  joined (l ++ [x]) = joined l + sep_bytes l + Z.of_nat (String.length x).
Proof.
  unfold joined. induction l as [|y l IH]; [done|].
  cbn [sep_bytes].
  destruct l as [|z l].
  - cbn [app str_join]. rewrite !length_app_str. change (String.length newline) with 1%nat. lia.
  - change ((y :: z :: l) ++ [x]) with (y :: z :: (l ++ [x])).
    change ((z :: l) ++ [x]) with (z :: (l ++ [x])) in IH.
    cbn [sep_bytes] in IH.
    assert (Hj : forall t u v, String.length (str_join newline (t :: u :: v)) =
                 (String.length t + 1 + String.length (str_join newline (u :: v)))%nat).
    { intros t u v. change (str_join newline (t :: u :: v))
        with (t +:+ newline +:+ str_join newline (u :: v)).
      rewrite !length_app_str. change (String.length newline) with 1%nat. lia. }
    rewrite !Hj. lia.
Qed.

Lemma list_entries_bounded fs root max_entries cap entries out out' :
  list_entries fs root max_entries cap entries out (joined out) = Ok out' ->
  0 < max_entries -> joined out <= cap -> Z.of_nat (length out) < max_entries ->
  joined out' <= cap /\ Z.of_nat (length out') <= max_entries.
Proof.
  revert out. induction entries as [|e entries IH]; intros out; cbn [list_entries].
  { intros [= <-]. lia. }
  destruct (resolve fs e) as [r|]; [|done]. cbn [res_bind].
  destruct (relative_to r root) as [rel|]; [|apply IH].
  set (x := rel_posix rel +:+ _). intros Hl Hm Hj Hn.
  destruct (Z.ltb_spec cap (joined out + (sep_bytes out
              + Z.of_nat (String.length x)))) as [_|Hle]; [injection Hl as <-; lia|].
  pose proof (joined_snoc out x) as Hx.
  destruct (Z.leb_spec max_entries (Z.of_nat (length (out ++ [x])))) as [Hge|Hlt].
  { injection Hl as <-. rewrite length_app in *. simpl in *. lia. }
  apply (IH (out ++ [x])); [|done|lia|done].
  by replace (joined (out ++ [x])) with (joined out + (sep_bytes out
              + Z.of_nat (String.length x))) by lia.
Qed.

Definition render_hit (h : GrepHit) : string :=
  gh_path h +:+ ":" +:+ pretty (gh_line_no h) +:+ ":" +:+ gh_line h.

(** The variables of [_grep] agree: [used] is the size of the rendering. *)
Definition grep_ok (max_matches cap : Z) (g : Grep) : Prop :=
  gr_used g = joined (map render_hit (gr_hits g)) /\ gr_used g <= cap /\
  Z.of_nat (length (gr_hits g)) <= max_matches /\
  (gr_stop g = false -> Z.of_nat (length (gr_hits g)) < max_matches).

Lemma grep_lines_ok rel search max_matches cap lines : forall n g,
  grep_ok max_matches cap g -> gr_stop g = false ->
  grep_ok max_matches cap (grep_lines rel search max_matches cap n lines g).
Proof.
  induction lines as [|line lines IH]; intros n g Hg Hs; [done|]. cbn [grep_lines].
  destruct (search line); [|by apply IH]. destruct Hg as (H1 & H2 & H3 & H4). specialize (H4 Hs).
  set (h := mkGrepHit rel n line).
  change (rel +:+ ":" +:+ pretty n +:+ ":" +:+ line) with (render_hit h).
  set (size := _ + Z.of_nat (String.length (render_hit h))).
  assert (Hj : joined (map render_hit (gr_hits g ++ [h])) = gr_used g + size).
  { rewrite map_app. cbn [map]. rewrite joined_snoc, H1. subst size.
    destruct (gr_hits g); cbn [sep_bytes map]; lia. }
  destruct (Z.ltb_spec cap (gr_used g + size)) as [_|Hle]; [by split_and!|].
  assert (Hlen : length (gr_hits g ++ [h]) = S (length (gr_hits g))) by (rewrite length_app; simpl; lia).
  destruct (Z.leb_spec max_matches (Z.of_nat (length (gr_hits g ++ [h])))) as [Hge|Hlt].
  - split_and!; cbn; try done; try lia.
  - apply IH; [|done]. split_and!; cbn; try done; try lia.
Qed.

Lemma grep_entry_ok ws search max_matches cap entry g w g' w' :
  grep_ok max_matches cap g -> grep_entry os ws search max_matches cap entry g w = (Ok g', w') ->
  grep_ok max_matches cap g' /\ w' = w.
Proof.
  intros Hg. unfold grep_entry. destruct (gr_stop g) eqn:Es; [by intros [= <- <-]|].
  unfold bind, get, ret, lift. destruct (negb _ || _); [by intros [= <- <-]|].
  set (g1 := mkGrep _ _ _ _).
  assert (Hg1 : grep_ok max_matches cap g1).
  { destruct Hg as (H1 & H2 & H3 & H4). split_and!; cbn; auto. }
  destruct (resolve (get_fs w) entry) as [r|]; [|done].
  destruct (relative_to r ws) as [rel|]; [|by intros [= <- <-]].
  unfold try_except. rewrite read_bytes_spec.
  destruct (os_fault os w "read" entry); [by intros [= <- <-]|].
  destruct (stat (get_fs w) entry) as [[data| |]|]; cbn; intros [= <- <-]; try done.
  split; [|done]. by apply grep_lines_ok.
Qed.

Lemma for_each_ok {A S} (P : S -> Prop) (body : A -> S -> M W S) l : forall s w s' w',
  (forall x s w s' w', P s -> body x s w = (Ok s', w') -> P s' /\ w' = w) ->
  P s -> for_each l s body w = (Ok s', w') -> P s' /\ w' = w.
Proof.
  induction l as [|x l IH]; intros s w s' w' Hb Hp; simpl.
  { unfold ret. by intros [= <- <-]. }
  intros (s1 & w1 & H1 & H2)%bind_inv_ok. destruct (Hb _ _ _ _ _ Hp H1) as [Hp1 ->]. eauto.
Qed.

(** Listings fit.  The names [list_dir] returns and the hits [grep] returns,
    rendered one per line as the handlers render them, take at most
    [output_byte_cap] bytes and at most the requested number of lines; neither
    changes anything. *)
Theorem local_listings_bounded ctx w w' :
  0 <= tx_output_byte_cap ctx ->
  (forall p recursive max_entries out,
     local_list_dir os ctx p recursive max_entries w = (Ok out, w') ->
     w' = w /\ joined out <= tx_output_byte_cap ctx /\ Z.of_nat (length out) <= max_entries) /\
  (forall pattern globs max_matches hits,
     local_grep os ctx pattern globs max_matches w = (Ok hits, w') ->
     w' = w /\ joined (map render_hit hits) <= tx_output_byte_cap ctx /\
     Z.of_nat (length hits) <= max_matches).
Proof.
  intros Hcap. split.
  - intros p recursive max_entries out. unfold local_list_dir.
    destruct (Z.leb_spec max_entries 0); [done|]. unfold bind, lift, get, os_check.
    destruct (require_workspace os ctx) as [ws|]; [|done].
    destruct (if nonempty p then _ else _) as [target|]; [|done].
    destruct (is_dir (get_fs w) target); cbn [negb]; [|done].
    destruct (resolve (get_fs w) ws) as [root|]; [|done].
    destruct (os_fault os w "scandir" target); [done|]. intros [= Hl <-]. split; [done|].
    change 0 with (joined []) in Hl at 1. eapply list_entries_bounded; [exact Hl|..]; try done.
  - intros pattern globs max_matches hits. unfold local_grep.
    destruct (Z.leb_spec max_matches 0); [done|]. destruct (re_compile os pattern) as [search|]; [|done].
    unfold bind at 1 2 3, lift, get. destruct (require_workspace os ctx) as [ws|]; [|done].
    destruct (resolve (get_fs w) ws) as [root|]; [|done]. unfold grep_files.
    intros (g & w1 & H2 & H3)%bind_inv_ok. injection H3 as <- <-.
    eapply (for_each_ok (grep_ok max_matches (tx_output_byte_cap ctx))) in H2.
    + destruct H2 as [(H1 & H2 & H3 & _) ->]. split_and!; [done|lia|done].
    + clear. intros pattern g w g' w' Hg. destruct (gr_stop g); [by intros [= <- <-]|].
      unfold bind, get, lift. destruct (glob os (get_fs w) _ pattern) as [entries|]; [|done].
      apply for_each_ok; [|done]. intros. by eapply grep_entry_ok.
    + split_and!; cbn; try done; lia.
Qed.
End Facts.

(** ** A concrete host *)

Lemma run_fst {A B} (x : A * B) (a : A) : x.1 = a -> x = (a, x.2).
Proof. intros <-. by destruct x. Qed.

#[export] Instance FS_HasFS : HasFS FS := {
  get_fs := id; set_fs := fun f _ => f; get_set_fs := fun f w => eq_refl
}.

(** A host where every process exits with the code its first argument names;
    patterns match literally and [glob] lists the tree. *)
Definition demo_os (fault : FS -> string -> path -> option nat) : OsPorts FS := {|
  os_exec := fun argv _ _ _ w =>
    (Ok (if str_in argv "segfault" then Exited (-11) "" "" else Exited 0 "ok" ""), w);
  re_compile := fun p => if nonempty p then Some (str_contains p) else None;
  glob := fun fs root _ => Ok (rglob_all fs root);
  os_fault := fault; os_cwd := []; sys_executable := "python"
|}.
Definition no_fault : FS -> string -> path -> option nat := fun _ _ _ => None.
Definition demo_ctx : ToolContext := mkToolContext "t" "k" "tr" (Some "/srv/repo") 64.
Definition demo_host : FS := list_to_map
  [(["srv"], NDir); (["srv"; "repo"], NDir); (["srv"; "repo"; "a.txt"], NFile "old");
   (["srv"; "repo"; "notes.tmp"], NLink "/etc/passwd"); (["etc"], NDir);
   (["etc"; "passwd"], NFile "root")].

Lemma local_write_confined_witness :
  let '(r, w') := local_write (demo_os no_fault) demo_ctx "sub/b.txt" "new" demo_host in
  (forall q, ~ ["srv"; "repo"] `prefix_of` q -> get_fs w' !! q = get_fs demo_host !! q) /\
  match r with
  | Ok o =>
      o = mkEditOutcome ["sub/b.txt"] 3 /\
      exists target, resolve_within demo_host ["srv"; "repo"] "sub/b.txt" = Ok target /\
        get_fs w' !! target = Some (NFile "new") /\ get_fs w' !! tmp_path target = None
  | Err _ =>
      forall target, resolve_within demo_host ["srv"; "repo"] "sub/b.txt" = Ok target ->
        get_fs w' !! target = get_fs demo_host !! target
  end.
Proof.
  destruct (local_write (demo_os no_fault) demo_ctx "sub/b.txt" "new" demo_host) as [r w'] eqn:E.
  refine (local_write_confined (demo_os no_fault) demo_ctx "sub/b.txt" "new" demo_host r w'
            ["srv"; "repo"] ["srv"; "repo"] _ _ _ _ _ E).
  - vm_compute. reflexivity.
  - reflexivity.
  - vm_compute. reflexivity.
  - apply dir_chain_check. vm_compute. reflexivity.
  - intros target Ht. vm_compute in Ht. injection Ht as <-. split; [done|]. intros t. vm_compute. done.
Defined.

Lemma local_write_read_witness :
  local_read (demo_os no_fault) demo_ctx "a.txt" 0 None
    (local_write (demo_os no_fault) demo_ctx "a.txt" "new" demo_host).2 =
  (Ok "new", (local_write (demo_os no_fault) demo_ctx "a.txt" "new" demo_host).2).
Proof.
  destruct (local_write (demo_os no_fault) demo_ctx "a.txt" "new" demo_host) as [r w'] eqn:E.
  assert (r = Ok (mkEditOutcome ["a.txt"] 3)) as ->.
  { change r with (r, w').1. rewrite <- E. vm_compute. reflexivity. }
  refine (local_write_read (demo_os no_fault) demo_ctx "a.txt" "new" demo_host _ w'
            ["srv"; "repo"] ["srv"; "repo"] _ _ _ _ _ _ _ E).
  - vm_compute. reflexivity.
  - reflexivity.
  - vm_compute. reflexivity.
  - intros target Ht. vm_compute in Ht. injection Ht as <-. split; [|done].
    split; [done|]. intros t. vm_compute. done.
  - reflexivity.
  - vm_compute. done.
  - done.
Defined.

(** The two conditions of the confinement theorem are needed, and the code
    checks neither.  With a link at the temporary name, writing [notes] in the
    workspace overwrites the file the link points to, outside the workspace, and
    leaves the link in place of the target; writing [.] fails, but only after
    leaving a file beside the workspace. *)
Theorem write_escapes_workspace :
  (exists w', local_write (demo_os no_fault) demo_ctx "notes" "pwned" demo_host =
                (Ok (mkEditOutcome ["notes"] 5), w') /\
     w' !! ["etc"; "passwd"] = Some (NFile "pwned") /\
     w' !! ["srv"; "repo"; "notes"] = Some (NLink "/etc/passwd")) /\
  (exists w', local_write (demo_os no_fault) demo_ctx "." "x" demo_host =
                (Err (ToolExecutionError "write failed: IsADirectoryError"), w') /\
     w' !! ["srv"; "repo.tmp"] = Some (NFile "x") /\ demo_host !! ["srv"; "repo.tmp"] = None).
Proof.
  split.
  - exists (local_write (demo_os no_fault) demo_ctx "notes" "pwned" demo_host).2.
    split; [apply run_fst; vm_compute; reflexivity|]. split; vm_compute; reflexivity.
  - exists (local_write (demo_os no_fault) demo_ctx "." "x" demo_host).2.
    split; [apply run_fst; vm_compute; reflexivity|]. split; vm_compute; reflexivity.
Qed.

Lemma local_read_confined_witness :
  exists ws root rel data cap,
    require_workspace (demo_os no_fault) demo_ctx = Ok ws /\ resolve (get_fs demo_host) ws = Ok root /\
    get_fs demo_host !! (root ++ rel) = Some (NFile data) /\ real (get_fs demo_host) (root ++ rel) /\
    effective_cap demo_ctx None = Ok cap /\ 0 < cap <= tx_output_byte_cap demo_ctx /\
    "ld" = decode_replace (str_take (Z.to_nat cap) (String.substring 1 (String.length data) data)) /\
    2 <= 3 * cap.
Proof.
  apply (local_read_confined (demo_os no_fault) demo_ctx "a.txt" 1 None demo_host (Ok "ld") demo_host).
  - vm_compute. reflexivity.
  - reflexivity.
Defined.

Lemma local_listings_bounded_witness :
  exists out, (local_list_dir (demo_os no_fault) demo_ctx "" true 10 demo_host).1 = Ok out /\
    out = ["a.txt"] /\ joined out <= 64.
Proof.
  set (run := local_list_dir (demo_os no_fault) demo_ctx "" true 10 demo_host).
  destruct (local_listings_bounded (demo_os no_fault) demo_ctx demo_host run.2 ltac:(done)) as [Hl _].
  assert (E : run.1 = Ok ["a.txt"]) by (vm_compute; reflexivity).
  exists ["a.txt"]. split; [exact E|]. split; [done|].
  exact (proj1 (proj2 (Hl "" true 10 ["a.txt"] (run_fst run _ E)))).
Defined.
