(* ===== verification/ToolFacts.v ===== *)
(** * ToolFacts: the handlers, their schemas and the tools behind the executor *)

From S2P Require Import Prelude PyText Utf8 Domain GraphRuntime SystemGraphs Gates Results ShellAgent BugFix Tools LocalHandlers FileSystem LocalWorkspace LocalWorkspaceFacts.
Import Utf8.

(** ** What the advertised schemas mean

    The part of JSON Schema the specs use, as a checker. *)

Definition type_ok (t : string) (v : json) : bool :=
  match v with
  | JNull => String.eqb t "null"
  | JBool _ => String.eqb t "boolean"
  | JInt _ => String.eqb t "integer" || String.eqb t "number"
  | JFloat _ => String.eqb t "number"
  | JStr _ => String.eqb t "string"
  | JList _ => String.eqb t "array"
  | JDict _ => String.eqb t "object"
  end.
Definition types_ok (t : json) (v : json) : bool :=
  match t with
  | JStr s => type_ok s v
  | JList l => existsb (fun x => match x with JStr s => type_ok s v | _ => false end) l
  | _ => false
  end.
(** [items] is checked one level deep, which is all the specs need; numeric
    bounds are left to the tools. *)
Definition value_ok (schema : dict) (v : json) : bool :=
  types_ok (getd schema "type") v &&
  match dget schema "items", v with
  | Some (JDict i), JList l => forallb (types_ok (getd i "type")) l
  | _, _ => true
  end &&
  match dget schema "minItems", v with
  | Some (JInt n), JList l => n <=? Z.of_nat (length l)
  | _, _ => true
  end.
Definition schema_ok (params args : dict) : bool :=
  match dget params "properties", dget params "required" with
  | Some (JDict props), Some (JList required) =>
      forallb (fun kv => match dget props kv.1 with
                         | Some (JDict p) => value_ok p kv.2
                         | _ => false
                         end) args
      && forallb (fun k => match k with JStr s => dmem args s | _ => false end) required
  | _, _ => false
  end.

Lemma schema_prop params args props required k v :
  schema_ok params args = true -> dget args k = Some v ->
  dget params "properties" = Some (JDict props) -> dget params "required" = Some (JList required) ->
  exists p, dget props k = Some (JDict p) /\ value_ok p v = true.
Proof.
  intros Hs Hv Hp Hr. unfold schema_ok in Hs. rewrite Hp, Hr in Hs.
  apply andb_true_iff in Hs as [H1 _].
  apply dget_In in Hv. rewrite forallb_forall in H1.
  specialize (H1 (k, v) (proj1 (list_elem_of_In _ _) Hv)). simpl in H1.
  destruct (dget props k) as [[]|]; try done. eauto.
Qed.

Lemma schema_required params args props required k :
  schema_ok params args = true -> dget params "properties" = Some (JDict props) ->
  dget params "required" = Some (JList required) -> In (JStr k) required -> exists v, dget args k = Some v.
Proof.
  intros Hs Hp Hr Hk. unfold schema_ok in Hs. rewrite Hp, Hr in Hs.
  apply andb_true_iff in Hs as [_ H2].
  rewrite forallb_forall in H2. specialize (H2 _ Hk). simpl in H2. unfold dmem in H2.
  destruct (dget args k); [eauto|done].
Qed.

(** ** What each handler accepts *)

Definition check {A} (r : res A) : res unit := match r with Ok _ => Ok tt | Err e => Err e end.
Fixpoint all_checks (l : list (res unit)) : res unit :=
  match l with [] => Ok tt | Ok _ :: l' => all_checks l' | Err e :: _ => Err e end.

(** The argument helpers each handler runs before it calls its tool. *)
Definition argument_checks (args : dict) : list (string * list (res unit)) :=
  let str k := check (arg_str args k None) in
  let opt_str k := check (arg_str args k (Some "")) in
  let int k d := check (arg_int args k d) in
  let int_or_none k := check (arg_int_or_none args k) in
  let strs k d := check (arg_str_tuple args k d) in
  [(TOOL_FS_READ, [str "path"; int "offset" 0; int_or_none "max_bytes"]);
   (TOOL_FS_LIST_DIR,
     [opt_str "path"; check (arg_bool args "recursive" false); int "max_entries" 1000]);
   (TOOL_FS_GREP, [str "pattern"; strs "path_globs" ["**/*"]; int "max_matches" 200]);
   (TOOL_EDIT_WRITE, [str "path"; str "content"]);
   (TOOL_EDIT_PATCH_APPLY, [str "unified_diff"]);
   (TOOL_SHELL_RUN, [check (arg_argv args "argv"); int_or_none "timeout_seconds"]);
   (TOOL_TEST_RUN, [str "suite"; strs "targets" []; int_or_none "timeout_seconds"]);
   (TOOL_WEB_FETCH, [str "url"; check (arg_float_or_none args "timeout_seconds")]);
   (TOOL_DOC_SEARCH, [str "query"; int "limit" 5]);
   (TOOL_CODE_SEARCH, [str "query"; strs "path_globs" ["**/*"]; opt_str "language"; int "limit" 20]);
   (TOOL_GET_DEFINITION, [str "symbol"; strs "path_globs" ["**/*"]; opt_str "language"]);
   (TOOL_GET_REFERENCES,
     [str "symbol"; strs "path_globs" ["**/*"]; opt_str "language"; int "limit" 200]);
   (TOOL_OUTLINE, [str "path"])].
Definition accepts (name : string) (args : dict) : res unit :=
  all_checks (default [] (dget (argument_checks args) name)).

(** A refused argument is a validation error. *)
Definition refused (c : res unit) : Prop := forall e, c = Err e -> exists m, e = ToolValidationError m.

Ltac refused_tac :=
  intros e; unfold check, argument_must; split_matches; intros; simplify_eq/=; eauto.
Lemma refused_str args k d : refused (check (arg_str args k d)).
Proof. unfold arg_str. refused_tac. Qed.
Lemma refused_int args k d : refused (check (arg_int args k d)).
Proof. unfold arg_int. refused_tac. Qed.
Lemma refused_int_or_none args k : refused (check (arg_int_or_none args k)).
Proof. unfold arg_int_or_none. refused_tac. Qed.
Lemma refused_bool args k d : refused (check (arg_bool args k d)).
Proof. unfold arg_bool. refused_tac. Qed.
Lemma refused_tuple args k d : refused (check (arg_str_tuple args k d)).
Proof. unfold arg_str_tuple. refused_tac. Qed.
Lemma refused_argv args k : refused (check (arg_argv args k)).
Proof. unfold arg_argv. refused_tac. Qed.
Lemma refused_float args k : refused (check (arg_float_or_none args k)).
Proof. unfold arg_float_or_none. refused_tac. Qed.
#[export] Hint Resolve refused_str refused_int refused_int_or_none refused_bool refused_tuple
  refused_argv refused_float : meta.

Lemma all_checks_err l e : all_checks l = Err e -> In (Err e) l.
Proof. induction l as [|[[]|x] l IH]; simpl; [done|auto|]. intros [= ->]. by left. Qed.

Lemma all_checks_ok c l : c = Ok tt -> all_checks l = Ok tt -> all_checks (c :: l) = Ok tt.
Proof. by intros ->. Qed.

Lemma accepts_err name args e : accepts name args = Err e -> exists m, e = ToolValidationError m.
Proof.
  unfold accepts. intros H%all_checks_err.
  assert (Hall : Forall (fun kv => Forall refused kv.2) (argument_checks args)).
  { unfold argument_checks. repeat (constructor; [cbn [snd]; repeat constructor; auto with meta|]).
    constructor. }
  destruct (dget (argument_checks args) name) as [l|] eqn:E; [|done]. apply dget_In in E.
  rewrite Forall_forall in Hall. specialize (Hall _ E). rewrite Forall_forall in Hall.
  exact (Hall _ (proj2 (list_elem_of_In _ _) H) e eq_refl).
Qed.

Section Handlers.
Context {W : Type} (fmt3 : Score -> string).
Implicit Types (t : LocalTools W).

(** Enumerate the registrations. *)
Ltac each_tool H :=
  unfold local_registrations, when_some in H; rewrite !in_app_iff in H;
  destruct H as [H|[H|[H|[H|H]]]];
  repeat match type of H with context [match ?o with Some _ => _ | None => _ end] => destruct o end;
  cbn [In] in H; repeat match type of H with _ \/ _ => destruct H as [H|H] end; try done;
  injection H as <- <-.

(** Compute the list of checks of a named tool. *)
Ltac tool_checks :=
  unfold accepts;
  cbn -[check all_checks arg_str arg_int arg_int_or_none arg_bool arg_str_tuple arg_argv
        arg_float_or_none bind lift ret fs_read fs_list_dir fs_grep edit_write edit_patch_apply
        shell_run test_run web_fetch doc_search code_search code_get_definition
        code_get_references code_outline observation].

Lemma handler_checks t spec h call ctx w e :
  In (spec, h) (local_registrations fmt3 t) ->
  accepts (ts_name spec) (tc_arguments call) = Err e -> h call ctx w = (Err e, w).
Proof.
  intros Hin. each_tool Hin; tool_checks;
  unfold fs_read_handler, fs_list_dir_handler, fs_grep_handler, edit_write_handler,
    edit_patch_apply_handler, shell_run_handler, test_run_handler, web_fetch_handler,
    doc_search_handler, code_search_handler, get_definition_handler, get_references_handler,
    outline_handler, bind, lift;
  repeat match goal with
  | |- context [check ?x] => destruct x; cbn [check all_checks]
  end; intros Hx; try discriminate Hx; by injection Hx as <-.
Qed.

Lemma all_str_ok l : forallb (types_ok (JStr "string")) l = true -> exists xs, all_str l = Some xs.
Proof.
  unfold all_str. induction l as [|v l IH]; simpl; [by exists []|].
  intros [Hv Hl]%andb_true_iff. destruct (IH Hl) as [xs Hxs]. destruct v; try done.
  simpl. rewrite Hxs. by eexists.
Qed.

(** Close one check from the schema of its argument: [Hs] is the schema check,
    [Hl] says that [language] is not null. *)
Ltac check_argument args Hs Hl :=
  match goal with
  | |- context [dget args ?k] =>
      let v := fresh "v" in let E := fresh "E" in
      destruct (dget args k) as [v|] eqn:E;
      [ let p := fresh "p" in let Hp := fresh "Hp" in let Hv := fresh "Hv" in
        destruct (schema_prop _ _ _ _ k v Hs E eq_refl eq_refl) as (p & Hp & Hv);
        cbn in Hp; first [discriminate Hp | injection Hp as <-];
        destruct v; first [cbn in Hv; discriminate Hv | reflexivity | congruence | idtac];
        first
          [ let xs := fresh "xs" in let Hxs := fresh "Hxs" in
            unfold value_ok in Hv; rewrite !andb_true_iff in Hv;
            destruct (all_str_ok _ (proj2 (proj1 Hv))) as [xs Hxs];
            first [ rewrite Hxs; reflexivity
                  | match type of Hxs with all_str ?l = _ => destruct l; [cbn in Hv; naive_solver|] end;
                    rewrite Hxs; reflexivity ] ]
      | first [ reflexivity
              | exfalso;
                destruct (schema_required _ _ _ _ k Hs eq_refl eq_refl) as [? ?];
                [cbn; auto|congruence] ] ]
  end.

Lemma schema_accepted t spec h args :
  In (spec, h) (local_registrations fmt3 t) -> schema_ok (ts_parameters spec) args = true ->
  dget args "language" <> Some JNull -> accepts (ts_name spec) args = Ok tt.
Proof.
  intros Hin. each_tool Hin; intros Hs Hl; tool_checks;
  repeat (apply all_checks_ok;
    [unfold arg_str, arg_int, arg_int_or_none, arg_bool, arg_str_tuple, arg_argv, arg_float_or_none;
     check_argument args Hs Hl|]); reflexivity.
Qed.

(** The handlers keep to the schemas they advertise.  Arguments that satisfy
    a tool's schema pass all of its handler's checks, an explicit null for
    [language] excepted; arguments that fail a check never reach the tool: the
    handler raises a validation error, which the executor turns into an
    observation, and nothing has changed. *)
Theorem schema_and_handlers_agree t spec h call ctx w :
  In (spec, h) (local_registrations fmt3 t) ->
  (schema_ok (ts_parameters spec) (tc_arguments call) = true ->
   dget (tc_arguments call) "language" <> Some JNull ->
   accepts (ts_name spec) (tc_arguments call) = Ok tt) /\
  (forall e, accepts (ts_name spec) (tc_arguments call) = Err e ->
     h call ctx w = (Err e, w) /\ exists m, e = ToolValidationError m).
Proof.
  intros Hin. split; [by eapply schema_accepted|].
  intros e He. split; [by eapply handler_checks|by eapply accepts_err].
Qed.

(** ** Registration *)

Definition entries (l : list (ToolSpec * ToolHandler W)) : ToolRegistry W :=
  map (fun e => (ts_name e.1, mkRegistered e.1 e.2)) l.

Lemma entries_names l : (entries l).*1 = map (fun e => ts_name e.1) l.
Proof. induction l; [done|]. cbn. by f_equal. Qed.

Lemma register_all_ok (r : ToolRegistry W) l :
  NoDup (r.*1 ++ (entries l).*1) -> register_all r l = Ok (r ++ entries l).
Proof.
  revert r. induction l as [|[spec h] l IH]; intros r Hnd; simpl.
  { by rewrite app_nil_r. }
  unfold register, dmem.
  assert (dget r (ts_name spec) = None) as E.
  { apply dget_None_iff. cbn in Hnd. apply NoDup_app in Hnd as (_ & Hnd & _).
    intros Hin. apply (Hnd _ Hin). set_solver. }
  rewrite E. cbn [res_bind]. rewrite dset_absent by done. rewrite IH.
  - by rewrite <- app_assoc.
  - rewrite fmap_app, <- app_assoc. exact Hnd.
Qed.

Lemma register_all_dup (r : ToolRegistry W) spec h l :
  dget r (ts_name spec) <> None -> exists m, register_all r ((spec, h) :: l) = Err (ToolValidationError m).
Proof.
  intros Hd. simpl. unfold register, dmem. destruct (dget r (ts_name spec)); [|done]. by eexists.
Qed.

Lemma local_names_NoDup t : NoDup (entries (local_registrations fmt3 t)).*1.
Proof.
  rewrite entries_names. unfold local_registrations, when_some.
  destruct (lo_test t), (lo_web_fetch t), (lo_doc_search t), (lo_code_retrieval t);
    apply (bool_decide_unpack _); vm_compute; reflexivity.
Qed.

Lemma local_registered t spec h :
  In (spec, h) (local_registrations fmt3 t) ->
  dget (entries (local_registrations fmt3 t)) (ts_name spec) = Some (mkRegistered spec h).
Proof.
  intros Hin. apply dget_unique; [apply local_names_NoDup|].
  apply list_elem_of_In. apply (in_map (fun e => (ts_name e.1, mkRegistered e.1 e.2))) in Hin. exact Hin.
Qed.

(** Booting the tools on an empty registry succeeds whatever optional tools
    are configured, and each tool is then found, with its own handler, under the
    name it advertises; booting twice is refused. *)
Theorem local_tools_registered t :
  exists r, register_local_workspace_tools fmt3 empty_registry t = Ok r /\ registry_wf r /\
    (forall spec h, In (spec, h) (local_registrations fmt3 t) ->
       registry_get r (ts_name spec) = Ok (mkRegistered spec h)) /\
    (forall n, n ∈ registry_names r <->
       exists spec h, In (spec, h) (local_registrations fmt3 t) /\ ts_name spec = n) /\
    exists m, register_local_workspace_tools fmt3 r t = Err (ToolValidationError m).
Proof.
  exists (entries (local_registrations fmt3 t)). split_and!.
  - unfold register_local_workspace_tools. apply (register_all_ok []). apply local_names_NoDup.
  - split; [apply local_names_NoDup|]. unfold entries. apply Forall_forall. intros e He.
    apply list_elem_of_In, in_map_iff in He as (x & <- & _). done.
  - intros spec h Hin. unfold registry_get. by rewrite (local_registered t spec h Hin).
  - intros n. unfold registry_names. rewrite elem_of_list_to_set, entries_names, list_elem_of_In, in_map_iff.
    split; [intros ([spec h] & <- & Hin)|intros (spec & h & Hin & <-)]; eauto.
    by exists (spec, h).
  - unfold register_local_workspace_tools. unfold local_registrations at 2. cbn [app].
    apply register_all_dup. rewrite (local_registered t FS_READ_SPEC (fs_read_handler (lo_fs t))); [done|].
    by left.
Qed.
End Handlers.

(** An explicit null [language] satisfies the schema of the code search tool
    and is refused by its handler, for every implementation of the tool. *)
Theorem null_language_refused {W} (code : CodeRetrievalTool W) ctx w :
  let call := mkToolCall "c" TOOL_CODE_SEARCH [("query", JStr "x"); ("language", JNull)] in
  schema_ok (ts_parameters CODE_SEARCH_SPEC) (tc_arguments call) = true /\
  code_search_handler code call ctx w = (Err (argument_must "language" "a string"), w).
Proof. split; reflexivity. Qed.

(** ** The local tools behind the executor *)

Section EndToEnd.
Context {W : Type} `{HasFS W} (os : OsPorts W) (fmt3 : Score -> string) (sh : LocalShell) (lt : LocalTest).

(** The tools a worker without web, documents and code index registers. *)
Definition local_tools : LocalTools W :=
  mkLocalTools (LocalWorkspaceFileSystemTool os) (LocalWorkspaceEditTool os)
    (LocalWorkspaceShellTool os sh) (Some (LocalWorkspaceTestTool os lt)) None None None.
Definition local_executor (max_result_bytes : Z) : ToolExecutor W :=
  mkExecutor (entries (local_registrations fmt3 local_tools)) max_result_bytes.

(** Executing a registered tool whose handler returns text within the cap. *)
Lemma execute_local max_bytes spec h call ctx w r w' :
  In (spec, h) (local_registrations fmt3 local_tools) -> tc_name call = ts_name spec ->
  h call ctx w = (Ok r, w') -> tl_truncated r = false ->
  Z.of_nat (String.length (tl_content r)) <= Z.min max_bytes (tx_output_byte_cap ctx) ->
  0 < max_bytes -> 0 < tx_output_byte_cap ctx ->
  execute (local_executor max_bytes) call ctx w = (Ok r, w').
Proof.
  intros Hin Hn Hr Ht Hlen Hm Hc. unfold execute, registry_get, executor_cap. cbn [te_registry local_executor].
  rewrite Hn, (local_registered fmt3 local_tools spec h Hin). cbn [rt_handler].
  unfold bind, try_except. rewrite Hr. cbn. unfold bound, truncate_utf8.
  cbn [te_max_result_bytes local_executor].
  destruct (Z.leb_spec (Z.min max_bytes (tx_output_byte_cap ctx)) 0); [lia|].
  destruct (Z.leb_spec (Z.of_nat (String.length (tl_content r))) (Z.min max_bytes (tx_output_byte_cap ctx)));
    [|lia]. cbn. by rewrite String.eqb_refl.
Qed.

(** C20: through the registry, the handlers and the executor, what the agent
    writes with [edit_write] it observes with [fs_read].  If a write of valid UTF-8
    that fits both byte caps (the executor's and the context's, both positive) is
    observed without an error, where the path names something below the workspace
    and no link stands at its temporary name, and the file can be read back, then the following read of the same path is an
    observation of exactly that content, without error and not truncated, and it
    changes nothing. *)
Theorem tool_write_read max_bytes ctx ws root p content w o w' id1 id2 :
  rooted (get_fs w) -> require_workspace os ctx = Ok ws -> resolve (get_fs w) ws = Ok root ->
  (forall target, resolve_within (get_fs w) ws p = Ok target ->
                  safe_target (get_fs w) root target /\ os_fault os w' "read" target = None) ->
  valid content = true ->
  Z.of_nat (String.length content) <= Z.min max_bytes (tx_output_byte_cap ctx) ->
  0 < max_bytes -> 0 < tx_output_byte_cap ctx ->
  execute (local_executor max_bytes)
    (mkToolCall id1 TOOL_EDIT_WRITE [("path", JStr p); ("content", JStr content)]) ctx w = (Ok o, w') ->
  tl_is_error o = false ->
  execute (local_executor max_bytes) (mkToolCall id2 TOOL_FS_READ [("path", JStr p)]) ctx w' =
    (Ok (mkToolResult id2 TOOL_FS_READ content false false []), w').
Proof.
  intros H0 Hws Hroot Hsafe Hv Hlen Hm Hc Hexec Hok.
  assert (exists eo, local_write os ctx p content w = (Ok eo, w')) as [eo Hw].
  { revert Hexec. unfold execute, registry_get. cbn [te_registry local_executor tc_name].
    change TOOL_EDIT_WRITE with (ts_name EDIT_WRITE_SPEC) at 1.
    rewrite (local_registered fmt3 local_tools EDIT_WRITE_SPEC
               (edit_write_handler (LocalWorkspaceEditTool os)) ltac:(cbn; tauto)).
    cbn [rt_handler]. unfold bind, try_except, edit_write_handler, bind, lift.
    cbn [tc_arguments arg_str dget String.eqb Ascii.eqb eqb edit_write LocalWorkspaceEditTool].
    destruct (local_write os ctx p content w) as [[eo|e] w1]; cbn.
    - intros [= _ <-]. by exists eo.
    - destruct (tool_error e) as [m|]; cbn; [|done]. intros [= <- _].
      unfold error_result in Hok. by destruct (truncate_utf8 _ _). }
  eapply (execute_local _ FS_READ_SPEC (fs_read_handler (LocalWorkspaceFileSystemTool os)));
    [cbn; tauto|done| |done|cbn [tl_content]; lia|done|done].
  unfold fs_read_handler, bind, lift.
  cbn [tc_arguments arg_str arg_int arg_int_or_none dget String.eqb Ascii.eqb eqb fs_read
       LocalWorkspaceFileSystemTool].
  rewrite (local_write_read os ctx p content w eo w' ws root); try done. lia.
Qed.

(** What the shell tool starts, and what it reports. *)
Lemma local_shell_run_cases ctx argv timeout_seconds w r w' :
  local_shell_run os sh ctx argv timeout_seconds w = (r, w') ->
  (w' = w /\ exists m, r = Err (ToolValidationError m) \/ r = Err (ToolPermissionError m)) \/
  (exists argv0 rest, argv = argv0 :: rest /\
     str_in (ls_allowed sh) (path_name (path_parts argv0)) = true /\
     0 < default (ls_timeout sh) timeout_seconds /\
     exists x, os_exec os argv (workspace_str ctx) None (default (ls_timeout sh) timeout_seconds) w = (x, w') /\
     match x with
     | Ok (Exited code stdout stderr) =>
         r = Ok (mkShellOutcome argv (Z.max code 0) (decode_bounded stdout (tx_output_byte_cap ctx))
                   (decode_bounded stderr (tx_output_byte_cap ctx)) false)
     | Ok TimedOut => exists m, r = Err (ToolExecutionError m)
     | Err e => r = Err e
     end).
Proof.
  unfold local_shell_run. destruct argv as [|argv0 rest]; [intros [= <- <-]; left; eauto|].
  destruct (str_in _ _) eqn:Ea; cbn [negb]; [|intros [= <- <-]; left; eauto].
  destruct (Z.leb_spec (default (ls_timeout sh) timeout_seconds) 0); [intros [= <- <-]; left; eauto|].
  unfold bind, lift, require_workspace.
  destruct (tx_workspace_path ctx); [|intros [= <- <-]; left; eauto].
  intros Hx. right. exists argv0, rest. split_and!; [done..|].
  destruct (os_exec os (argv0 :: rest) _ None _ w) as [x w1]. exists x.
  destruct x as [[code out err|]|e]; injection Hx as <- <-; eauto.
Qed.

(** A shell command is started only if its file name is in the allow-list and
    its timeout is positive; otherwise the call fails and nothing runs.  A
    process that exits is an observation, with an error flag exactly when its
    return code is positive: a process killed by a signal, whose return code is
    negative, is reported with exit code 0 and no error. *)
Theorem shell_run_reports call ctx w r w' argv timeout_seconds :
  arg_argv (tc_arguments call) "argv" = Ok argv ->
  arg_int_or_none (tc_arguments call) "timeout_seconds" = Ok timeout_seconds ->
  shell_run_handler (LocalWorkspaceShellTool os sh) call ctx w = (r, w') ->
  (w' = w /\ exists m, r = Err (ToolValidationError m) \/ r = Err (ToolPermissionError m)) \/
  (exists argv0 rest x, argv = argv0 :: rest /\
     str_in (ls_allowed sh) (path_name (path_parts argv0)) = true /\
     os_exec os argv (workspace_str ctx) None (default (ls_timeout sh) timeout_seconds) w = (x, w') /\
     match x with
     | Ok (Exited code _ _) =>
         exists obs, r = Ok obs /\ tl_is_error obs = (0 <? code) /\
           tl_metadata obs = [("exit_code", pretty (Z.max code 0))]
     | Ok TimedOut => exists m, r = Err (ToolExecutionError m)
     | Err e => r = Err e
     end).
Proof.
  intros Ha Ht. unfold shell_run_handler, bind, lift. rewrite Ha, Ht. cbn [shell_run LocalWorkspaceShellTool].
  destruct (local_shell_run os sh ctx argv timeout_seconds w) as [r0 w0] eqn:E0.
  apply local_shell_run_cases in E0 as [(-> & m & Hm)|(argv0 & rest & -> & Hin & _ & x & Hx & Hr)].
  - left. destruct Hm as [-> | ->]; simplify_eq/=; eauto.
  - intros Hres. right. exists argv0, rest, x.
    destruct x as [[code out err|]|e].
    + subst r0. unfold ret in Hres. injection Hres as <- <-. split_and!; try done.
      eexists. split; [reflexivity|]. cbn. split; [|done].
      destruct (Z.ltb_spec 0 code); destruct (Z.eqb_spec (Z.max code 0) 0); try done; lia.
    + destruct Hr as [m ->]. injection Hres as <- <-. eauto 10.
    + subst r0. injection Hres as <- <-. eauto 10.
Qed.

Lemma local_test_run_exited ctx suite targets base extra ws code out err w w' :
  suite <> "" -> dget (lt_suites lt) suite = Some base -> 0 < lt_timeout lt ->
  require_workspace os ctx = Ok ws -> suite_targets (get_fs w) ws suite targets = Ok extra ->
  os_exec os (base ++ extra) (workspace_str ctx) None (lt_timeout lt) w = (Ok (Exited code out err), w') ->
  local_test_run os lt ctx suite targets None w =
    (Ok (mkTestOutcome suite (base ++ extra) (Z.max code 0)
           (decode_bounded out (tx_output_byte_cap ctx))
           (decode_bounded err (tx_output_byte_cap ctx)) false), w').
Proof.
  intros Hs Hb Ht Hws Hx He. unfold local_test_run. apply nonempty_true in Hs. rewrite Hs, Hb.
  cbn [negb default from_option]. destruct (Z.leb_spec (lt_timeout lt) 0); [lia|].
  unfold bind, lift, get. rewrite Hws, Hx, He. done.
Qed.

Lemma all_str_map l : all_str (map JStr l) = Some l.
Proof. unfold all_str. induction l as [|x l IH]; [done|]. cbn. by rewrite IH. Qed.

(** The bug fix graph's verification over the local test tool passes exactly
    when the suite's process returns a code that is not positive.  A suite that
    is killed by a signal, a crash of the interpreter or the kernel's memory
    killer, has a negative code and so verifies the change. *)
Theorem verification_passes_iff s max_bytes changed ws suite base extra cap code out err w w1 report w' :
  verify_suite s = Ok suite -> suite <> "" -> changed <> [] ->
  dget (lt_suites lt) suite = Some base -> 0 < lt_timeout lt -> 0 < max_bytes -> 0 < cap ->
  get_or (data s) "output_byte_cap" (JInt 65536) = JInt cap ->
  suite_targets (get_fs w) (join_path (os_cwd os) ws) suite changed = Ok extra ->
  os_exec os (base ++ extra) (py_path ws) None (lt_timeout lt) w = (Ok (Exited code out err), w1) ->
  verify_with_test_tool (execute (local_executor max_bytes)) s changed ws w = (Ok report, w') ->
  getd report "passed" = JBool (code <=? 0).
Proof.
  intros Hsuite Hne Hch Hb Ht Hm Hcap Hget Hx He. unfold verify_with_test_tool, bind at 1, lift at 1.
  rewrite Hsuite. destruct changed as [|c0 changed]; [done|]. rewrite Hget.
  destruct (Z.leb_spec cap 0); [lia|].
  set (call := mkToolCall _ _ _). set (ctx := mkToolContext _ _ _ _ _).
  set (spec := TEST_RUN_SPEC). set (h := test_run_handler (LocalWorkspaceTestTool os lt)).
  assert (Hreg : registry_get (te_registry (local_executor max_bytes)) (tc_name call)
                 = Ok (mkRegistered spec h)).
  { change (tc_name call) with (ts_name spec). unfold registry_get. cbn [te_registry local_executor].
    rewrite (local_registered fmt3 local_tools spec h ltac:(cbn; tauto)). done. }
  assert (Hh : exists obs, h call ctx w = (Ok obs, w1) /\ tl_is_error obs = (0 <? code)).
  { unfold h, test_run_handler, bind, lift. cbn [tc_arguments call].
    unfold arg_str, arg_str_tuple, arg_int_or_none.
    cbn [dget String.eqb Ascii.eqb eqb]. change (JStr c0 :: map JStr changed) with (map JStr (c0 :: changed)).
    rewrite all_str_map. cbn [test_run LocalWorkspaceTestTool].
    rewrite (local_test_run_exited ctx suite (c0 :: changed) base extra _ code out err w w1 Hne Hb Ht
               eq_refl Hx He).
    eexists. split; [reflexivity|]. cbn.
    destruct (Z.ltb_spec 0 code); destruct (Z.eqb_spec (Z.max code 0) 0); try done; lia. }
  destruct Hh as (obs & Hobs & Herr). intros (r & w2 & Hr & Hv)%bind_inv_ok.
  unfold execute in Hr. rewrite Hreg in Hr. cbn [rt_handler] in Hr.
  unfold bind, try_except, ret in Hr. rewrite Hobs in Hr. injection Hr as <- <-.
  apply bind_inv_ok in Hv as (code' & w3 & _ & Hv). unfold lift in Hv.
  destruct (bound_fields obs (executor_cap (local_executor max_bytes) ctx)) as (_ & _ & Hb3 & _).
  rewrite Hb3, Herr in Hv. unfold build_verifier_report in Hv.
  destruct (split_verifier_output _); [|done]. cbn [res_bind] in Hv. injection Hv as <- _.
  cbn. by rewrite Z.leb_antisym.
Qed.
End EndToEnd.

(** ** Witnesses *)

Definition demo_call : ToolCall := mkToolCall "c1" TOOL_FS_READ [("path", JStr "a.txt")].
Definition demo_shell : LocalShell := mkLocalShell ["python"] 60.
Definition demo_tests : LocalTest := mkLocalTest [("python_test", ["segfault"])] 120.
Definition demo_exec : ToolExecutor FS :=
  local_executor (demo_os no_fault) (fun _ => "0.000") demo_shell demo_tests 2.

Lemma execute_bounded_witness :
  exists r, execute demo_exec demo_call demo_ctx demo_host = (Ok r, demo_host) /\
    tl_content r = "ol" /\ tl_truncated r = true /\
    Z.of_nat (String.length (tl_content r)) <= executor_cap demo_exec demo_ctx.
Proof.
  pose proof (execute_bounded demo_exec demo_call demo_ctx demo_host eq_refl eq_refl) as Hx.
  assert (E2 : execute demo_exec demo_call demo_ctx demo_host =
               (Ok (mkToolResult "c1" TOOL_FS_READ "ol" false true []), demo_host)) by reflexivity.
  rewrite E2 in Hx. destruct Hx as [Hx _].
  exists (mkToolResult "c1" TOOL_FS_READ "ol" false true []). by split_and!.
Defined.

Lemma registry_spec_witness :
  register (te_registry demo_exec) OUTLINE_SPEC (fun _ _ w => (Err OutOfFuel, w)) <> Err OutOfFuel /\
  (exists m, register (te_registry demo_exec) FS_READ_SPEC (fun _ _ w => (Err OutOfFuel, w)) =
               Err (ToolValidationError m)).
Proof.
  assert (Hwf : registry_wf (te_registry demo_exec)).
  { split; [apply local_names_NoDup|]. repeat constructor. }
  split; [done|].
  pose proof (registry_spec (te_registry demo_exec) FS_READ_SPEC (fun _ _ w => (Err OutOfFuel, w)) Hwf) as Hx.
  revert Hx. destruct (register _ _ _) as [r|e] eqn:E; [done|]. intros (_ & m & ->). by exists m.
Defined.

Lemma schema_and_handlers_agree_witness :
  fs_read_handler (LocalWorkspaceFileSystemTool (demo_os no_fault))
    (mkToolCall "c" TOOL_FS_READ [("path", JInt 3)]) demo_ctx demo_host =
  (Err (argument_must "path" "a string"), demo_host) /\
  accepts TOOL_FS_READ (tc_arguments demo_call) = Ok tt.
Proof.
  set (tools := local_tools (demo_os no_fault) demo_shell demo_tests).
  set (h := fs_read_handler (LocalWorkspaceFileSystemTool (demo_os no_fault))).
  assert (Hin : In (FS_READ_SPEC, h) (local_registrations (fun _ => "0.000") tools)) by (by left).
  split.
  - destruct (schema_and_handlers_agree (fun _ => "0.000") tools FS_READ_SPEC h
                (mkToolCall "c" TOOL_FS_READ [("path", JInt 3)]) demo_ctx demo_host Hin) as [_ Hx].
    apply (Hx (argument_must "path" "a string")). reflexivity.
  - destruct (schema_and_handlers_agree (fun _ => "0.000") tools FS_READ_SPEC h demo_call demo_ctx demo_host Hin)
      as [Hx _]. apply Hx; [reflexivity|done].
Defined.

Lemma tool_write_read_witness :
  let x := local_executor (demo_os no_fault) (fun _ => "0.000") demo_shell demo_tests 64 in
  let w' := (execute x (mkToolCall "a" TOOL_EDIT_WRITE [("path", JStr "a.txt"); ("content", JStr "new")])
               demo_ctx demo_host).2 in
  execute x (mkToolCall "b" TOOL_FS_READ [("path", JStr "a.txt")]) demo_ctx w' =
    (Ok (mkToolResult "b" TOOL_FS_READ "new" false false []), w').
Proof.
  intros x w'.
  refine (tool_write_read (demo_os no_fault) (fun _ => "0.000") demo_shell demo_tests 64 demo_ctx
            ["srv"; "repo"] ["srv"; "repo"] "a.txt" "new" demo_host
            (mkToolResult "a" TOOL_EDIT_WRITE "wrote 3 bytes to a.txt" false false [("bytes_written", "3")])
            w' "a" "b" _ _ _ _ _ _ _ _ _ _).
  - vm_compute. reflexivity.
  - reflexivity.
  - vm_compute. reflexivity.
  - intros target Ht. vm_compute in Ht. injection Ht as <-. split; [|done].
    split; [done|]. intros t. vm_compute. done.
  - reflexivity.
  - vm_compute. done.
  - done.
  - done.
  - apply run_fst. vm_compute. reflexivity.
  - reflexivity.
Defined.

Lemma shell_run_reports_witness :
  exists obs, shell_run_handler (LocalWorkspaceShellTool (demo_os no_fault) demo_shell)
      (mkToolCall "c" TOOL_SHELL_RUN [("argv", JList [JStr "./python"; JStr "segfault"])])
      demo_ctx demo_host = (Ok obs, demo_host) /\ tl_is_error obs = false.
Proof.
  set (call := mkToolCall "c" TOOL_SHELL_RUN [("argv", JList [JStr "./python"; JStr "segfault"])]).
  set (run := shell_run_handler (LocalWorkspaceShellTool (demo_os no_fault) demo_shell) call demo_ctx demo_host).
  destruct (shell_run_reports (demo_os no_fault) demo_shell call demo_ctx demo_host run.1 run.2
              ["./python"; "segfault"] None eq_refl eq_refl (surjective_pairing run))
    as [(_ & m & Hm)|(a & rest & x & E & _ & Hx & Hr)].
  - exfalso. destruct Hm as [Hm|Hm]; vm_compute in Hm; discriminate Hm.
  - assert (Ex : x = Ok (Exited (-11) "" "")).
    { transitivity (x, run.2).1; [done|]. rewrite <- Hx. injection E as <- <-. reflexivity. }
    rewrite Ex in Hr. destruct Hr as (obs & Ho & He & _). exists obs. split; [|exact He].
    transitivity (run.1, run.2); [apply surjective_pairing|]. rewrite Ho. reflexivity.
Defined.

Definition crash_state : TaskRunState := mkRunState "k" "t" "tr" BUG_FIX_GRAPH_ID "verify" 0 [] false false None.

Lemma verification_passes_iff_witness :
  exists report,
    (verify_with_test_tool (execute (local_executor (demo_os no_fault) (fun _ => "") demo_shell demo_tests 65536))
       crash_state ["a.txt"] "/srv/repo" demo_host).1 = Ok report /\ getd report "passed" = JBool true.
Proof.
  set (run := verify_with_test_tool _ _ _ _ demo_host).
  destruct run as [[report|e] w'] eqn:E.
  - exists report. split; [reflexivity|].
    exact (verification_passes_iff (demo_os no_fault) (fun _ => "") demo_shell demo_tests crash_state 65536
             ["a.txt"] "/srv/repo" "python_test" ["segfault"] [] 65536 (-11) "" "" demo_host demo_host
             report w' eq_refl ltac:(done) ltac:(done) eq_refl eq_refl eq_refl eq_refl eq_refl
             ltac:(vm_compute; reflexivity) eq_refl E).
  - exfalso. assert (Hc : run.1 = Err e) by (by rewrite E). vm_compute in Hc. discriminate Hc.
Defined.
