(* ===== verification/DockerWorkspace.v ===== *)
(** * DockerWorkspace: the tools of a task run in its companion container

    [infra/tools/docker_workspace.py].  Every operation is one [docker exec] in
    the container named after the workspace; the file operations send a small
    Python script, whose text is kept here line by line, and parse what it prints.
    The host's process table is [os_exec] of [LocalWorkspace]; [json.loads] and
    [json.dumps] are ports.  The scripts themselves run in the container and are
    not executed by the model. *)

From S2P Require Import Prelude PyText Utf8 Domain GraphRuntime Results ShellAgent Tools FileSystem LocalWorkspace LocalWorkspaceFacts.
Import Utf8.

Definition DEFAULT_TIMEOUT_SECONDS : Z := 60.

Definition script (lines : list string) : string := str_join newline lines +:+ newline.

Definition READ_SCRIPT : string := script
  ["from pathlib import Path";
   "import sys";
   "p=Path(sys.argv[1]); offset=int(sys.argv[2]); cap=int(sys.argv[3])";
   "if not p.is_file():";
   "    raise SystemExit('not-a-file')";
   "data=p.read_bytes()[offset:offset+cap]";
   "sys.stdout.write(data.decode('utf-8', errors='replace'))"].
Definition LIST_SCRIPT : string := script
  ["from pathlib import Path";
   "import json, sys";
   "target=Path(sys.argv[1]); recursive=(sys.argv[2]=='1'); max_entries=int(sys.argv[3]); cap=int(sys.argv[4])";
   "if not target.is_dir():";
   "    raise SystemExit('not-a-dir')";
   "iterator = target.rglob('*') if recursive else target.iterdir()";
   "out=[]; used=2";
   "for entry in sorted(iterator, key=lambda p: p.as_posix()):";
   "    rendered=entry.as_posix() + ('/' if entry.is_dir() else '')";
   "    sep=1 if out else 0";
   "    size=len(rendered.encode('utf-8'))";
   "    if used + sep + size > cap:";
   "        break";
   "    out.append(rendered)";
   "    used += sep + size";
   "    if len(out) >= max_entries:";
   "        break";
   "sys.stdout.write(json.dumps(out))"].
Definition GREP_SCRIPT : string := script
  ["from pathlib import Path";
   "import json, re, sys";
   "pattern=sys.argv[1]";
   "globs=json.loads(sys.argv[2])";
   "max_matches=int(sys.argv[3]); cap=int(sys.argv[4])";
   "compiled=re.compile(pattern)";
   "hits=[]; seen=set(); used=2";
   "for glob in globs:";
   "    for entry in sorted(Path('.').glob(glob), key=lambda p: p.as_posix()):";
   "        if not entry.is_file() or entry in seen:";
   "            continue";
   "        seen.add(entry)";
   "        try:";
   "            text=entry.read_text(encoding='utf-8', errors='replace')";
   "        except OSError:";
   "            continue";
   "        for line_no, line in enumerate(text.splitlines(), start=1):";
   "            if compiled.search(line):";
   "                rendered=f'{entry.as_posix()}:{line_no}:{line}'";
   "                sep=1 if hits else 0";
   "                size=len(rendered.encode('utf-8'))";
   "                if used + sep + size > cap:";
   "                    sys.stdout.write(json.dumps(hits)); raise SystemExit(0)";
   "                hits.append({'path': entry.as_posix(), 'line_no': line_no, 'line': line})";
   "                used += sep + size";
   "                if len(hits) >= max_matches:";
   "                    sys.stdout.write(json.dumps(hits)); raise SystemExit(0)";
   "sys.stdout.write(json.dumps(hits))"].
Definition WRITE_SCRIPT : string := script
  ["from pathlib import Path";
   "import json, sys";
   "target=Path(sys.argv[1])";
   "data=sys.stdin.buffer.read()";
   "target.parent.mkdir(parents=True, exist_ok=True)";
   "tmp=target.with_suffix(target.suffix + '.tmp')";
   "tmp.write_bytes(data)";
   "tmp.replace(target)";
   "sys.stdout.write(json.dumps({'files_changed':[sys.argv[1]], 'bytes_written': len(data)}))"].

(** The fields of [_DockerWorkspaceToolBase]; [dk_root] is already resolved. *)
Record Docker : Type := mkDocker {
  dk_root : path; dk_executable : string; dk_prefix : string; dk_container_root : string;
  dk_allowed : list string; dk_timeout : Z
}.

(** [s.rstrip("/")]. *)
Fixpoint rstrip_slash (s : string) : string :=
  match s with
  | EmptyString => EmptyString
  | String c s' => let t := rstrip_slash s' in
                   if char_is 47 c && negb (nonempty t) then EmptyString else String c t
  end.

Section Docker.
Context {W : Type} `{HasFS W} (os : OsPorts W) (json_loads : string -> res json)
  (json_dumps : json -> string).

Definition docker_init (fs : FS) (workspace_root : path) (executable prefix container_root : string)
    (allowed : option (list string)) (timeout : Z) : res Docker :=
  let? root := resolve fs workspace_root in
  let trimmed := rstrip_slash container_root in
  let commands := match allowed with
                  | Some ((_ :: _) as l) => l
                  | _ => ["ruff"; "python"; "python3"; "pytest"]
                  end in
  if timeout <=? 0 then Err (ValueError "default_timeout_seconds must be positive")
  else Ok (mkDocker root executable prefix (if nonempty trimmed then trimmed else "/workspace")
             commands timeout).

Context (dk : Docker).

Definition docker_require_workspace (fs : FS) (ctx : ToolContext) : res path :=
  match tx_workspace_path ctx with
  | None => Err (ToolPermissionError "tool requires a workspace but ctx.workspace_path is None")
  | Some ws =>
      let? workspace := resolve fs (join_path (os_cwd os) ws) in
      match relative_to workspace (dk_root dk) with
      | Some _ => Ok workspace
      | None => Err (ToolPermissionError ("workspace " +:+ as_posix workspace +:+
                       " is outside configured docker workspace root"))
      end
  end.

Definition exec_prefix (workspace : path) (interactive : bool) : list string :=
  [dk_executable dk; "exec"] ++ (if interactive then ["-i"] else [])
  ++ ["-w"; dk_container_root dk +:+ "/" +:+ path_name workspace;
      dk_prefix dk +:+ "-" +:+ path_name (parent workspace)].

(** [_exec]: no [cwd] is set, the process starts in the worker's directory. *)
Definition docker_exec (workspace : path) (argv : list string) (timeout : Z) (stdin : option string)
    : M W (Z * string * string) :=
  outcome <- os_exec os (exec_prefix workspace (match stdin with Some _ => true | None => false end) ++ argv)
               "." stdin timeout ;;
  match outcome with
  | TimedOut =>
      let command := match argv with a :: _ => path_name (path_parts a) | [] => "command" end in
      raise (ToolExecutionError ("command " +:+ py_repr_str command +:+ " timed out after " +:+
               pretty timeout +:+ "s"))
  | Exited code stdout stderr => ret (clamp_code code, stdout, stderr)
  end.

Definition relative_arg (fs : FS) (workspace : path) (raw_path : string) : res string :=
  if negb (nonempty raw_path) then Err (ToolValidationError "path must not be empty")
  else
    let? candidate := resolve fs (join_path workspace raw_path) in
    let? root := resolve fs workspace in
    match relative_to candidate root with
    | Some rel => Ok (rel_posix rel)
    | None => Err (ToolPermissionError ("path " +:+ py_repr_str raw_path +:+ " escapes the workspace"))
    end.

(** [_decode_bounded(stderr or stdout, cap).strip() or default]. *)
Definition failure_detail (stdout stderr : string) (cap : Z) (dflt : string) : string :=
  let text := py_strip (decode_bounded (if nonempty stderr then stderr else stdout) cap) in
  if nonempty text then text else dflt.

Definition docker_read (ctx : ToolContext) (p : string) (offset : Z) (max_bytes : option Z) : M W string :=
  if offset <? 0 then raise (ToolValidationError "offset must be non-negative") else
  w <- get ;;
  workspace <- lift (docker_require_workspace (get_fs w) ctx) ;;
  rel <- lift (relative_arg (get_fs w) workspace p) ;;
  cap <- lift (effective_cap ctx max_bytes) ;;
  out <- docker_exec workspace ["python3"; "-c"; READ_SCRIPT; rel; pretty offset; pretty cap]
           (dk_timeout dk) None ;;
  let '(code, stdout, stderr) := out in
  if negb (code =? 0) then
    raise (ToolExecutionError ("read failed: " +:+
             failure_detail stdout stderr (tx_output_byte_cap ctx) "read failed"))
  else ret (decode_bounded stdout (tx_output_byte_cap ctx)).

Definition docker_list_dir (ctx : ToolContext) (p : string) (recursive : bool) (max_entries : Z)
    : M W (list string) :=
  if max_entries <=? 0 then raise (ToolValidationError "max_entries must be positive") else
  w <- get ;;
  workspace <- lift (docker_require_workspace (get_fs w) ctx) ;;
  rel <- lift (if nonempty p then relative_arg (get_fs w) workspace p else Ok ".") ;;
  out <- docker_exec workspace
           ["python3"; "-c"; LIST_SCRIPT; rel; if recursive then "1" else "0"; pretty max_entries;
            pretty (tx_output_byte_cap ctx)] (dk_timeout dk) None ;;
  let '(code, stdout, stderr) := out in
  if negb (code =? 0) then
    raise (ToolExecutionError ("list_dir failed: " +:+
             failure_detail stdout stderr (tx_output_byte_cap ctx) "list failed"))
  else
    v <- lift (json_loads (decode_replace stdout)) ;;
    (** The script prints a list of strings; anything else fails at the join. *)
    lift (match v with
          | JList l => match mapM as_str l with Some xs => Ok xs | None => Err (TypeError "join") end
          | _ => Err (TypeError "join")
          end).

Definition grep_hit_validate (v : json) : res GrepHit :=
  let? d := object_with ["path"; "line_no"; "line"] v in
  let? p := req_nonempty_str d "path" in
  let? line := req_str d "line" in
  match dget d "line_no" with
  | Some (JInt n) => if 0 <? n then Ok (mkGrepHit p n line) else Err (ValidationError "line_no")
  | _ => Err (ValidationError "line_no")
  end.

Definition docker_grep (ctx : ToolContext) (pattern : string) (globs : list string) (max_matches : Z)
    : M W (list GrepHit) :=
  if max_matches <=? 0 then raise (ToolValidationError "max_matches must be positive") else
  match re_compile os pattern with
  | None => raise (ToolValidationError "invalid regex: ")
  | Some _ =>
      w <- get ;;
      workspace <- lift (docker_require_workspace (get_fs w) ctx) ;;
      out <- docker_exec workspace
               ["python3"; "-c"; GREP_SCRIPT; pattern; json_dumps (JList (map JStr globs));
                pretty max_matches; pretty (tx_output_byte_cap ctx)] (dk_timeout dk) None ;;
      let '(code, stdout, stderr) := out in
      if negb (code =? 0) then
        raise (ToolExecutionError ("grep failed: " +:+
                 failure_detail stdout stderr (tx_output_byte_cap ctx) "grep failed"))
      else
        v <- lift (json_loads (decode_replace stdout)) ;;
        lift (match v with
              | JList l => mapM_res grep_hit_validate l
              | _ => Err (ValidationError "object")
              end)
  end.

Definition DockerWorkspaceFileSystemTool : FileSystemTool W :=
  mkFileSystemTool docker_read docker_list_dir docker_grep.

Definition docker_write (ctx : ToolContext) (p content : string) : M W EditOutcome :=
  w <- get ;;
  workspace <- lift (docker_require_workspace (get_fs w) ctx) ;;
  rel <- lift (relative_arg (get_fs w) workspace p) ;;
  out <- docker_exec workspace ["python3"; "-c"; WRITE_SCRIPT; rel] (dk_timeout dk) (Some content) ;;
  let '(code, stdout, stderr) := out in
  if negb (code =? 0) then
    raise (ToolExecutionError ("write failed: " +:+
             failure_detail stdout stderr (tx_output_byte_cap ctx) "write failed"))
  else
    v <- lift (json_loads (decode_replace stdout)) ;;
    lift (match v with
          | JDict payload =>
              let? files := match dget payload "files_changed" with
                            | None => Ok []
                            | Some (JList l) => Ok (map py_str l)
                            | Some _ => Err (TypeError "iterable")
                            end in
              let? n := match dget payload "bytes_written" with
                        | None => Ok 0
                        | Some (JInt n) => Ok n
                        | Some (JBool b) => Ok (if b then 1 else 0)
                        | Some (JStr s) => py_int s
                        | Some _ => Err (TypeError "int")
                        end in
              if n <? 0 then Err (ValidationError "bytes_written") else Ok (mkEditOutcome files n)
          | _ => Err (ExternalError "AttributeError")
          end).

(** Unlike the local adapter, no empty candidates are dropped; the expression
    matches none. *)
Definition docker_patch_apply (ctx : ToolContext) (unified_diff : string) : M W EditOutcome :=
  if negb (nonempty (py_strip unified_diff)) then
    raise (ToolValidationError "unified_diff must not be empty")
  else
    w <- get ;;
    workspace <- lift (docker_require_workspace (get_fs w) ctx) ;;
    out <- docker_exec workspace ["git"; "apply"; "--whitespace=nowarn"; "-"] (dk_timeout dk)
             (Some unified_diff) ;;
    let '(code, stdout, stderr) := out in
    if negb (code =? 0) then
      raise (ToolExecutionError ("git apply failed: " +:+
               failure_detail stdout stderr (tx_output_byte_cap ctx) "unknown error"))
    else ret (mkEditOutcome (extract_diff_files unified_diff) (Z.of_nat (String.length unified_diff))).

Definition DockerWorkspaceEditTool : EditTool W := mkEditTool docker_write docker_patch_apply.

Definition docker_shell_run (ctx : ToolContext) (argv : list string) (timeout_seconds : option Z)
    : M W ShellOutcome :=
  match argv with
  | [] => raise (ToolValidationError "argv must not be empty")
  | argv0 :: _ =>
      w <- get ;;
      workspace <- lift (docker_require_workspace (get_fs w) ctx) ;;
      let command := path_name (path_parts argv0) in
      if negb (str_in (dk_allowed dk) command) then
        raise (ToolPermissionError ("command " +:+ py_repr_str command +:+ " is not in the allow-list"))
      else
        let timeout := default (dk_timeout dk) timeout_seconds in
        if timeout <=? 0 then raise (ToolValidationError "timeout_seconds must be positive")
        else
          out <- docker_exec workspace argv timeout None ;;
          let '(code, stdout, stderr) := out in
          ret (mkShellOutcome argv code (decode_bounded stdout (tx_output_byte_cap ctx))
                 (decode_bounded stderr (tx_output_byte_cap ctx)) false)
  end.

Definition DockerWorkspaceShellTool : ShellTool W := mkShellTool docker_shell_run.

Definition docker_test_init (suites : option (list (string * list string))) : list (string * list string) :=
  match suites with
  | Some ((_ :: _) as l) => l
  | _ => default_suites "python3"
  end.

Definition docker_suite_targets (suite : string) (targets : list string) : list string :=
  if whole_suite suite then [] else targets.

Definition docker_test_run (suites : list (string * list string)) (ctx : ToolContext) (suite : string)
    (targets : list string) (timeout_seconds : option Z) : M W TestOutcome :=
  if negb (nonempty suite) then raise (ToolValidationError "suite must not be empty") else
  match dget suites suite with
  | None => raise (ToolPermissionError ("test suite " +:+ py_repr_str suite +:+
                                          " is not in the allow-list"))
  | Some base =>
      let timeout := default (dk_timeout dk) timeout_seconds in
      if timeout <=? 0 then raise (ToolValidationError "timeout_seconds must be positive")
      else
        w <- get ;;
        workspace <- lift (docker_require_workspace (get_fs w) ctx) ;;
        extra <- lift (mapM_res (relative_arg (get_fs w) workspace) (docker_suite_targets suite targets)) ;;
        let argv := base ++ extra in
        out <- docker_exec workspace argv timeout None ;;
        let '(code, stdout, stderr) := out in
        ret (mkTestOutcome suite argv code (decode_bounded stdout (tx_output_byte_cap ctx))
               (decode_bounded stderr (tx_output_byte_cap ctx)) false)
  end.

Definition DockerWorkspaceTestTool (suites : list (string * list string)) : TestTool W :=
  mkTestTool (docker_test_run suites).
End Docker.

(** ** Facts *)

Section DockerFacts.
Context {W : Type} `{HasFS W} (os1 os2 : OsPorts W) (json_loads : string -> res json)
  (json_dumps : json -> string) (dk : Docker).

Context (ctx : ToolContext) (w : W).
Hypothesis (same_cwd : os_cwd os1 = os_cwd os2) (same_re : re_compile os1 = re_compile os2).

(** The two hosts give the same outcome to one command only: [docker exec], with or
    without standard input, in the container named after the directory above the
    task's workspace and in the mount of that workspace, provided the task has a
    workspace and it lies below the configured root.  Whatever else their
    processes do may differ. *)
Hypothesis agree : forall ws workspace flag argv stdin timeout,
  tx_workspace_path ctx = Some ws -> resolve (get_fs w) (join_path (os_cwd os1) ws) = Ok workspace ->
  dk_root dk `prefix_of` workspace -> In flag [[]; ["-i"]] ->
  let command := [dk_executable dk; "exec"] ++ flag ++
    ["-w"; dk_container_root dk +:+ "/" +:+ path_name workspace;
     dk_prefix dk +:+ "-" +:+ path_name (parent workspace)] ++ argv in
  os_exec os1 command "." stdin timeout w = os_exec os2 command "." stdin timeout w.

Lemma docker_exec_agree workspace argv timeout stdin :
  docker_require_workspace os1 dk (get_fs w) ctx = Ok workspace ->
  docker_exec os1 dk workspace argv timeout stdin w = docker_exec os2 dk workspace argv timeout stdin w.
Proof.
  unfold docker_require_workspace. destruct (tx_workspace_path ctx) as [ws|] eqn:Ews; [|done].
  destruct (resolve _ _) as [ws'|] eqn:Er; [|done]. cbn [res_bind].
  destruct (relative_to ws' (dk_root dk)) as [rel|] eqn:Erel; [|done]. intros [= ->].
  apply relative_to_Some in Erel. unfold docker_exec, exec_prefix, bind. rewrite <- !app_assoc.
  rewrite (agree ws workspace (if match stdin with Some _ => true | None => false end then ["-i"] else []));
    [done..|by exists rel|]. destruct stdin; simpl; auto.
Qed.

Lemma require_agree :
  docker_require_workspace os2 dk (get_fs w) ctx = docker_require_workspace os1 dk (get_fs w) ctx.
Proof. unfold docker_require_workspace. by rewrite same_cwd. Qed.

(** Replace the second host by the first up to the one [docker exec]. *)
Ltac same_host :=
  unfold bind, get, lift; rewrite <- ?same_re;
  repeat (cbv beta; first
  [ reflexivity
  | rewrite require_agree
  | match goal with
    | Ha : docker_require_workspace os1 dk _ ctx = Ok ?a |- context [docker_exec os2 dk ?a] =>
        rewrite <- (docker_exec_agree a _ _ _ Ha)
    | |- (match ?x with _ => _ end) _ = _ => destruct x eqn:?
    | |- (match ?x with _ => _ end) = _ => destruct x eqn:?
    end ]).

(** C22: the task's own container is the only thing a docker tool touches.  Take any
    two hosts that may differ in what every process does, except [docker exec] of
    the configured executable in the container that carries the configured prefix
    and the name of the directory above the task's workspace, in the mount of the
    workspace's own name, and this only when the task has a workspace that
    resolves to a place below the configured root.  Every operation of the
    adapters gives the same result and the same state on both: no other process of
    the host is started, no other container is entered, and a call whose workspace
    is missing or lies outside the root starts nothing. *)
Theorem docker_tools_confined :
  (forall p o m, docker_read os1 dk ctx p o m w = docker_read os2 dk ctx p o m w) /\
  (forall p r m, docker_list_dir os1 json_loads dk ctx p r m w =
                 docker_list_dir os2 json_loads dk ctx p r m w) /\
  (forall p g m, docker_grep os1 json_loads json_dumps dk ctx p g m w =
                 docker_grep os2 json_loads json_dumps dk ctx p g m w) /\
  (forall p c, docker_write os1 json_loads dk ctx p c w = docker_write os2 json_loads dk ctx p c w) /\
  (forall d, docker_patch_apply os1 dk ctx d w = docker_patch_apply os2 dk ctx d w) /\
  (forall a t, docker_shell_run os1 dk ctx a t w = docker_shell_run os2 dk ctx a t w) /\
  (forall ss s t m, docker_test_run os1 dk ss ctx s t m w = docker_test_run os2 dk ss ctx s t m w).
Proof.
  split_and!; intros.
  - unfold docker_read. same_host.
  - unfold docker_list_dir. same_host.
  - unfold docker_grep. same_host.
  - unfold docker_write. same_host.
  - unfold docker_patch_apply. same_host.
  - unfold docker_shell_run. same_host.
  - unfold docker_test_run. same_host.
Qed.
End DockerFacts.

(** The path a docker tool passes to its script names a place in the workspace:
    its components follow the resolved workspace, none of them is [..], and the
    whole path has no link. *)
Lemma relative_arg_confined fs ws raw s :
  rooted fs -> relative_arg fs ws raw = Ok s ->
  exists root rel, resolve fs ws = Ok root /\ s = rel_posix rel /\ real fs (root ++ rel).
Proof.
  intros H0. unfold relative_arg. destruct (nonempty raw); [|done]. cbn [negb].
  destruct (resolve fs (join_path ws raw)) as [cand|] eqn:Ec; [|done]. cbn [res_bind].
  destruct (resolve fs ws) as [root|]; [|done]. cbn [res_bind].
  destruct (relative_to cand root) as [rel|] eqn:Er; [|done]. intros [= <-].
  apply relative_to_Some in Er as ->. exists root, rel. split_and!; [done..|by eapply resolve_real].
Qed.

(** Two hosts that differ in everything but the task's own container: the second
    answers every other command with an error. *)
Definition demo_docker : Docker := mkDocker ["srv"] "docker" "agent" "/workspace" ["python3"] 30.
Definition container_os (elsewhere : Z) : OsPorts FS := {|
  os_exec := fun argv _ _ _ w =>
    match argv with
    | "docker" :: "exec" :: "-w" :: "/workspace/repo" :: "agent-srv" :: _ => (Ok (Exited 0 "from the container" ""), w)
    | "docker" :: "exec" :: "-i" :: "-w" :: "/workspace/repo" :: "agent-srv" :: _ => (Ok (Exited 0 "" ""), w)
    | _ => (Ok (Exited elsewhere "elsewhere" ""), w)
    end;
  re_compile := re_compile (demo_os no_fault); glob := glob (demo_os no_fault);
  os_fault := no_fault; os_cwd := []; sys_executable := "python"
|}.

Lemma docker_tools_confined_witness :
  docker_read (container_os 0) demo_docker demo_ctx "a.txt" 0 None demo_host =
    docker_read (container_os 127) demo_docker demo_ctx "a.txt" 0 None demo_host /\
  (docker_read (container_os 127) demo_docker demo_ctx "a.txt" 0 None demo_host).1 = Ok "from the container".
Proof.
  split; [|vm_compute; reflexivity].
  refine (proj1 (docker_tools_confined (container_os 0) (container_os 127) (fun _ => Err (ValueError "json"))
    (fun _ => "") demo_docker demo_ctx demo_host _ _ _) "a.txt" 0 None).
  - reflexivity.
  - reflexivity.
  - intros ws workspace flag argv stdin timeout Hws Hr _ Hf. injection Hws as <-. vm_compute in Hr.
    injection Hr as <-. destruct Hf as [<-|[<-|[]]]; reflexivity.
Defined.
