(* ===== verification/WebDocs.v ===== *)
(** * WebDocs: the outbound fetch and the document search tools

    [infra/tools/web_fetch.py] and [infra/tools/doc_search.py].  The HTTP client,
    [urlparse] and the codec table are ports; the URL check, the allow-list, the
    content-type check and the bounding are translated.  The document search is
    translated whole: a word character is a letter, a digit, an underscore or any
    byte above 127, and scores are exact fractions. *)

From S2P Require Import Prelude PyText Utf8 Domain GraphRuntime Results ShellAgent Tools.
Import Utf8.

(** ** Web fetch *)

Record HttpResponse : Type := mkHttpResponse {
  hr_url : string; hr_status : Z; hr_content_type : option string; hr_content : string;
  hr_encoding : option string; hr_charset_encoding : option string
}.

(** What [client.get] can do: answer, after following redirects, or raise
    [httpx.TimeoutException] or another [httpx.HTTPError] with its text. *)
Inductive HttpOutcome : Type :=
  | HttpOk (r : HttpResponse)
  | HttpTimeout
  | HttpError (msg : string).

Record WebPorts (W : Type) : Type := mkWebPorts {
  http_get : string -> json -> M W HttpOutcome;
  (** [urlparse(url)]: scheme and hostname, or the text of its [ValueError]. *)
  urlparse : string -> string + (string * option string);
  (** [bytes.decode(encoding, errors="replace")]; [None] for an unknown encoding. *)
  decode_as : string -> string -> option string;
  (** [timeout <= 0] for a float given by its [repr]. *)
  float_nonpositive : string -> bool
}.
Arguments mkWebPorts {W}. Arguments http_get {W}. Arguments urlparse {W}. Arguments decode_as {W}.
Arguments float_nonpositive {W}.

Record WebFetch : Type := mkWebFetch { wf_allowed : list string; wf_timeout : json }.

Definition TEXT_CONTENT_TYPE_PREFIXES : list string :=
  ["text/"; "application/json"; "application/xml"; "application/yaml"; "application/x-yaml";
   "application/xhtml+xml"; "application/javascript"].

Definition is_text_content_type (content_type : string) : bool :=
  if negb (nonempty content_type) then true
  else existsb (fun p => String.prefix p content_type) TEXT_CONTENT_TYPE_PREFIXES.

(** [s.endswith(suffix)]. *)
Fixpoint str_endswith (suffix s : string) : bool :=
  String.eqb s suffix || match s with EmptyString => false | String _ s' => str_endswith suffix s' end.

Section Web.
Context {W : Type} (ports : WebPorts W).

Definition nonpositive (timeout : json) : bool :=
  match timeout with JInt n => n <=? 0 | JFloat r => float_nonpositive ports r | _ => false end.

Definition web_fetch_init (allowed_hosts : list string) (timeout : json) (max_redirects : Z) : res WebFetch :=
  match allowed_hosts with
  | [] => Err (ValueError "allowed_hosts must contain at least one hostname")
  | _ =>
      if nonpositive timeout then Err (ValueError "default_timeout_seconds must be positive")
      else if max_redirects <? 0 then Err (ValueError "max_redirects must be non-negative")
      else Ok (mkWebFetch (remove_dups (map (fun h => py_lower (py_strip h)) allowed_hosts)) timeout)
  end.

Definition validate_url (url : string) : res string :=
  if negb (nonempty url) then Err (ToolValidationError "web_fetch: url must be a non-empty str")
  else match urlparse ports url with
  | inl msg => Err (ToolValidationError ("web_fetch: invalid url " +:+ py_repr_str url +:+ ": " +:+ msg))
  | inr (scheme, hostname) =>
      if negb (str_in ["http"; "https"] scheme) then
        Err (ToolValidationError ("web_fetch: scheme " +:+ py_repr_str scheme +:+
                                    " not allowed; use http(s)"))
      else match truthy_str hostname with
      | None => Err (ToolValidationError ("web_fetch: url " +:+ py_repr_str url +:+ " has no hostname"))
      | Some h => Ok h
      end
  end.

(** The test of [_check_host_allowed] for one entry. *)
Definition host_matches (host allowed : string) : bool :=
  String.eqb host allowed || str_endswith ("." +:+ allowed) host.

Definition check_host_allowed (wf : WebFetch) (host : string) : res unit :=
  if existsb (host_matches (py_lower host)) (wf_allowed wf) then Ok tt
  else Err (ToolPermissionError ("web_fetch: hostname " +:+ py_repr_str host +:+ " not in allow-list " +:+
              py_repr (JList (map JStr (merge_sort str_le (wf_allowed wf)))))).

Definition build_outcome (r : HttpResponse) (cap : Z) : res WebFetchOutcome :=
  let raw := default "" (hr_content_type r) in
  let main := match str_split_once ";" raw with Some (a, _) => a | None => raw end in
  let content_type := py_lower (py_strip main) in
  if negb (is_text_content_type content_type) then
    Err (ToolValidationError ("web_fetch: content-type " +:+ py_repr_str content_type +:+
                                " is not text; refusing to surface binary"))
  else
    let truncated := (0 <? cap) && (cap <? Z.of_nat (String.length (hr_content r))) in
    let body := if truncated then str_take (Z.to_nat cap) (hr_content r) else hr_content r in
    let encoding := match truthy_str (hr_encoding r) with
                    | Some e => e
                    | None => match truthy_str (hr_charset_encoding r) with Some e => e | None => "utf-8" end
                    end in
    let text := match decode_as ports encoding body with Some t => t | None => decode_replace body end in
    Ok (mkWebFetchOutcome (hr_url r) (hr_status r)
          (if nonempty content_type then content_type else "application/octet-stream")
          text truncated (Z.of_nat (String.length (hr_content r)))).

Definition http_fetch (wf : WebFetch) (ctx : ToolContext) (url : string) (timeout_seconds : option json)
    : M W WebFetchOutcome :=
  hostname <- lift (validate_url url) ;;
  lift (check_host_allowed wf hostname) ;;;
  let cap := Z.max (tx_output_byte_cap ctx) 0 in
  let timeout := default (wf_timeout wf) timeout_seconds in
  if nonpositive timeout then raise (ToolValidationError "timeout_seconds must be positive")
  else
    outcome <- http_get ports url timeout ;;
    match outcome with
    | HttpTimeout => raise (ToolExecutionError ("web_fetch: request timed out after " +:+
                              py_repr timeout +:+ "s"))
    | HttpError msg => raise (ToolExecutionError ("web_fetch: network error: " +:+ msg))
    | HttpOk r => lift (build_outcome r cap)
    end.

Definition HttpxWebFetchTool (wf : WebFetch) : WebFetchTool W := mkWebFetchTool (http_fetch wf).

Lemma endswith_app suffix s : str_endswith suffix s = true -> exists a, s = a +:+ suffix.
Proof.
  induction s as [|c s IH]; cbn [str_endswith]; rewrite orb_true_iff, String.eqb_eq.
  - intros [<-|]; [by exists ""|done].
  - intros [<-|H]; [by exists ""|]. destruct (IH H) as [a ->]. by exists (String c a).
Qed.

Lemma build_outcome_text r cap o :
  build_outcome r cap = Ok o ->
  wo_bytes_received o = Z.of_nat (String.length (hr_content r)) /\
  wo_truncated o = (0 <? cap) && (cap <? wo_bytes_received o) /\
  (wo_content_type o = "application/octet-stream" \/
   exists p, In p TEXT_CONTENT_TYPE_PREFIXES /\ String.prefix p (wo_content_type o) = true).
Proof.
  unfold build_outcome. set (ct := py_lower _).
  destruct (is_text_content_type ct) eqn:Et; cbn [negb]; [|done]. intros [= <-].
  cbn [wo_bytes_received wo_truncated wo_content_type]. split_and!; [done..|]. unfold is_text_content_type in Et.
  destruct (nonempty ct); cbn [negb] in Et; [|by left]. right.
  apply existsb_exists in Et as (p & Hp & Hx). by exists p.
Qed.

(** A URL is requested only when its host is an allowed name or a name below
    one, the boundary being a dot, and its scheme is http or https; otherwise the
    fetch fails without any request.  What comes back is text by its declared
    content type, and at most [output_byte_cap] bytes of the body are decoded. *)
Theorem fetch_allow_listed wf ctx url t w r w' :
  http_fetch wf ctx url t w = (r, w') ->
  (w' = w /\ exists m, r = Err (ToolValidationError m) \/ r = Err (ToolPermissionError m)) \/
  (exists scheme host a timeout x,
     urlparse ports url = inr (scheme, Some host) /\ (scheme = "http" \/ scheme = "https") /\
     In a (wf_allowed wf) /\
     (py_lower host = a \/ exists sub, py_lower host = sub +:+ "." +:+ a) /\
     http_get ports url timeout w = (x, w') /\
     match r with
     | Ok o => exists resp, x = Ok (HttpOk resp) /\
         wo_truncated o = (0 <? Z.max (tx_output_byte_cap ctx) 0)
                          && (Z.max (tx_output_byte_cap ctx) 0 <? wo_bytes_received o) /\
         (wo_content_type o = "application/octet-stream" \/
          exists p, In p TEXT_CONTENT_TYPE_PREFIXES /\ String.prefix p (wo_content_type o) = true)
     | Err _ => True
     end).
Proof.
  unfold http_fetch, bind, lift.
  destruct (validate_url url) as [host|e] eqn:Ev.
  2: { intros [= <- <-]. left. split; [done|]. unfold validate_url in Ev. revert Ev.
       split_matches; intros; simplify_eq/=; eauto. }
  destruct (check_host_allowed wf host) as [[]|e] eqn:Eh.
  2: { intros [= <- <-]. left. split; [done|]. unfold check_host_allowed in Eh.
       destruct (existsb _ _); [done|]. injection Eh as <-. eauto. }
  destruct (nonpositive _); [intros [= <- <-]; left; eauto|].
  intros Hrun. right. unfold validate_url in Ev.
  destruct (nonempty url); [|done]. destruct (urlparse ports url) as [|[scheme hn]]; [done|].
  destruct (str_in ["http"; "https"] scheme) eqn:Es; cbn [negb] in Ev; [|done].
  destruct hn as [h|]; cbn in Ev; [|done]. destruct (nonempty h); [|done]. injection Ev as ->.
  unfold check_host_allowed in Eh. destruct (existsb _ _) eqn:Ex; [|done].
  apply existsb_exists in Ex as (a & Ha & Hm).
  destruct (http_get ports url _ w) as [x w1] eqn:Ehttp.
  exists scheme, host, a, (default (wf_timeout wf) t), x.
  assert (Hw : w1 = w') by (destruct x as [[]|]; by injection Hrun).
  split_and!; [done| |done| |congruence|].
  - unfold str_in in Es. cbn in Es. rewrite !orb_true_iff, !String.eqb_eq in Es. naive_solver.
  - unfold host_matches in Hm. apply orb_true_iff in Hm as [Hm%String.eqb_eq|Hm]; [by left|right].
    destruct (endswith_app _ _ Hm) as [sub Hsub]. eauto.
  - destruct r as [o|]; [|done]. destruct x as [[resp| |]|]; try done.
    exists resp. split; [done|]. injection Hrun as Hb _.
    by destruct (build_outcome_text _ _ _ Hb) as (_ & ? & ?).
Qed.
End Web.

(** A host whose parser splits [http://host/...] and whose client is redirected. *)
Definition demo_web : WebPorts unit := {|
  http_get := fun url t w =>
    (Ok (HttpOk (mkHttpResponse "http://169.254.169.254/latest/meta-data" 200 (Some "text/plain")
                   "secret" None None)), w);
  urlparse := fun url => inr ("http", Some "docs.example.com");
  decode_as := fun _ b => Some b;
  float_nonpositive := fun _ => false
|}.
Definition demo_web_ctx : ToolContext := mkToolContext "t" "k" "tr" None 64.

Lemma fetch_allow_listed_witness :
  exists scheme host a timeout x,
     urlparse demo_web "http://docs.example.com/x" = inr (scheme, Some host) /\
     (scheme = "http" \/ scheme = "https") /\ In a ["example.com"] /\
     (py_lower host = a \/ exists sub, py_lower host = sub +:+ "." +:+ a) /\
     http_get demo_web "http://docs.example.com/x" timeout tt = (x, tt).
Proof.
  set (wf := mkWebFetch ["example.com"] (JFloat "10.0")).
  set (run := http_fetch demo_web wf demo_web_ctx "http://docs.example.com/x" None tt).
  destruct (fetch_allow_listed demo_web wf demo_web_ctx "http://docs.example.com/x" None tt run.1 run.2
              (surjective_pairing run))
    as [(_ & m & Hm)|(scheme & host & a & timeout & x & H1 & H2 & H3 & H4 & H5 & _)].
  - exfalso. destruct Hm as [Hm|Hm]; vm_compute in Hm; discriminate Hm.
  - exists scheme, host, a, timeout, x. split_and!; [done..|]. destruct run.2. exact H5.
Defined.

(** The allow-list is checked for the URL that was asked for only.  The
    client follows redirects, and a response from a host outside the list is
    returned like any other. *)
Theorem redirect_leaves_allow_list :
  exists o, http_fetch demo_web (mkWebFetch ["example.com"] (JFloat "10.0")) demo_web_ctx
              "http://docs.example.com/x" None tt = (Ok o, tt) /\
    wo_final_url o = "http://169.254.169.254/latest/meta-data" /\ wo_content o = "secret" /\
    existsb (host_matches "169.254.169.254") ["example.com"] = false.
Proof. eexists. split; [reflexivity|]. by split_and!. Qed.

(** ** Document search *)

Definition MAX_LIMIT : Z := 20.
Definition SNIPPET_RADIUS : nat := 120.
Definition ELLIPSIS : string := "…".

Record DocEntry : Type := mkDocEntry { de_source_uri : string; de_title : string; de_body : string }.

Definition is_word_char (c : Ascii.ascii) : bool :=
  is_alpha c || is_digit c || char_is 95 c || Nat.leb 128 (Ascii.nat_of_ascii c).

(** [re.findall(r"[\w]+", text)]: [cur] is the run being read. *)
Fixpoint tokenise_from (cur s : string) : list string :=
  match s with
  | EmptyString => if nonempty cur then [cur] else []
  | String c s' =>
      if is_word_char c then tokenise_from (cur +:+ String c "") s'
      else (if nonempty cur then [cur] else []) ++ tokenise_from "" s'
  end.
Definition tokenise (text : string) : list string := tokenise_from "" text.

Record DocSearch : Type := mkDocSearch {
  ds_entries : list DocEntry; ds_tokenised : list (list string)
}.
Definition doc_search_init (entries : list DocEntry) : res DocSearch :=
  if existsb (fun e => negb (nonempty (de_source_uri e))) entries then
    Err (ValueError "DocEntry.source_uri must be non-empty")
  else Ok (mkDocSearch entries
             (map (fun e => remove_dups (tokenise (py_lower (de_title e +:+ " " +:+ de_body e)))) entries)).

(** [s.find(token)]. *)
Definition str_find (token s : string) : option nat := String.length ∘ fst <$> str_split_once token s.

Definition earliest (lower : string) (tokens : list string) : option nat :=
  fold_left (fun best token =>
    if negb (nonempty token) then best
    else match str_find token lower with
         | None => best
         | Some i => match best with
                     | None => Some i
                     | Some b => if Nat.ltb i b then Some i else best
                     end
         end) tokens None.

Definition snippet_around (body : string) (tokens : list string) : string :=
  if negb (nonempty body) then "" else
  match earliest (py_lower body) tokens with
  | None => str_rstrip (str_take (2 * SNIPPET_RADIUS) body)
  | Some i =>
      let start := (i - SNIPPET_RADIUS)%nat in
      let stop := Nat.min (i + SNIPPET_RADIUS) (String.length body) in
      let middle := py_strip (String.substring start (stop - start) body) in
      (if Nat.ltb 0 start then ELLIPSIS else "") +:+ middle +:+
      (if Nat.ltb stop (String.length body) then ELLIPSIS else "")
  end.

(** A scored entry: matched tokens, index, entry. *)
Abbreviation scored := (nat * nat * DocEntry)%type.
Definition token_hits (query tokens : list string) : nat :=
  length (List.filter (fun t => str_in tokens t) query).
Definition score_entries (query : list string) (ds : DocSearch) : list scored :=
  List.filter (fun x => Nat.ltb 0 x.1.1)
    (imap (fun i et => (token_hits query et.2, i, et.1)) (zip (ds_entries ds) (ds_tokenised ds))).

(** The sort key [(-score, index)]; all scores share the denominator. *)
Definition ranked (x y : scored) : Prop :=
  (y.1.1 < x.1.1)%nat \/ (x.1.1 = y.1.1 /\ (x.1.2 <= y.1.2)%nat).
#[global] Instance ranked_dec : RelDecision ranked.
Proof. intros x y. unfold ranked. apply _. Defined.

Definition memory_search (ds : DocSearch) (ctx : ToolContext) (query : string) (limit : Z) : res (list DocHit) :=
  if negb (nonempty query) || negb (nonempty (py_strip query)) then
    Err (ToolValidationError "doc_search: query must be a non-empty str")
  else if limit <=? 0 then Err (ToolValidationError "doc_search: limit must be a positive int")
  else
    let bounded_limit := Z.min limit MAX_LIMIT in
    let query_tokens := remove_dups (tokenise (py_lower query)) in
    match query_tokens with
    | [] => Ok []
    | _ =>
        Ok (map (fun x => mkDocHit (de_source_uri x.2) (de_title x.2)
                            (snippet_around (de_body x.2) query_tokens)
                            (mkScore (Z.of_nat x.1.1) (Z.of_nat (length query_tokens))))
              (take (Z.to_nat bounded_limit) (merge_sort ranked (score_entries query_tokens ds))))
    end.

Definition InMemoryDocSearchTool {W} (ds : DocSearch) : DocSearchTool W :=
  mkDocSearchTool (fun ctx query limit => lift (memory_search ds ctx query limit)).

(** Evaluation against the code: two tokens, a title-only match and a tie. *)
Definition demo_docs : res DocSearch := doc_search_init
  [mkDocEntry "u1" "Redis" "how to restart the queue"; mkDocEntry "u2" "Queue guide" "drain first";
   mkDocEntry "u3" "Postgres" "vacuum"; mkDocEntry "u4" "Restart" "restart queue workers"].
Example demo_docs_ranked :
  (let? ds := demo_docs in
   let? hits := memory_search ds demo_web_ctx "Restart QUEUE" 3 in
   Ok (map (fun h => (dh_source_uri h, sc_num (dh_score h), sc_den (dh_score h))) hits)) =
  Ok [("u1", 2, 2); ("u4", 2, 2); ("u2", 1, 2)].
Proof. vm_compute. reflexivity. Qed.

#[global] Instance ranked_total : Total ranked.
Proof. intros x y. unfold ranked. lia. Qed.
#[global] Instance ranked_trans : Transitive ranked.
Proof. intros x y z. unfold ranked. lia. Qed.

Lemma filter_length_le {A} (f : A -> bool) l : (length (List.filter f l) <= length l)%nat.
Proof. induction l as [|x l IH]; simpl; [done|]. destruct (f x); simpl; lia. Qed.

Lemma score_entries_range query ds x :
  In x (score_entries query ds) -> (0 < x.1.1 <= length query)%nat.
Proof.
  unfold score_entries. rewrite filter_In, Nat.ltb_lt. intros [Hin Hpos]. split; [done|].
  apply list_elem_of_In, elem_of_lookup_imap in Hin as (i & et & -> & _). cbn.
  apply filter_length_le.
Qed.

Lemma sorted_app_le {A} (R : A -> A -> Prop) l1 l2 x y :
  StronglySorted R (l1 ++ l2) -> In x l1 -> In y l2 -> R x y.
Proof.
  induction l1 as [|a l1 IH]; [done|]. cbn [app]. intros Hs Hx Hy.
  apply StronglySorted_inv in Hs as [Hs Ha]. destruct Hx as [<-|Hx]; [|auto].
  rewrite Forall_forall in Ha. apply Ha. apply list_elem_of_In, in_app_iff. auto.
Qed.

(** A search returns the best matches.  It returns as many hits as match, up
    to the limit and at most twenty, in order of decreasing score and, within a
    score, of the corpus; every score is a fraction in (0, 1]; and a matching
    document that is left out scores no better than any that is returned. *)
Theorem doc_search_best ds ctx query limit hits :
  memory_search ds ctx query limit = Ok hits ->
  exists best rest,
    merge_sort ranked (score_entries (remove_dups (tokenise (py_lower query))) ds) = best ++ rest /\
    StronglySorted ranked best /\
    map dh_source_uri hits = map (fun x => de_source_uri x.2) best /\
    Forall2 (fun h x => sc_num (dh_score h) = Z.of_nat x.1.1 /\
                        0 < sc_num (dh_score h) <= sc_den (dh_score h)) hits best /\
    Z.of_nat (length hits) <= Z.min limit MAX_LIMIT /\
    (rest <> [] -> Z.of_nat (length hits) = Z.min limit MAX_LIMIT) /\
    (forall x y, In x best -> In y rest -> (y.1.1 <= x.1.1)%nat).
Proof.
  unfold memory_search. destruct (_ || _); [done|]. destruct (Z.leb_spec limit 0) as [|Hl]; [done|].
  set (q := remove_dups _). assert (Hm : 0 < Z.min limit MAX_LIMIT) by (unfold MAX_LIMIT; lia).
  destruct q as [|t q'] eqn:Eq.
  { intros [= <-]. exists [], []. split_and!; try done; try (constructor); try (cbn; lia).
    assert (score_entries [] ds = []) as ->; [|done].
    destruct (score_entries [] ds) as [|x l] eqn:E; [done|exfalso].
    pose proof (score_entries_range [] ds x ltac:(rewrite E; by left)) as Hx. simpl in Hx. lia. }
  rewrite <- Eq. clear Eq t q'. set (n := Z.to_nat _). set (sorted := merge_sort _ _).
  intros [= <-]. exists (take n sorted), (drop n sorted).
  pose proof (StronglySorted_merge_sort ranked (score_entries q ds)) as Hs. fold sorted in Hs.
  split_and!.
  - by rewrite take_drop.
  - rewrite <- (take_drop n sorted) in Hs. by apply StronglySorted_app in Hs as (_ & ? & _).
  - by rewrite map_map.
  - assert (Hin : forall x, In x (take n sorted) -> (0 < x.1.1 <= length q)%nat).
    { intros x Hx. apply score_entries_range with ds. apply list_elem_of_In.
      rewrite <- (merge_sort_Permutation ranked). fold sorted. rewrite <- (take_drop n sorted).
      apply elem_of_app. left. by apply list_elem_of_In. }
    revert Hin. generalize (take n sorted). intros l. induction l as [|x l IH]; intros Hin; [constructor|].
    constructor; [|apply IH; intros; apply Hin; by right].
    specialize (Hin x ltac:(by left)). cbn. lia.
  - rewrite length_map, length_take. lia.
  - intros Hr. rewrite length_map, length_take.
    assert (n < length sorted)%nat; [|lia].
    destruct (decide (n < length sorted)%nat); [done|]. by rewrite drop_ge in Hr by lia.
  - intros x y Hx Hy. rewrite <- (take_drop n sorted) in Hs.
    pose proof (sorted_app_le ranked _ _ x y Hs Hx Hy) as Hr. unfold ranked in Hr. lia.
Qed.

Lemma doc_search_best_witness : exists ds hits,
  demo_docs = Ok ds /\ memory_search ds demo_web_ctx "Restart QUEUE" 3 = Ok hits /\
  Z.of_nat (length hits) <= 3.
Proof.
  destruct demo_docs as [ds|] eqn:Ed; [|by vm_compute in Ed]. exists ds.
  destruct (memory_search ds demo_web_ctx "Restart QUEUE" 3) as [hits|] eqn:E;
    [|vm_compute in Ed; injection Ed as <-; by vm_compute in E].
  exists hits. split_and!; [done..|].
  destruct (doc_search_best ds demo_web_ctx "Restart QUEUE" 3 hits E) as (best & rest & _ & _ & _ & _ & H & _).
  unfold MAX_LIMIT in H. lia.
Defined.
