(* ===== verification/Workspaces.v ===== *)
(** * Workspaces: one directory per task, made and removed

    [infra/workspace/local_git.py] and [infra/workspace/docker_workspace.py], on
    the file system of [FileSystem] and the process table [os_exec] of
    [LocalWorkspace].  [git] and [docker] are programs: what they do to the disk is
    the port's, and the theorems name what they rely on.  [pathlib] paths are a
    root and components, [os.mkdir], [Path.mkdir] and [shutil.rmtree] are written
    out with their errors.  The time-outs of the configurations are whole
    seconds, printed as the floats they are. *)

From S2P Require Import Prelude PyText Utf8 Domain GraphRuntime Results ShellAgent Tools FileSystem LocalWorkspace LocalWorkspaceFacts BugFix.
Import Utf8.

(** ** [pathlib.PurePosixPath] *)

Record PurePath : Type := mkPurePath { pp_root : string; pp_parts : path }.

Definition parse_path (p : string) : PurePath :=
  mkPurePath (if String.prefix "///" p then "/" else if String.prefix "//" p then "//"
              else if String.prefix "/" p then "/" else "") (path_parts p).
(** [str(p)]. *)
Definition path_str (p : PurePath) : string :=
  let r := pp_root p +:+ str_join "/" (pp_parts p) in if nonempty r then r else ".".
(** [p / name]. *)
Definition path_div (p : PurePath) (name : string) : PurePath :=
  if is_absolute name then parse_path name
  else mkPurePath (pp_root p) (pp_parts p ++ path_parts name).
Definition path_parent (p : PurePath) : PurePath := mkPurePath (pp_root p) (parent (pp_parts p)).
(** Where the operating system finds [p]. *)
Definition locate (cwd : path) (p : PurePath) : path :=
  if nonempty (pp_root p) then pp_parts p else cwd ++ pp_parts p.

(** [os.lstat]: links in the last component are not followed. *)
Definition lstat (fs : FS) (p : path) : option node :=
  if bool_decide (p = []) || String.eqb (path_name p) ".." then stat fs p
  else match resolve fs (parent p) with
       | Ok d => match node_at fs d with Some NDir => fs !! (d ++ [path_name p]) | _ => None end
       | Err _ => None
       end.

(** [p.exists()]. *)
Definition exists_path (fs : FS) (p : path) : bool :=
  match stat fs p with Some _ => true | None => false end.

(** What [shutil.rmtree] removes: everything at or below [d], contents before
    the directory that holds them. *)
Definition longer (p q : path) : Prop := (length q <= length p)%nat.
#[global] Instance longer_dec : RelDecision longer.
Proof. intros p q. unfold longer. apply _. Defined.
Definition tree_entries (fs : FS) (d : path) : list path :=
  merge_sort longer (List.filter (fun q => bool_decide (d `prefix_of` q)) (map fst (map_to_list fs))).
Definition delete_all (l : list path) (fs : FS) : FS := foldr delete fs l.

Section Disk.
Context {W : Type} `{HasFS W} (os : OsPorts W).

(** [os.mkdir(p)]. *)
Definition os_mkdir (p : path) : M W unit :=
  w <- get ;;
  let fs := get_fs w in
  if bool_decide (p = []) || String.eqb (path_name p) ".." then raise (OSError "FileExistsError")
  else
    match resolve fs (parent p) with
    | Err OutOfFuel => raise OutOfFuel
    | Err _ => raise (OSError "ELOOP")
    | Ok d =>
        match node_at fs d with
        | None => raise (OSError "FileNotFoundError")
        | Some NDir =>
            let q := d ++ [path_name p] in
            match fs !! q with
            | Some _ => raise (OSError "FileExistsError")
            | None => os_check (os_fault os) "mkdir" q ;;; modify (set_fs (<[q := NDir]> fs))
            end
        | Some _ => raise (OSError "NotADirectoryError")
        end
    end.

(** [p.mkdir(parents=True, exist_ok=...)]: a missing parent is made first, each
    call on one component less. *)
Fixpoint mkdir_parents (fuel : nat) (exist_ok : bool) (p : path) : M W unit :=
  match fuel with
  | O => raise OutOfFuel
  | S fuel' =>
      try_except (os_mkdir p) (fun e =>
        match e with
        | OSError cls =>
            if String.eqb cls "FileNotFoundError" then
              if bool_decide (p = []) then None
              else Some (mkdir_parents fuel' true (parent p) ;;;
                         try_except (os_mkdir p) (fun e' =>
                           match e' with
                           | OSError cls' =>
                               if String.eqb cls' "FileNotFoundError" then None
                               else Some (w <- get ;;
                                          if exist_ok && is_dir (get_fs w) p then ret tt
                                          else raise e')
                           | _ => None
                           end))
            else Some (w <- get ;;
                       if exist_ok && is_dir (get_fs w) p then ret tt else raise e)
        | _ => None
        end)
  end.

(** [shutil.rmtree(p)]: a fault ends the removal after some entries. *)
Definition rmtree (p : path) : M W unit :=
  w <- get ;;
  let fs := get_fs w in
  match lstat fs p with
  | None => raise (OSError "FileNotFoundError")
  | Some (NLink _) => raise (OSError "Cannot call rmtree on a symbolic link")
  | Some (NFile _) => raise (OSError "NotADirectoryError")
  | Some NDir =>
      match resolve fs p with
      | Err OutOfFuel => raise OutOfFuel
      | Err _ => raise (OSError "ELOOP")
      | Ok d =>
          let entries := tree_entries fs d in
          match os_fault os w "rmtree" d with
          | None => modify (set_fs (delete_all entries fs))
          | Some n => modify (set_fs (delete_all (take n entries) fs)) ;;; raise (OSError "rmtree")
          end
      end
  end.
(** [shutil.rmtree(p, ignore_errors=True)]. *)
Definition rmtree_ignore (p : path) : M W unit :=
  try_except (rmtree p) (fun e => match e with OSError _ => Some (ret tt) | _ => None end).
End Disk.

(** ** [LocalGitWorkspaceManager] *)

Record LocalGitConfig : Type := mkLocalGitConfig {
  lg_root_dir : PurePath; lg_git_executable : string; lg_clone_depth : option Z;
  lg_timeout_seconds : Z
}.
Definition default_local_git (root_dir : PurePath) : LocalGitConfig :=
  mkLocalGitConfig root_dir "git" (Some 1) 300.

(** [f"{seconds}s"] of a float that is a whole number. *)
Definition float_seconds (t : Z) : string := pretty t +:+ ".0s".

(** [stderr or stdout or "no output"] of the stripped streams. *)
Definition process_detail (stdout stderr : string) : string :=
  let err := py_strip (decode_replace stderr) in
  let out := py_strip (decode_replace stdout) in
  if nonempty err then err else if nonempty out then out else "no output".

Section LocalGit.
Context {W : Type} `{HasFS W} (os : OsPorts W) (id_factory : M W string) (now : M W Z)
  (cfg : LocalGitConfig).

Definition run_git (args : list string) : M W unit :=
  outcome <- os_exec os args "." None (lg_timeout_seconds cfg) ;;
  match outcome with
  | TimedOut => raise (WorkspaceError ("git command timed out after " +:+
                  float_seconds (lg_timeout_seconds cfg) +:+ ": " +:+
                  redact_credentials (str_join " " args)))
  | Exited code stdout stderr =>
      if code =? 0 then ret tt
      else raise (WorkspaceError ("git command failed (exit=" +:+ pretty code +:+ "): " +:+
                    redact_credentials (str_join " " args) +:+ newline +:+
                    redact_credentials (process_detail stdout stderr)))
  end.

Definition clone_args (repo_url : string) (base_ref : option string) (dest : PurePath) : list string :=
  [lg_git_executable cfg; "clone"]
  ++ (match lg_clone_depth cfg with Some d => ["--depth"; pretty d] | None => [] end)
  ++ (match base_ref with Some r => ["--branch"; r] | None => [] end)
  ++ [repo_url; path_str dest].
Definition git_clone (repo_url : string) (base_ref : option string) (dest : PurePath) : M W unit :=
  run_git (clone_args repo_url base_ref dest).

Definition init_empty (dest : PurePath) : M W unit :=
  let git := lg_git_executable cfg in
  run_git [git; "init"; path_str dest] ;;;
  run_git [git; "-C"; path_str dest; "config"; "user.email"; "agent@meta-agent.local"] ;;;
  run_git [git; "-C"; path_str dest; "config"; "user.name"; "meta-agent"] ;;;
  run_git [git; "-C"; path_str dest; "commit"; "--allow-empty"; "-m"; "workspace init"].

Definition worktree_args (clone_dir worktree_dir : PurePath) (branch : string)
    (base_ref repo_url : option string) : list string :=
  [lg_git_executable cfg; "-C"; path_str clone_dir; "worktree"; "add"; "-b"; branch;
   path_str worktree_dir]
  ++ (match base_ref, repo_url with Some r, Some _ => [r] | _, _ => [] end).
Definition add_worktree (clone_dir worktree_dir : PurePath) (branch : string)
    (base_ref repo_url : option string) : M W unit :=
  run_git (worktree_args clone_dir worktree_dir branch base_ref repo_url).

(** [provision]: once the directory is made, every way out but success removes
    it again. *)
Definition provision (tenant_id task_id trace_id branch : string) (repo_url base_ref : option string)
    : M W Workspace :=
  workspace_id <- id_factory ;;
  let root := path_div (lg_root_dir cfg) workspace_id in
  let clone_dir := path_div root "main" in
  let worktree_dir := path_div root "feature" in
  let at_root := locate (os_cwd os) root in
  mkdir_parents os (S (length at_root)) false at_root ;;;
  try_except
    ((match repo_url with
      | Some url => git_clone url base_ref clone_dir
      | None => init_empty clone_dir
      end) ;;;
     add_worktree clone_dir worktree_dir branch base_ref repo_url ;;;
     w <- get ;;
     resolved <- lift (resolve (get_fs w) (locate (os_cwd os) worktree_dir)) ;;
     created_at <- now ;;
     ret (mkWorkspace workspace_id tenant_id task_id trace_id repo_url base_ref branch
            (as_posix resolved) created_at))
    (fun e => Some (rmtree_ignore os at_root ;;; raise e)).

Definition suppress_workspace_error (m : M W unit) : M W unit :=
  try_except m (fun e => match e with WorkspaceError _ => Some (ret tt) | _ => None end).

Definition remove_args (clone_dir worktree : PurePath) : list string :=
  [lg_git_executable cfg; "-C"; path_str clone_dir; "worktree"; "remove"; "--force";
   path_str worktree].

Definition cleanup (workspace : Workspace) : M W unit :=
  let worktree := parse_path (ws_worktree_path workspace) in
  let root := path_parent worktree in
  let at_root := locate (os_cwd os) root in
  w <- get ;;
  root_resolved <- lift (resolve (get_fs w) at_root) ;;
  configured_root <- lift (resolve (get_fs w) (locate (os_cwd os) (lg_root_dir cfg))) ;;
  match relative_to root_resolved configured_root with
  | None => raise (WorkspaceError ("refusing to clean path outside configured root: " +:+
                     as_posix root_resolved))
  | Some _ =>
      if negb (exists_path (get_fs w) at_root) then ret tt
      else
        let clone_dir := path_div root "main" in
        (if exists_path (get_fs w) (locate (os_cwd os) clone_dir) then
           suppress_workspace_error (run_git (remove_args clone_dir worktree))
         else ret tt) ;;;
        try_except (rmtree os at_root) (fun e =>
          match e with
          | OSError cls => Some (raise (WorkspaceError ("failed to remove workspace root " +:+
                                          path_str root +:+ ": " +:+ cls)))
          | _ => None
          end)
  end.
End LocalGit.

(** ** [DockerWorkspaceManager] *)

Record DockerWorkspaceConfig : Type := mkDockerWorkspaceConfig {
  dw_local_git : LocalGitConfig; dw_image : string; dw_docker_executable : string;
  dw_container_prefix : string; dw_network : option string; dw_timeout_seconds : Z
}.
Definition default_docker_workspace (local_git : LocalGitConfig) (image : string)
    : DockerWorkspaceConfig :=
  mkDockerWorkspaceConfig local_git image "docker" "meta-agent-ws" None 120.

(** The manager's own state: [_containers]. *)
Class HasContainers (W : Type) : Type := {
  get_containers : W -> gmap string string;
  set_containers : gmap string string -> W -> W
}.

Section DockerManager.
Context {W : Type} `{HasFS W} `{HasContainers W} (os : OsPorts W) (id_factory : M W string)
  (now : M W Z) (cfg : DockerWorkspaceConfig).

Definition run_docker (args : list string) : M W string :=
  outcome <- os_exec os args "." None (dw_timeout_seconds cfg) ;;
  match outcome with
  | TimedOut => raise (WorkspaceError ("docker command timed out after " +:+
                  float_seconds (dw_timeout_seconds cfg) +:+ ": " +:+ str_join " " args))
  | Exited code stdout stderr =>
      if code =? 0 then ret (py_strip (decode_replace stdout))
      else raise (WorkspaceError ("docker command failed (exit=" +:+ pretty code +:+ "): " +:+
                    str_join " " args +:+ newline +:+ process_detail stdout stderr))
  end.

Definition is_missing_container (message : string) : bool :=
  let lowered := py_lower message in
  str_contains "no such container" lowered || str_contains "cannot remove container" lowered.

Definition container_args (worktree root : path) (container_name : string) : list string :=
  [dw_docker_executable cfg; "run"; "-d"; "--rm"; "--name"; container_name;
   "-v"; as_posix root +:+ ":/workspace"; "-w"; "/workspace/" +:+ path_name worktree]
  ++ (match dw_network cfg with Some n => ["--network"; n] | None => [] end)
  ++ [dw_image cfg; "sleep"; "infinity"].

Definition start_container (workspace : Workspace) (container_name : string) : M W unit :=
  w <- get ;;
  worktree <- lift (resolve (get_fs w)
                (locate (os_cwd os) (parse_path (ws_worktree_path workspace)))) ;;
  root <- lift (resolve (get_fs w) (parent worktree)) ;;
  _ <- run_docker (container_args worktree root container_name) ;;
  ret tt.

Definition docker_inner_cleanup : Workspace -> M W unit := cleanup os (dw_local_git cfg).

Definition safe_inner_cleanup (workspace : Workspace) : M W unit :=
  suppress_workspace_error (docker_inner_cleanup workspace).

Definition container_name_of (workspace : Workspace) : string :=
  dw_container_prefix cfg +:+ "-" +:+ ws_workspace_id workspace.

Definition docker_provision (tenant_id task_id trace_id branch : string)
    (repo_url base_ref : option string) : M W Workspace :=
  workspace <- provision os id_factory now (dw_local_git cfg) tenant_id task_id trace_id branch
                 repo_url base_ref ;;
  let container_name := container_name_of workspace in
  try_except (start_container workspace container_name)
    (fun e => Some (safe_inner_cleanup workspace ;;; raise e)) ;;;
  modify (fun w => set_containers (<[ws_workspace_id workspace := container_name]> (get_containers w)) w) ;;;
  ret workspace.

(** [self._containers.pop(id, default)]. *)
Definition pop_container (workspace : Workspace) : M W string :=
  w <- get ;;
  modify (set_containers (delete (ws_workspace_id workspace) (get_containers w))) ;;;
  ret (default (container_name_of workspace) (get_containers w !! ws_workspace_id workspace)).

Definition docker_cleanup (workspace : Workspace) : M W unit :=
  container_name <- pop_container workspace ;;
  try_finally
    (try_except (run_docker [dw_docker_executable cfg; "rm"; "-f"; container_name] ;;; ret tt)
       (fun e => match e with
                 | WorkspaceError msg => if is_missing_container msg then Some (ret tt) else None
                 | _ => None
                 end))
    (docker_inner_cleanup workspace).
End DockerManager.
