(* ===== verification/WorkspaceFacts.v ===== *)
(** * WorkspaceFacts: what provisioning and cleaning up leave on the disk

    A failed provision restores the disk, a successful one followed by a cleanup
    does too, a cleanup stays inside the configured root and can be repeated, and
    the docker manager removes the host worktree whatever [docker] does.  [git] is
    assumed to write below the workspace only; that is the one thing asked of it. *)

From S2P Require Import Prelude PyText Utf8 Domain GraphRuntime Results ShellAgent ShellAgentFacts Tools FileSystem LocalWorkspace LocalWorkspaceFacts BugFix DockerWorkspace Workspaces.
Import Utf8.

(** ** Printing and parsing absolute paths *)

(** A component as [pathlib] makes them: not empty, not [.], without a slash. *)
Definition component (n : string) : Prop :=
  n <> "" /\ n <> "." /\ split_on 47 n = [n].

Lemma split_on_ne k s : split_on k s <> [].
Proof. induction s as [|c s IH]; simpl; [done|]. destruct (split_on k s); [done|]. by destruct (char_is k c). Qed.

Lemma split_on_piece k s x : x ∈ split_on k s -> split_on k x = [x].
Proof.
  revert x. induction s as [|c s IH]; intros x; simpl; [set_solver|].
  destruct (split_on k s) as [|y ys] eqn:E; [by apply split_on_ne in E|].
  destruct (char_is k c) eqn:Ec.
  - intros [->|Hx]%elem_of_cons; [done|auto].
  - intros [->|Hx]%elem_of_cons; [|set_solver]. simpl.
    rewrite (IH y) by set_solver. by rewrite Ec.
Qed.

Lemma path_parts_components p : Forall component (path_parts p).
Proof.
  apply Forall_forall. intros x Hx. apply list_elem_of_In, filter_In in Hx as [Hx Hb].
  apply andb_true_iff in Hb as [H1 H2]. apply negb_true_iff, String.eqb_neq in H2.
  split_and!; [by apply nonempty_true|done|]. by apply (split_on_piece 47 p), list_elem_of_In.
Qed.

Lemma split_on_app a b k c :
  char_is k c = true -> split_on k (a +:+ String c b) = split_on k a ++ split_on k b.
Proof.
  intros Hc. induction a as [|d a IH]; cbn [split_on].
  - change ("" +:+ String c b) with (String c b). cbn [split_on]. rewrite Hc.
    destruct (split_on k b) eqn:E; [by apply split_on_ne in E|done].
  - rewrite app_cons. cbn [split_on]. rewrite IH.
    destruct (split_on k a) as [|y ys] eqn:E; [by apply split_on_ne in E|]. simpl.
    by destruct (char_is k d).
Qed.

Lemma split_on_join q : q <> [] -> Forall component q -> split_on 47 (str_join "/" q) = q.
Proof.
  induction q as [|n q IH]; [done|]. intros _ Hq. inversion_clear Hq as [|? ? (_ & _ & Hn) Hq'].
  destruct q as [|m q]; [done|]. cbn [str_join].
  change ("/" +:+ ?x) with (String (Ascii.ascii_of_nat 47) x).
  rewrite split_on_app by done. rewrite Hn. simpl app. f_equal. by apply IH.
Qed.

Lemma filter_components q :
  Forall component q ->
  List.filter (fun x => nonempty x && negb (String.eqb x ".")) q = q.
Proof.
  induction 1 as [|m q (H1 & H2 & _) _ IH]; [done|]. cbn [List.filter].
  apply nonempty_true in H1. apply String.eqb_neq in H2. rewrite H1, H2. simpl. by rewrite IH.
Qed.

Lemma parse_posix q : Forall component q -> parse_path (as_posix q) = mkPurePath "/" q.
Proof.
  intros Hq. unfold parse_path, as_posix. destruct q as [|n q]; [done|].
  assert (split_on 47 (str_join "/" (n :: q)) = n :: q) as Hs by (by apply split_on_join).
  change ("/" +:+ ?x) with (String (Ascii.ascii_of_nat 47) x).
  f_equal.
  - destruct (str_join "/" (n :: q)) as [|c s] eqn:E; [done|].
    inversion_clear Hq as [|? ? (Hn & _) _]. simpl in Hs.
    destruct (split_on 47 s) as [|y ys]; [done|].
    destruct (char_is 47 c) eqn:Ec; [congruence|].
    assert (c <> Ascii.ascii_of_nat 47) as Hc by (by intros ->).
    clear -Hc. destruct c as [[] [] [] [] [] [] [] []]; try reflexivity. by destruct Hc.
  - unfold path_parts. cbn [split_on]. rewrite Hs. change (char_is 47 _) with true. cbn iota.
    change (List.filter ?f ("" :: ?l)) with (List.filter f l). by apply filter_components.
Qed.

Definition todo_ok (t : todo) : Prop := match t with Comp n => component n | Done _ => True end.

Lemma todo_ok_map p : Forall component p -> Forall todo_ok (map Comp p).
Proof. induction 1; simpl; constructor; auto. Qed.

Lemma realpath_components fuel fs active cur rest q :
  Forall component cur -> Forall todo_ok rest -> realpath fuel fs active cur rest = Ok q ->
  Forall component q.
Proof.
  revert active cur rest. induction fuel as [|fuel IH]; intros active cur rest Hc Hr; [done|].
  cbn [realpath]. destruct Hr as [|[n|l] rest Hn Hr]; [by intros [= <-]| |by apply IH].
  destruct (String.eqb n "..").
  { apply IH; [|done]. by apply Forall_take. }
  destruct (fs !! (cur ++ [n])) as [[b| |t]|].
  3: { case_bool_decide; [done|]. apply IH; [by destruct (is_absolute t)|].
       apply Forall_app; split; [apply todo_ok_map, path_parts_components|by constructor]. }
  all: apply IH; [|done]; apply Forall_app; auto.
Qed.

Lemma resolve_components fs p q : Forall component p -> resolve fs p = Ok q -> Forall component q.
Proof.
  intros Hp.
  exact (realpath_components PATH_FUEL fs [] [] (map Comp p) q (Forall_nil_2 _) (todo_ok_map p Hp)).
Qed.

(** ** The tree below a directory *)

Definition below (root q : path) : Prop := exists x r, q = root ++ x :: r.

(** Two disks that differ below [root] only. *)
Definition same_off (root : path) (fs fs' : FS) : Prop :=
  forall q, ~ below root q -> fs' !! q = fs !! q.

#[export] Instance same_off_refl root : Reflexive (same_off root).
Proof. by intros fs q. Qed.
#[export] Instance same_off_trans root : Transitive (same_off root).
Proof. intros f1 f2 f3 H1 H2 q Hq. rewrite H2, H1; done. Qed.

Lemma below_prefix root q : root `prefix_of` q <-> q = root \/ below root q.
Proof.
  split.
  - intros [[|x r] ->]; [left; by rewrite app_nil_r|right; by exists x, r].
  - intros [->|(x & r & ->)]; [done|by eexists].
Qed.

Lemma prefix_not_below root q : q `prefix_of` root -> ~ below root q.
Proof.
  intros [k Hk] (x & r & ->). apply (f_equal length) in Hk. rewrite !length_app in Hk. simpl in Hk. lia.
Qed.

Lemma same_off_real root fs fs' p :
  same_off root fs fs' -> p `prefix_of` root -> real fs p -> real fs' p.
Proof.
  intros Hs Hp [Hl Hd]. split; [|done]. intros q t Hq.
  rewrite Hs; [by apply Hl|]. apply prefix_not_below. by etrans.
Qed.

(** Entries sit in directories. *)
Definition tree (fs : FS) : Prop :=
  forall q x n, fs !! (q ++ [x]) = Some n -> node_at fs q = Some NDir.

Lemma tree_fresh fs root : tree fs -> fs !! root = None -> root <> [] ->
  forall q, root `prefix_of` q -> fs !! q = None.
Proof.
  intros Ht H0 Hne q [r ->]. induction r as [|x r IH] using rev_ind; [by rewrite app_nil_r|].
  destruct (fs !! (root ++ r ++ [x])) as [n|] eqn:E; [|done]. rewrite app_assoc in E.
  apply Ht in E. unfold node_at in E. destruct (root ++ r) eqn:Er; [|congruence].
  by apply app_nil in Er as [-> _].
Qed.

Lemma elem_of_tree_entries fs d q : q ∈ tree_entries fs d <-> d `prefix_of` q /\ is_Some (fs !! q).
Proof.
  unfold tree_entries. rewrite merge_sort_Permutation, list_elem_of_In, filter_In, bool_decide_eq_true,
    <- list_elem_of_In, list_elem_of_fmap.
  split.
  - intros [([q' n] & -> & Hm) Hp]. apply elem_of_map_to_list in Hm. split; [done|by exists n].
  - intros [Hp [n Hn]]. split; [|done]. exists (q, n). by rewrite elem_of_map_to_list.
Qed.

Lemma delete_all_lookup l fs q :
  delete_all l fs !! q = if decide (q ∈ l) then None else fs !! q.
Proof.
  induction l as [|x l IH]; [done|]. simpl. destruct (decide (x = q)) as [->|Hne].
  - rewrite lookup_delete_eq. by rewrite decide_True by set_solver.
  - rewrite lookup_delete_ne, IH by done. destruct (decide (q ∈ l)), (decide (q ∈ x :: l)); set_solver.
Qed.

Lemma delete_tree fs d q :
  delete_all (tree_entries fs d) fs !! q = if decide (d `prefix_of` q) then None else fs !! q.
Proof.
  rewrite delete_all_lookup. destruct (decide (q ∈ tree_entries fs d)) as [Hq|Hq].
  - apply elem_of_tree_entries in Hq as [Hp _]. by rewrite decide_True.
  - destruct (decide (d `prefix_of` q)); [|done]. rewrite elem_of_tree_entries in Hq.
    apply eq_None_not_Some. tauto.
Qed.

Lemma delete_some_off l fs d q :
  (forall x, x ∈ l -> x ∈ tree_entries fs d) -> ~ d `prefix_of` q -> delete_all l fs !! q = fs !! q.
Proof.
  intros Hl Hq. rewrite delete_all_lookup. rewrite decide_False; [done|].
  intros H%Hl%elem_of_tree_entries. tauto.
Qed.

(** ** Removing a real directory *)

Section Removing.
Context {W : Type} `{HasFS W} (os : OsPorts W).

Lemma real_name fs p : real fs p -> p <> [] -> path_name p <> "..".
Proof.
  intros [_ Hd] Hne E. apply Hd. rewrite (target_split p Hne), E. set_solver.
Qed.

Lemma stat_real fs p : real fs p -> (length p < PATH_FUEL)%nat -> stat fs p = node_at fs p.
Proof. intros Hr Hl. unfold stat. by rewrite resolve_id. Qed.

Lemma lstat_real fs p :
  real fs p -> p <> [] -> (length p < PATH_FUEL)%nat -> node_at fs (parent p) = Some NDir ->
  lstat fs p = fs !! p.
Proof.
  intros Hr Hne Hl Hd. unfold lstat. rewrite bool_decide_eq_false_2 by done.
  destruct (String.eqb_spec (path_name p) "..") as [E|_]; [by destruct (real_name fs p Hr Hne)|]. simpl.
  rewrite resolve_id; [|by eapply real_prefix, parent_prefix|rewrite parent_length; lia].
  by rewrite Hd, <- target_split.
Qed.

Lemma rmtree_dir p w :
  real (get_fs w) p -> p <> [] -> (length p < PATH_FUEL)%nat ->
  node_at (get_fs w) (parent p) = Some NDir -> get_fs w !! p = Some NDir ->
  rmtree os p w =
    match os_fault os w "rmtree" p with
    | None => (Ok tt, set_fs (delete_all (tree_entries (get_fs w) p) (get_fs w)) w)
    | Some n => (Err (OSError "rmtree"),
                 set_fs (delete_all (take n (tree_entries (get_fs w) p)) (get_fs w)) w)
    end.
Proof.
  intros Hr Hne Hl Hd Hn. unfold rmtree, bind, get. rewrite lstat_real, Hn, resolve_id by done.
  by destruct (os_fault os w "rmtree" p).
Qed.

(** Whatever happens, nothing outside changes; a return means that all is gone. *)
Lemma rmtree_spec p w r w' :
  real (get_fs w) p -> p <> [] -> (length p < PATH_FUEL)%nat ->
  node_at (get_fs w) (parent p) = Some NDir ->
  rmtree os p w = (r, w') ->
  (forall q, ~ p `prefix_of` q -> get_fs w' !! q = get_fs w !! q) /\
  match r with
  | Ok _ => forall q, p `prefix_of` q -> get_fs w' !! q = None
  | Err e => exists cls, e = OSError cls
  end.
Proof.
  intros Hr Hne Hl Hd. destruct (get_fs w !! p) as [[b| |t]|] eqn:Hn.
  2: { rewrite rmtree_dir by done. destruct (os_fault os w "rmtree" p) as [n|]; intros [= <- <-];
       rewrite get_set_fs; split; [| |intros q Hq; rewrite delete_tree, decide_False; done|].
       - intros q. apply delete_some_off. intros x Hx.
         apply elem_of_take in Hx as (i & Hi & _). by eapply list_elem_of_lookup_2.
       - by eexists.
       - intros q Hq. by rewrite delete_tree, decide_True. }
  all: unfold rmtree, bind, get; rewrite lstat_real, Hn by done; unfold raise; intros [= <- <-];
    split; [done|by eexists].
Qed.
End Removing.

(** ** The local manager *)

Section LocalGitFacts.
Context {W : Type} `{HF : HasFS W} (os : OsPorts W) (id_factory : M W string) (now : M W Z)
  (cfg : LocalGitConfig).

Abbreviation configured := (locate (os_cwd os) (lg_root_dir cfg)).

(** The programs a provision starts, in order. *)
Definition provision_commands (workspace_id branch : string) (repo_url base_ref : option string)
    : list (list string) :=
  let root := path_div (lg_root_dir cfg) workspace_id in
  let main := path_div root "main" in
  let git := lg_git_executable cfg in
  (match repo_url with
   | Some url => [clone_args cfg url base_ref main]
   | None => [[git; "init"; path_str main];
              [git; "-C"; path_str main; "config"; "user.email"; "agent@meta-agent.local"];
              [git; "-C"; path_str main; "config"; "user.name"; "meta-agent"];
              [git; "-C"; path_str main; "commit"; "--allow-empty"; "-m"; "workspace init"]]
   end) ++ [worktree_args cfg main (path_div root "feature") branch base_ref repo_url].

(** Each must exit with 0 before the next is started. *)
Fixpoint run_all (cmds : list (list string)) : M W unit :=
  match cmds with
  | [] => ret tt
  | argv :: cmds' => run_git os cfg argv ;;; run_all cmds'
  end.

Lemma run_all_provision id branch repo_url base_ref w :
  let root := path_div (lg_root_dir cfg) id in
  bind (match repo_url with
        | Some url => git_clone os cfg url base_ref (path_div root "main")
        | None => init_empty os cfg (path_div root "main")
        end)
    (fun _ => add_worktree os cfg (path_div root "main") (path_div root "feature") branch base_ref repo_url) w
  = run_all (provision_commands id branch repo_url base_ref) w.
Proof.
  intros root.
  assert (forall argv w0, bind (run_git os cfg argv) (fun _ => ret tt) w0 = run_git os cfg argv w0) as Hr.
  { intros argv w0. unfold bind. by destruct (run_git os cfg argv w0) as [[[]|] ?]. }
  destruct repo_url as [url|]; cbn [provision_commands app run_all]; unfold git_clone, init_empty.
  - unfold bind at 1 2. destruct (run_git os cfg _ w) as [[[]|] ?]; [by rewrite Hr|done].
  - rewrite !bind_assoc. unfold bind at 1 5. destruct (run_git os cfg _ w) as [[[]|] ?]; [|done].
    rewrite !bind_assoc. unfold bind at 1 4. destruct (run_git os cfg _ w0) as [[[]|] ?]; [|done].
    rewrite !bind_assoc. unfold bind at 1 3. destruct (run_git os cfg _ w1) as [[[]|] ?]; [|done].
    unfold bind at 1 2. destruct (run_git os cfg _ w2) as [[[]|] ?]; [by rewrite Hr|done].
Qed.

(** What is asked of [git]: these commands write below [root] only. *)
Definition git_confined (root : path) (cmds : list (list string)) : Prop :=
  forall argv, argv ∈ cmds -> forall w r w',
    os_exec os argv "." None (lg_timeout_seconds cfg) w = (r, w') ->
    same_off root (get_fs w) (get_fs w').

Lemma run_git_exec argv w r w' :
  run_git os cfg argv w = (r, w') ->
  exists r0, os_exec os argv "." None (lg_timeout_seconds cfg) w = (r0, w').
Proof.
  unfold run_git, bind. destruct (os_exec _ _ _ _ _ w) as [[o|e] w1].
  - destruct o as [code out err|]; [destruct (code =? 0)|]; intros [= _ <-]; by eexists.
  - intros [= _ <-]. by eexists.
Qed.

Lemma run_git_err argv w e w' :
  run_git os cfg argv w = (Err e, w') ->
  (exists msg, e = WorkspaceError msg) \/
  os_exec os argv "." None (lg_timeout_seconds cfg) w = (Err e, w').
Proof.
  unfold run_git, bind. destruct (os_exec _ _ _ _ _ w) as [[o|e'] w1].
  - destruct o as [code out err|]; [destruct (code =? 0)|]; intros [= <- _]; left; by eexists.
  - intros [= -> ->]. by right.
Qed.

Lemma run_git_confined root cmds argv w r w' :
  git_confined root cmds -> argv ∈ cmds -> run_git os cfg argv w = (r, w') ->
  same_off root (get_fs w) (get_fs w').
Proof. intros Hc Hin [r0 E]%run_git_exec. by eapply Hc. Qed.

Lemma run_all_confined root cmds : git_confined root cmds ->
  forall w r w', run_all cmds w = (r, w') -> same_off root (get_fs w) (get_fs w').
Proof.
  intros Hc. assert (forall a, a ∈ cmds -> a ∈ cmds) as Hsub by done. revert Hsub.
  generalize cmds at 1 3 as l.
  induction l as [|a l IH]; intros Hsub w r w'; cbn [run_all]; [by intros [= _ <-]|].
  unfold bind. destruct (run_git os cfg a w) as [[[]|e] w1] eqn:E.
  - intros E2. etrans; [eapply run_git_confined; [done| |done]; set_solver|].
    eapply IH; [set_solver|done].
  - intros [= _ <-]. eapply run_git_confined; [done| |done]. set_solver.
Qed.

(** A workspace id as [id_factory] makes them is one component. *)
Lemma component_plain n : component n -> is_absolute n = false /\ path_parts n = [n].
Proof.
  intros Hc. pose proof Hc as (H1 & H2 & H3). split.
  - unfold is_absolute. destruct n as [|c n]; [done|]. simpl in H3.
    destruct (split_on 47 n) as [|y ys] eqn:E; [by apply split_on_ne in E|].
    destruct (char_is 47 c) eqn:Ec; [congruence|]. clear -Ec.
    destruct c as [[] [] [] [] [] [] [] []]; try reflexivity. done.
  - unfold path_parts. rewrite H3. apply (filter_components [n]). by constructor.
Qed.

Lemma locate_div p n : component n -> locate (os_cwd os) (path_div p n) = locate (os_cwd os) p ++ [n].
Proof.
  intros [Ha Hp]%component_plain. unfold path_div, locate. rewrite Ha, Hp. simpl.
  destruct (nonempty (pp_root p)); [done|by rewrite app_assoc].
Qed.

Lemma mkdir_fresh fuel p n w :
  real (get_fs w) p -> (length p < PATH_FUEL)%nat -> node_at (get_fs w) p = Some NDir -> n <> ".." ->
  mkdir_parents os (S fuel) false (p ++ [n]) w =
    match get_fs w !! (p ++ [n]), os_fault os w "mkdir" (p ++ [n]) with
    | Some _, _ => (Err (OSError "FileExistsError"), w)
    | None, Some _ => (Err (OSError "mkdir"), w)
    | None, None => (Ok tt, set_fs (<[p ++ [n] := NDir]> (get_fs w)) w)
    end.
Proof.
  intros Hr Hl Hd Hn.
  assert (os_mkdir os (p ++ [n]) w =
    match get_fs w !! (p ++ [n]), os_fault os w "mkdir" (p ++ [n]) with
    | Some _, _ => (Err (OSError "FileExistsError"), w)
    | None, Some _ => (Err (OSError "mkdir"), w)
    | None, None => (Ok tt, set_fs (<[p ++ [n] := NDir]> (get_fs w)) w)
    end) as E.
  { unfold os_mkdir, bind, get. rewrite parent_app, (resolve_id _ p), Hd by done.
    assert (path_name (p ++ [n]) = n) as -> by (unfold path_name; by rewrite last_snoc).
    rewrite bool_decide_eq_false_2 by (by destruct p).
    destruct (String.eqb_spec n "..") as [|_]; [done|]. simpl orb. cbn iota.
    destruct (get_fs w !! (p ++ [n])); [done|]. unfold os_check. cbn [orb]. cbv beta iota.
    by destruct (os_fault os w "mkdir" (p ++ [n])). }
  cbn [mkdir_parents]. unfold try_except at 1. rewrite E.
  destruct (get_fs w !! (p ++ [n])); [done|]. by destruct (os_fault os w "mkdir" (p ++ [n])).
Qed.

(** The program a cleanup starts. *)
Definition remove_command (ws : Workspace) : list string :=
  let worktree := parse_path (ws_worktree_path ws) in
  remove_args cfg (path_div (path_parent worktree) "main") worktree.

Section Cleanup.
Context (ws : Workspace).

Abbreviation worktree := (parse_path (ws_worktree_path ws)).
Abbreviation ws_dir := (locate (os_cwd os) (path_parent worktree)).
Abbreviation remove_cmd := (remove_command ws).

Hypothesis git_ok : git_confined ws_dir [remove_cmd].

(** The disk as [cleanup] finds it. *)
Definition cleanable (fs : FS) : Prop :=
  real fs ws_dir /\ real fs configured /\ configured <> [] /\
  (length ws_dir < PATH_FUEL)%nat /\ (length configured < PATH_FUEL)%nat /\ tree fs.

Lemma cleanable_inside fs r :
  cleanable fs -> relative_to ws_dir configured = Some r -> configured `prefix_of` ws_dir /\ ws_dir <> [].
Proof.
  intros (_ & _ & Hne & _) E%relative_to_Some. rewrite E. split; [by eexists|].
  by intros [? _]%app_nil.
Qed.

Lemma cleanup_resolved w :
  cleanable (get_fs w) ->
  cleanup os cfg ws w =
  match relative_to ws_dir configured with
  | None => (Err (WorkspaceError ("refusing to clean path outside configured root: " +:+
                                    as_posix ws_dir)), w)
  | Some _ =>
      match node_at (get_fs w) ws_dir with
      | None => (Ok tt, w)
      | Some _ =>
          bind (if exists_path (get_fs w) (ws_dir ++ ["main"])
                then suppress_workspace_error (run_git os cfg remove_cmd) else ret tt)
            (fun _ => try_except (rmtree os ws_dir) (fun e =>
               match e with
               | OSError cls => Some (raise (WorkspaceError ("failed to remove workspace root " +:+
                                               path_str (path_parent worktree) +:+ ": " +:+ cls)))
               | _ => None
               end)) w
      end
  end.
Proof.
  intros (Hr & Hrc & Hne & Hl & Hlc & Ht). unfold cleanup.
  unfold bind at 1, get at 1. unfold bind at 1, lift at 1. rewrite resolve_id by done.
  unfold bind at 1, lift at 1. rewrite resolve_id by done.
  destruct (relative_to ws_dir configured) as [r|]; [|done].
  unfold exists_path at 1. rewrite stat_real by done. rewrite locate_div by done.
  by destruct (node_at (get_fs w) ws_dir).
Qed.

Definition inside_same (fs fs' : FS) : Prop :=
  forall q, ~ ws_dir `prefix_of` q -> fs' !! q = fs !! q.

(** The two steps of the removal. *)
Lemma cleanup_removal w r w' m :
  cleanable (get_fs w) -> ws_dir <> [] -> is_Some (node_at (get_fs w) ws_dir) ->
  m = ret tt \/ m = suppress_workspace_error (run_git os cfg remove_cmd) ->
  bind m (fun _ => try_except (rmtree os ws_dir) (fun e =>
            match e with
            | OSError cls => Some (raise (WorkspaceError ("failed to remove workspace root " +:+
                                            path_str (path_parent worktree) +:+ ": " +:+ cls)))
            | _ => None
            end)) w = (r, w') ->
  inside_same (get_fs w) (get_fs w') /\
  match r with
  | Ok _ => forall q, ws_dir `prefix_of` q -> get_fs w' !! q = None
  | Err e => (exists msg, e = WorkspaceError msg) \/
             exists v, os_exec os remove_cmd "." None (lg_timeout_seconds cfg) w = (Err e, v)
  end.
Proof.
  intros (Hr & Hrc & Hne & Hl & Hlc & Ht) Hd Hex Hm.
  assert (node_at (get_fs w) (parent ws_dir) = Some NDir) as Hp.
  { destruct Hex as [n Hn]. unfold node_at in Hn. destruct ws_dir eqn:E; [done|]. rewrite <- E in *.
    rewrite (target_split ws_dir Hd) in Hn. by apply Ht in Hn. }
  assert (forall rm v, m w = (rm, v) -> same_off ws_dir (get_fs w) (get_fs v) /\
    (forall e, rm = Err e -> (exists msg, e = WorkspaceError msg) \/
       exists v, os_exec os remove_cmd "." None (lg_timeout_seconds cfg) w = (Err e, v))) as Hstep.
  { intros rm v. destruct Hm as [->| ->]; [by intros [= <- <-]|].
    unfold suppress_workspace_error, try_except. destruct (run_git os cfg remove_cmd w) as [rg v'] eqn:Eg.
    assert (same_off ws_dir (get_fs w) (get_fs v')) as Hs.
    { eapply run_git_confined; [done| |done]. set_solver. }
    destruct rg as [[]|e]; [by intros [= <- <-]|]. apply run_git_err in Eg as [[msg ->]|Eg].
    - by intros [= <- <-].
    - intros Hx. assert (v = v') as -> by (by destruct e; injection Hx). split; [done|].
      intros e' ->. destruct e; simplify_eq; right; by eexists. }
  unfold bind. destruct (m w) as [[[]|e] v] eqn:Em; destruct (Hstep _ _ eq_refl) as [Hs He].
  2: { intros [= <- <-]. split; [|by apply He]. intros q Hq. apply Hs. intros Hb. apply Hq, below_prefix. by right. }
  assert (forall q, q `prefix_of` ws_dir -> get_fs v !! q = get_fs w !! q) as Hpre.
  { intros q Hq. apply Hs. by apply prefix_not_below. }
  assert (node_at (get_fs v) (parent ws_dir) = Some NDir) as Hpv.
  { rewrite <- Hp. unfold node_at. pose proof (Hpre _ (parent_prefix ws_dir)) as Hx.
    by destruct (parent ws_dir). }
  unfold try_except. destruct (rmtree os ws_dir v) as [rr v'] eqn:Er.
  apply rmtree_spec in Er as [Hout Hin]; [|by eapply same_off_real|done..].
  assert (inside_same (get_fs w) (get_fs v')) as Hio.
  { intros q Hq. rewrite Hout by done. apply Hs. intros Hb. apply Hq, below_prefix. by right. }
  destruct rr as [[]|e]; [by intros [= <- <-]|]. destruct Hin as [cls ->]. intros [= <- <-].
  split; [done|]. left. by eexists.
Qed.

Lemma cleanup_run w r w' :
  cleanable (get_fs w) -> is_Some (relative_to ws_dir configured) -> cleanup os cfg ws w = (r, w') ->
  inside_same (get_fs w) (get_fs w') /\
  match r with
  | Ok _ => forall q, ws_dir `prefix_of` q -> get_fs w' !! q = None
  | Err e => (exists msg, e = WorkspaceError msg) \/
             exists v, os_exec os remove_cmd "." None (lg_timeout_seconds cfg) w = (Err e, v)
  end.
Proof.
  intros Hc [rel Hrel]. rewrite cleanup_resolved by done. rewrite Hrel.
  destruct (cleanable_inside _ _ Hc Hrel) as [_ Hne].
  destruct (node_at (get_fs w) ws_dir) as [n|] eqn:En.
  - apply cleanup_removal; [done..|by eexists|]. destruct (exists_path _ _); auto.
  - intros [= <- <-]. split; [done|]. destruct Hc as (_ & _ & _ & _ & _ & Ht).
    apply tree_fresh; [done| |done]. unfold node_at in En. by destruct ws_dir.
Qed.

(** After it, the disk still is as [cleanup] wants it. *)
Lemma cleaned_cleanable fs fs' r :
  cleanable fs -> relative_to ws_dir configured = Some r -> inside_same fs fs' ->
  (forall q, ws_dir `prefix_of` q -> fs' !! q = None) -> cleanable fs'.
Proof.
  intros Hc Hrel Hin Hgone. destruct (cleanable_inside _ _ Hc Hrel) as [Hpre Hd].
  destruct Hc as ([Hl1 Hd1] & [Hl2 Hd2] & Hne & Hl & Hlc & Ht).
  assert (forall q n, fs' !! q = Some n -> ~ ws_dir `prefix_of` q /\ fs !! q = Some n) as Hq.
  { intros q n Hn. assert (~ ws_dir `prefix_of` q) as Hx by (intros Hx%Hgone; congruence).
    split; [done|]. by rewrite <- Hin. }
  split_and!; try done; [split; [|done]..|].
  - intros q t Hp Ht'. apply Hq in Ht' as [_ Ht']. by apply (Hl1 q t).
  - intros q t Hp Ht'. apply Hq in Ht' as [_ Ht']. by apply (Hl2 q t).
  - intros q x n Hn. apply Hq in Hn as [Hx Hn]. pose proof (Ht _ _ _ Hn) as Hd'. unfold node_at in *.
    destruct q as [|y q]; [done|]. rewrite Hin; [done|]. intros Hy. apply Hx. etrans; [exact Hy|].
    by eexists.
Qed.

(** Cleaning up stays inside the configured root and can be repeated.  A
    workspace whose directory lies elsewhere is refused before any program is
    started and without a change.  Otherwise nothing outside its directory
    changes; when the call returns, nothing is left of the directory and a second
    call changes nothing; and it fails with a [WorkspaceError], or with what
    starting [git] raised. *)
Theorem cleanup_spec w r w' :
  cleanable (get_fs w) -> cleanup os cfg ws w = (r, w') ->
  match relative_to ws_dir configured with
  | None => (exists msg, r = Err (WorkspaceError msg)) /\ w' = w
  | Some _ =>
      inside_same (get_fs w) (get_fs w') /\
      match r with
      | Ok _ => (forall q, ws_dir `prefix_of` q -> get_fs w' !! q = None) /\
                cleanup os cfg ws w' = (Ok tt, w')
      | Err e => (exists msg, e = WorkspaceError msg) \/
                 exists v, os_exec os remove_cmd "." None (lg_timeout_seconds cfg) w = (Err e, v)
      end
  end.
Proof.
  intros Hc E. destruct (relative_to ws_dir configured) as [rel|] eqn:Hrel.
  - pose proof (cleanup_run _ _ _ Hc ltac:(by eexists) E) as [Hin Hr]. split; [done|].
    destruct r as [[]|e]; [|done]. split; [done|].
    destruct (cleanable_inside _ _ Hc Hrel) as [_ Hne].
    rewrite cleanup_resolved by (by eapply cleaned_cleanable). rewrite Hrel.
    unfold node_at. destruct ws_dir eqn:Ed; [done|]. rewrite <- Ed in *. by rewrite Hr.
  - rewrite cleanup_resolved, Hrel in E by done. injection E as <- <-. split; [by eexists|done].
Qed.

(** With a removal the system allows and a [git] that can be started, whatever
    it then answers, the cleanup succeeds. *)
Lemma cleanup_succeeds w :
  cleanable (get_fs w) -> is_Some (relative_to ws_dir configured) ->
  get_fs w !! ws_dir = Some NDir ->
  (forall v, os_fault os v "rmtree" ws_dir = None) ->
  (forall v, exists o v', os_exec os remove_cmd "." None (lg_timeout_seconds cfg) v = (Ok o, v')) ->
  exists w', cleanup os cfg ws w = (Ok tt, w').
Proof.
  intros Hc [rel Hrel] Hd Hf Hg. destruct (cleanup os cfg ws w) as [r w'] eqn:E.
  destruct r as [[]|e]; [by eexists|exfalso]. revert E. rewrite cleanup_resolved by done.
  destruct (cleanable_inside _ _ Hc Hrel) as [_ Hne]. destruct Hc as (Hr & _ & _ & Hl & _ & Ht).
  assert (node_at (get_fs w) ws_dir = Some NDir) as Hn by (unfold node_at; by destruct ws_dir).
  rewrite Hrel, Hn. set (m := if exists_path _ _ then _ else _).
  assert (exists v, m w = (Ok tt, v) /\ same_off ws_dir (get_fs w) (get_fs v)) as (v & Em & Hs).
  { subst m. destruct (exists_path _ _); [|by exists w]. unfold suppress_workspace_error, try_except.
    destruct (run_git os cfg remove_cmd w) as [rg v] eqn:Eg. exists v.
    assert (same_off ws_dir (get_fs w) (get_fs v)) as Hs.
    { eapply run_git_confined; [done| |done]. set_solver. }
    destruct rg as [[]|e']; [done|]. apply run_git_err in Eg as [[msg ->]|Eg]; [done|].
    destruct (Hg w) as (o & v' & Hg'). congruence. }
  assert (get_fs v !! ws_dir = Some NDir) as Hdv by (rewrite Hs; [done|by apply prefix_not_below]).
  assert (node_at (get_fs v) (parent ws_dir) = Some NDir) as Hp.
  { rewrite (target_split ws_dir Hne) in Hd. apply Ht in Hd. rewrite <- Hd.
    pose proof (Hs _ (prefix_not_below _ _ (parent_prefix ws_dir))) as Hx. unfold node_at.
    by destruct (parent ws_dir). }
  rewrite (bind_ok _ _ _ _ _ Em). unfold try_except.
  by rewrite rmtree_dir, Hf by (first [done | by eapply same_off_real]).
Qed.
End Cleanup.

Section Provision.
Context (tenant_id task_id trace_id branch : string) (repo_url base_ref : option string).
Context (w w0 : W) (id : string).
Hypothesis fresh_id : id_factory w = (Ok id, w0) /\ get_fs w0 = get_fs w.
Hypothesis id_component : component id /\ id <> "..".
Hypothesis clock_quiet : forall v, get_fs (now v).2 = get_fs v.
Hypothesis root_real : real (get_fs w) configured.
Hypothesis root_dir : node_at (get_fs w) configured = Some NDir.
Hypothesis root_short : (length configured + 2 < PATH_FUEL)%nat.

Abbreviation ws_root := (configured ++ [id]).
Abbreviation cmds := (provision_commands id branch repo_url base_ref).

Lemma provision_unfold :
  provision os id_factory now cfg tenant_id task_id trace_id branch repo_url base_ref w =
  (mkdir_parents os (S (length ws_root)) false ws_root ;;;
   try_except
     (run_all cmds ;;;
      v <- get ;;
      resolved <- lift (resolve (get_fs v) (ws_root ++ ["feature"])) ;;
      created_at <- now ;;
      ret (mkWorkspace id tenant_id task_id trace_id repo_url base_ref branch
             (as_posix resolved) created_at))
     (fun e => Some (rmtree_ignore os ws_root ;;; raise e))) w0.
Proof.
  destruct fresh_id as [E _], id_component as [Hc Hn].
  unfold provision. rewrite (bind_ok _ _ _ _ _ E).
  rewrite !locate_div by done.
  apply bind_ext. intros [] w1 _. unfold try_except. rewrite <- bind_assoc. unfold bind at 1.
  rewrite run_all_provision. reflexivity.
Qed.

Hypothesis git_ok : git_confined ws_root cmds.

Lemma root_prefix : configured `prefix_of` ws_root.
Proof. by eexists. Qed.

(** Once made, the workspace is a real directory in an existing one, and stays
    so while the commands run. *)
Lemma made_root fs1 :
  same_off ws_root (<[ws_root := NDir]> (get_fs w)) fs1 ->
  real fs1 ws_root /\ ws_root <> [] /\ (length ws_root < PATH_FUEL)%nat /\
  node_at fs1 (parent ws_root) = Some NDir /\ fs1 !! ws_root = Some NDir.
Proof.
  intros Hs. destruct id_component as [_ Hn].
  assert (fs1 !! ws_root = Some NDir) as Hd.
  { rewrite Hs by (by apply prefix_not_below). by rewrite lookup_insert_eq. }
  assert (forall q, q `prefix_of` configured -> fs1 !! q = get_fs w !! q) as Hq.
  { intros q Hq. rewrite Hs by (apply prefix_not_below; etrans; [done|apply root_prefix]).
    apply lookup_insert_ne. intros <-. apply prefix_length in Hq. rewrite length_app in Hq.
    simpl in Hq. lia. }
  split_and!; [|by destruct (locate _ _)|rewrite length_app; simpl; lia| |done].
  - apply real_snoc; [|done|intros t; by rewrite Hd]. destruct root_real as [Hl Hx]. split; [|done].
    intros q t Hp. rewrite Hq by done. by apply Hl.
  - rewrite parent_app, <- root_dir. pose proof (Hq configured (reflexivity _)) as Hc.
    unfold node_at. destruct configured; [done|exact Hc].
Qed.

Lemma body_confined w1 r w2 :
  (run_all cmds ;;;
   v <- get ;;
   resolved <- lift (resolve (get_fs v) (ws_root ++ ["feature"])) ;;
   created_at <- now ;;
   ret (mkWorkspace id tenant_id task_id trace_id repo_url base_ref branch
          (as_posix resolved) created_at)) w1 = (r, w2) ->
  same_off ws_root (get_fs w1) (get_fs w2) /\
  (forall ws, r = Ok ws -> exists v created resolved,
     run_all cmds w1 = (Ok tt, v) /\ get_fs w2 = get_fs v /\
     resolve (get_fs w2) (ws_root ++ ["feature"]) = Ok resolved /\
     ws = mkWorkspace id tenant_id task_id trace_id repo_url base_ref branch
            (as_posix resolved) created).
Proof.
  unfold bind at 1. destruct (run_all cmds w1) as [[[]|e] v] eqn:E.
  2: { intros [= <- <-]. split; [by eapply run_all_confined|done]. }
  pose proof (run_all_confined _ _ git_ok _ _ _ E) as Hs. unfold bind, get, lift, ret.
  destruct (resolve (get_fs v) _) as [p|e] eqn:Er.
  2: { intros [= <- <-]. split; [exact Hs|done]. }
  pose proof (clock_quiet v) as Hv. destruct (now v) as [[t|e] v'] eqn:En; simpl in Hv;
    intros [= <- <-]; rewrite Hv; (split; [exact Hs|]); [|done].
  intros ws [= <-]. by exists v, t, p.
Qed.

(** Removing it again on the way out. *)
Lemma undo_root e w1 r w2 :
  same_off ws_root (<[ws_root := NDir]> (get_fs w)) (get_fs w1) ->
  (rmtree_ignore os ws_root ;;; raise (A:=Workspace) e) w1 = (r, w2) ->
  r = Err e /\
  (forall q, ~ ws_root `prefix_of` q -> get_fs w2 !! q = get_fs w !! q) /\
  (os_fault os w1 "rmtree" ws_root = None -> forall q, ws_root `prefix_of` q -> get_fs w2 !! q = None).
Proof.
  intros Hs. destruct (made_root _ Hs) as (Hr & Hne & Hl & Hp & Hd).
  unfold bind, rmtree_ignore, try_except. pose proof (rmtree_dir os ws_root w1 Hr Hne Hl Hp Hd) as Hx.
  destruct (rmtree os ws_root w1) as [rr v] eqn:E.
  destruct (rmtree_spec os ws_root w1 rr v Hr Hne Hl Hp E) as [Hout Hin].
  assert (forall q, ~ ws_root `prefix_of` q -> get_fs v !! q = get_fs w !! q) as Hq.
  { intros q Hq. rewrite Hout by done. rewrite Hs by (intros Hb; apply Hq, below_prefix; by right).
    apply lookup_insert_ne. by intros <-. }
  destruct rr as [[]|e']; [|destruct Hin as [cls ->]]; intros [= <- <-]; split_and!; try done.
  intros Hf. rewrite Hf in Hx. done.
Qed.

Hypothesis disk_tree : tree (get_fs w).

(** What a returned workspace says of the disk. *)
Lemma provision_made ws w' :
  provision os id_factory now cfg tenant_id task_id trace_id branch repo_url base_ref w = (Ok ws, w') ->
  get_fs w !! ws_root = None /\ same_off ws_root (<[ws_root := NDir]> (get_fs w)) (get_fs w') /\
  exists w1 w2 resolved created_at,
    get_fs w1 = <[ws_root := NDir]> (get_fs w) /\ run_all cmds w1 = (Ok tt, w2) /\
    get_fs w' = get_fs w2 /\ resolve (get_fs w') (ws_root ++ ["feature"]) = Ok resolved /\
    ws = mkWorkspace id tenant_id task_id trace_id repo_url base_ref branch
           (as_posix resolved) created_at.
Proof.
  destruct fresh_id as [Hid H0], id_component as [Hc Hn]. rewrite provision_unfold. unfold bind at 1.
  assert (length configured < PATH_FUEL)%nat as Hl by lia.
  rewrite mkdir_fresh; rewrite ?H0; [|done..].
  destruct (get_fs w !! ws_root) as [n|] eqn:En; [done|].
  destruct (os_fault os w0 "mkdir" ws_root); [done|].
  set (w1 := set_fs _ w0). assert (get_fs w1 = <[ws_root := NDir]> (get_fs w)) as H1 by apply get_set_fs.
  unfold try_except. destruct (bind (run_all cmds) _ w1) as [rb w2] eqn:Eb.
  apply body_confined in Eb as [Hs Hok]. rewrite H1 in Hs. destruct rb as [ws'|e].
  - intros [= -> <-]. destruct (Hok ws eq_refl) as (v & t & p & E1 & E2 & E3 & ->).
    split_and!; [done..|]. exists w1, v, p, t. done.
  - intros E. by destruct (undo_root _ _ _ _ Hs E) as (? & _).
Qed.

Lemma outside_made fs' : same_off ws_root (<[ws_root := NDir]> (get_fs w)) fs' ->
  forall q, ~ ws_root `prefix_of` q -> fs' !! q = get_fs w !! q.
Proof.
  intros Hs q Hq. rewrite Hs by (intros Hb; apply Hq, below_prefix; by right).
  apply lookup_insert_ne. by intros <-.
Qed.

(** What a failure leaves. *)
Lemma provision_failed e w' :
  provision os id_factory now cfg tenant_id task_id trace_id branch repo_url base_ref w = (Err e, w') ->
  (forall q, ~ ws_root `prefix_of` q -> get_fs w' !! q = get_fs w !! q) /\
  ((forall v, os_fault os v "rmtree" ws_root = None) -> get_fs w' = get_fs w).
Proof.
  destruct fresh_id as [Hid H0], id_component as [Hc Hn]. rewrite provision_unfold. unfold bind at 1.
  assert (length configured < PATH_FUEL)%nat as Hl by lia.
  rewrite mkdir_fresh; rewrite ?H0; [|done..].
  destruct (get_fs w !! ws_root) as [n|] eqn:En; [|destruct (os_fault os w0 "mkdir" ws_root)].
  1,2: intros [= <- <-]; rewrite H0; done.
  set (w1 := set_fs _ w0). assert (get_fs w1 = <[ws_root := NDir]> (get_fs w)) as H1 by apply get_set_fs.
  unfold try_except. destruct (bind (run_all cmds) _ w1) as [rb w2] eqn:Eb.
  apply body_confined in Eb as [Hs _]. rewrite H1 in Hs. destruct rb as [ws|e']; [done|].
  intros E. destruct (undo_root _ _ _ _ Hs E) as (_ & Hout & Hin). split; [done|].
  intros Hf. apply map_eq. intros q. destruct (decide (ws_root `prefix_of` q)) as [Hq|Hq]; [|auto].
  rewrite Hin by done. symmetry. eapply tree_fresh; [done|exact En| |done].
  by intros [_ ?]%app_nil.
Qed.

(** Where an error of the guarded part comes from. *)
Lemma body_error w1 e w2 :
  (run_all cmds ;;;
   v <- get ;;
   resolved <- lift (resolve (get_fs v) (ws_root ++ ["feature"])) ;;
   created_at <- now ;;
   ret (mkWorkspace id tenant_id task_id trace_id repo_url base_ref branch
          (as_posix resolved) created_at)) w1 = (Err e, w2) ->
  exists v, run_all cmds w1 = (Err e, v) \/
    (run_all cmds w1 = (Ok tt, v) /\
     (resolve (get_fs v) (ws_root ++ ["feature"]) = Err e \/ (now v).1 = Err e)).
Proof.
  unfold bind at 1. destruct (run_all cmds w1) as [[[]|e'] v] eqn:E; [|intros [= <- _]; exists v; by left].
  unfold bind, get, lift. intros Hx. exists v. right. split; [done|].
  destruct (resolve (get_fs v) _) as [p|e'] eqn:Er; [|injection Hx as <- _; by left].
  destruct (now v) as [[t|e'] v'] eqn:En; [done|]. injection Hx as <- _. by right.
Qed.


(** What the removal of a workspace relies on: the disk is still a tree, its
    worktree is no link, the system lets the directory be removed, and [git] can
    be started and keeps to the directory, whatever it answers. *)
Definition removable (ws : Workspace) (v : W) : Prop :=
  tree (get_fs v) /\
  (forall t, get_fs v !! (ws_root ++ ["feature"]) <> Some (NLink t)) /\
  (forall u, os_fault os u "rmtree" ws_root = None) /\
  (forall u, exists o u',
     os_exec os (remove_command ws) "." None (lg_timeout_seconds cfg) u = (Ok o, u') /\
     same_off ws_root (get_fs u) (get_fs u')).

Lemma cleanup_restores ws w1 v :
  provision os id_factory now cfg tenant_id task_id trace_id branch repo_url base_ref w = (Ok ws, w1) ->
  Forall component configured -> configured <> [] -> removable ws w1 -> get_fs v = get_fs w1 ->
  exists w2, cleanup os cfg ws v = (Ok tt, w2) /\ get_fs w2 = get_fs w.
Proof.
  intros E Hcs Hne (Ht1 & Hlink & Hf & Hg) Hv.
  destruct (provision_made ws w1 E) as (En & Hs & u & z & p & t & _ & _ & _ & Hp & Hws).
  destruct (made_root _ Hs) as (Hr & Hne' & Hl & Hpar & Hd). destruct id_component as [Hid Hn].
  rewrite resolve_id in Hp; [|by apply real_snoc|rewrite !length_app; simpl; lia].
  injection Hp as <-.
  assert (locate (os_cwd os) (path_parent (parse_path (ws_worktree_path ws))) = ws_root) as Hdir.
  { rewrite Hws. cbn [ws_worktree_path]. rewrite parse_posix; [unfold path_parent, locate; simpl; by rewrite parent_app|].
    rewrite !Forall_app. split_and!; [done|by constructor|by constructor]. }
  assert (cleanable ws (get_fs v)) as Hcl.
  { unfold cleanable. rewrite Hdir, Hv. split_and!; [done| |done|done|lia|done].
    eapply real_prefix; [exact Hr|apply root_prefix]. }
  assert (is_Some (relative_to (locate (os_cwd os) (path_parent (parse_path (ws_worktree_path ws)))) configured))
    as Hrel by (rewrite Hdir; exists [id]; by apply relative_to_Some).
  assert (git_confined (locate (os_cwd os) (path_parent (parse_path (ws_worktree_path ws))))
            [remove_command ws]) as Hgc.
  { rewrite Hdir. intros argv ->%list_elem_of_singleton v1 r1 v2 Ex.
    destruct (Hg v1) as (o & v' & Ex' & Hx). rewrite Ex' in Ex. by injection Ex as <- <-. }
  destruct (cleanup_succeeds ws Hgc v Hcl Hrel) as [w2 Ec]; rewrite ?Hdir, ?Hv; [done|done| |].
  { intros v1. destruct (Hg v1) as (o & v' & Ex & _). by exists o, v'. }
  exists w2. split; [done|]. destruct (cleanup_run ws Hgc v _ w2 Hcl Hrel Ec) as [Hout Hgone].
  unfold inside_same in Hout. rewrite Hdir in Hout, Hgone. apply map_eq. intros q.
  destruct (decide (ws_root `prefix_of` q)) as [Hq|Hq].
  - rewrite Hgone by done. symmetry. eapply tree_fresh; [done|exact En|done|done].
  - rewrite Hout, Hv by done. by apply outside_made.
Qed.

(** A workspace that was provisioned is cleaned up without a trace:
    [cleanup] of the returned handle succeeds, whatever [git worktree remove]
    answers, and the disk is the one before [provision]. *)
Theorem workspace_lifecycle ws w1 :
  provision os id_factory now cfg tenant_id task_id trace_id branch repo_url base_ref w = (Ok ws, w1) ->
  Forall component configured -> configured <> [] -> removable ws w1 ->
  exists w2, cleanup os cfg ws w1 = (Ok tt, w2) /\ get_fs w2 = get_fs w.
Proof. intros. by eapply cleanup_restores. Qed.

(** The docker manager over this local one. *)
Section Docker.
Context {HC : HasContainers W} (dcfg : DockerWorkspaceConfig).
Hypothesis same_config : dw_local_git dcfg = cfg.
Hypothesis containers_off_disk : forall c v, get_fs (set_containers c v) = get_fs v.
(** [docker] starts and removes containers, not files of the host. *)
Hypothesis docker_quiet : forall args v,
  get_fs (os_exec os (dw_docker_executable dcfg :: args) "." None (dw_timeout_seconds dcfg) v).2 = get_fs v.

Lemma run_docker_quiet args v r v' :
  run_docker os dcfg (dw_docker_executable dcfg :: args) v = (r, v') -> get_fs v' = get_fs v.
Proof.
  unfold run_docker, bind. pose proof (docker_quiet args v) as Hq.
  destruct (os_exec _ _ _ _ _ v) as [[o|e] v1]; simpl in Hq.
  - destruct o as [code out err|]; [destruct (code =? 0)|]; by intros [= _ <-].
  - by intros [= _ <-].
Qed.

Lemma start_container_quiet ws name v r v' :
  start_container os dcfg ws name v = (r, v') -> get_fs v' = get_fs v.
Proof.
  unfold start_container. unfold bind at 1, get at 1. unfold bind at 1, lift at 1.
  destruct (resolve _ _) as [p|e]; [|by intros [= _ <-]].
  unfold bind at 1, lift at 1. destruct (resolve _ _) as [q|e]; [|by intros [= _ <-]].
  unfold bind. destruct (run_docker _ _ _ v) as [[out|e] v1] eqn:E; apply run_docker_quiet in E;
    by intros [= _ <-].
Qed.

(** The tools of [infra/tools/docker_workspace.py] as they are set up beside
    this manager. *)
Definition tools_beside (dk : Docker) : Prop :=
  dk_root dk = configured /\ dk_executable dk = dw_docker_executable dcfg /\
  dk_prefix dk = dw_container_prefix dcfg /\ dk_container_root dk = "/workspace".

Lemma resolved_worktree ws w1 :
  provision os id_factory now cfg tenant_id task_id trace_id branch repo_url base_ref w = (Ok ws, w1) ->
  (forall t, get_fs w1 !! (ws_root ++ ["feature"]) <> Some (NLink t)) ->
  ws_workspace_id ws = id /\ ws_worktree_path ws = as_posix (ws_root ++ ["feature"]) /\
  resolve (get_fs w1) (ws_root ++ ["feature"]) = Ok (ws_root ++ ["feature"]) /\
  resolve (get_fs w1) ws_root = Ok ws_root.
Proof.
  intros E Hlink. destruct (provision_made ws w1 E) as (En & Hs & u & z & p & t & _ & _ & _ & Hp & ->).
  destruct (made_root _ Hs) as (Hr & Hne' & Hl & Hpar & Hd).
  assert (resolve (get_fs w1) (ws_root ++ ["feature"]) = Ok (ws_root ++ ["feature"])) as Hx.
  { apply resolve_id; [by apply real_snoc|]. rewrite !length_app. simpl. lia. }
  rewrite Hx in Hp. injection Hp as <-. split_and!; [done..|by apply resolve_id].
Qed.

Lemma path_parts_posix q : Forall component q -> path_parts (as_posix q) = q.
Proof. intros Hq. exact (f_equal pp_parts (parse_posix q Hq)). Qed.

Lemma is_absolute_posix q : is_absolute (as_posix q) = true.
Proof. unfold is_absolute, as_posix. by destruct (str_join "/" q). Qed.

(** What a started container was started with. *)
Lemma start_container_args ws w1 name v :
  provision os id_factory now cfg tenant_id task_id trace_id branch repo_url base_ref w = (Ok ws, w1) ->
  (forall t, get_fs w1 !! (ws_root ++ ["feature"]) <> Some (NLink t)) -> Forall component configured ->
  start_container os dcfg ws name w1 = (Ok tt, v) ->
  exists out, run_docker os dcfg
    ([dw_docker_executable dcfg; "run"; "-d"; "--rm"; "--name"; name;
      "-v"; as_posix ws_root +:+ ":/workspace"; "-w"; "/workspace/feature"]
     ++ (match dw_network dcfg with Some n => ["--network"; n] | None => [] end)
     ++ [dw_image dcfg; "sleep"; "infinity"]) w1 = (Ok out, v).
Proof.
  intros E Hlink Hcs. destruct (resolved_worktree ws w1 E Hlink) as (_ & Hw & Hf & Hr).
  destruct id_component as [Hid _].
  unfold start_container. unfold bind at 1, get at 1. rewrite Hw.
  rewrite parse_posix by (rewrite !Forall_app; split_and!; [done|by constructor|by constructor]).
  unfold locate at 1. cbn [pp_root pp_parts]. change (nonempty "/") with true. cbv iota.
  unfold bind at 1, lift at 1. rewrite Hf. unfold bind at 1, lift at 1. rewrite parent_app, Hr.
  unfold container_args.
  assert (path_name (ws_root ++ ["feature"]) = "feature") as -> by (unfold path_name; by rewrite last_snoc).
  change ("/workspace/" +:+ "feature") with "/workspace/feature". unfold bind.
  destruct (run_docker os dcfg _ w1) as [[out|e] v1]; [|done]. intros [= <-]. by exists out.
Qed.

(** A docker tool that is given the worktree runs in the container of its id. *)
Lemma tools_reach fs dk ctx interactive :
  resolve fs (ws_root ++ ["feature"]) = Ok (ws_root ++ ["feature"]) -> Forall component configured ->
  tools_beside dk -> tx_workspace_path ctx = Some (as_posix (ws_root ++ ["feature"])) ->
  exists worktree, docker_require_workspace os dk fs ctx = Ok worktree /\
    exec_prefix dk worktree interactive =
      [dw_docker_executable dcfg; "exec"] ++ (if interactive then ["-i"] else [])
      ++ ["-w"; "/workspace/feature"; dw_container_prefix dcfg +:+ "-" +:+ id].
Proof.
  intros Hres Hcs (Hr & He & Hp & Hc) Hctx. exists (ws_root ++ ["feature"]).
  destruct id_component as [Hid _].
  unfold docker_require_workspace. rewrite Hctx. unfold join_path.
  rewrite is_absolute_posix.
  rewrite path_parts_posix by (rewrite !Forall_app; split_and!; [done|by constructor|by constructor]).
  assert (relative_to (ws_root ++ ["feature"]) configured = Some [id; "feature"]) as Hrel
    by (apply relative_to_Some; by rewrite <- app_assoc).
  rewrite Hres. cbn [res_bind]. rewrite Hr, Hrel. split; [done|].
  unfold exec_prefix. rewrite He, Hp, Hc. unfold path_name at 1. rewrite last_snoc, parent_app.
  unfold path_name. by rewrite last_snoc.
Qed.

(** The container and the worktree come in pairs.  A workspace is returned
    only when the host worktree was provisioned and its container was started
    from it; the container is then on record under the workspace's id, and it is
    the one every docker tool runs in when it is given that workspace, in the
    directory where the worktree is mounted.  When either step fails, for whatever
    reason, the disk is as it was before. *)
Theorem docker_provision_spec r w' :
  Forall component configured -> configured <> [] ->
  (forall ws w1, provision os id_factory now cfg tenant_id task_id trace_id branch repo_url base_ref w =
                   (Ok ws, w1) -> removable ws w1) ->
  (forall v, os_fault os v "rmtree" ws_root = None) ->
  docker_provision os id_factory now dcfg tenant_id task_id trace_id branch repo_url base_ref w = (r, w') ->
  match r with
  | Ok ws => exists name w1 w2 out,
      provision os id_factory now cfg tenant_id task_id trace_id branch repo_url base_ref w = (Ok ws, w1) /\
      run_docker os dcfg
        ([dw_docker_executable dcfg; "run"; "-d"; "--rm"; "--name"; name;
          "-v"; as_posix ws_root +:+ ":/workspace"; "-w"; "/workspace/feature"]
         ++ (match dw_network dcfg with Some n => ["--network"; n] | None => [] end)
         ++ [dw_image dcfg; "sleep"; "infinity"]) w1 = (Ok out, w2) /\
      w' = set_containers (<[id := name]> (get_containers w2)) w2 /\
      forall dk ctx interactive, tools_beside dk -> tx_workspace_path ctx = Some (ws_worktree_path ws) ->
        exists worktree, docker_require_workspace os dk (get_fs w') ctx = Ok worktree /\
          exec_prefix dk worktree interactive =
            [dw_docker_executable dcfg; "exec"] ++ (if interactive then ["-i"] else [])
            ++ ["-w"; "/workspace/feature"; name]
  | Err _ => get_fs w' = get_fs w
  end.
Proof.
  intros Hcs Hne Hrm Hf. unfold docker_provision. unfold bind at 1. rewrite same_config.
  destruct (provision _ _ _ _ _ _ _ _ _ _ w) as [[ws|e] w1] eqn:E.
  2: { intros [= <- <-]. by apply provision_failed in E as [_ E]; [apply E|..]. }
  assert (container_name_of dcfg ws = dw_container_prefix dcfg +:+ "-" +:+ id) as Hname.
  { destruct (provision_made ws w1 E) as (_ & _ & ? & ? & ? & ? & _ & _ & _ & _ & ->). done. }
  rewrite Hname. unfold bind at 1, try_except.
  destruct (start_container _ _ _ _ w1) as [[[]|e] w2] eqn:Es.
  - unfold bind, modify, ret. intros [= <- <-].
    destruct (Hrm _ _ eq_refl) as (_ & Hlink & _).
    destruct (start_container_args ws w1 _ w2 E Hlink Hcs Es) as [out Hrun].
    destruct (resolved_worktree ws w1 E Hlink) as (Hid & Hpath & Hres & _). rewrite Hid.
    exists (dw_container_prefix dcfg +:+ "-" +:+ id), w1, w2, out. split_and!; [done..|].
    intros dk ctx interactive. rewrite Hpath. apply tools_reach; [|done].
    by rewrite containers_off_disk, (start_container_quiet _ _ _ _ _ Es).
  - apply start_container_quiet in Es. unfold safe_inner_cleanup, docker_inner_cleanup.
    rewrite same_config.
    destruct (cleanup_restores ws w1 w2 E Hcs Hne (Hrm _ _ eq_refl) Es) as (w3 & Ec & Hfs).
    unfold bind, suppress_workspace_error, try_except. rewrite Ec. by intros [= <- <-].
Qed.
End Docker.
End Provision.
End LocalGitFacts.

(** The docker cleanup always cleans the host up, after [docker rm], whatever
    that answered; its error is the host's if there is one, else the container's
    unless the message says that the container was missing. *)
Theorem docker_cleanup_spec {W : Type} `{HasFS W} `{HasContainers W} (os : OsPorts W)
    (dcfg : DockerWorkspaceConfig) ws w r w' :
  docker_cleanup os dcfg ws w = (r, w') ->
  exists rm v ri,
    run_docker os dcfg
      [dw_docker_executable dcfg; "rm"; "-f";
       default (container_name_of dcfg ws) (get_containers w !! ws_workspace_id ws)]
      (set_containers (delete (ws_workspace_id ws) (get_containers w)) w) = (rm, v) /\
    cleanup os (dw_local_git dcfg) ws v = (ri, w') /\
    r = match ri, rm with
        | Err e, _ => Err e
        | Ok _, Ok _ => Ok tt
        | Ok _, Err (WorkspaceError msg) =>
            if is_missing_container msg then Ok tt else Err (WorkspaceError msg)
        | Ok _, Err e => Err e
        end.
Proof.
  unfold docker_cleanup, pop_container, docker_inner_cleanup, try_finally, try_except.
  unfold bind, get, modify, ret. destruct (run_docker _ _ _ _) as [rm v] eqn:E.
  intros Hr. exists rm, v. destruct (cleanup os (dw_local_git dcfg) ws v) as [ri v1] eqn:Ec.
  destruct rm as [out|e].
  - rewrite Ec in Hr. exists ri. destruct ri as [[]|e]; by simplify_eq.
  - exists ri. destruct e; try (rewrite Ec in Hr; destruct ri as [[]|]; by simplify_eq).
    destruct (is_missing_container msg); rewrite Ec in Hr; destruct ri as [[]|]; by simplify_eq.
Qed.

(** ** A concrete host *)

Record Host : Type := mkHost { h_fs : FS; h_containers : gmap string string }.
#[export] Instance Host_HasFS : HasFS Host := {
  get_fs := h_fs; set_fs := fun f w => mkHost f (h_containers w); get_set_fs := fun f w => eq_refl
}.
#[export] Instance Host_HasContainers : HasContainers Host := {
  get_containers := h_containers; set_containers := fun c w => mkHost (h_fs w) c
}.

(** [git clone] and [git worktree add] make their directory, except that the
    branch [taken] exists; the image [broken] cannot be started. *)
Definition demo_programs : list string -> Host -> res ExecOutcome * Host := fun argv w =>
  let made p := (Ok (Exited 0 "" ""), mkHost (<[path_parts p := NDir]> (h_fs w)) (h_containers w)) in
  if String.eqb (default "" (head argv)) "docker" then
    (Ok (if str_in argv "broken" then Exited 125 "" "docker: image not found" else Exited 0 "" ""), w)
  else if str_in argv "clone" then made (default "" (last argv))
  else if str_in argv "add" then
    if str_in argv "taken" then (Ok (Exited 128 "" "fatal: a branch named 'taken' already exists"), w)
    else made (default "" (argv !! 7%nat))
  else (Ok (Exited 0 "" ""), w).
Definition host_os : OsPorts Host := {|
  os_exec := fun argv _ _ _ => demo_programs argv;
  re_compile := fun _ => None; glob := fun _ _ _ => Ok []; os_fault := fun _ _ _ => None;
  os_cwd := []; sys_executable := "python"
|}.
Definition demo_cfg : LocalGitConfig := default_local_git (parse_path "/srv/ws").
Definition demo_dcfg (image : string) : DockerWorkspaceConfig := default_docker_workspace demo_cfg image.
Definition demo_disk : Host := mkHost (list_to_map [(["srv"], NDir); (["srv"; "ws"], NDir)]) ∅.
Definition demo_id : M Host string := ret "ws-1".
Definition demo_now : M Host Z := ret 7.
Definition demo_provision (branch : string) : M Host Workspace :=
  provision host_os demo_id demo_now demo_cfg "acme" "t1" "tr" branch (Some "https://git/x") (Some "main").

(** Side conditions that only need evaluation. *)
Lemma tree_check fs :
  forallb (fun e => match rev e.1 with
                    | [] => true
                    | _ :: r => bool_decide (node_at fs (rev r) = Some NDir)
                    end) (map_to_list fs) = true -> tree fs.
Proof.
  intros Hf q x n Hn. rewrite forallb_forall in Hf.
  specialize (Hf (q ++ [x], n)). rewrite <- list_elem_of_In, elem_of_map_to_list in Hf.
  specialize (Hf Hn). simpl in Hf. rewrite rev_app_distr in Hf. simpl in Hf.
  rewrite rev_involutive in Hf. by apply bool_decide_eq_true in Hf.
Qed.

Lemma real_check fs p :
  forallb (fun k => match fs !! take k p with Some (NLink _) => false | _ => true end)
    (seq 0 (S (length p))) = true -> bool_decide (".." ∈ p) = false -> real fs p.
Proof.
  intros Hf Hd. split.
  - intros q t [k ->] E. rewrite forallb_forall in Hf. specialize (Hf (length q)).
    rewrite take_app_length, E in Hf. assert (false = true) as [=]. apply Hf. apply in_seq.
    rewrite length_app. lia.
  - by apply bool_decide_eq_false in Hd.
Qed.

Lemma inserted_same_off root p n fs : below root p -> same_off root fs (<[p := n]> fs).
Proof. intros Hb q Hq. apply lookup_insert_ne. by intros ->. Qed.

Lemma demo_git_confined branch :
  branch = "taken" \/ branch = "agent/t1" ->
  git_confined host_os demo_cfg ["srv"; "ws"; "ws-1"]
    (provision_commands demo_cfg "ws-1" branch (Some "https://git/x") (Some "main")).
Proof.
  intros Hb argv Hin w r w'.
  apply elem_of_cons in Hin as [->|Hin]; [|apply list_elem_of_singleton in Hin as ->];
    destruct Hb as [->| ->]; intros [= _ <-]; simpl; try done.
  - apply inserted_same_off. by exists "main", [].
  - apply inserted_same_off. by exists "main", [].
  - apply inserted_same_off. by exists "feature", [].
Qed.

Lemma demo_root_facts :
  let root := locate (os_cwd host_os) (lg_root_dir demo_cfg) in
  component "ws-1" /\ "ws-1" <> ".." /\ real (get_fs demo_disk) root /\
  node_at (get_fs demo_disk) root = Some NDir /\ tree (get_fs demo_disk).
Proof.
  split_and!; [done|done|apply real_check; vm_compute; reflexivity|reflexivity|].
  apply tree_check. vm_compute. reflexivity.
Qed.


Definition demo_ws : Workspace :=
  mkWorkspace "ws-1" "acme" "t1" "tr" (Some "https://git/x") (Some "main") "agent/t1"
    "/srv/ws/ws-1/feature" 7.

Lemma demo_provisioned : demo_provision "agent/t1" demo_disk = (Ok demo_ws, (demo_provision "agent/t1" demo_disk).2).
Proof. apply run_fst. vm_compute. reflexivity. Qed.

Lemma demo_removable : removable host_os demo_cfg "ws-1" demo_ws (demo_provision "agent/t1" demo_disk).2.
Proof.
  split_and!.
  - apply tree_check. vm_compute. reflexivity.
  - intros t. vm_compute. done.
  - done.
  - intros u. exists (Exited 0 "" ""), u. split; [vm_compute; by destruct u|done].
Qed.

Lemma cleanup_spec_witness :
  let w := (demo_provision "agent/t1" demo_disk).2 in
  exists w', cleanup host_os demo_cfg demo_ws w = (Ok tt, w') /\
    inside_same host_os demo_ws (h_fs w) (h_fs w') /\
    (forall q, ["srv"; "ws"; "ws-1"] `prefix_of` q -> h_fs w' !! q = None) /\
    cleanup host_os demo_cfg demo_ws w' = (Ok tt, w').
Proof.
  intros w. exists (cleanup host_os demo_cfg demo_ws w).2.
  assert ((cleanup host_os demo_cfg demo_ws w).1 = Ok tt) as E by (vm_compute; reflexivity).
  apply run_fst in E. split; [exact E|].
  assert (git_confined host_os demo_cfg ["srv"; "ws"; "ws-1"] [remove_command demo_cfg demo_ws]) as Hg.
  { intros argv Hin v r v'. apply list_elem_of_singleton in Hin as ->. intros [= _ <-]. done. }
  assert (cleanable host_os demo_cfg demo_ws (h_fs w)) as Hcl.
  { split_and!; [| |done|apply Nat.ltb_lt; vm_compute; reflexivity
                |apply Nat.ltb_lt; vm_compute; reflexivity|apply tree_check; vm_compute; reflexivity].
    all: apply real_check; vm_compute; reflexivity. }
  destruct (cleanup_spec host_os demo_cfg demo_ws Hg w _ _ Hcl E) as [Hin [Hgone Hagain]].
  split; [exact Hin|]. split; [exact Hgone|exact Hagain].
Defined.

Lemma workspace_lifecycle_witness :
  exists w2, cleanup host_os demo_cfg demo_ws (demo_provision "agent/t1" demo_disk).2 = (Ok tt, w2) /\
    h_fs w2 = h_fs demo_disk.
Proof.
  destruct demo_root_facts as (Hc & Hn & Hr & Hd & Ht).
  apply (workspace_lifecycle host_os demo_id demo_now demo_cfg "acme" "t1" "tr" "agent/t1"
    (Some "https://git/x") (Some "main") demo_disk demo_disk "ws-1" (conj eq_refl eq_refl) (conj Hc Hn)
    (fun _ => eq_refl) Hr Hd ltac:(apply Nat.ltb_lt; vm_compute; reflexivity)
    (demo_git_confined "agent/t1" (or_intror eq_refl)) Ht demo_ws _ demo_provisioned).
  - by repeat constructor.
  - done.
  - exact demo_removable.
Defined.

(** The image cannot be started: the worktree is removed again. *)
Lemma docker_provision_spec_witness :
  exists e w', docker_provision host_os demo_id demo_now (demo_dcfg "broken") "acme" "t1" "tr" "agent/t1"
                 (Some "https://git/x") (Some "main") demo_disk = (Err e, w') /\
    h_fs w' = h_fs demo_disk.
Proof.
  destruct demo_root_facts as (Hc & Hn & Hr & Hd & Ht).
  set (run := docker_provision host_os demo_id demo_now (demo_dcfg "broken") "acme" "t1" "tr" "agent/t1"
                (Some "https://git/x") (Some "main") demo_disk).
  destruct run.1 as [ws|e] eqn:E; [exfalso; revert E; vm_compute; done|].
  apply run_fst in E. exists e, run.2. split; [exact E|].
  refine (docker_provision_spec host_os demo_id demo_now demo_cfg "acme" "t1" "tr" "agent/t1"
    (Some "https://git/x") (Some "main") demo_disk demo_disk "ws-1" (conj eq_refl eq_refl) (conj Hc Hn)
    (fun _ => eq_refl) Hr Hd ltac:(apply Nat.ltb_lt; vm_compute; reflexivity)
    (demo_git_confined "agent/t1" (or_intror eq_refl)) Ht (demo_dcfg "broken") eq_refl
    (fun _ _ => eq_refl) (fun _ _ => eq_refl) (Err e) run.2 ltac:(by repeat constructor) ltac:(done) _
    (fun _ => eq_refl) E).
  intros ws w1 Hp. pose proof (eq_trans (eq_sym demo_provisioned) Hp) as Hx.
  injection Hx as <- <-. exact demo_removable.
Defined.
