(* ===== verification/CodeIndex.v ===== *)
(** * CodeIndex: symbol-aware search over the live worktree

    [infra/tools/code_index/languages.py] and [tree_sitter_retrieval.py].  The
    tree-sitter parser is the port [query_matches] (the captures of a language's
    symbol query on a source, each with its first node); the case-insensitive
    regular expression of [search] is the port [count_matches].  The walk, the
    filters, [fnmatch], the whole-word search, the symbol index, the enclosing
    symbol, the outline depth and the rankings are translated. *)

From S2P Require Import Prelude PyText Utf8 Domain GraphRuntime Results ShellAgent Tools FileSystem LocalWorkspace LocalWorkspaceFacts WebDocs.
Import Utf8.

(** ** Languages *)

Record LanguageSpec : Type := mkLanguage { lg_name : string; lg_extensions : list string }.
Definition LANGUAGES : list LanguageSpec :=
  [mkLanguage "python" [".py"]; mkLanguage "typescript" [".ts"; ".tsx"]].
Definition SUPPORTED_LANGUAGES : list string := map lg_name LANGUAGES.

Definition language_for_path (p : string) : option string :=
  lg_name <$> List.find (fun l => existsb (fun ext => str_endswith ext (py_lower p)) (lg_extensions l)) LANGUAGES.

Definition spec_for (language : string) : res LanguageSpec :=
  match List.find (fun l => String.eqb (lg_name l) language) LANGUAGES with
  | Some l => Ok l
  | None => Err (ValueError ("unsupported language " +:+ py_repr_str language))
  end.

Definition language_extensions (language : option string) : res (list string) :=
  match language with
  | None => Ok (flat_map lg_extensions LANGUAGES)
  | Some l => let? spec := spec_for l in Ok (lg_extensions spec)
  end.

Definition capture_to_kind (capture : string) : SymbolKind :=
  default SK_OTHER (dget
    [("function", SK_FUNCTION); ("method", SK_METHOD); ("class", SK_CLASS); ("interface", SK_INTERFACE);
     ("variable", SK_VARIABLE); ("constant", SK_CONSTANT)] capture).

(** ** Helpers *)

Definition MAX_FILE_BYTES : Z := 1000000.
Definition SKIPPED_DIRS : list string :=
  [".git"; ".hg"; ".svn"; ".venv"; "venv"; "node_modules"; "__pycache__"; ".mypy_cache"; ".ruff_cache";
   ".pytest_cache"; "dist"; "build"].

Definition is_ident_start (c : Ascii.ascii) : bool := is_alpha c || char_is 95 c.

(** [re.fullmatch(r"[A-Za-z_][A-Za-z0-9_]*", s)]. *)
Definition is_identifier (s : string) : bool :=
  match s with
  | EmptyString => false
  | String c s' => is_ident_start c && negb (str_exists (fun c => negb (is_ident_char c)) s')
  end.

Definition check_symbol (symbol : string) : res unit :=
  if negb (nonempty symbol) || negb (nonempty (py_strip symbol)) then
    Err (ToolValidationError "code_index: symbol must be non-empty")
  else if negb (is_identifier symbol) then
    Err (ToolValidationError ("code_index: symbol " +:+ py_repr_str symbol +:+ " is not a plain identifier"))
  else Ok tt.

(** [re.search(rf"\b{symbol}\b", s)] for an identifier: an occurrence with no
    word character on either side. *)
Definition starts_word (s : string) : bool := match s with String c _ => is_word_char c | EmptyString => false end.
Fixpoint word_in (symbol : string) (after_word : bool) (s : string) : bool :=
  (negb after_word && String.prefix symbol s &&
   negb (starts_word (String.substring (String.length symbol) (String.length s) s)))
  || match s with EmptyString => false | String c s' => word_in symbol (is_word_char c) s' end.

(** [s.replace(old, new)], left to right without overlap; [fuel] is the length. *)
Fixpoint replace_from (fuel : nat) (old new s : string) : string :=
  match fuel with
  | O => s
  | S fuel' =>
      match str_split_once old s with
      | None => s
      | Some (a, b) => a +:+ new +:+ replace_from fuel' old new b
      end
  end.
Definition py_replace (old new s : string) : string := replace_from (String.length s) old new s.

Definition normalise_glob (g : string) : string := py_replace "**" "*" (py_replace "**/" "" g).

(** [fnmatch.fnmatch]: a pattern is read into literals, [*], [?] and bracket
    sets (possibly negated, with ranges; a bracket that is never closed is a
    literal), [fuel] being its length. *)
Inductive gpat : Type :=
  | PLit (c : Ascii.ascii)
  | PAny
  | PStar
  | PSet (negated : bool) (ranges : list (Ascii.ascii * Ascii.ascii)).

(** The set items up to the closing bracket, and what follows it. *)
Fixpoint set_body (first : bool) (s : string) : option (string * string) :=
  match s with
  | EmptyString => None
  | String c s' =>
      if char_is 93 c && negb first then Some ("", s')
      else match set_body false s' with
           | Some (body, rest) => Some (String c body, rest)
           | None => None
           end
  end.
Fixpoint set_ranges (s : string) : list (Ascii.ascii * Ascii.ascii) :=
  match s with
  | EmptyString => []
  | String a rest =>
      match rest with
      | String d (String b rest') =>
          if char_is 45 d then (a, b) :: set_ranges rest' else (a, a) :: set_ranges rest
      | _ => (a, a) :: set_ranges rest
      end
  end.
Fixpoint parse_glob (fuel : nat) (s : string) : list gpat :=
  match fuel, s with
  | S fuel', String c s' =>
      if char_is 42 c then PStar :: parse_glob fuel' s'
      else if char_is 63 c then PAny :: parse_glob fuel' s'
      else if char_is 91 c then
        let '(neg, inner) := match s' with
                             | String n s'' => if char_is 33 n then (true, s'') else (false, s')
                             | EmptyString => (false, s')
                             end in
        match set_body true inner with
        | Some (body, rest) => PSet neg (set_ranges body) :: parse_glob fuel' rest
        | None => PLit c :: parse_glob fuel' s'
        end
      else PLit c :: parse_glob fuel' s'
  | _, _ => []
  end.
Definition in_ranges (c : Ascii.ascii) (l : list (Ascii.ascii * Ascii.ascii)) : bool :=
  existsb (fun r => in_range (Ascii.nat_of_ascii r.1) (Ascii.nat_of_ascii r.2) c) l.
Definition one_matches (p : gpat) (c : Ascii.ascii) : bool :=
  match p with
  | PLit x => Ascii.eqb x c
  | PAny => true
  | PStar => false
  | PSet neg l => xorb neg (in_ranges c l)
  end.
Fixpoint glob_matches (pattern : list gpat) : string -> bool :=
  match pattern with
  | [] => fun s => match s with EmptyString => true | _ => false end
  | PStar :: rest =>
      fix star (s : string) : bool :=
        glob_matches rest s || match s with EmptyString => false | String _ s' => star s' end
  | p :: rest => fun s =>
      match s with
      | EmptyString => false
      | String c s' => one_matches p c && glob_matches rest s'
      end
  end.
Definition fnmatch (pattern s : string) : bool :=
  glob_matches (parse_glob (String.length pattern) pattern) s.
Example fnmatch_examples :
  map (fun ps => fnmatch ps.1 ps.2)
    [("src/*.py", "src/a/b.py"); ("*.py", "x.ts"); ("[!a-c]?", "dx"); ("[a-c]", "d"); ("a[", "a[")] =
  [true; false; true; false; true].
Proof. reflexivity. Qed.

Definition matches_any_glob (rel : string) (globs : list string) : bool :=
  existsb (fun g => fnmatch (normalise_glob g) rel) globs.

(** ** The symbol index *)

Record TsNode : Type := mkTsNode { tn_start_row : Z; tn_end_row : Z; tn_text : option string }.
(** [(start_line, end_line, name, kind)]. *)
Record SymbolIndexEntry : Type := mkSymbol {
  si_start : Z; si_end : Z; si_name : string; si_kind : SymbolKind
}.

(** One match: [name] is remembered, the last other capture gives the kind. *)
Definition match_entry (captures : list (string * TsNode)) : option SymbolIndexEntry :=
  let step acc cn :=
    if String.eqb cn.1 "name" then (Some cn.2, snd acc) else (fst acc, Some cn) in
  match fold_left step captures (None, None) with
  | (Some name_node, Some (capture, outer)) =>
      Some (mkSymbol (tn_start_row outer + 1) (tn_end_row outer + 1)
              (match truthy_str (tn_text name_node) with Some t => decode_replace t | None => "" end)
              (capture_to_kind capture))
  | _ => None
  end.

(** The sort key [(start, -(end - start))]. *)
Definition outer_first (a b : SymbolIndexEntry) : Prop :=
  si_start a < si_start b \/
  (si_start a = si_start b /\ si_end b - si_start b <= si_end a - si_start a).
#[global] Instance outer_first_dec : RelDecision outer_first.
Proof. intros a b. unfold outer_first. apply _. Defined.

Definition enclosing_symbol (index : list SymbolIndexEntry) (line_no : Z) : option (string * SymbolKind) :=
  fst <$> fold_left (fun (best : option (string * SymbolKind * Z)) e =>
    if (si_start e <=? line_no) && (line_no <=? si_end e) then
      let span := si_end e - si_start e in
      match best with
      | Some (_, b) => if span <? b then Some (si_name e, si_kind e, span) else best
      | None => Some (si_name e, si_kind e, span)
      end
    else best) index None.

Definition encloses (outer inner : SymbolIndexEntry) : bool :=
  ((si_start outer <? si_start inner) && (si_start inner <=? si_end outer) && (si_end inner <=? si_end outer))
  || ((si_start outer <=? si_start inner) && (si_end inner <? si_end outer)
      && negb (si_start outer =? si_start inner)).

(** [sorted(index, ...)], then the depth of each entry. *)
Definition outline_of_index (index : list SymbolIndexEntry) : list OutlineEntry :=
  let sorted := merge_sort outer_first index in
  map (fun e => mkOutlineEntry (si_start e) (Some (si_end e)) (si_name e) (si_kind e)
                  (Z.of_nat (length (List.filter (fun o => encloses o e) sorted)))) sorted.

(** ** The tool *)

Record CodePorts (W : Type) : Type := mkCodePorts {
  query_matches : string -> string -> list (list (string * TsNode));
  (** [re.compile(query, re.IGNORECASE)]: the number of matches in a line, or
      [None] for [re.error]. *)
  count_matches : string -> option (string -> nat);
  cp_os : OsPorts W
}.
Arguments mkCodePorts {W}. Arguments query_matches {W}. Arguments count_matches {W}. Arguments cp_os {W}.

Section CodeIndex.
Context {W : Type} `{HasFS W} (cp : CodePorts W).

Definition build_symbol_index (source language : string) : list SymbolIndexEntry :=
  merge_sort outer_first (omap match_entry (query_matches cp language source)).

Definition code_require_workspace (ctx : ToolContext) : res path :=
  match tx_workspace_path ctx with
  | None => Err (ToolValidationError "code_index: ctx.workspace_path is required; the agent must be running against a provisioned workspace")
  | Some ws => Ok (join_path (os_cwd (cp_os cp)) ws)
  end.

Definition code_resolve_path (fs : FS) (workspace : path) (p : string) : res path :=
  let? candidate := resolve fs (join_path workspace p) in
  let? root := resolve fs workspace in
  match relative_to candidate root with
  | Some _ => Ok candidate
  | None => Err (ToolValidationError ("code_index: path " +:+ py_repr_str p +:+ " escapes the workspace"))
  end.

(** Paths below the workspace, relative to it. *)
Definition rglob_rel (fs : FS) (workspace : path) : list path :=
  match resolve fs workspace with
  | Ok root => omap (fun q => match relative_to q root with Some ((_ :: _) as rel) => Some rel | _ => None end)
                 (map fst (map_to_list fs))
  | Err _ => []
  end.

Definition file_size (fs : FS) (p : path) : Z :=
  match stat fs p with Some (NFile data) => Z.of_nat (String.length data) | _ => 0 end.

(** One step of [_iter_workspace]: is [rel] yielded? *)
Definition visits (fs : FS) (workspace root : path) (extensions globs : list string) (rel : path) : res bool :=
  let p := workspace ++ rel in
  if negb (is_file fs p) then Ok false
  else if existsb (str_in SKIPPED_DIRS) (parent rel) then Ok false
  else if negb (str_in extensions (py_lower (name_suffix (path_name rel)))) then Ok false
  else if MAX_FILE_BYTES <? file_size fs p then Ok false
  else
    let match_any := match globs with [] => true | _ => bool_decide (globs = ["**/*"]) end in
    if negb match_any && negb (matches_any_glob (rel_posix rel) globs) then Ok false
    else
      let? real := resolve fs p in
      Ok (match relative_to real root with Some (_ :: _) => true | _ => false end).

Definition iter_workspace (fs : FS) (workspace : path) (globs : list string) (language : option string)
    : res (list path) :=
  let? extensions := language_extensions language in
  let? root := resolve fs workspace in
  let? flags := mapM_res (fun rel => let? b := visits fs workspace root extensions globs rel in Ok (b, rel))
                  (rglob_rel fs workspace) in
  Ok (map snd (List.filter fst flags)).

(** [path.read_text(...)] or [read_bytes()] with [except OSError: continue]. *)
Definition try_read (p : path) : M W (option string) :=
  try_except (data <- read_bytes (os_fault (cp_os cp)) p ;; ret (Some data))
    (fun e => match e with OSError _ => Some (ret None) | _ => None end).

(** [enumerate(text.splitlines(), start=1)]. *)
Definition numbered_lines (text : string) : list (Z * string) :=
  imap (fun i line => (Z.of_nat (S i), line)) (py_splitlines text).

Definition search_in_file (rel : string) (data : string) (count : string -> nat) : list CodeHit :=
  let index := match language_for_path rel with
               | Some lang => build_symbol_index data lang
               | None => []
               end in
  omap (fun nl =>
    let '(line_no, line) := nl in
    match count line with
    | O => None
    | n =>
        let enclosing := enclosing_symbol index line_no in
        Some (mkCodeHit rel line_no (fst <$> enclosing) (snd <$> enclosing) (py_strip line)
                (mkScore (Z.min (Z.of_nat n + 1) 5) 5))
    end) (numbered_lines (decode_replace data)).

(** The sort key [(-score, path, line_no)]. *)
Definition better_hit (a b : CodeHit) : Prop :=
  sc_num (ch_score b) < sc_num (ch_score a) \/
  (sc_num (ch_score a) = sc_num (ch_score b) /\
   (ch_path a <> ch_path b /\ str_le (ch_path a) (ch_path b) \/
    ch_path a = ch_path b /\ ch_line_no a <= ch_line_no b)).
#[local] Instance better_hit_dec : RelDecision better_hit.
Proof. intros a b. unfold better_hit. apply _. Defined.

(** The loop of [search]: it stops after the file that reaches the limit. *)
Fixpoint search_files (workspace : path) (count : string -> nat) (limit : Z) (rels : list path)
    (hits : list CodeHit) : M W (list CodeHit) :=
  match rels with
  | [] => ret hits
  | rel :: rest =>
      text <- try_read (workspace ++ rel) ;;
      match text with
      | None => search_files workspace count limit rest hits
      | Some data =>
          let hits' := hits ++ search_in_file (rel_posix rel) data count in
          if limit <=? Z.of_nat (length hits') then ret hits'
          else search_files workspace count limit rest hits'
      end
  end.

Definition ts_search (ctx : ToolContext) (query : string) (globs : list string) (language : option string)
    (limit : Z) : M W (list CodeHit) :=
  if negb (nonempty query) || negb (nonempty (py_strip query)) then
    raise (ToolValidationError "code_search: query must be non-empty")
  else if limit <=? 0 then raise (ToolValidationError "code_search: limit must be a positive int")
  else
    workspace <- lift (code_require_workspace ctx) ;;
    match count_matches cp query with
    | None => raise (ToolValidationError ("code_search: invalid regex " +:+ py_repr_str query +:+ ": "))
    | Some count =>
        w <- get ;;
        rels <- lift (iter_workspace (get_fs w) workspace globs language) ;;
        hits <- search_files workspace count limit rels [] ;;
        ret (take (Z.to_nat limit) (merge_sort better_hit hits))
    end.

Definition extract_definitions (rel data language symbol : string) : list CodeLocation :=
  let lines := py_splitlines (decode_replace data) in
  map (fun e =>
    mkCodeLocation rel (si_start e) (Some (si_end e)) (si_name e) (si_kind e)
      (if (1 <=? si_start e) && (si_start e <=? Z.of_nat (length lines))
       then py_strip (default "" (lines !! Z.to_nat (si_start e - 1))) else ""))
    (List.filter (fun e => String.eqb (si_name e) symbol) (build_symbol_index data language)).

Definition by_location (a b : CodeLocation) : Prop :=
  cl_path a <> cl_path b /\ str_le (cl_path a) (cl_path b) \/
  cl_path a = cl_path b /\ cl_line_no a <= cl_line_no b.
#[local] Instance by_location_dec : RelDecision by_location.
Proof. intros a b. unfold by_location. apply _. Defined.

Definition ts_get_definition (ctx : ToolContext) (symbol : string) (language : option string)
    (globs : list string) : M W (list CodeLocation) :=
  lift (check_symbol symbol) ;;;
  workspace <- lift (code_require_workspace ctx) ;;
  w <- get ;;
  rels <- lift (iter_workspace (get_fs w) workspace globs language) ;;
  found <- for_each rels [] (fun rel acc =>
    source <- try_read (workspace ++ rel) ;;
    match source with
    | None => ret acc
    | Some data =>
        if negb (word_in symbol false (decode_replace data)) then ret acc
        else match language_for_path (as_posix (workspace ++ rel)) with
             | None => ret acc
             | Some lang => ret (acc ++ extract_definitions (rel_posix rel) data lang symbol)
             end
    end) ;;
  ret (merge_sort by_location found).

(** The body of the file loop of [get_references]; the flag is the early return. *)
Definition refs_in_file (workspace : path) (symbol : string) (limit : Z) (rel : path)
    (acc : list CodeLocation * bool) : M W (list CodeLocation * bool) :=
  if snd acc then ret acc else
  text <- try_read (workspace ++ rel) ;;
  match text with
  | None => ret acc
  | Some data =>
      ret (fold_left (fun (acc : list CodeLocation * bool) nl =>
             if snd acc then acc
             else if word_in symbol false (snd nl) then
               let out := fst acc ++ [mkCodeLocation (rel_posix rel) (fst nl) None symbol SK_OTHER
                                        (py_strip (snd nl))] in
               (out, limit <=? Z.of_nat (length out))
             else acc) (numbered_lines (decode_replace data)) acc)
  end.

Definition ts_get_references (ctx : ToolContext) (symbol : string) (language : option string)
    (globs : list string) (limit : Z) : M W (list CodeLocation) :=
  lift (check_symbol symbol) ;;;
  if limit <=? 0 then raise (ToolValidationError "get_references: limit must be a positive int") else
  workspace <- lift (code_require_workspace ctx) ;;
  w <- get ;;
  rels <- lift (iter_workspace (get_fs w) workspace globs language) ;;
  r <- for_each rels ([], false) (refs_in_file workspace symbol limit) ;;
  ret (fst r).

Definition ts_outline (ctx : ToolContext) (p : string) : M W (list OutlineEntry) :=
  workspace <- lift (code_require_workspace ctx) ;;
  w <- get ;;
  let fs := get_fs w in
  target <- lift (code_resolve_path fs workspace p) ;;
  if negb (is_file fs target) then
    raise (ToolValidationError ("outline: " +:+ py_repr_str p +:+ " is not a file"))
  else if MAX_FILE_BYTES <? file_size fs target then
    raise (ToolValidationError ("outline: " +:+ py_repr_str p +:+ " exceeds max file size 1000000 bytes"))
  else match language_for_path (as_posix target) with
  | None => raise (ToolValidationError ("outline: " +:+ py_repr_str p +:+ " has no supported language"))
  | Some lang =>
      source <- read_bytes (os_fault (cp_os cp)) target ;;
      ret (outline_of_index (build_symbol_index source lang))
  end.

Definition TreeSitterCodeRetrievalTool : CodeRetrievalTool W :=
  mkCodeRetrievalTool ts_search ts_get_definition ts_get_references ts_outline.
End CodeIndex.

(** ** Facts *)

Section CodeFacts.
Context {W : Type} `{HasFS W} (cp : CodePorts W).

Lemma mapM_res_In {A B} (f : A -> res B) l l' y :
  mapM_res f l = Ok l' -> In y l' -> exists x, In x l /\ f x = Ok y.
Proof.
  revert l'. induction l as [|x l IH]; intros l'; simpl.
  { intros [= <-]. done. }
  intros (y0 & Hy & Hr)%res_bind_inv. apply res_bind_inv in Hr as (ys & Hys & [= <-]).
  intros [<-|Hin]; [eauto|]. destruct (IH ys Hys Hin) as (x' & ? & ?). eauto.
Qed.

(** A visited file: a regular file of a wanted extension and an allowed size,
    outside the skipped directories, whose real place is in the workspace. *)
Definition visited (fs : FS) (workspace root : path) (extensions : list string) (rel : path) : Prop :=
  is_file fs (workspace ++ rel) = true /\
  (forall part, In part (parent rel) -> ~ In part SKIPPED_DIRS) /\
  In (py_lower (name_suffix (path_name rel))) extensions /\
  file_size fs (workspace ++ rel) <= MAX_FILE_BYTES /\
  exists inside, resolve fs (workspace ++ rel) = Ok (root ++ inside) /\ inside <> [].

Lemma str_in_In l x : str_in l x = true <-> In x l.
Proof.
  unfold str_in. rewrite existsb_exists. split.
  - intros (y & Hy & ->%String.eqb_eq). done.
  - intros Hx. exists x. split; [done|apply String.eqb_refl].
Qed.

Lemma visits_true fs workspace root extensions globs rel :
  visits fs workspace root extensions globs rel = Ok true -> visited fs workspace root extensions rel.
Proof.
  unfold visits, visited. destruct (is_file _ _); cbn [negb]; [|done].
  destruct (existsb _ (parent rel)) eqn:Es; [done|].
  destruct (str_in extensions _) eqn:Ee; cbn [negb]; [|done].
  destruct (Z.ltb_spec MAX_FILE_BYTES (file_size fs (workspace ++ rel))); [done|].
  destruct (negb _ && negb _); [done|].
  intros (real & Hr & Hx)%res_bind_inv.
  destruct (relative_to real root) as [[|x inside]|] eqn:Er; try done.
  apply relative_to_Some in Er as ->. apply str_in_In in Ee. split_and!; try done; [|by exists (x :: inside)].
  intros part Hp Hsk. apply str_in_In in Hsk.
  assert (existsb (str_in SKIPPED_DIRS) (parent rel) = true); [|congruence].
  apply existsb_exists. eauto.
Qed.

Lemma iter_workspace_visits fs workspace globs language rels rel :
  iter_workspace fs workspace globs language = Ok rels -> In rel rels ->
  exists root extensions, resolve fs workspace = Ok root /\
    language_extensions language = Ok extensions /\ visited fs workspace root extensions rel.
Proof.
  unfold iter_workspace. intros (exts & He & Hx)%res_bind_inv Hin.
  apply res_bind_inv in Hx as (root & Hr & Hx). apply res_bind_inv in Hx as (flags & Hf & [= <-]).
  apply in_map_iff in Hin as ([b rel'] & <- & Hin). apply filter_In in Hin as [Hin Hb]. cbn in Hb. subst b.
  destruct (mapM_res_In _ _ _ _ Hf Hin) as (x & _ & (b & Hv & Heq)%res_bind_inv).
  injection Heq as -> ->. exists root, exts. split_and!; [done..|]. by eapply visits_true.
Qed.

Lemma try_read_spec p w r w' :
  try_read cp p w = (Ok r, w') ->
  w' = w /\ match r with Some data => stat (get_fs w) p = Some (NFile data) | None => True end.
Proof.
  unfold try_read, try_except, read_bytes, os_check, bind, get.
  destruct (os_fault (cp_os cp) w "read" p); [by intros [= <- <-]|].
  destruct (stat (get_fs w) p) as [[]|]; by intros [= <- <-].
Qed.

Lemma numbered_lines_lookup text n line :
  In (n, line) (numbered_lines text) -> 0 < n /\ py_splitlines text !! Z.to_nat (n - 1) = Some line.
Proof.
  unfold numbered_lines. intros Hin. apply list_elem_of_In, elem_of_lookup_imap in Hin as (i & x & [= -> ->] & Hx).
  split; [lia|]. by replace (Z.to_nat (Z.of_nat (S i) - 1)) with i by lia.
Qed.

(** What a reference must be: a line of a visited file that has the symbol as a
    whole word. *)
Definition genuine_reference (fs : FS) (workspace : path) (language : option string) (symbol : string)
    (loc : CodeLocation) : Prop :=
  exists root extensions rel data line,
    resolve fs workspace = Ok root /\ language_extensions language = Ok extensions /\
    visited fs workspace root extensions rel /\ stat fs (workspace ++ rel) = Some (NFile data) /\
    cl_path loc = rel_posix rel /\ 0 < cl_line_no loc /\
    py_splitlines (decode_replace data) !! Z.to_nat (cl_line_no loc - 1) = Some line /\
    word_in symbol false line = true /\ cl_snippet loc = py_strip line.

(** The state of the loops of [get_references]. *)
Definition refs_ok (P : CodeLocation -> Prop) (limit : Z) (acc : list CodeLocation * bool) : Prop :=
  (forall loc, In loc acc.1 -> P loc) /\ Z.of_nat (length acc.1) <= limit /\
  (acc.2 = false -> Z.of_nat (length acc.1) < limit).

Lemma ref_lines_ok P limit (mk : Z -> string -> CodeLocation) lines acc symbol :
  (forall n line, In (n, line) lines -> word_in symbol false line = true -> P (mk n line)) ->
  refs_ok P limit acc ->
  refs_ok P limit (fold_left (fun (acc : list CodeLocation * bool) nl =>
               if snd acc then acc
               else if word_in symbol false (snd nl) then
                 let out := fst acc ++ [mk (fst nl) (snd nl)] in
                 (out, limit <=? Z.of_nat (length out))
               else acc) lines acc).
Proof.
  revert acc. induction lines as [|[n line] lines IH]; intros [out stop] Hp Hacc; [done|]. cbn [fold_left].
  apply IH; [intros; apply Hp; [by right|done]|]. cbn [fst snd].
  destruct stop; [done|]. destruct (word_in symbol false line) eqn:Ew; [|done].
  destruct Hacc as (H1 & H2 & H3). specialize (H3 eq_refl). cbn [fst snd] in *.
  assert (Hl : length (out ++ [mk n line]) = S (length out)) by (rewrite length_app; simpl; lia).
  split_and!; cbn [fst snd]; rewrite ?Hl.
  - intros loc. rewrite in_app_iff. intros [|[<-|[]]]; [by apply H1|]. apply Hp; [by left|done].
  - lia.
  - rewrite Z.leb_gt. lia.
Qed.

Lemma refs_loop workspace language symbol limit w rels : forall acc0 acc w',
  (forall rel, In rel rels -> exists root extensions,
     resolve (get_fs w) workspace = Ok root /\ language_extensions language = Ok extensions /\
     visited (get_fs w) workspace root extensions rel) ->
  refs_ok (genuine_reference (get_fs w) workspace language symbol) limit acc0 ->
  for_each rels acc0 (refs_in_file cp workspace symbol limit) w = (Ok acc, w') ->
  refs_ok (genuine_reference (get_fs w) workspace language symbol) limit acc /\ w' = w.
Proof.
  set (P := genuine_reference (get_fs w) workspace language symbol).
  induction rels as [|rel rels IH]; intros acc0 acc w' Hvis Hacc.
  { unfold for_each, ret. by intros [= <- <-]. }
  cbn [for_each]. intros (acc1 & w2 & Hb & Hrest)%bind_inv_ok.
  assert (refs_ok P limit acc1 /\ w2 = w) as [Hacc1 ->].
  { unfold refs_in_file in Hb. destruct (snd acc0); [by injection Hb as <- <-|].
    apply bind_inv_ok in Hb as (text & w3 & Ht & Hb). apply try_read_spec in Ht as [-> Hst].
    destruct text as [data|]; [|by injection Hb as <- <-]. injection Hb as <- <-. split; [|done].
    apply (ref_lines_ok P limit (fun n line => mkCodeLocation (rel_posix rel) n None symbol SK_OTHER
                                                 (py_strip line))); [|done].
    intros n line Hin Hw. destruct (Hvis rel ltac:(by left)) as (root & exts & H1 & H2 & H3).
    apply numbered_lines_lookup in Hin as [Hn Hline].
    exists root, exts, rel, data, line. by split_and!. }
  apply (IH acc1); [|done|done]. intros. apply Hvis. by right.
Qed.

(** References are genuine.  Every location [get_references] returns is a
    line that contains the symbol as a whole word, in a regular file of the
    workspace of a wanted language, below the size limit, outside the skipped
    directories and not reached through a link that leaves the workspace; there
    are at most [limit] of them, and the search changes nothing. *)
Theorem references_genuine ctx symbol language globs limit w locs w' :
  ts_get_references cp ctx symbol language globs limit w = (Ok locs, w') ->
  w' = w /\ is_identifier symbol = true /\ Z.of_nat (length locs) <= limit /\
  exists workspace, code_require_workspace cp ctx = Ok workspace /\
    forall loc, In loc locs -> genuine_reference (get_fs w) workspace language symbol loc.
Proof.
  unfold ts_get_references, bind at 1, lift at 1.
  destruct (check_symbol symbol) as [[]|] eqn:Es; [|done].
  destruct (Z.leb_spec limit 0) as [|Hl]; [done|]. unfold bind at 1 2 3, lift, get.
  destruct (code_require_workspace cp ctx) as [workspace|]; [|done].
  destruct (iter_workspace _ _ _ _) as [rels|] eqn:Ei; [|done].
  intros (acc & w1 & Hrun & [= <- <-])%bind_inv_ok.
  assert (Hid : is_identifier symbol = true).
  { unfold check_symbol in Es. destruct (_ || _); [done|]. by destruct (is_identifier symbol). }
  apply refs_loop with (language := language) in Hrun as [(H1 & H2 & _) ->].
  - split_and!; try done. by exists workspace.
  - intros rel. by eapply iter_workspace_visits.
  - split_and!; cbn; try done; lia.
Qed.

(** The symbol reported around a line is the innermost one: an entry whose
    range has the line, and no entry that has the line is shorter; no symbol is
    reported exactly when no entry has the line. *)
Theorem enclosing_symbol_innermost index line_no :
  let has e := si_start e <= line_no <= si_end e in
  match enclosing_symbol index line_no with
  | Some (name, kind) =>
      exists e, In e index /\ has e /\ si_name e = name /\ si_kind e = kind /\
        forall o, In o index -> has o -> si_end e - si_start e <= si_end o - si_start o
  | None => forall e, In e index -> ~ has e
  end.
Proof.
  intros has. unfold enclosing_symbol.
  set (step := fun (best : option (string * SymbolKind * Z)) e => _).
  set (good := fun (l : list SymbolIndexEntry) (best : option (string * SymbolKind * Z)) =>
    match best with
    | Some (nk, b) => exists e, In e l /\ has e /\ (si_name e, si_kind e) = nk /\
        b = si_end e - si_start e /\ forall o, In o l -> has o -> b <= si_end o - si_start o
    | None => forall e, In e l -> ~ has e
    end).
  assert (Hgo : forall l l0 best, good l0 best -> good (l0 ++ l) (fold_left step l best)).
  { induction l as [|e l IH]; intros l0 best Hb; [by rewrite app_nil_r|].
    cbn [fold_left]. replace (l0 ++ e :: l) with ((l0 ++ [e]) ++ l) by (by rewrite <- app_assoc).
    apply IH. unfold step at 1.
    assert (Hh : (si_start e <=? line_no) && (line_no <=? si_end e) = true <-> has e)
      by (unfold has; rewrite andb_true_iff, !Z.leb_le; done).
    destruct ((si_start e <=? line_no) && (line_no <=? si_end e)).
    - assert (He : has e) by (by apply Hh). destruct best as [[nk b]|].
      + destruct Hb as (x & Hx & Hhx & Hnk & -> & Hmin).
        destruct (Z.ltb_spec (si_end e - si_start e) (si_end x - si_start x)).
        * exists e. split_and!; [apply in_app_iff; right; by left|done..|].
          intros o [Ho|[<-|[]]]%in_app_iff Hho; [|lia]. specialize (Hmin o Ho Hho). lia.
        * exists x. split_and!; [apply in_app_iff; by left|done..|].
          intros o [Ho|[<-|[]]]%in_app_iff Hho; [|lia]. by apply Hmin.
      + exists e. split_and!; [apply in_app_iff; right; by left|done..|].
        intros o [Ho|[<-|[]]]%in_app_iff Hho; [|lia]. by destruct (Hb o Ho).
    - assert (He : ~ has e) by (rewrite <- Hh; done). destruct best as [[nk b]|].
      + destruct Hb as (x & Hx & Hhx & Hnk & -> & Hmin). exists x.
        split_and!; [apply in_app_iff; by left|done..|].
        intros o [Ho|[<-|[]]]%in_app_iff Hho; [by apply Hmin|done].
      + intros o [Ho|[<-|[]]]%in_app_iff; [by apply Hb|done]. }
  pose proof (Hgo index [] None (fun e (He : In e []) => False_ind _ He)) as Hx. cbn [app] in Hx.
  destruct (fold_left step index None) as [[[n k] b]|]; cbn; [|exact Hx].
  destruct Hx as (e & H1 & H2 & [= <- <-] & -> & H5). eauto 10.
Qed.

(** A language the index does not support is not a tool error: every walk
    with it raises [ValueError], which the executor does not turn into an
    observation. *)
Theorem unsupported_language_raises ctx query globs language limit w ws count :
  code_require_workspace cp ctx = Ok ws -> count_matches cp query = Some count ->
  nonempty (py_strip query) = true -> 0 < limit -> ~ In language SUPPORTED_LANGUAGES ->
  exists m, ts_search cp ctx query globs (Some language) limit w = (Err (ValueError m), w) /\
            tool_error (ValueError m) = None.
Proof.
  intros Hws Hc Hq Hl Hn.
  assert (Hs : exists m, spec_for language = Err (ValueError m)).
  { unfold spec_for. destruct (List.find _ LANGUAGES) as [l|] eqn:Ef; [|by eexists].
    apply find_some in Ef as [Hl' <-%String.eqb_eq]. destruct Hn. by apply in_map. }
  destruct Hs as [m Hm]. exists m. split; [|done]. unfold ts_search.
  assert (nonempty query = true) as -> by (destruct query; [done|done]). rewrite Hq. cbn [negb orb].
  destruct (Z.leb_spec limit 0); [lia|]. unfold bind, lift, get. rewrite Hws, Hc.
  unfold iter_workspace, language_extensions. by rewrite Hm.
Qed.
End CodeFacts.

(** ** A concrete worktree *)

Definition demo_code : CodePorts FS := {|
  query_matches := fun _ _ => [[("function", mkTsNode 0 1 None); ("name", mkTsNode 0 0 (Some "run"))]];
  count_matches := fun q => Some (fun line => if str_contains q line then 1%nat else 0%nat);
  cp_os := demo_os no_fault
|}.
Definition demo_tree : FS := list_to_map
  [(["srv"], NDir); (["srv"; "repo"], NDir); (["srv"; "repo"; "m.py"], NFile "def run(): pass");
   (["srv"; "repo"; "out.py"], NLink "/etc/run.py"); (["etc"; "run.py"], NFile "run");
   (["srv"; "repo"; "venv"], NDir); (["srv"; "repo"; "venv"; "x.py"], NFile "run")].

Lemma references_genuine_witness :
  exists loc, (ts_get_references demo_code demo_ctx "run" None [] 10 demo_tree).1 = Ok [loc] /\
    cl_path loc = "m.py" /\
    exists workspace, code_require_workspace demo_code demo_ctx = Ok workspace /\
      genuine_reference demo_tree workspace None "run" loc.
Proof.
  set (run := ts_get_references demo_code demo_ctx "run" None [] 10 demo_tree).
  set (loc := mkCodeLocation "m.py" 1 None "run" SK_OTHER "def run(): pass").
  assert (E : run.1 = Ok [loc]) by (vm_compute; reflexivity).
  exists loc. split; [exact E|]. split; [reflexivity|].
  destruct (references_genuine demo_code demo_ctx "run" None [] 10 demo_tree [loc] run.2 (run_fst run _ E))
    as (_ & _ & _ & ws & Hws & Hg).
  exists ws. split; [exact Hws|]. apply Hg. by left.
Defined.

Lemma unsupported_language_raises_witness :
  exists m, ts_search demo_code demo_ctx "run" [] (Some "go") 5 demo_tree = (Err (ValueError m), demo_tree) /\
            tool_error (ValueError m) = None.
Proof.
  apply (unsupported_language_raises demo_code demo_ctx "run" [] "go" 5 demo_tree ["srv"; "repo"]
           (fun line => if str_contains "run" line then 1%nat else 0%nat)); try reflexivity.
  cbn. intros [Hx|[Hx|[]]]; discriminate Hx.
Defined.

(** [code_search] ranks only what it has read.  It stops reading at the file
    that reaches the limit, so a better match in a later file is not returned;
    and a glob with [**/] between two names does not match deeper files, which the
    comment on the normalisation rules out. *)
Theorem search_is_greedy :
  (exists rels hits, search_files demo_code ["srv"; "repo"] (fun l => String.length l) 1 rels []
      (list_to_map [(["srv"; "repo"; "a.py"], NFile "x"); (["srv"; "repo"; "b.py"], NFile "xxxxx")]) = hits /\
    rels = [["a.py"]; ["b.py"]] /\
    exists h, hits.1 = Ok [h] /\ ch_path h = "a.py" /\ sc_num (ch_score h) = 2) /\
  matches_any_glob "src/a/x.py" ["src/**/x.py"] = false.
Proof.
  split; [|reflexivity]. eexists [["a.py"]; ["b.py"]], _. split; [reflexivity|]. split; [reflexivity|].
  exists (mkCodeHit "a.py" 1 (Some "run") (Some SK_FUNCTION) "x" (mkScore 2 5)).
  split_and!; vm_compute; reflexivity.
Qed.
