(* ===== verification/LlmClients.v ===== *)
(** * LlmClients: the decorators around the language model

    [infra/llm/]: [circuit_breaking.py], [metered.py], [rate_limited.py],
    [budget_enforcing.py], [routing.py] and [redacting.py], composed the way
    [worker/bootstrap.py] composes them, and the budget enforcer of
    [infra/budget/llm_usage_aggregator.py].

    An [LLMClient] is its [complete] method.  The provider, the limiter, the
    breaker, the enforcer's repository, the recorder, the audit sink, the id
    source and the clocks are ports; log calls are dropped.  The budget cache is
    state of the decorator, reached through [HasBudgetCache]. *)

From S2P Require Import Prelude PyText Domain GraphRuntime Results ShellAgent Breaker RateLimit.

Definition LLMClient (W : Type) : Type := LLMRequest -> M W LLMResponse.

(** [isinstance(exc, LLMError)]. *)
Definition is_llm_error (e : exn) : bool :=
  match e with
  | LLMError _ | LLMTransientError _ | LLMRateLimitedError _ | LLMInvalidRequestError _
  | LLMAuthError _ | LLMBudgetExceededError _ _ => true
  | _ => false
  end.

(** ** Budgets ([core/ports/budget.py]) *)

Record BudgetUsage : Type := mkBudgetUsage { bu_tokens_used : Z; bu_cost_usd_micros_used : Z }.
Record BudgetDecision : Type := mkBudgetDecision {
  bd_allowed : bool; bd_usage : BudgetUsage; bd_limit_tokens : option Z
}.

(** The [_cache] of the budget decorator: expiry and decision by tenant. *)
Class HasBudgetCache (W : Type) : Type := {
  budget_cache : W -> gmap string (Z * BudgetDecision);
  set_budget_cache : gmap string (Z * BudgetDecision) -> W -> W;
  budget_cache_set : forall c w, budget_cache (set_budget_cache c w) = c
}.

Definition ellipsis : string :=
  String (Ascii.ascii_of_nat 226) (String (Ascii.ascii_of_nat 128) (String (Ascii.ascii_of_nat 166) "")).

(** [v if len(v) <= n else v[:n-1] + "…"]. *)
Definition clip (n : nat) (v : string) : string :=
  if Nat.leb (String.length v) n then v else str_take (n - 1) v +:+ ellipsis.
Definition truncate_message (v : string) : string := clip 500 v.

Definition upper_char (c : Ascii.ascii) : Ascii.ascii :=
  let n := Ascii.nat_of_ascii c in
  if Nat.leb 97 n && Nat.leb n 122 then Ascii.ascii_of_nat (n - 32) else c.
Fixpoint py_upper (s : string) : string :=
  match s with EmptyString => EmptyString | String c s' => String (upper_char c) (py_upper s') end.

Definition message_excerpt (m : ChatMessage) : list string :=
  let content := clip 500 (py_strip (cm_content m)) in
  let role := py_upper (MessageRole_value (cm_role m)) in
  if nonempty content then [role +:+ ": " +:+ content]
  else
    let names := str_join ", " (List.filter nonempty (map tc_name (cm_tool_calls m))) in
    if nonempty names then [role +:+ "_TOOL_CALLS: " +:+ names] else [].

Definition blank_line : string := String (Ascii.ascii_of_nat 10) (String (Ascii.ascii_of_nat 10) "").
Definition request_excerpt (r : LLMRequest) : option string :=
  match concat (map message_excerpt (rq_messages r)) with
  | [] => None
  | parts => Some (clip 4000 (str_join blank_line parts))
  end.

Definition metered_elapsed_ms (started ended : Z) : Z :=
  let delta := ended - started in if delta <? 0 then 0 else Z.quot delta 1000.

(** The record of a call that returned, and of one that raised; [str(error)] is
    a parameter. *)
Definition build_record (exn_str : exn -> string) (c : RequestContext) (r : LLMRequest)
    (outcome : LLMResponse + exn) (elapsed : Z) (provider record_id : string) (now : Z)
    : LLMUsageRecord :=
  match outcome with
  | inl resp =>
      mkUsageRecord record_id (ctx_tenant_id c) (ctx_trace_id c) (Some (ctx_request_id c))
        (Some (ctx_principal_id c)) (ctx_session_id c) (ctx_task_id c) provider
        (truthy_str (Some (rs_model resp))) (rq_model r) (us_prompt_tokens (rs_usage resp))
        (us_completion_tokens (rs_usage resp)) (us_total_tokens (rs_usage resp))
        (Some (rs_finish_reason resp)) (rs_provider_response_id resp) (rq_prompt_id r)
        (rq_prompt_version r) (request_excerpt r) (rq_step_kind r)
        (us_cost_usd_micros (rs_usage resp)) elapsed USAGE_OK None None now
  | inr e =>
      mkUsageRecord record_id (ctx_tenant_id c) (ctx_trace_id c) (Some (ctx_request_id c))
        (Some (ctx_principal_id c)) (ctx_session_id c) (ctx_task_id c) provider None (rq_model r)
        None None None None None (rq_prompt_id r) (rq_prompt_version r) (request_excerpt r)
        (rq_step_kind r) None elapsed USAGE_ERROR (category e) (Some (truncate_message (exn_str e))) now
  end.

(** ** Ports shared by the decorators *)

Record LlmEnv (W : Type) : Type := mkLlmEnv {
  le_provider : string;
  le_new_id : M W string;
  le_clock : M W Z;
  le_monotonic : M W Z;
  le_audit_sink : option (AuditEvent -> M W unit);
  le_exn_str : exn -> string
}.
Arguments mkLlmEnv {W}. Arguments le_provider {W}. Arguments le_new_id {W}. Arguments le_clock {W}.
Arguments le_monotonic {W}. Arguments le_audit_sink {W}. Arguments le_exn_str {W}.

Section Decorators.
Context {W : Type} `{!HasContext W} (env : LlmEnv W).

Definition get_current : M W (option RequestContext) := fun w => (Ok (current_ctx w), w).

(** [_audit_deny] and [_audit_open]: nothing without a sink or a context; a
    failing append is swallowed. *)
Definition audit_denial (ctx : option RequestContext) (action : string) (payload : dict) : M W unit :=
  match le_audit_sink env, ctx with
  | Some append, Some c =>
      event_id <- le_new_id env ;;
      now <- le_clock env ;;
      try_except
        (append (mkAuditEvent event_id (ctx_tenant_id c) (ctx_principal_id c) (ctx_session_id c)
                   (ctx_task_id c) (ctx_trace_id c) action payload now))
        (fun e => if is_exception e then Some (ret tt) else None)
  | _, _ => ret tt
  end.

Definition default_key (ctx : option RequestContext) (r : LLMRequest) : string :=
  "llm:" +:+ le_provider env +:+ ":tenant=" +:+
  (match ctx with Some c => ctx_tenant_id c | None => "anonymous" end) +:+ ":model=" +:+
  default "default" (truthy_str (rq_model r)).

(** *** [CircuitBreakingLLMClient] *)

Definition default_should_count (e : exn) : bool :=
  match e with LLMInvalidRequestError _ | LLMAuthError _ => false | _ => true end.

Definition BreakerCall : Type := string -> M W LLMResponse -> option (exn -> bool) -> M W LLMResponse.

Definition audit_open (ctx : option RequestContext) (r : LLMRequest) (key : string) (retry : option Z) : M W unit :=
  audit_denial ctx "llm.circuit_breaker.open"
    [("provider", JStr (le_provider env)); ("requested_model", opt_json JStr (rq_model r));
     ("key", JStr key); ("retry_after_ms", opt_json JInt retry)].

Definition circuit_breaking (call : BreakerCall) (fail_open : bool) (inner : LLMClient W) : LLMClient W :=
  fun r =>
  ctx <- get_current ;;
  let key := default_key ctx r in
  try_except (call key (inner r) (Some default_should_count))
    (fun e => match e with
     | CircuitBreakerOpenError retry => Some (
         audit_open ctx r key retry ;;;
         raise (LLMTransientError "upstream circuit breaker open"))
     | CircuitBreakerBackendError => if fail_open then Some (inner r) else None
     | _ => None
     end).

(** *** [MeteredLLMClient] *)

Definition safe_record (record : LLMUsageRecord -> M W unit) (ctx : option RequestContext) (r : LLMRequest)
    (outcome : LLMResponse + exn) (elapsed : Z) : M W unit :=
  match ctx with
  | None => ret tt
  | Some c =>
      record_id <- le_new_id env ;;
      now <- le_clock env ;;
      row <- lift (check_usage_record
               (build_record (le_exn_str env) c r outcome elapsed (le_provider env) record_id now)) ;;
      try_except (record row) (fun e => if is_exception e then Some (ret tt) else None)
  end.

Definition metered (record : LLMUsageRecord -> M W unit) (inner : LLMClient W) : LLMClient W := fun r =>
  ctx <- get_current ;;
  started <- le_monotonic env ;;
  response <- try_except (inner r)
    (fun e => if is_llm_error e then Some (
       ended <- le_monotonic env ;;
       safe_record record ctx r (inr e) (metered_elapsed_ms started ended) ;;;
       raise e) else None) ;;
  ended <- le_monotonic env ;;
  safe_record record ctx r (inl response) (metered_elapsed_ms started ended) ;;;
  ret response.

(** *** [RateLimitedLLMClient] *)

Definition rate_audit_deny (ctx : option RequestContext) (r : LLMRequest) (key : string) (d : RateLimitDecision)
    : M W unit :=
  audit_denial ctx "llm.rate_limited.denied"
    [("provider", JStr (le_provider env)); ("requested_model", opt_json JStr (rq_model r));
     ("key", JStr key); ("retry_after_ms", opt_json JInt (rd_retry_after_ms d));
     ("remaining", JInt (rd_remaining d))].

Definition rate_limited (acquire : string -> M W RateLimitDecision) (fail_open : bool)
    (inner : LLMClient W) : LLMClient W := fun r =>
  ctx <- get_current ;;
  let key := default_key ctx r in
  decision <- try_except (d <- acquire key ;; ret (Some d))
    (fun e => match e with
     | RateLimiterBackendError => if fail_open then Some (ret None) else None
     | _ => None
     end) ;;
  match decision with
  | None => inner r
  | Some d =>
      if negb (rd_allowed d) then
        rate_audit_deny ctx r key d ;;;
        raise (LLMRateLimitedError (rd_retry_after_ms d))
      else inner r
  end.
End Decorators.

(** ** [BudgetEnforcingLLMClient] *)

Section Budget.
Context {W : Type} `{!HasContext W, !HasBudgetCache W} (env : LlmEnv W).
(** The enforcer's [check], the fail-open flag and the cache lifetime
    (microseconds). *)
Context (check : string -> M W BudgetDecision) (fail_open : bool) (cache_ttl : Z).

Definition cached_decision (tenant : string) (now : Z) : M W (option BudgetDecision) := fun w =>
  (Ok (if 0 <? cache_ttl then
         match budget_cache w !! tenant with
         | Some (expires_at, d) => if now <? expires_at then Some d else None
         | None => None
         end
       else None), w).

Definition store_decision (tenant : string) (now : Z) (d : BudgetDecision) : M W unit := fun w =>
  (Ok tt, if 0 <? cache_ttl
          then set_budget_cache (<[tenant := (now + cache_ttl, d)]> (budget_cache w)) w else w).

(** [_check]; [None] when the backend failed and the decorator fails open. *)
Definition budget_check (tenant : string) : M W (option BudgetDecision) :=
  now <- le_monotonic env ;;
  cached <- cached_decision tenant now ;;
  match cached with
  | Some d => ret (Some d)
  | None =>
      fresh <- try_except (d <- check tenant ;; ret (Some d))
        (fun e => match e with
         | BudgetBackendError => if fail_open then Some (ret None) else None
         | _ => None
         end) ;;
      match fresh with
      | Some d => store_decision tenant now d ;;; ret (Some d)
      | None => ret None
      end
  end.

Definition budget_audit_deny (ctx : option RequestContext) (r : LLMRequest) (d : BudgetDecision) : M W unit :=
  audit_denial env ctx "llm.budget.exceeded"
    [("provider", JStr (le_provider env)); ("requested_model", opt_json JStr (rq_model r));
     ("tokens_used", JInt (bu_tokens_used (bd_usage d)));
     ("cost_usd_micros_used", JInt (bu_cost_usd_micros_used (bd_usage d)));
     ("limit_tokens", opt_json JInt (bd_limit_tokens d))].

Definition budget_enforcing (inner : LLMClient W) : LLMClient W := fun r =>
  ctx <- get_current ;;
  match truthy_str (ctx_tenant_id <$> ctx) with
  | None => inner r
  | Some tenant =>
      decision <- budget_check tenant ;;
      match decision with
      | None => inner r
      | Some d =>
          if negb (bd_allowed d) then
            budget_audit_deny ctx r d ;;;
            raise (LLMBudgetExceededError (bu_tokens_used (bd_usage d)) (bd_limit_tokens d))
          else inner r
      end
  end.
End Budget.

(** [LLMUsageAggregatorBudgetEnforcer.check]: any repository exception becomes
    a [BudgetBackendError].  [month_start] is the calendar computation on a
    timestamp. *)
Definition aggregator_check {W} (clock : M W Z) (month_start : Z -> Z)
    (aggregate_since : string -> Z -> M W BudgetUsage) (limit_tokens : option Z) (tenant : string)
    : M W BudgetDecision :=
  if negb (nonempty tenant) then raise (ValueError "tenant_id must be non-empty")
  else
    now <- clock ;;
    usage <- try_except (aggregate_since tenant (month_start now))
      (fun e => if is_exception e then Some (raise BudgetBackendError) else None) ;;
    ret (mkBudgetDecision
           (match limit_tokens with None => true | Some l => bu_tokens_used usage <? l end)
           usage limit_tokens).

(** ** [RoutingLLMClient] with [StaticLLMRouter] *)

(** The constructor's checks; [mapping] is the dictionary in order. *)
Fixpoint static_router (mapping : list (string * string)) : res (list (string * string)) :=
  match mapping with
  | [] => Ok []
  | (kind, model) :: rest =>
      if negb (nonempty kind) then Err (ValueError "StaticLLMRouter: step_kind keys must be non-empty")
      else if negb (nonempty (py_strip model)) then
        Err (ValueError "StaticLLMRouter: model for step_kind must be a non-empty string")
      else let? r := static_router rest in Ok ((kind, model) :: r)
  end.

Definition with_model (r : LLMRequest) (m : string) : LLMRequest :=
  mkRequest (rq_messages r) (Some m) (rq_temperature r) (rq_max_tokens r) (rq_stop r) (rq_tools r)
    (rq_metadata r) (rq_prompt_id r) (rq_prompt_version r) (rq_step_kind r).

Definition maybe_route (mapping : list (string * string)) (r : LLMRequest) : LLMRequest :=
  match rq_step_kind r with
  | None => r
  | Some kind =>
      match dget mapping kind with
      | None => r
      | Some target => if bool_decide (Some target = rq_model r) then r else with_model r target
      end
  end.

Definition routing {W} (mapping : list (string * string)) (inner : LLMClient W) : LLMClient W :=
  fun r => inner (maybe_route mapping r).

(** ** [RedactingLLMClient] with [Redactor] *)

(** One pattern: its label and [pattern.subn(placeholder, .)]. *)
Record RedactionPattern : Type := mkPattern { rp_label : string; rp_subn : string -> string * Z }.
Definition Hits : Type := list (string * Z).
Definition add_hits (h : Hits) (label : string) (n : Z) : Hits := dset h label (default 0 (dget h label) + n).
Definition merge_hits (acc new : Hits) : Hits := fold_left (fun a kv => add_hits a kv.1 kv.2) new acc.
Definition hits_total (h : Hits) : Z := fold_left (fun a kv => a + kv.2) h 0.
Definition any_redacted (h : Hits) : bool := 0 <? hits_total h.

Definition scrub (patterns : list RedactionPattern) (text : string) : string * Hits :=
  if negb (nonempty text) then (text, [])
  else fold_left (fun acc p =>
         let '(new, n) := rp_subn p acc.1 in
         if n =? 0 then acc else (new, add_hits acc.2 (rp_label p) n)) patterns (text, []).

Section Redacting.
Context {W : Type} `{!HasContext W} (env : LlmEnv W) (patterns : list RedactionPattern).

(** [_scrub_value] with the cumulative counts threaded through. *)
Fixpoint scrub_value (v : json) (h : Hits) : json * Hits :=
  match v with
  | JStr s => let '(t, new) := scrub patterns s in (JStr t, merge_hits h new)
  | JDict d =>
      let '(d', h') := (fix go (l : list (string * json)) (h : Hits) : list (string * json) * Hits :=
        match l with
        | [] => ([], h)
        | (k, x) :: l' =>
            let '(x', h1) := scrub_value x h in let '(r, h2) := go l' h1 in ((k, x') :: r, h2)
        end) d h in (JDict d', h')
  | JList l =>
      let '(l', h') := (fix go (l : list json) (h : Hits) : list json * Hits :=
        match l with
        | [] => ([], h)
        | x :: l' => let '(x', h1) := scrub_value x h in let '(r, h2) := go l' h1 in (x' :: r, h2)
        end) l h in (JList l', h')
  | _ => (v, h)
  end.

(** A left-to-right pass over a sequence with the counts threaded. *)
Fixpoint scrub_all {A} (f : A -> Hits -> A * Hits) (l : list A) (h : Hits) : list A * Hits :=
  match l with
  | [] => ([], h)
  | x :: l' => let '(x', h1) := f x h in let '(r, h2) := scrub_all f l' h1 in (x' :: r, h2)
  end.

Definition scrub_tool_call (tc : ToolCall) (h : Hits) : ToolCall * Hits :=
  let '(args, h') := scrub_all (fun kv h => let '(v, h1) := scrub_value kv.2 h in ((kv.1, v), h1))
                       (tc_arguments tc) h in
  (mkToolCall (tc_id tc) (tc_name tc) args, h').

Definition scrub_message (m : ChatMessage) (h : Hits) : ChatMessage * Hits :=
  let '(content, new) := scrub patterns (cm_content m) in
  let '(calls, h') := scrub_all scrub_tool_call (cm_tool_calls m) (merge_hits h new) in
  (mkChat (cm_role m) content (cm_tool_call_id m) calls, h').

Definition scrub_request (r : LLMRequest) : LLMRequest * Hits :=
  let '(ms, h) := scrub_all scrub_message (rq_messages r) [] in
  (mkRequest ms (rq_model r) (rq_temperature r) (rq_max_tokens r) (rq_stop r) (rq_tools r)
     (rq_metadata r) (rq_prompt_id r) (rq_prompt_version r) (rq_step_kind r), h).

Definition scrub_response (r : LLMResponse) : LLMResponse * Hits :=
  let '(content, h) := scrub patterns (rs_content r) in
  let '(calls, h') := scrub_all scrub_tool_call (rs_tool_calls r) h in
  (mkResponse content (rs_model r) (rs_finish_reason r) (rs_usage r) calls (rs_provider_response_id r), h').

(** [_audit] of the redaction decorator: unlike the others, a failing append is
    not caught. *)
Definition audit_redaction (action : string) (h : Hits) : M W unit :=
  match le_audit_sink env with
  | Some append =>
      if negb (any_redacted h) then ret tt
      else
        ctx <- get_current ;;
        match ctx with
        | None => ret tt
        | Some c =>
            event_id <- le_new_id env ;;
            now <- le_clock env ;;
            append (mkAuditEvent event_id (ctx_tenant_id c) (ctx_principal_id c) (ctx_session_id c)
                      (ctx_task_id c) (ctx_trace_id c) action
                      [("hits", JDict (map (fun kv => (kv.1, JInt kv.2)) h)); ("total", JInt (hits_total h))]
                      now)
        end
  | None => ret tt
  end.

Definition redacting (inner : LLMClient W) : LLMClient W := fun r =>
  let '(r', h) := scrub_request r in
  (if any_redacted h then audit_redaction "llm.redaction.applied_to_request" h else ret tt) ;;;
  response <- inner r' ;;
  let '(response', h') := scrub_response response in
  (if any_redacted h' then audit_redaction "llm.redaction.applied_to_response" h' else ret tt) ;;;
  ret response'.
End Redacting.

(** ** The stack of [worker/bootstrap.py] *)

Section Stack.
Context {W : Type} `{!HasContext W, !HasBudgetCache W} (env : LlmEnv W).
Context (call : BreakerCall (W := W)) (breaker_open : bool).
Context (record : LLMUsageRecord -> M W unit).
Context (acquire : string -> M W RateLimitDecision) (limiter_open : bool).
Context (check : string -> M W BudgetDecision) (budget_open : bool) (cache_ttl : Z).
Context (mapping : list (string * string)) (patterns : list RedactionPattern).

(** What the router forwards to. *)
Definition guarded_llm (provider : LLMClient W) : LLMClient W :=
  budget_enforcing env check budget_open cache_ttl
    (rate_limited env acquire limiter_open
       (metered env record
          (circuit_breaking env call breaker_open provider))).

Definition llm_stack (provider : LLMClient W) : LLMClient W :=
  redacting env patterns (routing mapping (guarded_llm provider)).
End Stack.
