(* ===== verification/LlmFacts.v ===== *)
(** * LlmFacts: what reaches the provider

    A denied call stops where it is denied; through the guarded stack the
    provider is called at most once and its outcome is handed back unchanged,
    for any breaker that keeps the promise of its port ([CircuitBreakerPort]);
    the in-memory breaker keeps it, the Redis one does not when recording an
    outcome fails. *)

From S2P Require Import Prelude PyText Domain GraphRuntime Results ShellAgent Breaker RateLimit LlmClients.

(** ** At most one call

    [D inner] either raises without consulting [inner], the same error and effects
    for all of them, or factors through one evaluation of it, at a world that
    does not depend on it, and hands back its outcome. *)

Definition at_most_once {W R A} (ok : (R -> M W A) -> Prop) (D : (R -> M W A) -> R -> M W A) : Prop :=
  forall r w,
    (exists e w', forall inner, ok inner -> D inner r w = (Err e, w')) \/
    (exists w1 K, forall inner, ok inner ->
       D inner r w = K (inner r w1) /\ (K (inner r w1)).1 = (inner r w1).1).

(** The promise of [CircuitBreaker.call]: [fn] is awaited at most once and its
    outcome is passed on. *)
Class CircuitBreakerPort {W A} (call : string -> M W A -> option (exn -> bool) -> M W A) : Prop := {
  cb_once : forall key sc w,
    (exists e w', forall fn, call key fn sc w = (Err e, w')) \/
    (exists w1 K, forall fn, call key fn sc w = K (fn w1) /\ (K (fn w1)).1 = (fn w1).1)
}.

#[global] Instance in_memory_breaker_port {U A} cfg :
  CircuitBreakerPort (fun key fn sc => breaker_call (U := U) (A := A) cfg key fn sc).
Proof.
  split. intros key sc w. unfold breaker_call, bind.
  destruct (on_fst (gate_key cfg key) w) as [[p|e] w1]; [|left; by eexists _, _].
  right. exists w1, (fun x => match x with
    | (Ok a, w2) => (Ok a, (on_fst (record_key cfg key true false p) w2).2)
    | (Err e, w2) => (Err e, (on_fst (record_key cfg key false (should_count_exn e sc) p) w2).2)
    end).
  intros fn. unfold try_except. destruct (fn w1) as [[a|e] [bw u]]; (split; [|done]);
    unfold on_fst, record_key, bind, get_bucket, monotonic, put_bucket, modify, ret, raise; simpl;
    by destruct (bw_buckets bw !! key).
Qed.

Section Compose.
Context {W R A : Type}.

Lemma at_most_once_compose (ok1 ok2 : (R -> M W A) -> Prop) D E :
  at_most_once ok1 D -> at_most_once ok2 E -> (forall inner, ok2 inner -> ok1 (E inner)) ->
  at_most_once ok2 (fun inner => D (E inner)).
Proof.
  intros HD HE Hok r w. destruct (HD r w) as [(e & w' & Ho)|(w1 & K & HK)]; [left; exists e, w'; eauto|].
  destruct (HE r w1) as [(e & w' & Ho)|(w2 & L & HL)].
  - left. exists e, (K (Err e, w')).2. intros inner Hi. destruct (HK (E inner) (Hok _ Hi)) as [E1 T].
    rewrite (Ho inner Hi) in E1, T. rewrite E1. destruct (K (Err e, w')). simpl in T. by subst.
  - right. exists w2, (fun x => K (L x)). intros inner Hi.
    destruct (HK (E inner) (Hok _ Hi)) as [E1 T1]. destruct (HL inner Hi) as [E2 T2].
    rewrite E1, <- E2. split; [done|]. congruence.
Qed.

Lemma audit_raises (ok : (R -> M W A) -> Prop) (m : M W unit) (e : exn) w1 :
  exists e' w', forall inner, ok inner ->
    (let '(r0, w2) := m w1 in match r0 with Ok _ => raise e w2 | Err e1 => (Err e1, w2) end)
    = (@Err A e', w').
Proof. destruct (m w1) as [[[]|e1] w2]; by eexists _, _. Qed.

(** The provider raises no error of the breaker's own. *)
Definition no_breaker_error (inner : R -> M W A) : Prop := forall r w e w',
  inner r w = (Err e, w') -> match e with
  | CircuitBreakerOpenError _ | CircuitBreakerBackendError => False | _ => True end.
End Compose.

Section Facts.
Context {W : Type} `{!HasContext W, !HasBudgetCache W} (env : LlmEnv W).

Lemma circuit_breaking_once call fo `{!CircuitBreakerPort call} :
  at_most_once no_breaker_error (circuit_breaking env call fo).
Proof.
  intros r w. unfold circuit_breaking, bind, get_current. cbv beta iota zeta.
  destruct (cb_once (default_key env (current_ctx w) r) (Some default_should_count) w)
    as [(e & w' & Ho)|(w1 & K & HK)].
  - unfold try_except. destruct e; try (left; eexists _, _; intros inner _; by rewrite Ho).
    + left. edestruct (audit_raises (R := LLMRequest) (A := LLMResponse) (W := W) no_breaker_error) as (e' & w2 & H).
      exists e', w2. intros inner Hi. rewrite Ho. exact (H inner Hi).
    + destruct fo; [|left; eexists _, _; intros inner _; by rewrite Ho].
      right. exists w', (fun x => x). intros inner _. by rewrite Ho.
  - right. exists w1, K. intros inner Hi. destruct (HK (inner r)) as [E T]. split; [|exact T].
    unfold try_except. rewrite E. specialize (Hi r w1). destruct (inner r w1) as [o1 wa].
    destruct (K (o1, wa)) as [o2 wb]. simpl in T. subst o2. destruct o1 as [a|e]; [done|].
    specialize (Hi e wa eq_refl). by destruct e.
Qed.

(** Clocks and ids that answer, and sinks that fail only with exceptions. *)
Record env_up : Prop := {
  up_monotonic : forall w, exists t w', le_monotonic env w = (Ok t, w');
  up_new_id : forall w, exists i w', le_new_id env w = (Ok i, w');
  up_clock : forall w, exists t w', le_clock env w = (Ok t, w');
  up_audit : forall append ev w e w', le_audit_sink env = Some append ->
    append ev w = (Err e, w') -> is_exception e = true
}.
Definition fails_soft {A B} (f : A -> M W B) : Prop :=
  forall a w e w', f a w = (Err e, w') -> is_exception e = true.

Lemma audit_denial_ok ctx action payload w : env_up -> exists w', audit_denial env ctx action payload w = (Ok tt, w').
Proof.
  intros Hup. unfold audit_denial. destruct (le_audit_sink env) as [append|] eqn:Ea; [|by eexists].
  destruct ctx as [c|]; [|by eexists]. unfold bind.
  destruct (up_new_id Hup w) as (i & w1 & ->). destruct (up_clock Hup w1) as (t & w2 & ->).
  unfold try_except. destruct (append _ w2) as [[[]|e] w3] eqn:E; [by eexists|].
  rewrite (up_audit Hup _ _ _ _ _ Ea E). by eexists.
Qed.

(** The token counts a provider reports are not negative. *)
Definition sane_usage (inner : LLMClient W) : Prop := forall r w resp w',
  inner r w = (Ok resp, w') -> forall n,
  Some n ∈ [us_prompt_tokens (rs_usage resp); us_completion_tokens (rs_usage resp);
            us_total_tokens (rs_usage resp); us_cost_usd_micros (rs_usage resp)] -> 0 <= n.

Lemma elapsed_nonneg a b : 0 <= metered_elapsed_ms a b.
Proof. unfold metered_elapsed_ms. destruct (Z.ltb_spec (b - a) 0); [lia|]. apply Z.quot_pos; lia. Qed.

Lemma nonneg_opt o : (forall n, o = Some n -> 0 <= n) -> match o with Some n => 0 <=? n | None => true end = true.
Proof. destruct o as [n|]; [|done]. intros H. apply Z.leb_le. by apply H. Qed.

Lemma safe_record_ok record ctx r outcome a b w :
  env_up -> fails_soft record ->
  match outcome with
  | inl resp => forall n, Some n ∈ [us_prompt_tokens (rs_usage resp); us_completion_tokens (rs_usage resp);
                  us_total_tokens (rs_usage resp); us_cost_usd_micros (rs_usage resp)] -> 0 <= n
  | inr _ => True
  end ->
  exists w', safe_record env record ctx r outcome (metered_elapsed_ms a b) w = (Ok tt, w').
Proof.
  intros Hup Hrec Hs. unfold safe_record. destruct ctx as [c|]; [|by eexists]. unfold bind.
  destruct (up_new_id Hup w) as (i & w1 & ->). destruct (up_clock Hup w1) as (t & w2 & ->).
  pose proof (elapsed_nonneg a b) as He. apply Z.leb_le in He.
  assert (Hc : check_usage_record (build_record (le_exn_str env) c r outcome (metered_elapsed_ms a b)
                 (le_provider env) i t) = Ok (build_record (le_exn_str env) c r outcome
                 (metered_elapsed_ms a b) (le_provider env) i t)).
  { unfold check_usage_record. destruct outcome as [resp|e]; simpl; rewrite He; [|done].
    rewrite !nonneg_opt; [done|..]; intros n Hn; apply Hs; rewrite Hn; set_solver. }
  rewrite Hc. unfold lift, try_except. destruct (record _ w2) as [[[]|e] w3] eqn:E; [by eexists|].
  rewrite (Hrec _ _ _ _ E). by eexists.
Qed.

Lemma metered_once record : env_up -> fails_soft record -> at_most_once sane_usage (metered env record).
Proof.
  intros Hup Hrec r w. destruct (up_monotonic Hup w) as (started & w1 & Hm). right.
  set (finish := fun (outcome : LLMResponse + exn) (w2 : W) =>
    let w3 := (le_monotonic env w2).2 in
    let ended := match (le_monotonic env w2).1 with Ok t => t | Err _ => 0 end in
    (safe_record env record (current_ctx w) r outcome (metered_elapsed_ms started ended) w3).2).
  exists w1, (fun x => match x with
    | (Ok resp, w2) => (Ok resp, finish (inl resp) w2)
    | (Err e, w2) => (Err e, if is_llm_error e then finish (inr e) w2 else w2)
    end).
  intros inner Hs. split; [|by destruct (inner r w1) as [[]]].
  unfold metered, bind, get_current. cbv beta iota zeta. rewrite Hm. unfold try_except.
  specialize (Hs r w1). destruct (inner r w1) as [[resp|e] w2].
  - destruct (up_monotonic Hup w2) as (ended & w3 & E).
    destruct (safe_record_ok record (current_ctx w) r (inl resp) started ended w3 Hup Hrec
                (Hs resp w2 eq_refl)) as (w4 & E').
    unfold finish. rewrite E. simpl. by rewrite E'.
  - destruct (is_llm_error e); [|done]. destruct (up_monotonic Hup w2) as (ended & w3 & E).
    destruct (safe_record_ok record (current_ctx w) r (inr e) started ended w3 Hup Hrec I) as (w4 & E').
    unfold finish. rewrite E. simpl. by rewrite E'.
Qed.

(** The two outer layers call the inner client last. *)
Lemma rate_limited_once acquire fo : at_most_once (fun _ => True) (rate_limited env acquire fo).
Proof.
  intros r w. unfold rate_limited, bind, get_current. cbv beta iota zeta.
  destruct (try_except _ _ w) as [[[d|]|e] w1].
  - destruct (negb (rd_allowed d)); [left; by apply audit_raises|]. right. by exists w1, (fun x => x).
  - right. by exists w1, (fun x => x).
  - left. by eexists _, _.
Qed.

Lemma budget_enforcing_once check fo ttl :
  at_most_once (fun _ => True) (budget_enforcing env check fo ttl).
Proof.
  intros r w. unfold budget_enforcing, bind, get_current. cbv beta iota zeta.
  destruct (truthy_str _) as [t|]; [|right; by exists w, (fun x => x)].
  destruct (budget_check env check fo ttl t w) as [[[d|]|e] w1].
  - destruct (negb (bd_allowed d)); [left; by apply audit_raises|]. right. by exists w1, (fun x => x).
  - right. by exists w1, (fun x => x).
  - left. by eexists _, _.
Qed.

Lemma circuit_breaking_sane call fo `{!CircuitBreakerPort call} inner :
  no_breaker_error inner -> sane_usage inner -> sane_usage (circuit_breaking env call fo inner).
Proof.
  intros Hn Hs r w resp w' E. destruct (circuit_breaking_once call fo r w) as [(e & w1 & Ho)|(w1 & K & HK)].
  - rewrite (Ho inner Hn) in E. done.
  - destruct (HK inner Hn) as [E1 T]. rewrite <- E1, E in T.
    destruct (inner r w1) as [o w2] eqn:Ei. simpl in T. subst o. by apply (Hs r w1 resp w2).
Qed.
End Facts.

(** ** The guarded stack *)

Section Guarded.
Context {W : Type} `{!HasContext W, !HasBudgetCache W} (env : LlmEnv W) (Hup : env_up env).

(** A denied call stops where it is denied.  When the tenant's budget is
    used up, by a cached or a fresh decision, the call raises
    [LLMBudgetExceededError] with the usage that was found and the effects up to
    that point, whatever the limiter, the recorder, the breaker and the provider
    are: no rate-limit token is taken and nothing is billed.  When the budget
    lets it pass and the limiter denies it, it raises [LLMRateLimitedError] with
    the limiter's hint, whatever the recorder, the breaker and the provider
    are. *)
Theorem denied_calls_stop check bo ttl r w c od w1 :
  current_ctx w = Some c -> ctx_tenant_id c <> "" ->
  budget_check env check bo ttl (ctx_tenant_id c) w = (Ok od, w1) ->
  match od with
  | Some (mkBudgetDecision false usage limit) =>
      exists w', forall call fo record acquire lo provider,
        guarded_llm env call fo record acquire lo check bo ttl provider r w
        = (Err (LLMBudgetExceededError (bu_tokens_used usage) limit), w')
  | _ =>
      forall acquire lo d w2,
        acquire (default_key env (current_ctx w1) r) w1 = (Ok d, w2) -> rd_allowed d = false ->
        exists w', forall call fo record provider,
          guarded_llm env call fo record acquire lo check bo ttl provider r w
          = (Err (LLMRateLimitedError (rd_retry_after_ms d)), w')
  end.
Proof using Hup.
  intros Hc Ht Hb.
  assert (Hpass : match od with Some (mkBudgetDecision false _ _) => False | _ => True end ->
    forall inner : LLMClient W, budget_enforcing env check bo ttl inner r w = inner r w1).
  { intros Hod inner. unfold budget_enforcing, bind, get_current. cbv beta iota zeta. rewrite Hc. simpl.
    apply nonempty_true in Ht. rewrite Ht, Hb. by destruct od as [[[] ? ?]|]. }
  assert (Hlim : match od with Some (mkBudgetDecision false _ _) => False | _ => True end ->
    forall acquire lo d w2,
      acquire (default_key env (current_ctx w1) r) w1 = (Ok d, w2) -> rd_allowed d = false ->
      exists w', forall call fo record provider,
        guarded_llm env call fo record acquire lo check bo ttl provider r w
        = (Err (LLMRateLimitedError (rd_retry_after_ms d)), w')).
  { intros Hod acquire lo d w2 Ha Hd. edestruct (audit_denial_ok env) as (w' & Hw'); [exact Hup|].
    exists w'. intros call fo record provider. unfold guarded_llm. rewrite Hpass by done.
    unfold rate_limited, bind, get_current, try_except. cbv beta iota zeta. rewrite Ha.
    unfold ret at 1. cbv beta iota. rewrite Hd. cbn [negb]. unfold rate_audit_deny. rewrite Hw'. reflexivity. }
  destruct od as [[[] usage limit]|]; [by apply Hlim| |by apply Hlim].
  edestruct (audit_denial_ok env) as (w' & Hw'); [exact Hup|]. exists w'.
  intros call fo record acquire lo provider. unfold guarded_llm, budget_enforcing, bind, get_current.
  cbv beta iota zeta. rewrite Hc. simpl. apply nonempty_true in Ht. rewrite Ht, Hb. simpl.
  unfold budget_audit_deny. rewrite Hw'. reflexivity.
Qed.

End Guarded.

(** ** The Redis breaker *)

(** A script call that failed. *)
Definition script_failed {U} (w : RedisWorld * U) : RedisWorld * U :=
  (mkRedisWorld (rw_keys w.1) (rw_now_ms w.1) (S (rw_ticks w.1)) (rw_fault w.1) (S (rw_calls w.1)), w.2).

(** Over Redis one request can be two provider calls.  When the gate lets
    a call through and recording its outcome fails, the fail-open decorator
    discards the outcome, response or error, and calls the provider again: the
    result is the second call's. *)
Theorem redis_record_fault_calls_twice {U} `{!HasContext (RedisWorld * U)} (env : LlmEnv (RedisWorld * U))
    cfg ttl provider r w p w1 o w2 :
  on_fst (redis_gate_call cfg (default_key env (current_ctx w) r)) w = (Ok p, w1) ->
  provider r w1 = (o, w2) -> rw_fault w2.1 (rw_calls w2.1) = true ->
  circuit_breaking env (redis_breaker_call cfg ttl) true provider r w = provider r (script_failed w2).
Proof.
  intros Hg Hp Hf. unfold circuit_breaking, bind at 1, get_current. cbv beta iota zeta.
  unfold redis_breaker_call, bind, try_except. rewrite Hg, Hp.
  destruct o as [resp|e]; unfold on_fst, redis_record_call, run_script; rewrite Hf; reflexivity.
Qed.

(** ** Concrete calls *)

Definition LlmWorld (B : Type) : Type :=
  (B * (option RequestContext * gmap string (Z * BudgetDecision) * nat))%type.
#[global] Instance LlmWorld_HasContext {B} : HasContext (LlmWorld B).
Proof.
  refine {| current_ctx := fun w => w.2.1.1; set_ctx := fun c w => (w.1, (c, w.2.1.2, w.2.2)) |};
    [done|by intros [? [[? ?] ?]]|done].
Defined.
#[global] Instance LlmWorld_HasBudgetCache {B} : HasBudgetCache (LlmWorld B).
Proof.
  refine {| budget_cache := fun w => w.2.1.2; set_budget_cache := fun c w => (w.1, (w.2.1.1, c, w.2.2)) |}.
  done.
Defined.

(** The number of provider calls is the last component. *)
Definition counting_provider {B} : LLMClient (LlmWorld B) := fun _ w =>
  (Ok (mkResponse "hi" "m" "stop" no_usage [] None), (w.1, (w.2.1, S w.2.2))).
Definition llm_demo_env {B} : LlmEnv (LlmWorld B) :=
  mkLlmEnv "openrouter" (ret "id") (ret 0) (ret 0) None (fun _ => "").
Definition llm_demo_ctx : RequestContext := mkContext "acme" "alice" "tr1" "r1" None (Some "t1") None.
Definition llm_demo_request : LLMRequest :=
  mkRequest [mkChat ROLE_USER "hello" None []] None None None None [] [] None None (Some "plan").
Definition llm_demo_world {B} (b : B) : LlmWorld B := (b, (Some llm_demo_ctx, ∅, 0%nat)).
Definition spent_check {B} (t : string) : M (LlmWorld B) BudgetDecision :=
  ret (mkBudgetDecision false (mkBudgetUsage 100 0) (Some 100)).
Definition free_check {B} (t : string) : M (LlmWorld B) BudgetDecision :=
  ret (mkBudgetDecision true (mkBudgetUsage 0 0) None).
Definition llm_breaker : BreakerConfig := mkBreakerConfig 5 60 30.
Definition in_memory_call : BreakerCall (W := LlmWorld BreakerWorld) :=
  fun key fn sc => breaker_call llm_breaker key fn sc.
Definition memory_world : BreakerWorld := mkBreakerWorld ∅ (fun _ => 0) 0.

Lemma llm_demo_env_up {B} : env_up (llm_demo_env (B := B)).
Proof. split; try (intros; by eexists _, _). intros append ev w e w'. discriminate. Qed.

Lemma denied_calls_stop_witness :
  exists w', guarded_llm llm_demo_env in_memory_call true (fun _ => ret tt) (fun _ => ret (mkDecision true 1 None))
      true spent_check true 10 counting_provider llm_demo_request (llm_demo_world memory_world)
    = (Err (LLMBudgetExceededError 100 (Some 100)), w') /\ w'.2.2 = 0%nat.
Proof.
  pose proof (denied_calls_stop llm_demo_env llm_demo_env_up spent_check true 10 llm_demo_request
    (llm_demo_world memory_world) llm_demo_ctx _ _ eq_refl ltac:(discriminate) eq_refl) as H.
  destruct H as (w' & H). exists w'. split; [apply H|].
  specialize (H in_memory_call true (fun _ => ret tt) (fun _ => ret (mkDecision true 1 None)) true
    counting_provider). apply (f_equal (fun x => x.2.2.2)) in H. simpl in H. by rewrite <- H.
Defined.


(** Redis answers the gate and fails on the second script call. *)
Definition flaky_redis : RedisWorld := mkRedisWorld ∅ (fun _ => 0) 0 (fun n => Nat.eqb n 1) 0.

Lemma redis_record_fault_calls_twice_witness :
  (circuit_breaking llm_demo_env (redis_breaker_call llm_breaker 180000) true counting_provider
     llm_demo_request (llm_demo_world flaky_redis)).2.2.2 = 2%nat.
Proof.
  rewrite (redis_record_fault_calls_twice llm_demo_env llm_breaker 180000 counting_provider
    llm_demo_request (llm_demo_world flaky_redis) false _ _ _ eq_refl eq_refl eq_refl).
  reflexivity.
Defined.
