(* ===== verification/Reporting.v ===== *)
(** * Reporting: listings, usage and session repositories

    The reading side of [infra/persistence/audit_repo.py], and the repositories
    [llm_usage_repo.py], [session_repo.py] and [trajectory_repo.py], on the
    tables of [Persistence].  The aggregates are checked against the rows they
    sum, and the merged trajectory against its three sources.

    The collation of text comes from [Keyset.TextOrder]; [DayKey] is the day
    label of a timestamp, which PostgreSQL computes in the time zone of the
    connection. *)

From S2P Require Import Prelude Domain Cursor Keyset GraphRuntime Gates Results Persistence PersistenceFacts LlmClients.

Class DayKey := { day_key : Z -> string }.

(** [ORDER BY key ASC], ties in table order. *)
Section StableSort.
Context {A : Type} (key : A -> Z).

Fixpoint insert_by (x : A) (l : list A) : list A :=
  match l with
  | [] => [x]
  | y :: l' => if key x <=? key y then x :: l else y :: insert_by x l'
  end.
Definition sort_by (l : list A) : list A := foldr insert_by [] l.

Definition by_key : list A -> Prop := StronglySorted (fun a b => key a <= key b).

Lemma insert_by_perm x l : insert_by x l ≡ₚ x :: l.
Proof.
  induction l as [|y l IH]; simpl; [done|]. destruct (key x <=? key y); [done|].
  rewrite IH. apply Permutation_swap.
Qed.

Lemma sort_by_perm l : sort_by l ≡ₚ l.
Proof. induction l as [|x l IH]; simpl; [done|]. by rewrite insert_by_perm, IH. Qed.

Lemma insert_by_sorted x l : by_key l -> by_key (insert_by x l).
Proof.
  unfold by_key. induction 1 as [|y l H IH Hy]; simpl; [by repeat constructor|].
  destruct (Z.leb_spec (key x) (key y)).
  - constructor; [by constructor|]. constructor; [done|]. eapply Forall_impl; [exact Hy|]. simpl. lia.
  - constructor; [done|]. rewrite insert_by_perm. constructor; [lia|done].
Qed.

Lemma sort_by_sorted l : by_key (sort_by l).
Proof. induction l as [|x l IH]; simpl; [constructor|]. by apply insert_by_sorted. Qed.

Lemma insert_by_filter x l t :
  List.filter (fun y => key y =? t) (insert_by x l) = List.filter (fun y => key y =? t) (x :: l).
Proof.
  induction l as [|y l IH]; [done|]. simpl. destruct (Z.leb_spec (key x) (key y)); [done|].
  simpl in *. rewrite IH. destruct (Z.eqb_spec (key x) t), (Z.eqb_spec (key y) t); try done. lia.
Qed.

(** The sort is stable: rows of one key keep their order. *)
Lemma sort_by_stable l t :
  List.filter (fun y => key y =? t) (sort_by l) = List.filter (fun y => key y =? t) l.
Proof.
  induction l as [|x l IH]; [done|]. change (sort_by (x :: l)) with (insert_by x (sort_by l)).
  rewrite insert_by_filter. simpl. by rewrite IH.
Qed.
End StableSort.

(** [SUM]. *)
Definition sum_over {A} (f : A -> Z) (l : list A) : Z := foldr (fun a acc => f a + acc) 0 l.

(** A read: the guard, one statement, a function of the tables. *)
Definition select {A} (tenant : string) (f : Db -> A) : M World A :=
  check_tenant tenant ;;; db_call ;;; w <- get ;; ret (f (w_db w)).

(** ** Reads of [PgCheckpointRepository] and [PgOutboxRepository] *)

Definition checkpoint_list_for_task (tenant task : string) : M World (list TaskCheckpoint) :=
  select tenant (fun d => sort_by cp_sequence (task_checkpoints d tenant task)).

(** By primary key, without a tenant. *)
Definition outbox_get (event_id : string) : M World (option OutboxEvent) :=
  db_call ;;; w <- get ;;
  ret (or_event <$> List.find (fun r => String.eqb (ob_event_id (or_event r)) event_id) (db_outbox (w_db w))).

Definition count_by_status (tenant : string) (status : OutboxStatus) : M World Z :=
  select tenant (fun d => Z.of_nat (length (List.filter (fun r =>
    String.eqb (ob_tenant_id (or_event r)) tenant && bool_decide (ob_status (or_event r) = status)) (db_outbox d)))).

(** ** [PgAuditRepository] *)

Definition audit_key (e : AuditEvent) : Z * string := (ae_occurred_at e, ae_event_id e).

Definition list_recent (tenant : string) (limit : nat) : M World (list AuditEvent) :=
  select tenant (fun d => take limit (sort_by (fun e => - ae_occurred_at e)
    (List.filter (fun e => String.eqb (ae_tenant_id e) tenant) (db_audits d)))).

Definition of_task (tenant task : string) (e : AuditEvent) : bool :=
  String.eqb (ae_tenant_id e) tenant && bool_decide (ae_task_id e = Some task).

(** A value bound to a [timestamptz] parameter: asyncpg reads a naive datetime
    in the local zone of the process. *)
Class LocalZone := { local_to_utc : Z -> Z }.
Definition timestamptz `{!LocalZone} (t : DateTime) : Z :=
  if dt_aware t then dt_instant t else local_to_utc (dt_instant t).
Definition utc (t : Z) : DateTime := mkDateTime true t.

Record AuditFilter : Type := mkAuditFilter {
  af_since : DateTime; af_until : DateTime; af_action : option string; af_task_id : option string;
  af_before : option (DateTime * string); af_limit : Z
}.

Inductive UsageGroupBy : Type := GB_MODEL | GB_DAY | GB_TASK | GB_PRINCIPAL | GB_STEP_KIND.

Record LLMUsageFilter : Type := mkUsageFilter {
  uf_since : DateTime; uf_until : DateTime; uf_model : option string; uf_task_id : option string;
  uf_status : option LLMUsageStatus; uf_before : option (DateTime * string); uf_limit : Z
}.

#[global] Instance LLMUsageStatus_eq_dec : EqDecision LLMUsageStatus.
Proof. solve_decision. Defined.

(** An optional [AND column = $n]. *)
Definition opt_eq {A} `{!EqDecision A} (filter : option A) (column : option A) : bool :=
  match filter with None => true | Some v => bool_decide (column = Some v) end.

Section Listings.
Context `{!TextOrder, !LocalZone, !DayKey}.

(** [occurred_at ASC, event_id ASC], strictly after the cursor. *)
Definition list_for_task_since (tenant task : string) (after : option (Z * string)) (limit : nat)
    : M World (list AuditEvent) :=
  select tenant (fun d => keyset_page audit_key key_lt (of_task tenant task) after limit (db_audits d)).

Definition bound_cursor (before : option (DateTime * string)) : option (Z * string) :=
  (fun '(t, i) => (timestamptz t, i)) <$> before.

Definition in_window (since until : Z) (t : Z) : bool := (since <=? t) && (t <? until).

Definition audit_matches (tenant : string) (f : AuditFilter) (e : AuditEvent) : bool :=
  String.eqb (ae_tenant_id e) tenant &&
  in_window (timestamptz (af_since f)) (timestamptz (af_until f)) (ae_occurred_at e) &&
  opt_eq (af_action f) (Some (ae_action e)) && opt_eq (af_task_id f) (ae_task_id e).

(** [occurred_at DESC, event_id DESC], strictly before the cursor. *)
Definition audit_list_filtered (tenant : string) (f : AuditFilter) : M World (list AuditEvent) :=
  select tenant (fun d => keyset_page audit_key key_gt (audit_matches tenant f)
    (bound_cursor (af_before f)) (Z.to_nat (af_limit f)) (db_audits d)).

(** ** [PgLLMUsageRepository] *)

Definition usage_key (r : LLMUsageRecord) : Z * string := (ur_created_at r, ur_record_id r).

(** [ON CONFLICT (record_id) DO NOTHING]. *)
Definition record (r : LLMUsageRecord) : M World unit :=
  check_tenant (ur_tenant_id r) ;;;
  db_call ;;;
  w <- get ;;
  if existsb (fun x => String.eqb (ur_record_id x) (ur_record_id r)) (db_usage (w_db w)) then ret tt
  else modify (with_db (with_usage (fun l => l ++ [r]))).

Definition usage_of_task (tenant task : string) (r : LLMUsageRecord) : bool :=
  String.eqb (ur_tenant_id r) tenant && bool_decide (ur_task_id r = Some task).

Definition usage_list_for_task (tenant task : string) : M World (list LLMUsageRecord) :=
  select tenant (fun d => sort_by ur_created_at (List.filter (usage_of_task tenant task) (db_usage d))).

(** [COALESCE(SUM(column), 0)]: a null counts as 0. *)
Definition sum_of (column : LLMUsageRecord -> option Z) (rows : list LLMUsageRecord) : Z :=
  sum_over (fun r => default 0 (column r)) rows.

Definition aggregate_since (tenant : string) (since : Z) : M World BudgetUsage :=
  select tenant (fun d =>
    let rows := List.filter (fun r => String.eqb (ur_tenant_id r) tenant && (since <=? ur_created_at r))
                  (db_usage d) in
    mkBudgetUsage (sum_of ur_total_tokens rows) (sum_of ur_cost_usd_micros rows)).

Definition usage_matches (tenant : string) (f : LLMUsageFilter) (r : LLMUsageRecord) : bool :=
  String.eqb (ur_tenant_id r) tenant &&
  in_window (timestamptz (uf_since f)) (timestamptz (uf_until f)) (ur_created_at r) &&
  opt_eq (uf_model f) (ur_model r) && opt_eq (uf_task_id f) (ur_task_id r) &&
  opt_eq (uf_status f) (Some (ur_status r)).

Definition usage_list_filtered (tenant : string) (f : LLMUsageFilter) : M World (list LLMUsageRecord) :=
  select tenant (fun d => keyset_page usage_key key_gt (usage_matches tenant f)
    (bound_cursor (uf_before f)) (Z.to_nat (uf_limit f)) (db_usage d)).

(** [_AGG_KEY_EXPRS]. *)
Definition agg_key (g : UsageGroupBy) (r : LLMUsageRecord) : string :=
  match g with
  | GB_MODEL => default "unknown" (ur_model r)
  | GB_DAY => day_key (ur_created_at r)
  | GB_TASK => default "unattributed" (ur_task_id r)
  | GB_PRINCIPAL => default "unattributed" (ur_principal_id r)
  | GB_STEP_KIND => default "unspecified" (ur_step_kind r)
  end.

(** [ORDER BY tokens DESC, key ASC]. *)
Definition bucket_le (a b : UsageAggregate) : Prop :=
  key_lt (- ub_tokens b, ub_key b) (- ub_tokens a, ub_key a) = false.
#[global] Instance bucket_le_dec : RelDecision bucket_le.
Proof. intros a b. unfold bucket_le. apply _. Defined.

(** One group of [GROUP BY key]. *)
Definition bucket (g : UsageGroupBy) (rows : list LLMUsageRecord) (k : string) : UsageAggregate :=
  let mine := List.filter (fun r => String.eqb (agg_key g r) k) rows in
  mkUsageAggregate k (sum_of ur_total_tokens mine) (sum_of ur_cost_usd_micros mine)
    (Z.of_nat (length mine)).

Definition aggregate (g : UsageGroupBy) (rows : list LLMUsageRecord) : list UsageAggregate :=
  merge_sort bucket_le (map (bucket g rows) (remove_dups (map (agg_key g) rows))).

Definition aggregate_for_task (tenant task : string) (g : UsageGroupBy)
    : M World (list UsageAggregate) :=
  select tenant (fun d => aggregate g (List.filter (usage_of_task tenant task) (db_usage d))).

Definition usage_in_window (tenant : string) (since until : Z) (r : LLMUsageRecord) : bool :=
  String.eqb (ur_tenant_id r) tenant && in_window since until (ur_created_at r).

Definition aggregate_grouped (tenant : string) (since until : DateTime) (g : UsageGroupBy)
    : M World (list UsageAggregate) :=
  select tenant (fun d => aggregate g
    (List.filter (usage_in_window tenant (timestamptz since) (timestamptz until)) (db_usage d))).
End Listings.

(** ** [PgSessionRepository] *)

(** [ON CONFLICT (session_id) DO UPDATE]: two columns, whoever owns the row. *)
Definition upsert_session (s : Session) (m : gmap string Session) : gmap string Session :=
  match m !! se_session_id s with
  | Some old =>
      <[se_session_id s := mkSession (se_session_id old) (se_tenant_id old) (se_principal_id old)
          (se_created_at old) (se_last_active_at s) (se_is_closed s)]> m
  | None => <[se_session_id s := s]> m
  end.

Definition exec_upsert (s : Session) : M World unit :=
  db_call ;;; modify (with_db (with_sessions (upsert_session s))).

Definition session_upsert_in_conn (s : Session) : M World unit :=
  check_tenant (se_tenant_id s) ;;; exec_upsert s.

Definition session_upsert (s : Session) : M World unit :=
  check_tenant (se_tenant_id s) ;;; exec_upsert s.

Definition select_session (d : Db) (tenant session : string) : option Session :=
  match db_sessions d !! session with
  | Some s => if String.eqb (se_tenant_id s) tenant then Some s else None
  | None => None
  end.

Definition session_get (tenant session : string) : M World (option Session) :=
  select tenant (fun d => select_session d tenant session).

Definition touch (tenant session : string) (last_active_at : Z) : M World unit :=
  check_tenant tenant ;;;
  db_call ;;;
  modify (with_db (fun d => match select_session d tenant session with
    | Some s => with_sessions (<[session := mkSession (se_session_id s) (se_tenant_id s)
                  (se_principal_id s) (se_created_at s) last_active_at (se_is_closed s)]>) d
    | None => d
    end)).

(** ** [PgTrajectoryRepository] *)

Inductive TrajectoryItem : Type :=
  | TrajectoryAuditItem (occurred_at : Z) (event_id action : string) (payload : dict)
  | TrajectoryCheckpointItem (occurred_at : Z) (checkpoint_id : string) (sequence : Z)
      (node_name : string) (current_node : option string) (awaiting_approval finished : bool)
  | TrajectoryUsageItem (occurred_at : Z) (record_id provider : string)
      (model requested_model : option string)
      (prompt_tokens completion_tokens total_tokens cost_usd_micros : option Z) (latency_ms : Z)
      (status : LLMUsageStatus) (error_category : option ErrorCategory)
      (error_message prompt_id : option string) (prompt_version : option Z)
      (prompt_excerpt step_kind : option string).

Definition item_time (i : TrajectoryItem) : Z :=
  match i with
  | TrajectoryAuditItem t _ _ _ => t
  | TrajectoryCheckpointItem t _ _ _ _ _ _ => t
  | TrajectoryUsageItem t _ _ _ _ _ _ _ _ _ _ _ _ _ _ _ _ => t
  end.

Record TrajectoryPage : Type := mkTrajectoryPage { tp_items : list TrajectoryItem; tp_truncated : bool }.

(** [_audit_to_item] and [_checkpoint_to_item]; the jsonb columns arrive as
    dictionaries. *)
Definition audit_to_item (e : AuditEvent) : res TrajectoryItem :=
  Ok (TrajectoryAuditItem (ae_occurred_at e) (ae_event_id e) (ae_action e) (ae_payload e)).

Definition checkpoint_to_item (c : TaskCheckpoint) : res TrajectoryItem :=
  let snapshot := cp_state_snapshot c in
  let? current := match getd snapshot "current_node" with
                  | JNull => Ok None
                  | JStr n => Ok (Some n)
                  | _ => Err (ValidationError "TrajectoryCheckpointItem")
                  end in
  Ok (TrajectoryCheckpointItem (cp_created_at c) (cp_checkpoint_id c) (cp_sequence c) (cp_node_name c)
        current (truthy (getd snapshot "awaiting_approval")) (truthy (getd snapshot "finished"))).

Definition usage_to_item (r : LLMUsageRecord) : res TrajectoryItem :=
  if ur_latency_ms r <? 0 then Err (ValidationError "TrajectoryUsageItem")
  else Ok (TrajectoryUsageItem (ur_created_at r) (ur_record_id r) (ur_provider r) (ur_model r)
             (ur_requested_model r) (ur_prompt_tokens r) (ur_completion_tokens r) (ur_total_tokens r)
             (ur_cost_usd_micros r) (ur_latency_ms r) (ur_status r) (ur_error_category r)
             (ur_error_message r) (ur_prompt_id r) (ur_prompt_version r) (ur_prompt_excerpt r)
             (ur_step_kind r)).

Definition after_since (since : option Z) (t : Z) : bool :=
  match since with None => true | Some s => s <? t end.

(** The three statements, before their [LIMIT]. *)
Definition trajectory_audits (d : Db) (tenant task : string) (since : option Z) : list AuditEvent :=
  sort_by ae_occurred_at (List.filter (fun e => of_task tenant task e && after_since since (ae_occurred_at e))
    (db_audits d)).
Definition trajectory_checkpoints (d : Db) (tenant task : string) (since : option Z)
    : list TaskCheckpoint :=
  sort_by cp_created_at (sort_by cp_sequence
    (List.filter (fun c => after_since since (cp_created_at c)) (task_checkpoints d tenant task))).
Definition trajectory_usages (d : Db) (tenant task : string) (since : option Z) : list LLMUsageRecord :=
  sort_by ur_created_at (List.filter (fun r => usage_of_task tenant task r && after_since since (ur_created_at r))
    (db_usage d)).

Definition trajectory (tenant task : string) (since : option Z) (limit : Z) : M World TrajectoryPage :=
  check_tenant tenant ;;;
  if limit <=? 0 then raise (ValueError "limit_per_source must be positive")
  else
    let n := Z.to_nat limit in
    db_call ;;; w <- get ;; let audits := take n (trajectory_audits (w_db w) tenant task since) in
    db_call ;;; w <- get ;; let checkpoints := take n (trajectory_checkpoints (w_db w) tenant task since) in
    db_call ;;; w <- get ;; let usages := take n (trajectory_usages (w_db w) tenant task since) in
    let capped {A} (l : list A) := limit <=? Z.of_nat (length l) in
    let truncated := capped audits || capped checkpoints || capped usages in
    a <- lift (mapM_res audit_to_item audits) ;;
    c <- lift (mapM_res checkpoint_to_item checkpoints) ;;
    u <- lift (mapM_res usage_to_item usages) ;;
    ret (mkTrajectoryPage (sort_by item_time (a ++ c ++ u)) truncated).

(** ** Reads of a database that answers *)

Definition healthy (w : World) : Prop := forall n, w_fault w n = None.

(** The world after a statement: only the count of statements moved. *)
Definition ticked (w : World) : World := (db_call w).2.

Lemma db_call_healthy w : healthy w -> db_call w = (Ok tt, ticked w).
Proof. intros H. unfold ticked, db_call. by rewrite H. Qed.
Lemma ticked_db w : w_db (ticked w) = w_db w.
Proof. unfold ticked, db_call. by destruct (w_fault w (w_ops w)). Qed.
Lemma ticked_ctx w : w_ctx (ticked w) = w_ctx w.
Proof. unfold ticked, db_call. by destruct (w_fault w (w_ops w)). Qed.
Lemma ticked_healthy w : healthy w -> healthy (ticked w).
Proof. intros H n. unfold ticked, db_call. destruct (w_fault w (w_ops w)); simpl; apply H. Qed.

Lemma select_healthy {A} tenant (f : Db -> A) w :
  healthy w -> bound_to w tenant -> select tenant f w = (Ok (f (w_db w)), ticked w).
Proof.
  intros Hh Hb. unfold select, bind. rewrite check_tenant_bound by done. rewrite db_call_healthy by done.
  simpl. by rewrite ticked_db.
Qed.

(** ** Aggregates *)

Section Sums.
Context {A : Type} (f : A -> Z).

Lemma sum_over_app l1 l2 : sum_over f (l1 ++ l2) = sum_over f l1 + sum_over f l2.
Proof. induction l1 as [|a l IH]; simpl; [done|]. rewrite IH. lia. Qed.

Lemma sum_over_perm l1 l2 : l1 ≡ₚ l2 -> sum_over f l1 = sum_over f l2.
Proof. induction 1; simpl; lia. Qed.
End Sums.

Lemma sum_over_map {A B} (f : B -> Z) (g : A -> B) l : sum_over f (map g l) = sum_over (fun a => f (g a)) l.
Proof. induction l as [|a l IH]; simpl; [done|]. by rewrite IH. Qed.

Lemma sum_over_ext {A} (f g : A -> Z) l : (forall a, f a = g a) -> sum_over f l = sum_over g l.
Proof. intros H. induction l as [|a l IH]; simpl; [done|]. by rewrite H, IH. Qed.

Lemma sum_over_add {A} (f g : A -> Z) l : sum_over (fun a => f a + g a) l = sum_over f l + sum_over g l.
Proof. induction l as [|a l IH]; simpl; lia. Qed.

Lemma sum_over_zero {A} (f : A -> Z) l : (forall a, a ∈ l -> f a = 0) -> sum_over f l = 0.
Proof. intros H. induction l as [|a l IH]; simpl; [done|]. rewrite H by left. rewrite IH; [done|]. intros b Hb. apply H. by right. Qed.

Lemma sum_over_single (ks : list string) k v :
  NoDup ks -> k ∈ ks -> sum_over (fun x => if String.eqb k x then v else 0) ks = v.
Proof.
  intros Hn Hk. induction Hn as [|x ks Hx Hn IH]; [by apply not_elem_of_nil in Hk|]. simpl.
  apply elem_of_cons in Hk as [->|Hk].
  - rewrite String.eqb_refl, sum_over_zero; [lia|]. intros a Ha. destruct (String.eqb_spec x a); [by subst|done].
  - rewrite IH by done. destruct (String.eqb_spec k x); [by subst|done].
Qed.

(** Grouping rows by a key loses and repeats none of them. *)
Lemma sum_partition {A} (key : A -> string) (v : A -> Z) rows (ks : list string) :
  NoDup ks -> (forall r, r ∈ rows -> key r ∈ ks) ->
  sum_over (fun k => sum_over v (List.filter (fun r => String.eqb (key r) k) rows)) ks = sum_over v rows.
Proof.
  intros Hn. induction rows as [|r rows IH]; intros Hk; simpl; [by apply sum_over_zero|].
  rewrite <- IH by (intros x Hx; apply Hk; by right).
  rewrite <- (sum_over_single ks (key r) (v r)) by (done || apply Hk; left).
  rewrite <- sum_over_add. apply sum_over_ext. intros k. destruct (String.eqb (key r) k); simpl; lia.
Qed.

Lemma sum_over_one {A} (l : list A) : sum_over (fun _ => 1) l = Z.of_nat (length l).
Proof. induction l as [|a l IH]; simpl; lia. Qed.

Section AggregateFacts.
Context `{!TextOrder, !DayKey}.

#[local] Instance bucket_le_total : Total bucket_le.
Proof.
  intros a b. unfold bucket_le. set (x := (- ub_tokens a, ub_key a)). set (y := (- ub_tokens b, ub_key b)).
  destruct (key_lt y x) eqn:E1; [|by left]. destruct (key_lt x y) eqn:E2; [|by right].
  pose proof (lt_trans _ _ _ E1 E2) as F. by rewrite lt_irrefl in F.
Qed.

Lemma aggregate_perm g rows : aggregate g rows ≡ₚ map (bucket g rows) (remove_dups (map (agg_key g) rows)).
Proof. apply merge_sort_Permutation. Qed.

Lemma aggregate_keys g rows : NoDup (map ub_key (aggregate g rows)).
Proof.
  rewrite aggregate_perm, map_map. simpl. rewrite map_id. apply NoDup_remove_dups.
Qed.

Lemma aggregate_sum g rows (v : LLMUsageRecord -> Z) (col : UsageAggregate -> Z) :
  (forall k, col (bucket g rows k) = sum_over v (List.filter (fun r => String.eqb (agg_key g r) k) rows)) ->
  sum_over col (aggregate g rows) = sum_over v rows.
Proof.
  intros Hc. rewrite (sum_over_perm _ _ _ (aggregate_perm g rows)), sum_over_map.
  rewrite (sum_over_ext _ _ _ Hc). apply sum_partition; [apply NoDup_remove_dups|].
  intros r Hr. apply elem_of_remove_dups, list_elem_of_fmap. by exists r.
Qed.

Lemma aggregate_bucket g rows b :
  b ∈ aggregate g rows <-> exists r, r ∈ rows /\ b = bucket g rows (agg_key g r).
Proof.
  rewrite aggregate_perm, list_elem_of_fmap. split.
  - intros (k & -> & Hk). apply elem_of_remove_dups, list_elem_of_fmap in Hk as (r & -> & Hr). by exists r.
  - intros (r & Hr & ->). exists (agg_key g r). split; [done|].
    apply elem_of_remove_dups, list_elem_of_fmap. by exists r.
Qed.

Lemma aggregate_sorted g rows : Sorted bucket_le (aggregate g rows).
Proof. apply Sorted_merge_sort, _. Qed.
End AggregateFacts.

Section UsageReport.
Context `{!TextOrder, !LocalZone, !DayKey}.

(** The usage report over a window accounts for exactly the caller's usage
    rows of the window, whatever the grouping: one bucket per key that occurs,
    each the sum and count of its rows, ordered by tokens and then key, and the
    buckets add up to the tokens, the cost and the number of the rows (a null
    counting as 0).  When no row of the tenant is at or past the end of the
    window, those are the totals that the budget check reads from the start of the
    window on. *)
Theorem usage_report_conserves tenant since until g w :
  healthy w -> bound_to w tenant ->
  exists bs, aggregate_grouped tenant since until g w = (Ok bs, ticked w) /\
    let rows := List.filter (usage_in_window tenant (timestamptz since) (timestamptz until))
                  (db_usage (w_db w)) in
    NoDup (map ub_key bs) /\ Sorted bucket_le bs /\
    (forall b, b ∈ bs <-> exists r, r ∈ rows /\ b = bucket g rows (agg_key g r)) /\
    sum_over ub_tokens bs = sum_of ur_total_tokens rows /\
    sum_over ub_cost_usd_micros bs = sum_of ur_cost_usd_micros rows /\
    sum_over ub_calls bs = Z.of_nat (length rows) /\
    ((forall r, r ∈ db_usage (w_db w) -> ur_tenant_id r = tenant -> ur_created_at r < timestamptz until) ->
     aggregate_since tenant (timestamptz since) w =
       (Ok (mkBudgetUsage (sum_over ub_tokens bs) (sum_over ub_cost_usd_micros bs)), ticked w)).
Proof.
  intros Hh Hb. eexists. split; [by apply select_healthy|]. cbv zeta.
  set (rows := List.filter _ _).
  assert (sum_over ub_tokens (aggregate g rows) = sum_of ur_total_tokens rows) as Ht by by apply aggregate_sum.
  assert (sum_over ub_cost_usd_micros (aggregate g rows) = sum_of ur_cost_usd_micros rows) as Hc
    by by apply aggregate_sum.
  split; [apply aggregate_keys|]. split; [apply aggregate_sorted|]. split; [apply aggregate_bucket|].
  split; [done|]. split; [done|]. split.
  - rewrite <- sum_over_one. apply aggregate_sum. intros k. simpl. by rewrite sum_over_one.
  - intros Hlast. rewrite Ht, Hc. unfold aggregate_since. rewrite select_healthy by done.
    assert (List.filter (fun r => String.eqb (ur_tenant_id r) tenant && (timestamptz since <=? ur_created_at r))
              (db_usage (w_db w)) = rows) as ->; [|done].
    unfold rows. apply filter_ext_in. intros r Hr. unfold usage_in_window, in_window.
    destruct (String.eqb_spec (ur_tenant_id r) tenant) as [E|]; [|done]. simpl.
    specialize (Hlast r (proj2 (list_elem_of_In _ _) Hr) E). apply Z.ltb_lt in Hlast.
    by rewrite Hlast, andb_true_r.
Qed.
End UsageReport.

(** ** Trajectories *)

(** What the page must hold: the earliest rows of each source, in the order the
    sources are read. *)
Definition page_sources (n : nat) (d : Db) (tenant task : string) (since : option Z)
    : res (list TrajectoryItem * list TrajectoryItem * list TrajectoryItem) :=
  let? a := mapM_res audit_to_item (take n (trajectory_audits d tenant task since)) in
  let? c := mapM_res checkpoint_to_item (take n (trajectory_checkpoints d tenant task since)) in
  let? u := mapM_res usage_to_item (take n (trajectory_usages d tenant task since)) in
  Ok (a, c, u).

Lemma trajectory_run tenant task since limit w :
  healthy w -> bound_to w tenant -> 0 < limit ->
  (trajectory tenant task since limit w).1 =
    let d := w_db w in let n := Z.to_nat limit in
    let? srcs := page_sources n d tenant task since in
    Ok (mkTrajectoryPage (sort_by item_time (srcs.1.1 ++ srcs.1.2 ++ srcs.2))
          ((limit <=? Z.of_nat (length (take n (trajectory_audits d tenant task since)))) ||
           (limit <=? Z.of_nat (length (take n (trajectory_checkpoints d tenant task since)))) ||
           (limit <=? Z.of_nat (length (take n (trajectory_usages d tenant task since)))))).
Proof.
  intros Hh Hb Hl. unfold trajectory, bind at 1. rewrite check_tenant_bound by done.
  assert (limit <=? 0 = false) as -> by lia. cbv zeta. unfold bind.
  pose proof (ticked_healthy _ Hh) as Hh1. pose proof (ticked_healthy _ Hh1) as Hh2.
  rewrite (db_call_healthy w Hh). cbn -[db_call ticked page_sources mapM_res].
  rewrite (db_call_healthy _ Hh1). cbn -[db_call ticked page_sources mapM_res].
  rewrite (db_call_healthy _ Hh2). cbn -[db_call ticked page_sources mapM_res].
  rewrite !ticked_db. unfold lift, page_sources.
  destruct (mapM_res audit_to_item _) as [a|]; [|done]. cbn -[mapM_res].
  destruct (mapM_res checkpoint_to_item _) as [c|]; [|done]. cbn -[mapM_res].
  by destruct (mapM_res usage_to_item _) as [u|].
Qed.

Lemma cap_spec {A} limit (l : list A) :
  0 < limit -> (limit <=? Z.of_nat (length (take (Z.to_nat limit) l))) = (limit <=? Z.of_nat (length l)).
Proof.
  intros Hl. rewrite length_take. apply eq_true_iff_eq. rewrite !Z.leb_le. lia.
Qed.

Lemma take_below {A} limit (l : list A) :
  0 < limit -> (limit <=? Z.of_nat (length l)) = false -> take (Z.to_nat limit) l = l.
Proof. intros Hl H. apply take_ge. lia. Qed.

Lemma filter_app {A} (p : A -> bool) l1 l2 : List.filter p (l1 ++ l2) = List.filter p l1 ++ List.filter p l2.
Proof. apply List.filter_app. Qed.

(** A trajectory page is the three sources of the task merged by time: every
    item of the earliest rows of each source, none else, in time order, and items
    of one instant in the order audit events, checkpoints, usage rows.  The page
    is marked truncated exactly when a source has as many rows as the cap, and an
    unmarked page holds every row of the task after [since]. *)
Theorem trajectory_spec tenant task since limit w :
  healthy w -> bound_to w tenant -> 0 < limit ->
  let d := w_db w in
  match page_sources (Z.to_nat limit) d tenant task since with
  | Err e => (trajectory tenant task since limit w).1 = Err e
  | Ok (a, c, u) => exists page, (trajectory tenant task since limit w).1 = Ok page /\
      tp_items page ≡ₚ a ++ c ++ u /\ by_key item_time (tp_items page) /\
      (forall t, let at_ := List.filter (fun i => item_time i =? t) in
                 at_ (tp_items page) = at_ a ++ at_ c ++ at_ u) /\
      (tp_truncated page = true <->
         limit <= Z.of_nat (length (trajectory_audits d tenant task since)) \/
         limit <= Z.of_nat (length (trajectory_checkpoints d tenant task since)) \/
         limit <= Z.of_nat (length (trajectory_usages d tenant task since))) /\
      (tp_truncated page = false ->
         mapM_res audit_to_item (trajectory_audits d tenant task since) = Ok a /\
         mapM_res checkpoint_to_item (trajectory_checkpoints d tenant task since) = Ok c /\
         mapM_res usage_to_item (trajectory_usages d tenant task since) = Ok u)
  end.
Proof.
  intros Hh Hb Hl d. pose proof (trajectory_run tenant task since limit w Hh Hb Hl) as Hrun.
  cbv zeta in Hrun. fold d in Hrun.
  destruct (page_sources (Z.to_nat limit) d tenant task since) as [[[a c] u]|e] eqn:Hs; [|done].
  eexists. split; [exact Hrun|]. cbn [tp_items tp_truncated fst snd].
  rewrite !cap_spec by done. split; [apply sort_by_perm|]. split; [apply sort_by_sorted|]. split; [|split].
  - intros t. cbv zeta. by rewrite sort_by_stable, !filter_app.
  - rewrite !orb_true_iff, !Z.leb_le. tauto.
  - rewrite !orb_false_iff. intros [[H1 H2] H3]. unfold page_sources in Hs.
    rewrite !take_below in Hs by done.
    apply res_bind_inv in Hs as (a' & Ha & Hs). apply res_bind_inv in Hs as (c' & Hc & Hs).
    apply res_bind_inv in Hs as (u' & Hu & [= -> -> ->]). done.
Qed.

(** ** The budget gate on the usage log *)

Lemma spent_micros_sum bs : spent_micros bs = sum_over ub_cost_usd_micros bs.
Proof.
  unfold spent_micros. assert (forall acc, fold_left (fun acc b => acc + ub_cost_usd_micros b) bs acc =
    acc + sum_over ub_cost_usd_micros bs) as H; [|by rewrite H].
  induction bs as [|b bs IH]; intros acc; simpl; [lia|]. rewrite IH. lia.
Qed.

Section BudgetOnUsage.
Context `{!TextOrder, !DayKey}.

Definition task_spend (d : Db) (tenant task : string) : Z :=
  sum_of ur_cost_usd_micros (List.filter (usage_of_task tenant task) (db_usage d)).

(** C27: the per-task budget gate, on the usage log it reads: while the gate is
    armed, a node runs only if the recorded cost of the task's own calls, summed
    over all its usage rows, is below the ceiling.  At or above it the abort policy
    ends the run with an error and the gate policy pauses it, and the recorded spend
    is that sum. *)
Theorem budget_gate_on_usage s threshold node w :
  armed s threshold -> healthy w -> bound_to w (tenant_id s) ->
  let spend := task_spend (w_db w) (tenant_id s) (task_id s) in
  match check_budget_policy (fun tenant task => aggregate_for_task tenant task GB_STEP_KIND) s true node w with
  | (Ok None, w1) => w_db w1 = w_db w /\ spend < threshold
  | (Ok (Some r), w1) =>
      w_db w1 = w_db w /\ threshold <= spend /\
      getd (nr_data_update r) "_budget_spent_micros" = JInt spend /\
      (if is_str (getd (data s) "_budget_policy") "abort_on_threshold"
       then nr_next_node r = Some END /\ nr_awaiting_approval r = false /\ is_Some (nr_error r)
       else nr_next_node r = None /\ nr_awaiting_approval r = true /\ nr_error r = None)
  | (Err _, _) => False
  end.
Proof.
  intros Ha Hh Hb spend.
  pose proof (select_healthy _ (fun d => aggregate GB_STEP_KIND
    (List.filter (usage_of_task (tenant_id s) (task_id s)) (db_usage d))) w Hh Hb) as Hsel.
  pose proof (budget_gate_enforces (fun tenant task => aggregate_for_task tenant task GB_STEP_KIND)
    s threshold node w _ _ Ha Hsel) as HB.
  assert (spent_micros (aggregate GB_STEP_KIND
    (List.filter (usage_of_task (tenant_id s) (task_id s)) (db_usage (w_db w)))) = spend) as Es.
  { rewrite spent_micros_sum. by apply aggregate_sum. }
  rewrite Es in HB. destruct (check_budget_policy _ s true node w) as [[[r|]|e] w1]; [|destruct HB as [-> ?]|done].
  - destruct HB as (-> & HB). by rewrite ticked_db.
  - by rewrite ticked_db.
Qed.
End BudgetOnUsage.
