(* ===== verification/Auth.v ===== *)
(** * Auth: bearer tokens and the request context

    [infra/auth/] and the ingress part of [api/deps.py]: the table of keys read
    from the environment, the [api_keys] table with hashed tokens, the choice
    between the two, and [get_request_ctx], which turns an [Authorization] header
    into the context that every handler runs under.

    The hash of the database adapter is a parameter.  The [last_used_at] update
    that a successful lookup schedules runs after the response; [validate]
    returns it with its result. *)

From S2P Require Import Prelude PyText Domain GraphRuntime Gates Results Persistence PersistenceFacts LlmClients Reporting.

Record Principal : Type := mkPrincipal {
  pr_tenant_id : string; pr_principal_id : string; pr_scopes : list string
}.

(** ** [EnvTokenValidator] *)

Definition strip_nonempty (parts : list string) : list string :=
  List.filter nonempty (map py_strip parts).

(** One entry, [token:tenant:principal[:scopes]]. *)
Definition parse_entry (entry : string) : res (string * Principal) :=
  let bad := Err (ValueError "META_AGENT_API_KEYS entry must be 'token:tenant:principal[:scopes]'") in
  let build token tenant principal scopes :=
    if negb (nonempty token) || negb (nonempty tenant) || negb (nonempty principal) then
      Err (ValueError "META_AGENT_API_KEYS entry has empty token / tenant / principal")
    else Ok (token, mkPrincipal tenant principal scopes) in
  match split_on 58 entry with
  | [token; tenant; principal] => build token tenant principal []
  | [token; tenant; principal; scopes] =>
      build token tenant principal (if nonempty scopes then strip_nonempty (split_on 59 scopes) else [])
  | _ => bad
  end.

Fixpoint parse_from (table : list (string * Principal)) (entries : list string)
    : res (list (string * Principal)) :=
  match entries with
  | [] => Ok table
  | e :: rest => let? kv := parse_entry e in parse_from (dset table kv.1 kv.2) rest
  end.

Definition parse_entries (raw : string) : res (list (string * Principal)) :=
  if negb (nonempty raw) then Ok [] else parse_from [] (strip_nonempty (split_on 44 raw)).

(** [hmac.compare_digest] on two [str]: both must be ASCII. *)
Definition compare_digest (a b : string) : res bool :=
  if is_ascii a && is_ascii b then Ok (String.eqb a b)
  else Err (TypeError "comparing strings with non-ASCII characters is not supported").

Fixpoint env_scan (token : string) (found : option Principal) (table : list (string * Principal))
    : res (option Principal) :=
  match table with
  | [] => Ok found
  | (stored, p) :: rest =>
      let? same := compare_digest token stored in
      env_scan token (if same then Some p else found) rest
  end.

Definition env_validate (table : list (string * Principal)) (token : string) : res (option Principal) :=
  if negb (nonempty token) then Ok None else env_scan token None table.

(** ** [PgTokenValidator] *)

Section Pg.
Context (hash_token : string -> string) (touch_last_used : bool).

(** [WHERE token_hash = $1 AND revoked_at IS NULL LIMIT 1]. *)
Definition lookup_key (d : Db) (hash : string) : option ApiKey :=
  List.find (fun k => String.eqb (ak_token_hash k) hash && bool_decide (ak_revoked_at k = None))
    (db_api_keys d).

(** The principal, and the hash whose [last_used_at] is to be updated. *)
Definition pg_validate (token : string) : M World (option Principal * option string) :=
  if negb (nonempty token) then ret (None, None)
  else
    let hash := hash_token token in
    row <- try_except (db_call ;;; w <- get ;; ret (lookup_key (w_db w) hash))
             (fun e => if is_exception e then Some (raise AuthBackendError) else None) ;;
    match row with
    | None => ret (None, None)
    | Some k => ret (Some (mkPrincipal (ak_tenant_id k) (ak_principal_id k) (ak_scopes k)),
                     if touch_last_used then Some hash else None)
    end.

(** [_do_touch]: the scheduled update; its failure is only logged. *)
Definition do_touch (hash : string) (now : Z) : M World unit :=
  db_call ;;;
  modify (with_db (with_api_keys (map (fun k =>
    if String.eqb (ak_token_hash k) hash
    then mkApiKey (ak_id k) (ak_token_hash k) (ak_tenant_id k) (ak_principal_id k) (ak_scopes k)
           (ak_revoked_at k) (Some now)
    else k)))).
End Pg.

(** ** [AuthConfig] *)

Inductive AuthBackend : Type := BACKEND_ENV | BACKEND_PG.
Record AuthConfig : Type := mkAuthConfig {
  ac_backend : AuthBackend; ac_api_keys : string; ac_touch_last_used : bool
}.

Definition auth_parse_bool (raw : string) : res bool :=
  let v := py_lower (py_strip raw) in
  if existsb (String.eqb v) ["true"; "1"; "yes"; "on"] then Ok true
  else if existsb (String.eqb v) ["false"; "0"; "no"; "off"] then Ok false
  else Err (ValueError "META_AGENT_AUTH_TOUCH_LAST_USED is not a boolean").

Definition auth_from_env (env : list (string * string)) : res AuthConfig :=
  let backend := py_lower (py_strip (default "env" (dget env "META_AGENT_AUTH_BACKEND"))) in
  let? b := if String.eqb backend "env" then Ok BACKEND_ENV
            else if String.eqb backend "pg" then Ok BACKEND_PG
            else Err (ValueError "META_AGENT_AUTH_BACKEND not in ('env', 'pg')") in
  let? touch := auth_parse_bool (default "true" (dget env "META_AGENT_AUTH_TOUCH_LAST_USED")) in
  Ok (mkAuthConfig b (default "" (dget env "META_AGENT_API_KEYS")) touch).

(** A validator as the handlers see it. *)
Definition TokenValidator : Type := string -> M World (option Principal).

Definition build_token_validator_from_config (hash_token : string -> string) (c : AuthConfig)
    (has_pool : bool) : res TokenValidator :=
  match ac_backend c with
  | BACKEND_ENV => let? table := parse_entries (ac_api_keys c) in
                   Ok (fun token => lift (env_validate table token))
  | BACKEND_PG =>
      if negb has_pool then
        Err (ValueError "META_AGENT_AUTH_BACKEND=pg requires a DatabasePool to be passed to the factory")
      else Ok (fun token => r <- pg_validate hash_token (ac_touch_last_used c) token ;; ret r.1)
  end.

(** ** [get_request_ctx] *)

(** [authorization.split(None, 1)]: the word before the first run of spaces. *)
Fixpoint span_word (s : string) : string * string :=
  match s with
  | EmptyString => ("", "")
  | String c s' => if is_space c then ("", s) else let '(w, r) := span_word s' in (String c w, r)
  end.

Definition parse_bearer (authorization : option string) : option string :=
  match authorization with
  | None => None
  | Some a =>
      let '(scheme, rest) := span_word (str_lstrip a) in
      let token := str_lstrip rest in
      if negb (nonempty token) || negb (String.eqb (py_lower scheme) "bearer") then None
      else let t := py_strip token in if nonempty t then Some t else None
  end.

Definition invalid_token : exn := HTTPException 401 "invalid or missing bearer token".

Definition get_request_ctx (validate : TokenValidator) (authorization x_trace_id : option string)
    : M World RequestContext :=
  match parse_bearer authorization with
  | None => raise invalid_token
  | Some token =>
      principal <- try_except (validate token)
        (fun e => match e with
                  | AuthBackendError => Some (raise (HTTPException 503 "authentication backend unavailable"))
                  | _ => None
                  end) ;;
      match principal with
      | None => raise invalid_token
      | Some p =>
          trace <- match x_trace_id with
                   | Some t => if nonempty t then ret t else id_factory
                   | None => id_factory
                   end ;;
          rid <- id_factory ;;
          ret (mkContext (pr_tenant_id p) (pr_principal_id p) trace rid None None None)
      end
  end.

(** ** What a context means *)

Lemma parse_from_NoDup table entries t :
  NoDup table.*1 -> parse_from table entries = Ok t -> NoDup t.*1.
Proof.
  revert table. induction entries as [|e rest IH]; intros table Hn; simpl; [by intros [= <-]|].
  intros ([k p] & _ & H)%res_bind_inv. eapply IH; [|exact H]. by apply dset_NoDup.
Qed.

Lemma parse_entries_NoDup raw t : parse_entries raw = Ok t -> NoDup t.*1.
Proof.
  unfold parse_entries. destruct (negb _); [intros [= <-]; constructor|].
  apply parse_from_NoDup. constructor.
Qed.

Lemma env_scan_ascii token found table :
  is_ascii token = true -> Forall (fun kv => is_ascii kv.1 = true) table -> NoDup table.*1 ->
  env_scan token found table = Ok (match dget table token with Some p => Some p | None => found end).
Proof.
  intros Ht Hall Hn. revert found. induction Hall as [|[k p] rest Hk _ IH]; intros found; simpl; [done|].
  apply NoDup_cons in Hn as [Hk' Hn]. simpl in Hk. unfold compare_digest. rewrite Ht, Hk. simpl.
  rewrite IH by done. rewrite String.eqb_sym. destruct (String.eqb_spec k token) as [->|]; simpl; [|done].
  apply dget_None_iff in Hk'. simpl in Hk'. by rewrite Hk'.
Qed.

(** Configured ASCII keys: the scan is the dictionary lookup. *)
Lemma env_validate_lookup raw table token :
  parse_entries raw = Ok table -> Forall (fun kv => is_ascii kv.1 = true) table ->
  is_ascii token = true -> nonempty token = true ->
  env_validate table token = Ok (dget table token).
Proof.
  intros Hp Hall Ha Hne. unfold env_validate. rewrite Hne. simpl.
  rewrite env_scan_ascii by (done || by eapply parse_entries_NoDup). by destruct (dget table token).
Qed.

Lemma env_scan_sound token found table p :
  env_scan token found table = Ok (Some p) -> found = Some p \/ (token, p) ∈ table.
Proof.
  revert found. induction table as [|[k q] rest IH]; intros found; simpl; [intros [= ->]; by left|].
  intros (same & Hs & H)%res_bind_inv. unfold compare_digest in Hs.
  destruct (is_ascii token && is_ascii k); [|done]. injection Hs as <-.
  apply IH in H as [H|H]; [|right; by right]. destruct (String.eqb_spec token k) as [->|]; [|by left].
  injection H as ->. right. left.
Qed.

(** The evidence behind a principal, for either backend. *)
Definition grants (hash_token : string -> string) (c : AuthConfig) (d : Db) (token : string) (p : Principal)
    : Prop :=
  match ac_backend c with
  | BACKEND_ENV => exists table, parse_entries (ac_api_keys c) = Ok table /\ (token, p) ∈ table
  | BACKEND_PG => exists k, k ∈ db_api_keys d /\ ak_token_hash k = hash_token token /\
      ak_revoked_at k = None /\ p = mkPrincipal (ak_tenant_id k) (ak_principal_id k) (ak_scopes k)
  end.

(** The header a token is read from holds more than spaces. *)
Lemma parse_bearer_nonempty a token : parse_bearer a = Some token -> nonempty token = true.
Proof.
  unfold parse_bearer. destruct a as [a|]; [|done]. destruct (span_word _) as [scheme rest].
  destruct (_ || _); [done|]. destruct (nonempty (py_strip _)) eqn:E; [by intros [= <-]|done].
Qed.

(** The environment's keys and the token are ASCII: what the digest comparison of
    the environment backend needs; the table of hashes does not. *)
Definition comparable (c : AuthConfig) (token : string) : Prop :=
  ac_backend c = BACKEND_ENV -> is_ascii token = true /\
  forall table, parse_entries (ac_api_keys c) = Ok table -> Forall (fun kv => is_ascii kv.1 = true) table.

(** What a validator answers. *)
Definition verdict (hash_token : string -> string) (c : AuthConfig) (token : string) (w : World)
    (r : res (option Principal)) : Prop :=
  match ac_backend c, w_fault w (w_ops w) with
  | BACKEND_PG, Some (InfraFault _) => r = Err AuthBackendError
  | BACKEND_PG, Some CancelFault => r = Err CancelledError
  | _, _ => (exists p, grants hash_token c (w_db w) token p /\ r = Ok (Some p)) \/
            ((forall p, ~ grants hash_token c (w_db w) token p) /\ r = Ok None)
  end.

Lemma env_verdict hash_token c table token w :
  ac_backend c = BACKEND_ENV -> parse_entries (ac_api_keys c) = Ok table -> nonempty token = true -> comparable c token ->
  verdict hash_token c token w (env_validate table token).
Proof.
  intros Hb Ht Hn Hc. destruct (Hc Hb) as [Ha Hk]. unfold verdict, grants. rewrite Hb.
  rewrite (env_validate_lookup _ _ _ Ht (Hk _ Ht) Ha Hn). pose proof (parse_entries_NoDup _ _ Ht) as Hnd.
  destruct (dget table token) as [p|] eqn:E.
  - left. exists p. split; [|done]. exists table. split; [done|]. by apply dget_in.
  - right. split; [|done]. intros p (t' & Ht' & Hin). rewrite Ht in Ht'. injection Ht' as <-.
    apply dget_None_iff in E. apply E. by apply (list_elem_of_fmap_2 fst) in Hin.
Qed.

Lemma pg_verdict hash_token c token w :
  ac_backend c = BACKEND_PG -> nonempty token = true ->
  let '(r, w') := (r <- pg_validate hash_token (ac_touch_last_used c) token ;; ret r.1) w in
  verdict hash_token c token w r /\ w_db w' = w_db w /\ w_ctx w' = w_ctx w.
Proof.
  intros Hb Hn. unfold pg_validate. rewrite Hn. cbn [negb]. unfold verdict, grants, bind, try_except, db_call. rewrite Hb.
  destruct (w_fault w (w_ops w)) as [[]|]; simpl; [done|done|].
  destruct (lookup_key (w_db w) (hash_token token)) as [k|] eqn:E; unfold lookup_key in E; simpl; (split; [|done]).
  - left. apply find_some in E as [Hin [H1 H2]%andb_true_iff]. eexists. split; [|done].
    exists k. rewrite list_elem_of_In. split; [done|]. split; [by apply String.eqb_eq|].
    split; [by apply bool_decide_eq_true in H2|done].
  - right. split; [|done]. intros p (k & Hin & Hh & Hr & _). apply list_elem_of_In in Hin.
    pose proof (find_none _ _ E k Hin) as Hf. simpl in Hf. by rewrite Hh, Hr, String.eqb_refl in Hf.
Qed.

Lemma validator_verdict hash_token c pool validate token w :
  build_token_validator_from_config hash_token c pool = Ok validate -> nonempty token = true -> comparable c token ->
  let '(r, w') := validate token w in
  verdict hash_token c token w r /\ w_db w' = w_db w /\ w_ctx w' = w_ctx w.
Proof.
  unfold build_token_validator_from_config. intros Hv Hn Hc. destruct (ac_backend c) eqn:Hb.
  - apply res_bind_inv in Hv as (table & Ht & [= <-]). split; [|done]. by apply env_verdict.
  - destruct (negb pool); [done|]. injection Hv as <-. by apply pg_verdict.
Qed.

(** The context of a principal. *)
Definition context_of (p : Principal) (x_trace : option string) : M World RequestContext :=
  trace <- match x_trace with Some t => if nonempty t then ret t else id_factory | None => id_factory end ;;
  rid <- id_factory ;;
  ret (mkContext (pr_tenant_id p) (pr_principal_id p) trace rid None None None).

Lemma context_of_spec p x_trace w : exists trace rid w',
  (forall t, x_trace = Some t -> t <> "" -> trace = t) /\
  context_of p x_trace w = (Ok (mkContext (pr_tenant_id p) (pr_principal_id p) trace rid None None None), w') /\
  w_db w' = w_db w /\ w_ctx w' = w_ctx w.
Proof.
  unfold context_of. destruct x_trace as [t|]; [destruct (nonempty t) eqn:E|]; cbn;
    (do 3 eexists; split; [|done]); [by intros ? [= <-]| |done].
  intros t' [= <-] Hn. by apply nonempty_true in Hn; rewrite Hn in E.
Qed.


(** The environment validator is documented never to raise, but the digest
    comparison refuses non-ASCII text: with at least one key configured, a
    non-ASCII token raises [TypeError], which the request handler does not catch. *)
Theorem env_validate_non_ascii table token trace w :
  table <> [] -> is_ascii token = false -> parse_bearer (Some ("Bearer " +:+ token)) = Some token ->
  get_request_ctx (fun t => lift (env_validate table t)) (Some ("Bearer " +:+ token)) trace w =
    (Err (TypeError "comparing strings with non-ASCII characters is not supported"), w).
Proof.
  intros Hne Ha Hp. unfold get_request_ctx. rewrite Hp.
  assert (nonempty token = true) as Hn by (destruct token; done).
  destruct table as [|[k p] rest]; [done|]. unfold bind, try_except, lift, env_validate. rewrite Hn. simpl.
  unfold compare_digest. by rewrite Ha.
Qed.
