(* ===== verification/Observability.v ===== *)
(** * Observability: the summary of one task

    [core/domain/task_observability.py] and [api/services/task_observability.py]:
    the audit events, the usage rows and the result of a task folded into one
    record, after all pages of its audit stream were read.

    The rates of [build_eval_aggregate] are fractions here, a numerator and a
    denominator, where Python divides to the nearest double. *)

From S2P Require Import Prelude PyText Domain Cursor Keyset GraphRuntime Gates Results Persistence PersistenceFacts LlmClients Reporting.

(** ** [TaskObservabilitySummary] *)

Record TaskObservabilitySummary : Type := mkSummary {
  ts_task_id : string; ts_state : TaskState; ts_result_status : option TaskResultStatus;
  ts_verifier_passed : option bool; ts_failure_category : option string; ts_failure_kind : option string;
  ts_attempts : option Z; ts_files_changed : list string; ts_patch_present : bool;
  ts_llm_calls : Z; ts_llm_failures : Z; ts_total_tokens : Z; ts_total_cost_usd_micros : Z;
  ts_total_latency_ms : Z; ts_tool_events : Z; ts_tool_failures : Z; ts_human_interventions : Z;
  ts_budget_outcome : string; ts_auto_pr_child_status : string;
  ts_cost_by_step_kind : list (string * Z); ts_models : list string
}.

(** [isinstance(x, str) and x.strip()]. *)
Definition visible_str (v : json) : option string :=
  match v with JStr s => if nonempty (py_strip s) then Some s else None | _ => None end.

Definition result_output (r : option TaskResult) : dict := default [] (r ≫= tr_output).
Definition error_details (r : TaskResult) : dict := default [] (tr_error r ≫= te_details).

Definition failure_category (result : option TaskResult) : option string :=
  match result with
  | None => None
  | Some r =>
      match as_dict (getd (result_output result) "failure_explanation") ≫= (fun f => visible_str (getd f "category")) with
      | Some c => Some c
      | None => match visible_str (getd (error_details r) "failure_category") with
                | Some c => Some c
                | None => (fun e => TaskErrorCode_value (te_code e)) <$> tr_error r
                end
      end
  end.

Definition failure_kind (result : option TaskResult) : option string :=
  match result with
  | None => None
  | Some r =>
      match (as_dict (getd (result_output result) "failure_explanation") ≫= (fun f =>
              as_dict (getd f "details"))) ≫= (fun d => visible_str (getd d "failure_kind")) with
      | Some k => Some k
      | None => visible_str (getd (error_details r) "failure_kind")
      end
  end.

Definition default_auto_pr_child_status (t : Task) : string :=
  if bool_decide (t_task_type t = BUG_FIX) then "not_enqueued" else "not_applicable".

Definition budget_gate_seen (audits : list AuditEvent) : bool :=
  existsb (fun e => String.eqb (ae_action e) "task.awaiting_approval" &&
                    is_str (getd (ae_payload e) "gate_id") "budget") audits.

Definition budget_outcome (t : Task) (result : option TaskResult) (audits : list AuditEvent) : string :=
  match t_budget_policy t, t_budget_threshold_micros t with
  | BP_NONE, _ | _, None => "not_enabled"
  | _, Some _ =>
      let seen := budget_gate_seen audits in
      if bool_decide (t_state t = AWAITING_APPROVAL) && seen then "awaiting_approval"
      else
        let message := te_message <$> (result ≫= tr_error) in
        match message with
        | Some m =>
            if str_contains "budget gate rejected by operator" m then "rejected"
            else if String.prefix "budget exceeded:" m then "aborted"
            else if seen then "approved" else "within_budget"
        | None => if seen then "approved" else "within_budget"
        end
  end.

(** [sum(1 for x in l if p(x))]. *)
Definition count_if {A} (p : A -> bool) (l : list A) : Z := Z.of_nat (length (List.filter p l)).

Definition tool_event (e : AuditEvent) : bool := String.prefix "tool." (ae_action e).
Definition tool_failure (e : AuditEvent) : bool := String.eqb (ae_action e) "tool.failed".
Definition human_intervention (e : AuditEvent) : bool :=
  String.eqb (ae_action e) "task.awaiting_approval" || String.eqb (ae_action e) "permission.prompted".

Definition row_models (r : LLMUsageRecord) : list string :=
  List.filter (fun m => nonempty (py_strip m)) (option_list (ur_model r) ++ option_list (ur_requested_model r)).

(** [{bucket.key: bucket.cost for bucket in buckets if bucket.cost > 0}]. *)
Definition cost_by_step_kind (buckets : list UsageAggregate) : list (string * Z) :=
  dupdate [] (map (fun b => (ub_key b, ub_cost_usd_micros b))
                (List.filter (fun b => 0 <? ub_cost_usd_micros b) buckets)).

Definition build_task_observability_summary (task : Task) (result : option TaskResult)
    (usages : list LLMUsageRecord) (usage_buckets : list UsageAggregate) (audits : list AuditEvent)
    (auto_pr_child_status : option string) : TaskObservabilitySummary :=
  let output := result_output result in
  mkSummary (t_task_id task) (t_state task) (tr_status <$> result)
    (match getd output "verifier_passed" with JBool b => Some b | _ => None end)
    (failure_category result) (failure_kind result)
    (as_int (getd output "attempts"))
    (match getd output "files_changed" with JList l => omap as_str l | _ => [] end)
    (truthy (getd output "patch"))
    (Z.of_nat (length usages))
    (count_if (fun r => negb (bool_decide (ur_status r = USAGE_OK))) usages)
    (sum_of ur_total_tokens usages) (sum_of ur_cost_usd_micros usages)
    (sum_over ur_latency_ms usages)
    (count_if tool_event audits) (count_if (fun e => tool_event e && tool_failure e) audits)
    (count_if human_intervention audits)
    (budget_outcome task result audits)
    (match auto_pr_child_status with
     | Some s => if nonempty s then s else default_auto_pr_child_status task
     | None => default_auto_pr_child_status task
     end)
    (cost_by_step_kind usage_buckets)
    (merge_sort str_le (remove_dups (usages ≫= row_models))).

(** [build_eval_aggregate]. *)
Record EvalAggregate : Type := mkEvalAggregate {
  ea_success_rate : Z * Z; ea_average_tokens_per_case : Z * Z; ea_average_cost_usd_micros_per_case : Z * Z;
  ea_tool_failures : Z; ea_verifier_failures : Z; ea_human_interventions : Z; ea_llm_failures : Z
}.

Definition ratio (n cases : Z) : Z * Z := if cases =? 0 then (0, 1) else (n, cases).

Definition build_eval_aggregate (rows : list TaskObservabilitySummary) : EvalAggregate :=
  let cases := Z.of_nat (length rows) in
  mkEvalAggregate
    (ratio (count_if (fun r => bool_decide (ts_verifier_passed r = Some true)) rows) cases)
    (ratio (sum_over ts_total_tokens rows) cases)
    (ratio (sum_over ts_total_cost_usd_micros rows) cases)
    (sum_over ts_tool_failures rows)
    (count_if (fun r => bool_decide (ts_verifier_passed r = Some false)) rows)
    (sum_over ts_human_interventions rows) (sum_over ts_llm_failures rows).

Definition summary_to_json_dict (s : TaskObservabilitySummary) : dict :=
  [("task_id", JStr (ts_task_id s)); ("state", JStr (TaskState_value (ts_state s)));
   ("result_status", opt_json (fun r => JStr (TaskResultStatus_value r)) (ts_result_status s));
   ("verifier_passed", opt_json JBool (ts_verifier_passed s));
   ("failure_category", opt_json JStr (ts_failure_category s));
   ("failure_kind", opt_json JStr (ts_failure_kind s));
   ("attempts", opt_json JInt (ts_attempts s));
   ("files_changed", JList (map JStr (ts_files_changed s)));
   ("patch_present", JBool (ts_patch_present s));
   ("llm_calls", JInt (ts_llm_calls s)); ("llm_failures", JInt (ts_llm_failures s));
   ("total_tokens", JInt (ts_total_tokens s));
   ("total_cost_usd_micros", JInt (ts_total_cost_usd_micros s));
   ("total_latency_ms", JInt (ts_total_latency_ms s));
   ("tool_events", JInt (ts_tool_events s)); ("tool_failures", JInt (ts_tool_failures s));
   ("human_interventions", JInt (ts_human_interventions s));
   ("budget_outcome", JStr (ts_budget_outcome s));
   ("auto_pr_child_status", JStr (ts_auto_pr_child_status s));
   ("cost_by_step_kind", JDict (map (fun kv => (kv.1, JInt kv.2)) (ts_cost_by_step_kind s)));
   ("models", JList (map JStr (ts_models s)))].

(** ** Loading *)

Definition AUDIT_PAGE_SIZE : nat := 500.

Section Load.
Context `{!TextOrder, !DayKey}.

(** [_list_all_task_audits]: [fuel] bounds the pages. *)
Fixpoint list_pages (fuel : nat) (tenant task : string) (rows : list AuditEvent)
    (cursor : option (Z * string)) : M World (list AuditEvent) :=
  match fuel with
  | O => raise OutOfFuel
  | S fuel' =>
      page <- list_for_task_since tenant task cursor AUDIT_PAGE_SIZE ;;
      match last page with
      | None => ret rows
      | Some e =>
          let rows' := rows ++ page in
          if Nat.ltb (length page) AUDIT_PAGE_SIZE then ret rows'
          else list_pages fuel' tenant task rows' (Some (audit_key e))
      end
  end.

Definition list_all_task_audits (fuel : nat) (tenant task : string) : M World (list AuditEvent) :=
  list_pages fuel tenant task [] None.

(** What a finished child task says about the pull request. *)
Definition child_outcome (r : TaskResult) : string :=
  let action := getd (default [] (tr_output r)) "action" in
  match tr_status r, as_str action with
  | RS_succeeded, Some a =>
      if existsb (String.eqb a) ["created"; "reused"; "skipped"] then a else "enqueued"
  | RS_succeeded, None => "enqueued"
  | RS_failed, _ => "failed"
  end.

Definition follow_up_is_auto_pr (e : AuditEvent) : bool := is_str (getd (ae_payload e) "follow_up_type") "auto_pr".

Fixpoint scan_chain_events (tenant : string) (events : list AuditEvent) : M World string :=
  match events with
  | [] => ret "not_enqueued"
  | e :: rest =>
      if String.eqb (ae_action e) "task.chain_failed" && follow_up_is_auto_pr e then ret "chain_failed"
      else if String.eqb (ae_action e) "task.chain_skipped" && follow_up_is_auto_pr e then
        ret (if is_str (getd (ae_payload e) "reason") "duplicate" then "duplicate" else "not_enqueued")
      else if negb (String.eqb (ae_action e) "task.chain_enqueued") || negb (follow_up_is_auto_pr e) then
        scan_chain_events tenant rest
      else
        match as_nonempty_str (getd (ae_payload e) "child_task_id") with
        | None => ret "enqueued"
        | Some child =>
            t <- get_task tenant child ;;
            match t with
            | None => ret "enqueued"
            | Some _ =>
                r <- get_result tenant child ;;
                ret (match r with None => "enqueued" | Some res => child_outcome res end)
            end
        end
  end.

Definition auto_pr_child_status (task : Task) (audits : list AuditEvent) : M World (option string) :=
  if negb (String.eqb (TaskType_value (t_task_type task)) "bug_fix") then ret None
  else s <- scan_chain_events (t_tenant_id task) audits ;; ret (Some s).

Definition build_task_observability (fuel : nat) (tenant : string) (task : Task)
    : M World TaskObservabilitySummary :=
  result <- get_result tenant (t_task_id task) ;;
  usage_rows <- usage_list_for_task tenant (t_task_id task) ;;
  buckets <- aggregate_for_task tenant (t_task_id task) GB_STEP_KIND ;;
  audits <- list_all_task_audits fuel tenant (t_task_id task) ;;
  child <- auto_pr_child_status task audits ;;
  ret (build_task_observability_summary task result usage_rows buckets audits child).
End Load.

(** ** All pages of the audit stream *)

(** The primary key of [audit_events], kept by [append_audit]. *)
Definition audit_ids_unique (d : Db) : Prop := NoDup (map ae_event_id (db_audits d)).

Lemma append_audit_unique e w :
  audit_ids_unique (w_db w) -> audit_ids_unique (w_db (append_audit e w).2).
Proof.
  unfold append_audit, bind, audit_ids_unique. intros Hn.
  destruct (check_tenant (ae_tenant_id e) w) as [[]] eqn:E; apply check_tenant_inv in E as [-> _]; [|done].
  unfold db_call. destruct (w_fault w (w_ops w)); [done|]. simpl.
  destruct (audit_conflict (w_db w) e) eqn:Hc; [done|]. simpl. rewrite map_app. apply NoDup_app.
  split; [done|]. split; [|apply NoDup_singleton]. intros i Hi Hin. simpl in Hin.
  apply list_elem_of_singleton in Hin as ->. apply list_elem_of_fmap in Hi as (x & Hx & Hi).
  unfold audit_conflict in Hc. rewrite <- not_true_iff_false, existsb_exists in Hc. apply Hc.
  exists x. split; [by apply list_elem_of_In|]. rewrite Hx. apply String.eqb_refl.
Qed.

Lemma filter_map_NoDup {A B C} (f : A -> B) (g : A -> C) (p : A -> bool) l :
  (forall a b, g a = g b -> f a = f b) -> NoDup (map f l) -> NoDup (map g (List.filter p l)).
Proof.
  intros Hg. induction l as [|a l IH]; simpl; [intros _; constructor|]. intros [Ha Hn]%NoDup_cons.
  destruct (p a); [|by apply IH]. simpl. apply NoDup_cons. split; [|by apply IH].
  intros H. apply Ha. apply list_elem_of_fmap in H as (b & E & Hb). apply list_elem_of_fmap.
  exists b. split; [by apply Hg|]. rewrite list_elem_of_In in *. by apply filter_In in Hb as [Hb _].
Qed.

Lemma audit_keys_unique p d : audit_ids_unique d -> NoDup (map audit_key (List.filter p (db_audits d))).
Proof. apply filter_map_NoDup. unfold audit_key. by intros a b [= _ ?]. Qed.

(** Worlds that differ only in how many statements were counted. *)
Definition same_tables (w w' : World) : Prop :=
  w_db w' = w_db w /\ w_ctx w' = w_ctx w /\ (healthy w -> healthy w').

Lemma same_tables_ticked w w' : same_tables w w' -> same_tables w (ticked w').
Proof.
  intros (H1 & H2 & H3). split; [by rewrite ticked_db|]. split; [by rewrite ticked_ctx|].
  intros H. by apply ticked_healthy, H3.
Qed.

#[export] Instance same_tables_preorder : PreOrder same_tables.
Proof.
  split; [done|]. intros w1 w2 w3 (A1 & A2 & A3) (B1 & B2 & B3).
  split; [congruence|]. split; [congruence|auto].
Qed.

Section AllPages.
Context `{!TextOrder, !DayKey}.

Definition task_audits (d : Db) (tenant task : string) : list AuditEvent :=
  ordered audit_key key_lt (of_task tenant task) (db_audits d).

Lemma list_pages_at fuel tenant task rows cursor rest w :
  healthy w -> bound_to w tenant -> audit_ids_unique (w_db w) ->
  at_cursor audit_key (task_audits (w_db w) tenant task) cursor rest -> (length rest < fuel)%nat ->
  exists w', list_pages fuel tenant task rows cursor w = (Ok (rows ++ rest), w') /\ same_tables w w'.
Proof.
  revert rows cursor rest w. induction fuel as [|fuel IH]; [lia|]. intros rows cursor rest w Hh Hb Hu Hat Hf.
  assert (same_tables w (ticked w)) as Hst by by apply same_tables_ticked.
  simpl. unfold bind at 1, list_for_task_since. rewrite select_healthy by done.
  rewrite (keyset_page_at _ _ _ _ _ rest) by (done || by apply audit_keys_unique).
  destruct (last (take AUDIT_PAGE_SIZE rest)) as [e|] eqn:Hl.
  - destruct (Nat.ltb_spec (length (take AUDIT_PAGE_SIZE rest)) AUDIT_PAGE_SIZE) as [Hlt|Hge].
    + exists (ticked w). split; [|done]. unfold ret. rewrite take_ge; [done|].
      rewrite length_take in Hlt. lia.
    + assert (length (take AUDIT_PAGE_SIZE rest) = AUDIT_PAGE_SIZE) as Hlen.
      { pose proof (length_take_le rest AUDIT_PAGE_SIZE) as H'. rewrite length_take in *. lia. }
      destruct (at_cursor_next audit_key (task_audits (w_db w) tenant task) cursor rest AUDIT_PAGE_SIZE)
        as (y & Hy & Hat'); [unfold AUDIT_PAGE_SIZE; lia|done|done|].
      rewrite Hl in Hy. injection Hy as <-.
      destruct (IH (rows ++ take AUDIT_PAGE_SIZE rest) (Some (audit_key e)) (drop AUDIT_PAGE_SIZE rest) (ticked w))
        as (w' & Hr & Hs).
      * by apply ticked_healthy.
      * destruct Hb as (c & Hc & ?). exists c. by rewrite ticked_ctx.
      * by rewrite ticked_db.
      * by rewrite ticked_db.
      * rewrite length_drop. rewrite length_take in Hlen. unfold AUDIT_PAGE_SIZE in *. lia.
      * exists w'. split; [|by etrans]. rewrite Hr, <- app_assoc. by rewrite take_drop.
  - exists (ticked w). split; [|done]. apply last_None in Hl. destruct rest; [|done]. by rewrite app_nil_r.
Qed.
End AllPages.

(** ** The summary *)

Lemma dupdate_fresh {V} (u d : list (string * V)) : NoDup (d ++ u).*1 -> dupdate d u = d ++ u.
Proof.
  revert d. induction u as [|[k v] u IH]; intros d Hn; [by rewrite app_nil_r|].
  rewrite dupdate_cons, dset_absent.
  - rewrite IH; [by rewrite <- app_assoc|]. by rewrite <- app_assoc.
  - rewrite fmap_app in Hn. apply NoDup_app in Hn as (_ & Hd & _).
    apply dget_None_iff. intros Hk. apply (Hd k Hk). left.
Qed.

Lemma sum_over_positive {A} (f : A -> Z) l :
  (forall a, a ∈ l -> 0 <= f a) -> sum_over f (List.filter (fun a => 0 <? f a) l) = sum_over f l.
Proof.
  induction l as [|a l IH]; simpl; intros Hp; [done|].
  assert (0 <= f a) by (apply Hp; left). specialize (IH (fun b Hb => Hp b (list_elem_of_further b a l Hb))).
  destruct (Z.ltb_spec 0 (f a)); simpl; lia.
Qed.

Lemma sum_over_nonneg {A} (f : A -> Z) l : (forall a, a ∈ l -> 0 <= f a) -> 0 <= sum_over f l.
Proof.
  induction l as [|a l IH]; simpl; intros Hp; [done|].
  assert (0 <= f a) by (apply Hp; left). specialize (IH (fun b Hb => Hp b (list_elem_of_further b a l Hb))). lia.
Qed.

Lemma count_if_and_le {A} (p q : A -> bool) l : count_if (fun x => p x && q x) l <= count_if p l.
Proof.
  unfold count_if. apply inj_le. induction l as [|x l IH]; simpl; [lia|].
  destruct (p x), (q x); simpl; lia.
Qed.

Section Summary.
Context `{!TextOrder, !DayKey}.

Definition costs_known_nonneg (d : Db) : Prop :=
  forall r c, r ∈ db_usage d -> ur_cost_usd_micros r = Some c -> 0 <= c.

Lemma cost_split g rows :
  (forall r c, r ∈ rows -> ur_cost_usd_micros r = Some c -> 0 <= c) ->
  sum_over snd (cost_by_step_kind (aggregate g rows)) = sum_of ur_cost_usd_micros rows.
Proof.
  intros Hp. unfold cost_by_step_kind. rewrite dupdate_fresh.
  - simpl. rewrite sum_over_map. simpl. rewrite sum_over_positive.
    + by apply aggregate_sum.
    + intros b Hb. apply aggregate_bucket in Hb as (r & Hr & ->). simpl. apply sum_over_nonneg.
      intros x Hx. rewrite list_elem_of_In in Hx. apply filter_In in Hx as [Hx _].
      destruct (ur_cost_usd_micros x) as [c|] eqn:E; simpl; [|done].
      eapply Hp; [|exact E]. by rewrite list_elem_of_In.
  - simpl. rewrite <- list_fmap_compose. apply (filter_map_NoDup ub_key); [done|apply aggregate_keys].
Qed.

Lemma get_result_healthy tenant task w :
  healthy w -> bound_to w tenant ->
  get_result tenant task w = (Ok (select_task (w_db w) tenant task ≫= row_result), ticked w).
Proof.
  intros Hh Hb. unfold get_result, bind. rewrite check_tenant_bound by done. rewrite db_call_healthy by done.
  simpl. by rewrite ticked_db.
Qed.

Lemma get_task_healthy tenant task w :
  healthy w -> bound_to w tenant ->
  get_task tenant task w = (Ok (row_task <$> select_task (w_db w) tenant task), ticked w).
Proof.
  intros Hh Hb. unfold get_task, bind. rewrite check_tenant_bound by done. rewrite db_call_healthy by done.
  simpl. by rewrite ticked_db.
Qed.

Lemma bound_to_same w w' tenant : same_tables w w' -> bound_to w tenant -> bound_to w' tenant.
Proof. intros (_ & E & _) (c & Hc & Ht). exists c. by rewrite E. Qed.

Lemma scan_chain_ok tenant events w :
  healthy w -> bound_to w tenant ->
  exists s w', scan_chain_events tenant events w = (Ok s, w') /\ same_tables w w'.
Proof.
  intros Hh Hb. assert (same_tables w (ticked w)) as Hs by by apply same_tables_ticked.
  induction events as [|e rest IH]; simpl; [by eexists _, w|].
  destruct (_ && _); [by eexists _, w|]. destruct (_ && _); [by eexists _, w|].
  destruct (_ || _); [exact IH|]. destruct (as_nonempty_str _) as [child|]; [|by eexists _, w].
  unfold bind. rewrite get_task_healthy by done.
  destruct (row_task <$> _) as [t|]; [|by eexists _, (ticked w)].
  rewrite get_result_healthy by (try (by apply ticked_healthy); by apply (bound_to_same w)).
  eexists _, _. split; [done|]. by apply same_tables_ticked.
Qed.

(** The observability summary of a task is drawn from all of its telemetry:
    it counts every usage row and every audit event of the task, however many
    pages the audit stream has, and its costs by step kind add up to its total
    cost.  Loading it changes no table. *)
Theorem observability_complete fuel task w :
  let tenant := t_tenant_id task in let d := w_db w in
  healthy w -> bound_to w tenant -> audit_ids_unique d -> costs_known_nonneg d ->
  (length (task_audits d tenant (t_task_id task)) < fuel)%nat ->
  exists s w', build_task_observability fuel tenant task w = (Ok s, w') /\ same_tables w w' /\
    let rows := List.filter (usage_of_task tenant (t_task_id task)) (db_usage d) in
    let audits := List.filter (of_task tenant (t_task_id task)) (db_audits d) in
    ts_llm_calls s = Z.of_nat (length rows) /\
    ts_total_tokens s = sum_of ur_total_tokens rows /\
    ts_total_cost_usd_micros s = sum_of ur_cost_usd_micros rows /\
    sum_over snd (ts_cost_by_step_kind s) = ts_total_cost_usd_micros s /\
    ts_tool_events s = count_if tool_event audits /\
    ts_human_interventions s = count_if human_intervention audits /\
    ts_tool_failures s <= ts_tool_events s.
Proof.
  intros tenant d Hh Hb Hu Hc Hf. unfold build_task_observability.
  assert (same_tables w (ticked w)) as S1 by by apply same_tables_ticked.
  assert (same_tables w (ticked (ticked w))) as S2 by by apply same_tables_ticked.
  assert (same_tables w (ticked (ticked (ticked w)))) as S3 by by apply same_tables_ticked.
  assert (forall w', same_tables w w' -> healthy w' /\ bound_to w' tenant) as HS.
  { intros w' S. split; [by apply S|by apply (bound_to_same w)]. }
  unfold bind at 1. rewrite get_result_healthy by done. cbv iota beta.
  unfold bind at 1, usage_list_for_task. rewrite select_healthy by by apply HS. cbv iota beta.
  unfold bind at 1, aggregate_for_task. rewrite select_healthy by by apply HS. cbv iota beta.
  destruct (list_pages_at fuel tenant (t_task_id task) [] None (task_audits d tenant (t_task_id task))
    (ticked (ticked (ticked w)))) as (w4 & Hp & S4); [by apply HS..| | | |].
  { by rewrite !ticked_db. } { simpl. by rewrite !ticked_db. } { done. }
  unfold bind at 1, list_all_task_audits. rewrite Hp. cbv iota beta.
  assert (same_tables w w4) as S4' by by etrans.
  assert (exists o w5, auto_pr_child_status task (task_audits d tenant (t_task_id task)) w4 = (Ok o, w5) /\
    same_tables w4 w5) as (o & w5 & Ho & S5).
  { unfold auto_pr_child_status. destruct (negb _); [by eexists _, w4|].
    destruct (scan_chain_ok tenant (task_audits d tenant (t_task_id task)) w4) as (s & w5 & Hs & S5); [by apply HS..|].
    fold tenant. unfold bind. rewrite Hs. by eexists _, w5. }
  unfold bind at 1. simpl app. rewrite Ho. cbv iota beta. unfold ret.
  eexists _, w5. split; [done|]. split; [by etrans|]. cbv zeta.
  rewrite !ticked_db. fold d. cbn [ts_llm_calls ts_total_tokens ts_total_cost_usd_micros
    ts_cost_by_step_kind ts_tool_events ts_tool_failures ts_human_interventions build_task_observability_summary].
  set (rows := List.filter (usage_of_task tenant (t_task_id task)) (db_usage d)).
  pose proof (sort_by_perm ur_created_at rows) as HP.
  pose proof (ordered_perm audit_key key_lt (of_task tenant (t_task_id task)) (db_audits d)) as HA.
  assert (forall p, count_if p (task_audits d tenant (t_task_id task)) =
            count_if p (List.filter (of_task tenant (t_task_id task)) (db_audits d))) as Hcount.
  { intros p. unfold count_if. f_equal. by apply Permutation_length, filter_perm. }
  split; [by rewrite HP|]. split; [by apply sum_over_perm|]. split; [by apply sum_over_perm|].
  split; [|split; [apply Hcount|split; [apply Hcount|apply count_if_and_le]]].
  unfold sum_of. rewrite (sum_over_perm _ _ _ HP). apply cost_split.
  intros r c Hr Hrc. eapply Hc; [|exact Hrc]. rewrite list_elem_of_In in *. by apply filter_In in Hr as [Hr _].
Qed.
End Summary.
