(* ===== verification/QueryApi.v ===== *)
(** * QueryApi: the audit and usage listings over HTTP

    [api/routers/queries.py] with its cursors ([Cursor]) on the listings of
    [Reporting].  The central result is about a client: following [next_cursor]
    from the first page collects every row of the window exactly once, in order.

    A request that FastAPI refuses before the handler runs is an
    [HTTPException] with status 422.  [datetime.now] is the clock of the world. *)

From S2P Require Import Prelude PyText Utf8 Domain Cursor Keyset GraphRuntime Gates Results Persistence PersistenceFacts Approval LlmClients Reporting Observability.
Import Utf8.

(** ** Parameters of a query *)

Definition QUERY_MAX_LIMIT : Z := 500.
Definition DEFAULT_WINDOW : Z := day_micros.
Definition AGGREGATE_DEFAULT_WINDOW : Z := 7 * day_micros.

Definition unprocessable : exn := HTTPException 422 "request validation failed".

(** [Query(min_length=1)] on the optional texts, [ge=1, le=_MAX_LIMIT] on the
    limit. *)
Definition check_query (texts : list (option string)) (limit : Z) : res unit :=
  if forallb (fun o => match o with Some s => nonempty s | None => true end) texts &&
     (1 <=? limit) && (limit <=? QUERY_MAX_LIMIT)
  then Ok tt else Err unprocessable.

(** [a >= b] on datetimes: naive and aware values do not compare. *)
Definition dt_ge (a b : DateTime) : res bool :=
  if Bool.eqb (dt_aware a) (dt_aware b) then Ok (dt_instant b <=? dt_instant a)
  else Err (TypeError "can't compare offset-naive and offset-aware datetimes").

Definition resolve_window (since until : option DateTime) (default_window : Z)
    : M World (DateTime * DateTime) :=
  now <- clock ;;
  let resolved_until := default (utc now) until in
  let resolved_since :=
    match since with
    | Some s => s
    | None => mkDateTime (dt_aware resolved_until) (dt_instant resolved_until - default_window)
    end in
  empty <- lift (dt_ge resolved_since resolved_until) ;;
  if empty then raise (HTTPException 400 "'since' must be strictly before 'until'")
  else ret (resolved_since, resolved_until).

Section Handlers.
Context `{!TextOrder, !LocalZone, !DayKey, !IsoFormat}.

Definition decode_before (cursor : option string) : res (option (DateTime * string)) :=
  match cursor with
  | None => Ok None
  | Some c =>
      match decode_cursor c with
      | Ok k => Ok (Some k)
      | Err (CursorError msg) => Err (HTTPException 400 ("invalid cursor: " +:+ msg))
      | Err e => Err e
      end
  end.

(** [if len(rows) == limit: encode_cursor(last.time, last.id)]. *)
Definition next_cursor {A} (key : A -> Z * string) (rows : list A) (limit : Z) : res (option string) :=
  if Z.of_nat (length rows) =? limit then
    match last rows with
    | Some x => let? c := encode_cursor (utc (key x).1) (key x).2 in Ok (Some c)
    | None => Err (ExternalError "IndexError")
    end
  else Ok None.

(** ** [GET /v1/audits] *)

(** The response carries the nine columns of the row. *)
Record AuditListResponse : Type := mkAuditListResponse {
  al_items : list AuditEvent; al_next_cursor : option string
}.

Definition list_audits (ctx : RequestContext) (since until : option DateTime)
    (action task_id cursor : option string) (limit : Z) : M World AuditListResponse :=
  lift (check_query [action; task_id] limit) ;;;
  window <- resolve_window since until DEFAULT_WINDOW ;;
  before <- lift (decode_before cursor) ;;
  let filt := mkAuditFilter window.1 window.2 action task_id before limit in
  events <- bind_context ctx (audit_list_filtered (ctx_tenant_id ctx) filt) ;;
  next <- lift (next_cursor audit_key events limit) ;;
  ret (mkAuditListResponse events next).

(** ** [GET /v1/usages] *)

(** The columns the response shows; prompt id, version and step kind are not
    among them. *)
Record LLMUsageResponse : Type := mkUsageResponse {
  us_record_id : string; us_tenant_id : string; us_trace_id : string; us_request_id : option string;
  us_principal_id : option string; us_session_id : option string; us_task_id : option string;
  us_provider : string; us_model : option string; us_requested_model : option string;
  us_prompt_tokens : option Z; us_completion_tokens : option Z; us_total_tokens : option Z;
  us_finish_reason : option string; us_provider_response_id : option string;
  us_cost_usd_micros : option Z; us_latency_ms : Z; us_status : LLMUsageStatus;
  us_error_category : option ErrorCategory; us_error_message : option string;
  us_prompt_excerpt : option string; us_created_at : Z
}.

Definition to_usage_response (r : LLMUsageRecord) : LLMUsageResponse :=
  mkUsageResponse (ur_record_id r) (ur_tenant_id r) (ur_trace_id r) (ur_request_id r)
    (ur_principal_id r) (ur_session_id r) (ur_task_id r) (ur_provider r) (ur_model r)
    (ur_requested_model r) (ur_prompt_tokens r) (ur_completion_tokens r) (ur_total_tokens r)
    (ur_finish_reason r) (ur_provider_response_id r) (ur_cost_usd_micros r) (ur_latency_ms r)
    (ur_status r) (ur_error_category r) (ur_error_message r) (ur_prompt_excerpt r) (ur_created_at r).

Record LLMUsageListResponse : Type := mkUsageListResponse {
  ul_items : list LLMUsageResponse; ul_next_cursor : option string
}.

Definition list_usages (ctx : RequestContext) (since until : option DateTime)
    (model task_id : option string) (status : option LLMUsageStatus) (cursor : option string) (limit : Z)
    : M World LLMUsageListResponse :=
  lift (check_query [model; task_id] limit) ;;;
  window <- resolve_window since until DEFAULT_WINDOW ;;
  before <- lift (decode_before cursor) ;;
  let filt := mkUsageFilter window.1 window.2 model task_id status before limit in
  records <- bind_context ctx (usage_list_filtered (ctx_tenant_id ctx) filt) ;;
  next <- lift (next_cursor usage_key records limit) ;;
  ret (mkUsageListResponse (map to_usage_response records) next).

(** ** [GET /v1/usages/aggregate] *)

Record UsageAggregateListResponse : Type := mkAggregateResponse {
  ar_items : list UsageAggregate; ar_group_by : UsageGroupBy; ar_since : DateTime; ar_until : DateTime
}.

(** [UsageAggregateResponse] requires non-negative numbers. *)
Definition check_bucket (b : UsageAggregate) : res UsageAggregate :=
  if (0 <=? ub_tokens b) && (0 <=? ub_cost_usd_micros b) && (0 <=? ub_calls b) then Ok b
  else Err (ValidationError "UsageAggregateResponse").

Definition aggregate_usages (ctx : RequestContext) (group_by : UsageGroupBy) (since until : option DateTime)
    : M World UsageAggregateListResponse :=
  window <- resolve_window since until AGGREGATE_DEFAULT_WINDOW ;;
  buckets <- bind_context ctx (aggregate_grouped (ctx_tenant_id ctx) window.1 window.2 group_by) ;;
  items <- lift (mapM_res check_bucket buckets) ;;
  ret (mkAggregateResponse items group_by window.1 window.2).

(** ** A client that follows the cursors *)

Fixpoint follow_audits (fuel : nat) (ctx : RequestContext) (since until : option DateTime)
    (action task_id cursor : option string) (limit : Z) : M World (list AuditEvent) :=
  match fuel with
  | O => raise OutOfFuel
  | S fuel' =>
      page <- list_audits ctx since until action task_id cursor limit ;;
      match al_next_cursor page with
      | None => ret (al_items page)
      | Some c =>
          rest <- follow_audits fuel' ctx since until action task_id (Some c) limit ;;
          ret (al_items page ++ rest)
      end
  end.
End Handlers.

(** ** Pages add up *)

Lemma resolve_explicit s u d w :
  dt_aware s = true -> dt_aware u = true -> dt_instant s < dt_instant u ->
  exists w', resolve_window (Some s) (Some u) d w = (Ok (s, u), w') /\ same_tables w w'.
Proof.
  intros Hs Hu Hlt. unfold resolve_window, bind, clock, lift, dt_ge. cbn. rewrite Hs, Hu. cbn.
  apply Z.leb_gt in Hlt. rewrite Hlt. eexists. split; [done|]. by split.
Qed.

Lemma bind_context_select {A} ctx (f : Db -> A) w :
  healthy w ->
  exists w', bind_context ctx (select (ctx_tenant_id ctx) f) w = (Ok (f (w_db w)), w') /\ same_tables w w'.
Proof.
  intros Hh. set (w1 := set_ctx (Some ctx) w).
  assert (healthy w1) as Hh1 by exact Hh.
  assert (bound_to w1 (ctx_tenant_id ctx)) as Hb by by exists ctx.
  pose proof (select_healthy _ f w1 Hh1 Hb) as Hsel. change (w_db w1) with (w_db w) in Hsel.
  eexists. split; [exact (bind_context_eq _ _ _ _ _ Hsel)|].
  split; [simpl; by rewrite ticked_db|]. split; [done|]. intros _ n. exact (ticked_healthy w1 Hh1 n).
Qed.

(** A cursor text that stands for a row key. *)
Definition cursor_stands `{!IsoFormat} (c : option string) (k : option (Z * string)) : Prop :=
  decode_before c = Ok ((fun '(t, i) => (utc t, i)) <$> k).

Section Paging.
Context `{!TextOrder, !LocalZone, !DayKey, !IsoFormat, !IsoFormatLaws}.

Lemma bound_cursor_utc (k : option (Z * string)) : bound_cursor ((fun '(t, i) => (utc t, i)) <$> k) = k.
Proof. by destruct k as [[t i]|]. Qed.

(** An id the cursor format can carry: the ids the code generates are UUIDs. *)
Definition cursor_id (i : string) : Prop := nonempty i = true /\ str_contains "|" i = false /\ valid i = true.

Lemma next_cursor_full {A} (key : A -> Z * string) rows limit x :
  last rows = Some x -> cursor_id (key x).2 -> Z.of_nat (length rows) = limit ->
  exists c, next_cursor key rows limit = Ok (Some c) /\ cursor_stands (Some c) (Some (key x)).
Proof.
  intros Hl (Hi1 & Hi2 & Hi3) Hlen. unfold next_cursor. rewrite Hlen, Z.eqb_refl, Hl.
  destruct (cursor_roundtrip (utc (key x).1) (key x).2) as (c & He & Hd); [done..|].
  rewrite He. exists c. split; [done|]. unfold cursor_stands, decode_before. rewrite Hd. by destruct (key x).
Qed.

Definition audit_window (ctx : RequestContext) (s u : DateTime) (action task_id : option string) (d : Db)
    : list AuditEvent :=
  ordered audit_key key_gt
    (audit_matches (ctx_tenant_id ctx) (mkAuditFilter s u action task_id None QUERY_MAX_LIMIT)) (db_audits d).

Lemma list_audits_at ctx s u action task_id c k rest limit w :
  healthy w -> audit_ids_unique (w_db w) -> (forall e, e ∈ db_audits (w_db w) -> cursor_id (ae_event_id e)) ->
  dt_aware s = true -> dt_aware u = true -> dt_instant s < dt_instant u ->
  check_query [action; task_id] limit = Ok tt -> cursor_stands c k ->
  at_cursor audit_key (audit_window ctx s u action task_id (w_db w)) k rest ->
  exists page w', list_audits ctx (Some s) (Some u) action task_id c limit w = (Ok page, w') /\
    same_tables w w' /\ al_items page = take (Z.to_nat limit) rest /\
    match al_next_cursor page with
    | None => (length rest < Z.to_nat limit)%nat
    | Some c' => (0 < Z.to_nat limit <= length rest)%nat /\ exists k', cursor_stands (Some c') (Some k') /\
        at_cursor audit_key (audit_window ctx s u action task_id (w_db w)) (Some k') (drop (Z.to_nat limit) rest)
    end.
Proof.
  intros Hh Hu Hids Hs Hu' Hlt Hq Hc Hat. unfold list_audits, bind, lift. rewrite Hq.
  destruct (resolve_explicit s u DEFAULT_WINDOW w Hs Hu' Hlt) as (w1 & -> & S1). rewrite Hc.
  assert (0 < limit) as Hpos.
  { unfold check_query in Hq. destruct (forallb _ _); [|done]. simpl in Hq.
    destruct (Z.leb_spec 1 limit); [lia|done]. }
  unfold audit_list_filtered. cbn [af_before af_limit fst snd].
  destruct (bind_context_select ctx (fun d => keyset_page audit_key key_gt
      (audit_matches (ctx_tenant_id ctx) (mkAuditFilter s u action task_id ((fun '(t, i) => (utc t, i)) <$> k) limit))
      (bound_cursor ((fun '(t, i) => (utc t, i)) <$> k)) (Z.to_nat limit) (db_audits d)) w1) as (w2 & -> & S2);
    [by apply S1|].
  assert (same_tables w w2) as S by by etrans. destruct S1 as (-> & _). rewrite bound_cursor_utc.
  change (audit_matches (ctx_tenant_id ctx) (mkAuditFilter s u action task_id ((fun '(t, i) => (utc t, i)) <$> k) limit))
    with (audit_matches (ctx_tenant_id ctx) (mkAuditFilter s u action task_id None QUERY_MAX_LIMIT)).
  rewrite (keyset_page_at _ _ _ _ _ rest) by (done || by apply audit_keys_unique).
  destruct (decide (length rest < Z.to_nat limit)%nat) as [Hshort|Hfull].
  - unfold next_cursor. assert (Z.of_nat (length (take (Z.to_nat limit) rest)) =? limit = false) as ->.
    { rewrite length_take. apply Z.eqb_neq. lia. }
    eexists _, w2. split; [done|]. done.
  - destruct (at_cursor_next audit_key _ k rest (Z.to_nat limit) ltac:(lia) Hat) as (y & Hy & Hat').
    { rewrite length_take. lia. }
    assert (y ∈ db_audits (w_db w)) as Hin.
    { assert (y ∈ audit_window ctx s u action task_id (w_db w)) as Hin.
      { destruct Hat' as (before & x & E & Hk). rewrite E.
        pose proof (list_elem_of_In (take (Z.to_nat limit) rest) y) as Hel.
        assert (y ∈ rest) as Hyr.
        { rewrite <- (take_drop (Z.to_nat limit) rest). apply elem_of_app. left.
          apply last_Some in Hy as [l' ->]. apply elem_of_app. right. left. }
        rewrite <- E. destruct k as [k|]; simpl in Hat; [|by subst].
        destruct Hat as (b & z & -> & _). apply elem_of_app. right. by right. }
      unfold audit_window in Hin. rewrite ordered_perm, list_elem_of_In in Hin.
      apply filter_In in Hin as [Hin _]. by apply list_elem_of_In. }
    destruct (next_cursor_full audit_key (take (Z.to_nat limit) rest) limit y Hy (Hids y Hin)) as (c' & -> & Hc').
    { rewrite length_take. lia. }
    eexists _, w2. split; [done|]. split; [done|]. split; [done|]. cbn. split; [lia|].
    by exists (audit_key y).
Qed.

(** C34: following [next_cursor] from the first page of [GET /v1/audits] returns
    every audit event of the caller's tenant that matches the filters and lies in
    the window, each exactly once and newest first, whatever page size in 1..500
    the client asks for; the walk ends after at most one page more than there are
    rows. *)
Theorem audits_paged ctx s u action task_id limit fuel w :
  healthy w -> audit_ids_unique (w_db w) -> (forall e, e ∈ db_audits (w_db w) -> cursor_id (ae_event_id e)) ->
  dt_aware s = true -> dt_aware u = true -> dt_instant s < dt_instant u ->
  check_query [action; task_id] limit = Ok tt ->
  (length (audit_window ctx s u action task_id (w_db w)) < fuel)%nat ->
  exists rows w', follow_audits fuel ctx (Some s) (Some u) action task_id None limit w = (Ok rows, w') /\
    same_tables w w' /\ increasing audit_key key_gt rows /\ NoDup (map ae_event_id rows) /\
    (forall e, e ∈ rows <-> e ∈ db_audits (w_db w) /\ ae_tenant_id e = ctx_tenant_id ctx /\
       dt_instant s <= ae_occurred_at e < dt_instant u /\
       match action with Some a => ae_action e = a | None => True end /\
       match task_id with Some t => ae_task_id e = Some t | None => True end).
Proof.
  intros Hh Hu Hids Hs Hu' Hlt Hq Hf. set (all := audit_window ctx s u action task_id (w_db w)).
  assert (forall fuel c k rest w1, same_tables w w1 -> cursor_stands c k -> at_cursor audit_key all k rest ->
    (length rest < fuel)%nat ->
    exists w', follow_audits fuel ctx (Some s) (Some u) action task_id c limit w1 = (Ok rest, w') /\ same_tables w w')
    as Hloop.
  { clear Hf fuel. induction fuel as [|fuel IH]; intros c k rest w1 S1 Hc Hat Hf; [lia|].
    destruct S1 as (Ed & Ec & Eh). assert (same_tables w w1) as S1 by done. simpl. unfold bind at 1.
    destruct (list_audits_at ctx s u action task_id c k rest limit w1) as (page & w2 & -> & S2 & Hi & Hn);
      [by apply Eh|by rewrite Ed|by rewrite Ed|done..|by rewrite Ed|].
    rewrite Ed in Hn. destruct (al_next_cursor page) as [c'|].
    - destruct Hn as (Hlen & k' & Hc' & Hat'). unfold bind.
      destruct (IH (Some c') (Some k') (drop (Z.to_nat limit) rest) w2) as (w3 & -> & S3);
        [by etrans|done|done|rewrite length_drop; lia|].
      exists w3. split; [|done]. unfold ret. by rewrite Hi, take_drop.
    - exists w2. unfold ret. rewrite Hi, take_ge by lia. split; [done|by etrans]. }
  destruct (Hloop fuel None None all w) as (w' & Hr & S); [done..|].
  assert (increasing audit_key key_gt all) as Hinc.
  { apply ordered_increasing; [apply _|]. by apply audit_keys_unique. }
  exists all, w'. split; [done|]. split; [done|]. split; [done|]. split.
  - unfold all, audit_window. rewrite ordered_perm. apply (filter_map_NoDup ae_event_id); [done|exact Hu].
  - intros e. unfold all, audit_window. rewrite ordered_perm, list_elem_of_In, filter_In, <- list_elem_of_In.
    unfold audit_matches, in_window, timestamptz. cbn. rewrite Hs, Hu'.
    rewrite !andb_true_iff, String.eqb_eq, Z.leb_le, Z.ltb_lt. unfold opt_eq.
    destruct action, task_id; rewrite ?bool_decide_eq_true; naive_solver.
Qed.
End Paging.
