(* ===== verification/Api.v ===== *)
(** * Api: submitting, deciding and reading tasks over HTTP

    [api/schemas.py] (the request bodies), [api/services/task_submission.py],
    [api/mappers/tasks.py] and the routers [task_commands.py], [task_queries.py]
    and [sessions.py], on the repositories of [Persistence] and [Reporting], the
    gateway of [Approval] and the summary of [Observability].

    Request bodies are JSON objects.  What pydantic accepts as an [int] is the
    parameter [int_of]; every refusal is status 422. *)

From S2P Require Import Prelude PyText Utf8 Domain Keyset GraphRuntime Gates Results Persistence PersistenceFacts Approval ShellAgentFacts BugFix LlmClients Reporting Observability QueryApi.
Import Utf8.

(** ** Field readers *)

Class PydanticInt := { int_of : json -> option Z }.

Definition TaskType_of_value (s : string) : option TaskType :=
  List.find (fun t => String.eqb (TaskType_value t) s)
    [BUG_FIX; CODE_REVIEW; AUTO_PR; SYSTEM_ECHO; SYSTEM_GIT_INSPECT; SYSTEM_SHELL_AGENT].
Definition PermissionMode_of_value (s : string) : option PermissionMode :=
  List.find (fun m => String.eqb (PermissionMode_value m) s) [AUTO; APPROVE_BEFORE_PUSH; APPROVE_EACH_TOOL; PLAN].
Definition BudgetPolicy_of_value (s : string) : option BudgetPolicy :=
  List.find (fun p => String.eqb (BudgetPolicy_value p) s) [BP_NONE; GATE_ON_THRESHOLD; ABORT_ON_THRESHOLD].

(** [extra="forbid"]. *)
Definition only_keys (allowed : list string) (d : dict) : res unit :=
  if forallb (fun kv => existsb (String.eqb kv.1) allowed) d then Ok tt else Err unprocessable.

(** [str = Field(..., min_length=1)]. *)
Definition str_field (d : dict) (k : string) : res string :=
  match dget d k ≫= as_nonempty_str with Some s => Ok s | None => Err unprocessable end.

(** [str | None = Field(default=None, min_length=1)]. *)
Definition body_opt_str (d : dict) (k : string) : res (option string) :=
  match dget d k with
  | None | Some JNull => Ok None
  | Some v => match as_nonempty_str v with Some s => Ok (Some s) | None => Err unprocessable end
  end.

Definition enum_field {A} (of_value : string -> option A) (d : dict) (k : string) (dflt : option A) : res A :=
  match dget d k with
  | None => match dflt with Some a => Ok a | None => Err unprocessable end
  | Some v => match as_str v ≫= of_value with Some a => Ok a | None => Err unprocessable end
  end.

(** [int | None = Field(default=None, ge=lo)]. *)
Definition body_opt_int `{!PydanticInt} (lo : Z) (d : dict) (k : string) : res (option Z) :=
  match dget d k with
  | None | Some JNull => Ok None
  | Some v => match int_of v with
              | Some n => if lo <=? n then Ok (Some n) else Err unprocessable
              | None => Err unprocessable
              end
  end.

(** ** [BugFixInputPayload] *)

Record BugFixInputPayload : Type := mkBugFixPayload {
  bp_issue_description : string; bp_repo_url : string; bp_base_ref : option string;
  bp_target_files : list string; bp_verify_suite : string; bp_model : option string;
  bp_max_steps : option Z
}.

Definition VERIFY_SUITES : list string :=
  ["python_test"; "python_lint"; "typescript_typecheck"; "typescript_test"].

Section Schemas.
Context `{!PydanticInt}.

Definition bug_fix_validate (d : dict) : res BugFixInputPayload :=
  let? _ := only_keys ["issue_description"; "repo_url"; "base_ref"; "target_files"; "verify_suite";
                       "model"; "max_steps"] d in
  let? issue := str_field d "issue_description" in
  let? repo := str_field d "repo_url" in
  let? base := body_opt_str d "base_ref" in
  let? files := match dget d "target_files" with
                | Some (JList ((_ :: _) as l)) =>
                    mapM_res (fun v => match as_str v with Some s => Ok s | None => Err unprocessable end) l
                | _ => Err unprocessable
                end in
  let? suite := enum_field (fun s => List.find (String.eqb s) VERIFY_SUITES) d "verify_suite" (Some "python_test") in
  let? model := body_opt_str d "model" in
  let? steps := body_opt_int 1 d "max_steps" in
  if forallb (fun p => nonempty (py_strip p)) files
  then Ok (mkBugFixPayload issue repo base files suite model steps) else Err unprocessable.

(** [model_dump(mode="json", exclude_none=True)]. *)
Definition bug_fix_dump (p : BugFixInputPayload) : dict :=
  let opt {A} (k : string) (f : A -> json) (o : option A) : dict :=
    match o with Some a => [(k, f a)] | None => [] end in
  [("issue_description", JStr (bp_issue_description p)); ("repo_url", JStr (bp_repo_url p))] ++
  opt "base_ref" JStr (bp_base_ref p) ++
  [("target_files", JList (map JStr (bp_target_files p))); ("verify_suite", JStr (bp_verify_suite p))] ++
  opt "model" JStr (bp_model p) ++ opt "max_steps" JInt (bp_max_steps p).

(** ** [SubmitTaskRequest] *)

Record SubmitTaskRequest : Type := mkSubmit {
  sr_task_type : TaskType; sr_input_payload : dict; sr_graph_id : option string;
  sr_idempotency_key : option string; sr_session_id : option string;
  sr_permission_mode : PermissionMode; sr_budget_policy : BudgetPolicy;
  sr_budget_threshold_micros : option Z
}.

Definition SCHEMA_BUG_FIX_GRAPH_ID : string := "builtin.bug_fix".

(** [_validate_bug_fix_payload] replaces the payload by its typed dump. *)
Definition validate_bug_fix_payload (r : SubmitTaskRequest) : res SubmitTaskRequest :=
  match sr_task_type r with
  | BUG_FIX =>
      let? p := bug_fix_validate (sr_input_payload r) in
      if match sr_graph_id r with Some g => String.eqb g SCHEMA_BUG_FIX_GRAPH_ID | None => true end
      then Ok (mkSubmit BUG_FIX (bug_fix_dump p) (sr_graph_id r) (sr_idempotency_key r)
                 (sr_session_id r) (sr_permission_mode r) (sr_budget_policy r)
                 (sr_budget_threshold_micros r))
      else Err unprocessable
  | _ => Ok r
  end.

Definition validate_permission_and_budget_policy (r : SubmitTaskRequest) : res SubmitTaskRequest :=
  match sr_permission_mode r with
  | AUTO | APPROVE_BEFORE_PUSH =>
      match sr_budget_policy r, sr_budget_threshold_micros r with
      | BP_NONE, Some _ => Err unprocessable
      | BP_NONE, None => Ok r
      | _, None => Err unprocessable
      | _, Some _ => Ok r
      end
  | _ => Err unprocessable
  end.

Definition submit_validate (body : dict) : res SubmitTaskRequest :=
  let? _ := only_keys ["task_type"; "input_payload"; "graph_id"; "idempotency_key"; "session_id";
                       "permission_mode"; "budget_policy"; "budget_threshold_micros"] body in
  let? ty := enum_field TaskType_of_value body "task_type" None in
  let? payload := match dget body "input_payload" with
                  | None => Ok []
                  | Some (JDict d) => Ok d
                  | Some _ => Err unprocessable
                  end in
  let? graph := body_opt_str body "graph_id" in
  let? idem := body_opt_str body "idempotency_key" in
  let? session := body_opt_str body "session_id" in
  let? mode := enum_field PermissionMode_of_value body "permission_mode" (Some AUTO) in
  let? policy := enum_field BudgetPolicy_of_value body "budget_policy" (Some BP_NONE) in
  let? threshold := body_opt_int 0 body "budget_threshold_micros" in
  let? r := validate_bug_fix_payload (mkSubmit ty payload graph idem session mode policy threshold) in
  validate_permission_and_budget_policy r.
End Schemas.

(** ** [submit_task_transaction] *)

Definition all_nonempty (l : list string) (cls : string) : res unit :=
  if forallb nonempty l then Ok tt else Err (ValidationError cls).

Definition session_row (body : SubmitTaskRequest) (ctx : RequestContext) (now : Z) : option Session :=
  (fun sid => mkSession sid (ctx_tenant_id ctx) (ctx_principal_id ctx) now now false) <$> sr_session_id body.

Definition submitted_task (body : SubmitTaskRequest) (ctx : RequestContext) (task_id : string) (now : Z) : Task :=
  mkTask task_id (ctx_tenant_id ctx) (sr_session_id body) (ctx_principal_id ctx) (ctx_trace_id ctx)
    (sr_idempotency_key body) (sr_task_type body) (sr_graph_id body) PENDING (sr_permission_mode body)
    (sr_budget_policy body) (sr_budget_threshold_micros body) (sr_input_payload body) now now.

Definition submitted_event (body : SubmitTaskRequest) (ctx : RequestContext) (topic task_id event_id : string)
    (now : Z) : OutboxEvent :=
  mkOutboxEvent event_id (ctx_tenant_id ctx) (ctx_trace_id ctx) "task" task_id topic
    (sr_input_payload body) (default task_id (sr_idempotency_key body)) OB_PENDING 0 now None.

Definition write_submission (session : option Session) (task : Task) (event : OutboxEvent) : M World unit :=
  match session with Some s => session_upsert_in_conn s | None => ret tt end ;;;
  upsert_in_conn task ;;;
  enqueue_in_conn event.

Definition submit_task_transaction (body : SubmitTaskRequest) (ctx : RequestContext) (topic : string)
    : M World Task :=
  task_id <- id_factory ;;
  now <- clock ;;
  let task := submitted_task body ctx task_id now in
  lift (all_nonempty [task_id; ctx_tenant_id ctx; ctx_principal_id ctx; ctx_trace_id ctx] "Task") ;;;
  event_id <- id_factory ;;
  let event := submitted_event body ctx topic task_id event_id now in
  lift (all_nonempty [event_id; topic] "OutboxEvent") ;;;
  bind_context ctx (transaction (write_submission (session_row body ctx now) task event)) ;;;
  ret task.

(** ** Responses *)

Record TaskResponse : Type := mkTaskResponse {
  tk_task_id : string; tk_tenant_id : string; tk_state : TaskState; tk_task_type : TaskType;
  tk_trace_id : string; tk_session_id : option string; tk_permission_mode : PermissionMode;
  tk_budget_policy : BudgetPolicy; tk_budget_threshold_micros : option Z;
  tk_created_at : Z; tk_updated_at : Z
}.

Definition to_task_response (t : Task) : TaskResponse :=
  mkTaskResponse (t_task_id t) (t_tenant_id t) (t_state t) (t_task_type t) (t_trace_id t)
    (t_session_id t) (t_permission_mode t) (t_budget_policy t) (t_budget_threshold_micros t)
    (t_created_at t) (t_updated_at t).

Record TaskResultResponse : Type := mkTaskResultResponse {
  rp_task_id : string; rp_status : TaskResultStatus; rp_graph_id : string; rp_output : option dict;
  rp_error : option TaskError; rp_node_sequence : Z; rp_started_at : Z; rp_finished_at : Z
}.

Definition to_task_result_response (r : TaskResult) : TaskResultResponse :=
  mkTaskResultResponse (tr_task_id r) (tr_status r) (tr_graph_id r) (tr_output r) (tr_error r)
    (tr_node_sequence r) (tr_started_at r) (tr_finished_at r).

(** ** Command handlers *)

Definition submit_task `{!PydanticInt} (body : dict) (ctx : RequestContext) (topic : string)
    : M World TaskResponse :=
  req <- lift (submit_validate body) ;;
  task <- submit_task_transaction req ctx topic ;;
  ret (to_task_response task).

(** [str | None = Field(default=None, max_length=n)] and nothing else. *)
Definition text_body (k : string) (n : Z) (body : dict) : res (option string) :=
  let? _ := only_keys [k] body in
  match dget body k with
  | None | Some JNull => Ok None
  | Some (JStr s) => if Z.of_nat (length (code_points s)) <=? n then Ok (Some s) else Err unprocessable
  | Some _ => Err unprocessable
  end.

Definition conflict (e : exn) : option (M World Task) :=
  match e with
  | TaskNotAwaitingApprovalError => Some (raise (HTTPException 409 "task is not awaiting approval"))
  | _ => None
  end.

Definition approve_task (topic task_id : string) (body : dict) (ctx : RequestContext) : M World TaskResponse :=
  feedback <- lift (text_body "feedback" 10000 body) ;;
  task <- bind_context ctx (try_except (approve topic (ctx_tenant_id ctx) task_id feedback) conflict) ;;
  ret (to_task_response task).

(** The reason is checked and then dropped. *)
Definition abort_task (task_id : string) (body : dict) (ctx : RequestContext) : M World TaskResponse :=
  lift (text_body "reason" 1000 body) ;;;
  task <- bind_context ctx (try_except (abort (ctx_tenant_id ctx) task_id) conflict) ;;
  ret (to_task_response task).

(** ** Query handlers *)

Definition not_found (what : string) : exn := HTTPException 404 what.

Definition get_task_handler (task_id : string) (ctx : RequestContext) : M World TaskResponse :=
  t <- bind_context ctx (get_task (ctx_tenant_id ctx) task_id) ;;
  match t with
  | None => raise (not_found ("task " +:+ py_repr_str task_id +:+ " not found"))
  | Some t => ret (to_task_response t)
  end.

Definition get_task_result (task_id : string) (ctx : RequestContext) : M World TaskResultResponse :=
  r <- bind_context ctx (get_result (ctx_tenant_id ctx) task_id) ;;
  match r with
  | None => raise (not_found ("result for task " +:+ py_repr_str task_id +:+ " not yet available"))
  | Some r => ret (to_task_result_response r)
  end.

Section TaskQueries.
Context `{!TextOrder, !DayKey}.

Definition get_task_observability_summary (fuel : nat) (task_id : string) (ctx : RequestContext)
    : M World dict :=
  summary <- bind_context ctx (
    t <- get_task (ctx_tenant_id ctx) task_id ;;
    match t with
    | None => raise (not_found ("task " +:+ py_repr_str task_id +:+ " not found"))
    | Some t => build_task_observability fuel (ctx_tenant_id ctx) t
    end) ;;
  ret (summary_to_json_dict summary).

Definition get_task_trajectory (task_id : string) (limit_per_source : Z) (ctx : RequestContext)
    : M World TrajectoryPage :=
  if negb ((1 <=? limit_per_source) && (limit_per_source <=? 1000)) then raise unprocessable
  else bind_context ctx (
    t <- get_task (ctx_tenant_id ctx) task_id ;;
    match t with
    | None => raise (not_found ("task " +:+ py_repr_str task_id +:+ " not found"))
    | Some _ => trajectory (ctx_tenant_id ctx) task_id None limit_per_source
    end).
End TaskQueries.

(** ** Session handlers *)

Definition get_session (session_id : string) (ctx : RequestContext) : M World Session :=
  s <- bind_context ctx (session_get (ctx_tenant_id ctx) session_id) ;;
  match s with
  | None => raise (not_found ("session " +:+ py_repr_str session_id +:+ " not found"))
  | Some s => ret s
  end.

Record SessionMessage : Type := mkSessionMessage {
  sm_role : string; sm_content : string; sm_task_id : string; sm_created_at : Z
}.

(** One iteration of the loop; [get_result] runs outside the context binding. *)
Definition session_step (tenant : string) (t : Task) (messages : list SessionMessage)
    : M World (list SessionMessage) :=
  if negb (bool_decide (t_state t = SUCCEEDED)) then ret messages
  else match as_nonempty_str (getd (t_input_payload t) "user_prompt") with
  | None => ret messages
  | Some prompt =>
      r <- get_result tenant (t_task_id t) ;;
      match r ≫= tr_output with
      | None => ret messages
      | Some output =>
          match as_nonempty_str (getd output "assistant_message") with
          | None => ret messages
          | Some answer =>
              ret (messages ++ [mkSessionMessage "user" prompt (t_task_id t) (t_created_at t);
                                mkSessionMessage "assistant" answer (t_task_id t) (t_created_at t)])
          end
      end
  end.

Definition get_session_messages (session_id : string) (limit : Z) (ctx : RequestContext)
    : M World (list SessionMessage) :=
  if negb ((1 <=? limit) && (limit <=? 200)) then raise unprocessable
  else
    s <- bind_context ctx (session_get (ctx_tenant_id ctx) session_id) ;;
    match s with
    | None => raise (not_found ("session " +:+ py_repr_str session_id +:+ " not found"))
    | Some _ =>
        tasks <- bind_context ctx (list_by_session (ctx_tenant_id ctx) session_id (Z.to_nat limit)) ;;
        for_each tasks [] (session_step (ctx_tenant_id ctx))
    end.

(** ** Submissions are atomic *)

Lemma db_call_inv w u w' : db_call w = (Ok u, w') -> w_db w' = w_db w /\ w_ctx w' = w_ctx w.
Proof. unfold db_call. destruct (w_fault w (w_ops w)); by intros [= _ <-]. Qed.

Lemma check_tenant_ok_inv t w u w' : check_tenant t w = (Ok u, w') -> w' = w.
Proof. intros H. by apply check_tenant_inv in H as [-> _]. Qed.

Lemma session_upsert_inv s w u w' :
  session_upsert_in_conn s w = (Ok u, w') -> w_db w' = with_sessions (upsert_session s) (w_db w).
Proof.
  intros ([] & w1 & H1 & H)%bind_inv_ok. apply check_tenant_ok_inv in H1 as ->.
  apply bind_inv_ok in H as ([] & w2 & H2 & H). apply db_call_inv in H2 as [E _].
  injection H as _ <-. simpl. by rewrite E.
Qed.

Lemma task_insert_inv t w u w' :
  db_tasks (w_db w) !! t_task_id t = None -> upsert_in_conn t w = (Ok u, w') ->
  w_db w' = with_tasks (<[t_task_id t := mkTaskRow t None]>) (w_db w) /\ task_idem_conflict (w_db w) t = false.
Proof.
  intros Hnew ([] & w1 & H1 & H)%bind_inv_ok. apply check_tenant_ok_inv in H1 as ->.
  apply bind_inv_ok in H as ([] & w2 & H2 & H). apply db_call_inv in H2 as [E _].
  apply bind_inv_ok in H as (d & w3 & H3 & H). injection H3 as <- <-. rewrite E, Hnew in H.
  destruct (task_idem_conflict (w_db w) t); [done|]. injection H as _ <-. simpl. by rewrite E.
Qed.

Lemma enqueue_inv e w u w' :
  enqueue_in_conn e w = (Ok u, w') ->
  w_db w' = with_outbox (fun l => l ++ [mkOutboxRow e None (Some (ob_created_at e))]) (w_db w) /\
  outbox_conflict (w_db w) e = false.
Proof.
  intros ([] & w1 & H1 & H)%bind_inv_ok. apply check_tenant_ok_inv in H1 as ->.
  apply bind_inv_ok in H as ([] & w2 & H2 & H). apply db_call_inv in H2 as [E _].
  apply bind_inv_ok in H as (d & w3 & H3 & H). injection H3 as <- <-. rewrite E in H.
  destruct (outbox_conflict (w_db w) e); [done|]. injection H as _ <-. simpl. by rewrite E.
Qed.

(** The tables after a submission. *)
Definition with_submission (session : option Session) (task : Task) (event : OutboxEvent) (d : Db) : Db :=
  with_outbox (fun l => l ++ [mkOutboxRow event None (Some (ob_created_at event))])
    (with_tasks (<[t_task_id task := mkTaskRow task None]>)
       (match session with Some s => with_sessions (upsert_session s) d | None => d end)).

Lemma write_submission_inv session task event w u w' :
  db_tasks (w_db w) !! t_task_id task = None -> write_submission session task event w = (Ok u, w') ->
  w_db w' = with_submission session task event (w_db w) /\
  task_idem_conflict (w_db w) task = false /\ outbox_conflict (w_db w) event = false.
Proof.
  intros Hnew (u0 & w1 & H1 & H)%bind_inv_ok.
  assert (w_db w1 = match session with Some s => with_sessions (upsert_session s) (w_db w) | None => w_db w end) as E1.
  { destruct session; [by apply session_upsert_inv in H1|by injection H1 as _ <-]. }
  assert (db_tasks (w_db w1) = db_tasks (w_db w) /\ db_outbox (w_db w1) = db_outbox (w_db w)) as [Et Eo].
  { rewrite E1. by destruct session. }
  apply bind_inv_ok in H as ([] & w2 & H2 & H). apply task_insert_inv in H2 as [E2 C2]; [|by rewrite Et].
  apply enqueue_inv in H as [E3 C3]. unfold with_submission. rewrite E3, E2, E1. split; [done|].
  unfold task_idem_conflict, outbox_conflict, rows_where in *. rewrite Et in C2. rewrite E2 in C3. simpl in C3.
  by rewrite Eo in C3.
Qed.

Lemma write_submission_healthy session task event w :
  healthy w -> bound_to w (t_tenant_id task) -> ob_tenant_id event = t_tenant_id task ->
  match session with Some s => se_tenant_id s = t_tenant_id task | None => True end ->
  db_tasks (w_db w) !! t_task_id task = None ->
  (write_submission session task event w).1 =
    if task_idem_conflict (w_db w) task || outbox_conflict (w_db w) event then Err UniqueViolationError else Ok tt.
Proof.
  intros Hh Hb He Hs Hnew. unfold write_submission.
  assert (exists w1, (match session with Some s => session_upsert_in_conn s | None => ret tt end) w = (Ok tt, w1) /\
    healthy w1 /\ w_ctx w1 = w_ctx w /\ db_tasks (w_db w1) = db_tasks (w_db w) /\
    db_outbox (w_db w1) = db_outbox (w_db w)) as (w1 & H1 & Hh1 & Ec & Et & Eo).
  { destruct session as [s|]; [|by exists w]. unfold session_upsert_in_conn, exec_upsert, bind.
    rewrite <- Hs in Hb. rewrite check_tenant_bound by done. rewrite db_call_healthy by done.
    eexists. split; [done|]. pose proof (ticked_healthy w Hh) as Ht.
    split; [exact Ht|]. simpl. by rewrite ticked_ctx, ticked_db. }
  assert (bound_to w1 (t_tenant_id task)) as Hb1 by (destruct Hb as (c & ? & ?); exists c; by rewrite Ec).
  unfold bind at 1. rewrite H1. cbv iota beta. unfold bind at 1, upsert_in_conn.
  unfold bind at 1. rewrite check_tenant_bound by done. cbv iota beta. unfold bind at 1.
  rewrite db_call_healthy by done. cbv iota beta. unfold bind at 1, get.
  assert (task_idem_conflict (w_db (ticked w1)) task = task_idem_conflict (w_db w) task) as Eti.
  { rewrite ticked_db. unfold task_idem_conflict, rows_where. by rewrite Et. }
  rewrite Eti, ticked_db, Et, Hnew.
  destruct (task_idem_conflict (w_db w) task); [done|]. unfold modify. cbn [orb].
  set (w2 := with_db _ (ticked w1)).
  assert (healthy w2) as Hh2 by exact (ticked_healthy w1 Hh1).
  assert (bound_to w2 (ob_tenant_id event)) as Hb2.
  { destruct Hb1 as (c & ? & ?). exists c. simpl. rewrite ticked_ctx. by rewrite He. }
  unfold enqueue_in_conn, bind. rewrite check_tenant_bound by done. rewrite db_call_healthy by done. simpl.
  unfold outbox_conflict. rewrite ticked_db. unfold w2. simpl. rewrite ticked_db, Eo.
  by destruct (existsb _ _).
Qed.

(** What a submission does, statement by statement. *)
Lemma submission_effect body ctx topic w :
  let task_id := w_ids w (w_nids w) in let event_id := w_ids w (S (w_nids w)) in
  let now := w_clock w (w_ticks w) in
  let task := submitted_task body ctx task_id now in
  let event := submitted_event body ctx topic task_id event_id now in
  db_tasks (w_db w) !! task_id = None ->
  forallb nonempty [task_id; ctx_tenant_id ctx; ctx_principal_id ctx; ctx_trace_id ctx; event_id; topic] = true ->
  let '(r, w') := submit_task_transaction body ctx topic w in
  w_ctx w' = w_ctx w /\
  match r with
  | Ok t => t = task /\ w_db w' = with_submission (session_row body ctx now) task event (w_db w) /\
      t_state t = PENDING /\ t_tenant_id t = ctx_tenant_id ctx /\ ob_aggregate_id event = t_task_id t /\
      ob_payload event = t_input_payload t
  | Err _ => w_db w' = w_db w
  end /\
  (healthy w ->
    r = if task_idem_conflict (w_db w) task || outbox_conflict (w_db w) event
        then Err UniqueViolationError else Ok task).
Proof.
  intros task_id event_id now task event Hnew Hne. unfold submit_task_transaction.
  apply forallb_forall with (x := topic) in Hne as Htopic; [|simpl; tauto].
  assert (forall x, In x [task_id; ctx_tenant_id ctx; ctx_principal_id ctx; ctx_trace_id ctx; event_id] ->
    nonempty x = true) as Hx.
  { intros x Hx. rewrite forallb_forall in Hne. apply Hne. simpl in *. tauto. }
  unfold bind at 1, id_factory. cbv iota beta. unfold bind at 1, clock. cbn [w_clock w_ticks].
  fold task_id now. unfold bind at 1, lift, all_nonempty. simpl forallb at 1.
  rewrite !Hx by (simpl; tauto). cbn [andb]. unfold bind at 1. cbn [w_ids w_nids]. fold event_id.
  unfold bind at 1. simpl forallb at 1. rewrite Hx by (simpl; tauto). rewrite Htopic. cbn [andb].
  fold task event. set (w1 := mkWorld _ _ _ _ _ _ _ _ _).
  change (w_db w) with (w_db w1) in Hnew |- *. change (w_ctx w) with (w_ctx w1).
  change (healthy w) with (healthy w1). clearbody w1. unfold bind, bind_context, transaction.
  set (w2 := set_ctx (Some ctx) w1). change (w_db w1) with (w_db w2) in Hnew.
  destruct (write_submission (session_row body ctx now) task event w2) as [[u|e] w3] eqn:E; simpl.
  - pose proof (write_submission_inv (session_row body ctx now) task event w2 u w3 Hnew E) as (Ed & C1 & C2).
    change (w_db w2) with (w_db w1) in *. rewrite C1, C2. simpl.
    split; [done|]. split; [done|]. done.
  - split; [done|]. split; [done|]. intros Hh.
    pose proof (write_submission_healthy (session_row body ctx now) task event w2) as Hw.
    rewrite E in Hw. simpl in Hw. change (w_db w2) with (w_db w1) in Hw.
    assert (Err e = if task_idem_conflict (w_db w1) task || outbox_conflict (w_db w1) event
      then Err UniqueViolationError else Ok tt) as He.
    { apply Hw; [exact Hh|by exists ctx|done| |exact Hnew]. unfold session_row. by destruct (sr_session_id body). }
    destruct (_ || _); [by injection He as ->|done].
Qed.

(** C28: submitting a task is atomic, with database failures possible at every
    statement: either the task row (pending, owned by the caller), its outbox
    command and the session row are all written and nothing else changes, or no
    table changes.  With a working database the submission is refused exactly when
    the tenant already used the idempotency key for a task or a command, or the
    generated event id is taken; the caller's binding is left as it was. *)
Theorem submission_atomic body ctx topic w :
  let task_id := w_ids w (w_nids w) in let event_id := w_ids w (S (w_nids w)) in
  let now := w_clock w (w_ticks w) in
  let task := submitted_task body ctx task_id now in
  let event := submitted_event body ctx topic task_id event_id now in
  db_tasks (w_db w) !! task_id = None ->
  forallb nonempty [task_id; ctx_tenant_id ctx; ctx_principal_id ctx; ctx_trace_id ctx; event_id; topic] = true ->
  let '(r, w') := submit_task_transaction body ctx topic w in
  w_ctx w' = w_ctx w /\
  match r with
  | Ok t => t = task /\ w_db w' = with_submission (session_row body ctx now) task event (w_db w) /\
      t_state t = PENDING /\ t_tenant_id t = ctx_tenant_id ctx /\ ob_aggregate_id event = t_task_id t /\
      ob_payload event = t_input_payload t
  | Err _ => w_db w' = w_db w
  end /\
  (healthy w ->
    r = if task_idem_conflict (w_db w) task || outbox_conflict (w_db w) event
        then Err UniqueViolationError else Ok task).
Proof. exact (submission_effect body ctx topic w). Qed.

(** ** What an accepted request guarantees downstream *)

Definition BUG_FIX_KEYS : list string :=
  ["issue_description"; "repo_url"; "base_ref"; "target_files"; "verify_suite"; "model"; "max_steps"].

(** A graph state that carries the payload under its keys. *)
Definition carries (s : TaskRunState) (payload : dict) : Prop :=
  forall k, k ∈ BUG_FIX_KEYS -> dget (data s) k = dget payload k.

Section Accepted.
Context {PI : PydanticInt}.

Lemma str_field_inv d k x : str_field d k = Ok x -> nonempty x = true.
Proof.
  unfold str_field. destruct (dget d k) as [v|]; [|done]. simpl. destruct v; try done. simpl.
  destruct (String.eqb_spec s ""); [done|]. intros [= <-]. by apply nonempty_true.
Qed.

Lemma body_opt_str_inv d k x : body_opt_str d k = Ok (Some x) -> nonempty x = true.
Proof.
  unfold body_opt_str. destruct (dget d k) as [v|]; [|done]. destruct v; try done. simpl.
  destruct (String.eqb_spec s ""); [done|]. intros [= <-]. by apply nonempty_true.
Qed.

Lemma bug_fix_validate_inv d p :
  bug_fix_validate d = Ok p ->
  nonempty (bp_issue_description p) = true /\ nonempty (bp_repo_url p) = true /\
  (forall x, bp_base_ref p = Some x -> nonempty x = true) /\
  bp_target_files p <> [] /\ Forall (fun f => nonempty (py_strip f) = true) (bp_target_files p) /\
  In (bp_verify_suite p) VERIFY_SUITES /\ (forall n, bp_max_steps p = Some n -> 0 < n).
Proof.
  unfold bug_fix_validate. intros (_ & _ & H)%res_bind_inv.
  apply res_bind_inv in H as (issue & Hi & H). apply res_bind_inv in H as (repo & Hr & H).
  apply res_bind_inv in H as (base & Hb & H). apply res_bind_inv in H as (files & Hf & H).
  apply res_bind_inv in H as (suite & Hs & H). apply res_bind_inv in H as (model & Hm & H).
  apply res_bind_inv in H as (steps & Hn & H).
  destruct (forallb _ files) eqn:Hall; [|done]. injection H as <-. cbn.
  split; [by eapply str_field_inv|]. split; [by eapply str_field_inv|].
  split; [intros x ->; by eapply body_opt_str_inv|]. split; [|split; [|split]].
  - destruct (dget d "target_files") as [v|]; [|done]. destruct v as [| | | | |[|v l]|]; try done.
    simpl in Hf. apply res_bind_inv in Hf as (? & _ & Hf). by apply res_bind_inv in Hf as (? & _ & [= <-]).
  - apply Forall_forall. intros f Hin. rewrite forallb_forall in Hall. by apply Hall, list_elem_of_In.
  - unfold enum_field in Hs. destruct (dget d "verify_suite") as [v|]; [|injection Hs as <-; simpl; tauto].
    destruct (as_str v ≫= _) as [x|] eqn:E; [|done]. injection Hs as <-.
    destruct (as_str v) as [t|]; [|done].
    change (List.find (String.eqb t) VERIFY_SUITES = Some x) in E. by apply find_some in E as [E _].
  - intros n ->. unfold body_opt_int in Hn. destruct (dget d "max_steps") as [v|]; [|done].
    destruct v; try done; destruct (int_of _) as [m|]; try done;
      (destruct (Z.leb_spec 1 m); [injection Hn as <-; lia|done]).
Qed.

Lemma bug_fix_dump_get p :
  getd (bug_fix_dump p) "issue_description" = JStr (bp_issue_description p) /\
  getd (bug_fix_dump p) "repo_url" = JStr (bp_repo_url p) /\
  getd (bug_fix_dump p) "base_ref" = opt_json JStr (bp_base_ref p) /\
  getd (bug_fix_dump p) "target_files" = JList (map JStr (bp_target_files p)) /\
  getd (bug_fix_dump p) "verify_suite" = JStr (bp_verify_suite p) /\
  getd (bug_fix_dump p) "max_steps" = opt_json JInt (bp_max_steps p).
Proof. destruct p as [i r [b|] f v [m|] [n|]]; done. Qed.

Lemma submit_validate_bug_fix body r :
  submit_validate body = Ok r -> sr_task_type r = BUG_FIX ->
  (sr_graph_id r = None \/ sr_graph_id r = Some SCHEMA_BUG_FIX_GRAPH_ID) /\
  exists d p, bug_fix_validate d = Ok p /\ sr_input_payload r = bug_fix_dump p.
Proof.
  unfold submit_validate. intros Hv Ht. do 9 (apply res_bind_inv in Hv as (? & _ & Hv)).
  apply res_bind_inv in Hv as (r0 & H0 & Hv).
  assert (r0 = r) as ->.
  { unfold validate_permission_and_budget_policy in Hv. split_matches. }
  unfold validate_bug_fix_payload in H0. cbn [sr_task_type sr_input_payload sr_graph_id] in H0.
  destruct x0; try (injection H0 as <-; done).
  apply res_bind_inv in H0 as (p & Hp & H0). destruct x2 as [g|].
  - destruct (String.eqb_spec g SCHEMA_BUG_FIX_GRAPH_ID) as [->|]; [|done]. injection H0 as <-.
    split; [by right|]. by exists x1, p.
  - injection H0 as <-. split; [by left|]. by exists x1, p.
Qed.

Lemma target_files_map s (l : list string) :
  getd (data s) "target_files" = JList (map JStr l) -> l <> [] ->
  Forall (fun f => nonempty (py_strip f) = true) l -> target_files s = Ok l.
Proof.
  intros E Hl Hall. unfold target_files. rewrite E. destruct l as [|f l]; [done|].
  apply (mapM_res_map _ JStr (f :: l)). eapply Forall_impl; [exact Hall|]. intros x Hx. simpl.
  destruct (String.eqb_spec x "") as [->|]; done.
Qed.

(** A payload that carries a validated request is read by the checks of the
    graph as the values of the request. *)
Lemma bug_fix_payload_read d p s :
  bug_fix_validate d = Ok p -> carries s (bug_fix_dump p) ->
  required_str s "issue_description" = Ok (bp_issue_description p) /\
  optional_str s "repo_url" = Ok (Some (bp_repo_url p)) /\
  optional_str s "base_ref" = Ok (bp_base_ref p) /\
  target_files s = Ok (bp_target_files p) /\
  verify_suite s = Ok (bp_verify_suite p) /\
  (exists n, as_int (get_or (data s) "max_steps" (JInt 8)) = Some n /\ 0 < n).
Proof.
  intros Hp Hc. destruct (bug_fix_validate_inv d p Hp) as (H1 & H2 & H3 & H4 & H5 & H6 & H7).
  destruct (bug_fix_dump_get p) as (G1 & G2 & G3 & G4 & G5 & G6).
  assert (forall k, k ∈ BUG_FIX_KEYS -> getd (data s) k = getd (bug_fix_dump p) k) as Hget.
  { intros k Hk. unfold getd. by rewrite (Hc k Hk). }
  unfold required_str, optional_str, verify_suite.
  rewrite !Hget by (unfold BUG_FIX_KEYS; set_solver). rewrite G1, G2, G3, G5. cbn [as_nonempty_str].
  apply nonempty_true in H1 as H1'. apply String.eqb_neq in H1'. rewrite H1', H2.
  split; [done|]. split; [done|]. split; [|split; [|split]].
  - destruct (bp_base_ref p) as [b|]; [|done]. simpl. by rewrite H3.
  - apply target_files_map; [|done|done]. rewrite Hget by (unfold BUG_FIX_KEYS; set_solver). exact G4.
  - destruct (String.eqb_spec (bp_verify_suite p) "") as [E|]; [|done]. rewrite E in H6. simpl in H6.
    intuition congruence.
  - unfold get_or. rewrite Hc by (unfold BUG_FIX_KEYS; set_solver). unfold getd in G6.
    destruct (bp_max_steps p) as [n|] eqn:En.
    + destruct (dget (bug_fix_dump p) "max_steps") as [v|]; simpl in G6; [|done]. subst v.
      exists n. split; [done|by apply H7].
    + destruct (dget (bug_fix_dump p) "max_steps") as [v|] eqn:Ev; [|by exists 8].
      exfalso. destruct p as [i0 r0 [b|] f0 v0 [m|] [n0|]]; done.
Qed.

(** C36: a bug-fix request the API accepts passes every check the bug-fix graph
    makes on its input: the issue, the repository, the base ref, the list of target
    files, the verify suite and the step limit are all read without an error, as the values
    of the request, and the graph id is the bug-fix graph's or absent. *)
Theorem accepted_bug_fix_runs body r s :
  submit_validate body = Ok r -> sr_task_type r = BUG_FIX -> carries s (sr_input_payload r) ->
  (sr_graph_id r = None \/ sr_graph_id r = Some SCHEMA_BUG_FIX_GRAPH_ID) /\
  exists p, bug_fix_dump p = sr_input_payload r /\
    required_str s "issue_description" = Ok (bp_issue_description p) /\
    optional_str s "repo_url" = Ok (Some (bp_repo_url p)) /\
    optional_str s "base_ref" = Ok (bp_base_ref p) /\
    target_files s = Ok (bp_target_files p) /\
    verify_suite s = Ok (bp_verify_suite p) /\
    (exists n, as_int (get_or (data s) "max_steps" (JInt 8)) = Some n /\ 0 < n).
Proof.
  intros Hv Ht Hc. destruct (submit_validate_bug_fix body r Hv Ht) as (Hg & d & p & Hp & Hd).
  split; [done|]. exists p. split; [done|]. rewrite Hd in Hc. exact (bug_fix_payload_read d p s Hp Hc).
Qed.
End Accepted.

(** ** The message thread of a session *)

(** The rows [list_by_session] selects. *)
Definition session_tasks (d : Db) (tenant session : string) (limit : nat) : list Task :=
  limit_tasks limit (order_by t_created_at
    (rows_where (fun r => String.eqb (t_tenant_id (row_task r)) tenant &&
                          bool_decide (t_session_id (row_task r) = Some session)) d)).

(** A finished turn with a prompt: one whose answer the thread should show. *)
Definition prompted_turn (t : Task) : bool :=
  bool_decide (t_state t = SUCCEEDED) &&
  match as_nonempty_str (getd (t_input_payload t) "user_prompt") with Some _ => true | None => false end.

Lemma session_step_unbound tenant t ms w :
  w_ctx w = None ->
  session_step tenant t ms w = if prompted_turn t then (Err MissingContextError, w) else (Ok ms, w).
Proof.
  intros Hc. unfold session_step, prompted_turn. destruct (bool_decide _); [|done]. cbn [negb andb].
  destruct (as_nonempty_str _); [|done]. unfold bind, get_result, bind.
  by rewrite check_tenant_unbound by exact Hc.
Qed.

Lemma session_loop_unbound tenant ts ms w :
  w_ctx w = None ->
  for_each ts ms (session_step tenant) w =
    if existsb prompted_turn ts then (Err MissingContextError, w) else (Ok ms, w).
Proof.
  intros Hc. induction ts as [|t ts IH]; simpl; [done|]. unfold bind. rewrite session_step_unbound by done.
  by destruct (prompted_turn t).
Qed.

(** [GET /v1/sessions/{id}/messages] never returns a message.  Handlers run
    with no context bound outside [bind_context], and the loop reads each task's
    result there, so the tenant guard raises [MissingContextError] at the first
    finished turn that has a prompt; a session without one has an empty thread. *)
Theorem session_messages_never session_id limit ctx w s :
  w_ctx w = None -> healthy w -> 1 <= limit <= 200 ->
  select_session (w_db w) (ctx_tenant_id ctx) session_id = Some s ->
  exists w', get_session_messages session_id limit ctx w =
    (if existsb prompted_turn (session_tasks (w_db w) (ctx_tenant_id ctx) session_id (Z.to_nat limit))
     then Err MissingContextError else Ok [], w') /\ same_tables w w'.
Proof.
  intros Hc Hh [Hl1 Hl2] Hs. unfold get_session_messages.
  apply Z.leb_le in Hl1, Hl2. rewrite Hl1, Hl2. cbn [negb andb]. unfold bind at 1, session_get.
  destruct (bind_context_select ctx (fun d => select_session d (ctx_tenant_id ctx) session_id) w Hh)
    as (w1 & -> & S1). cbv iota beta. rewrite Hs. unfold bind.
  destruct (bind_context_select ctx (fun d => session_tasks d (ctx_tenant_id ctx) session_id (Z.to_nat limit)) w1)
    as (w2 & H2 & S2); [by apply S1|].
  change (list_by_session (ctx_tenant_id ctx) session_id (Z.to_nat limit)) with
    (select (ctx_tenant_id ctx) (fun d => session_tasks d (ctx_tenant_id ctx) session_id (Z.to_nat limit))).
  rewrite H2. cbv iota beta. assert (same_tables w w2) as S by by etrans.
  rewrite session_loop_unbound by (destruct S as (_ & E & _); by rewrite E).
  destruct S1 as (-> & _). exists w2. by destruct (existsb _ _).
Qed.
