(* ===== verification/CodeReview.v ===== *)
(** * CodeReview: the structured review graph

    [core/orchestration/graphs/code_review.py], with the JSON form of a request
    ([LLMRequest] of [core/ports/llm.py]) that the graph keeps in [state.data]
    between its nodes.

    The model and the prompt registry are ports.  [json.loads], pydantic's
    coercion of a number to a float and the two range checks on the text of a
    float are parameters.  A temperature given as an integer stays that integer. *)

From S2P Require Import Prelude PyText Domain GraphRuntime Results PromptRegistry ShellAgent ShellAgentFacts LlmClients.

(** ** The JSON form of a request *)

Definition ToolCategory_value (c : ToolCategory) : string :=
  match c with
  | FILESYSTEM => "filesystem" | EDIT => "edit" | SHELL => "shell" | TEST => "test" | WEB => "web"
  | CODE_INDEX => "code_index"
  end.
Definition ToolCategory_of_value (s : string) : option ToolCategory :=
  List.find (fun c => String.eqb (ToolCategory_value c) s) [FILESYSTEM; EDIT; SHELL; TEST; WEB; CODE_INDEX].

Definition tool_spec_dump (t : ToolSpec) : json :=
  JDict [("name", JStr (ts_name t)); ("description", JStr (ts_description t));
         ("parameters", JDict (ts_parameters t)); ("category", JStr (ToolCategory_value (ts_category t)))].

Definition request_dump (r : LLMRequest) : dict :=
  [("messages", JList (map message_dump (rq_messages r))); ("model", opt_json JStr (rq_model r));
   ("temperature", opt_json id (rq_temperature r)); ("max_tokens", opt_json JInt (rq_max_tokens r));
   ("stop", opt_json (fun l => JList (map JStr l)) (rq_stop r));
   ("tools", JList (map tool_spec_dump (rq_tools r)));
   ("metadata", JDict (map (fun kv => (kv.1, JStr kv.2)) (rq_metadata r)));
   ("prompt_id", opt_json JStr (rq_prompt_id r)); ("prompt_version", opt_json JInt (rq_prompt_version r));
   ("step_kind", opt_json JStr (rq_step_kind r))].

Definition tool_name_char (c : Ascii.ascii) : bool := is_alpha c || is_digit c || char_is 95 c || char_is 45 c.

Definition tool_spec_validate (v : json) : res ToolSpec :=
  let? d := object_with ["name"; "description"; "parameters"; "category"] v in
  let? n := req_nonempty_str d "name" in
  let? desc := req_nonempty_str d "description" in
  let? c := req_str d "category" in
  if negb (Nat.leb (String.length n) 64 && forallb tool_name_char (String.list_ascii_of_string n))
  then Err (ValidationError "name")
  else match ToolCategory_of_value c with
       | None => Err (ValidationError "category")
       | Some cat =>
           match dget d "parameters" with
           | Some (JDict p) => Ok (mkToolSpec n desc p cat)
           | None => Ok (mkToolSpec n desc [] cat)
           | Some _ => Err (ValidationError "parameters")
           end
       end.

Definition json_str (v : json) : res string :=
  match v with JStr s => Ok s | _ => Err (ValidationError "str") end.

Definition str_dict_field (d : dict) (k : string) : res (list (string * string)) :=
  match dget d k with
  | None => Ok []
  | Some (JDict m) => mapM_res (fun kv => let? s := json_str kv.2 in Ok (kv.1, s)) m
  | Some _ => Err (ValidationError k)
  end.

Definition REQUEST_KEYS : list string :=
  ["messages"; "model"; "temperature"; "max_tokens"; "stop"; "tools"; "metadata"; "prompt_id"; "prompt_version";
   "step_kind"].

Definition request_validate (float_ok : string -> bool) (v : json) : res LLMRequest :=
  let? d := object_with REQUEST_KEYS v in
  let? raw := match dget d "messages" with Some (JList l) => Ok l | _ => Err (ValidationError "messages") end in
  let? messages := mapM_res message_validate raw in
  let? model := opt_str_field d "model" in
  let? temperature := match dget d "temperature" with
                      | None | Some JNull => Ok None
                      | Some (JInt n) => Ok (Some (JInt n))
                      | Some (JFloat f) => Ok (Some (JFloat f))
                      | Some _ => Err (ValidationError "temperature")
                      end in
  let? max_tokens := opt_int_field d "max_tokens" in
  let? stop := match dget d "stop" with
               | None | Some JNull => Ok None
               | Some (JList l) => let? ss := mapM_res json_str l in Ok (Some ss)
               | Some _ => Err (ValidationError "stop")
               end in
  let? rawtools := list_field d "tools" in
  let? tools := mapM_res tool_spec_validate rawtools in
  let? metadata := str_dict_field d "metadata" in
  let? pid := opt_str_field d "prompt_id" in
  let? pver := opt_int_field d "prompt_version" in
  let? kind := opt_str_field d "step_kind" in
  check_request float_ok (mkRequest messages model temperature max_tokens stop tools metadata pid pver kind).

(** ** Review models *)

Definition CODE_REVIEW_GRAPH_ID : string := "builtin.code_review".
Definition CODE_REVIEW_SYSTEM_PROMPT_ID : string := "code_review.system".
Definition MAX_DIFF_BYTES : Z := 65536.
Definition MAX_FINDINGS : nat := 50.
Definition STEP_REVIEW : string := "review".

Record ReviewFinding : Type := mkReviewFinding {
  rf_category : string; rf_severity : string; rf_file : option string; rf_line_range : option string;
  rf_message : string; rf_suggested_action : option string
}.
Record ReviewOutput : Type := mkReviewOutput {
  ro_verdict : string; ro_summary : string; ro_findings : list ReviewFinding; ro_confidence : json
}.

Definition ReviewVerdict : list string := ["approve"; "request_changes"; "comment"].
Definition FindingCategory : list string := ["bug"; "regression"; "security"; "test_gap"; "style"; "other"].
Definition FindingSeverity : list string := ["blocker"; "major"; "minor"; "info"].

Definition literal_field (allowed : list string) (d : dict) (k : string) : res string :=
  let? s := req_str d k in if str_in allowed s then Ok s else Err (ValidationError k).

Definition finding_dump (f : ReviewFinding) : json :=
  JDict [("category", JStr (rf_category f)); ("severity", JStr (rf_severity f));
         ("file", opt_json JStr (rf_file f)); ("line_range", opt_json JStr (rf_line_range f));
         ("message", JStr (rf_message f)); ("suggested_action", opt_json JStr (rf_suggested_action f))].

Definition finding_validate (v : json) : res ReviewFinding :=
  let? d := object_with ["category"; "severity"; "file"; "line_range"; "message"; "suggested_action"] v in
  let? c := literal_field FindingCategory d "category" in
  let? s := literal_field FindingSeverity d "severity" in
  let? f := opt_str_field d "file" in
  let? l := opt_str_field d "line_range" in
  let? m := req_nonempty_str d "message" in
  let? a := opt_str_field d "suggested_action" in
  Ok (mkReviewFinding c s f l m a).

Definition review_dump (r : ReviewOutput) : dict :=
  [("verdict", JStr (ro_verdict r)); ("summary", JStr (ro_summary r));
   ("findings", JList (map finding_dump (ro_findings r))); ("confidence", ro_confidence r)].

Section Review.
(** pydantic's [float] from a JSON value, and [0.0 <= x <= 1.0] on the result. *)
Context (coerce_float : json -> option json) (in_unit : json -> bool).

Definition review_validate (v : json) : res ReviewOutput :=
  let? d := object_with ["verdict"; "summary"; "findings"; "confidence"] v in
  let? verdict := literal_field ReviewVerdict d "verdict" in
  let? summary := req_nonempty_str d "summary" in
  let? raw := list_field d "findings" in
  let? findings := mapM_res finding_validate raw in
  if Nat.ltb MAX_FINDINGS (length findings) then Err (ValidationError "findings")
  else match dget d "confidence" with
       | None => Err (ValidationError "confidence")
       | Some c => match coerce_float c with
                   | None => Err (ValidationError "confidence")
                   | Some x => if in_unit x then Ok (mkReviewOutput verdict summary findings x)
                               else Err (ValidationError "confidence")
                   end
       end.

(** ** Helpers of the graph *)

Definition cr_required_str (s : TaskRunState) (key : string) : res string :=
  match as_nonempty_str (getd (data s) key) with
  | Some x => Ok x
  | None => Err (GraphError ("code_review: state.data[" +:+ py_repr_str key +:+ "] must be a non-empty str"))
  end.

Definition cr_optional_str (s : TaskRunState) (key : string) : res (option string) :=
  match getd (data s) key with
  | JNull => Ok None
  | JStr x => Ok (Some x)
  | _ => Err (GraphError ("code_review: state.data[" +:+ py_repr_str key +:+ "] must be str when provided"))
  end.

Definition cr_optional_float (s : TaskRunState) (key : string) : res (option json) :=
  match getd (data s) key with
  | JNull => Ok None
  | JInt n => if 2 ^ 1024 - 2 ^ 970 <=? Z.abs n then Err (ExternalError "OverflowError") else Ok (Some (JInt n))
  | JFloat f => Ok (Some (JFloat f))
  | _ => Err (GraphError ("code_review: state.data[" +:+ py_repr_str key +:+ "] must be a number when provided"))
  end.

Definition cr_optional_int (s : TaskRunState) (key : string) : res (option Z) :=
  match getd (data s) key with
  | JNull => Ok None
  | JInt n => Ok (Some n)
  | _ => Err (GraphError ("code_review: state.data[" +:+ py_repr_str key +:+ "] must be int when provided"))
  end.

(** [^```(?:json)?\s*\n(.*?)\n```\s*$] on stripped text: the header ends at the last
    newline of the run of blanks that leaves a closing fence. *)
Definition FENCE : string := "```".

Fixpoint fence_body (s : string) : option string :=
  match s with
  | EmptyString => None
  | String c s' =>
      if is_space c then
        match fence_body s' with
        | Some b => Some b
        | None => if char_is 10 c then str_drop_suffix (newline +:+ FENCE) s' else None
        end
      else None
  end.

Definition fence_match (t : string) : option string :=
  match str_drop_prefix FENCE t with
  | None => None
  | Some r => match str_drop_prefix "json" r with
              | Some r' => match fence_body r' with Some b => Some b | None => fence_body r end
              | None => fence_body r
              end
  end.

Definition strip_fence (text : string) : string := default text (fence_match (py_strip text)).

Definition review_messages (system diff_text : string) (context pr_title : option string) : list ChatMessage :=
  let user_parts :=
    match truthy_str pr_title with Some t => ["PR title:" +:+ newline +:+ t] | None => [] end ++
    match truthy_str context with Some c => [newline +:+ "Context:" +:+ newline +:+ c] | None => [] end ++
    [newline +:+ "Diff:" +:+ newline +:+ diff_text] in
  [mkChat ROLE_SYSTEM system None []; mkChat ROLE_USER (str_join newline user_parts) None []].

Context (json_loads : string -> option json).

Definition parse_review (raw : string) : res ReviewOutput :=
  match json_loads (strip_fence raw) with
  | None => Err (GraphError "code_review: review response is not valid JSON")
  | Some (JDict payload) =>
      match review_validate (JDict payload) with
      | Ok r => Ok r
      | Err _ => Err (GraphError "code_review: review response failed schema")
      end
  | Some _ => Err (GraphError "code_review: review response must be a JSON object")
  end.

Definition project_output (review : ReviewOutput) (response : LLMResponse) : dict :=
  [("verdict", JStr (ro_verdict review)); ("summary", JStr (ro_summary review));
   ("findings", JList (map finding_dump (ro_findings review))); ("confidence", ro_confidence review);
   ("model_used", JStr (rs_model response)); ("finish_reason", JStr (rs_finish_reason response));
   ("usage", usage_dump (rs_usage response));
   ("provider_response_id", opt_json JStr (rs_provider_response_id response))].

(** ** The graph *)

Context (float_ok : string -> bool).
Context {W : Type} (llm : LLMClient W) (registry : option (Registry W)).

Definition require_prompt_registry : M W (Registry W) :=
  match registry with
  | None => raise (GraphError "code_review requires deps.prompt_registry")
  | Some r => ret r
  end.

(** The request [prepare] builds.  The model settings are read after the prompt
    is fetched. *)
Definition review_request (s : TaskRunState) : M W LLMRequest :=
  diff_text <- lift (cr_required_str s "diff_text") ;;
  if MAX_DIFF_BYTES <? Z.of_nat (String.length diff_text)
  then raise (GraphError "code_review: diff_text exceeds max_diff_bytes=65536")
  else
  context <- lift (cr_optional_str s "context") ;;
  pr_title <- lift (cr_optional_str s "pr_title") ;;
  r <- require_prompt_registry ;;
  asset <- rg_fetch r CODE_REVIEW_SYSTEM_PROMPT_ID None (Some (tenant_id s)) ;;
  let system := safe_substitute (pa_content asset) "max_findings" (pretty (Z.of_nat MAX_FINDINGS)) in
  model <- lift (cr_optional_str s "model") ;;
  temperature <- lift (cr_optional_float s "temperature") ;;
  max_tokens <- lift (cr_optional_int s "max_tokens") ;;
  lift (check_request float_ok
    (mkRequest (review_messages system diff_text context pr_title) model temperature max_tokens None [] []
       (Some (pa_prompt_id asset)) (Some (pa_version asset)) (Some STEP_REVIEW))).

Definition cr_prepare : NodeFn W := fun s =>
  request <- review_request s ;;
  ret (node_update [("_llm_request", JDict (request_dump request))]).

Definition cr_review : NodeFn W := fun s =>
  match getd (data s) "_llm_request" with
  | JDict raw =>
      request <- lift (request_validate float_ok (JDict raw)) ;;
      response <- llm request ;;
      parsed <- lift (parse_review (rs_content response)) ;;
      ret (node_update [("_llm_response", response_dump response); ("_review", JDict (review_dump parsed))])
  | _ => raise (GraphError "code_review: prepare node did not persist _llm_request")
  end.

Definition cr_finalize : NodeFn W := fun s =>
  match getd (data s) "_llm_response", getd (data s) "_review" with
  | JDict raw_resp, JDict raw_review =>
      response <- lift (response_validate (JDict raw_resp)) ;;
      review_obj <- lift (review_validate (JDict raw_review)) ;;
      ret (node_update [("output", JDict (project_output review_obj response))])
  | _, _ => raise (GraphError "code_review: review node did not persist _llm_response/_review")
  end.

Definition build_code_review_graph : res (Graph W) :=
  let? g := new_graph CODE_REVIEW_GRAPH_ID in
  let? g := add_node g "prepare" cr_prepare in
  let? g := add_node g "review" cr_review in
  let? g := add_node g "finalize" cr_finalize in
  let? g := set_entry g "prepare" in
  let? g := add_edge g "prepare" "review" in
  let? g := add_edge g "review" "finalize" in
  let? g := add_edge g "finalize" END in
  let? _ := compile g in
  Ok g.
End Review.

(** ** Round trips through [state.data] *)

Definition spec_ok (t : ToolSpec) : Prop :=
  ts_name t <> "" /\ ts_description t <> "" /\
  Nat.leb (String.length (ts_name t)) 64 && forallb tool_name_char (String.list_ascii_of_string (ts_name t)) = true.

Lemma category_roundtrip c : ToolCategory_of_value (ToolCategory_value c) = Some c.
Proof. by destruct c. Qed.

Lemma spec_roundtrip t : spec_ok t -> tool_spec_validate (tool_spec_dump t) = Ok t.
Proof.
  destruct t as [n d p c]. intros (Hn & Hd & Hc). apply nonempty_eqb in Hn, Hd. simpl in Hn, Hd, Hc.
  unfold tool_spec_validate.
  change (object_with _ _) with (Ok [("name", JStr n); ("description", JStr d); ("parameters", JDict p);
                                     ("category", JStr (ToolCategory_value c))]).
  cbv beta iota delta [res_bind].
  change (req_nonempty_str _ "name") with (if nonempty n then Ok n else Err (ValidationError "name")).
  change (req_nonempty_str _ "description")
    with (if nonempty d then Ok d else Err (ValidationError "description")).
  change (req_str _ "category") with (Ok (A := string) (ToolCategory_value c)).
  rewrite Hn, Hd, Hc. cbv beta iota delta [negb]. by rewrite category_roundtrip.
Qed.

Definition request_ok (float_ok : string -> bool) (r : LLMRequest) : Prop :=
  check_request float_ok r = Ok r /\ Forall message_ok (rq_messages r) /\ Forall spec_ok (rq_tools r) /\
  match rq_temperature r with None | Some (JInt _) | Some (JFloat _) => True | _ => False end.

Lemma strings_roundtrip l : mapM_res json_str (map JStr l) = Ok l.
Proof. apply mapM_res_map. by apply Forall_true. Qed.

Lemma metadata_roundtrip (l : list (string * string)) :
  mapM_res (fun kv => let? s := json_str kv.2 in Ok (kv.1, s)) (map (fun kv => (kv.1, JStr kv.2)) l) = Ok l.
Proof. apply (mapM_res_map _ (fun kv => (kv.1, JStr kv.2))). apply Forall_true. by intros []. Qed.

Lemma request_roundtrip float_ok r : request_ok float_ok r -> request_validate float_ok (JDict (request_dump r)) = Ok r.
Proof.
  destruct r as [ms m t mt st ts md pid pv sk]. intros (Hc & Hm & Ht & Htemp). cbn in Hm, Ht, Htemp.
  assert (mapM_res message_validate (map message_dump ms) = Ok ms) as E1.
  { apply mapM_res_map. eapply Forall_impl; [exact Hm|]. apply message_roundtrip. }
  assert (mapM_res tool_spec_validate (map tool_spec_dump ts) = Ok ts) as E2.
  { apply mapM_res_map. eapply Forall_impl; [exact Ht|]. apply spec_roundtrip. }
  unfold request_validate. cbn -[mapM_res check_request]. rewrite E1. cbn -[mapM_res check_request].
  unfold list_field, opt_str_field, opt_int_field, str_dict_field. cbn -[mapM_res check_request].
  rewrite E2, metadata_roundtrip.
  destruct t as [[]|]; try done; destruct m, mt, st, pid, pv, sk; cbn -[mapM_res check_request] in *;
    rewrite ?strings_roundtrip; exact Hc.
Qed.

Definition response_ok (r : LLMResponse) : Prop :=
  existsb (String.eqb (rs_finish_reason r)) finish_reasons = true /\ Forall call_ok (rs_tool_calls r).

Lemma response_roundtrip r : response_ok r -> response_validate (response_dump r) = Ok r.
Proof.
  destruct r as [c m f u calls p]. intros [Hf Hc]. cbn in Hf, Hc.
  assert (mapM_res tool_call_validate (map tool_call_dump calls) = Ok calls) as E.
  { apply mapM_res_map. eapply Forall_impl; [exact Hc|]. apply tool_call_roundtrip. }
  unfold response_validate, response_dump. cbn -[mapM_res existsb usage_dump usage_validate].
  unfold req_str, list_field, opt_str_field. cbn -[mapM_res existsb usage_dump usage_validate].
  cbn -[mapM_res usage_dump usage_validate] in Hf |- *. rewrite Hf. cbn -[mapM_res usage_dump usage_validate].
  rewrite usage_roundtrip. cbn -[mapM_res]. rewrite E. by destruct p.
Qed.

Section ReviewFacts.
Context (coerce_float : json -> option json) (in_unit : json -> bool).
(** A float validates as itself. *)
Context (coerce_idem : forall v x, coerce_float v = Some x -> coerce_float x = Some x).

(** A stored review is validated again to the same review. *)
Definition review_ok (r : ReviewOutput) : Prop :=
  str_in ReviewVerdict (ro_verdict r) = true /\ nonempty (ro_summary r) = true /\
  Forall (fun f => finding_validate (finding_dump f) = Ok f) (ro_findings r) /\
  (length (ro_findings r) <= MAX_FINDINGS)%nat /\ coerce_float (ro_confidence r) = Some (ro_confidence r) /\
  in_unit (ro_confidence r) = true.

Lemma literal_inv allowed d k s : literal_field allowed d k = Ok s -> str_in allowed s = true.
Proof.
  unfold literal_field. intros (x & _ & H)%res_bind_inv. destruct (str_in allowed x) eqn:E; [|done].
  by injection H as <-.
Qed.

Lemma nonempty_inv d k s : req_nonempty_str d k = Ok s -> nonempty s = true.
Proof.
  unfold req_nonempty_str. destruct (dget d k) as [[]|]; try done.
  destruct (nonempty s0) eqn:E; [|done]. by intros [= <-].
Qed.

Lemma finding_revalidates v f : finding_validate v = Ok f -> finding_validate (finding_dump f) = Ok f.
Proof.
  unfold finding_validate at 1. intros (d & _ & H)%res_bind_inv.
  apply res_bind_inv in H as (c & Hc & H). apply res_bind_inv in H as (s & Hs & H).
  apply res_bind_inv in H as (fl & _ & H). apply res_bind_inv in H as (l & _ & H).
  apply res_bind_inv in H as (m & Hm & H). apply res_bind_inv in H as (a & _ & H). injection H as <-.
  apply literal_inv in Hc, Hs. apply nonempty_inv in Hm.
  unfold finding_validate, finding_dump. cbn -[literal_field req_nonempty_str FindingCategory FindingSeverity].
  unfold literal_field, req_str, req_nonempty_str, opt_str_field.
  cbn -[str_in nonempty FindingCategory FindingSeverity]. rewrite Hc. cbn -[str_in nonempty FindingSeverity].
  rewrite Hs. destruct fl, l, a; cbn -[nonempty]; by rewrite Hm.
Qed.

Lemma mapM_res_Forall {A B} (f : A -> res B) (P : B -> Prop) l : forall ys,
  (forall x y, f x = Ok y -> P y) -> mapM_res f l = Ok ys -> Forall P ys.
Proof.
  induction l as [|x l IH]; simpl; intros ys Hf; [intros [= <-]; constructor|].
  intros (y & Hy & (zs & Hz & [= <-])%res_bind_inv)%res_bind_inv. constructor; [by eapply Hf|by apply IH].
Qed.

Lemma review_validate_ok v r : review_validate coerce_float in_unit v = Ok r -> review_ok r.
Proof.
  unfold review_validate. intros (d & _ & H)%res_bind_inv. apply res_bind_inv in H as (vd & Hv & H).
  apply res_bind_inv in H as (sm & Hs & H). apply res_bind_inv in H as (raw & _ & H).
  apply res_bind_inv in H as (fs & Hf & H). destruct (Nat.ltb_spec MAX_FINDINGS (length fs)) as [|Hl]; [done|].
  destruct (dget d "confidence") as [c|]; [|done]. destruct (coerce_float c) as [x|] eqn:Ec; [|done].
  destruct (in_unit x) eqn:Eu; [|done]. injection H as <-.
  split_and!; [exact (literal_inv _ _ _ _ Hv)|exact (nonempty_inv _ _ _ Hs)| |done|by eapply coerce_idem|done].
  eapply mapM_res_Forall; [|exact Hf]. apply finding_revalidates.
Qed.

Lemma review_roundtrip r : review_ok r -> review_validate coerce_float in_unit (JDict (review_dump r)) = Ok r.
Proof.
  destruct r as [v sm fs c]. intros (Hv & Hs & Hf & Hl & Hc & Hu).
  cbn [ro_verdict ro_summary ro_findings ro_confidence] in *. unfold review_validate.
  change (object_with _ _) with (Ok (review_dump (mkReviewOutput v sm fs c))). cbv beta iota delta [res_bind].
  change (literal_field _ _ _) with (if str_in ReviewVerdict v then Ok v else Err (ValidationError "verdict")).
  change (req_nonempty_str _ _) with (if nonempty sm then Ok sm else Err (ValidationError "summary")).
  change (list_field _ _) with (Ok (map finding_dump fs)).
  rewrite Hv, Hs, (mapM_res_map finding_validate finding_dump fs Hf), (proj2 (Nat.ltb_ge _ _) Hl).
  change (dget _ "confidence") with (Some c). cbv beta iota. by rewrite Hc, Hu.
Qed.

Context (json_loads : string -> option json) (float_ok : string -> bool).

Lemma parse_review_ok raw r : parse_review coerce_float in_unit json_loads raw = Ok r -> review_ok r.
Proof.
  unfold parse_review. destruct (json_loads _) as [[]|]; try done.
  destruct (review_validate _ _ _) as [x|] eqn:E; [|done]. intros [= <-]. by eapply review_validate_ok.
Qed.

(** ** The run *)

Context {W : Type} (llm : LLMClient W) (registry : option (Registry W)).
(** Responses are validated models. *)
Context (llm_ok : forall r w resp w', llm r w = (Ok resp, w') -> response_ok resp).

Notation prepare := (cr_prepare float_ok registry).
Notation review := (cr_review coerce_float in_unit json_loads float_ok llm).
Notation finalize := (cr_finalize coerce_float in_unit).

Definition review_graph : Graph W :=
  mkGraph CODE_REVIEW_GRAPH_ID
    [("prepare", prepare); ("review", review); ("finalize", finalize)]
    [("prepare", mkEdge (Some "review") None); ("review", mkEdge (Some "finalize") None);
     ("finalize", mkEdge (Some END) None)]
    (Some "prepare").

Lemma build_code_review_eq :
  build_code_review_graph coerce_float in_unit json_loads float_ok llm registry = Ok review_graph.
Proof. reflexivity. Qed.

(** The review as one program, without the state dictionary in between. *)
Definition review_direct (s : TaskRunState) : M W (ReviewOutput * LLMResponse) :=
  request <- review_request float_ok registry s ;;
  response <- llm request ;;
  parsed <- lift (parse_review coerce_float in_unit json_loads (rs_content response)) ;;
  ret (parsed, response).

Lemma check_request_same f r r' : check_request f r = Ok r' -> r' = r.
Proof. unfold check_request. destruct (rq_messages r); [done|]. destruct (_ && _); [congruence|done]. Qed.

Lemma optional_float_shape s k o :
  cr_optional_float s k = Ok o -> match o with None | Some (JInt _) | Some (JFloat _) => True | _ => False end.
Proof.
  unfold cr_optional_float. destruct (getd (data s) k); try done; [by intros [= <-]| |by intros [= <-]].
  destruct (_ <=? _); [done|by intros [= <-]].
Qed.

Lemma bind_lift {A B} (r : res A) (k : A -> M W B) w :
  bind (lift r) k w = match r with Ok a => k a w | Err e => (Err e, w) end.
Proof. unfold bind, lift. by destruct r. Qed.

(** What [prepare] builds is a valid request. *)
Lemma review_request_valid s w r w' :
  review_request float_ok registry s w = (Ok r, w') -> request_ok float_ok r.
Proof.
  unfold review_request. rewrite bind_lift. destruct (cr_required_str s "diff_text") as [diff|]; [|done].
  destruct (_ <? _); [done|]. rewrite bind_lift. destruct (cr_optional_str s "context"); [|done].
  rewrite bind_lift. destruct (cr_optional_str s "pr_title"); [|done].
  intros (reg & w1 & _ & H)%bind_inv_ok. apply bind_inv_ok in H as (asset & w2 & _ & H).
  rewrite bind_lift in H. destruct (cr_optional_str s "model"); [|done].
  rewrite bind_lift in H. destruct (cr_optional_float s "temperature") as [t|] eqn:Et; [|done].
  rewrite bind_lift in H. destruct (cr_optional_int s "max_tokens"); [|done]. unfold lift in H. injection H as H <-.
  pose proof (check_request_same _ _ _ H) as ->. split_and!; [done| |constructor|by eapply optional_float_shape].
  repeat constructor.
Qed.

Lemma review_node_shape s w fn r w' :
  fn = prepare \/ fn = review \/ fn = finalize -> fn s w = (Ok r, w') -> exists u, r = node_update u.
Proof.
  intros [->|[->| ->]].
  - unfold cr_prepare. intros (q & w1 & _ & [= <- _])%bind_inv_ok. by eexists.
  - unfold cr_review. destruct (getd _ _); try done. intros (q & w1 & _ & H)%bind_inv_ok.
    apply bind_inv_ok in H as (x & w2 & _ & H). apply bind_inv_ok in H as (y & w3 & _ & [= <- _]). by eexists.
  - unfold cr_finalize. destruct (getd (data s) "_llm_response"); try done. destruct (getd (data s) "_review"); try done.
    intros (q & w1 & _ & H)%bind_inv_ok. apply bind_inv_ok in H as (x & w2 & _ & [= <- _]). by eexists.
Qed.

Definition with_request (s : TaskRunState) (r : LLMRequest) : TaskRunState :=
  goto (advance s "prepare" [("_llm_request", JDict (request_dump r))] None None None) "review".
Definition with_review (s : TaskRunState) (resp : LLMResponse) (o : ReviewOutput) : TaskRunState :=
  goto (advance s "review" [("_llm_response", response_dump resp); ("_review", JDict (review_dump o))] None None None)
    "finalize".

Lemma run_review_prepare k s w :
  at_start s -> run review_graph (S k) s w =
  match review_request float_ok registry s w with
  | (Ok r, w') => run review_graph k (with_request s r) w'
  | (Err e, w') => (Err e, w')
  end.
Proof.
  intros Hs. rewrite (run_node review_graph "prepare" k "prepare" prepare s w (fun _ => "review"));
    [|done|by apply at_start_entry|done|done|intros; eapply review_node_shape; [by left|done]].
  unfold cr_prepare, bind. by destruct (review_request _ _ s w) as [[r|e] w'].
Qed.

Lemma run_review_review k s r w :
  awaiting_approval s = false -> request_ok float_ok r ->
  run review_graph (S k) (with_request s r) w =
  match llm r w with
  | (Ok resp, w') => match parse_review coerce_float in_unit json_loads (rs_content resp) with
                     | Ok o => run review_graph k (with_review (with_request s r) resp o) w'
                     | Err e => (Err e, w')
                     end
  | (Err e, w') => (Err e, w')
  end.
Proof.
  intros Ha Hr. rewrite (run_node review_graph "prepare" k "review" review _ w (fun _ => "finalize"));
    [|done|by apply at_node_goto|done|done|intros; eapply review_node_shape; [by right; left|done]].
  unfold cr_review.
  assert (getd (data (with_request s r)) "_llm_request" = JDict (request_dump r)) as ->
    by (unfold with_request; cbn [data goto advance]; by simp_dict).
  rewrite bind_lift, request_roundtrip by done. unfold bind at 1 2. destruct (llm r w) as [[resp|e] w']; [|done].
  unfold lift. by destruct (parse_review _ _ _ _).
Qed.

Lemma run_review_finalize k s r resp o w :
  awaiting_approval s = false -> response_ok resp -> review_ok o ->
  exists s', run review_graph (S k) (with_review (with_request s r) resp o) w = (Ok s', w) /\ finished s' = true /\
    getd (data s') "output" = JDict (project_output o resp).
Proof.
  intros Ha Hresp Ho.
  rewrite (run_node review_graph "prepare" k "finalize" finalize _ w (fun _ => END));
    [|done|by apply at_node_goto|done|done|intros; eapply review_node_shape; [by right; right|done]].
  unfold cr_finalize.
  assert (getd (data (with_review (with_request s r) resp o)) "_llm_response" = response_dump resp) as ->
    by (unfold with_review; cbn [data goto advance]; by simp_dict).
  assert (getd (data (with_review (with_request s r) resp o)) "_review" = JDict (review_dump o)) as ->
    by (unfold with_review; cbn [data goto advance]; by simp_dict).
  pose proof (response_roundtrip resp Hresp) as Er. destruct (response_dump resp) as [| | | | | |raw] eqn:Ed; try done.
  rewrite bind_lift, Er, bind_lift, review_roundtrip by done. cbv zeta. cbn [nr_data_update node_update ret].
  eexists. split; [by rewrite run_inactive|]. split; [done|]. cbn [data goto advance]. by simp_dict.
Qed.

End ReviewFacts.

(** ** A concrete review *)

Definition demo_reviews (t : string) : option json :=
  if String.eqb t "the json" then
    Some (JDict [("verdict", JStr "comment"); ("summary", JStr "Looks fine.");
      ("findings", JList [JDict [("category", JStr "style"); ("severity", JStr "info"); ("message", JStr "long line")]]);
      ("confidence", JInt 1)])
  else None.
Definition demo_coerce (v : json) : option json :=
  match v with JInt n => Some (JInt n) | JFloat f => Some (JFloat f) | _ => None end.
Definition demo_unit (v : json) : bool := match v with JInt n => (0 <=? n) && (n <=? 1) | _ => true end.
Definition demo_review_llm : LLMClient (list PromptAsset) := fun r =>
  ret (mkResponse (FENCE +:+ "json" +:+ newline +:+ "the json" +:+ newline +:+ FENCE +:+ newline) "m" "stop"
         no_usage [] None).
Definition demo_review_prompts : list PromptAsset :=
  [mkPromptAsset CODE_REVIEW_SYSTEM_PROMPT_ID 1 None CODE_REVIEW_SYSTEM None 0].
Definition demo_review_start : TaskRunState :=
  initial_state "t" "acme" "tr" CODE_REVIEW_GRAPH_ID [("diff_text", JStr "+ x"); ("pr_title", JStr "Add x")].

