(* ===== verification/GitProvider.v ===== *)
(** * GitProvider: publishing a branch as a pull request

    [core/ports/git_provider.py] and [infra/git_provider/]: the fake provider, the
    GitHub adapter with its retries, and the two decorators around it.  The HTTP
    client of the GitHub adapter is an oracle of its world [GH]; [float()] of a
    header is a parameter, and delays are microseconds. *)

From S2P Require Import Prelude PyText Domain GraphRuntime Results ShellAgent Breaker RateLimit LlmClients LlmFacts.

(** ** The port *)

Record PullRequestRef : Type := mkPullRequestRef {
  pr_provider : string; pr_pr_id : string; pr_url : string; pr_action : string;
  pr_head_branch : string; pr_base_ref : string; pr_head_commit_sha : string
}.

(** Field constraints of [PullRequestRef]. *)
Definition check_ref (r : PullRequestRef) : bool :=
  nonempty (pr_provider r) && nonempty (pr_pr_id r) && nonempty (pr_url r)
  && (String.eqb (pr_action r) "created" || String.eqb (pr_action r) "reused")
  && nonempty (pr_head_branch r) && nonempty (pr_base_ref r) && nonempty (pr_head_commit_sha r).

Definition make_ref (r : PullRequestRef) : res PullRequestRef :=
  if check_ref r then Ok r else Err (ValidationError "PullRequestRef").

(** The arguments of [open_or_reuse_pr]. *)
Record PrRequest : Type := mkPrRequest {
  pq_tenant_id : string; pq_trace_id : string; pq_repo_url : string; pq_base_ref : string;
  pq_head_branch : string; pq_head_commit_sha : string; pq_title : string; pq_body : string
}.

Definition GitProvider (W : Type) : Type := PrRequest -> M W PullRequestRef.

(** [isinstance(exc, GitProviderError)]. *)
Definition is_git_error (e : exn) : bool :=
  match e with
  | GitProviderError _ | GitProviderTransientError _ | GitProviderAuthError _
  | GitProviderInvalidRequestError _ => true
  | _ => false
  end.

(** ** [FakeGitProvider] *)

Record Fake : Type := mkFake {
  fk_open : gmap (string * string * string) PullRequestRef;
  fk_calls : list PrRequest;
  fk_next : nat;
  fk_ids : nat -> string
}.

Definition with_action (r : PullRequestRef) (action : string) : PullRequestRef :=
  mkPullRequestRef (pr_provider r) (pr_pr_id r) (pr_url r) action (pr_head_branch r) (pr_base_ref r)
    (pr_head_commit_sha r).

Definition fake_open_or_reuse_pr : GitProvider Fake := fun q f =>
  let f1 := mkFake (fk_open f) (fk_calls f ++ [q]) (fk_next f) (fk_ids f) in
  let key := (pq_tenant_id q, pq_repo_url q, pq_head_branch q) in
  match fk_open f !! key with
  | Some existing =>
      if String.eqb (pr_head_commit_sha existing) (pq_head_commit_sha q)
      then (Ok (with_action existing "reused"), f1)
      else (Err (GitProviderInvalidRequestError
              ("open fake PR on " +:+ pq_repo_url q +:+ ":" +:+ pq_head_branch q +:+
               " points at a different head sha")), f1)
  | None =>
      let pr_id := fk_ids f (fk_next f) in
      let f2 := mkFake (fk_open f) (fk_calls f ++ [q]) (S (fk_next f)) (fk_ids f) in
      match make_ref (mkPullRequestRef "fake" pr_id ("fake://fake/" +:+ pq_tenant_id q +:+ "/" +:+ pr_id)
                        "created" (pq_head_branch q) (pq_base_ref q) (pq_head_commit_sha q)) with
      | Ok ref => (Ok ref, mkFake (<[key := ref]> (fk_open f)) (fk_calls f ++ [q]) (S (fk_next f)) (fk_ids f))
      | Err e => (Err e, f2)
      end
  end.

(** ** Decorators *)

Section Decorators.
Context {W : Type} `{!HasContext W} (env : LlmEnv W).

Definition git_key (q : PrRequest) : string :=
  "git:" +:+ le_provider env +:+ ":tenant=" +:+ pq_tenant_id q +:+ ":repo=" +:+ pq_repo_url q.

Definition git_audit_deny (ctx : option RequestContext) (q : PrRequest) (key : string) (d : RateLimitDecision)
    : M W unit :=
  audit_denial env ctx "git.rate_limited.denied"
    [("provider", JStr (le_provider env)); ("repo_url", JStr (pq_repo_url q)); ("key", JStr key);
     ("retry_after_ms", opt_json JInt (rd_retry_after_ms d)); ("remaining", JInt (rd_remaining d))].

(** [RateLimitedGitProvider]. *)
Definition rate_limited_git (acquire : string -> M W RateLimitDecision) (fail_open : bool)
    (inner : GitProvider W) : GitProvider W := fun q =>
  let key := git_key q in
  decision <- try_except (d <- acquire key ;; ret (Some d))
    (fun e => match e with
     | RateLimiterBackendError => if fail_open then Some (ret None) else None
     | _ => None
     end) ;;
  match decision with
  | None => inner q
  | Some d =>
      if negb (rd_allowed d) then
        ctx <- get_current ;;
        git_audit_deny ctx q key d ;;;
        raise (GitProviderTransientError
          ("rate limit exceeded for " +:+ le_provider env +:+ " repo=" +:+ pq_repo_url q))
      else inner q
  end.

Definition git_should_count (e : exn) : bool :=
  match e with GitProviderInvalidRequestError _ | GitProviderAuthError _ => false | _ => true end.

Definition GitBreakerCall : Type := string -> M W PullRequestRef -> option (exn -> bool) -> M W PullRequestRef.

Definition git_audit_open (ctx : option RequestContext) (q : PrRequest) (key : string) (retry : option Z)
    : M W unit :=
  audit_denial env ctx "git.circuit_breaker.open"
    [("provider", JStr (le_provider env)); ("repo_url", JStr (pq_repo_url q)); ("key", JStr key);
     ("retry_after_ms", opt_json JInt retry)].

(** [CircuitBreakingGitProvider]; the key of the open error is the key called. *)
Definition circuit_breaking_git (call : GitBreakerCall) (fail_open : bool) (inner : GitProvider W)
    : GitProvider W := fun q =>
  let key := git_key q in
  try_except (call key (inner q) (Some git_should_count))
    (fun e => match e with
     | CircuitBreakerOpenError retry => Some (
         ctx <- get_current ;;
         git_audit_open ctx q key retry ;;;
         raise (GitProviderTransientError
           ("upstream circuit breaker open for " +:+ le_provider env +:+ " repo=" +:+ pq_repo_url q)))
     | CircuitBreakerBackendError => if fail_open then Some (inner q) else None
     | _ => None
     end).

(** The stack of [worker/bootstrap.py]: the limiter outside, the breaker inside. *)
Definition git_stack (acquire : string -> M W RateLimitDecision) (call : GitBreakerCall)
    (limiter_fail_open breaker_fail_open : bool) (provider : GitProvider W) : GitProvider W :=
  rate_limited_git acquire limiter_fail_open (circuit_breaking_git call breaker_fail_open provider).
End Decorators.

(** ** Repository URLs *)

(** [$] matches at the end and before a final newline. *)
Definition at_end (s : string) : bool := String.eqb s "" || String.eqb s newline.

(** The lazy group and its suffix: the shortest non-empty slash-free prefix whose
    rest is one of the optional suffixes. *)
Fixpoint lazy_repo (tails : list string) (acc s : string) : option string :=
  match s with
  | EmptyString => None
  | String c s' =>
      if char_is 47 c then None
      else
        let acc' := acc +:+ String c "" in
        if existsb (fun t => match str_drop_prefix t s' with Some r => at_end r | None => false end) tails
        then Some acc' else lazy_repo tails acc' s'
  end.

(** A non-empty run of characters other than [stop], which must follow it. *)
Definition run_until (stop : nat) (s : string) : option (string * string) :=
  let '(a, b) := str_span (fun c => negb (char_is stop c)) s in
  match b with
  | String _ b' => if nonempty a then Some (a, b') else None
  | EmptyString => None
  end.

Definition match_https (url : string) : option (string * string) :=
  rest ← match str_drop_prefix "https://" url with
         | Some r => Some r
         | None => str_drop_prefix "http://" url
         end;
  '(_, rest) ← run_until 47 rest;
  '(owner, rest) ← run_until 47 rest;
  repo ← lazy_repo [".git/"; ".git"; "/"; ""] "" rest;
  Some (owner, repo).

Definition match_ssh (url : string) : option (string * string) :=
  rest ← str_drop_prefix "git@" url;
  '(_, rest) ← run_until 58 rest;
  '(owner, rest) ← run_until 47 rest;
  repo ← lazy_repo [".git"; ""] "" rest;
  Some (owner, repo).

Definition parse_repo_url (url : string) : res (string * string) :=
  match match_https url with
  | Some x => Ok x
  | None => match match_ssh url with
            | Some x => Ok x
            | None => Err (GitProviderInvalidRequestError ("unsupported repo_url shape: " +:+ py_repr_str url))
            end
  end.

Example parse_repo_url_examples :
  map parse_repo_url ["https://github.com/o/r"; "https://ghe.example/o/r.git/"; "git@github.com:o/r.git";
                      "http://h/o/r.git.git"] =
  [Ok ("o", "r"); Ok ("o", "r"); Ok ("o", "r"); Ok ("o", "r.git")] /\
  parse_repo_url "https://github.com/o/r/tree" =
    Err (GitProviderInvalidRequestError "unsupported repo_url shape: 'https://github.com/o/r/tree'").
Proof. split; vm_compute; reflexivity. Qed.

(** ** [GitHubGitProvider] *)

Record GhRequest : Type := mkGhRequest {
  gq_method : string; gq_path : string; gq_params : list (string * string); gq_json : option dict
}.

Record GhResponse : Type := mkGhResponse {
  gr_status : Z;
  gr_headers : list (string * string);
  (** [response.json()]; the text of its [ValueError] otherwise. *)
  gr_json : string + json
}.

(** A response, a timeout or transport error with its class, or any other
    exception of the client. *)
Inductive GhReply : Type :=
  | Response (r : GhResponse)
  | Transport (cls : string)
  | ClientRaises (e : exn).

Record GH : Type := mkGH {
  gh_log : list GhRequest; gh_sleeps : list Z; gh_reply : nat -> GhRequest -> GhReply
}.

Definition gh_send (q : GhRequest) : M GH GhReply := fun w =>
  (Ok (gh_reply w (length (gh_log w)) q), mkGH (gh_log w ++ [q]) (gh_sleeps w) (gh_reply w)).
Definition gh_sleep (d : Z) : M GH unit := fun w =>
  (Ok tt, mkGH (gh_log w) (gh_sleeps w ++ [d]) (gh_reply w)).

Record GitHubConfig : Type := mkGitHubConfig {
  gc_token : string; gc_max_retries : Z; gc_initial_backoff : Z; gc_max_backoff : Z
}.

Definition github_init (config : GitHubConfig) : res GitHubConfig :=
  if nonempty (gc_token config) then Ok config
  else Err (ValueError "GitHubGitProviderConfig.token is required").

Section GitHub.
Context (config : GitHubConfig) (float_micros : string -> option Z).

Definition classify_4xx (status : Z) : exn :=
  if status =? 401 then GitProviderAuthError ("github auth failed: " +:+ pretty status)
  else if status =? 403 then GitProviderAuthError ("github auth failed: " +:+ pretty status)
  else if existsb (Z.eqb status) [400; 404; 422]
  then GitProviderInvalidRequestError ("github rejected request: " +:+ pretty status)
  else GitProviderError ("github unexpected status: " +:+ pretty status).

Definition read_retry_after (r : GhResponse) : option Z :=
  raw ← dget (gr_headers r) "retry-after"; float_micros raw.

Definition looks_like_secondary_rate_limit (r : GhResponse) : bool :=
  match dget (gr_headers r) "retry-after" with
  | Some _ => true
  | None =>
      bool_decide (dget (gr_headers r) "x-ratelimit-remaining" = Some "0") ||
      match gr_json r with
      | inr (JDict body) =>
          match getd body "message" with
          | JStr m => let lowered := py_lower m in
                      str_contains "secondary rate limit" lowered || str_contains "abuse detection" lowered
          | _ => false
          end
      | _ => false
      end
  end.

Definition maybe_backoff (attempt attempts : nat) (retry_after : option Z) : M GH unit :=
  if Nat.leb attempts (attempt + 1) then ret tt
  else gh_sleep (match retry_after with
                 | Some d => Z.min d (gc_max_backoff config)
                 | None => Z.min (gc_initial_backoff config * 2 ^ Z.of_nat attempt) (gc_max_backoff config)
                 end).

(** The loop of [_send_with_retry]: [left] attempts remain of [attempts]. *)
Fixpoint retry_loop (q : GhRequest) (attempts left : nat) (last_error : option exn) : M GH GhResponse :=
  match left with
  | O => raise (default AssertionError last_error)
  | S left' =>
      let attempt := (attempts - left)%nat in
      reply <- gh_send q ;;
      match reply with
      | ClientRaises e => raise e
      | Transport cls =>
          maybe_backoff attempt attempts None ;;;
          retry_loop q attempts left' (Some (GitProviderTransientError ("github transport: " +:+ cls)))
      | Response r =>
          let status := gr_status r in
          if (200 <=? status) && (status <? 300) then ret r
          else if (status =? 403) && looks_like_secondary_rate_limit r then
            maybe_backoff attempt attempts (read_retry_after r) ;;;
            retry_loop q attempts left'
              (Some (GitProviderTransientError "github transient status: 403-secondary-rate-limit"))
          else if (status =? 429) || ((500 <=? status) && (status <? 600)) then
            maybe_backoff attempt attempts (if status =? 429 then read_retry_after r else None) ;;;
            retry_loop q attempts left'
              (Some (GitProviderTransientError ("github transient status: " +:+ pretty status)))
          else raise (classify_4xx status)
      end
  end.

Definition send_with_retry (q : GhRequest) : M GH GhResponse :=
  let attempts := Z.to_nat (gc_max_retries config + 1) in retry_loop q attempts attempts None.

Definition decode_json (r : GhResponse) : res json :=
  match gr_json r with
  | inr j => Ok j
  | inl msg => Err (GitProviderError ("github response invalid JSON: " +:+ msg))
  end.

Definition pulls_path (owner repo : string) : string := "/repos/" +:+ owner +:+ "/" +:+ repo +:+ "/pulls".

Definition search_request (owner repo head_branch : string) : GhRequest :=
  mkGhRequest "GET" (pulls_path owner repo)
    [("head", owner +:+ ":" +:+ head_branch); ("state", "open"); ("per_page", "1")] None.

Definition search_open_pr (owner repo head_branch : string) : M GH (option dict) :=
  response <- send_with_retry (search_request owner repo head_branch) ;;
  body <- lift (decode_json response) ;;
  match body with
  | JList [] => ret None
  | JList (JDict first :: _) => ret (Some first)
  | JList _ => raise (GitProviderError "github pulls list element is not an object")
  | _ => raise (GitProviderError "github pulls list response is not an array")
  end.

Definition create_request (owner repo : string) (q : PrRequest) : GhRequest :=
  mkGhRequest "POST" (pulls_path owner repo) []
    (Some [("title", JStr (pq_title q)); ("body", JStr (pq_body q)); ("head", JStr (pq_head_branch q));
           ("base", JStr (pq_base_ref q))]).

Definition create_pr (owner repo : string) (q : PrRequest) : M GH dict :=
  response <- send_with_retry (create_request owner repo q) ;;
  decoded <- lift (decode_json response) ;;
  match decoded with
  | JDict d => ret d
  | _ => raise (GitProviderError "github create-pr response is not an object")
  end.

(** [isinstance(number, int)] holds of a [bool] too. *)
Definition int_str (j : json) : option string :=
  match j with JInt n => Some (pretty n) | JBool b => Some (if b then "True" else "False") | _ => None end.

Definition build_ref (payload : dict) (action : string) (q : PrRequest) : res PullRequestRef :=
  match int_str (getd payload "number"), as_nonempty_str (getd payload "html_url") with
  | Some number, Some url =>
      make_ref (mkPullRequestRef "github" number url action (pq_head_branch q) (pq_base_ref q)
                  (pq_head_commit_sha q))
  | _, _ => Err (GitProviderError "github response missing required PR identifier fields")
  end.

(** [existing.get("head", {}).get("sha")]. *)
Definition head_sha (existing : dict) : res json :=
  match default (JDict []) (dget existing "head") with
  | JDict h => Ok (getd h "sha")
  | _ => Err (ExternalError "AttributeError")
  end.

Definition github_open_or_reuse_pr : GitProvider GH := fun q =>
  names <- lift (parse_repo_url (pq_repo_url q)) ;;
  let '(owner, repo) := names in
  existing <- search_open_pr owner repo (pq_head_branch q) ;;
  match existing with
  | Some pr =>
      sha <- lift (head_sha pr) ;;
      if is_str sha (pq_head_commit_sha q) then lift (build_ref pr "reused" q)
      else raise (GitProviderInvalidRequestError
             ("open PR " +:+ py_repr (getd pr "number") +:+ " on " +:+ owner +:+ "/" +:+ repo +:+ ":" +:+
              pq_head_branch q +:+ " points at a different head sha; v1 does not update upstream PRs"))
  | None =>
      created <- create_pr owner repo q ;;
      lift (build_ref created "created" q)
  end.
End GitHub.

(** ** Facts about the GitHub adapter *)

Section GitHubFacts.
Context (config : GitHubConfig) (float_micros : string -> option Z).

(** [k] copies of [q] were sent, with the pauses [sl] in between. *)
Definition sent (q : GhRequest) (k : nat) (sl : list Z) (w w' : GH) : Prop :=
  gh_log w' = gh_log w ++ replicate k q /\ gh_sleeps w' = gh_sleeps w ++ sl /\ gh_reply w' = gh_reply w /\
  Forall (fun d => d <= gc_max_backoff config) sl.

Lemma sent_trans q k1 k2 s1 s2 w w1 w2 :
  sent q k1 s1 w w1 -> sent q k2 s2 w1 w2 -> sent q (k1 + k2) (s1 ++ s2) w w2.
Proof.
  intros (L1 & S1 & R1 & F1) (L2 & S2 & R2 & F2). split_and!.
  - by rewrite L2, L1, <- app_assoc, replicate_add.
  - by rewrite S2, S1, <- app_assoc.
  - congruence.
  - by apply Forall_app.
Qed.

Lemma backoff_sent q attempt attempts ra w :
  exists sl w', maybe_backoff config attempt attempts ra w = (Ok tt, w') /\ sent q 0 sl w w' /\
    (length sl <= if Nat.leb attempts (attempt + 1) then 0 else 1)%nat.
Proof.
  unfold maybe_backoff. destruct (Nat.leb attempts (attempt + 1)).
  - exists [], w. split_and!; [done| |done]. split_and!; by rewrite ?app_nil_r.
  - eexists [_], _. split_and!; [done| |done]. split_and!; cbn; rewrite ?app_nil_r; try done.
    constructor; [destruct ra; lia|constructor].
Qed.

(** The retry loop: at most the attempts left, a pause only before another one,
    every pause within the maximum, and a response only if it is a success. *)
Lemma retry_loop_run q attempts left err w r w' :
  (left <= attempts)%nat -> retry_loop config float_micros q attempts left err w = (r, w') ->
  exists k sl, sent q k sl w w' /\ (k <= left)%nat /\ (length sl <= left - 1)%nat /\
    forall resp, r = Ok resp -> 200 <= gr_status resp < 300 /\ (0 < k)%nat.
Proof.
  revert err w. induction left as [|left IH]; intros err w Hle.
  { intros [= <- <-]. exists 0%nat, []. split_and!; [split_and!; by rewrite ?app_nil_r|lia|cbn; lia|done]. }
  cbn [retry_loop]. unfold bind at 1, gh_send.
  set (w1 := mkGH _ _ _). assert (Hw1 : sent q 1 [] w w1) by (split_and!; cbn; by rewrite ?app_nil_r).
  assert (Hone : forall resp, (Ok resp : res GhResponse, w1) = (r, w') -> 200 <= gr_status resp < 300 ->
    exists k sl, sent q k sl w w' /\ (k <= S left)%nat /\ (length sl <= S left - 1)%nat /\
      forall resp, r = Ok resp -> 200 <= gr_status resp < 300 /\ (0 < k)%nat).
  { intros resp [= <- <-] Hst. exists 1%nat, []. split_and!; [done|lia|cbn; lia|].
    intros resp' [= <-]. split; [done|lia]. }
  assert (Herr : forall e, (Err e : res GhResponse, w1) = (r, w') ->
    exists k sl, sent q k sl w w' /\ (k <= S left)%nat /\ (length sl <= S left - 1)%nat /\
      forall resp, r = Ok resp -> 200 <= gr_status resp < 300 /\ (0 < k)%nat).
  { intros e [= <- <-]. exists 1%nat, []. split_and!; [done|lia|cbn; lia|done]. }
  assert (Hagain : forall ra e,
    (maybe_backoff config (attempts - S left) attempts ra ;;;
     retry_loop config float_micros q attempts left e) w1 = (r, w') ->
    exists k sl, sent q k sl w w' /\ (k <= S left)%nat /\ (length sl <= S left - 1)%nat /\
      forall resp, r = Ok resp -> 200 <= gr_status resp < 300 /\ (0 < k)%nat).
  { intros ra e. unfold bind. destruct (backoff_sent q (attempts - S left) attempts ra w1) as (sl & w2 & -> & Hs & Hl).
    intros E. destruct (IH e w2 ltac:(lia) E) as (k & sl' & Hs' & Hk & Hl' & Hr).
    exists (1 + (0 + k))%nat, ([] ++ (sl ++ sl')). split_and!.
    - apply sent_trans with w1; [done|]. by apply sent_trans with w2.
    - lia.
    - cbn. rewrite length_app. destruct (Nat.leb_spec attempts (attempts - S left + 1)); lia.
    - intros resp Hx. destruct (Hr resp Hx). lia. }
  destruct (gh_reply w (length (gh_log w)) q) as [resp|cls|e]; [|apply Hagain|apply Herr].
  destruct (Z.leb_spec 200 (gr_status resp)) as [Hlo|_]; cbn [andb];
    [destruct (Z.ltb_spec (gr_status resp) 300) as [Hhi|_]; [intros E; by apply (Hone resp)|]|];
    (destruct ((gr_status resp =? 403) && _); [apply Hagain|];
     destruct ((gr_status resp =? 429) || _); [apply Hagain|apply Herr]).
Qed.

Lemma send_run q w r w' :
  send_with_retry config float_micros q w = (r, w') ->
  exists k sl, sent q k sl w w' /\ (k <= Z.to_nat (gc_max_retries config + 1))%nat /\
    (length sl <= Z.to_nat (gc_max_retries config))%nat /\
    forall resp, r = Ok resp -> 200 <= gr_status resp < 300 /\ (0 < k)%nat.
Proof.
  intros E. apply retry_loop_run in E as (k & sl & Hs & Hk & Hl & Hr); [|done].
  exists k, sl. split_and!; try done. lia.
Qed.

Notation N := (Z.to_nat (gc_max_retries config + 1)).
Notation P := (Z.to_nat (gc_max_retries config)).

Lemma search_run owner repo head w r w' :
  search_open_pr config float_micros owner repo head w = (r, w') ->
  exists a sl, sent (search_request owner repo head) a sl w w' /\ (a <= N)%nat /\ (length sl <= P)%nat.
Proof.
  unfold search_open_pr, bind at 1.
  destruct (send_with_retry config float_micros _ w) as [x w1] eqn:E1.
  destruct (send_run _ _ _ _ E1) as (k & sl & Hs & Hk & Hl & _). intros E.
  assert (w' = w1) as ->; [|by eauto].
  destruct x as [resp|e]; [|by injection E]. unfold bind, lift in E.
  destruct (decode_json resp) as [j|e]; [|by injection E].
  destruct j as [| | | | |[|[] ?]|]; by injection E.
Qed.

Lemma create_run owner repo q w r w' :
  create_pr config float_micros owner repo q w = (r, w') ->
  exists b sl, sent (create_request owner repo q) b sl w w' /\ (b <= N)%nat /\ (length sl <= P)%nat /\
    forall d, r = Ok d -> (0 < b)%nat.
Proof.
  unfold create_pr, bind at 1.
  destruct (send_with_retry config float_micros _ w) as [x w1] eqn:E1.
  destruct (send_run _ _ _ _ E1) as (k & sl & Hs & Hk & Hl & Hr). intros E.
  assert (w' = w1 /\ forall d, r = Ok d -> exists resp, x = Ok resp) as [-> Hx].
  { destruct x as [resp|e]; [|by injection E as <- <-]. unfold bind, lift in E. split; [|by eauto].
    destruct (decode_json resp) as [j|e]; [|by injection E]. by destruct j; injection E. }
  exists k, sl. split_and!; try done. intros d Hd. destruct (Hx d Hd) as [resp ->]. by apply (Hr resp).
Qed.

Lemma build_ref_fields payload action q ref :
  build_ref payload action q = Ok ref ->
  pr_head_branch ref = pq_head_branch q /\ pr_head_commit_sha ref = pq_head_commit_sha q /\ pr_action ref = action.
Proof.
  unfold build_ref. destruct (int_str _); [|done]. destruct (as_nonempty_str _); [|done].
  unfold make_ref. destruct (check_ref _); [|done]. by intros [= <-].
Qed.

(** What one call may have done: [a] searches, then [b] creations, and what the
    reference it returns stands for. *)
Definition publish_effect (q : PrRequest) (w : GH) (r : res PullRequestRef) (w' : GH) : Prop :=
  exists owner repo a b sl,
    gh_log w' = gh_log w ++ replicate a (search_request owner repo (pq_head_branch q))
                  ++ replicate b (create_request owner repo q) /\
    (parse_repo_url (pq_repo_url q) = Ok (owner, repo) \/ (a + b = 0)%nat) /\
    (a <= N)%nat /\ (b <= N)%nat /\
    gh_sleeps w' = gh_sleeps w ++ sl /\ Forall (fun d => d <= gc_max_backoff config) sl /\
    (length sl <= 2 * P)%nat /\
    ((0 < b)%nat -> (search_open_pr config float_micros owner repo (pq_head_branch q) w).1 = Ok None) /\
    forall ref, r = Ok ref ->
      pr_head_branch ref = pq_head_branch q /\ pr_head_commit_sha ref = pq_head_commit_sha q /\
      ((b = 0%nat /\ exists pr sha, head_sha pr = Ok sha /\ is_str sha (pq_head_commit_sha q) = true /\
          build_ref pr "reused" q = Ok ref) \/
       ((0 < b)%nat /\ exists created, build_ref created "created" q = Ok ref)).

Lemma effect_search q w r w1 owner repo a sl :
  parse_repo_url (pq_repo_url q) = Ok (owner, repo) ->
  sent (search_request owner repo (pq_head_branch q)) a sl w w1 -> (a <= N)%nat -> (length sl <= P)%nat ->
  (forall ref, r = Ok ref -> exists pr sha, head_sha pr = Ok sha /\
     is_str sha (pq_head_commit_sha q) = true /\ build_ref pr "reused" q = Ok ref) ->
  publish_effect q w r w1.
Proof.
  intros Hp (L & S & _ & F) Ha Hl Hr. exists owner, repo, a, 0%nat, sl. rewrite app_nil_r.
  split_and!; try done; [by left|lia|lia|lia|]. intros ref Hx. destruct (Hr ref Hx) as (pr & sha & H1 & H2 & H3).
  destruct (build_ref_fields _ _ _ _ H3) as (? & ? & _). split_and!; [done..|]. left. split; [done|].
  by exists pr, sha.
Qed.

Lemma effect_create q w r w1 w2 owner repo a b sl sl' :
  parse_repo_url (pq_repo_url q) = Ok (owner, repo) ->
  sent (search_request owner repo (pq_head_branch q)) a sl w w1 -> (a <= N)%nat -> (length sl <= P)%nat ->
  sent (create_request owner repo q) b sl' w1 w2 -> (b <= N)%nat -> (length sl' <= P)%nat ->
  (search_open_pr config float_micros owner repo (pq_head_branch q) w).1 = Ok None ->
  (forall ref, r = Ok ref -> (0 < b)%nat /\ exists created, build_ref created "created" q = Ok ref) ->
  publish_effect q w r w2.
Proof.
  intros Hp (L & S & _ & F) Ha Hl (L' & S' & _ & F') Hb Hl' Hnone Hr. exists owner, repo, a, b, (sl ++ sl').
  rewrite L', L, S', S, <- !app_assoc. split_and!; try done; [by left|by apply Forall_app|rewrite length_app; lia|].
  intros ref Hx. destruct (Hr ref Hx) as (H1 & created & H2).
  destruct (build_ref_fields _ _ _ _ H2) as (? & ? & _). split_and!; [done..|]. right. split; [done|].
  by exists created.
Qed.

(** Publishing through GitHub.  One call sends searches and then, only after a
    search answered with an empty list, creations, at most [max_retries + 1] of
    each, and never pauses longer than the configured maximum; the reference it
    returns is for the caller's branch and commit, with the identifiers of the
    response it came from; it says [reused] only of an open pull request whose
    head is the caller's commit, without having sent a creation, and [created]
    only after one. *)
Theorem github_publish_spec q w r w' :
  github_open_or_reuse_pr config float_micros q w = (r, w') -> publish_effect q w r w'.
Proof.
  unfold github_open_or_reuse_pr, bind at 1, lift at 1.
  destruct (parse_repo_url (pq_repo_url q)) as [[owner repo]|e] eqn:Ep.
  2:{ intros [= <- <-]. exists "", "", 0%nat, 0%nat, []. rewrite !app_nil_r.
      split_and!; try done; cbn; [by right|lia..]. }
  unfold bind at 1. destruct (search_open_pr config float_micros owner repo _ w) as [x w1] eqn:E1.
  destruct (search_run _ _ _ _ _ _ E1) as (a & sl & Hs & Ha & Hl).
  destruct x as [[pr|]|e].
  - unfold bind, lift. destruct (head_sha pr) as [sha|e] eqn:Eh.
    + destruct (is_str sha (pq_head_commit_sha q)) eqn:Ei; intros [= <- <-];
        eapply effect_search; try done. intros ref Hx. by exists pr, sha.
    + intros [= <- <-]. by eapply effect_search.
  - unfold bind at 1. destruct (create_pr config float_micros owner repo q w1) as [y w2] eqn:E2.
    destruct (create_run _ _ _ _ _ _ E2) as (b & sl' & Hs' & Hb & Hl' & Hpos).
    destruct y as [created|e]; intros [= <- <-]; eapply effect_create; try done; try (by rewrite E1).
    intros ref Hx. split; [by apply (Hpos created)|by exists created].
  - intros [= <- <-]. by eapply effect_search.
Qed.
End GitHubFacts.

(** ** Facts about the decorators and the fake *)

Section DecoratorFacts.
Context {W : Type} `{!HasContext W} (env : LlmEnv W).

Lemma circuit_breaking_git_once call fo `{!CircuitBreakerPort call} :
  at_most_once no_breaker_error (circuit_breaking_git env call fo).
Proof.
  intros q w. unfold circuit_breaking_git.
  destruct (cb_once (git_key env q) (Some git_should_count) w) as [(e & w' & Ho)|(w1 & K & HK)].
  - unfold try_except. destruct e; try (left; eexists _, _; intros inner _; by rewrite Ho).
    + left. edestruct (audit_raises (R := PrRequest) (A := PullRequestRef) (W := W) no_breaker_error) as (e' & w2 & H).
      exists e', w2. intros inner Hi. rewrite Ho. exact (H inner Hi).
    + destruct fo; [|left; eexists _, _; intros inner _; by rewrite Ho].
      right. exists w', (fun x => x). intros inner _. by rewrite Ho.
  - right. exists w1, K. intros inner Hi. destruct (HK (inner q)) as [E T]. split; [|exact T].
    unfold try_except. rewrite E. specialize (Hi q w1). destruct (inner q w1) as [o1 wa].
    destruct (K (o1, wa)) as [o2 wb]. simpl in T. subst o2. destruct o1 as [a|e]; [done|].
    specialize (Hi e wa eq_refl). by destruct e.
Qed.

Lemma rate_limited_git_once acquire lo : at_most_once (fun _ => True) (rate_limited_git env acquire lo).
Proof.
  intros q w. unfold rate_limited_git, bind, try_except, ret.
  destruct (acquire (git_key env q) w) as [[d|e] w1].
  - destruct (negb (rd_allowed d)); [left; by apply audit_raises|]. right. by exists w1, (fun x => x).
  - destruct e; try (left; by eexists _, _). destruct lo; [|left; by eexists _, _].
    right. by exists w1, (fun x => x).
Qed.

(** One publication is at most one provider call.  For every breaker that
    keeps the promise of its port, a call through the limiter and the breaker
    either raises without consulting the provider, or is a function of a single
    provider call and hands back its outcome unchanged. *)
Theorem git_provider_at_most_once acquire call `{!CircuitBreakerPort call} lo bo :
  at_most_once no_breaker_error (git_stack env acquire call lo bo).
Proof.
  unfold git_stack. eapply (at_most_once_compose (fun _ => True)).
  - apply rate_limited_git_once.
  - by apply circuit_breaking_git_once.
  - done.
Qed.
End DecoratorFacts.

(** Publishing the same commit again returns the same pull request; a different
    commit on the same branch is refused, and another tenant is not affected. *)
Lemma fake_open_twice q f ref f1 :
  fake_open_or_reuse_pr q f = (Ok ref, f1) ->
  (exists f2, fake_open_or_reuse_pr q f1 = (Ok (with_action ref "reused"), f2) /\ fk_open f2 = fk_open f1) /\
  (forall k, k <> (pq_tenant_id q, pq_repo_url q, pq_head_branch q) -> fk_open f1 !! k = fk_open f !! k) /\
  (forall sha t b, sha <> pq_head_commit_sha q ->
     exists m f2, fake_open_or_reuse_pr (mkPrRequest (pq_tenant_id q) (pq_trace_id q) (pq_repo_url q)
       (pq_base_ref q) (pq_head_branch q) sha t b) f1 = (Err (GitProviderInvalidRequestError m), f2)).
Proof.
  unfold fake_open_or_reuse_pr at 1. destruct (fk_open f !! _) as [old|] eqn:Eo.
  - destruct (String.eqb_spec (pr_head_commit_sha old) (pq_head_commit_sha q)) as [Hs|]; [|done].
    intros [= <- <-]. unfold fake_open_or_reuse_pr. cbn. rewrite Eo. split_and!.
    + rewrite Hs, String.eqb_refl. by eexists.
    + done.
    + intros sha t b Hne. destruct (String.eqb_spec (pr_head_commit_sha old) sha); [congruence|].
      by eexists _, _.
  - unfold make_ref. destruct (check_ref _); [|done]. intros [= <- <-]. unfold fake_open_or_reuse_pr. cbn.
    rewrite lookup_insert_eq. cbn. split_and!.
    + rewrite String.eqb_refl. by eexists.
    + intros k Hk. by rewrite lookup_insert_ne.
    + intros sha t b Hne. cbn.
      destruct (String.eqb_spec (pq_head_commit_sha q) sha); [congruence|]. by eexists _, _.
Qed.

(** A creation whose reply is lost is sent again: GitHub answers that the pull
    request exists, and the caller is told its request was invalid. *)
Definition demo_reply (n : nat) (q : GhRequest) : GhReply :=
  match n with
  | 0%nat => Response (mkGhResponse 200 [] (inr (JList [])))
  | 1%nat => Transport "ReadTimeout"
  | _ => Response (mkGhResponse 422 [] (inr (JDict [("message", JStr "A pull request already exists")])))
  end.
Definition demo_pr : PrRequest := mkPrRequest "acme" "tr" "https://github.com/o/r" "main" "fix" "c0ffee" "T" "B".
Definition demo_github : GitHubConfig := mkGitHubConfig "token" 2 500000 8000000.

Lemma lost_create_reported_invalid :
  (github_open_or_reuse_pr demo_github (fun _ => None) demo_pr (mkGH [] [] demo_reply)).1 =
    Err (GitProviderInvalidRequestError "github rejected request: 422") /\
  map gq_method (gh_log (github_open_or_reuse_pr demo_github (fun _ => None) demo_pr (mkGH [] [] demo_reply)).2) =
    ["GET"; "POST"; "POST"].
Proof. split; vm_compute; reflexivity. Qed.

Lemma github_publish_spec_witness :
  publish_effect demo_github (fun _ => None) demo_pr (mkGH [] [] demo_reply)
    (github_open_or_reuse_pr demo_github (fun _ => None) demo_pr (mkGH [] [] demo_reply)).1
    (github_open_or_reuse_pr demo_github (fun _ => None) demo_pr (mkGH [] [] demo_reply)).2.
Proof.
  apply (github_publish_spec demo_github (fun _ => None) demo_pr (mkGH [] [] demo_reply)).
  apply surjective_pairing.
Defined.
