(* ===== verification/OpenRouter.v ===== *)
(** * OpenRouter: the LLM provider

    [infra/llm/openrouter.py] and [infra/llm/config.py]: the request body, the
    decoding of a reply with its tool calls, the cost in micro-dollars, the
    classification of failures and the retry loop.  The HTTP peer, the log of
    requests and the pauses are those of [GitProvider.GH].

    [json.loads] and [json.dumps] and [float()] of a header are parameters, and
    delays are milliseconds.  Of [decimal] the default context is modelled: 28
    digits, the traps for invalid operations and overflow. *)

From S2P Require Import Prelude PyText Domain GraphRuntime Results ShellAgent Breaker RateLimit LlmClients LlmFacts GitProvider.

(** ** [decimal.Decimal] *)

Inductive Decimal : Type :=
  | DFin (neg : bool) (coeff exponent : Z)
  | DInf (neg : bool)
  | DNaN.

Definition InvalidOperation : exn := ExternalError "decimal.InvalidOperation".
Definition DecimalOverflow : exn := ExternalError "decimal.Overflow".

Fixpoint drop_underscores (s : string) : string :=
  match s with
  | EmptyString => ""
  | String c s' => if char_is 95 c then drop_underscores s' else String c (drop_underscores s')
  end.

(** A run of digits: its value, its length and the rest. *)
Fixpoint read_digits (acc : Z) (n : nat) (s : string) : Z * nat * string :=
  match s with
  | String c s' =>
      if is_digit c then read_digits (10 * acc + Z.of_nat (Ascii.nat_of_ascii c - 48)) (S n) s'
      else (acc, n, s)
  | EmptyString => (acc, n, "")
  end.

Definition read_sign (s : string) : bool * string :=
  match s with
  | String c s' => if char_is 45 c then (true, s') else if char_is 43 c then (false, s') else (false, s)
  | EmptyString => (false, "")
  end.

(** [e] and a signed number, up to the end. *)
Definition read_exponent (s : string) : option Z :=
  match s with
  | EmptyString => Some 0
  | String c s' =>
      if char_is 101 c then
        let '(neg, t) := read_sign s' in
        let '(v, n, rest) := read_digits 0 0 t in
        if Nat.eqb n 0 || nonempty rest then None else Some (if neg then - v else v)
      else None
  end.

(** [Decimal(text)]; [None] where the constructor raises [InvalidOperation]. *)
Definition decimal_of_text (text : string) : option Decimal :=
  let '(neg, t) := read_sign (py_lower (drop_underscores (py_strip text))) in
  if String.eqb t "inf" || String.eqb t "infinity" then Some (DInf neg)
  else if String.prefix "nan" t || String.prefix "snan" t then
    let payload := match str_drop_prefix "nan" t with Some p => Some p | None => str_drop_prefix "snan" t end in
    match payload with
    | Some p => let '(_, _, rest) := read_digits 0 0 p in if nonempty rest then None else Some DNaN
    | None => None
    end
  else
    let '(whole, n, rest) := read_digits 0 0 t in
    let '(coeff, m, rest') := match str_drop_prefix "." rest with
                              | Some r => read_digits whole 0 r
                              | None => (whole, O, rest)
                              end in
    if Nat.eqb (n + m) 0 then None
    else (fun e => DFin neg coeff (e - Z.of_nat m)) <$> read_exponent rest'.

Definition PRECISION : Z := 28.
Definition EMAX : Z := 999999.
Definition digits (c : Z) : Z := Z.of_nat (String.length (pretty c)).

Definition round_half_even (c k : Z) : Z :=
  let q := c / 10 ^ k in let r := c mod 10 ^ k in
  if 2 * r <? 10 ^ k then q else if 10 ^ k <? 2 * r then q + 1 else if Z.even q then q else q + 1.

(** The result of an operation brought to the precision of the context. *)
Definition finalise (neg : bool) (c e : Z) : res Decimal :=
  let '(c', e') :=
    if digits c <=? PRECISION then (c, e)
    else let k := digits c - PRECISION in
         let q := round_half_even c k in
         if PRECISION <? digits q then (q / 10, e + k + 1) else (q, e + k) in
  if negb (c' =? 0) && (EMAX <? e' + digits c' - 1) then Err DecimalOverflow else Ok (DFin neg c' e').

(** [cost * Decimal("1000000")]. *)
Definition times_million (d : Decimal) : res Decimal :=
  match d with
  | DFin neg c e => finalise neg (c * 1000000) e
  | DInf neg => Ok (DInf neg)
  | DNaN => Ok DNaN
  end.

(** [.quantize(Decimal("1"), rounding=ROUND_HALF_UP)] and [int]. *)
Definition quantize_int (d : Decimal) : res Z :=
  match d with
  | DFin neg c e =>
      let fits v := if digits v <=? PRECISION then Ok (if neg then - v else v) else Err InvalidOperation in
      if 0 <=? e then
        if c =? 0 then Ok 0
        else if digits c + e <=? PRECISION then fits (c * 10 ^ e) else Err InvalidOperation
      else let p := 10 ^ (- e) in fits (if p <=? 2 * (c mod p) then c / p + 1 else c / p)
  | DInf _ => Err InvalidOperation
  | DNaN => Err (ValueError "cannot convert NaN to integer")
  end.

(** [cost < 0]: an order comparison with a NaN is invalid. *)
Definition is_negative (d : Decimal) : res bool :=
  match d with
  | DFin neg c _ => Ok (neg && negb (c =? 0))
  | DInf neg => Ok neg
  | DNaN => Err InvalidOperation
  end.

(** ** Decoding a reply *)

Definition VALID_FINISH : list string := ["stop"; "length"; "content_filter"; "tool_call"; "other"].
Definition FORBIDDEN_HEADER_SUBSTRINGS : list string := ["token"; "key"; "secret"; "authorization"].

Definition sanitize_extra_headers (extra : list (string * string)) : list (string * string) :=
  List.filter (fun kv => negb (existsb (fun s => str_contains s (py_lower kv.1)) FORBIDDEN_HEADER_SUBSTRINGS)) extra.

Definition coerce_finish_reason (raw : json) : string :=
  match raw with
  | JStr s => if existsb (String.eqb s) VALID_FINISH then s
              else if String.eqb s "tool_calls" then "tool_call" else "other"
  | _ => "other"
  end.

Definition maybe_int (v : json) : option Z := match v with JInt n => Some n | _ => None end.

Definition cost_of_text (text : string) : res (option Z) :=
  match decimal_of_text text with
  | None => Ok None
  | Some cost =>
      let? neg := is_negative cost in
      if neg then Ok None
      else let? micros := times_million cost in
           let? n := quantize_int micros in Ok (Some n)
  end.

Definition maybe_cost_usd_micros (v : json) : res (option Z) :=
  match v with
  | JInt n => cost_of_text (pretty n)
  | JFloat r => cost_of_text r
  | JStr s => cost_of_text s
  | _ => Ok None
  end.

Definition transient (msg : string) : exn := LLMTransientError msg.

Record OpenRouterConfig : Type := mkOpenRouterConfig {
  oc_api_key : string; oc_base_url : string; oc_default_model : string; oc_timeout_ms : Z;
  oc_max_retries : Z; oc_initial_backoff : Z; oc_max_backoff : Z; oc_referer : option string;
  oc_title : option string; oc_extra_headers : list (string * string); oc_exclude_reasoning : bool
}.

Section Client.
Context (loads : string -> option json) (dumps : dict -> string) (float_ms : string -> option Z).
Context (config : OpenRouterConfig).

Definition decode_tool_call (entry : json) : res ToolCall :=
  match entry with
  | JDict d =>
      match as_nonempty_str (getd d "id") with
      | None => Err (transient "openrouter tool_call missing id")
      | Some call_id =>
          match getd d "function" with
          | JDict f =>
              match as_nonempty_str (getd f "name") with
              | None => Err (transient "openrouter tool_call function missing name")
              | Some name =>
                  match default (JStr "{}") (dget f "arguments") with
                  | JStr raw =>
                      let parsed := if nonempty raw then loads raw else Some (JDict []) in
                      match parsed with
                      | None => Err (transient "openrouter tool_call arguments not valid JSON")
                      | Some (JDict a) => Ok (mkToolCall call_id name a)
                      | Some _ => Err (transient "openrouter tool_call arguments must decode to object")
                      end
                  | _ => Err (transient "openrouter tool_call arguments must be a JSON string")
                  end
              end
          | _ => Err (transient "openrouter tool_call missing function payload")
          end
      end
  | _ => Err (transient "openrouter tool_call entry is not an object")
  end.

Definition decode_tool_calls (raw : json) : res (list ToolCall) :=
  match raw with
  | JNull => Ok []
  | JList l => mapM_res decode_tool_call l
  | _ => Err (transient "openrouter tool_calls is not an array")
  end.

Definition decode_content (message : dict) : res string :=
  match getd message "content" with
  | JNull => Ok (match getd message "reasoning" with JStr s => s | _ => "" end)
  | JStr s => Ok s
  | _ => Err (transient "openrouter choice content is not string|null")
  end.

Definition decode_body (body : dict) : res LLMResponse :=
  match getd body "choices" with
  | JList (first :: _) =>
      match first with
      | JDict choice =>
          match getd choice "message" with
          | JDict message =>
              let? content := decode_content message in
              let? calls := decode_tool_calls (getd message "tool_calls") in
              if negb (nonempty content) && match calls with [] => true | _ => false end then
                Err (transient "openrouter choice has neither content nor tool_calls")
              else
                let usage := match getd body "usage" with JDict u => u | _ => [] end in
                let? cost := maybe_cost_usd_micros (getd usage "cost") in
                Ok (mkResponse content (default "" (as_str (getd body "model")))
                      (coerce_finish_reason (getd choice "finish_reason"))
                      (mkUsage (maybe_int (getd usage "prompt_tokens")) (maybe_int (getd usage "completion_tokens"))
                         (maybe_int (getd usage "total_tokens")) cost)
                      calls (as_str (getd body "id")))
          | _ => Err (transient "openrouter choice missing message")
          end
      | _ => Err (transient "openrouter choice is not an object")
      end
  | _ => Err (transient "openrouter response missing choices")
  end.

Definition decode_success (r : GhResponse) : res LLMResponse :=
  match gr_json r with
  | inl msg => Err (transient ("openrouter returned invalid JSON: " +:+ msg))
  | inr (JDict body) => decode_body body
  | inr _ => Err (transient "openrouter response not a JSON object")
  end.

(** ** The request *)

Definition encode_call (c : ToolCall) : json :=
  JDict [("id", JStr (tc_id c)); ("type", JStr "function");
         ("function", JDict [("name", JStr (tc_name c)); ("arguments", JStr (dumps (tc_arguments c)))])].

Definition encode_message (m : ChatMessage) : res json :=
  let head := [("role", JStr (MessageRole_value (cm_role m))); ("content", JStr (cm_content m))] in
  let? id := match cm_role m, cm_tool_call_id m with
             | ROLE_TOOL, Some i => if nonempty i then Ok [("tool_call_id", JStr i)]
                                    else Err (LLMInvalidRequestError "tool-role messages require tool_call_id")
             | ROLE_TOOL, None => Err (LLMInvalidRequestError "tool-role messages require tool_call_id")
             | _, _ => Ok []
             end in
  Ok (JDict (head ++ id ++
        match cm_tool_calls m with [] => [] | l => [("tool_calls", JList (map encode_call l))] end)).

Definition encode_tool_spec (s : ToolSpec) : json :=
  JDict [("type", JStr "function");
         ("function", JDict [("name", JStr (ts_name s)); ("description", JStr (ts_description s));
                             ("parameters", JDict (ts_parameters s))])].

Definition build_body (r : LLMRequest) : res dict :=
  let? messages := mapM_res encode_message (rq_messages r) in
  let model := match rq_model r with Some m => if nonempty m then m else oc_default_model config
                                   | None => oc_default_model config end in
  Ok ([("model", JStr model); ("messages", JList messages)] ++
      match rq_temperature r with Some t => [("temperature", t)] | None => [] end ++
      match rq_max_tokens r with Some n => [("max_tokens", JInt n)] | None => [] end ++
      match rq_stop r with Some ((_ :: _) as l) => [("stop", JList (map JStr l))] | _ => [] end ++
      match rq_tools r with [] => [] | l => [("tools", JList (map encode_tool_spec l))] end ++
      (if oc_exclude_reasoning config then [("reasoning", JDict [("exclude", JBool true)])] else [])).

(** The headers of the client: later entries replace earlier ones. *)
Definition client_headers : res (list (string * string)) :=
  if negb (nonempty (oc_api_key config)) then Err (ValueError "OpenRouterConfig.api_key is required")
  else
    let opt k o := match o with Some v => if nonempty v then [(k, v)] else [] | None => [] end in
    Ok (dupdate [] ([("Authorization", "Bearer " +:+ oc_api_key config); ("Content-Type", "application/json")] ++
          opt "HTTP-Referer" (oc_referer config) ++ opt "X-Title" (oc_title config) ++
          sanitize_extra_headers (oc_extra_headers config))).

(** ** Classification and retries *)

Definition parse (r : GhResponse) : res LLMResponse :=
  let status := gr_status r in
  if status =? 200 then decode_success r
  else if (status =? 401) || (status =? 403) then Err (LLMAuthError ("openrouter auth failed: " +:+ pretty status))
  else if status =? 429 then
    Err (LLMRateLimitedError (dget (gr_headers r) "retry-after" ≫= float_ms))
  else if (400 <=? status) && (status <? 500) then
    Err (LLMInvalidRequestError ("openrouter rejected request: " +:+ pretty status))
  else if (500 <=? status) && (status <? 600) then
    Err (transient ("openrouter upstream error: " +:+ pretty status))
  else Err (LLMError ("openrouter unexpected status: " +:+ pretty status)).

(** [isinstance(exc, LLMTransientError)]. *)
Definition is_transient (e : exn) : bool :=
  match e with LLMTransientError _ | LLMRateLimitedError _ => true | _ => false end.

Definition or_backoff (attempt attempts : nat) (error : exn) : M GH unit :=
  if Nat.leb attempts (attempt + 1) then ret tt
  else
    let exponential := Z.min (oc_initial_backoff config * 2 ^ Z.of_nat attempt) (oc_max_backoff config) in
    gh_sleep (match error with
              | LLMRateLimitedError (Some d) => Z.min d (oc_max_backoff config)
              | _ => exponential
              end).

Fixpoint or_loop (q : GhRequest) (attempts left : nat) (last_error : option exn) : M GH LLMResponse :=
  match left with
  | O => raise (default AssertionError last_error)
  | S left' =>
      let attempt := (attempts - left)%nat in
      reply <- gh_send q ;;
      match reply with
      | ClientRaises e => raise e
      | Transport cls =>
          let e := transient ("openrouter transport: " +:+ cls) in
          or_backoff attempt attempts e ;;; or_loop q attempts left' (Some e)
      | Response r =>
          match parse r with
          | Ok parsed => ret parsed
          | Err e => if is_transient e
                     then or_backoff attempt attempts e ;;; or_loop q attempts left' (Some e)
                     else raise e
          end
      end
  end.

Definition or_complete (r : LLMRequest) : M GH LLMResponse :=
  body <- lift (build_body r) ;;
  let attempts := Z.to_nat (oc_max_retries config + 1) in
  or_loop (mkGhRequest "POST" "/chat/completions" [] (Some body)) attempts attempts None.
End Client.

(** ** [OpenRouterConfig.from_env] *)

(** [rstrip] of one character. *)
Fixpoint str_rstrip_char (n : nat) (s : string) : string :=
  match s with
  | EmptyString => ""
  | String c s' => let t := str_rstrip_char n s' in
                   if char_is n c && negb (nonempty t) then "" else String c t
  end.

(** [float_ms] reads a number of seconds. *)
Definition or_from_env (float_ms : string -> option Z) (env : list (string * string)) (required : bool)
    : res OpenRouterConfig :=
  let value k d := default d (dget env k) in
  let number k d := match float_ms (value k d) with
                    | Some n => Ok n | None => Err (ValueError "could not convert string to float") end in
  let opt k := match dget env k with Some v => if nonempty v then Some v else None | None => None end in
  let api_key := py_strip (value "OPENROUTER_API_KEY" "") in
  if required && negb (nonempty api_key) then
    Err (ValueError "OPENROUTER_API_KEY is required but not set in the environment")
  else
    let? timeout := number "OPENROUTER_TIMEOUT_SECONDS" "60" in
    let? retries := py_int (value "OPENROUTER_MAX_RETRIES" "2") in
    let? initial := number "OPENROUTER_INITIAL_BACKOFF_SECONDS" "0.5" in
    let? maximum := number "OPENROUTER_MAX_BACKOFF_SECONDS" "8" in
    Ok (mkOpenRouterConfig api_key
          (str_rstrip_char 47 (value "OPENROUTER_BASE_URL" "https://openrouter.ai/api/v1"))
          (value "OPENROUTER_DEFAULT_MODEL" "deepseek/deepseek-chat") timeout retries initial maximum
          (opt "OPENROUTER_REFERER") (opt "OPENROUTER_TITLE") []
          (negb (existsb (String.eqb (py_lower (value "OPENROUTER_EXCLUDE_REASONING" "true"))) ["0"; "false"; "no"]))).

Example cost_examples :
  map maybe_cost_usd_micros [JFloat "0.00125"; JInt 3; JStr "1e-7"; JStr "0.0000005"; JFloat "1.5e-05"; JStr "x"; JInt (-1); JNull] =
  [Ok (Some 1250); Ok (Some 3000000); Ok (Some 0); Ok (Some 1); Ok (Some 15); Ok None; Ok None; Ok None] /\
  map maybe_cost_usd_micros [JFloat "nan"; JFloat "inf"; JStr "1e23"] =
  [Err InvalidOperation; Err InvalidOperation; Err InvalidOperation].
Proof. split; vm_compute; reflexivity. Qed.

(** ** The retry loop *)

Section LoopFacts.
Context (loads : string -> option json) (float_ms : string -> option Z) (config : OpenRouterConfig).

(** What one reply means, and whether the loop goes on after it. *)
Definition outcome (reply : GhReply) : res LLMResponse :=
  match reply with
  | Response r => parse loads float_ms r
  | Transport cls => Err (transient ("openrouter transport: " +:+ cls))
  | ClientRaises e => Err e
  end.
Definition goes_on (reply : GhReply) : bool :=
  match reply with
  | Response r => match parse loads float_ms r with Err e => is_transient e | Ok _ => false end
  | Transport _ => true
  | ClientRaises _ => false
  end.

(** The reply to the [i]-th request from [w] on. *)
Definition reply_at (w : GH) (q : GhRequest) (i : nat) : GhReply := gh_reply w (length (gh_log w) + i) q.

(** [k] attempts were made and the last of them decided. *)
Definition attempted (q : GhRequest) (k : nat) (w w' : GH) (r : res LLMResponse) : Prop :=
  (0 < k)%nat /\ gh_reply w' = gh_reply w /\ gh_log w' = gh_log w ++ replicate k q /\
  (exists sl, gh_sleeps w' = gh_sleeps w ++ sl /\ length sl = (k - 1)%nat /\
     Forall (fun d => d <= oc_max_backoff config) sl) /\
  (forall i, (i < k - 1)%nat -> goes_on (reply_at w q i) = true) /\
  r = outcome (reply_at w q (k - 1)).

Lemma or_backoff_pause attempt attempts e w :
  (attempt + 1 < attempts)%nat ->
  exists d, or_backoff config attempt attempts e w = (Ok tt, mkGH (gh_log w) (gh_sleeps w ++ [d]) (gh_reply w)) /\
    d <= oc_max_backoff config.
Proof.
  intros H. unfold or_backoff. destruct (Nat.leb_spec attempts (attempt + 1)); [lia|].
  eexists. split; [done|]. destruct e; try lia. destruct retry_after_ms; lia.
Qed.

Lemma or_backoff_last attempt attempts e w :
  (attempts <= attempt + 1)%nat -> or_backoff config attempt attempts e w = (Ok tt, w).
Proof. intros H. unfold or_backoff. by destruct (Nat.leb_spec attempts (attempt + 1)); [|lia]. Qed.

Definition after_send (q : GhRequest) (w : GH) : GH := mkGH (gh_log w ++ [q]) (gh_sleeps w) (gh_reply w).

Lemma attempted_once q w : attempted q 1 w (after_send q w) (outcome (reply_at w q 0)).
Proof.
  split; [lia|]. split; [done|]. split; [done|]. split.
  - exists []. split; [by rewrite app_nil_r|]. split; [done|constructor].
  - split; [intros; lia|done].
Qed.

Lemma attempted_again q k w d w' r :
  goes_on (reply_at w q 0) = true -> d <= oc_max_backoff config ->
  attempted q k (mkGH (gh_log w ++ [q]) (gh_sleeps w ++ [d]) (gh_reply w)) w' r -> attempted q (S k) w w' r.
Proof.
  intros Hg Hd (Hk & Hr & Hl & (sl & Hs & Hn & Hf) & Hi & Ho). cbn [gh_log gh_sleeps gh_reply] in *.
  assert (forall i, reply_at (mkGH (gh_log w ++ [q]) (gh_sleeps w ++ [d]) (gh_reply w)) q i = reply_at w q (S i)) as Hrep.
  { intros i. unfold reply_at. cbn. f_equal. rewrite length_app. simpl. lia. }
  split; [lia|]. split; [done|]. split; [by rewrite Hl, <- app_assoc|]. split; [|split].
  - exists (d :: sl). rewrite Hs, <- app_assoc. split; [done|]. split; [simpl; lia|by constructor].
  - intros [|i] Hlt; [done|]. rewrite <- Hrep. apply Hi. lia.
  - rewrite Ho, Hrep. do 2 f_equal. lia.
Qed.

Lemma or_loop_run q attempts left err w r w' :
  (0 < left <= attempts)%nat -> or_loop loads float_ms config q attempts left err w = (r, w') ->
  exists k, attempted q k w w' r /\ (k <= left)%nat /\
    (goes_on (reply_at w q (k - 1)) = true -> k = left).
Proof.
  revert err w. induction left as [|left IH]; intros err w Hle; [lia|].
  cbn [or_loop]. unfold bind at 1, gh_send.
  assert (reply_at w q 0 = gh_reply w (length (gh_log w)) q) as Hrep by (unfold reply_at; by rewrite Nat.add_0_r).
  change (mkGH (gh_log w ++ [q]) (gh_sleeps w) (gh_reply w)) with (after_send q w).
  assert (Hstop : goes_on (reply_at w q 0) = false -> (outcome (reply_at w q 0), after_send q w) = (r, w') ->
    exists k, attempted q k w w' r /\ (k <= S left)%nat /\ (goes_on (reply_at w q (k - 1)) = true -> k = S left)).
  { intros Hg [= <- <-]. exists 1%nat. split; [apply attempted_once|]. split; [lia|]. simpl. by rewrite Hg. }
  assert (Hretry : forall e, goes_on (reply_at w q 0) = true -> outcome (reply_at w q 0) = Err e ->
    (or_backoff config (attempts - S left) attempts e ;;; or_loop loads float_ms config q attempts left (Some e))
      (after_send q w) = (r, w') ->
    exists k, attempted q k w w' r /\ (k <= S left)%nat /\ (goes_on (reply_at w q (k - 1)) = true -> k = S left)).
  { intros e Hg Ho. unfold bind. destruct left as [|left'].
    - rewrite or_backoff_last by lia. cbn. intros [= <- <-]. exists 1%nat.
      split; [rewrite <- Ho; apply attempted_once|]. split; [lia|done].
    - destruct (or_backoff_pause (attempts - S (S left')) attempts e (after_send q w)) as (d & -> & Hd); [lia|].
      intros E. apply IH in E as (k & Hk & Hle' & Hl); [|lia]. exists (S k).
      split; [by apply (attempted_again q k w d)|]. split; [lia|]. intros Hg'. f_equal. apply Hl.
      replace (S k - 1)%nat with (S (k - 1)) in Hg' by (destruct Hk; lia).
      unfold reply_at in *. cbn. rewrite length_app. simpl. by rewrite <- Nat.add_assoc. }
  rewrite Hrep in Hstop, Hretry. destruct (gh_reply w (length (gh_log w)) q) as [resp|cls|e].
  - cbn [outcome goes_on] in *. destruct (parse loads float_ms resp) as [p|e]; [by apply Hstop|].
    destruct (is_transient e); [by apply Hretry|by apply Hstop].
  - by apply Hretry.
  - by apply Hstop.
Qed.

(** One [complete] call sends the same request at least once and at most
    [max_retries + 1] times; only a transport error, a 429, a 5xx or an unusable 200
    body is followed by another attempt, after exactly one pause that never exceeds the
    configured maximum.  The result is that of the last reply, and a retryable error is
    returned only when every attempt was used. *)
Theorem openrouter_attempts dumps r body w res w' :
  0 <= oc_max_retries config -> build_body dumps config r = Ok body ->
  or_complete loads dumps float_ms config r w = (res, w') ->
  let q := mkGhRequest "POST" "/chat/completions" [] (Some body) in
  exists k, attempted q k w w' res /\ Z.of_nat k <= oc_max_retries config + 1 /\
    (goes_on (reply_at w q (k - 1)) = true -> Z.of_nat k = oc_max_retries config + 1).
Proof.
  intros Hm Hb. unfold or_complete, bind, lift. rewrite Hb. intros E.
  apply or_loop_run in E as (k & Hk & Hle & Hl); [|lia]. exists k. split; [done|]. split; [lia|].
  intros Hg. rewrite (Hl Hg). lia.
Qed.
End LoopFacts.

(** A NaN cost in an otherwise good reply escapes the retry loop and the error
    taxonomy of the port. *)
Example nan_cost_escapes :
  let reply := Response (mkGhResponse 200 [] (inr (JDict
    [("choices", JList [JDict [("message", JDict [("content", JStr "hi")])]]);
     ("usage", JDict [("cost", JFloat "nan")])]))) in
  (or_complete (fun _ => None) (fun _ => "") (fun _ => None)
     (mkOpenRouterConfig "k" "u" "m" 1 2 1 1 None None [] true)
     (mkRequest [mkChat ROLE_USER "q" None []] None None None None [] [] None None None)
     (mkGH [] [] (fun _ _ => reply))).1 = Err InvalidOperation.
Proof. vm_compute. reflexivity. Qed.

Lemma openrouter_attempts_witness :
  let config := mkOpenRouterConfig "k" "u" "m" 1 2 500 800 None None [] false in
  let r := mkRequest [mkChat ROLE_USER "q" None []] None None None None [] [] None None None in
  let w := mkGH [] [] (fun n _ => if Nat.ltb n 2 then Transport "ReadTimeout" else Response (mkGhResponse 401 [] (inl ""))) in
  exists k res w', or_complete (fun _ => None) (fun _ => "") (fun _ => None) config r w = (res, w') /\
    length (gh_log w') = k /\ gh_sleeps w' = [500; 800] /\ res = Err (LLMAuthError "openrouter auth failed: 401").
Proof.
  intros config r w. destruct (or_complete (fun _ => None) (fun _ => "") (fun _ => None) config r w) as [res w'] eqn:E.
  destruct (openrouter_attempts (fun _ => None) (fun _ => None) config (fun _ => "") r
    [("model", JStr "m"); ("messages", JList [JDict [("role", JStr "user"); ("content", JStr "q")]])] w res w'
    ltac:(simpl; lia) eq_refl E) as (k & (_ & _ & Hl & _) & _).
  exists k, res, w'. split; [reflexivity|]. split; [rewrite Hl; cbn; by rewrite length_replicate|].
  vm_compute in E. injection E as <- <-. split; reflexivity.
Defined.
