(* ===== verification/Configs.v ===== *)
(** * Configs: the environment of a deployment, parsed

    [infra/circuitbreaker/config.py], [infra/ratelimit/config.py],
    [infra/budget/config.py] with their factories, [infra/secrets] (the two
    backends, the selector and [resolve_secret_env]) and
    [infra/git_provider/github_config.py].  An environment is a dict of strings.
    [float()] is written out on the text, with its infinities and NaN and with
    the overflow and underflow of a double; a finite value stays the decimal that
    was written. *)

From S2P Require Import Prelude PyText Utf8 GitProvider OpenRouter.
Import Utf8.

Abbreviation environ := (list (string * string)).

(** ** [float(text)] *)

(** An underscore is allowed between two digits only. *)
Fixpoint underscores_ok (after_digit : bool) (s : string) : bool :=
  match s with
  | EmptyString => true
  | String c s' =>
      if char_is 95 c then
        after_digit && match s' with String d _ => is_digit d | EmptyString => false end
        && underscores_ok false s'
      else underscores_ok (is_digit c) s'
  end.

(** The nearest double is infinite from halfway past the largest one on, and
    zero up to half of the smallest one. *)
Definition round_double (neg : bool) (c e : Z) : Decimal :=
  if c =? 0 then DFin neg 0 0
  else if 400 <? digits c + e then DInf neg
  else if digits c + e <? -400 then DFin neg 0 0
  else
    let '(num, den) := if 0 <=? e then (c * 10 ^ e, 1) else (c, 10 ^ (- e)) in
    if (2 ^ 1024 - 2 ^ 970) * den <=? num then DInf neg
    else if num * 2 ^ 1075 <=? den then DFin neg 0 0
    else DFin neg c e.

Definition float_of_text (text : string) : option Decimal :=
  let s := py_lower (py_strip text) in
  if negb (underscores_ok false s) then None
  else
    let '(neg, t) := read_sign (drop_underscores s) in
    if String.eqb t "inf" || String.eqb t "infinity" then Some (DInf neg)
    else if String.eqb t "nan" then Some DNaN
    else
      let '(whole, n, rest) := read_digits 0 0 t in
      let '(coeff, m, rest') := match str_drop_prefix "." rest with
                                | Some r => read_digits whole 0 r
                                | None => (whole, O, rest)
                                end in
      if Nat.eqb (n + m) 0 then None
      else (fun e => round_double neg coeff (e - Z.of_nat m)) <$> read_exponent rest'.

(** [x <= 0] and [x < 0]: a NaN compares false. *)
Definition le_zero (d : Decimal) : bool :=
  match d with DFin neg c _ => neg || (c =? 0) | DInf neg => neg | DNaN => false end.
Definition lt_zero (d : Decimal) : bool :=
  match d with DFin neg c _ => neg && negb (c =? 0) | DInf neg => neg | DNaN => false end.

(** [int(seconds * 1000)]. *)
Definition float_millis (d : Decimal) : res Z :=
  match d with
  | DFin neg c e =>
      let v := if 0 <=? e + 3 then c * 10 ^ (e + 3) else Z.quot c (10 ^ (- (e + 3))) in
      Ok (if neg then - v else v)
  | DInf _ => Err (ExternalError "OverflowError")
  | DNaN => Err (ValueError "cannot convert float NaN to integer")
  end.

(** ** The shape the three configurations share *)

Definition env_get (env : environ) (k d : string) : string := default d (dget env k).

Definition parse_backend (env : environ) (name dflt : string) (supported : list string) : res string :=
  let raw := py_lower (py_strip (env_get env name dflt)) in
  if existsb (String.eqb raw) supported then Ok raw
  else Err (ValueError (name +:+ "=" +:+ py_repr_str raw)).

(** [int(raw)] within [try], then the bound. *)
Definition parse_int (env : environ) (name dflt : string) (least : Z) : res Z :=
  match py_int (env_get env name dflt) with
  | Err _ => Err (ValueError (name +:+ " is not an int"))
  | Ok n => if n <? least then Err (ValueError (name +:+ " must be >= " +:+ pretty least)) else Ok n
  end.

(** [float(raw)] within [try], then the test that refuses. *)
Definition parse_float (env : environ) (name dflt : string) (refuse : Decimal -> bool) (bound : string)
    : res Decimal :=
  match float_of_text (env_get env name dflt) with
  | None => Err (ValueError (name +:+ " is not a float"))
  | Some d => if refuse d then Err (ValueError (name +:+ " must be " +:+ bound)) else Ok d
  end.

(** ** Circuit breaker *)

Definition BREAKER_BACKENDS : list string := ["noop"; "memory"; "redis"].
Record CircuitBreakerConfig : Type := mkCircuitBreakerConfig {
  cb_backend : string; cb_failure_threshold : Z; cb_window_seconds : Decimal;
  cb_cooldown_seconds : Decimal; cb_key_prefix : string
}.

Definition breaker_from_env (env : environ) : res CircuitBreakerConfig :=
  let? backend := parse_backend env "META_AGENT_CIRCUITBREAKER_BACKEND" "noop" BREAKER_BACKENDS in
  let? threshold := parse_int env "META_AGENT_CIRCUITBREAKER_FAILURE_THRESHOLD" "5" 1 in
  let? window := parse_float env "META_AGENT_CIRCUITBREAKER_WINDOW_SECONDS" "30.0" le_zero "> 0" in
  let? cooldown := parse_float env "META_AGENT_CIRCUITBREAKER_COOLDOWN_SECONDS" "30.0" le_zero "> 0" in
  Ok (mkCircuitBreakerConfig backend threshold window cooldown
        (env_get env "META_AGENT_CIRCUITBREAKER_KEY_PREFIX" "")).

Inductive BuiltBreaker : Type :=
  | NoopCircuitBreaker
  | InMemoryCircuitBreaker (failure_threshold : Z) (window_seconds cooldown_seconds : Decimal)
  | RedisCircuitBreaker (failure_threshold window_ms cooldown_ms : Z) (key_prefix : string).

(** The checks both constructors start with. *)
Definition breaker_checks (threshold : Z) (window cooldown : Decimal) : res unit :=
  if threshold <? 1 then Err (ValueError "failure_threshold must be >= 1")
  else if le_zero window then Err (ValueError "window_seconds must be > 0")
  else if le_zero cooldown then Err (ValueError "cooldown_seconds must be > 0")
  else Ok tt.
Definition memory_breaker_init (threshold : Z) (window cooldown : Decimal) : res BuiltBreaker :=
  let? _ := breaker_checks threshold window cooldown in
  Ok (InMemoryCircuitBreaker threshold window cooldown).
Definition redis_breaker_init (threshold : Z) (window cooldown : Decimal) (prefix : string)
    : res BuiltBreaker :=
  let? _ := breaker_checks threshold window cooldown in
  let? window_ms := float_millis window in
  let? cooldown_ms := float_millis cooldown in
  Ok (RedisCircuitBreaker threshold window_ms cooldown_ms prefix).

Definition build_circuit_breaker_from_config (c : CircuitBreakerConfig) (redis_client : bool)
    : res BuiltBreaker :=
  if String.eqb (cb_backend c) "noop" then Ok NoopCircuitBreaker
  else if String.eqb (cb_backend c) "memory" then
    memory_breaker_init (cb_failure_threshold c) (cb_window_seconds c) (cb_cooldown_seconds c)
  else if String.eqb (cb_backend c) "redis" then
    if negb redis_client then
      Err (ValueError "META_AGENT_CIRCUITBREAKER_BACKEND=redis requires a Redis client to be passed in")
    else redis_breaker_init (cb_failure_threshold c) (cb_window_seconds c) (cb_cooldown_seconds c)
           (cb_key_prefix c)
  else Err AssertionError.

(** ** Rate limiter *)

Record RateLimitConfig : Type := mkRateLimitConfig {
  rc_backend : string; rc_rate_per_sec : Decimal; rc_burst : Z; rc_key_prefix : string
}.

Definition limiter_from_env (env : environ) : res RateLimitConfig :=
  let? backend := parse_backend env "META_AGENT_RATELIMIT_BACKEND" "noop" BREAKER_BACKENDS in
  let? rate := parse_float env "META_AGENT_RATELIMIT_RATE_PER_SEC" "50.0" le_zero "> 0" in
  let? burst := parse_int env "META_AGENT_RATELIMIT_BURST" "200" 1 in
  Ok (mkRateLimitConfig backend rate burst (env_get env "META_AGENT_RATELIMIT_KEY_PREFIX" "")).

Inductive BuiltLimiter : Type :=
  | NoopRateLimiter
  | InMemoryTokenBucket (rate_per_sec : Decimal) (burst : Z)
  | RedisTokenBucket (rate_per_sec : Decimal) (burst : Z) (key_prefix : string).

Definition limiter_checks (rate : Decimal) (burst : Z) : res unit :=
  if le_zero rate then Err (ValueError "rate_per_sec must be > 0")
  else if burst <? 1 then Err (ValueError "burst must be >= 1")
  else Ok tt.
Definition memory_limiter_init (rate : Decimal) (burst : Z) : res BuiltLimiter :=
  let? _ := limiter_checks rate burst in Ok (InMemoryTokenBucket rate burst).
Definition redis_limiter_init (rate : Decimal) (burst : Z) (prefix : string) : res BuiltLimiter :=
  let? _ := limiter_checks rate burst in Ok (RedisTokenBucket rate burst prefix).

Definition build_rate_limiter_from_config (c : RateLimitConfig) (redis_client : bool) : res BuiltLimiter :=
  if String.eqb (rc_backend c) "noop" then Ok NoopRateLimiter
  else if String.eqb (rc_backend c) "memory" then memory_limiter_init (rc_rate_per_sec c) (rc_burst c)
  else if String.eqb (rc_backend c) "redis" then
    if negb redis_client then
      Err (ValueError "META_AGENT_RATELIMIT_BACKEND=redis requires a Redis client to be passed in")
    else redis_limiter_init (rc_rate_per_sec c) (rc_burst c) (rc_key_prefix c)
  else Err AssertionError.

(** ** Budget *)

Record BudgetConfig : Type := mkBudgetConfig {
  bg_backend : string; bg_max_tokens_per_month : Z; bg_cache_ttl_s : Decimal; bg_fail_open : bool
}.

Definition budget_parse_bool (raw : string) : res bool :=
  let lowered := py_lower (py_strip raw) in
  if existsb (String.eqb lowered) ["1"; "true"; "yes"; "on"] then Ok true
  else if existsb (String.eqb lowered) ["0"; "false"; "no"; "off"] then Ok false
  else Err (ValueError ("META_AGENT_BUDGET_FAIL_OPEN=" +:+ py_repr_str raw +:+ " is not a boolean")).

Definition budget_from_env (env : environ) : res BudgetConfig :=
  let? backend := parse_backend env "META_AGENT_BUDGET_BACKEND" "noop" ["noop"; "llm_usage"] in
  let? max_tokens := parse_int env "META_AGENT_BUDGET_MAX_TOKENS" "0" 0 in
  let? ttl := parse_float env "META_AGENT_BUDGET_CACHE_TTL_S" "10.0" lt_zero ">= 0" in
  let? fail_open := match dget env "META_AGENT_BUDGET_FAIL_OPEN" with
                    | None => Ok true
                    | Some raw => budget_parse_bool raw
                    end in
  Ok (mkBudgetConfig backend max_tokens ttl fail_open).

Inductive BuiltEnforcer : Type :=
  | NoopBudgetEnforcer
  | LLMUsageAggregatorBudgetEnforcer (limit_tokens : option Z).

Definition usage_enforcer_init (limit_tokens : option Z) : res BuiltEnforcer :=
  match limit_tokens with
  | Some l => if l <? 0 then Err (ValueError "limit_tokens must be >= 0 or None")
              else Ok (LLMUsageAggregatorBudgetEnforcer (Some l))
  | None => Ok (LLMUsageAggregatorBudgetEnforcer None)
  end.

Definition build_budget_enforcer_from_config (c : BudgetConfig) (usage_repo : bool) : res BuiltEnforcer :=
  if String.eqb (bg_backend c) "noop" then Ok NoopBudgetEnforcer
  else if String.eqb (bg_backend c) "llm_usage" then
    if negb usage_repo then
      Err (ValueError "META_AGENT_BUDGET_BACKEND=llm_usage requires an LLMUsageRepository to be passed in")
    else usage_enforcer_init
           (if bg_max_tokens_per_month c =? 0 then None else Some (bg_max_tokens_per_month c))
  else Err AssertionError.

(** ** Secrets *)

Definition SECRET_KEY_OPENROUTER_API_KEY : string := "openrouter.api_key".
Definition SECRET_KEY_GITHUB_TOKEN : string := "github.token".
Definition DEFAULT_KEY_TO_ENV_NAME : list (string * string) :=
  [(SECRET_KEY_OPENROUTER_API_KEY, "OPENROUTER_API_KEY"); (SECRET_KEY_GITHUB_TOKEN, "META_AGENT_GITHUB_TOKEN")].
Definition SECRET_TO_ENV_NAME : list (string * string) :=
  [(SECRET_KEY_OPENROUTER_API_KEY, "OPENROUTER_API_KEY"); (SECRET_KEY_GITHUB_TOKEN, "META_AGENT_GITHUB_TOKEN")].

(** The port: [get] of one key. *)
Definition Secrets : Type := string -> res string.

(** [EnvSecrets]; an empty mapping falls back to the default one. *)
Definition env_secrets (env : environ) (key_to_env_name : option (list (string * string))) : Secrets :=
  let names := match key_to_env_name with Some ((_ :: _) as l) => l | _ => DEFAULT_KEY_TO_ENV_NAME end in
  fun key =>
    match dget names key with
    | None => Err (SecretNotFoundError ("no env var configured for secret key " +:+ py_repr_str key))
    | Some env_name =>
        let value := py_strip (env_get env env_name "") in
        if nonempty value then Ok value
        else Err (SecretNotFoundError ("secret key " +:+ py_repr_str key +:+ " (env var " +:+ env_name
                                         +:+ ") is unset or empty"))
    end.

(** [FileSecrets]: [read] is what the file holds, as bytes; [loads] the JSON
    decoder, [None] for its error. *)
Fixpoint secret_values (entries : list (string * json)) (values : environ) : res environ :=
  match entries with
  | [] => Ok values
  | (k, JStr v) :: entries' => secret_values entries' (dset values k v)
  | (k, _) :: _ => Err (SecretBackendError ("key " +:+ py_repr_str k +:+ " maps to non-string value"))
  end.
Definition file_secrets_from_path (read : string -> res string) (loads : string -> option json)
    (path : string) : res environ :=
  match read (py_path path) with
  | Err (OSError cls) => Err (SecretBackendError ("unable to read secrets file " +:+ py_path path))
  | Err e => Err e
  | Ok bytes =>
      if negb (valid bytes) then Err (ValueError "UnicodeDecodeError")
      else match loads bytes with
           | None => Err (SecretBackendError ("secrets file " +:+ py_path path +:+ " is not valid JSON"))
           | Some (JDict d) => secret_values d []
           | Some _ => Err (SecretBackendError ("secrets file " +:+ py_path path +:+ " must contain a JSON object"))
           end
  end.
Definition file_secrets (values : environ) : Secrets := fun key =>
  match dget values key with
  | None => Err (SecretNotFoundError ("secret key " +:+ py_repr_str key +:+ " not present in file"))
  | Some raw => if nonempty (py_strip raw) then Ok (py_strip raw)
                else Err (SecretNotFoundError ("secret key " +:+ py_repr_str key +:+ " is present but empty"))
  end.

Record SecretsConfig : Type := mkSecretsConfig { sc_backend : string; sc_file_path : string }.
Definition secrets_from_env (env : environ) : res SecretsConfig :=
  let? backend := parse_backend env "META_AGENT_SECRETS_BACKEND" "env" ["env"; "file"] in
  let file_path := py_strip (env_get env "META_AGENT_SECRETS_FILE" "") in
  if String.eqb backend "file" && negb (nonempty file_path) then
    Err (ValueError "META_AGENT_SECRETS_BACKEND=file requires META_AGENT_SECRETS_FILE to be set")
  else Ok (mkSecretsConfig backend file_path).

Section SecretFiles.
Context (read : string -> res string) (loads : string -> option json).

Definition build_secrets_from_config (c : SecretsConfig) (env : environ) : res Secrets :=
  if String.eqb (sc_backend c) "env" then Ok (env_secrets env None)
  else if String.eqb (sc_backend c) "file" then
    let? values := file_secrets_from_path read loads (sc_file_path c) in Ok (file_secrets values)
  else Err AssertionError.
Definition build_secrets_from_env (env : environ) : res Secrets :=
  let? c := secrets_from_env env in build_secrets_from_config c env.
End SecretFiles.

Fixpoint resolve_keys (secrets : Secrets) (base : environ) (keys : list string) : res environ :=
  match keys with
  | [] => Ok base
  | key :: keys' =>
      match dget SECRET_TO_ENV_NAME key with
      | None => resolve_keys secrets base keys'
      | Some env_name =>
          match secrets key with
          | Ok value => resolve_keys secrets (dset base env_name value) keys'
          | Err (SecretNotFoundError _) => resolve_keys secrets base keys'
          | Err e => Err e
          end
      end
  end.
Definition resolve_secret_env (secrets : Secrets) (env : environ) (keys : option (list string)) : res environ :=
  resolve_keys secrets env (default (map fst SECRET_TO_ENV_NAME) keys).

(** ** [GitHubGitProviderConfig.from_env] *)

(** The fields the adapter model does not look at stay beside its own. *)
Record GitHubSettings : Type := mkGitHubSettings {
  gs_config : GitHubConfig; gs_base_url : string; gs_user_agent : string; gs_timeout : Z
}.
Definition gh_from_env (float_micros : string -> option Z) (env : environ) (required : bool)
    : res GitHubSettings :=
  let number k d := match float_micros (env_get env k d) with
                    | Some n => Ok n | None => Err (ValueError "could not convert string to float") end in
  let token := py_strip (env_get env "META_AGENT_GITHUB_TOKEN" "") in
  if required && negb (nonempty token) then
    Err (ValueError "META_AGENT_GITHUB_TOKEN is required but not set in the environment")
  else
    let? timeout := number "META_AGENT_GITHUB_TIMEOUT_SECONDS" "30" in
    let? retries := py_int (env_get env "META_AGENT_GITHUB_MAX_RETRIES" "2") in
    let? initial := number "META_AGENT_GITHUB_INITIAL_BACKOFF_SECONDS" "0.5" in
    let? maximum := number "META_AGENT_GITHUB_MAX_BACKOFF_SECONDS" "8" in
    Ok (mkGitHubSettings (mkGitHubConfig token retries initial maximum)
          (str_rstrip_char 47 (env_get env "META_AGENT_GITHUB_BASE_URL" "https://api.github.com"))
          (env_get env "META_AGENT_GITHUB_USER_AGENT" "meta-agent/0.0") timeout).

(** ** Accepted environments build *)

Definition finite (d : Decimal) : bool := match d with DFin _ _ _ => true | _ => false end.

Lemma parse_backend_ok env name dflt supported b :
  parse_backend env name dflt supported = Ok b -> existsb (String.eqb b) supported = true.
Proof. unfold parse_backend. destruct (existsb _ supported) eqn:E; [by intros [= <-]|done]. Qed.

Lemma parse_int_ok env name dflt least n : parse_int env name dflt least = Ok n -> least <= n.
Proof.
  unfold parse_int. destruct (py_int _) as [k|]; [|done].
  destruct (Z.ltb_spec k least); [done|]. by intros [= <-].
Qed.

(** The text of a number has no sign inside. *)
Definition coeff_ok (d : Decimal) : Prop := match d with DFin _ c _ => 0 <= c | _ => True end.

Lemma read_digits_nonneg s : forall acc n, 0 <= acc -> 0 <= (read_digits acc n s).1.1.
Proof.
  induction s as [|c s IH]; intros acc n Ha; simpl; [done|]. destruct (is_digit c); [apply IH; lia|done].
Qed.

Lemma round_double_ok neg c e : 0 <= c -> coeff_ok (round_double neg c e).
Proof.
  intros Hc. unfold round_double. destruct (c =? 0); [simpl; lia|].
  destruct (400 <? _); [done|]. destruct (_ <? -400); [simpl; lia|].
  destruct (0 <=? e); cbv iota beta zeta; (destruct (_ <=? _); [done|]; destruct (_ <=? _); simpl; lia).
Qed.

Lemma float_of_text_ok text d : float_of_text text = Some d -> coeff_ok d.
Proof.
  unfold float_of_text. destruct (negb _); [done|].
  destruct (read_sign _) as [neg t]. destruct (_ || _); [by intros [= <-]|].
  destruct (String.eqb t "nan"); [by intros [= <-]|].
  pose proof (read_digits_nonneg t 0 0 ltac:(lia)) as Hw.
  destruct (read_digits 0 0 t) as [[whole n] rest]. simpl in Hw.
  assert (forall x : Z * nat * string, 0 <= x.1.1 ->
    (let '(coeff, m, rest') := x in
     if Nat.eqb (n + m) 0 then None
     else (fun e => round_double neg coeff (e - Z.of_nat m)) <$> read_exponent rest') = Some d -> coeff_ok d) as Hx.
  { intros [[coeff m] rest'] Hc. simpl in Hc. destruct (Nat.eqb _ _); [done|].
    destruct (read_exponent rest') as [e|]; [|done]. intros [= <-]. by apply round_double_ok. }
  apply Hx. destruct (str_drop_prefix "." rest) as [r|]; [by apply read_digits_nonneg|done].
Qed.

Lemma parse_float_ok env name dflt refuse bound d :
  parse_float env name dflt refuse bound = Ok d -> refuse d = false /\ coeff_ok d.
Proof.
  unfold parse_float. destruct (float_of_text _) as [k|] eqn:Ef; [|done].
  destruct (refuse k) eqn:E; [done|]. intros [= <-]. by apply float_of_text_ok in Ef.
Qed.

Lemma float_millis_ok d n : coeff_ok d -> le_zero d = false -> float_millis d = Ok n -> 0 <= n.
Proof.
  destruct d as [neg c e|neg|]; [|done..]. simpl. intros Hc [-> Hz]%orb_false_iff [= <-].
  destruct (0 <=? e + 3) eqn:E.
  - apply Z.mul_nonneg_nonneg; [done|]. apply Z.pow_nonneg. lia.
  - apply Z.leb_gt in E. apply Z.quot_pos; [done|]. apply Z.pow_pos_nonneg; lia.
Qed.

Lemma float_millis_finite d : finite d = true -> exists n, float_millis d = Ok n.
Proof. destruct d; [|done..]. intros _. simpl. by eexists. Qed.

(** Take a chain of parsers apart. *)
Ltac parsed :=
  repeat match goal with
  | Hp : res_bind _ _ = Ok _ |- _ => apply res_bind_inv in Hp as (? & ? & Hp)
  | Hp : Ok _ = Ok _ |- _ => injection Hp as <-
  | Hp : parse_backend _ _ _ _ = Ok _ |- _ => apply parse_backend_ok in Hp
  | Hp : parse_int _ _ _ _ = Ok _ |- _ => apply parse_int_ok in Hp
  | Hp : parse_float _ _ _ _ _ = Ok _ |- _ => apply parse_float_ok in Hp as [? ?]
  end.

(** No backend is left. *)
Ltac unsupported :=
  match goal with
  | Hb : existsb _ _ = true |- _ =>
      simpl in Hb; repeat (apply orb_true_iff in Hb as [?%String.eqb_eq|Hb]; [done|]); done
  end.

Lemma breaker_checks_pass t w c :
  1 <= t -> le_zero w = false -> le_zero c = false -> breaker_checks t w c = Ok tt.
Proof. intros Ht Hw Hc. unfold breaker_checks. by rewrite Hw, Hc, (proj2 (Z.ltb_ge _ _)) by lia. Qed.

Lemma breaker_builds env cb redis :
  breaker_from_env env = Ok cb ->
  (exists b, build_circuit_breaker_from_config cb redis = Ok b /\
     match b with
     | NoopCircuitBreaker => cb_backend cb = "noop"
     | InMemoryCircuitBreaker t _ _ => cb_backend cb = "memory" /\ 1 <= t
     | RedisCircuitBreaker t w c _ => cb_backend cb = "redis" /\ redis = true /\ 1 <= t /\ 0 <= w /\ 0 <= c
     end) \/
  (exists e, build_circuit_breaker_from_config cb redis = Err e /\ cb_backend cb = "redis" /\
     (redis = false \/ finite (cb_window_seconds cb) && finite (cb_cooldown_seconds cb) = false)).
Proof.
  intros E. unfold breaker_from_env in E. parsed. rename x into backend, x0 into t, x1 into w, x2 into c.
  assert (breaker_checks t w c = Ok tt) as Hck by (by apply breaker_checks_pass).
  unfold build_circuit_breaker_from_config, memory_breaker_init, redis_breaker_init.
  cbn [cb_backend cb_failure_threshold cb_window_seconds cb_cooldown_seconds cb_key_prefix].
  rewrite Hck. cbn [res_bind].
  destruct (String.eqb_spec backend "noop") as [->|N1]; [left; by eexists|].
  destruct (String.eqb_spec backend "memory") as [->|N2]; [left; by eexists|].
  destruct (String.eqb_spec backend "redis") as [->|N3].
  - destruct redis; [|right; eexists; split_and!; [done..|by left]]. simpl negb. cbv iota.
    destruct (finite w) eqn:Fw; [|right; destruct w; try done; (eexists; split_and!; [done..|by right])].
    destruct (float_millis_finite w Fw) as [n En]. rewrite En. cbn [res_bind].
    destruct (finite c) eqn:Fc; [|right; destruct c; try done; (eexists; split_and!; [done..|right; apply andb_false_r])].
    destruct (float_millis_finite c Fc) as [m Em]. rewrite Em. cbn [res_bind].
    left. eexists. split; [done|]. split_and!; [done..|by apply (float_millis_ok w)|by apply (float_millis_ok c)].
  - unsupported.
Qed.

Lemma limiter_builds env rc redis :
  limiter_from_env env = Ok rc ->
  if String.eqb (rc_backend rc) "redis" && negb redis
  then exists msg, build_rate_limiter_from_config rc redis = Err (ValueError msg)
  else exists l, build_rate_limiter_from_config rc redis = Ok l.
Proof.
  intros E. unfold limiter_from_env in E. parsed. rename x into backend, x0 into rate, x1 into burst.
  assert (limiter_checks rate burst = Ok tt) as Hck.
  { unfold limiter_checks. by rewrite H0, (proj2 (Z.ltb_ge _ _)) by lia. }
  unfold build_rate_limiter_from_config, memory_limiter_init, redis_limiter_init.
  cbn [rc_backend rc_rate_per_sec rc_burst rc_key_prefix]. rewrite Hck. cbn [res_bind].
  destruct (String.eqb_spec backend "noop") as [->|N1]; [by eexists|].
  destruct (String.eqb_spec backend "memory") as [->|N2]; [by eexists|].
  destruct (String.eqb_spec backend "redis") as [->|N3]; [destruct redis; by eexists|].
  unsupported.
Qed.

Lemma budget_builds env bg repo :
  budget_from_env env = Ok bg ->
  if String.eqb (bg_backend bg) "llm_usage" && negb repo
  then exists msg, build_budget_enforcer_from_config bg repo = Err (ValueError msg)
  else exists e, build_budget_enforcer_from_config bg repo = Ok e.
Proof.
  intros E. unfold budget_from_env in E. parsed. rename x into backend, x0 into limit.
  unfold build_budget_enforcer_from_config, usage_enforcer_init. cbn [bg_backend bg_max_tokens_per_month].
  destruct (String.eqb_spec backend "noop") as [->|N1]; [by eexists|].
  destruct (String.eqb_spec backend "llm_usage") as [->|N2].
  - destruct repo; [|by eexists]. simpl negb. cbv iota. simpl andb. cbv iota.
    destruct (limit =? 0); [by eexists|]. rewrite (proj2 (Z.ltb_ge _ _)) by lia. by eexists.
  - unsupported.
Qed.

(** An environment that parses gives a working stack: once the three
    configurations are read, building the breaker, the limiter and the budget
    enforcer with a Redis client and a usage repository at hand never fails, but
    for a Redis breaker whose window or cooldown was written as an infinity or
    NaN, which parsing lets through.  Without the client or the repository it
    fails exactly for the backends that need them.  What is built carries valid
    parameters. *)
Theorem accepted_configs_build env cb rc bg :
  breaker_from_env env = Ok cb -> limiter_from_env env = Ok rc -> budget_from_env env = Ok bg ->
  (forall redis,
     (exists b, build_circuit_breaker_from_config cb redis = Ok b /\
        match b with
        | NoopCircuitBreaker => cb_backend cb = "noop"
        | InMemoryCircuitBreaker t _ _ => cb_backend cb = "memory" /\ 1 <= t
        | RedisCircuitBreaker t w c _ => cb_backend cb = "redis" /\ redis = true /\ 1 <= t /\ 0 <= w /\ 0 <= c
        end) \/
     (exists e, build_circuit_breaker_from_config cb redis = Err e /\ cb_backend cb = "redis" /\
        (redis = false \/ finite (cb_window_seconds cb) && finite (cb_cooldown_seconds cb) = false))) /\
  (forall redis,
     if String.eqb (rc_backend rc) "redis" && negb redis
     then exists msg, build_rate_limiter_from_config rc redis = Err (ValueError msg)
     else exists l, build_rate_limiter_from_config rc redis = Ok l) /\
  (forall repo,
     if String.eqb (bg_backend bg) "llm_usage" && negb repo
     then exists msg, build_budget_enforcer_from_config bg repo = Err (ValueError msg)
     else exists e, build_budget_enforcer_from_config bg repo = Ok e).
Proof.
  intros Hb Hl Hg. split_and!; intros h; [by eapply breaker_builds|by eapply limiter_builds|].
  by eapply budget_builds.
Qed.

(** What parsing lets through: a window below a millisecond is positive, and the
    Redis breaker built from it has a window of no time at all, which its model
    refuses; a window of NaN is not at most zero either. *)
Theorem degenerate_windows :
  (exists c, breaker_from_env [("META_AGENT_CIRCUITBREAKER_BACKEND", "redis");
                               ("META_AGENT_CIRCUITBREAKER_WINDOW_SECONDS", "0.0004")] = Ok c /\
     build_circuit_breaker_from_config c true = Ok (RedisCircuitBreaker 5 0 30000 "")) /\
  (exists c, breaker_from_env [("META_AGENT_CIRCUITBREAKER_BACKEND", "memory");
                               ("META_AGENT_CIRCUITBREAKER_WINDOW_SECONDS", "nan")] = Ok c /\
     build_circuit_breaker_from_config c true = Ok (InMemoryCircuitBreaker 5 DNaN (DFin false 300 (-1)))).
Proof. split; eexists; split; vm_compute; reflexivity. Qed.

Lemma accepted_configs_build_witness :
  exists cb rc bg, breaker_from_env [("META_AGENT_CIRCUITBREAKER_BACKEND", " Redis ")] = Ok cb /\
    cb_backend cb = "redis" /\
    ((exists b, build_circuit_breaker_from_config cb true = Ok b) \/
     (exists e, build_circuit_breaker_from_config cb true = Err e)) /\
    limiter_from_env [("META_AGENT_CIRCUITBREAKER_BACKEND", " Redis ")] = Ok rc /\
    budget_from_env [("META_AGENT_CIRCUITBREAKER_BACKEND", " Redis ")] = Ok bg.
Proof.
  destruct (breaker_from_env [("META_AGENT_CIRCUITBREAKER_BACKEND", " Redis ")]) as [cb|] eqn:Eb;
    [|exfalso; revert Eb; vm_compute; done].
  destruct (limiter_from_env [("META_AGENT_CIRCUITBREAKER_BACKEND", " Redis ")]) as [rc|] eqn:El;
    [|exfalso; revert El; vm_compute; done].
  destruct (budget_from_env [("META_AGENT_CIRCUITBREAKER_BACKEND", " Redis ")]) as [bg|] eqn:Eg;
    [|exfalso; revert Eg; vm_compute; done].
  destruct (accepted_configs_build _ _ _ _ Eb El Eg) as (Hb & _ & _).
  exists cb, rc, bg. split_and!; [done| | |done|done].
  - revert Eb. vm_compute. by intros [= <-].
  - destruct (Hb true) as [(b & E & _)|(e & E & _)]; [left|right]; by eexists.
Defined.

(** ** The env backend changes nothing *)

Lemma str_rstrip_idem s : str_rstrip (str_rstrip s) = str_rstrip s.
Proof.
  induction s as [|c s IH]; [done|]. simpl.
  destruct (is_space c && negb (nonempty (str_rstrip s))) eqn:E; [done|]. simpl. by rewrite IH, E.
Qed.

Lemma str_lstrip_head s : str_lstrip s = "" \/ exists c t, str_lstrip s = String c t /\ is_space c = false.
Proof.
  induction s as [|c s IH]; [by left|]. simpl. destruct (is_space c) eqn:E; [done|].
  right. by exists c, s.
Qed.

Lemma py_strip_idem s : py_strip (py_strip s) = py_strip s.
Proof.
  unfold py_strip. destruct (str_lstrip_head s) as [->|(c & t & -> & Hc)]; [done|].
  simpl. rewrite Hc. simpl. rewrite Hc. simpl. by rewrite Hc, str_rstrip_idem.
Qed.

(** Environments that differ at most in the space around the two credentials. *)
Definition secret_name (k : string) : bool :=
  existsb (String.eqb k) ["OPENROUTER_API_KEY"; "META_AGENT_GITHUB_TOKEN"].
Definition env_equiv (e1 e2 : environ) : Prop :=
  (forall k, secret_name k = false -> dget e1 k = dget e2 k) /\
  (forall k, secret_name k = true -> py_strip (env_get e1 k "") = py_strip (env_get e2 k "")).

#[export] Instance env_equiv_equivalence : Equivalence env_equiv.
Proof.
  split.
  - by intros e.
  - intros e1 e2 [H1 H2]. split; intros k Hk; symmetry; auto.
  - intros e1 e2 e3 [H1 H2] [H3 H4]. split; intros k Hk.
    + by rewrite H1, H3.
    + by rewrite H2, H4.
Qed.

Lemma env_equiv_get e1 e2 k d : env_equiv e1 e2 -> secret_name k = false -> env_get e1 k d = env_get e2 k d.
Proof. intros [H1 _] Hk. unfold env_get. by rewrite H1. Qed.
Lemma env_equiv_secret e1 e2 k :
  env_equiv e1 e2 -> secret_name k = true -> py_strip (env_get e1 k "") = py_strip (env_get e2 k "").
Proof. intros [_ H2] Hk. by apply H2. Qed.

(** Rewrite every lookup of the first environment to the second. *)
Ltac env_same Heq :=
  repeat match goal with
  | |- context [py_strip (env_get ?e1 ?k "")] =>
      match type of Heq with env_equiv e1 _ => rewrite (env_equiv_secret _ _ k Heq eq_refl) end
  | |- context [env_get ?e1 ?k ?d] =>
      match type of Heq with env_equiv e1 _ => rewrite (env_equiv_get _ _ k d Heq eq_refl) end
  | |- context [dget ?e1 ?k] =>
      match type of Heq with env_equiv e1 _ => rewrite (proj1 Heq k eq_refl) end
  end.

#[export] Instance gh_from_env_proper float_micros : Proper (env_equiv ==> eq ==> eq) (gh_from_env float_micros).
Proof. intros e1 e2 Heq r ? <-. unfold gh_from_env. by env_same Heq. Qed.

#[export] Instance or_from_env_proper float_ms : Proper (env_equiv ==> eq ==> eq) (or_from_env float_ms).
Proof.
  intros e1 e2 Heq r ? <-. unfold or_from_env.
  change (default ?d (dget ?e ?k)) with (env_get e k d). by env_same Heq.
Qed.

Lemma fold_stripped env name :
  secret_name name = true ->
  env_equiv (dset env name (py_strip (env_get env name ""))) env.
Proof.
  intros Hn. split; intros k Hk.
  - rewrite dget_dset_ne; [done|]. intros ->. congruence.
  - unfold env_get at 1. rewrite dget_dset. destruct (String.eqb_spec name k) as [->|]; [|done].
    apply py_strip_idem.
Qed.

(** Folding the credentials of the [env] backend back in always succeeds, and
    at most strips them. *)
Lemma resolve_env_secrets env :
  exists env', resolve_secret_env (env_secrets env None) env None = Ok env' /\ env_equiv env' env.
Proof.
  assert (forall base key name, env_equiv base env -> dget SECRET_TO_ENV_NAME key = Some name ->
    dget DEFAULT_KEY_TO_ENV_NAME key = Some name -> secret_name name = true ->
    exists base', (forall keys, resolve_keys (env_secrets env None) base (key :: keys) =
                                resolve_keys (env_secrets env None) base' keys) /\ env_equiv base' env) as Hstep.
  { intros base key name He H1 H2 Hn. cbn [resolve_keys]. rewrite H1. unfold env_secrets. rewrite H2.
    destruct (nonempty (py_strip (env_get env name ""))) eqn:Hs.
    - eexists. split; [done|]. etrans; [|exact (fold_stripped env name Hn)].
      split; intros k Hk.
      + rewrite !dget_dset. destruct (String.eqb name k); [done|]. by apply He.
      + unfold env_get at 1 3. rewrite !dget_dset. destruct (String.eqb name k); [done|]. by apply He.
    - exists base. done. }
  destruct (Hstep env SECRET_KEY_OPENROUTER_API_KEY _ (reflexivity _) eq_refl eq_refl eq_refl) as (b1 & E1 & H1).
  destruct (Hstep b1 SECRET_KEY_GITHUB_TOKEN _ H1 eq_refl eq_refl eq_refl) as (b2 & E2 & H2).
  exists b2. split; [|done]. unfold resolve_secret_env.
  change (default _ None) with [SECRET_KEY_OPENROUTER_API_KEY; SECRET_KEY_GITHUB_TOKEN].
  by rewrite E1, E2.
Qed.

(** Whatever the backend, the resolved environment holds its provider key, or
    what was there before. *)
Lemma resolve_openrouter secrets env env' :
  resolve_secret_env secrets env None = Ok env' ->
  dget env' "OPENROUTER_API_KEY" =
    match secrets SECRET_KEY_OPENROUTER_API_KEY with
    | Ok v => Some v
    | Err _ => dget env "OPENROUTER_API_KEY"
    end.
Proof.
  unfold resolve_secret_env.
  change (default _ None) with [SECRET_KEY_OPENROUTER_API_KEY; SECRET_KEY_GITHUB_TOKEN].
  cbn [resolve_keys]. change (dget SECRET_TO_ENV_NAME SECRET_KEY_OPENROUTER_API_KEY) with (Some "OPENROUTER_API_KEY").
  change (dget SECRET_TO_ENV_NAME SECRET_KEY_GITHUB_TOKEN) with (Some "META_AGENT_GITHUB_TOKEN"). cbv iota.
  assert (forall base, match secrets SECRET_KEY_GITHUB_TOKEN with
    | Ok value => Ok (dset base "META_AGENT_GITHUB_TOKEN" value)
    | Err (SecretNotFoundError _) => Ok base
    | Err e => Err e
    end = Ok env' -> dget env' "OPENROUTER_API_KEY" = dget base "OPENROUTER_API_KEY") as Hg.
  { intros base. destruct (secrets SECRET_KEY_GITHUB_TOKEN) as [v|e].
    - intros [= <-]. by apply dget_dset_ne.
    - destruct e; try done. by intros [= <-]. }
  destruct (secrets SECRET_KEY_OPENROUTER_API_KEY) as [v|e].
  - intros E%Hg. rewrite E. apply dget_dset_eq.
  - destruct e; try done. apply Hg.
Qed.

Lemma file_secrets_stripped values key v : file_secrets values key = Ok v -> py_strip v = v.
Proof.
  unfold file_secrets. destruct (dget values key); [|done].
  destruct (nonempty _); [|done]. intros [= <-]. apply py_strip_idem.
Qed.
