(* ===== verification/AutoPr.v ===== *)
(** * AutoPr: the graph that publishes a verified branch

    [core/orchestration/graphs/auto_pr.py].  The git provider is a parameter; the
    nodes, the rendering and its size limits are translated.  Limits count
    characters, so they are stated on the code points of [Utf8]. *)

From S2P Require Import Prelude PyText Utf8 Domain GraphRuntime Results ShellAgent GitProvider.
Import Utf8.

Definition AUTO_PR_GRAPH_ID : string := "builtin.auto_pr".
Definition MAX_TITLE_CHARS : nat := 200.
Definition MAX_BODY_CHARS : nat := 8192.
Definition MAX_VERIFIER_OUTPUT_CHARS : nat := 4096.

(** [len(s)] and [s[:n]] of a Python [str]. *)
Definition char_len (s : string) : nat := length (pieces s).
Definition char_take (n : nat) (s : string) : string :=
  concat_str (map (default replacement) (take n (pieces s))).

Definition pr_required_str (s : TaskRunState) (key : string) : res string :=
  match as_nonempty_str (getd (data s) key) with
  | Some x => Ok x
  | None => Err (GraphError ("auto_pr: state.data[" +:+ py_repr_str key +:+ "] must be a non-empty str"))
  end.

Definition pr_optional_str (s : TaskRunState) (key : string) : res (option string) :=
  match getd (data s) key with
  | JNull => Ok None
  | JStr x => Ok (if nonempty x then Some x else None)
  | _ => Err (GraphError ("auto_pr: state.data[" +:+ py_repr_str key +:+ "] must be a str or null"))
  end.

Definition pr_required_bool (s : TaskRunState) (key : string) : res bool :=
  match getd (data s) key with
  | JBool b => Ok b
  | _ => Err (GraphError ("auto_pr: state.data[" +:+ py_repr_str key +:+ "] must be a bool"))
  end.

Definition str_or_empty (s : TaskRunState) (key : string) : string :=
  default "" (as_str (getd (data s) key)).

Definition TRUNCATED_SUFFIX : string := newline +:+ "…[truncated]".

Definition pr_truncate (value : string) (max_chars : nat) : string :=
  if Nat.leb (char_len value) max_chars then value
  else char_take (max_chars - char_len TRUNCATED_SUFFIX) value +:+ TRUNCATED_SUFFIX.

Definition render_title (issue_title : string) (override : option string) : string :=
  pr_truncate (match truthy_str override with Some o => o | None => "Fix: " +:+ issue_title end) MAX_TITLE_CHARS.

Definition or_text (s dflt : string) : string := if nonempty s then s else dflt.

Definition render_body (issue_title : string) (issue_description : option string)
    (head_branch base_ref head_commit_sha diff_stat : string) (verifier_passed : bool)
    (verifier_output : string) : string :=
  let description_block := match truthy_str issue_description with
                           | Some d => py_strip d
                           | None => "_no description provided_"
                           end in
  let verifier_label := if verifier_passed then "passed" else "failed" in
  let verifier_block := or_text (pr_truncate (py_strip verifier_output) MAX_VERIFIER_OUTPUT_CHARS)
                          "_no verifier output_" in
  let diff_block := or_text (py_strip diff_stat) "_no diff stat_" in
  let nl := newline in
  pr_truncate
    ("## " +:+ issue_title +:+ nl +:+ nl +:+ description_block +:+ nl +:+ nl +:+
     "### Change" +:+ nl +:+ nl +:+
     "- **Head**: `" +:+ head_branch +:+ "` @ `" +:+ head_commit_sha +:+ "`" +:+ nl +:+
     "- **Base**: `" +:+ base_ref +:+ "`" +:+ nl +:+ nl +:+
     "### Diff stat" +:+ nl +:+ nl +:+ "```" +:+ nl +:+ diff_block +:+ nl +:+ "```" +:+ nl +:+ nl +:+
     "### Verifier (" +:+ verifier_label +:+ ")" +:+ nl +:+ nl +:+ "```" +:+ nl +:+ verifier_block +:+ nl +:+
     "```" +:+ nl) MAX_BODY_CHARS.

(** A provider object: the two attributes its label is read from, and its method. *)
Record ProviderObject (W : Type) : Type := mkProviderObject {
  po_provider_attr : option string; po_provider_name : option string; po_open : GitProvider W
}.
Arguments mkProviderObject {W}. Arguments po_provider_attr {W}. Arguments po_provider_name {W}.
Arguments po_open {W}.

Definition provider_label {W} (p : option (ProviderObject W)) : string :=
  match p with
  | None => "unknown"
  | Some p => match truthy_str (po_provider_attr p) with
              | Some x => x
              | None => default "unknown" (truthy_str (po_provider_name p))
              end
  end.

Definition ref_dump (r : PullRequestRef) : dict :=
  [("provider", JStr (pr_provider r)); ("pr_id", JStr (pr_pr_id r)); ("url", JStr (pr_url r));
   ("action", JStr (pr_action r)); ("head_branch", JStr (pr_head_branch r));
   ("base_ref", JStr (pr_base_ref r)); ("head_commit_sha", JStr (pr_head_commit_sha r))].

(** [PullRequestRef.model_validate]: exactly these keys, all strings. *)
Definition REF_KEYS : list string :=
  ["provider"; "pr_id"; "url"; "action"; "head_branch"; "base_ref"; "head_commit_sha"].

Definition ref_validate (d : dict) : res PullRequestRef :=
  if negb (forallb (fun kv => str_in REF_KEYS kv.1) d) then Err (ValidationError "PullRequestRef")
  else match as_str (getd d "provider"), as_str (getd d "pr_id"), as_str (getd d "url"),
             as_str (getd d "action"), as_str (getd d "head_branch"), as_str (getd d "base_ref"),
             as_str (getd d "head_commit_sha") with
  | Some a, Some b, Some c, Some x, Some e, Some f, Some g => make_ref (mkPullRequestRef a b c x e f g)
  | _, _, _, _, _, _, _ => Err (ValidationError "PullRequestRef")
  end.

Record AutoPROutput : Type := mkAutoPROutput {
  ao_action : string; ao_provider : string; ao_pr_ref : option string; ao_pr_id : option string;
  ao_title : string; ao_body : string; ao_head_branch : string; ao_base_ref : string;
  ao_head_commit_sha : option string; ao_reason : option string
}.

Definition check_output (o : AutoPROutput) : res AutoPROutput :=
  if str_in ["created"; "reused"; "skipped"] (ao_action o) && nonempty (ao_provider o)
     && nonempty (ao_title o) && Nat.leb (char_len (ao_title o)) MAX_TITLE_CHARS
     && nonempty (ao_body o) && Nat.leb (char_len (ao_body o)) MAX_BODY_CHARS
     && nonempty (ao_head_branch o) && nonempty (ao_base_ref o)
     && match ao_reason o with
        | None => true
        | Some r => str_in ["no_repo_url"; "no_commit_sha"; "verifier_failed"] r
        end
  then Ok o else Err (ValidationError "AutoPROutput").

Definition output_dump (o : AutoPROutput) : dict :=
  [("action", JStr (ao_action o)); ("provider", JStr (ao_provider o)); ("pr_ref", opt_json JStr (ao_pr_ref o));
   ("pr_id", opt_json JStr (ao_pr_id o)); ("title", JStr (ao_title o)); ("body", JStr (ao_body o));
   ("head_branch", JStr (ao_head_branch o)); ("base_ref", JStr (ao_base_ref o));
   ("head_commit_sha", opt_json JStr (ao_head_commit_sha o)); ("reason", opt_json JStr (ao_reason o))].

(** [except ValidationError as exc: raise GraphError(msg)]. *)
Definition or_graph_error {A} (msg : string) (r : res A) : res A :=
  match r with Err (ValidationError _) => Err (GraphError msg) | _ => r end.

(** [str(scratch[key])]. *)
Definition scratch_str (d : dict) (key : string) : res string :=
  match dget d key with Some v => Ok (py_str v) | None => Err (KeyError key) end.

(** What [prepare] reads and decides. *)
Record PrInput : Type := mkPrInput {
  pi_base_ref : string; pi_head_branch : string; pi_issue_title : string; pi_verifier_passed : bool;
  pi_repo_url : option string; pi_head_commit_sha : option string; pi_issue_description : option string;
  pi_override : option string; pi_diff_stat : string; pi_verifier_output : string
}.

Definition read_input (s : TaskRunState) : res PrInput :=
  let? base_ref := pr_required_str s "base_ref" in
  let? head_branch := pr_required_str s "head_branch" in
  let? issue_title := pr_required_str s "issue_title" in
  let? verifier_passed := pr_required_bool s "verifier_passed" in
  let? repo_url := pr_optional_str s "repo_url" in
  let? head_commit_sha := pr_optional_str s "head_commit_sha" in
  let? issue_description := pr_optional_str s "issue_description" in
  let? override := pr_optional_str s "pr_title_override" in
  Ok (mkPrInput base_ref head_branch issue_title verifier_passed repo_url head_commit_sha issue_description
        override (str_or_empty s "diff_stat") (str_or_empty s "verifier_output")).

Definition skip_reason (i : PrInput) : option string :=
  match pi_repo_url i with
  | None => Some "no_repo_url"
  | Some _ => match pi_head_commit_sha i with
              | None => Some "no_commit_sha"
              | Some _ => if pi_verifier_passed i then None else Some "verifier_failed"
              end
  end.

Definition input_title (i : PrInput) : string := render_title (pi_issue_title i) (pi_override i).
Definition input_body (i : PrInput) : string :=
  render_body (pi_issue_title i) (pi_issue_description i) (pi_head_branch i) (pi_base_ref i)
    (default "<unknown>" (truthy_str (pi_head_commit_sha i))) (pi_diff_stat i) (pi_verifier_passed i)
    (pi_verifier_output i).

Definition pr_scratch (i : PrInput) : dict :=
  [("repo_url", opt_json JStr (pi_repo_url i)); ("base_ref", JStr (pi_base_ref i));
   ("head_branch", JStr (pi_head_branch i)); ("head_commit_sha", opt_json JStr (pi_head_commit_sha i));
   ("title", JStr (input_title i)); ("body", JStr (input_body i));
   ("skip_reason", opt_json JStr (skip_reason i))].

Section Nodes.
Context {W : Type} (provider : option (ProviderObject W)) (exn_str : exn -> string).

Definition no_provider : exn := GraphError "auto_pr: GraphDeps.git_provider is required".

Definition pr_prepare : NodeFn W := fun s =>
  match provider with
  | None => raise no_provider
  | Some _ => i <- lift (read_input s) ;; ret (node_update [("_auto_pr", JDict (pr_scratch i))])
  end.

Definition pr_publish : NodeFn W := fun s =>
  match provider with
  | None => raise no_provider
  | Some p =>
      match getd (data s) "_auto_pr" with
      | JDict scratch =>
          match getd scratch "skip_reason" with
          | JNull =>
              repo_url <- lift (scratch_str scratch "repo_url") ;;
              base_ref <- lift (scratch_str scratch "base_ref") ;;
              head_branch <- lift (scratch_str scratch "head_branch") ;;
              head_commit_sha <- lift (scratch_str scratch "head_commit_sha") ;;
              title <- lift (scratch_str scratch "title") ;;
              body <- lift (scratch_str scratch "body") ;;
              ref <- try_except
                (po_open p (mkPrRequest (tenant_id s) (trace_id s) repo_url base_ref head_branch
                              head_commit_sha title body))
                (fun e => if is_git_error e
                          then Some (raise (GraphError ("auto_pr: git provider failed: " +:+ exn_str e)))
                          else None) ;;
              ret (node_update [("_auto_pr_publish", JDict [("ref", JDict (ref_dump ref)); ("skip_reason", JNull)])])
          | reason => ret (node_update [("_auto_pr_publish", JDict [("ref", JNull); ("skip_reason", reason)])])
          end
      | _ => raise (GraphError "auto_pr: publish reached without _auto_pr scratch")
      end
  end.

Definition pr_output (scratch published : dict) : res AutoPROutput :=
  let? head_branch := scratch_str scratch "head_branch" in
  let? base_ref := scratch_str scratch "base_ref" in
  let? title := scratch_str scratch "title" in
  let? body := scratch_str scratch "body" in
  let sha := as_str (getd scratch "head_commit_sha") in
  let? o := match getd published "ref" with
            | JDict raw =>
                let? ref := or_graph_error "auto_pr: invalid provider ref" (ref_validate raw) in
                Ok (mkAutoPROutput (pr_action ref) (pr_provider ref) (Some (pr_url ref)) (Some (pr_pr_id ref))
                      title body head_branch base_ref sha None)
            | _ =>
                match getd published "skip_reason" with
                | JStr reason => Ok (mkAutoPROutput "skipped" (provider_label provider) None None title body
                                       head_branch base_ref sha (Some reason))
                | _ => Err (GraphError "auto_pr: missing skip_reason on skipped path")
                end
            end in
  or_graph_error "auto_pr: invalid output shape" (check_output o).

Definition pr_finalize : NodeFn W := fun s =>
  match getd (data s) "_auto_pr", getd (data s) "_auto_pr_publish" with
  | JDict scratch, JDict published =>
      o <- lift (pr_output scratch published) ;;
      ret (node_update [("output", JDict (output_dump o))])
  | _, _ => raise (GraphError "auto_pr: finalize reached with malformed scratch")
  end.

Definition build_auto_pr_graph : res (Graph W) :=
  let? g := new_graph AUTO_PR_GRAPH_ID in
  let? g := add_node g "prepare" pr_prepare in
  let? g := add_node g "publish" pr_publish in
  let? g := add_node g "finalize" pr_finalize in
  let? g := set_entry g "prepare" in
  let? g := add_edge g "prepare" "publish" in
  let? g := add_edge g "publish" "finalize" in
  let? g := add_edge g "finalize" END in
  let? _ := compile g in
  Ok g.
End Nodes.

(** ** Characters *)

Lemma replacement_code_point : code_point replacement.
Proof.
  split_and!; [cbn; lia| |].
  - intros t. reflexivity.
  - intros n [H0 Hn]. cbn in Hn. destruct n as [|[|[|n]]]; [lia|reflexivity|reflexivity|lia].
Qed.

Lemma pieces_code_points s p : In (Some p) (pieces s) -> code_point p.
Proof.
  induction s as [|q s Hq E IH|b s Hb E IH] using pieces_ind; [done|..]; rewrite E; cbn.
  - intros [[= ->]|H]; [done|auto].
  - intros [|H]; [done|auto].
Qed.

Lemma concat_code_points l t :
  Forall code_point l -> pieces (concat_str l +:+ t) = map Some l ++ pieces t.
Proof.
  induction 1 as [|p l (_ & Hp & _) _ IH]; [done|]. cbn [concat_str map app].
  by rewrite app_str_assoc, Hp, IH.
Qed.

Lemma char_take_len n s t : char_len (char_take n s +:+ t) = (Nat.min n (char_len s) + char_len t)%nat.
Proof.
  unfold char_len, char_take. rewrite concat_code_points.
  - by rewrite length_app, !length_map, length_take.
  - apply Forall_forall. intros p (o & -> & Ho)%list_elem_of_fmap.
    apply elem_of_take in Ho as (i & Hi & _). destruct o as [q|]; [|apply replacement_code_point].
    apply (pieces_code_points s). apply list_elem_of_In. by eapply list_elem_of_lookup_2.
Qed.

Lemma truncate_len v m : (13 <= m)%nat -> (char_len (pr_truncate v m) <= m)%nat.
Proof.
  intros Hm. unfold pr_truncate. destruct (Nat.leb_spec (char_len v) m); [done|].
  rewrite char_take_len. change (char_len TRUNCATED_SUFFIX) with 13%nat. lia.
Qed.

Lemma truncate_nonempty v m : nonempty v = true -> nonempty (pr_truncate v m) = true.
Proof.
  intros Hv. unfold pr_truncate. destruct (Nat.leb _ m); [done|].
  by destruct (char_take _ v).
Qed.

Lemma title_ok i : nonempty (input_title i) = true /\ (char_len (input_title i) <= MAX_TITLE_CHARS)%nat.
Proof.
  unfold input_title, render_title. split; [|apply truncate_len; unfold MAX_TITLE_CHARS; lia].
  apply truncate_nonempty. destruct (truthy_str (pi_override i)) as [o|] eqn:E; [|done].
  unfold truthy_str in E. destruct (pi_override i) as [x|]; [|done]. by destruct (nonempty x) eqn:Ex; simplify_eq.
Qed.

Lemma body_ok i : nonempty (input_body i) = true /\ (char_len (input_body i) <= MAX_BODY_CHARS)%nat.
Proof.
  unfold input_body, render_body. split; [by apply truncate_nonempty|].
  apply truncate_len. apply Nat.leb_le. vm_compute. reflexivity.
Qed.

(** A reference survives the state dictionary. *)
Lemma ref_roundtrip r : check_ref r = true -> ref_validate (ref_dump r) = Ok r.
Proof. destruct r. intros H. unfold ref_validate. cbn. unfold make_ref. by rewrite H. Qed.

(** ** The run *)

Definition skipped_output (label : string) (i : PrInput) (reason : string) : AutoPROutput :=
  mkAutoPROutput "skipped" label None None (input_title i) (input_body i) (pi_head_branch i) (pi_base_ref i)
    (pi_head_commit_sha i) (Some reason).
Definition published_output (i : PrInput) (ref : PullRequestRef) : AutoPROutput :=
  mkAutoPROutput (pr_action ref) (pr_provider ref) (Some (pr_url ref)) (Some (pr_pr_id ref)) (input_title i)
    (input_body i) (pi_head_branch i) (pi_base_ref i) (pi_head_commit_sha i) None.
Definition pr_request (s : TaskRunState) (i : PrInput) : PrRequest :=
  mkPrRequest (tenant_id s) (trace_id s) (default "" (pi_repo_url i)) (pi_base_ref i) (pi_head_branch i)
    (default "" (pi_head_commit_sha i)) (input_title i) (input_body i).

Lemma required_ok s k x : pr_required_str s k = Ok x -> nonempty x = true.
Proof.
  unfold pr_required_str. destruct (as_nonempty_str _) as [y|] eqn:E; [|done]. intros [= <-].
  apply as_nonempty_str_Some in E as [_ E]. by apply nonempty_true.
Qed.

Lemma read_input_ok s i :
  read_input s = Ok i -> nonempty (pi_base_ref i) = true /\ nonempty (pi_head_branch i) = true.
Proof.
  unfold read_input. intros (b & Hb & (h & Hh & H)%res_bind_inv)%res_bind_inv.
  repeat (apply res_bind_inv in H as (? & ? & H)). injection H as <-. cbn.
  split; by eapply required_ok.
Qed.

Lemma provider_label_nonempty {W} (p : option (ProviderObject W)) : nonempty (provider_label p) = true.
Proof.
  destruct p as [[a b f]|]; [|done]. cbn. destruct a as [x|]; cbn; [destruct (nonempty x) eqn:E; [done|]|];
    (destruct b as [y|]; cbn; [destruct (nonempty y) eqn:E'|]; done).
Qed.

Section Run.
Context {W : Type} (p : ProviderObject W) (exn_str : exn -> string).
Notation provider := (Some p).

Definition pr_graph : Graph W :=
  mkGraph AUTO_PR_GRAPH_ID
    [("prepare", pr_prepare provider); ("publish", pr_publish provider exn_str); ("finalize", pr_finalize provider)]
    [("prepare", mkEdge (Some "publish") None); ("publish", mkEdge (Some "finalize") None);
     ("finalize", mkEdge (Some END) None)]
    (Some "prepare").

Lemma build_auto_pr_eq : build_auto_pr_graph provider exn_str = Ok pr_graph.
Proof. reflexivity. Qed.

Lemma output_checks i o :
  nonempty (pi_base_ref i) = true -> nonempty (pi_head_branch i) = true ->
  ao_title o = input_title i -> ao_body o = input_body i -> ao_head_branch o = pi_head_branch i ->
  ao_base_ref o = pi_base_ref i -> nonempty (ao_provider o) = true ->
  str_in ["created"; "reused"; "skipped"] (ao_action o) = true ->
  match ao_reason o with None => True
  | Some r => str_in ["no_repo_url"; "no_commit_sha"; "verifier_failed"] r = true end ->
  check_output o = Ok o.
Proof.
  intros Hb Hh Ht Hbody Hhb Hbr Hp Ha Hr. unfold check_output.
  destruct (title_ok i) as [T1 T2], (body_ok i) as [B1 B2]. apply Nat.leb_le in T2, B2.
  rewrite Ht, Hbody, Hhb, Hbr, Hp, Ha, T1, T2, B1, B2, Hb, Hh. cbn [andb].
  destruct (ao_reason o); [by rewrite Hr|done].
Qed.

(** [finalize] on the scratch of [prepare]. *)
Lemma scratch_sha i : as_str (getd (pr_scratch i) "head_commit_sha") = pi_head_commit_sha i.
Proof. cbn. by destruct (pi_head_commit_sha i). Qed.

Lemma pr_output_eq i published :
  pr_output provider (pr_scratch i) published =
  let? o := match getd published "ref" with
            | JDict raw =>
                let? ref := or_graph_error "auto_pr: invalid provider ref" (ref_validate raw) in
                Ok (published_output i ref)
            | _ => match getd published "skip_reason" with
                   | JStr reason => Ok (skipped_output (provider_label provider) i reason)
                   | _ => Err (GraphError "auto_pr: missing skip_reason on skipped path")
                   end
            end in
  or_graph_error "auto_pr: invalid output shape" (check_output o).
Proof. unfold pr_output. rewrite scratch_sha. reflexivity. Qed.

Lemma output_skipped i reason :
  nonempty (pi_base_ref i) = true -> nonempty (pi_head_branch i) = true -> skip_reason i = Some reason ->
  pr_output provider (pr_scratch i) [("ref", JNull); ("skip_reason", JStr reason)] =
    Ok (skipped_output (provider_label provider) i reason).
Proof.
  intros Hb Hh Hs. rewrite pr_output_eq.
  change (or_graph_error "auto_pr: invalid output shape"
            (check_output (skipped_output (provider_label provider) i reason)) =
          Ok (skipped_output (provider_label provider) i reason)).
  rewrite (output_checks i); try done; [by apply provider_label_nonempty|]. cbn. unfold skip_reason in Hs.
  destruct (pi_repo_url i), (pi_head_commit_sha i), (pi_verifier_passed i); by simplify_eq.
Qed.

Lemma output_published i ref :
  nonempty (pi_base_ref i) = true -> nonempty (pi_head_branch i) = true -> check_ref ref = true ->
  pr_output provider (pr_scratch i) [("ref", JDict (ref_dump ref)); ("skip_reason", JNull)] =
    Ok (published_output i ref).
Proof.
  intros Hb Hh Hr. rewrite pr_output_eq.
  change (getd [("ref", JDict (ref_dump ref)); ("skip_reason", JNull)] "ref") with (JDict (ref_dump ref)).
  cbv iota beta. rewrite ref_roundtrip by done.
  change (or_graph_error "auto_pr: invalid output shape" (check_output (published_output i ref)) =
          Ok (published_output i ref)).
  unfold check_ref in Hr. repeat (apply andb_true_iff in Hr as [Hr ?]).
  rewrite (output_checks i); try done. cbn.
  destruct (String.eqb (pr_action ref) "created"), (String.eqb (pr_action ref) "reused"); done.
Qed.

(** Where the run is after [prepare] and after [publish]. *)
Definition prepared (s : TaskRunState) (i : PrInput) : TaskRunState :=
  goto (advance s "prepare" [("_auto_pr", JDict (pr_scratch i))] None None None) "publish".
Definition published (s : TaskRunState) (d : dict) : TaskRunState :=
  goto (advance s "publish" [("_auto_pr_publish", JDict d)] None None None) "finalize".

Lemma node_shape (s : TaskRunState) (w : W) fn r w' :
  fn = pr_prepare provider \/ fn = pr_publish provider exn_str \/ fn = pr_finalize provider ->
  fn s w = (Ok r, w') -> exists u, r = node_update u.
Proof.
  intros [->|[->| ->]]; unfold pr_prepare, pr_publish, pr_finalize, bind, lift, ret.
  - destruct (read_input s); [|done]. intros [= <- <-]. by eexists.
  - destruct (getd (data s) "_auto_pr"); try done.
    destruct (getd d "skip_reason"); try (intros [= <- <-]; by eexists).
    repeat (destruct (scratch_str d _); [|done]). unfold try_except.
    destruct (po_open p _ w) as [[ref|e] w1]; [intros [= <- <-]; by eexists|].
    by destruct (is_git_error e).
  - destruct (getd (data s) "_auto_pr"); try done. destruct (getd (data s) "_auto_pr_publish"); try done.
    destruct (pr_output _ _ _); [|done]. intros [= <- <-]. by eexists.
Qed.

Lemma run_prepare k s w :
  at_start s -> run pr_graph (S k) s w =
  match read_input s with Ok i => run pr_graph k (prepared s i) w | Err e => (Err e, w) end.
Proof.
  intros Hs. rewrite (run_node pr_graph "prepare" k "prepare" (pr_prepare provider) s w (fun _ => "publish"));
    [|done|by apply at_start_entry|done|done|intros; eapply node_shape; [by left|done]].
  unfold pr_prepare, bind, lift. by destruct (read_input s).
Qed.

Lemma getd_prepared s i : awaiting_approval s = false -> getd (data (prepared s i)) "_auto_pr" = JDict (pr_scratch i).
Proof. intros _. unfold prepared. cbn [data goto advance]. by simp_dict. Qed.

Lemma run_publish k s i w :
  awaiting_approval s = false -> run pr_graph (S k) (prepared s i) w =
  match skip_reason i with
  | Some reason => run pr_graph k (published (prepared s i) [("ref", JNull); ("skip_reason", JStr reason)]) w
  | None =>
      match po_open p (pr_request s i) w with
      | (Ok ref, w') => run pr_graph k (published (prepared s i)
                          [("ref", JDict (ref_dump ref)); ("skip_reason", JNull)]) w'
      | (Err e, w') => (Err (if is_git_error e
                             then GraphError ("auto_pr: git provider failed: " +:+ exn_str e) else e), w')
      end
  end.
Proof.
  intros Ha. rewrite (run_node pr_graph "prepare" k "publish" (pr_publish provider exn_str) _ w (fun _ => "finalize"));
    [|done|by apply at_node_goto|done|done|intros; eapply node_shape; [by right; left|done]].
  unfold pr_publish. rewrite getd_prepared by done.
  change (getd (pr_scratch i) "skip_reason") with (opt_json JStr (skip_reason i)).
  destruct (skip_reason i) as [reason|] eqn:Es; [done|]. cbn [opt_json].
  unfold skip_reason in Es. destruct (pi_repo_url i) as [u|] eqn:Eu; [|done].
  destruct (pi_head_commit_sha i) as [c|] eqn:Ec; [|done].
  unfold bind, lift. cbn [scratch_str pr_scratch dget String.eqb Ascii.eqb Bool.eqb].
  unfold pr_request, pr_scratch. rewrite Eu, Ec. cbn. unfold try_except.
  destruct (po_open p _ w) as [[ref|e] w1]; [done|]. by destruct (is_git_error e).
Qed.

Lemma run_finalize k s i d o w :
  awaiting_approval s = false -> pr_output provider (pr_scratch i) d = Ok o ->
  exists s', run pr_graph (S k) (published (prepared s i) d) w = (Ok s', w) /\ finished s' = true /\
    getd (data s') "output" = JDict (output_dump o).
Proof.
  intros Ha Ho. rewrite (run_node pr_graph "prepare" k "finalize" (pr_finalize provider) _ w (fun _ => END));
    [|done|by apply at_node_goto|done|done|intros; eapply node_shape; [by right; right|done]].
  unfold pr_finalize.
  assert (getd (data (published (prepared s i) d)) "_auto_pr" = JDict (pr_scratch i)) as ->.
  { unfold published, prepared. cbn [data goto advance]. by simp_dict. }
  assert (getd (data (published (prepared s i) d)) "_auto_pr_publish" = JDict d) as ->.
  { unfold published, prepared. cbn [data goto advance]. by simp_dict. }
  unfold bind, lift. rewrite Ho. cbv zeta. cbn [nr_data_update node_update ret].
  eexists. split; [by rewrite run_inactive|]. split; [done|]. cbn [data goto advance]. by simp_dict.
Qed.

(** What an auto_pr run does.  A payload that breaks the contract fails before
    anything is published; a run without repository, commit or passing verifier
    finishes as skipped, naming the first of these that is missing, and does not
    call the provider; otherwise the provider is called once, with the payload's
    repository, branches and commit, and the run finishes with the reference it
    returned or fails with its error.  Titles have at most 200 characters and
    bodies at most 8192. *)
Theorem auto_pr_run g s w j :
  build_auto_pr_graph provider exn_str = Ok g -> at_start s ->
  match read_input s with
  | Err e => run g (3 + j) s w = (Err e, w)
  | Ok i =>
      (char_len (input_title i) <= 200)%nat /\ (char_len (input_body i) <= 8192)%nat /\
      match skip_reason i with
      | Some reason =>
          exists s', run g (3 + j) s w = (Ok s', w) /\ finished s' = true /\
            getd (data s') "output" = JDict (output_dump (skipped_output (provider_label provider) i reason))
      | None =>
          pi_verifier_passed i = true /\
          match po_open p (pr_request s i) w with
          | (Err e, w') => exists e', run g (3 + j) s w = (Err e', w') /\
              (if is_git_error e then exists m, e' = GraphError m else e' = e)
          | (Ok ref, w') => check_ref ref = true ->
              exists s', run g (3 + j) s w = (Ok s', w') /\ finished s' = true /\
                getd (data s') "output" = JDict (output_dump (published_output i ref))
          end
      end
  end.
Proof.
  intros [= <-] Hs. change (3 + j)%nat with (S (S (S j))). rewrite run_prepare by done.
  destruct (read_input s) as [i|e] eqn:Ei; [|done]. apply read_input_ok in Ei as [Hb Hh].
  destruct Hs as (_ & Ha & _). split; [apply title_ok|]. split; [apply body_ok|].
  rewrite run_publish by done. destruct (skip_reason i) as [reason|] eqn:Es.
  - apply run_finalize with (i := i); [done|by apply output_skipped].
  - split. { unfold skip_reason in Es. by destruct (pi_repo_url i), (pi_head_commit_sha i), (pi_verifier_passed i). }
    destruct (po_open p (pr_request s i) w) as [[ref|e] w'].
    + intros Hr. apply run_finalize with (i := i); [done|by apply output_published].
    + eexists. split; [done|]. destruct (is_git_error e); [by eexists|done].
Qed.
End Run.

(** ** The pull request a bug fix leads to *)

Definition PAYLOAD_KEYS : list string :=
  ["base_ref"; "head_branch"; "issue_title"; "verifier_passed"; "repo_url"; "head_commit_sha";
   "issue_description"; "pr_title_override"; "diff_stat"; "verifier_output"].

(** The follow-up's payload is always a valid input of the graph. *)
Lemma follow_up_input parent result spec out s :
  bug_fix_to_auto_pr_policy parent result = Some spec -> tr_output result = Some out ->
  (forall k, k ∈ PAYLOAD_KEYS -> getd (data s) k = getd (fu_input_payload spec) k) ->
  exists i, read_input s = Ok i /\
    opt_json JStr (pi_repo_url i) = getd out "repo_url" /\
    opt_json JStr (pi_head_commit_sha i) = getd out "head_commit_sha" /\
    JStr (pi_head_branch i) = getd out "head_branch" /\ JStr (pi_base_ref i) = getd out "base_ref" /\
    pi_repo_url i <> None /\ pi_head_commit_sha i <> None /\
    pi_verifier_passed i = truthy (default (JBool false) (dget out "verifier_passed")).
Proof.
  intros Hp Ho Hk. unfold bug_fix_to_auto_pr_policy in Hp.
  destruct (negb (bool_decide _)); [done|]. destruct (tr_status result); [|done]. rewrite Ho in Hp.
  destruct (negb (truthy (getd out "pushed"))); [done|].
  destruct (as_nonempty_str (getd out "repo_url")) as [u|] eqn:E1; [|done].
  destruct (as_nonempty_str (getd out "head_commit_sha")) as [c|] eqn:E2; [|done].
  destruct (as_nonempty_str (getd out "head_branch")) as [b|] eqn:E3; [|done].
  destruct (as_nonempty_str (getd out "base_ref")) as [r|] eqn:E4; [|done].
  apply as_nonempty_str_Some in E1 as [E1 N1], E2 as [E2 N2], E3 as [E3 N3], E4 as [E4 N4].
  apply nonempty_true in N1, N2, N3, N4. injection Hp as <-.
  set (desc := default "" (as_str (default (JStr "") (dget (t_input_payload parent) "issue_description")))) in *.
  assert (Ht : nonempty (derive_issue_title desc) = true) by (apply nonempty_true, derive_issue_title_bounds).
  unfold read_input, pr_required_str, pr_optional_str, pr_required_bool, str_or_empty.
  assert (Hstr : forall x, nonempty x = true -> as_nonempty_str (JStr x) = Some x).
  { intros x Hx. unfold as_nonempty_str, nonempty in *. by destruct (String.eqb x ""). }
  rewrite !Hk by (unfold PAYLOAD_KEYS; set_solver). cbn [fu_input_payload].
  match goal with |- context [getd ?l "base_ref"] => set (pl := l) end.
  change (getd pl "base_ref") with (JStr r). change (getd pl "head_branch") with (JStr b).
  change (getd pl "issue_title") with (JStr (derive_issue_title desc)).
  change (getd pl "repo_url") with (JStr u). change (getd pl "head_commit_sha") with (JStr c).
  change (getd pl "issue_description") with (JStr desc). change (getd pl "pr_title_override") with JNull.
  change (getd pl "verifier_passed") with (JBool (truthy (default (JBool false) (dget out "verifier_passed")))).
  rewrite !Hstr by done. rewrite N1, N2. cbn [res_bind].
  eexists. split; [reflexivity|]. cbn. by split_and!.
Qed.

(** The final state carries an output in which these keys have these values. *)
Definition reports (s : TaskRunState) (kvs : list (string * json)) : Prop :=
  exists o, getd (data s) "output" = JDict o /\ Forall (fun kv => getd o kv.1 = kv.2) kvs.

(** C23: the pull request of a bug fix.  Whatever follow-up the chain policy derives
    from a bug fix result, the auto_pr run on its payload never fails its contract.
    If the result's verifier passed, the run consults the provider exactly once,
    with the repository, commit, branch and base the bug fix reported; when the
    provider returns a well-formed reference, the run finishes with an output that
    carries its action, provider, URL and id together with the bug fix's branch,
    base and commit, and when it fails, the run fails, with a graph error if the
    failure is a git error and with the failure itself otherwise.  If the verifier
    did not pass, the provider is not consulted, nothing changes, and the run
    finishes with an output of action skipped and reason verifier_failed, without a
    reference. *)
Theorem chained_pr_published {W} (p : ProviderObject W) exn_str g parent result spec out s w j :
  bug_fix_to_auto_pr_policy parent result = Some spec -> tr_output result = Some out ->
  (forall k, k ∈ PAYLOAD_KEYS -> getd (data s) k = getd (fu_input_payload spec) k) ->
  build_auto_pr_graph (Some p) exn_str = Ok g -> at_start s ->
  let place := map (fun k => (k, getd out k)) ["head_branch"; "base_ref"; "head_commit_sha"] in
  if truthy (default (JBool false) (dget out "verifier_passed")) then
    exists q, JStr (pq_repo_url q) = getd out "repo_url" /\
      JStr (pq_head_commit_sha q) = getd out "head_commit_sha" /\
      JStr (pq_head_branch q) = getd out "head_branch" /\ JStr (pq_base_ref q) = getd out "base_ref" /\
      match po_open p q w with
      | (Ok ref, w') => check_ref ref = true ->
          exists s', run g (3 + j) s w = (Ok s', w') /\ finished s' = true /\
            reports s' ([("action", JStr (pr_action ref)); ("provider", JStr (pr_provider ref));
                         ("pr_ref", JStr (pr_url ref)); ("pr_id", JStr (pr_pr_id ref)); ("reason", JNull)] ++ place)
      | (Err e, w') => exists e', run g (3 + j) s w = (Err e', w') /\
          (if is_git_error e then exists m, e' = GraphError m else e' = e)
      end
  else exists s', run g (3 + j) s w = (Ok s', w) /\ finished s' = true /\
    reports s' ([("action", JStr "skipped"); ("reason", JStr "verifier_failed");
                 ("pr_ref", JNull); ("pr_id", JNull)] ++ place).
Proof.
  intros Hp Ho Hk Hg Hs place. rewrite build_auto_pr_eq in Hg. injection Hg as <-.
  change (3 + j)%nat with (S (S (S j))). rewrite run_prepare by done.
  destruct (follow_up_input parent result spec out s Hp Ho Hk) as (i & Ei & Hu & Hc & Hh & Hb & Nu & Nc & Hv).
  rewrite Ei. apply read_input_ok in Ei as [N1 N2]. destruct Hs as (_ & Ha & _). rewrite run_publish by done.
  assert (Hplace : place = [("head_branch", JStr (pi_head_branch i)); ("base_ref", JStr (pi_base_ref i));
    ("head_commit_sha", opt_json JStr (pi_head_commit_sha i))]) by (unfold place; cbn [map]; by rewrite Hc, Hh, Hb).
  rewrite Hplace. clear place Hplace.
  destruct (pi_repo_url i) as [u|] eqn:Eu; [|done]. destruct (pi_head_commit_sha i) as [c|] eqn:Ec; [|done].
  assert (Hskip : skip_reason i = if pi_verifier_passed i then None else Some "verifier_failed")
    by (unfold skip_reason; by rewrite Eu, Ec).
  rewrite Hskip, <- Hv. destruct (pi_verifier_passed i).
  - exists (pr_request s i). unfold pr_request at 1 2. cbn [pq_repo_url pq_head_commit_sha]. rewrite Eu, Ec.
    split_and!; try done. destruct (po_open p (pr_request s i) w) as [[ref|e] w'].
    2: { eexists. split; [done|]. destruct (is_git_error e); [by eexists|done]. }
    intros Hr. destruct (run_finalize p exn_str j s i _ (published_output i ref) w' Ha
      (output_published p i ref N1 N2 Hr)) as (s' & H1 & H2 & H3). exists s'. split_and!; [done..|].
    eexists. split; [exact H3|]. unfold published_output. rewrite Ec. by repeat constructor.
  - destruct (run_finalize p exn_str j s i _ _ w Ha (output_skipped p i "verifier_failed" N1 N2 Hskip))
      as (s' & H1 & H2 & H3). exists s'. split_and!; [done..|].
    eexists. split; [exact H3|]. unfold skipped_output. rewrite Ec. by repeat constructor.
Qed.

(** ** Witnesses: a verified bug fix published through the fake provider *)

Definition demo_parent : Task :=
  mkTask "t1" "acme" None "alice" "tr1" None BUG_FIX None SUCCEEDED AUTO BP_NONE None
    [("issue_description", JStr "crash on empty input")] 0 0.
Definition demo_out : dict :=
  [("pushed", JBool true); ("repo_url", JStr "https://github.com/o/r"); ("head_commit_sha", JStr "c0ffee");
   ("head_branch", JStr "fix"); ("base_ref", JStr "main"); ("verifier_passed", JBool true)].
Definition demo_result : TaskResult :=
  mkTaskResult "t1" "acme" "tr1" "builtin.bug_fix" RS_succeeded (Some demo_out) None 5 0 0.
Definition demo_spec : FollowUpSpec :=
  default (mkFollowUpSpec AUTO_PR [] "" "") (bug_fix_to_auto_pr_policy demo_parent demo_result).
Definition demo_pr_start : TaskRunState :=
  initial_state "t2" "acme" "tr1" AUTO_PR_GRAPH_ID (fu_input_payload demo_spec).
Definition demo_fake : Fake := mkFake ∅ [] 0 (fun n => "pr-" +:+ pretty n).
Definition demo_object : ProviderObject Fake := mkProviderObject None (Some "fake") fake_open_or_reuse_pr.

Example demo_pr_published :
  match run (pr_graph demo_object (fun _ => "")) 3 demo_pr_start demo_fake with
  | (Ok s', f) => (getd (data s') "output", length (fk_calls f))
  | _ => (JNull, 0%nat)
  end = (JDict (output_dump (published_output
           (mkPrInput "main" "fix" "crash on empty input" true (Some "https://github.com/o/r") (Some "c0ffee")
              (Some "crash on empty input") None "" "")
           (mkPullRequestRef "fake" "pr-0" "fake://fake/acme/pr-0" "created" "fix" "main" "c0ffee"))), 1%nat).
Proof. vm_compute. reflexivity. Qed.

Lemma chained_pr_published_witness :
  exists q s', JStr (pq_repo_url q) = JStr "https://github.com/o/r" /\
    run (pr_graph demo_object (fun _ => "")) 3 demo_pr_start demo_fake =
      (Ok s', (fake_open_or_reuse_pr q demo_fake).2).
Proof.
  assert (Hfake : forall q, pq_repo_url q = "https://github.com/o/r" -> pq_head_commit_sha q = "c0ffee" ->
    pq_head_branch q = "fix" -> pq_base_ref q = "main" ->
    exists ref f, fake_open_or_reuse_pr q demo_fake = (Ok ref, f) /\ check_ref ref = true).
  { intros [te tr u b h c ti bo]; cbn; intros -> -> -> ->. by eexists _, _. }
  pose proof (chained_pr_published demo_object (fun _ => "") (pr_graph demo_object (fun _ => "")) demo_parent
    demo_result demo_spec demo_out demo_pr_start demo_fake 0 ltac:(vm_compute; reflexivity) eq_refl
    ltac:(by intros k _) (build_auto_pr_eq _ _) ltac:(by split_and!)) as H. cbv zeta in H.
  set (place := map _ _) in H. clearbody place. destruct H as (q & H1 & H2 & H3 & H4 & H5).
  change (getd demo_out "repo_url") with (JStr "https://github.com/o/r") in H1.
  change (getd demo_out "head_commit_sha") with (JStr "c0ffee") in H2.
  change (getd demo_out "head_branch") with (JStr "fix") in H3. change (getd demo_out "base_ref") with (JStr "main") in H4.
  injection H1 as H1. injection H2 as H2. injection H3 as H3. injection H4 as H4.
  destruct (Hfake q H1 H2 H3 H4) as (ref & f & E & Hr). cbn [po_open demo_object] in H5. rewrite E in H5.
  destruct (H5 Hr) as (s' & H6 & _). exists q, s'. rewrite H1, E. by split.
Defined.
