(* ===== verification/Wiring.v ===== *)
(** * Wiring: the guards that guard nothing, and the stack of the worker

    [infra/circuitbreaker/noop.py], [infra/ratelimit/noop.py],
    [infra/budget/noop.py], the wrappers of [worker/bootstrap.py] around the
    language model and the git provider, and [update_context].  The decorators
    themselves are those of [LlmClients] and [GitProvider]. *)

From S2P Require Import Prelude Domain RateLimit LlmClients GitProvider.

(** ** The no-op backends *)

Section Noop.
Context {W : Type}.
Definition noop_breaker_call {A} (key : string) (fn : M W A) (should_count : option (exn -> bool)) : M W A := fn.

Definition SENTINEL_REMAINING : Z := 1000000000.
Definition noop_acquire (key : string) (cost : Z) : M W RateLimitDecision :=
  if cost <? 1 then raise (ValueError "cost must be >= 1")
  else ret (mkDecision true SENTINEL_REMAINING None).

Definition noop_budget_check (tenant : string) : M W BudgetDecision :=
  ret (mkBudgetDecision true (mkBudgetUsage 0 0) None).
End Noop.

(** ** [update_context] *)

Section Context.
Context {W : Type} `{HC : HasContext W}.
(** [fields] is [dataclasses.replace] on the bound context. *)
Definition update_context {A} (fields : RequestContext -> RequestContext) (body : M W A) : M W A :=
  current <- require_current ;;
  bind_context (fields current) body.
End Context.

(** ** The wrappers *)

Section Wrappers.
Context {W : Type} `{!HasContext W, !HasBudgetCache W} (env : LlmEnv W).

Definition build_metered_llm (inner : LLMClient W) (record : LLMUsageRecord -> M W unit) : LLMClient W :=
  metered env record inner.
Definition build_routed_llm (inner : LLMClient W) (mapping : list (string * string)) : LLMClient W :=
  routing mapping inner.
(** The decorators fail open unless they are told otherwise. *)
Definition build_rate_limited_llm (inner : LLMClient W) (acquire : string -> M W RateLimitDecision) : LLMClient W :=
  rate_limited env acquire true inner.
Definition build_circuit_breaking_llm (inner : LLMClient W) (call : BreakerCall (W := W)) : LLMClient W :=
  circuit_breaking env call true inner.
Definition build_budget_enforcing_llm (inner : LLMClient W) (check : string -> M W BudgetDecision)
    (cache_ttl : Z) (fail_open : bool) : LLMClient W :=
  budget_enforcing env check fail_open cache_ttl inner.
Definition build_circuit_breaking_git_provider (inner : GitProvider W) (call : GitBreakerCall (W := W)) : GitProvider W :=
  circuit_breaking_git env call true inner.
Definition build_rate_limited_git_provider (inner : GitProvider W) (acquire : string -> M W RateLimitDecision)
    : GitProvider W := rate_limited_git env acquire true inner.

(** The client [build_worker] hands to the graphs. *)
Definition worker_llm (provider : LLMClient W) (call : BreakerCall (W := W)) (record : LLMUsageRecord -> M W unit)
    (acquire : string -> M W RateLimitDecision) (check : string -> M W BudgetDecision) (cache_ttl : Z) (fail_open : bool)
    (mapping : list (string * string)) (patterns : list RedactionPattern) : LLMClient W :=
  let breaking_llm := build_circuit_breaking_llm provider call in
  let metered_llm := build_metered_llm breaking_llm record in
  let rate_limited_llm := build_rate_limited_llm metered_llm acquire in
  let budget_enforcing_llm := build_budget_enforcing_llm rate_limited_llm check cache_ttl fail_open in
  redacting env patterns (build_routed_llm budget_enforcing_llm mapping).

(** It is the stack the theorems of [LlmFacts] are about. *)
Lemma worker_llm_is_stack provider call record acquire check ttl fail_open mapping patterns :
  worker_llm provider call record acquire check ttl fail_open mapping patterns =
  llm_stack env call true record acquire true check fail_open ttl mapping patterns provider.
Proof. done. Qed.
Lemma worker_git_is_stack provider call acquire :
  build_rate_limited_git_provider (build_circuit_breaking_git_provider provider call) acquire =
  git_stack env acquire call true true provider.
Proof. done. Qed.

(** A backend that is switched off changes nothing: the breaker and the limiter
    forward the call as it is, the budget check lets it pass. *)
Lemma noop_limiter_transparent inner r w :
  build_rate_limited_llm inner (fun key => noop_acquire key 1) r w = inner r w.
Proof. done. Qed.
Lemma noop_breaker_transparent inner r w :
  (forall e, (inner r w).1 = Err e -> e <> CircuitBreakerBackendError /\ forall retry, e <> CircuitBreakerOpenError retry) ->
  build_circuit_breaking_llm inner noop_breaker_call r w = inner r w.
Proof.
  intros H. unfold build_circuit_breaking_llm, circuit_breaking, bind, get_current, noop_breaker_call, try_except.
  destruct (inner r w) as [[a|e] w']; [done|]. destruct (H e eq_refl) as [H1 H2].
  destruct e; try done. by destruct (H2 retry_after_ms).
Qed.
End Wrappers.
