(* ===== verification/PermissionGate.v ===== *)
(** * PermissionGate: the rendezvous between a waiting tool call and a user

    [infra/permission/in_memory.py] and [infra/permission/redis_gate.py].  A worker
    waits in [request]; the API answers with [deliver]; clients watch prompts
    through bounded queues.  The coroutines of the in-memory gate interleave at
    their awaits only, so each operation below is one step of [gstep]: a request
    is the step that registers it and a later step that finishes it, and anything
    may happen in between.  The Redis gate is a program over a pub/sub server
    whose messages reach only the connections subscribed when they are sent. *)

From S2P Require Import Prelude PyText Utf8 Domain GraphRuntime Results ShellAgent.

(** ** The in-memory gate *)

Definition DEFAULT_PROMPT_QUEUE_MAXSIZE : nat := 64.

Inductive future : Type :=
  | Pending
  | Decided (d : PermissionDecision)
  | Cancelled.

(** Futures and queues are shared objects: [g_futures] and [g_queues] are their
    store, [g_pending] and [g_channels] hold references to them, [g_inflight] the
    prompt each waiting [request] coroutine is about. *)
Record Gate : Type := mkGate {
  g_maxsize : nat;
  g_pending : gmap string nat;
  g_channels : gmap string (list nat);
  g_dropped : Z;
  g_futures : gmap nat future;
  g_queues : gmap nat (list PermissionPrompt);
  g_inflight : gmap nat string;
  g_next : nat
}.

Definition gate_init (maxsize : Z) : res Gate :=
  if maxsize <=? 0 then Err (ValueError "prompt_queue_maxsize must be > 0")
  else Ok (mkGate (Z.to_nat maxsize) ∅ ∅ 0 ∅ ∅ ∅ 0).

Definition channel_key (tenant task : string) : string := tenant +:+ "::" +:+ task.

(** One queue of the fan-out: a full queue loses its oldest prompt. *)
Definition offer (maxsize : nat) (q : list PermissionPrompt) (p : PermissionPrompt)
    : list PermissionPrompt * Z :=
  if Nat.leb maxsize (length q) then (tail q ++ [p], 1) else (q ++ [p], 0).

Definition fan_out (p : PermissionPrompt) (ids : list nat) (g : Gate) : Gate :=
  fold_left (fun g i =>
    let q := default [] (g_queues g !! i) in
    let '(q', lost) := offer (g_maxsize g) q p in
    mkGate (g_maxsize g) (g_pending g) (g_channels g) (g_dropped g + lost) (g_futures g)
      (<[i := q']> (g_queues g)) (g_inflight g) (g_next g)) ids g.

(** [request] up to its [await]: returns the future it waits on. *)
Definition request_start (p : PermissionPrompt) (timeout : Z) (g : Gate) : res (nat * Gate) :=
  if timeout <=? 0 then Err (ValueError "timeout_seconds must be > 0") else
  match g_pending g !! pp_prompt_id p with
  | Some _ => Err (ValueError ("prompt_id " +:+ py_repr_str (pp_prompt_id p) +:+
                                 " already has a pending request"))
  | None =>
      let fid := g_next g in
      let g1 := mkGate (g_maxsize g) (<[pp_prompt_id p := fid]> (g_pending g)) (g_channels g) (g_dropped g)
                  (<[fid := Pending]> (g_futures g)) (g_queues g)
                  (<[fid := pp_prompt_id p]> (g_inflight g)) (S fid) in
      Ok (fid, fan_out p (default [] (g_channels g !! channel_key (pp_tenant_id p) (pp_task_id p))) g1)
  end.

(** [request] from the end of [wait_for] on: the future's result, or a timeout,
    which cancels the future; [finally] forgets the prompt. *)
Definition request_finish (fid : nat) (timed_out : bool) (g : Gate)
    : option (res PermissionDecision * Gate) :=
  match g_inflight g !! fid, g_futures g !! fid with
  | Some pid, Some f =>
      let out := match f with
                 | Decided d => Some (Ok d)
                 | Cancelled => Some (Err CancelledError)
                 | Pending => if timed_out then Some (Err PermissionTimeoutError) else None
                 end in
      match out with
      | None => None
      | Some r =>
          Some (r, mkGate (g_maxsize g) (delete pid (g_pending g)) (g_channels g) (g_dropped g)
                     (match f with Pending => <[fid := Cancelled]> (g_futures g) | _ => g_futures g end)
                     (g_queues g) (delete fid (g_inflight g)) (g_next g))
      end
  | _, _ => None
  end.

Definition with_futures (g : Gate) (f : gmap nat future) : Gate :=
  mkGate (g_maxsize g) (g_pending g) (g_channels g) (g_dropped g) f (g_queues g) (g_inflight g) (g_next g).

Definition deliver (d : PermissionDecision) (g : Gate) : Gate :=
  match g_pending g !! pd_prompt_id d with
  | None => g
  | Some fid =>
      match g_futures g !! fid with
      | Some Pending => with_futures g (<[fid := Decided d]> (g_futures g))
      | _ => g
      end
  end.

Definition subscribe_prompts (tenant task : string) (g : Gate) : nat * Gate :=
  let key := channel_key tenant task in
  let qid := g_next g in
  (qid, mkGate (g_maxsize g) (g_pending g)
          (<[key := default [] (g_channels g !! key) ++ [qid]]> (g_channels g)) (g_dropped g)
          (g_futures g) (<[qid := []]> (g_queues g)) (g_inflight g) (S qid)).

(** [__anext__] of an open subscription, when its queue is not empty. *)
Definition next_prompt (qid : nat) (g : Gate) : option (PermissionPrompt * Gate) :=
  match g_queues g !! qid with
  | Some (p :: q) =>
      Some (p, mkGate (g_maxsize g) (g_pending g) (g_channels g) (g_dropped g) (g_futures g)
                 (<[qid := q]> (g_queues g)) (g_inflight g) (g_next g))
  | _ => None
  end.

(** [list.remove]: the first occurrence. *)
Fixpoint remove_first (x : nat) (l : list nat) : list nat :=
  match l with [] => [] | y :: l' => if Nat.eqb x y then l' else y :: remove_first x l' end.

(** [aclose] of a subscription: [_unregister_prompt_subscriber]. *)
Definition unregister (key : string) (qid : nat) (g : Gate) : Gate :=
  match g_channels g !! key with
  | None => g
  | Some ids =>
      let ids' := remove_first qid ids in
      mkGate (g_maxsize g) (g_pending g)
        (match ids' with [] => delete key (g_channels g) | _ => <[key := ids']> (g_channels g) end)
        (g_dropped g) (g_futures g) (g_queues g) (g_inflight g) (g_next g)
  end.

Definition cancel_pending (f : future) : future := match f with Pending => Cancelled | _ => f end.

Definition close (g : Gate) : Gate :=
  mkGate (g_maxsize g) ∅ ∅ (g_dropped g)
    (map_imap (fun fid f => Some (if bool_decide (fid ∈ map_img (SA := gset nat) (g_pending g))
                                  then cancel_pending f else f)) (g_futures g))
    (g_queues g) (g_inflight g) (g_next g).

(** ** Interleavings *)

Inductive gevent : Type :=
  | Started (fid : nat) (p : PermissionPrompt)
  | Finished (fid : nat) (r : res PermissionDecision)
  | Delivered (d : PermissionDecision)
  | Subscribed (qid : nat) (tenant task : string)
  | Received (qid : nat) (p : PermissionPrompt)
  | Unsubscribed (qid : nat)
  | Closed.

Inductive gstep : Gate -> gevent -> Gate -> Prop :=
  | step_start g p timeout fid g' :
      request_start p timeout g = Ok (fid, g') -> gstep g (Started fid p) g'
  | step_finish g fid timed_out r g' :
      request_finish fid timed_out g = Some (r, g') -> gstep g (Finished fid r) g'
  | step_deliver g d : gstep g (Delivered d) (deliver d g)
  | step_subscribe g tenant task qid g' :
      subscribe_prompts tenant task g = (qid, g') -> gstep g (Subscribed qid tenant task) g'
  | step_receive g qid p g' : next_prompt qid g = Some (p, g') -> gstep g (Received qid p) g'
  | step_unsubscribe g key qid : gstep g (Unsubscribed qid) (unregister key qid g)
  | step_close g : gstep g Closed (close g).

Inductive gsteps : Gate -> list gevent -> Gate -> Prop :=
  | gsteps_nil g : gsteps g [] g
  | gsteps_cons g e g1 tr g2 : gstep g e g1 -> gsteps g1 tr g2 -> gsteps g (e :: tr) g2.

Definition gate_reachable (g : Gate) : Prop :=
  exists n g0 tr, gate_init n = Ok g0 /\ gsteps g0 tr g.

(** ** Facts about one operation *)

Lemma offer_length maxsize q p :
  (0 < maxsize)%nat -> (length q <= maxsize)%nat -> (length (offer maxsize q p).1 <= maxsize)%nat.
Proof.
  intros Hm Hq. unfold offer. destruct (Nat.leb_spec maxsize (length q)); simpl;
    rewrite length_app; simpl; [|lia]. destruct q; simpl in *; lia.
Qed.

Lemma offer_In maxsize q p x : In x (offer maxsize q p).1 -> In x q \/ x = p.
Proof.
  unfold offer. destruct (Nat.leb maxsize (length q)); simpl; rewrite in_app_iff.
  - intros [Hx|[<-|[]]]; [|by right]. left. destruct q; [done|by right].
  - intros [Hx|[<-|[]]]; auto.
Qed.

(** The fan-out changes queues and the drop counter only, and a queue only by
    offering it the prompt. *)
Lemma fan_out_frame p ids g :
  let g' := fan_out p ids g in
  g_maxsize g' = g_maxsize g /\ g_pending g' = g_pending g /\ g_channels g' = g_channels g /\
  g_futures g' = g_futures g /\ g_inflight g' = g_inflight g /\ g_next g' = g_next g.
Proof.
  cbv zeta. unfold fan_out. revert g. induction ids as [|i ids IH]; intros g; [done|].
  cbn [fold_left]. destruct (offer _ _ p) as [q' lost]. destruct (IH (mkGate (g_maxsize g) (g_pending g)
    (g_channels g) (g_dropped g + lost) (g_futures g) (<[i:=q']> (g_queues g)) (g_inflight g) (g_next g)))
    as (H1 & H2 & H3 & H4 & H5 & H6). rewrite H1, H2, H3, H4, H5, H6. done.
Qed.

Lemma fan_out_queues p ids g i q' :
  (0 < g_maxsize g)%nat ->
  g_queues (fan_out p ids g) !! i = Some q' ->
  (g_queues g !! i = Some q' \/
   (In i ids /\ (forall x, In x q' -> x = p \/ In x (default [] (g_queues g !! i))) /\
    ((length (default [] (g_queues g !! i)) <= g_maxsize g)%nat -> (length q' <= g_maxsize g)%nat))).
Proof.
  intros Hm. unfold fan_out. revert g Hm. induction ids as [|j ids IH]; intros g Hm; [by left|].
  cbn [fold_left]. destruct (offer (g_maxsize g) (default [] (g_queues g !! j)) p) as [qj lost] eqn:Eo.
  intros Hq. apply IH in Hq; [|done]. cbn [g_queues g_maxsize] in Hq.
  assert (Hin : forall x, In x qj -> x = p \/ In x (default [] (g_queues g !! j))).
  { intros x Hx. destruct (offer_In (g_maxsize g) (default [] (g_queues g !! j)) p x) as [|]; auto.
    by rewrite Eo. }
  assert (Hlen : (length (default [] (g_queues g !! j)) <= g_maxsize g)%nat -> (length qj <= g_maxsize g)%nat).
  { intros Hl. pose proof (offer_length (g_maxsize g) _ p Hm Hl) as Hx. by rewrite Eo in Hx. }
  destruct (decide (i = j)) as [->|Hne].
  - rewrite !lookup_insert_eq in Hq. cbn [default from_option] in Hq. right.
    destruct Hq as [[= <-]|(H1 & H2 & H3)].
    + split_and!; [by left|done|done].
    + split_and!; [by left| |auto]. intros x Hx. destruct (H2 x Hx) as [|Hx']; [by left|auto].
  - rewrite !lookup_insert_ne in Hq by done. destruct Hq as [|(H1 & H2 & H3)]; [by left|right].
    split_and!; [by right|done|done].
Qed.

(** ** The invariant

    While the gate is open, the pending prompts are exactly the prompts of the
    requests in flight, a decision held by a future is for its request's prompt,
    and queues stay within their bound. *)
Record gate_inv (g : Gate) : Prop := {
  gi_max : (0 < g_maxsize g)%nat;
  gi_fresh : forall i, (g_next g <= i)%nat -> g_futures g !! i = None /\ g_inflight g !! i = None;
  gi_pending : forall pid fid, g_pending g !! pid = Some fid <-> g_inflight g !! fid = Some pid;
  gi_future : forall fid pid, g_inflight g !! fid = Some pid ->
    g_futures g !! fid = Some Pending \/
    exists d, g_futures g !! fid = Some (Decided d) /\ pd_prompt_id d = pid;
  gi_queues : forall i q, g_queues g !! i = Some q -> (length q <= g_maxsize g)%nat
}.

Lemma gate_init_inv n g : gate_init n = Ok g -> gate_inv g.
Proof.
  unfold gate_init. destruct (Z.leb_spec n 0); [done|]. intros [= <-].
  split; cbn; [lia| | | |]; intros; rewrite ?lookup_empty in *; try done.
Qed.

Lemma request_start_inv g p timeout fid g' :
  gate_inv g -> request_start p timeout g = Ok (fid, g') -> gate_inv g' /\
  g_inflight g' !! fid = Some (pp_prompt_id p) /\ g_futures g' !! fid = Some Pending /\
  (forall i pid, g_inflight g !! i = Some pid -> i <> fid /\ pid <> pp_prompt_id p).
Proof.
  intros Hi. unfold request_start. destruct (timeout <=? 0); [done|].
  destruct (g_pending g !! pp_prompt_id p) eqn:Ep; [done|]. intros [= <- <-].
  set (g1 := mkGate _ _ _ _ _ _ _ _).
  set (ids := default [] _). destruct (fan_out_frame p ids g1) as (F1 & F2 & F3 & F4 & F5 & F6).
  assert (Hnew : forall i pid, g_inflight g !! i = Some pid -> i <> g_next g /\ pid <> pp_prompt_id p).
  { intros i pid Hx. split; [|].
    - intros ->. destruct (gi_fresh g Hi (g_next g) ltac:(lia)) as [_ Hn]. congruence.
    - intros ->. apply (gi_pending g Hi) in Hx. congruence. }
  assert (Hnf : g_inflight g !! g_next g = None) by (apply (gi_fresh g Hi); lia).
  split_and!; [|rewrite F5; apply lookup_insert_eq|rewrite F4; apply lookup_insert_eq|exact Hnew].
  split.
  - rewrite F1. apply Hi.
  - intros i. rewrite F6, F4, F5. cbn. intros Hle.
    rewrite !lookup_insert_ne by lia. apply (gi_fresh g Hi). lia.
  - intros pid fid. rewrite F2, F5. cbn. rewrite !lookup_insert_Some. pose proof (gi_pending g Hi pid fid) as Hp.
    split.
    + intros [[<- <-]|[Hne Hx]]; [by left|right]. apply Hp in Hx. split; [|done].
      destruct (Hnew _ _ Hx). done.
    + intros [[<- <-]|[Hne Hx]]; [by left|right]. destruct (Hnew _ _ Hx). split; [done|]. by apply Hp.
  - intros fid pid. rewrite F4, F5. cbn. rewrite lookup_insert_Some.
    intros [[<- <-]|[Hne Hx]]; [left; apply lookup_insert_eq|].
    rewrite lookup_insert_ne by done. by apply (gi_future g Hi).
  - intros i q Hq. rewrite F1. cbn. apply fan_out_queues in Hq; [|apply Hi].
    destruct Hq as [Hq|(_ & _ & Hl)]; [by eapply (gi_queues g Hi)|].
    apply Hl. cbn. destruct (g_queues g !! i) eqn:E; cbn; [by eapply (gi_queues g Hi)|lia].
Qed.

(** The [finally] of [request]: one request is forgotten. *)
Lemma forget_inv g fid pid futs :
  gate_inv g -> g_inflight g !! fid = Some pid ->
  (forall i, i <> fid -> futs !! i = g_futures g !! i) ->
  gate_inv (mkGate (g_maxsize g) (delete pid (g_pending g)) (g_channels g) (g_dropped g) futs
              (g_queues g) (delete fid (g_inflight g)) (g_next g)).
Proof.
  intros Hi Ein Hf. split; cbn; try apply Hi.
  - intros i Hle. destruct (gi_fresh g Hi i Hle) as [H1 H2].
    assert (i <> fid) by congruence. by rewrite Hf, lookup_delete_ne.
  - intros pid' fid'. rewrite !lookup_delete_Some. rewrite (gi_pending g Hi).
    split; intros [Hne Hx]; split; try done; intros ->; apply Hne; [congruence|].
    apply (gi_pending g Hi) in Hx, Ein. congruence.
  - intros fid' pid'. rewrite lookup_delete_Some. intros [Hne Hx]. rewrite Hf by done.
    by apply (gi_future g Hi).
Qed.

Lemma request_finish_inv g fid t r g' :
  gate_inv g -> request_finish fid t g = Some (r, g') -> gate_inv g' /\
  exists pid, g_inflight g !! fid = Some pid /\ g_pending g' !! pid = None /\ g_inflight g' !! fid = None /\
    match r with
    | Ok d => g_futures g !! fid = Some (Decided d) /\ pd_prompt_id d = pid
    | Err e => e = PermissionTimeoutError /\ t = true /\ g_futures g !! fid = Some Pending
    end.
Proof.
  intros Hi. unfold request_finish. destruct (g_inflight g !! fid) as [pid|] eqn:Ein; [|done].
  destruct (gi_future g Hi fid pid Ein) as [Ef|(d & Ef & Hd)]; rewrite Ef; [destruct t; [|done]|];
    intros [= <- <-]; (split;
      [apply forget_inv; [done..|intros; by rewrite ?lookup_insert_ne]
      |exists pid; cbn; rewrite !lookup_delete_eq; by split_and!]).
Qed.

Lemma deliver_inv g d : gate_inv g -> gate_inv (deliver d g).
Proof.
  intros Hi. unfold deliver. destruct (g_pending g !! pd_prompt_id d) as [fid|] eqn:Ep; [|done].
  destruct (g_futures g !! fid) as [[| |]|] eqn:Ef; try done.
  apply (gi_pending g Hi) in Ep. split; cbn; try apply Hi.
  - intros i Hle. destruct (gi_fresh g Hi i Hle). assert (i <> fid) by congruence.
    by rewrite lookup_insert_ne.
  - intros fid' pid' Hx. destruct (decide (fid' = fid)) as [->|Hne].
    + right. exists d. rewrite lookup_insert_eq. split; [done|]. congruence.
    + rewrite lookup_insert_ne by done. by apply (gi_future g Hi).
Qed.

Lemma subscribe_inv g tenant task qid g' :
  gate_inv g -> subscribe_prompts tenant task g = (qid, g') -> gate_inv g'.
Proof.
  intros Hi [= <- <-]. split; cbn; try apply Hi.
  - intros i Hle. apply (gi_fresh g Hi). lia.
  - intros i q. rewrite lookup_insert_Some. intros [[<- <-]|[_ Hq]]; [simpl; lia|].
    by eapply (gi_queues g Hi).
Qed.

Lemma next_prompt_inv g qid p g' : gate_inv g -> next_prompt qid g = Some (p, g') -> gate_inv g'.
Proof.
  intros Hi. unfold next_prompt. destruct (g_queues g !! qid) as [[|p' q]|] eqn:Eq; try done.
  intros [= <- <-]. split; cbn; try apply Hi.
  intros i q'. rewrite lookup_insert_Some. intros [[<- <-]|[_ Hq]]; [|by eapply (gi_queues g Hi)].
  apply (gi_queues g Hi) in Eq. simpl in Eq. lia.
Qed.

Lemma unregister_inv g key qid : gate_inv g -> gate_inv (unregister key qid g).
Proof. intros Hi. unfold unregister. destruct (g_channels g !! key); [|done]. split; cbn; apply Hi. Qed.

#[export] Hint Resolve gate_init_inv request_start_inv request_finish_inv deliver_inv subscribe_inv
  next_prompt_inv unregister_inv : meta.

Lemma gstep_inv g e g' : gate_inv g -> gstep g e g' -> e <> Closed -> gate_inv g'.
Proof.
  intros Hi Hs Hc. destruct Hs; eauto with meta; try done.
  - by eapply request_start_inv.
  - by eapply request_finish_inv.
Qed.

Lemma gsteps_inv g tr g' : gsteps g tr g' -> ~ In Closed tr -> gate_inv g -> gate_inv g'.
Proof.
  induction 1 as [|g e g1 tr g2 H1 H2 IH]; intros Hc Hi; [done|].
  apply IH; [intros Hr; apply Hc; by right|]. eapply gstep_inv; [done..|]. intros ->. apply Hc. by left.
Qed.

(** While the gate is open, in every interleaving of requests, decisions and
    subscribers, a prompt is pending exactly when a request waits for it, each
    future holds a decision for its own prompt only, a finished request leaves
    nothing behind and no subscriber queue exceeds its bound. *)
Theorem gate_invariant n g0 tr g :
  gate_init n = Ok g0 -> gsteps g0 tr g -> ~ In Closed tr ->
  gate_inv g /\
  forall fid r g', gstep g (Finished fid r) g' ->
    exists pid, g_inflight g !! fid = Some pid /\ g_pending g' !! pid = None /\
      (forall d, r = Ok d -> pd_prompt_id d = pid).
Proof.
  intros H0 Hs Hc. pose proof (gsteps_inv _ _ _ Hs Hc (gate_init_inv _ _ H0)) as Hi.
  split; [done|]. intros fid r g' Hf. inversion Hf as [|? ? t ? ? Hx| | | | |]; subst.
  destruct (request_finish_inv _ _ _ _ _ Hi Hx) as (_ & pid & H1 & H2 & _ & Hr).
  exists pid. split_and!; [done..|]. intros d ->. apply Hr.
Qed.

(** A decided request stays decided, with the same decision, until it finishes. *)
Lemma decided_stays g e g' fid d :
  gate_inv g -> gstep g e g' -> e <> Closed -> (forall r, e <> Finished fid r) ->
  g_inflight g !! fid <> None -> g_futures g !! fid = Some (Decided d) ->
  g_inflight g' !! fid <> None /\ g_futures g' !! fid = Some (Decided d).
Proof.
  intros Hi Hs Hc Hf Hin Hd. destruct Hs as [g p t fid' g' Hx|g fid' t r g' Hx|g d'|g te ta q g' Hx|g q p g' Hx|g k q|].
  - assert (fid <> fid') as Hne.
    { destruct (g_inflight g !! fid) as [pid|] eqn:E; [|done].
      by destruct (request_start_inv _ _ _ _ _ Hi Hx) as (_ & _ & _ & Hn), (Hn fid pid E). }
    unfold request_start in Hx. destruct (t <=? 0); [done|]. destruct (g_pending g !! _); [done|].
    injection Hx as <- <-. destruct (fan_out_frame p (default [] (g_channels g !! channel_key (pp_tenant_id p)
      (pp_task_id p))) (mkGate (g_maxsize g) (<[pp_prompt_id p := g_next g]> (g_pending g)) (g_channels g)
      (g_dropped g) (<[g_next g := Pending]> (g_futures g)) (g_queues g)
      (<[g_next g := pp_prompt_id p]> (g_inflight g)) (S (g_next g)))) as (_ & _ & _ & F4 & F5 & _).
    rewrite F4, F5. cbn. by rewrite !lookup_insert_ne.
  - assert (fid <> fid') as Hne by (intros ->; by eapply Hf).
    unfold request_finish in Hx. destruct (g_inflight g !! fid') as [pid|]; [|done].
    destruct (g_futures g !! fid') as [[]|]; try done; [destruct t; [|done]|..]; injection Hx as <- <-; cbn;
      by rewrite ?lookup_insert_ne, lookup_delete_ne by done.
  - unfold deliver. destruct (g_pending g !! pd_prompt_id d') as [f|]; [|done].
    destruct (g_futures g !! f) as [[]|] eqn:Ef; try done. cbn. split; [done|].
    rewrite lookup_insert_ne; [done|congruence].
  - by injection Hx as <- <-.
  - unfold next_prompt in Hx. destruct (g_queues g !! q) as [[]|]; try done. by injection Hx as <- <-.
  - unfold unregister. by destruct (g_channels g !! k).
  - done.
Qed.

(** A decision is not lost.  Once a decision is delivered for a prompt whose
    request is waiting, then whatever else happens while the gate stays open,
    other decisions for the same prompt included, the request can finish, finishes
    only with that first decision, even if its timer has run out meanwhile, and
    then no longer counts as pending. *)
Theorem decision_reaches_request g fid pid d tr g2 :
  gate_inv g -> g_inflight g !! fid = Some pid -> g_futures g !! fid = Some Pending ->
  pd_prompt_id d = pid ->
  gsteps (deliver d g) tr g2 -> ~ In Closed tr -> (forall r, ~ In (Finished fid r) tr) ->
  forall timed_out, exists g3, request_finish fid timed_out g2 = Some (Ok d, g3) /\
    gstep g2 (Finished fid (Ok d)) g3 /\ g_pending g3 !! pid = None /\ g_inflight g3 !! fid = None.
Proof.
  intros Hi Hin Hp Hd Hs Hc Hf.
  assert (H1 : g_inflight (deliver d g) !! fid = Some pid /\
               g_futures (deliver d g) !! fid = Some (Decided d)).
  { unfold deliver. rewrite Hd, (proj2 (gi_pending g Hi pid fid) Hin), Hp. cbn.
    split; [done|apply lookup_insert_eq]. }
  assert (H2 : gate_inv g2 /\ g_inflight g2 !! fid <> None /\ g_futures g2 !! fid = Some (Decided d)).
  { assert (Hx : g_inflight (deliver d g) !! fid <> None) by (destruct H1; congruence).
    destruct H1 as [_ Hfut]. apply (deliver_inv g d) in Hi. clear Hin Hp.
    induction Hs as [|g1 e g1' tr g2 Hstep Hrest IH]; [done|].
    assert (He : e <> Closed) by (intros ->; apply Hc; by left).
    destruct (decided_stays g1 e g1' fid d) as [Hy Hz];
      [done|done|done|intros r ->; apply (Hf r); by left|done|done|].
    apply IH; try done; [by eapply gstep_inv|intros Hr; apply Hc; by right|].
    intros r Hr. apply (Hf r). by right. }
  destruct H2 as (Hi2 & Hin2 & Hfut2). intros t.
  destruct (g_inflight g2 !! fid) as [pid2|] eqn:E2; [|done].
  assert (Hfin : exists g3, request_finish fid t g2 = Some (Ok d, g3)).
  { unfold request_finish. rewrite E2, Hfut2. by eexists. }
  destruct Hfin as [g3 Hfin]. exists g3.
  destruct (request_finish_inv _ _ _ _ _ Hi2 Hfin) as (_ & pid3 & H3 & H4 & H5 & _ & H6).
  split_and!; [done|by eapply step_finish|congruence|done].
Qed.

(** ** Prompts and their subscribers *)

Definition prompt_key (p : PermissionPrompt) : string := channel_key (pp_tenant_id p) (pp_task_id p).

Definition chan_fresh (g : Gate) : Prop :=
  (0 < g_maxsize g)%nat /\
  forall key ids i, g_channels g !! key = Some ids -> In i ids -> (i < g_next g)%nat.

(** [qid] is registered under [key] only and holds only that channel's prompts. *)
Definition watches (key : string) (qid : nat) (g : Gate) : Prop :=
  (qid < g_next g)%nat /\
  (forall k ids, g_channels g !! k = Some ids -> In qid ids -> k = key) /\
  (forall q p, g_queues g !! qid = Some q -> In p q -> prompt_key p = key).

Lemma remove_first_In x y l : In y (remove_first x l) -> In y l.
Proof. induction l as [|z l IH]; simpl; [done|]. destruct (Nat.eqb x z); simpl; tauto. Qed.

Lemma unregister_channels key qid g k ids :
  g_channels (unregister key qid g) !! k = Some ids ->
  exists ids0, g_channels g !! k = Some ids0 /\ forall i, In i ids -> In i ids0.
Proof.
  unfold unregister. destruct (g_channels g !! key) as [ids1|] eqn:E; [|by eauto]. cbn.
  destruct (remove_first qid ids1) eqn:Er.
  - rewrite lookup_delete_Some. intros [_ Hx]. eauto.
  - rewrite lookup_insert_Some. intros [[<- <-]|[_ Hx]]; [|eauto].
    exists ids1. split; [done|]. intros i Hi. rewrite <- Er in Hi. by eapply remove_first_In.
Qed.

Lemma request_start_frame p timeout g fid g' :
  request_start p timeout g = Ok (fid, g') ->
  g_maxsize g' = g_maxsize g /\ g_channels g' = g_channels g /\ (g_next g <= g_next g')%nat /\
  forall i q, (0 < g_maxsize g)%nat -> g_queues g' !! i = Some q -> g_queues g !! i = Some q \/
    ((exists ids, g_channels g !! prompt_key p = Some ids /\ In i ids) /\
     forall x, In x q -> x = p \/ exists q0, g_queues g !! i = Some q0 /\ In x q0).
Proof.
  unfold request_start. destruct (timeout <=? 0); [done|]. destruct (g_pending g !! _); [done|].
  intros [= _ <-]. match goal with |- context [fan_out p ?i ?x] => set (ids := i); set (g1 := x) end.
  destruct (fan_out_frame p ids g1) as (F1 & _ & F3 & _ & _ & F6). rewrite F1, F3, F6. cbn.
  split_and!; [done..|lia|]. intros i q Hm Hq. apply fan_out_queues in Hq as [|(H1 & H2 & _)]; [by left|right|done].
  split.
  - unfold ids, prompt_key in *. destruct (g_channels g !! _) as [l|]; [|done]. by exists l.
  - intros x Hx. destruct (H2 x Hx) as [|Hx']; [by left|right]. cbn in Hx'.
    destruct (g_queues g !! i) as [q0|]; [|done]. by exists q0.
Qed.

Lemma chan_fresh_step g e g' : chan_fresh g -> gstep g e g' -> chan_fresh g'.
Proof.
  intros [Hm Hc] Hs. destruct Hs as [g p t fid g' Hx|g fid t r g' Hx|g d|g te ta q g' Hx|g q p g' Hx|g k q|g].
  - destruct (request_start_frame _ _ _ _ _ Hx) as (F1 & F2 & F3 & _). split; [by rewrite F1|].
    intros key ids i. rewrite F2. intros Hk Hin. specialize (Hc key ids i Hk Hin). lia.
  - unfold request_finish in Hx. split_matches; by injection Hx as <- <-.
  - unfold deliver. split_matches.
  - injection Hx as <- <-. split; [done|]. cbn. intros key ids i. rewrite lookup_insert_Some.
    intros [[<- <-]|[_ Hk]] Hin; [|specialize (Hc key ids i Hk Hin); lia].
    apply in_app_iff in Hin as [Hin|[<-|[]]]; [|lia].
    destruct (g_channels g !! _) as [l|] eqn:E; [|done]. specialize (Hc _ l i E Hin). lia.
  - unfold next_prompt in Hx. split_matches; by injection Hx as <- <-.
  - split; [by unfold unregister; destruct (g_channels g !! k)|].
    intros key ids i (ids0 & H0 & H1)%unregister_channels Hin.
    specialize (Hc key ids0 i H0 (H1 i Hin)). unfold unregister. by destruct (g_channels g !! k).
  - split; [done|]. cbn. intros key ids i. by rewrite lookup_empty.
Qed.

Lemma watches_step key qid g e g' :
  chan_fresh g -> watches key qid g -> gstep g e g' -> watches key qid g'.
Proof.
  intros [Hm _] (Hn & Hc & Hq) Hs.
  destruct Hs as [g p t fid g' Hx|g fid t r g' Hx|g d|g te ta q g' Hx|g q p g' Hx|g k q|g].
  - destruct (request_start_frame _ _ _ _ _ Hx) as (_ & F2 & F3 & F4). split_and!; [lia|by rewrite F2|].
    intros q x Hl Hin. destruct (F4 qid q Hm Hl) as [H0|((ids & Hk & Hi) & H0)]; [by eapply Hq|].
    destruct (H0 x Hin) as [->|(q0 & H1 & H2)]; [|by eapply Hq]. by eapply Hc.
  - unfold request_finish in Hx. split_matches; by injection Hx as <- <-.
  - unfold deliver. split_matches.
  - injection Hx as <- <-. split_and!; cbn; [lia| |].
    + intros k ids. rewrite lookup_insert_Some. intros [[<- <-]|[_ Hk]] Hin; [|by eapply Hc].
      apply in_app_iff in Hin as [Hin|[<-|[]]]; [|lia].
      destruct (g_channels g !! _) as [l|] eqn:E; [|done]. by eapply Hc.
    + intros q p. rewrite lookup_insert_Some. intros [[? <-]|[_ Hl]]; [done|]. by eapply Hq.
  - unfold next_prompt in Hx. destruct (g_queues g !! q) as [[|p0 q0]|] eqn:Eq; try done.
    injection Hx as <- <-. split_and!; cbn; [done..|]. intros q1 x. rewrite lookup_insert_Some.
    intros [[-> <-]|[_ Hl]] Hin; [|by eapply Hq]. eapply Hq; [exact Eq|by right].
  - split_and!.
    + unfold unregister. by destruct (g_channels g !! k).
    + intros key' ids (ids0 & H0 & H1)%unregister_channels Hin. eapply Hc; [done|auto].
    + unfold unregister. by destruct (g_channels g !! k).
  - split_and!; cbn; [done| |done]. intros k ids. by rewrite lookup_empty.
Qed.

(** A subscriber sees its own channel only.  From its subscription on, in
    every interleaving, each prompt a subscriber receives was issued under the
    channel key of the tenant and task it subscribed to. *)
Theorem subscriber_sees_own_channel g tenant task qid g1 tr g2 p g3 :
  chan_fresh g -> subscribe_prompts tenant task g = (qid, g1) -> gsteps g1 tr g2 ->
  gstep g2 (Received qid p) g3 -> prompt_key p = channel_key tenant task.
Proof.
  intros Hf Hs Htr Hr.
  assert (Hw : watches (channel_key tenant task) qid g1).
  { injection Hs as <- <-. split_and!; cbn; [lia| |].
    - intros k ids. rewrite lookup_insert_Some. intros [[<- <-]|[_ Hk]] Hin; [done|].
      destruct Hf as [_ Hc]. specialize (Hc k ids _ Hk Hin). lia.
    - intros q x. by rewrite lookup_insert_eq; intros [= <-]. }
  assert (Hf1 : chan_fresh g1) by (eapply chan_fresh_step; [done|by eapply step_subscribe]).
  assert (Hw2 : watches (channel_key tenant task) qid g2).
  { clear Hr Hs Hf. induction Htr as [|g1 e g1' tr g2 H1 H2 IH]; [done|].
    apply IH; [by eapply watches_step|by eapply chan_fresh_step]. }
  inversion Hr as [| | | |? ? ? ? Hx| |]; subst. unfold next_prompt in Hx.
  destruct (g_queues g2 !! qid) as [[|x q]|] eqn:Eq; try done. injection Hx as <- _.
  destruct Hw2 as (_ & _ & Hq). eapply Hq; [exact Eq|by left].
Qed.

(** The key separates tenants whose names have no colon... *)
Fixpoint no_colon (s : string) : bool :=
  match s with EmptyString => true | String c s' => negb (char_is 58 c) && no_colon s' end.

Lemma channel_key_inj t1 k1 t2 k2 :
  no_colon t1 = true -> no_colon t2 = true -> channel_key t1 k1 = channel_key t2 k2 -> t1 = t2 /\ k1 = k2.
Proof.
  unfold channel_key. revert t2. induction t1 as [|c t1 IH]; intros [|c' t2] H1 H2 E.
  - split; [done|]. by injection E.
  - injection E as <- _. done.
  - injection E as -> _. done.
  - injection E as -> E. cbn in H1, H2. apply andb_true_iff in H1 as [_ H1], H2 as [_ H2].
    destruct (IH t2 H1 H2 E) as [-> ->]. done.
Qed.

(** ... and no others: two tenants whose names differ by a [::] share a
    channel, and a subscriber of one receives the prompt of the other. *)
Theorem prompt_crosses_tenants :
  exists g qid fid g1 g2 p g3,
    gate_init 4 = Ok g /\ subscribe_prompts "acme" "team::t1" g = (qid, g1) /\
    pp_tenant_id p = "acme::team" /\ request_start p 30 g1 = Ok (fid, g2) /\
    gstep g2 (Received qid p) g3.
Proof.
  set (g := mkGate 4 ∅ ∅ 0 ∅ ∅ ∅ 0).
  set (g1 := (subscribe_prompts "acme" "team::t1" g).2).
  set (p := mkPrompt "p1" "acme::team" "t1" "edit_write" "write secrets" [] 0).
  destruct (request_start p 30 g1) as [[fid g2]|] eqn:E; [|by vm_compute in E].
  assert (Hn : exists g3, next_prompt 0 g2 = Some (p, g3)).
  { assert (g2 = match request_start p 30 g1 with Ok (_, x) => x | Err _ => g end) as -> by (by rewrite E).
    eexists. vm_compute. reflexivity. }
  destruct Hn as [g3 Hn]. exists g, 0%nat, fid, g1, g2, p, g3.
  split_and!; [reflexivity..|exact E|]. by apply step_receive.
Qed.

(** ** Witnesses: a watched prompt, asked and answered twice *)

Definition demo_gate : Gate := mkGate 4 ∅ ∅ 0 ∅ ∅ ∅ 0.
Definition demo_prompt (pid : string) : PermissionPrompt := mkPrompt pid "acme" "t1" "edit_write" "" [] 0.
Definition asked (p : PermissionPrompt) (g : Gate) : Gate :=
  match request_start p 30 g with Ok (_, g') => g' | Err _ => g end.
Definition demo_watched : Gate := (subscribe_prompts "acme" "t1" demo_gate).2.
Definition demo_asked : Gate := asked (demo_prompt "p1") demo_watched.
Definition demo_answer (allow : bool) : PermissionDecision := mkPermissionDecision "p1" allow None 5.

Lemma demo_trace :
  gsteps demo_gate [Subscribed 0 "acme" "t1"; Started 1 (demo_prompt "p1")] demo_asked.
Proof.
  apply gsteps_cons with demo_watched; [by apply step_subscribe|].
  apply gsteps_cons with demo_asked; [|constructor]. by apply (step_start _ _ 30).
Qed.

Lemma demo_asked_inv : gate_inv demo_asked.
Proof. eapply gsteps_inv; [exact demo_trace|by intros [|[|[]]]|by apply (gate_init_inv 4)]. Qed.

Lemma gate_invariant_witness : gate_inv demo_asked.
Proof.
  apply (gate_invariant 4 demo_gate [Subscribed 0 "acme" "t1"; Started 1 (demo_prompt "p1")] demo_asked).
  - reflexivity.
  - exact demo_trace.
  - by intros [|[|[]]].
Defined.

Lemma decision_reaches_request_witness :
  exists g, request_finish 1 true (deliver (demo_answer true) (deliver (demo_answer false) demo_asked)) =
    Some (Ok (demo_answer false), g).
Proof.
  destruct (decision_reaches_request demo_asked 1 "p1" (demo_answer false) [Delivered (demo_answer true)]
    (deliver (demo_answer true) (deliver (demo_answer false) demo_asked))) with (timed_out := true)
    as (g3 & H & _).
  - exact demo_asked_inv.
  - vm_compute. reflexivity.
  - vm_compute. reflexivity.
  - reflexivity.
  - eapply gsteps_cons; [apply step_deliver|constructor].
  - by intros [|[]].
  - by intros r [|[]].
  - by exists g3.
Defined.

Lemma subscriber_sees_own_channel_witness : prompt_key (demo_prompt "p1") = channel_key "acme" "t1".
Proof.
  destruct (next_prompt 0 demo_asked) as [[p g3]|] eqn:E; [|by vm_compute in E].
  assert (p = demo_prompt "p1") as ->.
  { apply (f_equal (option_map fst)) in E. vm_compute in E. by injection E as <-. }
  apply (subscriber_sees_own_channel demo_gate "acme" "t1" 0 demo_watched
    [Started 1 (demo_prompt "p1")] demo_asked (demo_prompt "p1") g3).
  - split; [cbn; lia|]. cbn. intros key ids i. by rewrite lookup_empty.
  - reflexivity.
  - eapply gsteps_cons; [by apply (step_start _ _ 30)|constructor].
  - by apply step_receive.
Defined.
