(* ===== verification/RedisGate.v ===== *)
(** * RedisGate: the permission gate across processes

    [infra/permission/redis_gate.py].  The worker's [request] and the API's
    [deliver] meet on a Redis pub/sub channel, which has no replay.  The server is
    the interface [PubSub], its documented behaviour the class [PubSubLaws]; the
    theorems about [redis_request] are proved against them, and [Server] is an
    instance.  Pydantic's JSON codec is the parameter [Codec]. *)

From S2P Require Import Prelude PyText Utf8 Domain GraphRuntime Results ShellAgent.
Import Utf8.

(** ** The server *)

(** The [data] of a message as redis-py yields it. *)
Inductive wire : Type :=
  | WBytes (b : string)
  | WText (s : string)
  | WOther.

Record ps_message : Type := mkMessage { m_type : string; m_data : wire }.

Definition REDIS_ERROR : exn := ExternalError "RedisError".
Definition is_redis_error (e : exn) : bool := bool_decide (e = REDIS_ERROR).

(** The commands the gate sends on a server state [S]; [ps_received c s] lists
    what [listen] of connection [c] has to yield so far. *)
Class PubSub (S : Type) : Type := {
  pubsub : S -> nat * S;
  ps_subscribe : nat -> string -> M S unit;
  ps_unsubscribe : nat -> M S unit;
  ps_aclose : nat -> M S unit;
  ps_publish : string -> string -> M S unit;
  ps_received : nat -> S -> list ps_message
}.

(** Redis pub/sub as documented: delivery is at most once.  A published message
    reaches, in order, the connections subscribed to its channel when it is sent,
    and nothing else does; a connection that is cut off misses messages for good,
    which [pl_lost] records, and a publish whose reply is lost may or may not have
    been carried out. *)
Class PubSubLaws (S : Type) `{PubSub S} : Type := {
  pl_fresh : nat -> S -> Prop;
  pl_listening : nat -> string -> S -> Prop;
  pl_lost : nat -> S -> Prop;
  pl_pubsub : forall s c s', pubsub s = (c, s') -> pl_fresh c s';
  pl_subscribe : forall c ch s s', pl_fresh c s -> ps_subscribe c ch s = (Ok tt, s') ->
    pl_listening c ch s' /\ Forall (fun m => m_type m <> "message") (ps_received c s');
  pl_publish : forall c ch ch' x s r s', pl_listening c ch s -> ps_publish ch' x s = (r, s') ->
    pl_listening c ch s' /\ (pl_lost c s -> pl_lost c s') /\
    ((ps_received c s' = ps_received c s /\ (r = Ok tt -> ch <> ch' \/ pl_lost c s')) \/
     (ch = ch' /\ ps_received c s' = ps_received c s ++ [mkMessage "message" (WBytes x)]));
  pl_pubsub_frame : forall c ch s c' s', pl_listening c ch s -> pubsub s = (c', s') ->
    c <> c' /\ pl_listening c ch s' /\ (pl_lost c s -> pl_lost c s') /\ ps_received c s' = ps_received c s;
  pl_subscribe_frame : forall c ch c' ch' s r s', pl_listening c ch s -> c <> c' ->
    ps_subscribe c' ch' s = (r, s') ->
    pl_listening c ch s' /\ (pl_lost c s -> pl_lost c s') /\ ps_received c s' = ps_received c s;
  pl_unsubscribe_frame : forall c ch c' s r s', pl_listening c ch s -> c <> c' ->
    ps_unsubscribe c' s = (r, s') ->
    pl_listening c ch s' /\ (pl_lost c s -> pl_lost c s') /\ ps_received c s' = ps_received c s;
  pl_aclose_frame : forall c ch c' s r s', pl_listening c ch s -> c <> c' ->
    ps_aclose c' s = (r, s') ->
    pl_listening c ch s' /\ (pl_lost c s -> pl_lost c s') /\ ps_received c s' = ps_received c s;
  pl_unsubscribe_err : forall c s e s', ps_unsubscribe c s = (Err e, s') -> is_redis_error e = true;
  pl_aclose_err : forall c s e s', ps_aclose c s = (Err e, s') ->
    is_redis_error e || bool_decide (e = ExternalError "AttributeError") = true
}.

(** [model_dump_json] and [model_validate_json]. *)
Record Codec : Type := mkCodec {
  dump_decision : PermissionDecision -> string;
  load_decision : string -> option PermissionDecision;
  dump_prompt : PermissionPrompt -> string;
  load_prompt : string -> option PermissionPrompt
}.

(** Dumping and loading a decision gives it back, from valid UTF-8. *)
Definition decision_codec_ok (k : Codec) : Prop :=
  forall d, load_decision k (dump_decision k d) = Some d /\ Utf8.valid (dump_decision k d) = true.
Definition prompt_codec_ok (k : Codec) : Prop :=
  forall p, load_prompt k (dump_prompt k p) = Some p /\ Utf8.valid (dump_prompt k p) = true.

(** ** The gate *)

Definition DEFAULT_PROMPT_PREFIX : string := "permission:prompt".
Definition DEFAULT_DECISION_PREFIX : string := "permission:decision".

Record RedisGate : Type := mkRedisGate { rg_prompt_prefix : string; rg_decision_prefix : string }.

Definition redis_gate_init (prompt_prefix decision_prefix : string) : res RedisGate :=
  if negb (nonempty prompt_prefix) || negb (nonempty decision_prefix)
  then Err (ValueError "channel prefixes must be non-empty")
  else Ok (mkRedisGate prompt_prefix decision_prefix).

Definition prompt_channel (g : RedisGate) (tenant task : string) : string :=
  rg_prompt_prefix g +:+ ":" +:+ tenant +:+ ":" +:+ task.
Definition decision_channel (g : RedisGate) (prompt_id : string) : string :=
  rg_decision_prefix g +:+ ":" +:+ prompt_id.

(** The payload of one message, [None] where the loop says [continue]. *)
Definition message_payload (m : ps_message) : option string :=
  if negb (String.eqb (m_type m) "message") then None else
  match m_data m with
  | WBytes b => if Utf8.valid b then Some b else None
  | WText s => Some s
  | WOther => None
  end.

(** Both loops over [listen()]: the messages that validate, in order. *)
Definition listen_all {A} (load : string -> option A) (msgs : list ps_message) : list A :=
  omap (fun m => p ← message_payload m; load p) msgs.

(** How waiting ends when no decision came: the timer of [wait_for] fires, the
    iterator ends, or [listen] raises. *)
Inductive wait_end : Type :=
  | TimerFired
  | StreamEnded
  | StreamRaised (e : exn).

(** [_wait_for_decision] under [wait_for]: the loop returns at the first of the
    messages it reads that is a decision; [e] is what ends the wait once [n]
    messages were read without one, whatever else has come in by then. *)
Definition wait_for_decision (k : Codec) (msgs : list ps_message) (n : nat) (e : wait_end) : res PermissionDecision :=
  match listen_all (load_decision k) (take n msgs) with
  | d :: _ => Ok d
  | [] => match e with
          | TimerFired => Err PermissionTimeoutError
          | StreamEnded => Err PermissionGateError
          | StreamRaised x => Err x
          end
  end.

Section Gate.
Context {S : Type} `{PubSub S} (g : RedisGate) (k : Codec).

(** [except RedisError as exc: raise PermissionGateError(...)]. *)
Definition or_gate_error {A} (m : M S A) : M S A :=
  try_except m (fun e => if is_redis_error e then Some (raise PermissionGateError) else None).

Definition safe_close_pubsub (c : nat) : M S unit :=
  try_except (ps_unsubscribe c) (fun e => if is_redis_error e then Some (ret tt) else None) ;;;
  try_except (ps_aclose c) (fun e =>
    if is_redis_error e || bool_decide (e = ExternalError "AttributeError") then Some (ret tt) else None).

Definition open_pubsub : M S nat := fun s => let '(c, s') := pubsub s in (Ok c, s').

(** Subscribe to the decision, then announce the prompt: in this order, since a
    decision sent before the subscription would be lost. *)
Definition announce (p : PermissionPrompt) (c : nat) : M S unit :=
  or_gate_error (ps_subscribe c (decision_channel g (pp_prompt_id p))) ;;;
  or_gate_error (ps_publish (prompt_channel g (pp_tenant_id p) (pp_task_id p)) (dump_prompt k p)).

(** The whole of [request]; [meanwhile c] is what the rest of the system does
    between the prompt's publication and the end of the wait, with the number of
    messages the loop has read by then and what ends it. *)
Definition redis_request (p : PermissionPrompt) (timeout : Z) (meanwhile : nat -> M S (nat * wait_end))
    : M S PermissionDecision :=
  if timeout <=? 0 then raise (ValueError "timeout_seconds must be > 0") else
  c <- open_pubsub ;;
  try_finally
    (announce p c ;;;
     ne <- meanwhile c ;;
     (fun s => (wait_for_decision k (ps_received c s) ne.1 ne.2, s)))
    (safe_close_pubsub c).

Definition redis_deliver (d : PermissionDecision) : M S unit :=
  or_gate_error (ps_publish (decision_channel g (pd_prompt_id d)) (dump_decision k d)).

(** [subscribe_prompts]: the live connection the iterator drains. *)
Definition redis_subscribe_prompts (tenant task : string) : M S nat :=
  c <- open_pubsub ;;
  try_except (ps_subscribe c (prompt_channel g tenant task) ;;; ret c)
    (fun e => if is_redis_error e then Some (safe_close_pubsub c ;;; raise PermissionGateError) else None).

(** What [_drain_prompts] has yielded when [msgs] have come in. *)
Definition drain_prompts (msgs : list ps_message) : list PermissionPrompt :=
  listen_all (load_prompt k) msgs.

(** [close]: the shared client belongs to the process that built it. *)
Definition redis_close : M S unit := ret tt.

(** ** The other participants

    What the other coroutines and processes can do on the server while one
    request waits: deliver decisions, start requests, watch prompts, close their
    own connections. *)
Inductive rop : Type :=
  | RDeliver (d : PermissionDecision)
  | RAsk (p : PermissionPrompt)
  | RWatch (tenant task : string)
  | RClose (c : nat).

Definition returned {A} (x : res A * S) : bool * S :=
  let '(r, s') := x in (match r with Ok _ => true | Err _ => false end, s').

Definition run_rop (o : rop) (s : S) : bool * S :=
  match o with
  | RDeliver d => returned (redis_deliver d s)
  | RAsk p => returned ((c <- open_pubsub ;; announce p c) s)
  | RWatch tenant task => returned (redis_subscribe_prompts tenant task s)
  | RClose c => returned (safe_close_pubsub c s)
  end.

Fixpoint run_rops (ops : list rop) (s : S) : list (rop * bool) * S :=
  match ops with
  | [] => ([], s)
  | o :: ops' => let '(b, s1) := run_rop o s in let '(log, s2) := run_rops ops' s1 in ((o, b) :: log, s2)
  end.

(** The decisions attempted for one prompt, with the outcome of each call. *)
Definition attempts (pid : string) (log : list (rop * bool)) : list (PermissionDecision * bool) :=
  omap (fun '(o, b) => match o with
                       | RDeliver d => if String.eqb (pd_prompt_id d) pid then Some (d, b) else None
                       | _ => None
                       end) log.

(** [d] is a decision the caller may get: its delivery was attempted and no
    earlier one was confirmed. *)
Definition may_win (l : list (PermissionDecision * bool)) (d : PermissionDecision) : Prop :=
  exists l1 b l2, l = l1 ++ (d, b) :: l2 /\ Forall (fun x => x.2 = false) l1.
End Gate.

(** ** What a connection hears *)

(** [lands lost l L]: of the attempts [l], the decisions [L] reached the
    connection; a confirmed one is missing only if the connection lost messages. *)
Inductive lands (lost : Prop) : list (PermissionDecision * bool) -> list PermissionDecision -> Prop :=
  | lands_nil : lands lost [] []
  | lands_keep d b l L : lands lost l L -> lands lost ((d, b) :: l) (d :: L)
  | lands_skip d b l L : (b = true -> lost) -> lands lost l L -> lands lost ((d, b) :: l) L.

Lemma lands_first lost l L :
  lands lost l L -> ~ lost -> match L with d :: _ => may_win l d | [] => Forall (fun x => x.2 = false) l end.
Proof.
  intros HL Hn. induction HL as [|d b l L H IH|d b l L Hb H IH]; [done|by exists [], b, l|].
  assert (b = false) as -> by (destruct b; [exfalso; auto|done]).
  destruct L as [|d' L]; [by constructor|]. destruct IH as (l1 & b & l2 & -> & Hf).
  exists ((d, false) :: l1), b, l2. split; [done|by constructor].
Qed.

Lemma lands_in lost l L d : lands lost l L -> d ∈ L -> exists b, (d, b) ∈ l.
Proof.
  induction 1 as [|d' b l L H IH|d' b l L Hb H IH]; [by intros Hd%elem_of_nil| |].
  - intros [->|Hd]%elem_of_cons; [exists b; left|]. destruct (IH Hd) as [b' Hb']. exists b'. by right.
  - intros Hd. destruct (IH Hd) as [b' Hb']. exists b'. by right.
Qed.

Lemma lands_weaken (lost lost' : Prop) l L : (lost -> lost') -> lands lost l L -> lands lost' l L.
Proof. intros Hw. induction 1; constructor; auto. Qed.

Lemma lands_app lost l1 l2 L1 L2 : lands lost l1 L1 -> lands lost l2 L2 -> lands lost (l1 ++ l2) (L1 ++ L2).
Proof. induction 1; intros H2; cbn; [done|constructor; auto|constructor; auto]. Qed.

Lemma app_str_inj_l a x y : a +:+ x = a +:+ y -> x = y.
Proof. induction a as [|c a IH]; [done|]. rewrite !app_cons. intros [= E]. auto. Qed.

Section Heard.
Context {S : Type} `{PubSubLaws S} (g : RedisGate) (k : Codec).

(** Nothing but deliveries for [pid] is ever published on its channel. *)
Hypothesis apart : forall t j pid, prompt_channel g t j <> decision_channel g pid.
Hypothesis codec : decision_codec_ok k.

Definition heard (c : nat) (s : S) : list PermissionDecision := listen_all (load_decision k) (ps_received c s).

(** The world of a step that says nothing to [c]. *)
Definition quiet (c : nat) (ch : string) (s s' : S) : Prop :=
  pl_listening c ch s' /\ (pl_lost c s -> pl_lost c s') /\ ps_received c s' = ps_received c s.

Lemma or_gate_error_run {A} (m : M S A) s r s' :
  or_gate_error m s = (r, s') ->
  exists r0, m s = (r0, s') /\ forall a, r = Ok a <-> r0 = Ok a.
Proof.
  unfold or_gate_error, try_except. destruct (m s) as [[a|e] s1]; [intros [= <- <-]; by eauto|].
  destruct (is_redis_error e); intros [= <- <-]; eexists; (split; [reflexivity|]); by split.
Qed.

Lemma open_quiet c ch s c' s' : pl_listening c ch s -> pubsub s = (c', s') -> c <> c' /\ quiet c ch s s'.
Proof. intros Hl Hp. by destruct (pl_pubsub_frame c ch s c' s' Hl Hp) as (? & ? & ? & ?). Qed.

Lemma quiet_trans c ch s1 s2 s3 : quiet c ch s1 s2 -> quiet c ch s2 s3 -> quiet c ch s1 s3.
Proof. intros (_ & L1 & E1) (H2 & L2 & E2). split_and!; [done|tauto|congruence]. Qed.

Lemma close_quiet c ch c' s : pl_listening c ch s -> c <> c' -> quiet c ch s (safe_close_pubsub c' s).2.
Proof.
  intros Hl Hc. unfold safe_close_pubsub, bind, try_except.
  destruct (ps_unsubscribe c' s) as [r s1] eqn:E1.
  pose proof (pl_unsubscribe_frame _ _ _ _ _ _ Hl Hc E1) as Hq. destruct (Hq) as (H1 & _).
  assert (Ha : quiet c ch s1 (ps_aclose c' s1).2).
  { destruct (ps_aclose c' s1) as [r2 s2] eqn:E2. by eapply pl_aclose_frame. }
  destruct (ps_aclose c' s1) as [r2 s2] eqn:E2. cbn [snd] in *.
  pose proof (quiet_trans _ _ _ _ _ Hq Ha) as Hqa.
  destruct r as [[]|e]; [|destruct (is_redis_error e); [|exact Hq]]; cbn; rewrite E2;
    (destruct r2 as [[]|e2]; [exact Hqa|]); destruct (_ || _); exact Hqa.
Qed.

Lemma subscribe_run c ch c' ch' s r s' :
  pl_listening c ch s -> c <> c' -> or_gate_error (ps_subscribe c' ch') s = (r, s') -> quiet c ch s s'.
Proof. intros Hl Hc (r0 & E & _)%or_gate_error_run. by eapply pl_subscribe_frame. Qed.

Lemma prompt_publish_quiet c pid t j x s r s' :
  pl_listening c (decision_channel g pid) s ->
  or_gate_error (ps_publish (prompt_channel g t j) x) s = (r, s') -> quiet c (decision_channel g pid) s s'.
Proof.
  intros Hl (r0 & E & _)%or_gate_error_run.
  destruct (pl_publish _ _ _ _ _ _ _ Hl E) as (H1 & HL & [[H2 _]|[Heq _]]); [done|].
  by destruct (apart t j pid).
Qed.

Lemma ask_quiet c pid p s :
  pl_listening c (decision_channel g pid) s ->
  quiet c (decision_channel g pid) s ((c' <- open_pubsub ;; announce g k p c') s).2.
Proof.
  intros Hl. unfold bind at 1, open_pubsub. destruct (pubsub s) as [c' s1] eqn:E1.
  destruct (open_quiet _ _ _ _ _ Hl E1) as [Hc Hq]. unfold announce, bind.
  destruct (or_gate_error (ps_subscribe c' _) s1) as [[[]|e] s2] eqn:E2;
    assert (Hq2 := quiet_trans _ _ _ _ _ Hq (subscribe_run _ _ _ _ _ _ _ (proj1 Hq) Hc E2)); [|done].
  destruct (or_gate_error (ps_publish _ _) s2) as [r s3] eqn:E3.
  eapply quiet_trans; [exact Hq2|]. eapply prompt_publish_quiet; [apply Hq2|exact E3].
Qed.

Lemma watch_quiet c ch t j s :
  pl_listening c ch s -> quiet c ch s (redis_subscribe_prompts g t j s).2.
Proof.
  intros Hl. unfold redis_subscribe_prompts, bind at 1, open_pubsub. destruct (pubsub s) as [c' s1] eqn:E1.
  destruct (open_quiet _ _ _ _ _ Hl E1) as [Hc Hq]. unfold try_except, bind at 1.
  destruct (ps_subscribe c' _ s1) as [[[]|e] s2] eqn:E2;
    pose proof (pl_subscribe_frame _ _ _ _ _ _ _ (proj1 Hq) Hc E2) as Hq1; destruct (Hq1) as (H2 & _);
    assert (Hq2 : quiet c ch s s2) by (by eapply quiet_trans); [done|].
  destruct (is_redis_error e); [|done]. eapply quiet_trans; [exact Hq2|].
  pose proof (close_quiet c ch c' s2 H2 Hc) as Hx. unfold bind.
  by destruct (safe_close_pubsub c' s2) as [[[]|x] s3].
Qed.

(** One delivery: it adds its decision to what [c] hears, unless it failed, was
    for another prompt, or was lost. *)
Lemma deliver_heard c pid d (s : S) r (s' : S) :
  pl_listening c (decision_channel g pid) s -> redis_deliver g k d s = (r, s') ->
  pl_listening c (decision_channel g pid) s' /\ (pl_lost c s -> pl_lost c s') /\
  ((heard c s' = heard c s /\ (r = Ok tt -> pd_prompt_id d <> pid \/ pl_lost c s')) \/
   (pd_prompt_id d = pid /\ heard c s' = (heard c s ++ [d])%list)).
Proof.
  intros Hl (r0 & E & Hr)%or_gate_error_run.
  destruct (pl_publish _ _ _ _ _ _ _ Hl E) as (H1 & HL & [[H2 H3]|[Heq H2]]); (split; [done|]); (split; [done|]).
  - left. unfold heard. rewrite H2. split; [done|]. intros Hk. destruct H3 as [H3|H3]; [by apply Hr|left|by right].
    intros Heq. apply H3. by rewrite Heq.
  - right. assert (pd_prompt_id d = pid) as <-.
    { unfold decision_channel in Heq. by repeat apply app_str_inj_l in Heq. }
    split; [done|]. unfold heard, listen_all. rewrite H2, omap_app. cbn.
    destruct (codec d) as [Hd Hv]. rewrite Hv. cbn. by rewrite Hd.
Qed.

Definition closes (c : nat) (o : rop) : bool := match o with RClose c' => Nat.eqb c c' | _ => false end.

(** One operation of the others. *)
Lemma rop_heard c pid o (s : S) :
  pl_listening c (decision_channel g pid) s -> closes c o = false ->
  let '(b, s1) := run_rop g k o s in
  pl_listening c (decision_channel g pid) s1 /\ (pl_lost c s -> pl_lost c s1) /\
  exists L1, lands (pl_lost c s1) (attempts pid [(o, b)]) L1 /\ heard c s1 = heard c s ++ L1.
Proof.
  intros Hl Hc1. destruct (run_rop g k o s) as [b s1] eqn:E1.
  assert (Hquiet : quiet c (decision_channel g pid) s s1 -> attempts pid [(o, b)] = [] ->
    pl_listening c (decision_channel g pid) s1 /\ (pl_lost c s -> pl_lost c s1) /\
    exists L1, lands (pl_lost c s1) (attempts pid [(o, b)]) L1 /\ heard c s1 = heard c s ++ L1).
  { intros (H1 & HL & H2) ->. split; [done|]. split; [done|]. exists []. split; [constructor|].
    unfold heard. by rewrite H2, app_nil_r. }
  destruct o as [d|p|t j|c']; cbn [run_rop closes] in *.
  - destruct (redis_deliver g k d s) as [r s1'] eqn:Ed. cbn in E1.
    destruct (deliver_heard _ _ _ _ _ _ Hl Ed) as (H1 & HL & H2).
    assert (s1' = s1) as -> by congruence. split; [done|]. split; [done|]. cbn.
    destruct H2 as [[H2 H3]|[H2 H3]].
    + exists []. rewrite app_nil_r. split; [|done].
      destruct (String.eqb_spec (pd_prompt_id d) pid) as [He|He]; [|constructor].
      apply lands_skip; [|constructor]. intros ->. destruct r as [[]|x]; [|done]. by destruct H3.
    + exists [d]. rewrite <- H2, String.eqb_refl. split; [repeat constructor|done].
  - apply Hquiet; [|done]. pose proof (ask_quiet c pid p s Hl) as Hq.
    destruct ((c' <- open_pubsub ;; announce g k p c') s) as [r s2]. by injection E1 as _ <-.
  - apply Hquiet; [|done]. pose proof (watch_quiet c _ t j s Hl) as Hq.
    destruct (redis_subscribe_prompts g t j s) as [r s2]. by injection E1 as _ <-.
  - apply Hquiet; [|done]. apply Nat.eqb_neq in Hc1.
    pose proof (close_quiet c _ c' s Hl Hc1) as Hq.
    destruct (safe_close_pubsub c' s) as [r s2]. by injection E1 as _ <-.
Qed.

(** A sequence of operations of the others: what it adds to what [c] hears is what
    landed of its attempts for the prompt. *)
Lemma rops_heard c pid ops (s : S) :
  pl_listening c (decision_channel g pid) s -> existsb (closes c) ops = false ->
  let '(log, s') := run_rops g k ops s in
  pl_listening c (decision_channel g pid) s' /\ (pl_lost c s -> pl_lost c s') /\
  exists L, lands (pl_lost c s') (attempts pid log) L /\ heard c s' = heard c s ++ L.
Proof.
  revert s. induction ops as [|o ops IH]; intros s Hl Hc.
  { split; [done|]. split; [done|]. exists []. split; [constructor|by rewrite app_nil_r]. }
  cbn [existsb] in Hc. apply orb_false_iff in Hc as [Hc1 Hc]. cbn [run_rops].
  pose proof (rop_heard c pid o s Hl Hc1) as Hstep. destruct (run_rop g k o s) as [b s1] eqn:E1. specialize (IH s1).
  destruct Hstep as (Hl1 & HM1 & L1 & HL1 & E2). specialize (IH Hl1 Hc).
  destruct (run_rops g k ops s1) as [log s2]. destruct IH as (Hl2 & HM2 & L2 & HL2 & E3).
  split; [done|]. split; [tauto|]. exists (L1 ++ L2). split; [|by rewrite E3, E2, app_assoc].
  change ((o, b) :: log) with ([(o, b)] ++ log). unfold attempts. rewrite omap_app.
  apply lands_app; [|done]. by eapply lands_weaken.
Qed.

(** Teardown never masks the outcome. *)
Lemma safe_close_ok c (s : S) : (safe_close_pubsub c s).1 = Ok tt.
Proof.
  unfold safe_close_pubsub, bind, try_except.
  assert (Ha : forall s1, (let (r, w') := ps_aclose c s1 in
      match r with
      | Ok a => (Ok a, w')
      | Err e => match (if is_redis_error e || bool_decide (e = ExternalError "AttributeError")
                        then Some (ret tt) else None) with
                 | Some m => m w' | None => (Err e, w') end
      end).1 = Ok tt).
  { intros s1. destruct (ps_aclose c s1) as [[[]|e] s2] eqn:E; [done|]. by rewrite (pl_aclose_err _ _ _ _ E). }
  destruct (ps_unsubscribe c s) as [[[]|e] s1] eqn:E; [apply Ha|].
  rewrite (pl_unsubscribe_err _ _ _ _ E). apply Ha.
Qed.

Definition others (ops : list rop) (n : nat) (e : wait_end) (c : nat) : M S (nat * wait_end) :=
  fun s => (Ok (n, e), (run_rops g k ops s).2).

Definition end_error (e : wait_end) : exn :=
  match e with TimerFired => PermissionTimeoutError | StreamEnded => PermissionGateError | StreamRaised x => x end.

Lemma announce_listens p c (s s' : S) :
  pl_fresh c s -> announce g k p c s = (Ok tt, s') ->
  pl_listening c (decision_channel g (pp_prompt_id p)) s' /\ heard c s' = [].
Proof.
  intros Hf ([] & s1 & (r0 & E1 & Hr)%or_gate_error_run & E2)%bind_inv_ok.
  rewrite (proj1 (Hr tt) eq_refl) in E1. destruct (pl_subscribe _ _ _ _ Hf E1) as [Hl Hn].
  destruct (prompt_publish_quiet _ _ _ _ _ _ _ _ Hl E2) as (Hl' & _ & Hq). split; [done|].
  unfold heard, listen_all. rewrite Hq. clear -Hn. induction Hn as [|m l Hm _ IH]; [done|].
  cbn. unfold message_payload at 1. apply String.eqb_neq in Hm. by rewrite Hm.
Qed.

Lemma attempts_own pid log d b : (d, b) ∈ attempts pid log -> pd_prompt_id d = pid.
Proof.
  unfold attempts. rewrite list_elem_of_omap. intros ([o b'] & _ & Ho).
  destruct o; try done. destruct (String.eqb_spec (pd_prompt_id d0) pid); by simplify_eq.
Qed.

(** What [request] returns when its prompt went out: the first decision among the
    messages it read, which are a prefix of what reached its connection. *)
Lemma redis_request_result p timeout ops n e s c s1 s2 log s3 :
  0 < timeout -> pubsub s = (c, s1) -> announce g k p c s1 = (Ok tt, s2) ->
  run_rops g k ops s2 = (log, s3) -> existsb (closes c) ops = false ->
  exists L L', lands (pl_lost c s3) (attempts (pp_prompt_id p) log) (L ++ L') /\
    ((length (ps_received c s3) <= n)%nat -> L' = []) /\ (n = 0%nat -> L = []) /\
    (redis_request g k p timeout (others ops n e) s).1 =
      match L with d :: _ => Ok d | [] => Err (end_error e) end.
Proof.
  intros Ht Ep Ea Eo Hc. destruct (announce_listens _ _ _ _ (pl_pubsub _ _ _ Ep) Ea) as [Hl Hh].
  pose proof (rops_heard c (pp_prompt_id p) ops s2 Hl Hc) as Hr. rewrite Eo in Hr.
  destruct Hr as (_ & _ & L0 & HL & HE). rewrite Hh in HE. cbn in HE. subst L0.
  set (m := fun m => p ← message_payload m; load_decision k p) in *.
  exists (omap m (take n (ps_received c s3))), (omap m (drop n (ps_received c s3))).
  rewrite <- omap_app, take_drop. split; [exact HL|]. split; [intros Hn; by rewrite drop_ge|]. split; [by intros ->|].
  unfold redis_request. destruct (Z.leb_spec timeout 0); [lia|].
  unfold bind at 1, open_pubsub. rewrite Ep. unfold try_finally, bind, others. rewrite Ea, Eo. cbn [snd].
  pose proof (safe_close_ok c s3) as Hx. destruct (safe_close_pubsub c s3) as [r s4]. cbn in Hx. rewrite Hx.
  cbn [fst]. unfold wait_for_decision, listen_all. fold m. by destruct (omap m _), e.
Qed.
End Heard.

(** C21: what the waiting request returns.  Once a worker's request has announced its
    prompt, take anything the other processes do until the wait ends, and any number
    [n] of messages the request has read when its timer fires or its stream ends or
    raises.  The request returns a decision that was sent for its own prompt after
    the announcement, or the error of the end of its wait, a timer being
    [PermissionTimeoutError]; it is that error if nothing was sent or nothing was
    read.  If the connection lost nothing, no decision whose delivery was confirmed
    came before the one returned; if moreover everything that came in was read in
    time and some delivery was confirmed, a decision is returned.  Delivery itself is
    at most once: a connection that is cut off may lose any message. *)
Theorem redis_decision_spec {S} `{PubSubLaws S} (g : RedisGate) (k : Codec) p timeout ops n e
    (s : S) c s1 s2 log s3 :
  (forall t j pid, prompt_channel g t j <> decision_channel g pid) -> decision_codec_ok k ->
  0 < timeout -> pubsub s = (c, s1) -> announce g k p c s1 = (Ok tt, s2) ->
  run_rops g k ops s2 = (log, s3) -> existsb (closes c) ops = false ->
  let l := attempts (pp_prompt_id p) log in
  let r := (redis_request g k p timeout (others g k ops n e) s).1 in
  ((exists d b, r = Ok d /\ (d, b) ∈ l /\ pd_prompt_id d = pp_prompt_id p) \/ r = Err (end_error e)) /\
  (l = [] \/ n = 0%nat -> r = Err (end_error e)) /\
  (~ pl_lost c s3 -> (forall d, r = Ok d -> may_win l d) /\
     ((length (ps_received c s3) <= n)%nat -> Exists (fun x => x.2 = true) l -> exists d, r = Ok d)).
Proof.
  intros Ha Hk Ht Ep Ean Eo Hc l r.
  destruct (redis_request_result g k Ha Hk p timeout ops n e s c s1 s2 log s3) as (L & L' & HL & Hall & Hnone & HE); [done..|].
  fold l in HL. fold r in HE. rewrite HE. clear HE. split_and!.
  - destruct L as [|d L]; [by right|left]. destruct (lands_in _ _ _ d HL) as [b Hb]; [by left|].
    exists d, b. split_and!; [done|done|]. by eapply attempts_own.
  - intros [Hl|Hn]; [|by rewrite (Hnone Hn)]. rewrite Hl in HL. by destruct L; inversion HL.
  - intros Hlost. pose proof (lands_first _ _ _ HL Hlost) as Hf. split.
    + destruct L as [|d L]; [done|]. by intros d' [= <-].
    + intros Hn (x & Hx & Ht')%Exists_exists. rewrite (Hall Hn), app_nil_r in Hf. destruct L as [|d L]; [|by exists d].
      rewrite Forall_forall in Hf. specialize (Hf x Hx). congruence.
Qed.

(** The default prefixes keep prompts and decisions apart... *)
Definition default_gate : RedisGate := mkRedisGate DEFAULT_PROMPT_PREFIX DEFAULT_DECISION_PREFIX.

Lemma default_channels_apart t j pid : prompt_channel default_gate t j <> decision_channel default_gate pid.
Proof. done. Qed.

(** ... but a colon in a tenant id makes two tenants share a prompt channel. *)
Lemma redis_prompt_channels_collide g :
  prompt_channel g "acme" "team:t1" = prompt_channel g "acme:team" "t1".
Proof. done. Qed.

(** ** A server *)

Module Server.

(** Connections with their channel and what has reached them; the ones in [sv_cut]
    are cut off from the server and miss what is published. *)
Record server : Type := mkServer {
  sv_conns : gmap nat (option string * list ps_message);
  sv_next : nat;
  sv_down : bool;
  sv_cut : gset nat
}.

Definition put (c : nat) (x : option string * list ps_message) (s : server) : server :=
  mkServer (<[c := x]> (sv_conns s)) (sv_next s) (sv_down s) (sv_cut s).

Definition hear (cut : gset nat) (ch x : string) (c : nat) (q : option string * list ps_message)
    : option (option string * list ps_message) :=
  Some (if bool_decide (q.1 = Some ch) && negb (bool_decide (c ∈ cut))
        then (q.1, q.2 ++ [mkMessage "message" (WBytes x)]) else q).

Definition guard_up {A} (m : M server A) : M server A :=
  fun s => if sv_down s then (Err REDIS_ERROR, s) else m s.

#[export] Instance server_pubsub : PubSub server := {|
  pubsub s := (sv_next s, mkServer (<[sv_next s := (None, [])]> (sv_conns s)) (S (sv_next s)) (sv_down s) (sv_cut s));
  ps_subscribe c ch := guard_up (fun s =>
    (Ok tt, put c (Some ch, (default (None, []) (sv_conns s !! c)).2 ++ [mkMessage "subscribe" WOther]) s));
  ps_unsubscribe c := guard_up (fun s => (Ok tt, put c (None, (default (None, []) (sv_conns s !! c)).2) s));
  ps_aclose c := fun s => (Ok tt, s);
  ps_publish ch x := guard_up (fun s =>
    (Ok tt, mkServer (map_imap (hear (sv_cut s) ch x) (sv_conns s)) (sv_next s) (sv_down s) (sv_cut s)));
  ps_received c s := (default (None, []) (sv_conns s !! c)).2
|}.

Definition listening (c : nat) (ch : string) (s : server) : Prop :=
  (c < sv_next s)%nat /\ exists q, sv_conns s !! c = Some (Some ch, q).
Definition cut_off (c : nat) (s : server) : Prop := c ∈ sv_cut s.

Lemma put_other c ch c' x s :
  listening c ch s -> c <> c' -> listening c ch (put c' x s) /\ (cut_off c s -> cut_off c (put c' x s)) /\
  ps_received c (put c' x s) = ps_received c s.
Proof.
  intros [Hn [q Hq]] Hc. unfold listening. cbn. rewrite lookup_insert_ne by done. split_and!; by eauto.
Qed.

Lemma publish_law c ch ch' x s r s' :
  listening c ch s -> ps_publish ch' x s = (r, s') ->
  listening c ch s' /\ (cut_off c s -> cut_off c s') /\
  ((ps_received c s' = ps_received c s /\ (r = Ok tt -> ch <> ch' \/ cut_off c s')) \/
   (ch = ch' /\ ps_received c s' = ps_received c s ++ [mkMessage "message" (WBytes x)])).
Proof.
  intros [Hn [q Hq]]. cbn. unfold guard_up. destruct (sv_down s); intros [= <- <-].
  { split; [by split; eauto|]. split; [done|]. by left. }
  unfold listening, cut_off. cbn. rewrite map_lookup_imap, Hq. unfold hear. cbn.
  case_bool_decide as Hch; [injection Hch as ->|]; cbn.
  - case_bool_decide as Hcut; cbn; (split; [by eauto|]); (split; [done|]); [left|by right].
    split; [done|]. intros _. by right.
  - split; [by eauto|]. split; [done|]. left. split; [done|]. intros _. left. intros ->. by apply Hch.
Qed.

#[export] Instance server_laws : PubSubLaws server.
Proof.
  refine {| pl_fresh c s := sv_conns s !! c = Some (None, []) /\ (c < sv_next s)%nat;
            pl_listening := listening; pl_lost := cut_off |}.
  - intros s c s' [= <- <-]. cbn. rewrite lookup_insert_eq. split; [done|lia].
  - intros c ch s s' [Hf Hn]. cbn. unfold guard_up. destruct (sv_down s); [done|]. intros [= <-].
    unfold listening. cbn. rewrite lookup_insert_eq, Hf. cbn. split; [by eauto|]. by repeat constructor.
  - exact publish_law.
  - intros c ch s c' s' [Hn [q Hq]] [= <- <-]. assert (c <> sv_next s) by lia. split; [done|].
    unfold listening. cbn. rewrite lookup_insert_ne by done. split; [split; [lia|by eauto]|done].
  - intros c ch c' ch' s r s' Hl Hc. cbn. unfold guard_up.
    destruct (sv_down s); intros [= <- <-]; [done|]. by apply put_other.
  - intros c ch c' s r s' Hl Hc. cbn. unfold guard_up.
    destruct (sv_down s); intros [= <- <-]; [done|]. by apply put_other.
  - by intros c ch c' s r s' Hl Hc [= <- <-].
  - intros c s e s'. cbn. unfold guard_up. by destruct (sv_down s); intros [= <- <-].
  - by intros c s e s' [= <- <-].
Defined.

Lemma server_lost c s : pl_lost c s -> c ∈ sv_cut s.
Proof. done. Qed.

End Server.
Import Server.

(** A codec for the demonstration: the binary digits of a countable encoding. *)
Fixpoint bits (p : positive) : string :=
  match p with xH => "" | xO p' => String (Ascii.ascii_of_nat 48) (bits p') | xI p' => String (Ascii.ascii_of_nat 49) (bits p') end.
Fixpoint unbits (s : string) : positive :=
  match s with
  | EmptyString => xH
  | String c s' => if char_is 49 c then xI (unbits s') else xO (unbits s')
  end.

Lemma unbits_bits p : unbits (bits p) = p.
Proof. induction p as [p IH|p IH|]; cbn; [by rewrite IH..|done]. Qed.

Lemma bits_valid p : Utf8.valid (bits p) = true.
Proof. induction p as [p IH|p IH|]; [exact IH..|done]. Qed.

Definition demo_codec : Codec :=
  mkCodec (fun d => bits (countable.encode (pd_prompt_id d, pd_allow d, pd_reason d, pd_decided_at d)))
    (fun s => '(i, a, r, t) ← countable.decode (A := string * bool * option string * Z) (unbits s);
              Some (mkPermissionDecision i a r t))
    (fun p => pp_prompt_id p) (fun _ => None).

Lemma demo_codec_ok : decision_codec_ok demo_codec.
Proof. intros [i a r t]. cbn. rewrite unbits_bits, decode_encode. split; [done|apply bits_valid]. Qed.

(** A worker asks about [p1]; a decision for [p2], a watcher and another request
    come first, then two decisions for [p1]: the first one is returned. *)
Definition demo_prompt (pid : string) : PermissionPrompt := mkPrompt pid "acme" "t1" "edit_write" "" [] 0.
Definition demo_ops : list rop :=
  [RDeliver (mkPermissionDecision "p2" true None 1); RWatch "acme" "t1"; RAsk (demo_prompt "p3"); RClose 1;
   RDeliver (mkPermissionDecision "p1" false (Some "no") 2); RDeliver (mkPermissionDecision "p1" true None 3)].
Definition demo_server (cut : gset nat) : server := mkServer ∅ 0 false cut.
Definition demo_request (cut : gset nat) (n : nat) : res PermissionDecision :=
  (redis_request default_gate demo_codec (demo_prompt "p1") 30 (others default_gate demo_codec demo_ops n TimerFired)
     (demo_server cut)).1.

(** Read in time it is the first decision; read too late, or on a connection that is
    cut off, the timer ends the wait. *)
Example demo_first_decision :
  demo_request ∅ 9 = Ok (mkPermissionDecision "p1" false (Some "no") 2) /\
  demo_request ∅ 1 = Err PermissionTimeoutError /\ demo_request {[0%nat]} 9 = Err PermissionTimeoutError.
Proof. split_and!; vm_compute; reflexivity. Qed.

Lemma redis_decision_spec_witness :
  exists d, demo_request ∅ 9 = Ok d /\ pd_prompt_id d = "p1".
Proof.
  set (s1 := (pubsub (demo_server ∅)).2). set (s2 := (announce default_gate demo_codec (demo_prompt "p1") 0 s1).2).
  set (run := run_rops default_gate demo_codec demo_ops s2).
  assert (announce default_gate demo_codec (demo_prompt "p1") 0 s1 = (Ok tt, s2)) as Ea by (vm_compute; reflexivity).
  assert (sv_cut run.2 = ∅) as Ecut by (vm_compute; reflexivity).
  assert ((length (ps_received 0 run.2) <= 9)%nat) as Hlen by (apply Nat.leb_le; vm_compute; reflexivity).
  assert (Exists (fun x => x.2 = true) (attempts "p1" run.1)) as Hsome by (vm_compute; by constructor).
  destruct (redis_decision_spec (H:=server_pubsub) default_gate demo_codec (demo_prompt "p1") 30 demo_ops 9 TimerFired (demo_server ∅)
    0 s1 s2 run.1 run.2 default_channels_apart demo_codec_ok ltac:(lia) ltac:(reflexivity) Ea (surjective_pairing _) ltac:(reflexivity))
    as (H1 & _ & H3).
  unfold demo_request. set (r := (redis_request _ _ _ _ _ _).1) in *. clearbody r run s2.
  destruct H3 as [_ H3]. { intros Hl%server_lost. rewrite Ecut in Hl. exact (not_elem_of_empty 0%nat Hl). }
  destruct (H3 Hlen Hsome) as [d Hd]. exists d. split; [exact Hd|].
  destruct H1 as [(d' & b & Hd' & _ & Hp)|H1]; [|congruence]. assert (d' = d) as -> by congruence. exact Hp.
Defined.
