(* ===== verification/Webhooks.v ===== *)
(** * Webhooks: fan-out of audit events and their signed delivery

    [core/domain/webhook.py], [infra/persistence/webhook_repo.py] and
    [infra/webhook/].  The two tables are lists of rows; every statement and every
    HTTP request asks the oracle [Env] what the environment does at that point, so
    a theorem about all worlds covers every failure.  [hmac] and [json.dumps] are
    parameters. *)

From S2P Require Import Prelude PyText Domain GraphRuntime.

Inductive WebhookDeliveryStatus : Type := WD_PENDING | WD_DISPATCHED | WD_DEAD_LETTER.
#[global] Instance WebhookDeliveryStatus_eq_dec : EqDecision WebhookDeliveryStatus.
Proof. solve_decision. Defined.

Definition WebhookDeliveryStatus_value (s : WebhookDeliveryStatus) : string :=
  match s with WD_PENDING => "pending" | WD_DISPATCHED => "dispatched" | WD_DEAD_LETTER => "dead_letter" end.

Record WebhookSubscription : Type := mkSubscription {
  ws_subscription_id : string; ws_tenant_id : string; ws_url : string; ws_secret : string;
  ws_events : list string; ws_active : bool; ws_created_at : Z
}.

Record WebhookDelivery : Type := mkDelivery {
  wd_delivery_id : string; wd_subscription_id : string; wd_tenant_id : string; wd_trace_id : string;
  wd_event_action : string; wd_payload : dict; wd_idempotency_key : string;
  wd_status : WebhookDeliveryStatus; wd_attempts : Z; wd_next_attempt_at : Z;
  wd_last_error : option string; wd_created_at : Z; wd_dispatched_at : option Z
}.

(** The field constraints of the two models. *)
Definition check_subscription (s : WebhookSubscription) : res WebhookSubscription :=
  if nonempty (ws_subscription_id s) && nonempty (ws_tenant_id s) && nonempty (ws_url s)
     && Nat.leb (String.length (ws_url s)) 2048 && Nat.leb 8 (String.length (ws_secret s))
     && Nat.leb (String.length (ws_secret s)) 512 && negb (Nat.eqb (length (ws_events s)) 0)
  then Ok s else Err (ValidationError "WebhookSubscription").

Definition check_delivery (d : WebhookDelivery) : res WebhookDelivery :=
  if nonempty (wd_delivery_id d) && nonempty (wd_subscription_id d) && nonempty (wd_tenant_id d)
     && nonempty (wd_trace_id d) && nonempty (wd_event_action d) && nonempty (wd_idempotency_key d)
     && (0 <=? wd_attempts d)
  then Ok d else Err (ValidationError "WebhookDelivery").

(** ** The world *)

Record Post : Type := mkPost { po_url : string; po_body : string; po_headers : list (string * string) }.

(** What [http.post] does: a status, a timeout, another [httpx.HTTPError], or an
    exception outside that hierarchy (such as [httpx.InvalidURL]). *)
Inductive HttpReply : Type :=
  | Status (code : Z)
  | PostTimeout (msg : string)
  | PostNetwork (msg : string)
  | PostRaises (e : exn).

Record Env : Type := mkEnv {
  env_clock : nat -> Z; env_id : nat -> string; env_fault : nat -> option exn;
  env_http : nat -> Post -> HttpReply
}.

Record WH : Type := mkWH {
  wh_ctx : option RequestContext;
  wh_subs : list WebhookSubscription;
  wh_dels : list WebhookDelivery;
  wh_sent : list Post;
  wh_step : nat;
  wh_env : Env
}.

#[export] Instance WH_HasContext : HasContext WH := {
  current_ctx := wh_ctx;
  set_ctx := fun c w => mkWH c (wh_subs w) (wh_dels w) (wh_sent w) (wh_step w) (wh_env w);
  current_set_ctx := fun c w => eq_refl;
  set_ctx_current := fun w => match w with mkWH _ _ _ _ _ _ => eq_refl end;
  set_ctx_set_ctx := fun c1 c2 w => eq_refl
}.

Definition tick (w : WH) : WH :=
  mkWH (wh_ctx w) (wh_subs w) (wh_dels w) (wh_sent w) (S (wh_step w)) (wh_env w).

Definition wh_clock : M WH Z := fun w => (Ok (env_clock (wh_env w) (wh_step w)), tick w).
Definition wh_new_id : M WH string := fun w => (Ok (env_id (wh_env w) (wh_step w)), tick w).
Definition wh_call : M WH unit := fun w =>
  (match env_fault (wh_env w) (wh_step w) with Some e => Err e | None => Ok tt end, tick w).
Definition http_post (p : Post) : M WH HttpReply := fun w =>
  (Ok (env_http (wh_env w) (wh_step w) p),
   mkWH (wh_ctx w) (wh_subs w) (wh_dels w) (wh_sent w ++ [p]) (S (wh_step w)) (wh_env w)).

Definition with_subs (f : list WebhookSubscription -> list WebhookSubscription) (w : WH) : WH :=
  mkWH (wh_ctx w) (f (wh_subs w)) (wh_dels w) (wh_sent w) (wh_step w) (wh_env w).
Definition with_dels (f : list WebhookDelivery -> list WebhookDelivery) (w : WH) : WH :=
  mkWH (wh_ctx w) (wh_subs w) (f (wh_dels w)) (wh_sent w) (wh_step w) (wh_env w).

(** ** Subscription repository *)

(** [INSERT ... ON CONFLICT (subscription_id) DO UPDATE]: the tenant and the
    creation time of an existing row stay. *)
Fixpoint upsert_subscription (s : WebhookSubscription) (l : list WebhookSubscription)
    : list WebhookSubscription :=
  match l with
  | [] => [s]
  | x :: l' =>
      if String.eqb (ws_subscription_id x) (ws_subscription_id s)
      then mkSubscription (ws_subscription_id x) (ws_tenant_id x) (ws_url s) (ws_secret s) (ws_events s)
             (ws_active s) (ws_created_at x) :: l'
      else x :: upsert_subscription s l'
  end.

Definition subscription_upsert (s : WebhookSubscription) : M WH unit :=
  check_tenant (ws_tenant_id s) ;;;
  wh_call ;;;
  modify (with_subs (upsert_subscription s)).

Definition find_subscription (sid : string) (l : list WebhookSubscription) : option WebhookSubscription :=
  List.find (fun s => String.eqb (ws_subscription_id s) sid) l.

Definition subscription_get (sid : string) : M WH (option WebhookSubscription) :=
  wh_call ;;;
  w <- get ;;
  ret (find_subscription sid (wh_subs w)).

Definition listens (tenant action : string) (s : WebhookSubscription) : bool :=
  String.eqb (ws_tenant_id s) tenant && ws_active s && existsb (String.eqb action) (ws_events s).

Definition list_active_for_event (tenant action : string) : M WH (list WebhookSubscription) :=
  check_tenant tenant ;;;
  wh_call ;;;
  w <- get ;;
  ret (List.filter (listens tenant action) (wh_subs w)).

(** ** Delivery repository *)

Definition same_key (d x : WebhookDelivery) : bool :=
  String.eqb (wd_tenant_id x) (wd_tenant_id d) && String.eqb (wd_idempotency_key x) (wd_idempotency_key d).

(** [ON CONFLICT (tenant_id, idempotency_key) DO NOTHING]; the primary key still
    refuses a used delivery id. *)
Definition enqueue_with_conn (d : WebhookDelivery) : M WH unit :=
  wh_call ;;;
  w <- get ;;
  if existsb (same_key d) (wh_dels w) then ret tt
  else if existsb (fun x => String.eqb (wd_delivery_id x) (wd_delivery_id d)) (wh_dels w)
  then raise UniqueViolationError
  else modify (with_dels (fun l => l ++ [d])).

Definition delivery_enqueue (d : WebhookDelivery) : M WH unit :=
  check_tenant (wd_tenant_id d) ;;; enqueue_with_conn d.

Definition delivery_due (now : Z) (d : WebhookDelivery) : bool :=
  bool_decide (wd_status d = WD_PENDING) && (wd_next_attempt_at d <=? now).

Definition due_le (a b : WebhookDelivery) : Prop := wd_next_attempt_at a <= wd_next_attempt_at b.
#[global] Instance due_le_dec : RelDecision due_le.
Proof. intros a b. unfold due_le. apply _. Defined.

(** The transaction ends with the select: nothing stays locked. *)
Definition delivery_claim_pending (batch_size : nat) (now : Z) : M WH (list WebhookDelivery) :=
  wh_call ;;;
  w <- get ;;
  ret (take batch_size (merge_sort due_le (List.filter (delivery_due now) (wh_dels w)))).

(** [UPDATE webhook_deliveries SET ... WHERE delivery_id = $1]. *)
Definition upd (id : string) (f : WebhookDelivery -> WebhookDelivery) (r : WebhookDelivery) : WebhookDelivery :=
  if String.eqb (wd_delivery_id r) id then f r else r.

Definition delivery_with (d : WebhookDelivery) (st : WebhookDeliveryStatus) (attempts next_at : Z)
    (last_error : option string) (dispatched_at : option Z) : WebhookDelivery :=
  mkDelivery (wd_delivery_id d) (wd_subscription_id d) (wd_tenant_id d) (wd_trace_id d) (wd_event_action d)
    (wd_payload d) (wd_idempotency_key d) st attempts next_at last_error (wd_created_at d) dispatched_at.

Definition delivery_mark_dispatched (id : string) (dispatched_at attempts : Z) : M WH unit :=
  wh_call ;;;
  modify (with_dels (map (upd id (fun r =>
    delivery_with r WD_DISPATCHED attempts (wd_next_attempt_at r) None (Some dispatched_at))))).

Definition delivery_mark_retry (id : string) (next_attempt_at : Z) (last_error : string) (attempts : Z)
    : M WH unit :=
  wh_call ;;;
  modify (with_dels (map (upd id (fun r =>
    if bool_decide (wd_status r = WD_PENDING)
    then delivery_with r (wd_status r) attempts next_attempt_at (Some last_error) (wd_dispatched_at r)
    else r)))).

Definition delivery_mark_dead_letter (id last_error : string) (attempts finalised_at : Z) : M WH unit :=
  wh_call ;;;
  modify (with_dels (map (upd id (fun r =>
    delivery_with r WD_DEAD_LETTER attempts (wd_next_attempt_at r) (Some last_error) (Some finalised_at))))).

Definition delivery_get (id : string) : M WH (option WebhookDelivery) :=
  wh_call ;;;
  w <- get ;;
  ret (List.find (fun d => String.eqb (wd_delivery_id d) id) (wh_dels w)).

Definition delivery_count_by_status (tenant : string) (st : WebhookDeliveryStatus) : M WH Z :=
  check_tenant tenant ;;;
  wh_call ;;;
  w <- get ;;
  ret (Z.of_nat (length (List.filter (fun d => String.eqb (wd_tenant_id d) tenant
                                       && bool_decide (wd_status d = st)) (wh_dels w)))).

(** ** Signing *)

Definition SIGNATURE_HEADER : string := "X-Meta-Agent-Signature".
Definition SIGNATURE_PREFIX : string := "sha256=".

Section Signing.
Context (hmac_sha256_hex : string -> string -> string).

Definition compute_signature (secret body : string) : res string :=
  if negb (nonempty secret) then Err (ValueError "compute_signature: secret must be a non-empty string")
  else Ok (SIGNATURE_PREFIX +:+ hmac_sha256_hex secret body).

(** [signature.encode("ascii")] raises on other characters. *)
Definition verify_signature (secret body signature : string) : res bool :=
  let? expected := compute_signature secret body in
  if is_ascii signature then Ok (String.eqb expected signature)
  else Err (ExternalError "UnicodeEncodeError").
End Signing.

(** ** Dispatcher *)

(** [WebhookDispatcherConfig]; delays in microseconds. *)
Record WebhookDispatcherConfig : Type := mkWebhookConfig {
  wc_batch_size : nat; wc_max_attempts : Z; wc_base_delay : Z; wc_max_delay : Z
}.
Definition default_webhook_config : WebhookDispatcherConfig := mkWebhookConfig 32 8 1000000 21600000000.

(** [base * 2 ** (attempt_number - 1)] multiplies a float by an integer, which
    Python refuses once the integer is beyond the range of floats. *)
Definition compute_next_attempt_at (config : WebhookDispatcherConfig) (now attempt_number : Z) : res Z :=
  if attempt_number <? 1 then Err (ValueError "attempt_number must be >= 1")
  else if 1024 <=? attempt_number - 1 then Err (ExternalError "OverflowError")
  else Ok (now + Z.min (wc_base_delay config * 2 ^ (attempt_number - 1)) (wc_max_delay config)).

Section Dispatcher.
Context (hmac_sha256_hex : string -> string -> string) (json_dumps_sorted : json -> string).
Context (config : WebhookDispatcherConfig).

Definition webhook_handle_failure (d : WebhookDelivery) (attempts : Z) (last_error : string) : M WH unit :=
  if wc_max_attempts config <=? attempts then
    now <- wh_clock ;; delivery_mark_dead_letter (wd_delivery_id d) last_error attempts now
  else
    now <- wh_clock ;;
    next_at <- lift (compute_next_attempt_at config now attempts) ;;
    delivery_mark_retry (wd_delivery_id d) next_at last_error attempts.

Definition post_for (sub : WebhookSubscription) (d : WebhookDelivery) : res Post :=
  let body := json_dumps_sorted (JDict (wd_payload d)) in
  let? signature := compute_signature hmac_sha256_hex (ws_secret sub) body in
  Ok (mkPost (ws_url sub) body
        [("Content-Type", "application/json"); (SIGNATURE_HEADER, signature);
         ("X-Meta-Agent-Event", wd_event_action d); ("X-Meta-Agent-Idempotency", wd_idempotency_key d);
         ("X-Meta-Agent-Trace-Id", wd_trace_id d)]).

Definition webhook_dispatch (d : WebhookDelivery) : M WH unit :=
  sub <- subscription_get (wd_subscription_id d) ;;
  let attempts := wd_attempts d + 1 in
  match sub with
  | Some sub =>
      if ws_active sub then
        post <- lift (post_for sub d) ;;
        reply <- http_post post ;;
        match reply with
        | PostTimeout msg => webhook_handle_failure d attempts ("timeout: " +:+ msg)
        | PostNetwork msg => webhook_handle_failure d attempts ("network: " +:+ msg)
        | PostRaises e => raise e
        | Status code =>
            if (200 <=? code) && (code <? 300) then
              now <- wh_clock ;; delivery_mark_dispatched (wd_delivery_id d) now attempts
            else webhook_handle_failure d attempts ("http " +:+ pretty code)
        end
      else now <- wh_clock ;;
           delivery_mark_dead_letter (wd_delivery_id d) "subscription missing or inactive" attempts now
  | None => now <- wh_clock ;;
            delivery_mark_dead_letter (wd_delivery_id d) "subscription missing or inactive" attempts now
  end.

Definition webhook_run_once : M WH Z :=
  now <- wh_clock ;;
  batch <- delivery_claim_pending (wc_batch_size config) now ;;
  for_each batch tt (fun d _ => webhook_dispatch d) ;;;
  ret (Z.of_nat (length batch)).
End Dispatcher.

(** ** Fan-out *)

Section Fanout.
Context (isoformat : Z -> string) (watched : list string).

Definition fanout_init (actions : list string) : res (list string) :=
  match actions with [] => Err (ValueError "WebhookFanout: watched_actions must list at least one audit action")
  | _ => Ok actions end.

Definition payload_from (e : AuditEvent) : dict :=
  [("event_id", JStr (ae_event_id e)); ("tenant_id", JStr (ae_tenant_id e));
   ("trace_id", JStr (ae_trace_id e)); ("task_id", opt_json JStr (ae_task_id e));
   ("session_id", opt_json JStr (ae_session_id e)); ("action", JStr (ae_action e));
   ("payload", JDict (ae_payload e)); ("occurred_at", JStr (isoformat (ae_occurred_at e)))].

Definition fanout_key (e : AuditEvent) (s : WebhookSubscription) : string :=
  "audit:" +:+ ae_event_id e +:+ ":" +:+ ws_subscription_id s.

Definition delivery_for (e : AuditEvent) (s : WebhookSubscription) (id : string) (now : Z) : WebhookDelivery :=
  mkDelivery id (ws_subscription_id s) (ae_tenant_id e) (ae_trace_id e) (ae_action e) (payload_from e)
    (fanout_key e s) WD_PENDING 0 now None now None.

Definition fanout_one (e : AuditEvent) (now : Z) (s : WebhookSubscription) (wrote : Z) : M WH Z :=
  id <- wh_new_id ;;
  d <- lift (check_delivery (delivery_for e s id now)) ;;
  try_except (delivery_enqueue d ;;; ret (wrote + 1))
    (fun x => if is_exception x then Some (ret wrote) else None).

Definition fanout (e : AuditEvent) : M WH Z :=
  if negb (existsb (String.eqb (ae_action e)) watched) then ret 0 else
  subs <- try_except (l <- list_active_for_event (ae_tenant_id e) (ae_action e) ;; ret (Some l))
            (fun x => if is_exception x then Some (ret None) else None) ;;
  match subs with
  | None | Some [] => ret 0
  | Some l => now <- wh_clock ;; for_each l 0 (fanout_one e now)
  end.
End Fanout.
