(* ===== verification/TenantIsolation.v ===== *)
(** * TenantIsolation: every repository call and the tenants it can touch

    All methods of the repositories of [infra/persistence/], over the tables of
    [Persistence] and over the two webhook tables of [Webhooks].  A method that
    begins with [check_tenant] is guarded: [scope] names its tenant.  The others
    work across tenants by design: the listings of the expiry sweeper and of the
    resume scan, and the claims, marks and reads by primary key of the two
    dispatchers. *)

From S2P Require Import Prelude PyText Domain Cursor Keyset GraphRuntime Results Persistence PersistenceFacts Reporting Webhooks.

(** ** The calls on the main tables *)

Inductive RepoCall : Type :=
  | TaskUpsert (t : Task)
  | TaskUpsertInConn (t : Task)
  | TaskGet (tenant task : string)
  | TaskListByState (tenant : string) (s : TaskState) (limit : nat)
  | TaskListBySession (tenant session : string) (limit : nat)
  | TaskUpdateState (tenant task : string) (s : TaskState) (at_ : Z)
  | TaskListAwaitingApprovalOlderThan (threshold : Z) (limit : nat)
  | TaskListRunningForResume (limit : nat)
  | TaskSetAwaitingApproval (tenant task : string) (at_ : Z)
  | TaskTransitionFromAwaitingApproval (tenant task : string) (s : TaskState) (at_ : Z)
  | TaskComplete (tenant task : string) (r : TaskResult) (s : TaskState) (at_ : Z)
  | TaskGetResult (tenant task : string)
  | CheckpointAppend (c : TaskCheckpoint)
  | CheckpointLatest (tenant task : string)
  | CheckpointListForTask (tenant task : string)
  | OutboxEnqueue (e : OutboxEvent)
  | OutboxEnqueueInConn (e : OutboxEvent)
  | OutboxClaimPending (batch_size : nat) (now : Z)
  | OutboxMarkDispatched (event_id : string) (at_ : Z)
  | OutboxMarkFailed (event_id err : string) (next_attempt_at : option Z) (terminal : bool)
  | OutboxGet (event_id : string)
  | OutboxCountByStatus (tenant : string) (s : OutboxStatus)
  | AuditAppend (e : AuditEvent)
  | AuditListRecent (tenant : string) (limit : nat)
  | AuditListForTaskSince (tenant task : string) (after : option (Z * string)) (limit : nat)
  | AuditListFiltered (tenant : string) (f : AuditFilter)
  | UsageRecord (r : LLMUsageRecord)
  | UsageListForTask (tenant task : string)
  | UsageAggregateSince (tenant : string) (since : Z)
  | UsageListFiltered (tenant : string) (f : LLMUsageFilter)
  | UsageAggregateForTask (tenant task : string) (g : UsageGroupBy)
  | UsageAggregateGrouped (tenant : string) (since until : DateTime) (g : UsageGroupBy)
  | SessionUpsert (s : Session)
  | SessionUpsertInConn (s : Session)
  | SessionGet (tenant session : string)
  | SessionTouch (tenant session : string) (at_ : Z)
  | TrajectoryListForTask (tenant task : string) (since : option Z) (limit : Z).

(** The tenant a call is made for; [None] for the calls across tenants. *)
Definition scope (c : RepoCall) : option string :=
  match c with
  | TaskListAwaitingApprovalOlderThan _ _ | TaskListRunningForResume _
  | OutboxClaimPending _ _ | OutboxMarkDispatched _ _ | OutboxMarkFailed _ _ _ _ | OutboxGet _ => None
  | TaskUpsert t | TaskUpsertInConn t => Some (t_tenant_id t)
  | CheckpointAppend c => Some (cp_tenant_id c)
  | OutboxEnqueue e | OutboxEnqueueInConn e => Some (ob_tenant_id e)
  | AuditAppend e => Some (ae_tenant_id e)
  | UsageRecord r => Some (ur_tenant_id r)
  | SessionUpsert s | SessionUpsertInConn s => Some (se_tenant_id s)
  | TaskGet t _ | TaskListByState t _ _ | TaskListBySession t _ _ | TaskUpdateState t _ _ _
  | TaskSetAwaitingApproval t _ _ | TaskTransitionFromAwaitingApproval t _ _ _ | TaskComplete t _ _ _ _
  | TaskGetResult t _ | CheckpointLatest t _ | CheckpointListForTask t _ | OutboxCountByStatus t _
  | AuditListRecent t _ | AuditListForTaskSince t _ _ _ | AuditListFiltered t _ | UsageListForTask t _
  | UsageAggregateSince t _ | UsageListFiltered t _ | UsageAggregateForTask t _ _
  | UsageAggregateGrouped t _ _ _ | SessionGet t _ | SessionTouch t _ _ | TrajectoryListForTask t _ _ _ => Some t
  end.

(** An upsert addresses its row by the id alone, so it keeps to its tenant only if
    the id is new or the tenant's own. *)
Definition own_id (c : RepoCall) (d : Db) : Prop :=
  match c with
  | TaskUpsert t | TaskUpsertInConn t =>
      forall r, db_tasks d !! t_task_id t = Some r -> t_tenant_id (row_task r) = t_tenant_id t
  | SessionUpsert s | SessionUpsertInConn s =>
      forall x, db_sessions d !! se_session_id s = Some x -> se_tenant_id x = se_tenant_id s
  | _ => True
  end.

(** The event a cross-tenant write marks. *)
Definition marked (c : RepoCall) : option string :=
  match c with OutboxMarkDispatched id _ | OutboxMarkFailed id _ _ _ => Some id | _ => None end.

Section Calls.
Context `{!TextOrder, !LocalZone, !DayKey}.

Definition exec_repo (c : RepoCall) : M World unit :=
  match c with
  | TaskUpsert t => upsert t
  | TaskUpsertInConn t => upsert_in_conn t
  | TaskGet t i => get_task t i ;;; ret tt
  | TaskListByState t s n => list_by_state t s n ;;; ret tt
  | TaskListBySession t s n => list_by_session t s n ;;; ret tt
  | TaskUpdateState t i s a => update_state t i s a
  | TaskListAwaitingApprovalOlderThan a n => list_awaiting_approval_older_than a n ;;; ret tt
  | TaskListRunningForResume n => list_running_for_resume n ;;; ret tt
  | TaskSetAwaitingApproval t i a => set_awaiting_approval t i a
  | TaskTransitionFromAwaitingApproval t i s a => transition_from_awaiting_approval t i s a
  | TaskComplete t i r s a => complete t i r s a
  | TaskGetResult t i => get_result t i ;;; ret tt
  | CheckpointAppend c => append_checkpoint c
  | CheckpointLatest t i => latest t i ;;; ret tt
  | CheckpointListForTask t i => checkpoint_list_for_task t i ;;; ret tt
  | OutboxEnqueue e => enqueue e
  | OutboxEnqueueInConn e => enqueue_in_conn e
  | OutboxClaimPending n now => claim_pending n now ;;; ret tt
  | OutboxMarkDispatched i a => mark_dispatched i a
  | OutboxMarkFailed i e n t => mark_failed i e n t
  | OutboxGet i => outbox_get i ;;; ret tt
  | OutboxCountByStatus t s => count_by_status t s ;;; ret tt
  | AuditAppend e => append_audit e
  | AuditListRecent t n => list_recent t n ;;; ret tt
  | AuditListForTaskSince t i a n => list_for_task_since t i a n ;;; ret tt
  | AuditListFiltered t f => audit_list_filtered t f ;;; ret tt
  | UsageRecord r => record r
  | UsageListForTask t i => usage_list_for_task t i ;;; ret tt
  | UsageAggregateSince t s => aggregate_since t s ;;; ret tt
  | UsageListFiltered t f => usage_list_filtered t f ;;; ret tt
  | UsageAggregateForTask t i g => aggregate_for_task t i g ;;; ret tt
  | UsageAggregateGrouped t s u g => aggregate_grouped t s u g ;;; ret tt
  | SessionUpsert s => session_upsert s
  | SessionUpsertInConn s => session_upsert_in_conn s
  | SessionGet t i => session_get t i ;;; ret tt
  | SessionTouch t i a => touch t i a
  | TrajectoryListForTask t i s n => trajectory t i s n ;;; ret tt
  end.

(** *** The guard *)

(** A guarded call is [check_tenant] and then the rest. *)
Lemma exec_repo_guard c t : scope c = Some t -> exists m, forall w, exec_repo c w = (check_tenant t ;;; m) w.
Proof.
  intros Hc. destruct c; simpl in Hc; try discriminate; injection Hc as <-; eexists; intros w; simpl.
  all: unfold upsert, upsert_in_conn, get_task, list_by_state, list_by_session, update_state, set_awaiting_approval,
    transition_from_awaiting_approval, complete, get_result, append_checkpoint, latest, checkpoint_list_for_task,
    enqueue, enqueue_in_conn, count_by_status, append_audit, list_recent, list_for_task_since, audit_list_filtered,
    record, usage_list_for_task, aggregate_since, usage_list_filtered, aggregate_for_task, aggregate_grouped,
    session_upsert, session_upsert_in_conn, session_get, touch, trajectory, select; rewrite ?bind_assoc; reflexivity.
Qed.

(** *** What a guarded call writes *)

Lemma filter_snoc_false {A} (p : A -> bool) l x : p x = false -> List.filter p (l ++ [x]) = List.filter p l.
Proof. intros Hx. rewrite List.filter_app. simpl. rewrite Hx. apply app_nil_r. Qed.

Lemma negb_eqb_refl s : negb (String.eqb s s) = false.
Proof. by rewrite String.eqb_refl. Qed.

Lemma insert_same {A} (own : A -> Prop) (m : gmap string A) id new :
  (forall r, m !! id = Some r -> own r) -> own new ->
  forall id' r, ~ own r -> m !! id' = Some r <-> (<[id := new]> m) !! id' = Some r.
Proof.
  intros Hold Hnew id' r Hr. destruct (decide (id' = id)) as [->|Hd]; [|by rewrite lookup_insert_ne].
  rewrite lookup_insert_eq. split; [by intros Hx%Hold|by intros [= <-]].
Qed.

Lemma task_write_isolated t d id new :
  (forall r, db_tasks d !! id = Some r -> t_tenant_id (row_task r) = t) -> t_tenant_id (row_task new) = t ->
  other_tenants_same t d (with_tasks (<[id := new]>) d).
Proof.
  intros Hold Hnew. split_and!; try done. intros id' r Hne.
  by apply (insert_same (fun r => t_tenant_id (row_task r) = t)).
Qed.

Lemma session_write_isolated t d id new :
  (forall s, db_sessions d !! id = Some s -> se_tenant_id s = t) -> se_tenant_id new = t ->
  other_tenants_same t d (with_sessions (<[id := new]>) d).
Proof.
  intros Hold Hnew. split_and!; try done. intros id' s Hne.
  by apply (insert_same (fun s => se_tenant_id s = t)).
Qed.

Lemma update_where_isolated tenant task guard f :
  (forall r, t_tenant_id (row_task (f r)) = t_tenant_id (row_task r)) ->
  respects (other_tenants_same tenant) (update_where tenant task guard f).
Proof.
  intros Hf w. apply update_where_rel; [apply _|]. intros r [Hr Ht]%select_task_Some _.
  apply task_write_isolated; [|by rewrite Hf]. intros r' Hr'. congruence.
Qed.

(** A guard before a call that keeps to the tenant. *)
Lemma after_guard {A} t t' (m : M World A) w :
  other_tenants_same t (w_db w) (w_db (m w).2) ->
  other_tenants_same t (w_db w) (w_db ((check_tenant t' ;;; m) w).2).
Proof.
  intros Hm. unfold bind. destruct (check_tenant t' w) as [[[]|e] w1] eqn:Hc;
    apply check_tenant_inv in Hc as [-> _]; [exact Hm|done].
Qed.

Lemma upsert_isolated t w :
  own_id (TaskUpsert t) (w_db w) -> other_tenants_same (t_tenant_id t) (w_db w) (w_db (upsert_in_conn t w).2).
Proof.
  intros Hown. apply after_guard. unfold bind, db_call. destruct (w_fault w (w_ops w)); [done|]. simpl.
  destruct (db_tasks (w_db w) !! t_task_id t) as [old|] eqn:Hold; simpl.
  - apply task_write_isolated; [exact Hown|]. simpl. by apply Hown.
  - destruct (task_idem_conflict _ _); simpl; [done|]. apply task_write_isolated; [|done]. congruence.
Qed.

Lemma exec_upsert_isolated s w :
  own_id (SessionUpsert s) (w_db w) -> other_tenants_same (se_tenant_id s) (w_db w) (w_db (exec_upsert s w).2).
Proof.
  intros Hown. unfold exec_upsert, bind, db_call. destruct (w_fault w (w_ops w)); [done|]. cbn -[other_tenants_same].
  unfold with_sessions, upsert_session.
  destruct (db_sessions (w_db w) !! se_session_id s) as [old|] eqn:Hold.
  - apply (session_write_isolated _ (w_db w)); [exact Hown|]. simpl. by apply Hown.
  - apply (session_write_isolated _ (w_db w)); [congruence|done].
Qed.

Lemma touch_isolated tenant id a : respects (other_tenants_same tenant) (touch tenant id a).
Proof.
  unfold touch. respects_tac. intros w. cbn -[other_tenants_same]. unfold select_session.
  destruct (db_sessions (w_db w) !! id) as [s|] eqn:E; [|done]. destruct (String.eqb_spec (se_tenant_id s) tenant); [|done].
  apply session_write_isolated; [congruence|done].
Qed.

Lemma guarded_isolated c t w :
  scope c = Some t -> own_id c (w_db w) -> other_tenants_same t (w_db w) (w_db (exec_repo c w).2).
Proof.
  intros Hc Hown. destruct c; simpl in Hc; try discriminate; injection Hc as <-; simpl in Hown.
  1: by apply after_guard, upsert_isolated.
  1: by apply upsert_isolated.
  all: try by (apply after_guard, exec_upsert_isolated).
  all: match goal with |- other_tenants_same ?R _ (w_db (?m ?v).2) =>
         enough (Hr : respects (other_tenants_same R) m) by apply Hr end; simpl.
  all: unfold list_by_state, list_by_session, get_result, checkpoint_list_for_task, count_by_status, list_recent,
    list_for_task_since, audit_list_filtered, usage_list_for_task, aggregate_since, usage_list_filtered,
    aggregate_for_task, aggregate_grouped, session_get, select, trajectory.
  all: try by respects_tac.
  - unfold update_state. respects_tac. by apply update_where_isolated.
  - unfold set_awaiting_approval. respects_tac. by apply update_where_isolated.
  - unfold transition_from_awaiting_approval. respects_tac. by apply update_where_isolated.
  - unfold complete. respects_tac. by apply update_where_isolated.
  - unfold append_checkpoint. respects_tac. intros w'. split_and!; try done. simpl. apply filter_snoc_false, negb_eqb_refl.
  - unfold enqueue, enqueue_in_conn. respects_tac. intros w'. split_and!; try done. simpl.
    apply filter_snoc_false, negb_eqb_refl.
  - unfold enqueue_in_conn. respects_tac. intros w'. split_and!; try done. simpl. apply filter_snoc_false, negb_eqb_refl.
  - unfold append_audit. respects_tac. intros w'. split_and!; try done. simpl. apply filter_snoc_false, negb_eqb_refl.
  - unfold record. respects_tac. intros w'. split_and!; try done. simpl. apply filter_snoc_false, negb_eqb_refl.
  - apply touch_isolated.
Qed.

(** *** What a call across tenants writes *)

(** Only the rows with one id are rewritten, and they keep their id and tenant. *)
Definition marks_only {A} (key tenant : A -> string) (id : string) (l l' : list A) : Prop :=
  Forall2 (fun r r' => (key r <> id -> r' = r) /\ key r' = key r /\ tenant r' = tenant r) l l'.

Lemma marks_only_map {A} (key tenant : A -> string) id f (l : list A) :
  (forall r, key (f r) = key r /\ tenant (f r) = tenant r) ->
  marks_only key tenant id l (map (fun r => if String.eqb (key r) id then f r else r) l).
Proof.
  intros Hf. induction l as [|r l IH]; [constructor|]. simpl. constructor; [|exact IH].
  destruct (String.eqb_spec (key r) id) as [E|E]; [|done]. destruct (Hf r). by split.
Qed.

Lemma marks_only_refl {A} (key tenant : A -> string) id (l : list A) : marks_only key tenant id l l.
Proof. by induction l; constructor. Qed.

Definition event_key (r : OutboxRow) : string := ob_event_id (or_event r).
Definition event_tenant (r : OutboxRow) : string := ob_tenant_id (or_event r).

(** The tables a call across tenants leaves: all of them if it only reads, else
    all but the outbox, in which one event is marked. *)
Definition cross_tenant (c : RepoCall) (d d' : Db) : Prop :=
  match marked c with
  | None => d' = d
  | Some id => exists l, marks_only event_key event_tenant id (db_outbox d) l /\ d' = with_outbox (fun _ => l) d
  end.

Lemma unguarded_writes c w : scope c = None -> cross_tenant c (w_db w) (w_db (exec_repo c w).2).
Proof.
  intros Hc. unfold cross_tenant. pose proof (marks_only_refl event_key event_tenant) as Hrefl.
  destruct c; simpl in Hc; try discriminate; simpl; unfold list_awaiting_approval_older_than, list_running_for_resume,
    claim_pending, transaction, mark_dispatched, mark_failed, outbox_get, bind, db_call;
    destruct (w_fault w (w_ops w)); simpl; try done.
  1,3: eexists; split; [apply Hrefl|by destruct (w_db w)].
  all: eexists; split; [|reflexivity]; by apply (marks_only_map event_key event_tenant).
Qed.
End Calls.

(** ** The calls on the webhook tables *)

Inductive WebhookCall : Type :=
  | SubscriptionUpsert (s : WebhookSubscription)
  | SubscriptionGet (id : string)
  | SubscriptionListActiveForEvent (tenant action : string)
  | DeliveryEnqueue (d : WebhookDelivery)
  | DeliveryClaimPending (batch_size : nat) (now : Z)
  | DeliveryMarkDispatched (id : string) (at_ attempts : Z)
  | DeliveryMarkRetry (id : string) (next_attempt_at : Z) (last_error : string) (attempts : Z)
  | DeliveryMarkDeadLetter (id last_error : string) (attempts at_ : Z)
  | DeliveryGet (id : string)
  | DeliveryCountByStatus (tenant : string) (s : WebhookDeliveryStatus).

Definition webhook_scope (c : WebhookCall) : option string :=
  match c with
  | SubscriptionUpsert s => Some (ws_tenant_id s)
  | SubscriptionListActiveForEvent t _ | DeliveryCountByStatus t _ => Some t
  | DeliveryEnqueue d => Some (wd_tenant_id d)
  | SubscriptionGet _ | DeliveryClaimPending _ _ | DeliveryMarkDispatched _ _ _ | DeliveryMarkRetry _ _ _ _
  | DeliveryMarkDeadLetter _ _ _ _ | DeliveryGet _ => None
  end.

Definition webhook_marked (c : WebhookCall) : option string :=
  match c with
  | DeliveryMarkDispatched id _ _ | DeliveryMarkRetry id _ _ _ | DeliveryMarkDeadLetter id _ _ _ => Some id
  | _ => None
  end.

Definition webhook_own_id (c : WebhookCall) (w : WH) : Prop :=
  match c with
  | SubscriptionUpsert s => forall x, x ∈ wh_subs w -> ws_subscription_id x = ws_subscription_id s ->
                            ws_tenant_id x = ws_tenant_id s
  | _ => True
  end.

Definition exec_webhook (c : WebhookCall) : M WH unit :=
  match c with
  | SubscriptionUpsert s => subscription_upsert s
  | SubscriptionGet id => subscription_get id ;;; ret tt
  | SubscriptionListActiveForEvent t a => list_active_for_event t a ;;; ret tt
  | DeliveryEnqueue d => delivery_enqueue d
  | DeliveryClaimPending n now => delivery_claim_pending n now ;;; ret tt
  | DeliveryMarkDispatched i a n => delivery_mark_dispatched i a n
  | DeliveryMarkRetry i a e n => delivery_mark_retry i a e n
  | DeliveryMarkDeadLetter i e n a => delivery_mark_dead_letter i e n a
  | DeliveryGet id => delivery_get id ;;; ret tt
  | DeliveryCountByStatus t s => delivery_count_by_status t s ;;; ret tt
  end.

(** Nothing of another tenant than [t] changes, and nothing is sent. *)
Definition other_webhooks_same (t : string) (w w' : WH) : Prop :=
  List.filter (fun s => negb (String.eqb (ws_tenant_id s) t)) (wh_subs w')
    = List.filter (fun s => negb (String.eqb (ws_tenant_id s) t)) (wh_subs w) /\
  List.filter (fun d => negb (String.eqb (wd_tenant_id d) t)) (wh_dels w')
    = List.filter (fun d => negb (String.eqb (wd_tenant_id d) t)) (wh_dels w) /\
  wh_sent w' = wh_sent w.

Definition cross_webhooks (c : WebhookCall) (w w' : WH) : Prop :=
  wh_subs w' = wh_subs w /\ wh_sent w' = wh_sent w /\
  match webhook_marked c with
  | None => wh_dels w' = wh_dels w
  | Some id => marks_only wd_delivery_id wd_tenant_id id (wh_dels w) (wh_dels w')
  end.

Lemma exec_webhook_guard c t : webhook_scope c = Some t -> exists m, forall w, exec_webhook c w = (check_tenant t ;;; m) w.
Proof.
  intros Hc. destruct c; simpl in Hc; try discriminate; injection Hc as <-; eexists; intros w; simpl;
    unfold subscription_upsert, list_active_for_event, delivery_enqueue, delivery_count_by_status;
    rewrite ?bind_assoc; reflexivity.
Qed.

Lemma upsert_subscription_filter s l :
  (forall x, x ∈ l -> ws_subscription_id x = ws_subscription_id s -> ws_tenant_id x = ws_tenant_id s) ->
  List.filter (fun x => negb (String.eqb (ws_tenant_id x) (ws_tenant_id s))) (upsert_subscription s l)
  = List.filter (fun x => negb (String.eqb (ws_tenant_id x) (ws_tenant_id s))) l.
Proof.
  induction l as [|x l IH]; intros Hown; simpl; [by rewrite negb_eqb_refl|].
  destruct (String.eqb_spec (ws_subscription_id x) (ws_subscription_id s)) as [E|E]; simpl.
  - rewrite (Hown x) by (done || left). by rewrite negb_eqb_refl.
  - rewrite IH; [done|]. intros y Hy. apply Hown. by right.
Qed.

Lemma webhook_guarded_isolated c t w :
  webhook_scope c = Some t -> webhook_own_id c w -> other_webhooks_same t w (exec_webhook c w).2.
Proof.
  intros Hc Hown. destruct c; simpl in Hc; try discriminate; injection Hc as <-; simpl in Hown; simpl;
    unfold subscription_upsert, list_active_for_event, delivery_enqueue, enqueue_with_conn, delivery_count_by_status, bind;
    destruct (check_tenant _ w) as [[[]|e] w1] eqn:Hg; apply check_tenant_inv in Hg as [-> _]; try done;
    unfold wh_call; destruct (env_fault _ _); simpl; try done.
  - split_and!; try done. by apply upsert_subscription_filter.
  - destruct (existsb (same_key d) _); [done|]. destruct (existsb _ _); [done|]. split_and!; try done. simpl.
    apply filter_snoc_false, negb_eqb_refl.
Qed.

Lemma webhook_unguarded_writes c w : webhook_scope c = None -> cross_webhooks c w (exec_webhook c w).2.
Proof.
  intros Hc. unfold cross_webhooks. destruct c; simpl in Hc; try discriminate; simpl;
    unfold subscription_get, delivery_claim_pending, delivery_mark_dispatched, delivery_mark_retry,
      delivery_mark_dead_letter, delivery_get, bind, wh_call; destruct (env_fault _ _); simpl; try done;
    split_and!; try done; try apply marks_only_refl.
  - by apply (marks_only_map wd_delivery_id wd_tenant_id).
  - apply (marks_only_map wd_delivery_id wd_tenant_id). intros r. by destruct (bool_decide _).
  - by apply (marks_only_map wd_delivery_id wd_tenant_id).
Qed.

(** ** Isolation *)

(** C6: tenant isolation at the repository boundary, for every method of every
    repository.  A guarded call (all but the ones listed below) made under no
    context raises [MissingContextError], under a context of another tenant
    [TenantIsolationError], in both cases before any statement and leaving the
    world as it was; made under its own tenant it never changes a task,
    checkpoint, audit event, outbox event, session, usage record, webhook
    subscription or webhook delivery of another tenant, provided an upsert of a
    task, session or subscription does not reuse an id of another tenant.  The
    calls across tenants are the two listings of the sweeper and of the resume
    scan, [claim_pending], [get], [mark_dispatched] and [mark_failed] of the
    outbox, [get] of the subscriptions, and [claim_pending], [get],
    [mark_dispatched], [mark_retry] and [mark_dead_letter] of the deliveries:
    reading ones change no table, and marking ones rewrite only the rows with the
    given id, which keep their id and tenant. *)
Theorem tenant_isolation `{!TextOrder, !LocalZone, !DayKey} :
  (forall c (w : World),
     match scope c with
     | Some t =>
         (w_ctx w = None -> exec_repo c w = (Err MissingContextError, w)) /\
         (forall x, w_ctx w = Some x -> ctx_tenant_id x <> t -> exec_repo c w = (Err TenantIsolationError, w)) /\
         (own_id c (w_db w) -> other_tenants_same t (w_db w) (w_db (exec_repo c w).2))
     | None => cross_tenant c (w_db w) (w_db (exec_repo c w).2)
     end) /\
  (forall c (w : WH),
     match webhook_scope c with
     | Some t =>
         (wh_ctx w = None -> exec_webhook c w = (Err MissingContextError, w)) /\
         (forall x, wh_ctx w = Some x -> ctx_tenant_id x <> t -> exec_webhook c w = (Err TenantIsolationError, w)) /\
         (webhook_own_id c w -> other_webhooks_same t w (exec_webhook c w).2)
     | None => cross_webhooks c w (exec_webhook c w).2
     end).
Proof.
  split; intros c w.
  - destruct (scope c) as [t|] eqn:E; [|by apply unguarded_writes].
    destruct (exec_repo_guard c t E) as [m Hm]. split_and!.
    + intros Hn. rewrite Hm. unfold bind. by rewrite check_tenant_none.
    + intros x Hx Hne. rewrite Hm. unfold bind. by rewrite (check_tenant_other w t x).
    + by apply guarded_isolated.
  - destruct (webhook_scope c) as [t|] eqn:E; [|by apply webhook_unguarded_writes].
    destruct (exec_webhook_guard c t E) as [m Hm]. split_and!.
    + intros Hn. rewrite Hm. unfold bind. by rewrite check_tenant_unbound.
    + intros x Hx Hne. rewrite Hm. unfold bind. by rewrite (check_tenant_mismatch t w x).
    + by apply webhook_guarded_isolated.
Qed.
