(* ===== verification/WebhookFacts.v ===== *)
(** * WebhookFacts: what the dispatcher and the fan-out guarantee *)

From S2P Require Import Prelude PyText Domain GraphRuntime Webhooks.

(** ** One dispatch *)

Definition same_delivery (d d' : WebhookDelivery) : Prop :=
  wd_delivery_id d' = wd_delivery_id d /\ wd_subscription_id d' = wd_subscription_id d /\
  wd_tenant_id d' = wd_tenant_id d /\ wd_payload d' = wd_payload d /\
  wd_idempotency_key d' = wd_idempotency_key d.

(** What an attempt makes of its row: dispatched, retried later while the budget
    lasts, or dead. *)
Definition row_after (config : WebhookDispatcherConfig) (d d' : WebhookDelivery) : Prop :=
  same_delivery d d' /\ wd_attempts d' = wd_attempts d + 1 /\
  match wd_status d' with
  | WD_DISPATCHED => wd_last_error d' = None /\ wd_dispatched_at d' <> None
  | WD_PENDING => wd_attempts d' < wc_max_attempts config /\ wd_last_error d' <> None /\
      exists now, compute_next_attempt_at config now (wd_attempts d') = Ok (wd_next_attempt_at d')
  | WD_DEAD_LETTER => wd_last_error d' <> None /\ wd_dispatched_at d' <> None
  end.

Section DispatchFacts.
Context (hmac : string -> string -> string) (dumps : json -> string) (config : WebhookDispatcherConfig).

(** The tables and the log around one dispatch of [d]: at most one request goes
    out, to an active subscription of the row, and at most this row is written,
    always when the dispatch returns. *)
Definition dispatch_effect (d : WebhookDelivery) (w : WH) (r : res unit) (w' : WH) : Prop :=
  wh_subs w' = wh_subs w /\ wh_ctx w' = wh_ctx w /\ wh_env w' = wh_env w /\
  (wh_sent w' = wh_sent w \/
   exists sub p, find_subscription (wd_subscription_id d) (wh_subs w) = Some sub /\ ws_active sub = true /\
     post_for hmac dumps sub d = Ok p /\ wh_sent w' = wh_sent w ++ [p]) /\
  ((wh_dels w' = wh_dels w /\ r <> Ok tt) \/
   exists f, wh_dels w' = map (upd (wd_delivery_id d) f) (wh_dels w) /\
     (wd_status d = WD_PENDING -> row_after config d (f d))).

(** The last statement of a dispatch: one update, or the error of the database. *)
Definition marks (d : WebhookDelivery) (m : M WH unit) : Prop :=
  forall w r w', m w = (r, w') ->
    wh_subs w' = wh_subs w /\ wh_ctx w' = wh_ctx w /\ wh_env w' = wh_env w /\ wh_sent w' = wh_sent w /\
    ((wh_dels w' = wh_dels w /\ r <> Ok tt) \/
     exists f, wh_dels w' = map (upd (wd_delivery_id d) f) (wh_dels w) /\
       (wd_status d = WD_PENDING -> row_after config d (f d))).

Lemma marks_update d f :
  (wd_status d = WD_PENDING -> row_after config d (f d)) ->
  marks d (wh_call ;;; modify (with_dels (map (upd (wd_delivery_id d) f)))).
Proof.
  intros Hf w r w'. unfold bind, wh_call. destruct (env_fault _ _) as [e|]; intros [= <- <-]; cbn;
    split_and!; try done; [by left|right]. by exists f.
Qed.

Lemma marks_clock d (k : Z -> M WH unit) :
  (forall now, marks d (k now)) -> marks d (now <- wh_clock ;; k now).
Proof. intros Hk w r w'. unfold bind, wh_clock. intros E. apply Hk in E. exact E. Qed.

Lemma marks_lift {A} d (x : res A) (k : A -> M WH unit) :
  (forall a, x = Ok a -> marks d (k a)) -> marks d (a <- lift x ;; k a).
Proof.
  intros Hk w r w'. unfold bind, lift. destruct x as [a|e]; [by apply (Hk a)|].
  intros [= <- <-]. split_and!; try done. by left.
Qed.

Lemma marks_dead d err :
  marks d (now <- wh_clock ;; delivery_mark_dead_letter (wd_delivery_id d) err (wd_attempts d + 1) now).
Proof. apply marks_clock. intros now. apply marks_update. intros _. by split_and!. Qed.

Lemma marks_failure d err : marks d (webhook_handle_failure config d (wd_attempts d + 1) err).
Proof.
  unfold webhook_handle_failure. destruct (Z.leb_spec (wc_max_attempts config) (wd_attempts d + 1)) as [|Hlt];
    [apply marks_dead|].
  apply marks_clock. intros now. apply marks_lift. intros next Hn. apply marks_update. intros Hp.
  rewrite Hp. cbn. split; [by split_and!|]. split; [done|]. cbn. split_and!; [done..|by exists now].
Qed.

#[local] Hint Resolve marks_dead marks_failure : core.

Lemma dispatch_run d w r w' :
  webhook_dispatch hmac dumps config d w = (r, w') -> dispatch_effect d w r w'.
Proof.
  unfold webhook_dispatch, subscription_get. unfold bind at 1. unfold bind at 1. unfold wh_call at 1.
  destruct (env_fault _ _) as [e|]; cbn.
  { intros [= <- <-]. split_and!; try done; by left. }
  assert (Hmark : forall m, marks d m -> m (tick w) = (r, w') -> dispatch_effect d w r w').
  { intros m Hm E. destruct (Hm _ _ _ E) as (H1 & H2 & H3 & H4 & H5). split_and!; try done. by left. }
  fold (find_subscription (wd_subscription_id d) (wh_subs w)).
  destruct (find_subscription _ (wh_subs w)) as [sub|] eqn:Es; [|apply Hmark; auto].
  destruct (ws_active sub) eqn:Ea; [|apply Hmark; auto].
  unfold bind at 1, lift. destruct (post_for hmac dumps sub d) as [p|x] eqn:Ep.
  2:{ intros [= <- <-]. split_and!; try done; by left. }
  assert (Hsend : forall m, marks d m -> m (http_post p (tick w)).2 = (r, w') -> dispatch_effect d w r w').
  { intros m Hm E. destruct (Hm _ _ _ E) as (H1 & H2 & H3 & H4 & H5). split_and!; try done.
    right. by exists sub, p. }
  unfold bind at 1. unfold http_post at 1. destruct (env_http _ _ p) as [code|msg|msg|x].
  - destruct (_ && _); [|apply (Hsend _ (marks_failure d _))].
    apply (Hsend (now <- wh_clock ;; delivery_mark_dispatched (wd_delivery_id d) now (wd_attempts d + 1))).
    apply marks_clock. intros now. apply marks_update. intros _. by split_and!.
  - apply (Hsend _ (marks_failure d _)).
  - apply (Hsend _ (marks_failure d _)).
  - intros [= <- <-]. split_and!; try done; [right; by exists sub, p|by left].
Qed.

(** ** A batch *)

Definition ids (l : list WebhookDelivery) : list string := map wd_delivery_id l.

Lemma upd_id id f l :
  (forall d, d ∈ l -> wd_delivery_id d = id -> wd_delivery_id (f d) = id) ->
  ids (map (upd id f) l) = ids l.
Proof.
  intros Hf. unfold ids. rewrite map_map. apply map_ext_in. intros d Hd. unfold upd.
  destruct (String.eqb_spec (wd_delivery_id d) id) as [E|]; [|done]. rewrite Hf; [done| |done].
  by apply list_elem_of_In.
Qed.

Lemma unique_delivery l a b : NoDup (ids l) -> a ∈ l -> b ∈ l -> wd_delivery_id a = wd_delivery_id b -> a = b.
Proof.
  unfold ids. intros Hn [i Hi]%list_elem_of_lookup [j Hj]%list_elem_of_lookup E.
  assert (i = j) as <-; [|congruence]. eapply (NoDup_lookup (map wd_delivery_id l)); [done|..].
  - by rewrite list_lookup_fmap, Hi.
  - by rewrite list_lookup_fmap, Hj, E.
Qed.

(** A request that the batch may send. *)
Definition request_of (subs : list WebhookSubscription) (d : WebhookDelivery) (p : Post) : Prop :=
  exists sub, find_subscription (wd_subscription_id d) subs = Some sub /\ ws_active sub = true /\
    post_for hmac dumps sub d = Ok p.

(** After dispatching [es], in order and until the first error: each row of the
    batch is as it was or one attempt further, other rows are as they were, and
    the requests sent belong to rows of the batch, one each and in its order. *)
Definition batch_effect (es : list WebhookDelivery) (w : WH) (r : res unit) (w' : WH) : Prop :=
  wh_subs w' = wh_subs w /\
  (exists g, wh_dels w' = map g (wh_dels w) /\
     forall d, d ∈ wh_dels w ->
       (d ∉ es -> g d = d) /\ (g d = d \/ row_after config d (g d)) /\
       (r = Ok tt -> d ∈ es -> row_after config d (g d))) /\
  exists sent posts, wh_sent w' = wh_sent w ++ posts /\ sent `sublist_of` es /\
    Forall2 (request_of (wh_subs w)) sent posts.

Lemma map_id_on {A} (f : A -> A) l : (forall x, x ∈ l -> f x = x) -> map f l = l.
Proof.
  induction l as [|x l IH]; intros Hf; cbn; [done|]. rewrite Hf by set_solver. by rewrite IH by set_solver.
Qed.

(** One dispatch in the form the batch composes. *)
Lemma dispatch_row d w r w' :
  NoDup (ids (wh_dels w)) -> d ∈ wh_dels w -> wd_status d = WD_PENDING ->
  webhook_dispatch hmac dumps config d w = (r, w') ->
  batch_effect [d] w r w' /\ NoDup (ids (wh_dels w')) /\
  forall x, x ∈ wh_dels w -> x <> d -> x ∈ wh_dels w'.
Proof.
  intros Hn Hd Hp E. destruct (dispatch_run _ _ _ _ E) as (Hs & _ & _ & Hsent & Hdels).
  assert (Hposts : exists sent posts, wh_sent w' = wh_sent w ++ posts /\ sent `sublist_of` [d] /\
    Forall2 (request_of (wh_subs w)) sent posts).
  { destruct Hsent as [->|(sub & p & H1 & H2 & H3 & ->)].
    - exists [], []. rewrite app_nil_r. split_and!; [done|apply sublist_nil_l|constructor].
    - exists [d], [p]. split_and!; [done..|]. constructor; [by exists sub|constructor]. }
  destruct Hdels as [[Hdels Hr]|(f & Hdels & Hf)].
  { split; [|by rewrite Hdels]. split_and!; [done| |done]. exists id. rewrite map_id. split; [done|].
    intros x _. split_and!; [done|by left|]. by intros ->. }
  specialize (Hf Hp).
  assert (Hown : forall x, x ∈ wh_dels w -> wd_delivery_id x = wd_delivery_id d -> x = d).
  { intros x Hx. by apply unique_delivery with (wh_dels w). }
  assert (Hne : forall x, x ∈ wh_dels w -> x <> d -> upd (wd_delivery_id d) f x = x).
  { intros x Hx Hxd. unfold upd. destruct (String.eqb_spec (wd_delivery_id x) (wd_delivery_id d)); [|done].
    by destruct Hxd; apply Hown. }
  assert (Hupd : upd (wd_delivery_id d) f d = f d) by (unfold upd; by rewrite String.eqb_refl).
  split_and!.
  - split_and!; [done| |done]. exists (upd (wd_delivery_id d) f). split; [done|]. intros x Hx.
    destruct (decide (wd_delivery_id x = wd_delivery_id d)) as [Heq|Heq].
    + apply Hown in Heq as ->; [|done]. rewrite Hupd. split_and!; [set_solver|by right|done].
    + assert (x <> d) by (by intros ->). rewrite Hne by done. split_and!; [done|by left|set_solver].
  - rewrite Hdels, upd_id; [done|]. intros x Hx Heq. apply Hown in Heq as ->; [|done]. apply Hf.
  - intros x Hx Hxd. rewrite Hdels. apply list_elem_of_fmap. exists x. split; [|done]. symmetry. by apply Hne.
Qed.

Lemma batch_cons d es w w1 r w' :
  NoDup (ids (wh_dels w)) -> d ∈ wh_dels w -> NoDup (d :: es) -> (forall x, x ∈ es -> x ∈ wh_dels w) ->
  batch_effect [d] w (Ok tt) w1 -> batch_effect es w1 r w' -> batch_effect (d :: es) w r w'.
Proof.
  intros Hu Hd Hnd Hes (S1 & (g1 & D1 & G1) & sent1 & p1 & P1 & B1 & F1)
    (S2 & (g2 & D2 & G2) & sent2 & p2 & P2 & B2 & F2).
  apply NoDup_cons in Hnd as [Hni Hnd]. split_and!; [congruence| |].
  - exists (fun x => g2 (g1 x)). split; [by rewrite D2, D1, map_map|]. intros x Hx.
    destruct (G1 x Hx) as (Ha & _ & Hc).
    assert (H1 : g1 x ∈ wh_dels w1) by (rewrite D1; by apply list_elem_of_fmap_2).
    destruct (G2 (g1 x) H1) as (Ha2 & Hb2 & Hc2).
    destruct (decide (wd_delivery_id x = wd_delivery_id d)) as [Heq|Heq].
    + apply (unique_delivery (wh_dels w)) in Heq as ->; try done.
      specialize (Hc eq_refl ltac:(set_solver)).
      assert (Hg : g2 (g1 d) = g1 d).
      { apply Ha2. intros Hin. apply Hni. assert (g1 d = d) as <-; [|done].
        apply (unique_delivery (wh_dels w)); auto. apply Hc. }
      rewrite Hg. split_and!; [set_solver|by right|done].
    + assert (Hxd : x ∉ [d]) by (intros ->%list_elem_of_singleton; by apply Heq).
      rewrite (Ha Hxd) in *. split_and!; [set_solver|done|]. intros Hr Hin. apply Hc2; [done|set_solver].
  - exists (sent1 ++ sent2), (p1 ++ p2). rewrite P2, P1, app_assoc. split_and!; [done| |].
    + change (d :: es) with ([d] ++ es). by apply sublist_app.
    + apply Forall2_app; [done|]. by rewrite <- S1.
Qed.

Lemma batch_nil w : batch_effect [] w (Ok tt) w.
Proof.
  split_and!; [done| |].
  - exists id. rewrite map_id. split; [done|]. intros d _. split_and!; [done|by left|set_solver].
  - exists [], []. rewrite app_nil_r. split_and!; [done|constructor|constructor].
Qed.

Lemma batch_weaken d es w e w' : batch_effect [d] w (Err e) w' -> batch_effect (d :: es) w (Err e) w'.
Proof.
  intros (S1 & (g & D & G) & sent & posts & P & B & F). split_and!; [done| |].
  - exists g. split; [done|]. intros x Hx. destruct (G x Hx) as (Ha & Hb & _).
    split_and!; [|done|done]. intros Hni. apply Ha. set_solver.
  - exists sent, posts. split_and!; [done| |done]. etrans; [exact B|].
    apply sublist_skip, sublist_nil_l.
Qed.

Lemma batch_run es w r w' :
  NoDup (ids (wh_dels w)) -> NoDup es -> (forall d, d ∈ es -> d ∈ wh_dels w /\ wd_status d = WD_PENDING) ->
  for_each es tt (fun d _ => webhook_dispatch hmac dumps config d) w = (r, w') -> batch_effect es w r w'.
Proof.
  revert w. induction es as [|d es IH]; intros w Hu Hnd Hes.
  { intros [= <- <-]. apply batch_nil. }
  cbn [for_each]. unfold bind. destruct (Hes d ltac:(set_solver)) as [Hd Hp].
  destruct (webhook_dispatch hmac dumps config d w) as [[[]|e] w1] eqn:E;
    destruct (dispatch_row d w _ w1 Hu Hd Hp E) as (Hb & Hu1 & Hkeep); intros Hr.
  - apply batch_cons with w1; [done..|intros x Hx; by apply Hes; set_solver|done|].
    apply NoDup_cons in Hnd as [Hni Hnd]. apply IH; [done..| |done].
    intros x Hx. destruct (Hes x ltac:(set_solver)) as [Hxw Hxp]. split; [|done].
    apply Hkeep; [done|]. by intros ->.
  - injection Hr as <- <-. by apply batch_weaken.
Qed.

(** The rows one pass claims. *)
Definition due_batch (n : nat) (now : Z) (l : list WebhookDelivery) : list WebhookDelivery :=
  take n (merge_sort due_le (List.filter (delivery_due now) l)).

Lemma claim_batch n now w es w1 :
  delivery_claim_pending n now w = (Ok es, w1) -> NoDup (ids (wh_dels w)) ->
  es = due_batch n now (wh_dels w) /\ wh_dels w1 = wh_dels w /\ wh_subs w1 = wh_subs w /\ wh_sent w1 = wh_sent w /\
  NoDup es /\ (length es <= n)%nat /\ forall d, d ∈ es -> d ∈ wh_dels w /\ delivery_due now d = true.
Proof.
  unfold delivery_claim_pending, bind, wh_call. destruct (env_fault _ _); [done|]. intros [= <- <-] Hu. cbn.
  set (l := List.filter _ _). assert (Hperm : merge_sort due_le l ≡ₚ l) by apply merge_sort_Permutation.
  split_and!; [done..| |rewrite length_take; lia|].
  - eapply sublist_NoDup; [|apply sublist_take]. rewrite Hperm. subst l. clear Hperm.
    apply NoDup_fmap_1 in Hu. by apply NoDup_ListNoDup, List.NoDup_filter, NoDup_ListNoDup.
  - intros d (i & Hi & _)%elem_of_take. apply list_elem_of_lookup_2 in Hi. rewrite Hperm in Hi.
    apply list_elem_of_In, filter_In in Hi as [Hi Hd]. by rewrite list_elem_of_In.
Qed.

(** ** A pass *)

(** Rows never exceed the budget, and pending rows are below it. *)
Definition within_budget (l : list WebhookDelivery) : Prop :=
  forall d, d ∈ l -> wd_attempts d <= wc_max_attempts config /\
    (wd_status d = WD_PENDING -> wd_attempts d < wc_max_attempts config).

(** [p] goes to [sub]'s URL with the body the row asks for and a signature that
    the subscriber can verify with its secret. *)
Definition signed_request (sub : WebhookSubscription) (d : WebhookDelivery) (p : Post) : Prop :=
  po_url p = ws_url sub /\ po_body p = dumps (JDict (wd_payload d)) /\
  In ("X-Meta-Agent-Idempotency", wd_idempotency_key d) (po_headers p) /\
  exists signature, In (SIGNATURE_HEADER, signature) (po_headers p) /\
    verify_signature hmac (ws_secret sub) (po_body p) signature = Ok true.

Lemma request_signed subs d p :
  (forall k b, is_ascii (hmac k b) = true) -> request_of subs d p ->
  exists sub, find_subscription (wd_subscription_id d) subs = Some sub /\ ws_active sub = true /\
    signed_request sub d p.
Proof.
  intros Hascii (sub & Hs & Ha & Hp). exists sub. split_and!; [done..|].
  unfold post_for, compute_signature in Hp. destruct (nonempty (ws_secret sub)) eqn:En; [|done].
  cbn in Hp. injection Hp as <-. split_and!; cbn; [done..|auto|].
  eexists. split; [by right; left|]. unfold verify_signature, compute_signature. rewrite En. cbn [negb res_bind].
  set (sig := SIGNATURE_PREFIX +:+ _). assert (is_ascii sig = true) as -> by exact (Hascii _ _).
  by rewrite String.eqb_refl.
Qed.

Lemma pass_run w r w' :
  NoDup (ids (wh_dels w)) -> webhook_run_once hmac dumps config w = (r, w') ->
  let batch := due_batch (wc_batch_size config) (env_clock (wh_env w) (wh_step w)) (wh_dels w) in
  (exists e, r = Err e /\ wh_subs w' = wh_subs w /\ wh_dels w' = wh_dels w /\ wh_sent w' = wh_sent w) \/
  ((forall d, d ∈ batch -> d ∈ wh_dels w /\ delivery_due (env_clock (wh_env w) (wh_step w)) d = true) /\
   (length batch <= wc_batch_size config)%nat /\
   batch_effect batch w (match r with Ok _ => Ok tt | Err e => Err e end) w' /\
   (forall n, r = Ok n -> n = Z.of_nat (length batch))).
Proof.
  intros Hu E. cbv zeta. unfold webhook_run_once in E. unfold bind at 1, wh_clock in E.
  set (now := env_clock (wh_env w) (wh_step w)) in *. unfold bind at 1 in E.
  destruct (delivery_claim_pending (wc_batch_size config) now (tick w)) as [[es|x] w1] eqn:Hc.
  2:{ left. injection E as <- <-. exists x. unfold delivery_claim_pending, bind, wh_call in Hc.
      destruct (env_fault _ _); [|done]. by injection Hc as <- <-. }
  destruct (claim_batch _ _ _ _ _ Hc Hu) as (-> & D1 & S1 & P1 & Hnd & Hlen & Hin). right.
  cbn [tick wh_dels] in *. split_and!; [done..| |].
  - assert (Heff : forall r0 w2, for_each (due_batch (wc_batch_size config) now (wh_dels w)) tt
      (fun d _ => webhook_dispatch hmac dumps config d) w1 = (r0, w2) ->
      batch_effect (due_batch (wc_batch_size config) now (wh_dels w)) w r0 w2).
    { intros r0 w2 Hf. apply batch_run in Hf; [|by rewrite D1|done|].
      - unfold batch_effect in *. by rewrite D1, S1, P1 in Hf.
      - intros d Hd. rewrite D1. destruct (Hin d Hd) as [Hdw Hdue]. split; [done|].
        unfold delivery_due in Hdue. apply andb_true_iff in Hdue as [Hdue _]. by apply bool_decide_eq_true in Hdue. }
    unfold bind in E. destruct (for_each _ tt _ w1) as [[[]|x] w2]; injection E as <- <-; by apply Heff.
  - intros n ->. unfold bind, ret in E. destruct (for_each _ tt _ w1) as [[[]|x] w2]; [|done]. injection E as En _. congruence.
Qed.

Lemma row_after_ids g l :
  (forall d, d ∈ l -> g d = d \/ row_after config d (g d)) -> ids (map g l) = ids l.
Proof.
  intros Hg. unfold ids. rewrite map_map. apply map_ext_in. intros d Hd%list_elem_of_In.
  destruct (Hg d Hd) as [->|[[Hid _] _]]; [done|exact Hid].
Qed.

Lemma row_after_budget g l :
  within_budget l -> (forall d, d ∈ l -> g d = d \/ (wd_status d = WD_PENDING /\ row_after config d (g d))) ->
  within_budget (map g l).
Proof.
  intros Hb Hg d' (d & -> & Hd)%list_elem_of_fmap. destruct (Hb d Hd) as [H1 H2].
  destruct (Hg d Hd) as [->|(Hp & _ & Ha & Hs)]; [done|]. specialize (H2 Hp). rewrite Ha. split; [lia|].
  intros Hp'. rewrite Hp', Ha in Hs. lia.
Qed.

(** C24: one pass of the webhook dispatcher.  Whatever the database and the
    subscribers do, a pass touches only rows that are pending and due, a row it
    touches is the same delivery one attempt further (dispatched, scheduled by
    the backoff while attempts remain, or dead), ids stay unique and the attempt
    budget holds; every request it sends belongs to a claimed row, in claim
    order and at most one per row, goes to the URL of an active subscription and
    carries a signature that verifies with that subscription's secret; and a pass
    that returns has attempted every row of its batch. *)
Theorem webhook_pass_spec w r w' :
  (forall k b, is_ascii (hmac k b) = true) -> NoDup (ids (wh_dels w)) -> within_budget (wh_dels w) ->
  webhook_run_once hmac dumps config w = (r, w') ->
  let now := env_clock (wh_env w) (wh_step w) in
  NoDup (ids (wh_dels w')) /\ within_budget (wh_dels w') /\
  (exists g, wh_dels w' = map g (wh_dels w) /\ forall d, d ∈ wh_dels w ->
     (delivery_due now d = false -> g d = d) /\ (g d = d \/ row_after config d (g d)) /\
     (forall n, r = Ok n -> d ∈ due_batch (wc_batch_size config) now (wh_dels w) -> row_after config d (g d))) /\
  exists sent posts, wh_sent w' = wh_sent w ++ posts /\
    sent `sublist_of` due_batch (wc_batch_size config) now (wh_dels w) /\
    Forall2 (fun d p => exists sub, find_subscription (wd_subscription_id d) (wh_subs w) = Some sub /\
      ws_active sub = true /\ signed_request sub d p) sent posts.
Proof.
  intros Hascii Hu Hb E now. destruct (pass_run w r w' Hu E) as [(e & -> & _ & D & P)|(Hin & _ & Heff & _)].
  { rewrite D, P. split_and!; [done..| |].
    - exists id. rewrite map_id. split; [done|]. intros d _. split_and!; [done|by left|done].
    - exists [], []. rewrite app_nil_r. split_and!; [done|apply sublist_nil_l|constructor]. }
  destruct Heff as (_ & (g & D & G) & sent & posts & P & B & F). fold now in Hin, G, B.
  assert (Hnot : forall d, d ∈ wh_dels w -> delivery_due now d = false -> g d = d).
  { intros d Hd Hdue. apply (G d Hd). intros Hx. apply Hin in Hx as [_ Hx]. congruence. }
  rewrite D. split_and!.
  - rewrite row_after_ids; [done|]. intros d Hd. apply (G d Hd).
  - apply row_after_budget; [done|]. intros d Hd.
    destruct (delivery_due now d) eqn:Edue; [|left; auto].
    destruct (G d Hd) as (_ & [Hx|Hx] & _); [by left|right]. split; [|done].
    unfold delivery_due in Edue. apply andb_true_iff in Edue as [Edue _]. by apply bool_decide_eq_true in Edue.
  - exists g. split; [done|]. intros d Hd. destruct (G d Hd) as (_ & H1 & H2). split_and!; [by apply Hnot|done|].
    intros n ->. by apply H2.
  - exists sent, posts. split_and!; [done..|]. eapply Forall2_impl; [exact F|].
    intros d p. by apply request_signed.
Qed.
End DispatchFacts.

(** ** Fan-out *)

Section FanoutFacts.
Context (isoformat : Z -> string) (watched : list string).

(** An event that passed [AuditEvent]'s own constraints. *)
Definition valid_event (e : AuditEvent) : bool :=
  nonempty (ae_event_id e) && nonempty (ae_tenant_id e) && nonempty (ae_trace_id e) && nonempty (ae_action e).

(** Ids are non-empty and the database raises ordinary exceptions. *)
Definition sane_env (w : WH) : Prop :=
  (forall n, nonempty (env_id (wh_env w) n) = true) /\
  (forall n x, env_fault (wh_env w) n = Some x -> is_exception x = true) /\
  Forall (fun s => nonempty (ws_subscription_id s) = true) (wh_subs w).

(** Everything but the deliveries and the step counter. *)
Definition same_but_dels (w w' : WH) : Prop :=
  wh_ctx w' = wh_ctx w /\ wh_subs w' = wh_subs w /\ wh_sent w' = wh_sent w /\ wh_env w' = wh_env w.

Definition row_key (d : WebhookDelivery) : string * string := (wd_tenant_id d, wd_idempotency_key d).

Lemma same_key_spec d x : same_key d x = true <-> row_key x = row_key d.
Proof.
  unfold same_key, row_key. rewrite andb_true_iff, !String.eqb_eq. split; [by intros [-> ->]|by intros [= -> ->]].
Qed.

(** A fault-free database, the event's own tenant bound, unused ids. *)
Definition calm (e : AuditEvent) (w : WH) : Prop :=
  (forall n, env_fault (wh_env w) n = None) /\
  (exists c, wh_ctx w = Some c /\ ctx_tenant_id c = ae_tenant_id e) /\
  (forall n d, (wh_step w <= n)%nat -> d ∈ wh_dels w -> wd_delivery_id d <> env_id (wh_env w) n) /\
  (forall i j, env_id (wh_env w) i = env_id (wh_env w) j -> i = j).

Lemma guard_cases tenant (w : WH) :
  (check_tenant tenant w = (Ok tt, w)) \/ exists x, check_tenant tenant w = (Err x, w) /\ is_exception x = true.
Proof.
  destruct (wh_ctx w) as [c|] eqn:Ec.
  - destruct (decide (ctx_tenant_id c = tenant)) as [He|He]; [left; by eapply check_tenant_ok|right].
    exists TenantIsolationError. split; [by eapply check_tenant_mismatch|done].
  - right. exists MissingContextError. split; [by apply check_tenant_unbound|done].
Qed.

(** One subscription: never raises; adds nothing, or the event's row for it under
    a key no row has yet; what it counts has a row. *)
Definition fanned (e : AuditEvent) (now : Z) (s : WebhookSubscription) (k k' : Z) (w w' : WH) : Prop :=
  same_but_dels w w' /\ (wh_step w <= wh_step w')%nat /\
  ((wh_dels w' = wh_dels w /\ k <= k' <= k + 1) \/
   (exists id, wh_dels w' = wh_dels w ++ [delivery_for isoformat e s id now] /\ k' = k + 1 /\
      (exists n, (wh_step w <= n < wh_step w')%nat /\ id = env_id (wh_env w) n) /\
      (ae_tenant_id e, fanout_key e s) ∉ map row_key (wh_dels w) /\ id ∉ ids (wh_dels w))) /\
  (k' = k + 1 -> (ae_tenant_id e, fanout_key e s) ∈ map row_key (wh_dels w')).

Lemma existsb_key d l : existsb (same_key d) l = true <-> row_key d ∈ map row_key l.
Proof.
  rewrite existsb_exists, list_elem_of_fmap. split.
  - intros (x & Hx & Hk). exists x. split; [symmetry; by apply same_key_spec|by apply list_elem_of_In].
  - intros (x & Hk & Hx). exists x. split; [by apply list_elem_of_In|by apply same_key_spec].
Qed.

Lemma existsb_id d l :
  existsb (fun x => String.eqb (wd_delivery_id x) (wd_delivery_id d)) l = true <-> wd_delivery_id d ∈ ids l.
Proof.
  unfold ids. rewrite existsb_exists, list_elem_of_fmap. setoid_rewrite String.eqb_eq.
  setoid_rewrite <- list_elem_of_In. naive_solver.
Qed.

(** The guarded insert, with its errors swallowed. *)
Lemma enqueue_row_cases d k w :
  (forall n x, env_fault (wh_env w) n = Some x -> is_exception x = true) ->
  exists k' w', try_except (delivery_enqueue d ;;; ret (k + 1))
      (fun x => if is_exception x then Some (ret k) else None) w = (Ok k', w') /\
    same_but_dels w w' /\ (wh_step w <= wh_step w')%nat /\
    ((wh_dels w' = wh_dels w /\ k <= k' <= k + 1) \/
     (wh_dels w' = wh_dels w ++ [d] /\ k' = k + 1 /\ row_key d ∉ map row_key (wh_dels w) /\
      wd_delivery_id d ∉ ids (wh_dels w))) /\
    (k' = k + 1 -> row_key d ∈ map row_key (wh_dels w')) /\
    ((forall n, env_fault (wh_env w) n = None) -> check_tenant (wd_tenant_id d) w = (Ok tt, w) ->
     wd_delivery_id d ∉ ids (wh_dels w) -> k' = k + 1).
Proof.
  intros Hex. unfold try_except, delivery_enqueue, enqueue_with_conn. unfold bind at 1 2.
  destruct (guard_cases (wd_tenant_id d) w) as [Hg|(x & Hg & Hx)]; rewrite Hg.
  2:{ rewrite Hx. exists k, w. split_and!; try done; [left; split; [done|lia]|lia]. }
  unfold bind at 1. unfold wh_call at 1. destruct (env_fault (wh_env w) (wh_step w)) as [x|] eqn:Ef.
  { cbn. rewrite (Hex _ _ Ef). exists k, (tick w). split_and!; try done; cbn; [lia|left; split; [done|lia]|lia|].
    intros Hn. by rewrite Hn in Ef. }
  cbn. destruct (existsb (same_key d) (wh_dels w)) eqn:Ek.
  { exists (k + 1), (tick w). apply existsb_key in Ek. split_and!; try done; cbn; [lia|].
    left. split; [done|lia]. }
  destruct (existsb (fun x => String.eqb (wd_delivery_id x) (wd_delivery_id d)) (wh_dels w)) eqn:Ei.
  { exists k, (tick w). cbn. split_and!; try done; cbn; [lia|left; split; [done|lia]|lia|].
    intros _ _ Hni. by apply existsb_id in Ei. }
  eexists _, _. cbn. split; [reflexivity|]. split_and!; try done; cbn; [lia| |].
  - right. split_and!; try done.
    + intros Hin%existsb_key. congruence.
    + intros Hin%existsb_id. congruence.
  - intros _. rewrite map_app, elem_of_app. right. cbn. set_solver.
Qed.

Lemma fanout_one_run e now s k w :
  valid_event e = true -> nonempty (ws_subscription_id s) = true -> sane_env w ->
  exists k' w', fanout_one isoformat e now s k w = (Ok k', w') /\ fanned e now s k k' w w' /\
    (calm e w -> k' = k + 1).
Proof.
  intros Hv Hs (Hid & Hex & _). unfold fanout_one, bind at 1, wh_new_id.
  assert (Hchk : forall id, nonempty id = true -> check_delivery (delivery_for isoformat e s id now) =
    Ok (delivery_for isoformat e s id now)).
  { intros id Hne. unfold check_delivery, valid_event in *. cbn. rewrite Hne, Hs. cbn.
    apply andb_true_iff in Hv as [Hv H4]. apply andb_true_iff in Hv as [Hv H3].
    apply andb_true_iff in Hv as [H1 H2]. by rewrite H2, H3, H4. }
  unfold bind at 1, lift. rewrite Hchk by done.
  destruct (enqueue_row_cases (delivery_for isoformat e s (env_id (wh_env w) (wh_step w)) now) k (tick w))
    as (k' & w' & -> & Hsame & Hstep & Hcase & Hrow & Hcalm); [done|].
  exists k', w'. split; [done|]. split.
  - split; [exact Hsame|]. split; [cbn in Hstep; lia|]. split; [|exact Hrow].
    destruct Hcase as [|(H1 & H2 & H3 & H4)]; [by left|right]. eexists. split_and!; try done.
    exists (wh_step w). cbn in Hstep. split; [lia|done].
  - intros (Hf & (c & Hc & Ht) & Hfresh & _). apply Hcalm; [done|by eapply check_tenant_ok|].
    cbn. intros (d & E & Hd)%list_elem_of_fmap. by apply (Hfresh (wh_step w) d).
Qed.


(** The rows a fan-out may add: one of the event's own, for a listening
    subscription of its tenant. *)
Definition row_for (e : AuditEvent) (subs : list WebhookSubscription) (d : WebhookDelivery) : Prop :=
  exists s id now, s ∈ subs /\ listens (ae_tenant_id e) (ae_action e) s = true /\
    d = delivery_for isoformat e s id now.

Definition keys_unique (w : WH) : Prop :=
  NoDup (map row_key (wh_dels w)) /\ NoDup (ids (wh_dels w)).

Lemma sane_env_same w w' : same_but_dels w w' -> sane_env w -> sane_env w'.
Proof. intros (_ & Hs & _ & He) (H1 & H2 & H3). unfold sane_env. by rewrite Hs, He. Qed.

Lemma fanned_calm e now s k k' w w' : fanned e now s k k' w w' -> calm e w -> calm e w'.
Proof.
  intros ((Hc & _ & _ & He) & Hst & Hd & _) (C1 & C2 & C3 & C4). unfold calm. rewrite He, Hc.
  split_and!; [done..| |done]. intros n d Hn Hin.
  destruct Hd as [[Hd _]|(id & Hd & _ & (m & Hm & ->) & _)]; rewrite Hd in Hin; [by apply C3; [lia|]|].
  apply elem_of_app in Hin as [Hin| ->%list_elem_of_singleton]; [by apply C3; [lia|]|].
  cbn. intros Heq%C4. lia.
Qed.

Lemma fanned_keys e now s k k' w w' : fanned e now s k k' w w' -> keys_unique w -> keys_unique w'.
Proof.
  intros (_ & _ & [[Hd _]|(id & Hd & _ & _ & Hk & Hi)] & _) [K1 K2]; unfold keys_unique, ids in *; rewrite Hd; [done|].
  rewrite !map_app. cbn. split; apply NoDup_app; (split; [done|]); (split; [|apply NoDup_singleton]);
    intros x Hx ->%list_elem_of_singleton; [by apply Hk|by apply Hi].
Qed.

(** The loop over the subscriptions. *)
Lemma fanout_loop e now l : forall k w,
  valid_event e = true -> sane_env w ->
  Forall (fun s => s ∈ wh_subs w /\ listens (ae_tenant_id e) (ae_action e) s = true) l ->
  exists k' w', for_each l k (fanout_one isoformat e now) w = (Ok k', w') /\
    same_but_dels w w' /\ k <= k' <= k + Z.of_nat (length l) /\
    (exists new, wh_dels w' = wh_dels w ++ new /\ Forall (row_for e (wh_subs w)) new) /\
    (keys_unique w -> keys_unique w') /\
    (Forall (fun s => (ae_tenant_id e, fanout_key e s) ∈ map row_key (wh_dels w)) l -> wh_dels w' = wh_dels w) /\
    (calm e w -> k' = k + Z.of_nat (length l) /\
       Forall (fun s => (ae_tenant_id e, fanout_key e s) ∈ map row_key (wh_dels w')) l).
Proof.
  induction l as [|s l IH]; intros k w Hv Hsane Hl.
  { exists k, w. split; [done|]. split; [done|]. split; [cbn; lia|].
    split; [exists []; by rewrite app_nil_r|]. split; [done|]. split; [done|].
    intros _. split; [cbn; lia|constructor]. }
  apply Forall_cons in Hl as [[Hin Hlis] Hl].
  assert (Hs : nonempty (ws_subscription_id s) = true).
  { destruct Hsane as (_ & _ & Hf). rewrite Forall_forall in Hf. by apply Hf. }
  destruct (fanout_one_run e now s k w Hv Hs Hsane) as (k1 & w1 & E1 & Hfan & Hcalm1).
  pose proof Hfan as ((Hc1 & Hs1 & Hp1 & He1) & Hst1 & Hd1 & Hrow1).
  destruct (IH k1 w1) as (k2 & w2 & E2 & (Hc2 & Hs2 & Hp2 & He2) & Hk2 & (new & Hd2 & Hn2) & Hu2 & Hsec2 & Hcalm2).
  { done. } { by eapply sane_env_same. } { by rewrite Hs1. }
  exists k2, w2. split; [cbn [for_each]; unfold bind; by rewrite E1|].
  split; [unfold same_but_dels; split_and!; congruence|].
  split; [cbn [length]; destruct Hd1 as [[_ ?]|(? & _ & ? & _)]; lia|].
  split.
  { destruct Hd1 as [[Hd1 _]|(id & Hd1 & _)]; rewrite Hd2, Hd1, Hs1 in *; [by exists new|].
    exists (delivery_for isoformat e s id now :: new). rewrite <- app_assoc. split; [done|].
    constructor; [by exists s, id, now|done]. }
  split; [intros Hku; by apply Hu2; eapply fanned_keys|].
  split.
  { intros [Hs0 Hl0]%Forall_cons. destruct Hd1 as [[Hd1 _]|(id & _ & _ & _ & Hno & _)]; [|done].
    rewrite <- Hd1 in Hl0 |- *. by apply Hsec2. }
  intros Hcalm. specialize (Hcalm1 Hcalm). destruct (Hcalm2 (fanned_calm _ _ _ _ _ _ _ Hfan Hcalm)) as [Hk Hf].
  split; [cbn [length]; lia|]. constructor; [|done].
  rewrite Hd2, map_app, elem_of_app. left. by apply Hrow1.
Qed.

(** Fan-out of an audit event.  It never raises into its caller, whatever the
    database does; it only adds pending rows, each for an active subscription of
    the event's own tenant that lists the action, and keeps the delivery ids and
    the idempotency keys unique; and when the database works and the event's
    tenant is bound, every listening subscription has its row afterwards; a
    fan-out that finds all of them in place, as a repeated one does, adds none. *)
Theorem fanout_spec e w :
  valid_event e = true -> sane_env w -> keys_unique w ->
  exists n w', fanout isoformat watched e w = (Ok n, w') /\ same_but_dels w w' /\ keys_unique w' /\
    (exists new, wh_dels w' = wh_dels w ++ new /\ Forall (row_for e (wh_subs w)) new) /\
    let listening := List.filter (listens (ae_tenant_id e) (ae_action e)) (wh_subs w) in
    let covered dels := Forall (fun s => (ae_tenant_id e, fanout_key e s) ∈ map row_key dels) listening in
    (covered (wh_dels w) -> wh_dels w' = wh_dels w) /\
    (calm e w -> existsb (String.eqb (ae_action e)) watched = true ->
     n = Z.of_nat (length listening) /\ covered (wh_dels w')).
Proof.
  intros Hv Hsane Hk. unfold fanout.
  destruct (existsb (String.eqb (ae_action e)) watched) eqn:Ew; cbn [negb].
  2:{ exists 0, w. split; [done|]. split; [done|]. split; [done|]. split; [exists []; by rewrite app_nil_r|].
      split; [done|]. intros _ Hw. done. }
  unfold bind at 1, try_except. unfold bind at 1, list_active_for_event. unfold bind at 1.
  destruct (guard_cases (ae_tenant_id e) w) as [Hg|(x & Hg & Hx)]; rewrite Hg.
  2:{ rewrite Hx. exists 0, w. split; [done|]. split; [done|]. split; [done|].
      split; [exists []; by rewrite app_nil_r|]. split; [done|]. intros (_ & (c & Hc & Ht) & _) _.
      assert (check_tenant (ae_tenant_id e) w = (Ok tt, w)) by (by eapply check_tenant_ok). congruence. }
  unfold bind at 1. unfold wh_call at 1. destruct (env_fault (wh_env w) (wh_step w)) as [x|] eqn:Ef.
  { destruct Hsane as (_ & Hex & _). rewrite (Hex _ _ Ef). exists 0, (tick w). split; [done|]. split; [done|].
    split; [done|]. split; [exists []; by rewrite app_nil_r|]. split; [done|]. intros (Hn & _) _. by rewrite Hn in Ef. }
  cbn [bind get ret tick wh_subs]. set (l := List.filter _ (wh_subs w)).
  destruct l as [|s l'] eqn:El.
  { exists 0, (tick w). split; [done|]. split; [done|]. split; [done|].
    split; [exists []; by rewrite app_nil_r|]. split; [done|]. intros _ _. split; [done|constructor]. }
  rewrite <- El. unfold bind, wh_clock.
  destruct (fanout_loop e (env_clock (wh_env (tick w)) (wh_step (tick w))) l 0 (tick (tick w))) as
    (n & w' & -> & Hsame & _ & Hnew & Hu & Hsec & Hcalm); [done|by apply (sane_env_same w)|..].
  { apply Forall_forall. intros x Hx%list_elem_of_In. unfold l in Hx. apply filter_In in Hx as [Hx1 Hx2].
    split; [by apply list_elem_of_In|done]. }
  exists n, w'. split; [done|]. split; [done|]. split; [by apply Hu|]. split; [done|]. split; [exact Hsec|].
  intros (C1 & C2 & C3 & C4) _. apply Hcalm. split_and!; [done..| |done].
  intros m d Hm. apply C3. cbn in Hm. lia.
Qed.
End FanoutFacts.

(** ** Behaviour the code does not intend *)

(** One bad URL stops the queue.  [httpx.InvalidURL] is not an [HTTPError], so
    a subscriber URL the client refuses makes the pass raise at its row: nothing is
    recorded for it, no other row of the batch is attempted, whoever it belongs to,
    and since the table is unchanged the next pass meets the same row. *)
Theorem invalid_url_blocks_queue hmac dumps config w d rest sub p x :
  (forall n, env_fault (wh_env w) n = None) ->
  due_batch (wc_batch_size config) (env_clock (wh_env w) (wh_step w)) (wh_dels w) = d :: rest ->
  find_subscription (wd_subscription_id d) (wh_subs w) = Some sub -> ws_active sub = true ->
  post_for hmac dumps sub d = Ok p -> (forall n, env_http (wh_env w) n p = PostRaises x) ->
  exists w', webhook_run_once hmac dumps config w = (Err x, w') /\
    wh_dels w' = wh_dels w /\ wh_subs w' = wh_subs w /\ wh_sent w' = wh_sent w ++ [p].
Proof.
  intros Hf Hb Hs Ha Hp Hx. unfold webhook_run_once, bind at 1, wh_clock.
  unfold bind at 1, delivery_claim_pending. unfold bind at 1, wh_call. cbn [wh_env tick]. rewrite Hf.
  cbn [bind get ret tick wh_dels]. unfold due_batch in Hb. rewrite Hb. cbn [for_each].
  unfold webhook_dispatch, subscription_get. unfold bind, wh_call. cbn. rewrite Hf. cbn.
  fold (find_subscription (wd_subscription_id d) (wh_subs w)). rewrite Hs, Ha. unfold lift. rewrite Hp.
  unfold http_post. cbn. rewrite Hx. by eexists.
Qed.

(** The guard of a subscription write looks at the tenant the caller names, not at
    the tenant of the row: with a known subscription id, a tenant bound to its own
    context redirects another tenant's deliveries to itself. *)
Lemma subscription_hijacked :
  exists w w' s, wh_ctx w = Some (mkContext "mallory" "user" "tr" "rq" None None None) /\
    wh_subs w = [mkSubscription "s1" "acme" "https://acme.example" "acme-secret" ["task.succeeded"] true 0] /\
    subscription_upsert (mkSubscription "s1" "mallory" "https://evil.example" "evil-secret" ["task.succeeded"] true 9) w
      = (Ok tt, w') /\
    wh_subs w' = [s] /\ ws_tenant_id s = "acme" /\ ws_url s = "https://evil.example".
Proof.
  exists (mkWH (Some (mkContext "mallory" "user" "tr" "rq" None None None))
    [mkSubscription "s1" "acme" "https://acme.example" "acme-secret" ["task.succeeded"] true 0] [] [] 0
    (mkEnv (fun _ => 0) (fun _ => "id") (fun _ => None) (fun _ _ => Status 200))).
  eexists _, _. split_and!; reflexivity.
Qed.

(** ** Witnesses: an event of one tenant, fanned out and delivered *)

Definition demo_subs : list WebhookSubscription :=
  [mkSubscription "s1" "acme" "https://a.example/hook" "secret-one" ["task.succeeded"] true 0;
   mkSubscription "s2" "acme" "https://b.example/hook" "secret-two" ["task.failed"] true 0;
   mkSubscription "s3" "other" "not a url" "secret-three" ["task.succeeded"] true 0].
Definition demo_http (n : nat) (p : Post) : HttpReply :=
  if String.eqb (po_url p) "not a url" then PostRaises (ExternalError "InvalidURL") else Status 204.
Definition demo_env : Env := mkEnv (fun n => Z.of_nat n) (fun n => "id" +:+ pretty n) (fun _ => None) demo_http.
Definition demo_event : AuditEvent :=
  mkAuditEvent "ev1" "acme" "system" None (Some "t1") "tr" "task.succeeded" [] 5.
Definition demo_wh : WH :=
  mkWH (Some (mkContext "acme" "system" "tr" "rq" None None None)) demo_subs [] [] 0 demo_env.
Definition demo_hmac (k b : string) : string := "00".
Definition demo_fanned : WH := (fanout (fun z => "at " +:+ pretty z) ["task.succeeded"] demo_event demo_wh).2.
Definition demo_pass (w : WH) : res Z * WH := webhook_run_once demo_hmac (fun _ => "{}") default_webhook_config w.

Example demo_delivered :
  map (fun d => (wd_status d, wd_attempts d)) (wh_dels (demo_pass demo_fanned).2) = [(WD_DISPATCHED, 1)] /\
  map po_url (wh_sent (demo_pass demo_fanned).2) = ["https://a.example/hook"].
Proof. split; vm_compute; reflexivity. Qed.

Lemma fanout_spec_witness : exists n w',
  fanout (fun z => "at " +:+ pretty z) ["task.succeeded"] demo_event demo_wh = (Ok n, w') /\ keys_unique w'.
Proof.
  destruct (fanout_spec (fun z => "at " +:+ pretty z) ["task.succeeded"] demo_event demo_wh)
    as (n & w' & H1 & _ & H2 & _).
  - reflexivity.
  - split_and!; [done..|by repeat constructor].
  - split; constructor.
  - by exists n, w'.
Defined.

Lemma webhook_pass_spec_witness :
  NoDup (ids (wh_dels (demo_pass demo_fanned).2)) /\
  within_budget default_webhook_config (wh_dels (demo_pass demo_fanned).2).
Proof.
  destruct (webhook_pass_spec demo_hmac (fun _ => "{}") default_webhook_config demo_fanned
    (demo_pass demo_fanned).1 (demo_pass demo_fanned).2) as (H1 & H2 & _).
  - done.
  - vm_compute. repeat constructor. set_solver.
  - intros d Hd. vm_compute in Hd. apply list_elem_of_singleton in Hd as ->. by vm_compute.
  - apply surjective_pairing.
  - done.
Defined.

(** A row of the tenant with the bad URL, due before a row of another tenant. *)
Definition demo_blocked : WH :=
  mkWH None demo_subs
    [mkDelivery "d1" "s3" "other" "tr" "task.succeeded" [] "k1" WD_PENDING 0 1 None 0 None;
     mkDelivery "d2" "s1" "acme" "tr" "task.succeeded" [] "k2" WD_PENDING 0 2 None 0 None] [] 9 demo_env.

Lemma invalid_url_blocks_queue_witness :
  exists w', demo_pass demo_blocked = (Err (ExternalError "InvalidURL"), w') /\ wh_dels w' = wh_dels demo_blocked.
Proof.
  destruct (invalid_url_blocks_queue demo_hmac (fun _ => "{}") default_webhook_config demo_blocked
    (mkDelivery "d1" "s3" "other" "tr" "task.succeeded" [] "k1" WD_PENDING 0 1 None 0 None)
    [mkDelivery "d2" "s1" "acme" "tr" "task.succeeded" [] "k2" WD_PENDING 0 2 None 0 None]
    (mkSubscription "s3" "other" "not a url" "secret-three" ["task.succeeded"] true 0)
    (mkPost "not a url" "{}" [("Content-Type", "application/json"); (SIGNATURE_HEADER, "sha256=00");
       ("X-Meta-Agent-Event", "task.succeeded"); ("X-Meta-Agent-Idempotency", "k1");
       ("X-Meta-Agent-Trace-Id", "tr")])
    (ExternalError "InvalidURL")) as (w' & H1 & H2 & _).
  - reflexivity.
  - vm_compute. reflexivity.
  - reflexivity.
  - reflexivity.
  - reflexivity.
  - reflexivity.
  - by exists w'.
Defined.
