(* ===== verification/RepositoryPorts.v ===== *)
(** * RepositoryPorts: the contracts of the repositories

    [core/ports/repository.py], [llm_usage.py], [trajectory.py] and [webhook.py]:
    the abstract classes as records of operations, and
    the part of their documentation that callers rely on, the lifecycle of a task,
    as the class [TaskLifecycle].  The Postgres repositories of [Persistence] and
    [Reporting] are instances; that a task is settled once is proved for every
    repository that keeps the contract. *)

From S2P Require Import Prelude Domain Cursor Keyset GraphRuntime Gates Results Persistence PersistenceFacts LlmClients Reporting Webhooks.

(** ** The operations *)

Record TaskRepository (W : Type) : Type := mkTaskRepository {
  tr_upsert : Task -> M W unit;
  tr_get : string -> string -> M W (option Task);
  tr_list_by_state : string -> TaskState -> nat -> M W (list Task);
  tr_update_state : string -> string -> TaskState -> Z -> M W unit;
  tr_list_running_for_resume : nat -> M W (list Task);
  tr_list_awaiting_approval_older_than : Z -> nat -> M W (list Task);
  tr_set_awaiting_approval : string -> string -> Z -> M W unit;
  tr_transition_from_awaiting_approval : string -> string -> TaskState -> Z -> M W unit;
  tr_complete : string -> string -> TaskResult -> TaskState -> Z -> M W unit;
  tr_get_result : string -> string -> M W (option TaskResult);
  tr_list_by_session : string -> string -> nat -> M W (list Task)
}.
Arguments mkTaskRepository {W}. Arguments tr_set_awaiting_approval {W}.
Arguments tr_transition_from_awaiting_approval {W}. Arguments tr_complete {W}.
Arguments tr_get {W}. Arguments tr_get_result {W}.

Record SessionRepository (W : Type) : Type := mkSessionRepository {
  sr_upsert : Session -> M W unit;
  sr_get : string -> string -> M W (option Session);
  sr_touch : string -> string -> Z -> M W unit
}.
Record OutboxRepository (W : Type) : Type := mkOutboxRepository {
  or_enqueue : OutboxEvent -> M W unit;
  or_claim_pending : nat -> Z -> M W (list OutboxEvent);
  or_mark_dispatched : string -> Z -> M W unit;
  or_mark_failed : string -> string -> option Z -> bool -> M W unit;
  or_get : string -> M W (option OutboxEvent);
  or_count_by_status : string -> OutboxStatus -> M W Z
}.
Record AuditRepository (W : Type) : Type := mkAuditRepository {
  ar_append : AuditEvent -> M W unit;
  ar_list_recent : string -> nat -> M W (list AuditEvent);
  ar_list_for_task_since : string -> string -> option (Z * string) -> nat -> M W (list AuditEvent);
  ar_list_filtered : string -> AuditFilter -> M W (list AuditEvent)
}.
Record CheckpointRepository (W : Type) : Type := mkCheckpointRepository {
  cr_append : TaskCheckpoint -> M W unit;
  cr_latest : string -> string -> M W (option TaskCheckpoint);
  cr_list_for_task : string -> string -> M W (list TaskCheckpoint)
}.
Record LLMUsageRepository (W : Type) : Type := mkLLMUsageRepository {
  lu_record : LLMUsageRecord -> M W unit;
  lu_list_for_task : string -> string -> M W (list LLMUsageRecord);
  lu_aggregate_since : string -> Z -> M W BudgetUsage;
  lu_list_filtered : string -> LLMUsageFilter -> M W (list LLMUsageRecord);
  lu_aggregate_for_task : string -> string -> UsageGroupBy -> M W (list UsageAggregate);
  lu_aggregate_grouped : string -> DateTime -> DateTime -> UsageGroupBy -> M W (list UsageAggregate)
}.
Record TrajectoryRepository (W : Type) : Type := mkTrajectoryRepository {
  ty_list_for_task : string -> string -> option Z -> Z -> M W TrajectoryPage
}.
Record WebhookSubscriptionRepository (W : Type) : Type := mkWebhookSubscriptionRepository {
  ws_upsert : WebhookSubscription -> M W unit;
  ws_get : string -> M W (option WebhookSubscription);
  ws_list_active_for_event : string -> string -> M W (list WebhookSubscription)
}.
Record WebhookDeliveryRepository (W : Type) : Type := mkWebhookDeliveryRepository {
  wdr_enqueue : WebhookDelivery -> M W unit;
  wdr_claim_pending : nat -> Z -> M W (list WebhookDelivery);
  wdr_mark_dispatched : string -> Z -> Z -> M W unit;
  wdr_mark_retry : string -> Z -> string -> Z -> M W unit;
  wdr_mark_dead_letter : string -> string -> Z -> Z -> M W unit;
  wdr_get : string -> M W (option WebhookDelivery);
  wdr_count_by_status : string -> WebhookDeliveryStatus -> M W Z
}.
Arguments mkSessionRepository {W}. Arguments mkOutboxRepository {W}. Arguments mkAuditRepository {W}.
Arguments mkCheckpointRepository {W}. Arguments mkLLMUsageRepository {W}. Arguments mkTrajectoryRepository {W}.
Arguments mkWebhookSubscriptionRepository {W}. Arguments mkWebhookDeliveryRepository {W}.

(** The adapters of [infra/persistence/]. *)
Definition PgTaskRepository : TaskRepository World :=
  mkTaskRepository upsert get_task list_by_state update_state list_running_for_resume
    list_awaiting_approval_older_than set_awaiting_approval transition_from_awaiting_approval complete
    get_result list_by_session.
Definition PgSessionRepository : SessionRepository World := mkSessionRepository session_upsert session_get touch.
Definition PgOutboxRepository : OutboxRepository World :=
  mkOutboxRepository enqueue claim_pending mark_dispatched mark_failed outbox_get count_by_status.
Definition PgAuditRepository `{!TextOrder, !LocalZone} : AuditRepository World :=
  mkAuditRepository append_audit list_recent list_for_task_since audit_list_filtered.
Definition PgCheckpointRepository : CheckpointRepository World :=
  mkCheckpointRepository append_checkpoint latest checkpoint_list_for_task.
Definition PgLLMUsageRepository `{!TextOrder, !LocalZone, !DayKey} : LLMUsageRepository World :=
  mkLLMUsageRepository record usage_list_for_task aggregate_since usage_list_filtered aggregate_for_task aggregate_grouped.
Definition PgTrajectoryRepository : TrajectoryRepository World := mkTrajectoryRepository trajectory.
Definition PgWebhookSubscriptionRepository : WebhookSubscriptionRepository WH :=
  mkWebhookSubscriptionRepository subscription_upsert subscription_get list_active_for_event.
Definition PgWebhookDeliveryRepository : WebhookDeliveryRepository WH :=
  mkWebhookDeliveryRepository delivery_enqueue delivery_claim_pending delivery_mark_dispatched delivery_mark_retry
    delivery_mark_dead_letter delivery_get delivery_count_by_status.

(** ** The lifecycle contract *)

(** State and result of a task. *)
Abbreviation Standing := (TaskState * option TaskResult)%type.

(** A write moves one task from a state in [from] to [new], or changes nothing. *)
Definition row_moves {W} (row : W -> string -> string -> option Standing) (tenant task : string)
    (from : TaskState -> bool) (new : Standing -> Standing) (m : M W unit) (w : W) : Prop :=
  match m w with
  | (Ok _, w') => exists s, row w tenant task = Some s /\ from s.1 = true /\ row w' tenant task = Some (new s) /\
      (forall t i, (t, i) <> (tenant, task) -> row w' t i = row w t i)
  | (Err _, w') => forall t i, row w' t i = row w t i
  end.

Class TaskLifecycle {W} (R : TaskRepository W) := {
  tl_row : W -> string -> string -> option Standing;
  tl_get tenant task w :
    match tr_get R tenant task w with
    | (Ok o, w') => t_state <$> o = fst <$> tl_row w tenant task /\ (forall t i, tl_row w' t i = tl_row w t i)
    | (Err _, w') => forall t i, tl_row w' t i = tl_row w t i
    end;
  tl_get_result tenant task w :
    match tr_get_result R tenant task w with
    | (Ok o, w') => o = tl_row w tenant task ≫= snd /\ (forall t i, tl_row w' t i = tl_row w t i)
    | (Err _, w') => forall t i, tl_row w' t i = tl_row w t i
    end;
  tl_pause tenant task at_ w :
    row_moves tl_row tenant task (fun s => bool_decide (s = RUNNING)) (fun s => (AWAITING_APPROVAL, s.2))
      (tr_set_awaiting_approval R tenant task at_) w;
  tl_leave tenant task new at_ w :
    row_moves tl_row tenant task (fun s => bool_decide (s = AWAITING_APPROVAL)) (fun s => (new, s.2))
      (tr_transition_from_awaiting_approval R tenant task new at_) w;
  tl_complete tenant task result terminal at_ w :
    row_moves tl_row tenant task (fun s => negb (TERMINAL_TASK_STATES s) && TERMINAL_TASK_STATES terminal)
      (fun _ => (terminal, Some result)) (tr_complete R tenant task result terminal at_) w
}.

(** ** For every repository that keeps it *)

Inductive LifecycleCall : Type :=
  | CallPause (tenant task : string) (at_ : Z)
  | CallLeave (tenant task : string) (new : TaskState) (at_ : Z)
  | CallComplete (tenant task : string) (result : TaskResult) (terminal : TaskState) (at_ : Z).

Section Lifecycle.
Context {W : Type} (R : TaskRepository W) `{HL : !TaskLifecycle R}.

Definition lifecycle_call (c : LifecycleCall) : M W unit :=
  match c with
  | CallPause tenant task at_ => tr_set_awaiting_approval R tenant task at_
  | CallLeave tenant task new at_ => tr_transition_from_awaiting_approval R tenant task new at_
  | CallComplete tenant task result terminal at_ => tr_complete R tenant task result terminal at_
  end.
(** The outcomes of a sequence of calls, from any number of workers. *)
Fixpoint calls (cs : list LifecycleCall) (w : W) : list (LifecycleCall * res unit) * W :=
  match cs with
  | [] => ([], w)
  | c :: rest => let '(r, w1) := lifecycle_call c w in let '(out, w2) := calls rest w1 in ((c, r) :: out, w2)
  end.

Definition completes (tenant task : string) (x : LifecycleCall * res unit) : bool :=
  match x with
  | (CallComplete t i _ _ _, Ok _) => String.eqb t tenant && String.eqb i task
  | _ => false
  end.

Lemma call_row_moves c w : exists tenant task from new,
  row_moves tl_row tenant task from new (lifecycle_call c) w /\ (forall s, from s = true -> TERMINAL_TASK_STATES s = false) /\
  (forall t i r, completes t i (c, r) = true -> (t, i) = (tenant, task) /\ forall s, from s.1 = true -> TERMINAL_TASK_STATES (new s).1 = true).
Proof.
  destruct c as [tenant task at_|tenant task st at_|tenant task result terminal at_]; simpl.
  - eexists tenant, task, _, _. split; [apply tl_pause|]. split; [|done]. intros s H%bool_decide_eq_true. by subst.
  - eexists tenant, task, _, _. split; [apply tl_leave|]. split; [|done]. intros s H%bool_decide_eq_true. by subst.
  - eexists tenant, task, _, _. split; [apply tl_complete|]. split.
    + intros s [H _]%andb_true_iff. by apply negb_true_iff.
    + intros t i [|] H; [|done]. apply andb_true_iff in H as [->%String.eqb_eq ->%String.eqb_eq]. split; [done|].
      by intros s [_ Ht]%andb_true_iff.
Qed.

(** A settled task is left alone by every call, which is refused if it aims at it. *)
Lemma call_settled c w tenant task s :
  tl_row w tenant task = Some s -> TERMINAL_TASK_STATES s.1 = true ->
  let '(r, w') := lifecycle_call c w in tl_row w' tenant task = Some s /\ completes tenant task (c, r) = false.
Proof.
  intros Hrow Ht. destruct (call_row_moves c w) as (t & i & from & new & Hm & Hfrom & Hc). unfold row_moves in Hm.
  destruct (lifecycle_call c w) as [[u|e] w']; [|split; [by rewrite Hm|by destruct c]].
  destruct Hm as (s0 & H0 & Hf & H1 & Hother).
  assert ((tenant, task) <> (t, i)) as Hne.
  { intros [= -> ->]. rewrite Hrow in H0. injection H0 as <-. by rewrite (Hfrom _ Hf) in Ht. }
  split; [by rewrite Hother|]. destruct (completes tenant task (c, Ok u)) eqn:E; [|done].
  by destruct (Hc _ _ _ E) as [? _].
Qed.

Lemma calls_settled cs : forall w tenant task s,
  tl_row w tenant task = Some s -> TERMINAL_TASK_STATES s.1 = true ->
  let '(out, w') := calls cs w in
  tl_row w' tenant task = Some s /\ List.filter (completes tenant task) out = [].
Proof.
  induction cs as [|c cs IH]; intros w tenant task s Hrow Ht; [done|]. cbn [calls].
  pose proof (call_settled c w tenant task s Hrow Ht) as Hc. destruct (lifecycle_call c w) as [r w1]. destruct Hc as [H1 H2].
  specialize (IH w1 tenant task s H1 Ht). destruct (calls cs w1) as [out w2]. destruct IH as [H3 H4].
  split; [done|]. cbn [List.filter]. by rewrite H2.
Qed.

(** A task is settled once.  For every repository that keeps the lifecycle
    contract, whatever sequence of pause, resume and completion calls its users
    make, on any tasks and with whatever failures: at most one completion of a
    task succeeds, and its state and result are then final. *)
Theorem settled_once cs w tenant task :
  let '(out, w') := calls cs w in
  match List.filter (completes tenant task) out with
  | [] => True
  | [(CallComplete _ _ result terminal _, _)] => tl_row w' tenant task = Some (terminal, Some result)
  | _ => False
  end.
Proof using HL.
  revert w. induction cs as [|c cs IH]; intros w; [done|]. cbn [calls].
  destruct (lifecycle_call c w) as [r w1] eqn:Hcall. destruct (completes tenant task (c, r)) eqn:E; cycle 1.
  { specialize (IH w1). destruct (calls cs w1) as [out w2]. cbn [List.filter]. by rewrite E. }
  destruct c as [| |t i result terminal at_]; try done. destruct r as [u|]; [|done].
  apply andb_true_iff in E as E'. destruct E' as [->%String.eqb_eq ->%String.eqb_eq].
  pose proof (tl_complete tenant task result terminal at_ w) as Hm. unfold row_moves in Hm.
  change (tr_complete R tenant task result terminal at_ w) with (lifecycle_call (CallComplete tenant task result terminal at_) w) in Hm.
  rewrite Hcall in Hm. destruct Hm as (s & _ & [_ Ht]%andb_true_iff & H1 & _).
  pose proof (calls_settled cs w1 tenant task _ H1 Ht) as Hs. destruct (calls cs w1) as [out w2].
  destruct Hs as [H2 H3]. cbn [List.filter]. by rewrite E, H3.
Qed.
End Lifecycle.

(** ** The Postgres repository keeps it *)

Definition pg_standing (w : World) (tenant task : string) : option Standing :=
  (fun r => (t_state (row_task r), row_result r)) <$> select_task (w_db w) tenant task.

(** A guarded [UPDATE] that raises when no row matched. *)
Lemma guarded_update_moves tenant task (guard : TaskState -> bool) (f : TaskRow -> TaskRow)
    (new : Standing -> Standing) w :
  (forall r, t_tenant_id (row_task (f r)) = t_tenant_id (row_task r) /\
             (t_state (row_task (f r)), row_result (f r)) = new (t_state (row_task r), row_result r)) ->
  row_moves pg_standing tenant task guard new
    (n <- update_where tenant task (fun r => guard (t_state (row_task r))) f ;;
     if Nat.eqb n 0 then raise IllegalTaskTransitionError else ret tt) w.
Proof.
  intros Hf. unfold row_moves, bind.
  pose proof (update_where_cases tenant task (fun r => guard (t_state (row_task r))) f w) as Hu.
  destruct (update_where _ _ _ _ w) as [o w1]. simpl in Hu.
  assert (w_db w1 = w_db w -> forall t i, pg_standing w1 t i = pg_standing w t i) as Hsame.
  { intros E t i. unfold pg_standing. by rewrite E. }
  destruct Hu as [(e & _ & -> & Hd)|[_ Hu]]; [by apply Hsame|].
  destruct (select_task (w_db w) tenant task) as [r|] eqn:Hr; cycle 1.
  { destruct Hu as [-> Hd]. simpl. by apply Hsame. }
  destruct (guard (t_state (row_task r))) eqn:Hg; destruct Hu as [-> Hd]; simpl; [|by apply Hsame].
  destruct (Hf r) as [Htenant Hnew]. apply select_task_Some in Hr as [Hlook Hten].
  exists (t_state (row_task r), row_result r). split; [|split; [done|split]].
  - unfold pg_standing. by rewrite (proj2 (select_task_Some _ _ _ _) (conj Hlook Hten)).
  - unfold pg_standing. rewrite Hd, (proj2 (select_task_Some _ _ _ (f r))).
    { cbn. by rewrite Hnew. } simpl. rewrite lookup_insert_eq. split; [done|congruence].
  - intros t i Hne. unfold pg_standing, select_task. rewrite Hd. simpl.
    destruct (decide (i = task)) as [->|]; [|by rewrite lookup_insert_ne by done].
    rewrite lookup_insert_eq, Hlook, Htenant, Hten. destruct (String.eqb_spec tenant t) as [->|]; [done|done].
Qed.

(** The tenant guard in front of a write changes nothing when it raises. *)
Lemma guard_moves tenant task from new m w :
  row_moves pg_standing tenant task from new m w -> row_moves pg_standing tenant task from new (check_tenant tenant ;;; m) w.
Proof.
  unfold row_moves, bind. intros H. destruct (check_tenant tenant w) as [[[]|e] w0] eqn:Hc;
    apply check_tenant_inv in Hc as [-> _]; done.
Qed.

#[global] Instance pg_task_lifecycle : TaskLifecycle PgTaskRepository.
Proof.
  refine {| tl_row := pg_standing |}.
  - intros tenant task w. cbn. unfold get_task, bind, db_call, get, ret.
    destruct (check_tenant tenant w) as [[[]|x] w1] eqn:Hc; apply check_tenant_inv in Hc as [-> _]; [|done].
    destruct (w_fault w (w_ops w)); [done|]. split; [|done]. unfold pg_standing. cbn.
    by destruct (select_task (w_db w) tenant task).
  - intros tenant task w. cbn. unfold get_result, bind, db_call, get, ret.
    destruct (check_tenant tenant w) as [[[]|x] w1] eqn:Hc; apply check_tenant_inv in Hc as [-> _]; [|done].
    destruct (w_fault w (w_ops w)); [done|]. split; [|done]. unfold pg_standing. cbn.
    by destruct (select_task (w_db w) tenant task).
  - intros tenant task at_ w. apply guard_moves.
    apply (guarded_update_moves tenant task (fun s => bool_decide (s = RUNNING))). by intros [[] ?].
  - intros tenant task new at_ w. apply guard_moves.
    apply (guarded_update_moves tenant task (fun s => bool_decide (s = AWAITING_APPROVAL))). by intros [[] ?].
  - intros tenant task result terminal at_ w. apply guard_moves.
    destruct (TERMINAL_TASK_STATES terminal) eqn:Ht; simpl; [|done].
    pose proof (guarded_update_moves tenant task (fun s => negb (TERMINAL_TASK_STATES s))
      (fun r => mkTaskRow (task_with_state (row_task r) terminal at_) (Some result)) (fun _ => (terminal, Some result)) w) as H.
    unfold row_moves in *. destruct (bind _ _ w) as [[u|e] w'].
    + destruct H as (s & H1 & H2 & H3); [by intros [[] ?]|]. exists s. by rewrite andb_true_r.
    + apply H. by intros [[] ?].
Defined.

(** C4: the Postgres task repository settles a task once.  Whatever sequence of
    guarded calls its users make (pause for approval, leave the pause, complete), on
    any tasks, in any interleaving and with any database failure, at most one
    completion of a task succeeds; its terminal state and its result are then the
    row's for good.  The unguarded [upsert] and [update_state] are not among them. *)
Theorem pg_settled_once cs w tenant task :
  let '(out, w') := calls PgTaskRepository cs w in
  match List.filter (completes tenant task) out with
  | [] => True
  | [(CallComplete _ _ result terminal _, _)] =>
      exists row, select_task (w_db w') tenant task = Some row /\
        t_state (row_task row) = terminal /\ row_result row = Some result
  | _ => False
  end.
Proof.
  pose proof (settled_once PgTaskRepository cs w tenant task) as H.
  destruct (calls PgTaskRepository cs w) as [out w']. destruct (List.filter _ out) as [|[[| |? ? result terminal ?] ?] [|? ?]]; try done.
  cbn in H. unfold pg_standing in H. apply fmap_Some in H as (row & Hrow & [= Hs Hr]). by exists row.
Qed.
