(* ===== verification/Queue.v ===== *)
(** * Queue: the Redis stream between the API and the workers

    [infra/queue/]: the serialisation of an envelope ([_serde.py]), the topic
    names, the publisher and the consumer group.  The Redis server is given by an
    interface, [StreamOps], whose laws state what Redis documents of the stream
    commands: an entry is read once as new, is then pending on the consumer that
    read it, is read again from that consumer's pending list with its delivery
    count increased, and leaves the list when it is acknowledged.

    The JSON codec of the envelope is a parameter.  Field names and values arrive as
    bytes. *)

From S2P Require Import Prelude PyText Utf8 Domain GraphRuntime Results Persistence Worker.
Import Utf8.

Abbreviation fields := (list (string * string)).

(** ** Names and serialisation *)

Definition DEFAULT_STREAM_PREFIX : string := "meta_agent.stream.".

Definition stream_name_for_topic (prefix topic : string) : res string :=
  if nonempty topic then Ok (prefix +:+ topic) else Err (ValueError "topic must be non-empty").

Class EnvelopeJson := {
  model_dump_json : MessageEnvelope -> string;
  model_validate_json : string -> res MessageEnvelope
}.
(** Validation fails with an [Exception]. *)
Class EnvelopeJsonLaws `{!EnvelopeJson} : Prop := {
  envelope_json_raises : forall s ex, model_validate_json s = Err ex -> is_exception ex = true
}.

Section Serde.
Context `{!EnvelopeJson}.

Definition PAYLOAD_FIELD : string := "envelope".
Definition envelope_to_fields (e : MessageEnvelope) : fields := [(PAYLOAD_FIELD, model_dump_json e)].

Definition decode_error : exn := ExternalError "UnicodeDecodeError".

(** The loop over the fields: every key up to the payload must decode. *)
Fixpoint find_payload (f : fields) : res string :=
  match f with
  | [] => Err (ValueError "Redis stream entry missing 'envelope' field")
  | (k, v) :: rest =>
      if negb (valid k) then Err decode_error
      else if String.eqb k PAYLOAD_FIELD then Ok v else find_payload rest
  end.

Definition fields_to_envelope (f : fields) : res MessageEnvelope :=
  let? raw := find_payload f in
  if valid raw then model_validate_json raw else Err decode_error.

(** Reading what was written, wherever the codec reads what it wrote. *)
Lemma serde_roundtrip e :
  valid (model_dump_json e) = true -> model_validate_json (model_dump_json e) = Ok e ->
  fields_to_envelope (envelope_to_fields e) = Ok e.
Proof. intros Hv Hr. unfold fields_to_envelope, envelope_to_fields. simpl. by rewrite Hv. Qed.

(** An entry trimmed from the stream is read back without fields. *)
Definition read_envelope (f : option fields) : res MessageEnvelope :=
  match f with Some f => fields_to_envelope f | None => Err (ExternalError "AttributeError") end.
End Serde.

(** ** The server *)

Record PendingEntry : Type := mkPending {
  pe_id : string; pe_consumer : string; pe_count : Z; pe_fields : option fields
}.

(** The commands on one stream and one group; a failing command raises. *)
Class StreamOps (W : Type) : Type := {
  xgroup_create : M W unit;
  xadd : fields -> option Z -> M W string;
  xreadgroup : string -> string -> Z -> Z -> M W (list (string * option fields));
  xack : string -> M W unit;
  xpending_range : string -> M W (list Z);
  unread : W -> list (string * option fields);
  pending : W -> list PendingEntry
}.

Definition busygroup : exn := ExternalError "ResponseError: BUSYGROUP".
Definition is_stream_error (e : exn) : bool :=
  match e with ExternalError c => String.prefix "RedisError" c || String.prefix "ResponseError" c | _ => false end.
Definition is_response_error (e : exn) : bool :=
  match e with ExternalError c => String.prefix "ResponseError" c | _ => false end.

(** ** [RedisStreamPublisher] *)

Section Publisher.
Context {W : Type} `{!StreamOps W, !EnvelopeJson} (prefix : string) (max_len : option Z).

Definition publish (e : MessageEnvelope) : M W unit :=
  lift (stream_name_for_topic prefix (env_topic e)) ;;;
  try_except (xadd (envelope_to_fields e) max_len ;;; ret tt)
    (fun ex => if is_stream_error ex
               then Some (raise (QueueError ("redis xadd failed for topic=" +:+ py_repr_str (env_topic e))))
               else None).
End Publisher.

(** ** [RedisStreamConsumer] *)

Section Consumer.
Context {W : Type} `{!StreamOps W, !EnvelopeJson} (consumer_name : string) (batch_size default_block_ms : Z).

Definition ensure_group : M W unit :=
  try_except xgroup_create
    (fun ex => if is_response_error ex
               then if str_contains "BUSYGROUP" (match ex with ExternalError c => c | _ => "" end)
                    then Some (ret tt) else Some (raise (QueueError "failed to create consumer group"))
               else None).

Definition safe_ack (entry_id : string) : M W unit :=
  try_except (xack entry_id) (fun ex => if is_stream_error ex then Some (ret tt) else None).

Definition queue_ack (entry_id : string) : M W unit := safe_ack entry_id.

Definition read_for_id (stream_id : string) (block_ms : Z) : M W (list (string * option fields)) :=
  try_except (xreadgroup consumer_name stream_id batch_size block_ms)
    (fun ex => if is_stream_error ex then Some (raise (QueueError "redis xreadgroup failed")) else None).

Definition delivery_count (entry_id : string) : M W Z :=
  counts <- try_except (xpending_range entry_id)
    (fun ex => if is_stream_error ex then Some (raise (QueueError "redis xpending failed")) else None) ;;
  ret (match counts with [] => 1 | n :: _ => n end).

(** One entry of a batch: a payload that does not parse is acknowledged. *)
Definition claim_entry (entry : string * option fields) (delivered : list DeliveredMessage)
    : M W (list DeliveredMessage) :=
  match read_envelope entry.2 with
  | Err ex => if is_exception ex then safe_ack entry.1 ;;; ret delivered else raise ex
  | Ok e => n <- delivery_count entry.1 ;; ret (delivered ++ [mkDelivered e entry.1 n])
  end.

Definition claim_batch (block_ms : option Z) : M W (list DeliveredMessage) :=
  ensure_group ;;;
  let block := default default_block_ms block_ms in
  for_each ["0"; ">"] [] (fun stream_id delivered =>
    entries <- read_for_id stream_id block ;;
    for_each entries delivered claim_entry).

(** *** The push interface *)

Section Push.
Context `{!HasContext W} (handler : MessageEnvelope -> M W unit).

Definition queue_dispatch (entry_id : string) (f : option fields) : M W unit :=
  match read_envelope f with
  | Err ex => if is_exception ex then safe_ack entry_id else raise ex
  | Ok e =>
      done <- try_except (bind_context (envelope_to_context e) (handler e) ;;; ret true)
        (fun ex => if is_exception ex then Some (ret false) else None) ;;
      if done then safe_ack entry_id else ret tt
  end.

Definition poll_once : M W unit :=
  entries <- try_except (xreadgroup consumer_name ">" batch_size default_block_ms)
    (fun ex => if is_stream_error ex then Some (raise (QueueError "redis xreadgroup failed")) else None) ;;
  for_each entries tt (fun entry _ => queue_dispatch entry.1 entry.2).

(** The flags of the consumer object. *)
Context (running stopping : M W bool) (set_running set_stopping : bool -> M W unit).

Fixpoint poll_loop (fuel : nat) : M W unit :=
  match fuel with
  | O => raise OutOfFuel
  | S fuel' => s <- stopping ;; if s then ret tt else poll_once ;;; poll_loop fuel'
  end.

Definition consumer_start (fuel : nat) : M W unit :=
  r <- running ;;
  if r then raise (QueueError "RedisStreamConsumer is already running")
  else
    set_running true ;;;
    set_stopping false ;;;
    ensure_group ;;;
    try_finally (poll_loop fuel) (set_running false).

Definition consumer_stop : M W unit := set_stopping true.
End Push.
End Consumer.

(** ** What Redis documents *)

(** The first [n] entries pending on consumer [c], in id order. *)
Definition own_batch (c : string) (n : nat) (l : list PendingEntry) : list PendingEntry :=
  take n (List.filter (fun p => String.eqb (pe_consumer p) c) l).

Definition redelivered (p : PendingEntry) : PendingEntry :=
  mkPending (pe_id p) (pe_consumer p) (pe_count p + 1) (pe_fields p).

Fixpoint bump (c : string) (n : nat) (l : list PendingEntry) : list PendingEntry :=
  match l with
  | [] => []
  | p :: l' =>
      if String.eqb (pe_consumer p) c then
        match n with O => p :: l' | S n' => redelivered p :: bump c n' l' end
      else p :: bump c n l'
  end.

Definition entry_of (p : PendingEntry) : string * option fields := (pe_id p, pe_fields p).

(** [answers]: the server is up and the group exists. *)
Class StreamLaws (W : Type) `{!StreamOps W} (answers : W -> Prop) : Prop := {
  stream_ids : forall w, answers w -> NoDup (map pe_id (pending w) ++ map fst (unread w));
  stream_create : forall w, answers w -> exists w', xgroup_create w = (Err busygroup, w') /\
    answers w' /\ unread w' = unread w /\ pending w' = pending w;
  stream_read_new : forall w c n b, answers w -> 0 < n -> exists w',
    xreadgroup c ">" n b w = (Ok (take (Z.to_nat n) (unread w)), w') /\ answers w' /\
    unread w' = drop (Z.to_nat n) (unread w) /\
    pending w' = pending w ++ map (fun e => mkPending e.1 c 1 e.2) (take (Z.to_nat n) (unread w));
  stream_read_own : forall w c n b, answers w -> 0 < n -> exists w',
    xreadgroup c "0" n b w = (Ok (map entry_of (own_batch c (Z.to_nat n) (pending w))), w') /\
    answers w' /\ unread w' = unread w /\ pending w' = bump c (Z.to_nat n) (pending w);
  stream_ack : forall w i, answers w -> exists w', xack i w = (Ok tt, w') /\ answers w' /\
    unread w' = unread w /\ pending w' = List.filter (fun p => negb (String.eqb (pe_id p) i)) (pending w);
  stream_pending : forall w i, answers w -> exists w',
    xpending_range i w = (Ok (map pe_count (List.filter (fun p => String.eqb (pe_id p) i) (pending w))), w') /\
    answers w' /\ unread w' = unread w /\ pending w' = pending w;
  stream_add : forall w f m, answers w -> exists i w', xadd f m w = (Ok i, w') /\ answers w' /\
    unread w' = unread w ++ [(i, Some f)] /\ pending w' = pending w
}.

(** ** Lists of pending entries *)

Lemma bump_ids c n l : map pe_id (bump c n l) = map pe_id l.
Proof.
  revert n. induction l as [|p l IH]; intros n; simpl; [done|]. destruct (String.eqb _ _); [|by rewrite <- (IH n)].
  destruct n as [|n]; [done|]. simpl. by rewrite IH.
Qed.

Lemma bump_other c n l p : pe_consumer p <> c -> p ∈ l -> p ∈ bump c n l.
Proof.
  intros Hc. revert n. induction l as [|q l IH]; intros n Hp; [by apply not_elem_of_nil in Hp|].
  simpl. apply elem_of_cons in Hp as [->|Hp].
  - destruct (String.eqb_spec (pe_consumer q) c); [done|]. left.
  - destruct (String.eqb _ _); [destruct n; [by right|right; by apply IH]|right; by apply IH].
Qed.

Lemma bump_own c n l p : p ∈ own_batch c n l -> redelivered p ∈ bump c n l.
Proof.
  unfold own_batch. revert n. induction l as [|q l IH]; intros n; simpl; [by rewrite take_nil, elem_of_nil|].
  destruct (String.eqb (pe_consumer q) c); [|right; by apply IH].
  destruct n as [|n]; simpl; [by rewrite elem_of_nil|]. intros [->|Hp]%elem_of_cons; [left|right; by apply IH].
Qed.

Lemma own_batch_in c n l p : p ∈ own_batch c n l -> p ∈ l /\ pe_consumer p = c.
Proof.
  unfold own_batch. intros H. apply (subseteq_take n) in H. rewrite list_elem_of_In in H.
  apply filter_In in H as [H1 H2]. split; [by apply list_elem_of_In|by apply String.eqb_eq].
Qed.

Lemma own_batch_NoDup c n l : NoDup (map pe_id l) -> NoDup (map pe_id (own_batch c n l)).
Proof.
  intros Hn. apply (sublist_NoDup _ (pe_id <$> l)); [done|]. apply fmap_sublist.
  unfold own_batch. etrans; [apply sublist_take|]. clear. induction l as [|p l IH]; simpl; [done|].
  destruct (String.eqb _ _); [by apply sublist_skip|by apply sublist_cons].
Qed.

(** The count Redis reports for an id. *)
Definition count_of (l : list PendingEntry) (i : string) : Z :=
  match List.filter (fun p => String.eqb (pe_id p) i) l with [] => 1 | p :: _ => pe_count p end.

Lemma count_of_in l p : NoDup (map pe_id l) -> p ∈ l -> count_of l (pe_id p) = pe_count p.
Proof.
  unfold count_of. induction l as [|q l IH]; intros Hn Hp; [by apply not_elem_of_nil in Hp|].
  simpl in Hn. apply NoDup_cons in Hn as [Hq Hn]. simpl. apply elem_of_cons in Hp as [->|Hp]; [by rewrite String.eqb_refl|].
  destruct (String.eqb_spec (pe_id q) (pe_id p)) as [E|]; [|by apply IH].
  exfalso. apply Hq. rewrite E. apply list_elem_of_fmap. by exists p.
Qed.

Definition without (i : string) (l : list PendingEntry) : list PendingEntry :=
  List.filter (fun p => negb (String.eqb (pe_id p) i)) l.

Lemma count_of_without l i j : i <> j -> count_of (without j l) i = count_of l i.
Proof.
  intros Hne. unfold count_of, without. induction l as [|p l IH]; simpl; [done|].
  destruct (String.eqb_spec (pe_id p) j) as [E|]; simpl.
  - destruct (String.eqb_spec (pe_id p) i); [congruence|done].
  - by destruct (String.eqb (pe_id p) i).
Qed.

Lemma without_in i l p : p ∈ without i l <-> p ∈ l /\ pe_id p <> i.
Proof.
  unfold without. rewrite !list_elem_of_In, filter_In, negb_true_iff. by rewrite String.eqb_neq.
Qed.

(** ** A batch *)

Lemma nodup_map_inj {A B} (f : A -> B) l a b : NoDup (map f l) -> a ∈ l -> b ∈ l -> f a = f b -> a = b.
Proof.
  induction l as [|x l IH]; cbn [map]; [by intros _ Ha%elem_of_nil|].
  intros [Hx Hn]%NoDup_cons [->|Ha]%elem_of_cons [->|Hb]%elem_of_cons E; [done| | |by apply IH].
  - exfalso. apply Hx. rewrite E. apply list_elem_of_fmap. by exists b.
  - exfalso. apply Hx. rewrite <- E. apply list_elem_of_fmap. by exists a.
Qed.

Lemma omap_step {A B} (f : A -> option B) x l :
  omap f (x :: l) = match f x with Some y => y :: omap f l | None => omap f l end.
Proof. done. Qed.

Section BatchFacts.
Context {W : Type} `{Ops : !StreamOps W, Js : !EnvelopeJson, JL : !EnvelopeJsonLaws}.
Context (answers : W -> Prop) `{Laws : !StreamLaws W answers}.
Context (c : string) (batch block : Z) (Hbatch : 0 < batch).

Definition decoded (e : string * option fields) : option (string * MessageEnvelope) :=
  match read_envelope e.2 with Ok v => Some (e.1, v) | Err _ => None end.

Definition as_delivered (l : list PendingEntry) (e : string * option fields) : option DeliveredMessage :=
  match read_envelope e.2 with Ok v => Some (mkDelivered v e.1 (count_of l e.1)) | Err _ => None end.

(** What is pending once the unreadable entries were acknowledged. *)
Definition drop_poison (es : list (string * option fields)) (l : list PendingEntry) : list PendingEntry :=
  fold_left (fun l e => match read_envelope e.2 with Ok _ => l | Err _ => without e.1 l end) es l.

Lemma read_envelope_raises f ex : read_envelope f = Err ex -> is_exception ex = true.
Proof.
  destruct f as [f|]; [|by intros [= <-]]. simpl. unfold fields_to_envelope.
  assert (forall f0, match find_payload f0 with Err e => is_exception e = true | Ok _ => True end) as Hf.
  { induction f0 as [|[k v] f0 IH]; simpl; [done|]. destruct (negb (valid k)); [done|]. by destruct (String.eqb k _). }
  specialize (Hf f). destruct (find_payload f) as [raw|e]; simpl; [|by intros [= <-]].
  destruct (valid raw); [apply envelope_json_raises|by intros [= <-]].
Qed.

Lemma as_delivered_without es i l :
  i ∉ map fst es -> omap (as_delivered (without i l)) es = omap (as_delivered l) es.
Proof.
  induction es as [|e es IH]; [done|]. cbn [map]. intros [Hne Hi]%not_elem_of_cons. rewrite !omap_step, IH by done.
  unfold as_delivered at 1 3. by rewrite count_of_without.
Qed.

Lemma claim_entries es acc w :
  answers w -> NoDup (map fst es) ->
  exists w', for_each es acc claim_entry w = (Ok (acc ++ omap (as_delivered (pending w)) es), w') /\ answers w' /\
    unread w' = unread w /\ pending w' = drop_poison es (pending w).
Proof.
  revert acc w. induction es as [|e es IH]; intros acc w Ha Hn; [exists w; simpl; by rewrite app_nil_r|].
  cbn [for_each map] in *. rewrite omap_step. apply NoDup_cons in Hn as [He Hn]. unfold bind at 1, claim_entry, as_delivered at 1.
  destruct (read_envelope e.2) as [v|ex] eqn:E.
  - unfold delivery_count, bind, try_except. destruct (stream_pending w e.1 Ha) as (w1 & -> & Ha1 & Hu1 & Hp1).
    destruct (IH (acc ++ [mkDelivered v e.1 (count_of (pending w) e.1)]) w1 Ha1 Hn) as (w2 & H2 & Ha2 & Hu2 & Hp2).
    exists w2. rewrite Hp1 in H2, Hp2. split; [|split; [done|split; [congruence|by rewrite Hp2; unfold drop_poison; simpl; rewrite E]]].
    rewrite <- app_assoc in H2. simpl in H2. rewrite <- H2. f_equal. f_equal. f_equal. f_equal.
    unfold count_of. by destruct (List.filter _ _).
  - rewrite (read_envelope_raises _ _ E). unfold bind, safe_ack, try_except.
    destruct (stream_ack w e.1 Ha) as (w1 & -> & Ha1 & Hu1 & Hp1).
    destruct (IH acc w1 Ha1 Hn) as (w2 & H2 & Ha2 & Hu2 & Hp2). exists w2.
    fold (without e.1 (pending w)) in Hp1. rewrite Hp1 in H2, Hp2. rewrite as_delivered_without in H2 by done.
    split; [exact H2|]. split; [done|]. split; [congruence|]. rewrite Hp2. unfold drop_poison. simpl. by rewrite E.
Qed.

Lemma drop_poison_keeps es l p :
  p ∈ l -> (forall e, e ∈ es -> e.1 = pe_id p -> exists v, read_envelope e.2 = Ok v) -> p ∈ drop_poison es l.
Proof.
  revert l. unfold drop_poison. induction es as [|e es IH]; intros l Hp Hr; simpl; [done|]. apply IH.
  - destruct (read_envelope e.2) as [v|ex] eqn:E; [done|]. apply without_in. split; [done|].
    intros Hi. destruct (Hr e) as (v & Hv); [left|done|congruence].
  - intros e' He'. apply Hr. by right.
Qed.

Lemma drop_poison_sub es l p : p ∈ drop_poison es l -> p ∈ l.
Proof.
  unfold drop_poison. revert l. induction es as [|e es IH]; intros l; simpl; [done|]. intros H. apply IH in H.
  destruct (read_envelope e.2); [done|]. by apply without_in in H as [H _].
Qed.

Lemma drop_poison_gone es l e :
  e ∈ es -> decoded e = None -> e.1 ∉ map pe_id (drop_poison es l).
Proof.
  unfold drop_poison, decoded. intros He Hd. revert l. induction es as [|e' es IH]; intros l; [by apply elem_of_nil in He|].
  simpl. apply elem_of_cons in He as [<-|He]; [|by apply IH].
  destruct (read_envelope e.2) as [v|ex]; [done|]. intros (p & Hi & Hp)%list_elem_of_fmap.
  apply (drop_poison_sub es) in Hp. apply without_in in Hp as [_ Hp]. by rewrite Hi in Hp.
Qed.

Lemma drop_poison_ids es l i : i ∈ map pe_id (drop_poison es l) -> i ∈ map pe_id l.
Proof. intros (p & -> & Hp)%list_elem_of_fmap. apply list_elem_of_fmap. exists p. split; [done|]. by apply drop_poison_sub in Hp. Qed.

Lemma omap_as_delivered l es : map (fun m => (dm_entry_id m, dm_envelope m)) (omap (as_delivered l) es) = omap decoded es.
Proof.
  induction es as [|e es IH]; [done|]. rewrite !omap_step. unfold as_delivered at 1, decoded at 1.
  destruct (read_envelope e.2); cbn [map]; by rewrite IH.
Qed.

Lemma as_delivered_in l (es : list (string * option fields)) m : m ∈ omap (as_delivered l) es ->
  exists e, e ∈ es /\ e.1 = dm_entry_id m /\ read_envelope e.2 = Ok (dm_envelope m) /\ dm_delivery_count m = count_of l e.1.
Proof.
  induction es as [|e es IH]; [by intros Hm%elem_of_nil|]. rewrite omap_step. unfold as_delivered at 1.
  destruct (read_envelope e.2) as [v|ex] eqn:E.
  - intros [->|Hm]%elem_of_cons; [exists e; split; [left|done]|].
    destruct (IH Hm) as (e' & He' & Hr). exists e'. split; [by right|done].
  - intros Hm. destruct (IH Hm) as (e' & He' & Hr). exists e'. split; [by right|done].
Qed.

Lemma entry_ids n l : map fst (map entry_of (own_batch c n l)) = map pe_id (own_batch c n l).
Proof. by rewrite map_map. Qed.

(** The two reads and what they leave pending. *)
Lemma claim_batch_run blk w :
  answers w ->
  let n := Z.to_nat batch in
  let own := map entry_of (own_batch c n (pending w)) in let new := take n (unread w) in
  let p1 := bump c n (pending w) in
  let p3 := drop_poison own p1 ++ map (fun e => mkPending e.1 c 1 e.2) new in
  exists w', claim_batch c batch block blk w =
      (Ok (omap (as_delivered p1) own ++ omap (as_delivered p3) new), w') /\ answers w' /\
    unread w' = drop n (unread w) /\ pending w' = drop_poison new p3 /\ NoDup (map pe_id p3).
Proof.
  intros Ha n own new p1 p3. pose proof (stream_ids w Ha) as Hids. apply NoDup_app in Hids as (Hnp & _ & Hnu).
  unfold claim_batch, bind at 1, ensure_group, try_except at 1.
  destruct (stream_create w Ha) as (w0 & -> & Ha0 & Hu0 & Hp0). cbn -[for_each].
  set (blk' := default block blk). cbn [for_each]. unfold bind at 1 2, read_for_id, try_except.
  destruct (stream_read_own w0 c batch blk' Ha0 Hbatch) as (w1 & -> & Ha1 & Hu1 & Hp1).
  rewrite Hp0 in Hp1 |- *. fold n own in Hp1 |- *. fold p1 in Hp1.
  destruct (claim_entries own [] w1 Ha1) as (w2 & H2 & Ha2 & Hu2 & Hp2).
  { unfold own. rewrite entry_ids. by apply own_batch_NoDup. }
  rewrite H2. cbv iota beta. unfold bind at 1, bind at 1.
  destruct (stream_read_new w2 c batch blk' Ha2 Hbatch) as (w3 & -> & Ha3 & Hu3 & Hp3).
  assert (unread w2 = unread w) as Euw by congruence. rewrite Euw in Hu3, Hp3 |- *. fold n new in Hu3, Hp3 |- *.
  assert (NoDup (map fst new)) as Hnn.
  { unfold new. apply (sublist_NoDup _ (fst <$> unread w)); [done|]. apply fmap_sublist, sublist_take. }
  destruct (claim_entries new ([] ++ omap (as_delivered (pending w1)) own) w3 Ha3 Hnn) as (w4 & H4 & Ha4 & Hu4 & Hp4).
  rewrite H4. cbv iota beta. unfold ret. cbn [app].
  rewrite Hp2, Hp1 in Hp3. fold p3 in Hp3. rewrite Hp1, Hp3 in *.
  exists w4. split; [done|]. split; [done|]. split; [congruence|]. split; [done|].
  pose proof (stream_ids w3 Ha3) as Hn3. rewrite Hp3 in Hn3. by apply NoDup_app in Hn3 as (Hn3 & _).
Qed.

Lemma entry_of_in e l : e ∈ map entry_of l -> exists p, p ∈ l /\ e = entry_of p.
Proof. intros H. apply list_elem_of_fmap in H as (p & -> & Hp). by exists p. Qed.

(** New entries are not pending yet. *)
Lemma batch_fresh w n : answers w -> forall p, p ∈ pending w -> pe_id p ∉ map fst (take n (unread w)).
Proof.
  intros Ha p Hp Hin. pose proof (stream_ids w Ha) as Hids. apply NoDup_app in Hids as (_ & Hdis & _).
  apply (Hdis (pe_id p)); [apply list_elem_of_fmap; by exists p|].
  apply list_elem_of_fmap in Hin as (e & -> & He). apply list_elem_of_fmap.
  exists e. split; [done|]. by apply (subseteq_take n) in He.
Qed.

(** The batch has no entry of another consumer. *)
Lemma own_batch_other n w p :
  answers w -> p ∈ pending w -> pe_consumer p <> c -> forall p', p' ∈ own_batch c n (pending w) -> pe_id p' <> pe_id p.
Proof.
  intros Ha Hp Hpc p' Hp' Hi. apply own_batch_in in Hp' as [Hp'w Hc']. pose proof (stream_ids w Ha) as Hids.
  apply NoDup_app in Hids as (Hn & _). assert (p' = p) by (by apply (nodup_map_inj pe_id (pending w))). congruence.
Qed.

(** C37: one [claim_batch] of a consumer returns exactly the readable entries among
    the oldest ones still pending on it and the oldest new ones, in that order, each
    with its delivery count: one for a new entry, one more than before for a
    redelivered one.  Everything returned stays pending on this consumer until it is
    acknowledged, so a crash loses none of it; an unreadable entry among them is
    acknowledged, so that it is pending on nobody afterwards.  What is pending on another consumer is neither returned nor changed. *)
Theorem claim_batch_spec blk w :
  answers w ->
  let n := Z.to_nat batch in
  let own := own_batch c n (pending w) in let new := take n (unread w) in
  exists delivered w', claim_batch c batch block blk w = (Ok delivered, w') /\ answers w' /\
    unread w' = drop n (unread w) /\
    map (fun m => (dm_entry_id m, dm_envelope m)) delivered = omap decoded (map entry_of own ++ new) /\
    (forall m, m ∈ delivered ->
       (exists p, p ∈ pending w' /\ pe_id p = dm_entry_id m /\ pe_consumer p = c /\
                  pe_count p = dm_delivery_count m) /\
       ((exists p, p ∈ own /\ pe_id p = dm_entry_id m /\ dm_delivery_count m = pe_count p + 1) \/
        (dm_entry_id m ∈ map fst new /\ dm_delivery_count m = 1))) /\
    (forall e, e ∈ map entry_of own ++ new -> decoded e = None -> e.1 ∉ map pe_id (pending w')) /\
    (forall p, p ∈ pending w -> pe_consumer p <> c ->
       p ∈ pending w' /\ pe_id p ∉ map dm_entry_id delivered).
Proof.
  intros Ha n own new. destruct (claim_batch_run blk w Ha) as (w' & Hrun & Ha' & Hu & Hp & Hn3).
  fold n new in Hrun, Hu, Hp, Hn3. fold own in Hrun, Hp, Hn3. set (p1 := bump c n (pending w)) in *.
  set (p3 := drop_poison (map entry_of own) p1 ++ _) in *.
  pose proof (stream_ids w Ha) as Hids. apply NoDup_app in Hids as (Hnp & Hdis & Hnu).
  assert (NoDup (map pe_id p1)) as Hn1 by (unfold p1; by rewrite bump_ids).
  assert (NoDup (map fst new)) as Hnn.
  { unfold new. apply (sublist_NoDup _ (fst <$> unread w)); [done|]. apply fmap_sublist, sublist_take. }
  pose proof (batch_fresh w n Ha) as Hfresh. fold new in Hfresh.
  assert (forall p, p ∈ p1 -> pe_id p ∉ map fst new ->
    (forall e, e ∈ map entry_of own -> e.1 = pe_id p -> exists v, read_envelope e.2 = Ok v) -> p ∈ pending w') as Hkeep.
  { intros p Hp1 Hf Hr. rewrite Hp. apply drop_poison_keeps.
    - apply elem_of_app. left. by apply drop_poison_keeps.
    - intros e He Hi. exfalso. apply Hf. rewrite <- Hi. apply list_elem_of_fmap. by exists e. }
  eexists _, w'. split; [exact Hrun|]. split; [done|]. split; [done|]. split; [|split; [|split]].
  - rewrite map_app, !omap_as_delivered. symmetry. apply omap_app.
  - intros m [Hm|Hm]%elem_of_app; apply as_delivered_in in Hm as (e & He & Hi & Hr & Hcnt).
    + destruct (entry_of_in e own He) as (p & Hpo & ->). pose proof (own_batch_in _ _ _ _ Hpo) as [Hpw Hpc].
      assert (redelivered p ∈ p1) as Hp1' by by apply bump_own.
      pose proof (count_of_in p1 (redelivered p) Hn1 Hp1') as Hc. simpl in Hc, Hcnt, Hi. rewrite Hc in Hcnt.
      split; [|left; by exists p]. exists (redelivered p). split; [|by rewrite Hcnt].
      apply Hkeep; [done|exact (Hfresh p Hpw)|]. intros e' He' Hi'. destruct (entry_of_in e' own He') as (p' & Hp' & ->). simpl in Hi'.
      assert (p' = p) as -> by (apply (nodup_map_inj pe_id own); [by apply own_batch_NoDup|done..]). eauto.
    + assert (mkPending e.1 c 1 e.2 ∈ p3) as Hp3' by (apply elem_of_app; right; apply list_elem_of_fmap; by exists e).
      pose proof (count_of_in p3 _ Hn3 Hp3') as Hc. simpl in Hc. rewrite Hc in Hcnt.
      split; [|right; split; [rewrite <- Hi; apply list_elem_of_fmap; by exists e|done]].
      exists (mkPending e.1 c 1 e.2). split; [|by rewrite Hcnt, <- Hi]. rewrite Hp. apply drop_poison_keeps; [exact Hp3'|].
      intros e' He' Hi'. simpl in Hi'. assert (e' = e) as -> by (by apply (nodup_map_inj fst new)). eauto.
  - intros e [He|He]%elem_of_app Hd; rewrite Hp; [|by apply drop_poison_gone].
    intros Hin%drop_poison_ids. unfold p3 in Hin. rewrite map_app in Hin. apply elem_of_app in Hin as [Hin|Hin].
    + by apply (drop_poison_gone _ p1 _ He Hd) in Hin.
    + destruct (entry_of_in e own He) as (p & Hpo & ->). apply own_batch_in in Hpo as [Hpw _].
      rewrite map_map in Hin. by apply (Hfresh p Hpw) in Hin.
  - intros p Hpw Hpc. pose proof (own_batch_other n w p Ha Hpw Hpc) as Hne. fold own in Hne. split.
    + apply Hkeep; [by apply bump_other|by apply Hfresh|]. intros e He Hi.
      destruct (entry_of_in e own He) as (p' & Hp' & ->). exfalso. by apply (Hne p' Hp').
    + intros Hin. apply list_elem_of_fmap in Hin as (m & Hi & Hm).
      apply elem_of_app in Hm as [Hm|Hm]; apply as_delivered_in in Hm as (e & He & Hi' & _).
      * destruct (entry_of_in e own He) as (p' & Hp' & ->). apply (Hne p' Hp'). simpl in Hi'. congruence.
      * apply (Hfresh p Hpw). rewrite Hi, <- Hi'. apply list_elem_of_fmap. by exists e.
Qed.
End BatchFacts.

(** ** A stream in memory *)

Record MemStream : Type := mkMemStream { ms_unread : list (string * option fields); ms_pending : list PendingEntry }.

Fixpoint long_id (l : list string) : string :=
  match l with [] => "0" | i :: l' => i +:+ long_id l' end.

#[local] Instance mem_stream : StreamOps MemStream := {|
  xgroup_create := fun w => (Err busygroup, w);
  xadd f _ := fun w =>
    let i := long_id (map pe_id (ms_pending w) ++ map fst (ms_unread w)) in
    (Ok i, mkMemStream (ms_unread w ++ [(i, Some f)]) (ms_pending w));
  xreadgroup c start n _ := fun w =>
    let k := Z.to_nat n in
    if String.eqb start ">" then
      let new := take k (ms_unread w) in
      (Ok new, mkMemStream (drop k (ms_unread w)) (ms_pending w ++ map (fun e => mkPending e.1 c 1 e.2) new))
    else (Ok (map entry_of (own_batch c k (ms_pending w))), mkMemStream (ms_unread w) (bump c k (ms_pending w)));
  xack i := fun w => (Ok tt, mkMemStream (ms_unread w) (without i (ms_pending w)));
  xpending_range i := fun w => (Ok (map pe_count (List.filter (fun p => String.eqb (pe_id p) i) (ms_pending w))), w);
  unread := ms_unread;
  pending := ms_pending
|}.

Definition mem_ids (w : MemStream) : list string := map pe_id (ms_pending w) ++ map fst (ms_unread w).
Definition mem_answers (w : MemStream) : Prop := NoDup (mem_ids w).

Lemma long_id_length l i : i ∈ l -> (String.length i < String.length (long_id l))%nat.
Proof.
  assert (forall l, 0 < String.length (long_id l))%nat as Hpos.
  { induction l0 as [|x l0 IH]; simpl; [lia|]. rewrite Utf8.length_app_str. lia. }
  induction l as [|x l IH]; [by intros H%elem_of_nil|]. simpl. rewrite Utf8.length_app_str.
  intros [->|H]%elem_of_cons; [specialize (Hpos l); lia|]. specialize (IH H). lia.
Qed.

#[local] Instance mem_laws : StreamLaws MemStream mem_answers.
Proof.
  split; unfold mem_answers, mem_ids.
  - done.
  - intros w Ha. by exists w.
  - intros w c n b Ha Hn. eexists. split; [done|]. split; [|done]. simpl.
    rewrite map_app, map_map. simpl. rewrite <- app_assoc.
    assert (map fst (take (Z.to_nat n) (ms_unread w)) ++ map fst (drop (Z.to_nat n) (ms_unread w)) =
            map fst (ms_unread w)) as E by (rewrite <- map_app; by rewrite take_drop).
    rewrite <- E in Ha. exact Ha.
  - intros w c n b Ha Hn. eexists. split; [done|]. split; [|done]. simpl. by rewrite bump_ids.
  - intros w i Ha. eexists. split; [done|]. split; [|done]. simpl.
    apply (sublist_NoDup _ _ Ha). apply sublist_app; [|done]. apply (fmap_sublist pe_id). unfold without.
    clear Ha. induction (ms_pending w) as [|p l IH]; simpl; [done|].
    destruct (negb _); [by apply sublist_skip|by apply sublist_cons].
  - intros w i Ha. by exists w.
  - intros w f m Ha. eexists _, _. split; [done|]. split; [|done]. simpl. rewrite map_app, app_assoc. simpl.
    apply NoDup_app. split; [done|]. split; [|apply NoDup_singleton]. intros i Hi Hin.
    apply list_elem_of_singleton in Hin as ->. apply long_id_length in Hi. lia.
Qed.

Definition demo_envelope : MessageEnvelope :=
  mkEnvelope "m1" "task.commands" "acme" "tr1" "k1" None None (Some "t1") None None None "task" [] 0 1 1.

#[local] Instance demo_json : EnvelopeJson := {|
  model_dump_json _ := "m1";
  model_validate_json s := if String.eqb s "m1" then Ok demo_envelope else Err (ValueError "json")
|}.

#[local] Instance demo_json_laws : EnvelopeJsonLaws.
Proof. split. intros s ex. simpl. destruct (String.eqb s "m1"); [done|by intros [= <-]]. Qed.

(** A published command, an unreadable entry and a command left pending on another
    consumer. *)
Definition demo_stream : MemStream :=
  (publish DEFAULT_STREAM_PREFIX None demo_envelope
     (mkMemStream [("1-0", Some [("junk", "x")])] [mkPending "0-1" "dead" 1 (Some (envelope_to_fields demo_envelope))])).2.

Lemma claim_batch_spec_witness :
  exists delivered w', claim_batch "worker" 16 1000 None demo_stream = (Ok delivered, w') /\
    map dm_envelope delivered = [demo_envelope] /\ map dm_delivery_count delivered = [1] /\
    mkPending "0-1" "dead" 1 (Some (envelope_to_fields demo_envelope)) ∈ pending w' /\
    "1-0" ∉ map pe_id (pending w') /\
    exists again w2, claim_batch "worker" 16 1000 None w' = (Ok again, w2) /\ map dm_delivery_count again = [2].
Proof.
  assert (mem_answers demo_stream) as Ha by (apply (bool_decide_unpack _); vm_compute; exact I).
  destruct (claim_batch_spec mem_answers "worker" 16 1000 ltac:(lia) None demo_stream Ha)
    as (delivered & w' & Hc & _ & _ & _ & _ & Hgone & Ho).
  destruct (Ho (mkPending "0-1" "dead" 1 (Some (envelope_to_fields demo_envelope)))) as [Hin _];
    [vm_compute; left|discriminate|].
  specialize (Hgone ("1-0", Some [("junk", "x")]) ltac:(vm_compute; left) eq_refl). simpl in Hgone.
  exists delivered, w'. split; [exact Hc|]. vm_compute in Hc. injection Hc as <- <-.
  split; [reflexivity|]. split; [reflexivity|]. split; [exact Hin|]. split; [exact Hgone|].
  eexists _, _. split; [vm_compute; reflexivity|reflexivity].
Defined.
