(* ===== verification/Langfuse.v ===== *)
(** * Langfuse: the copy of a trajectory that leaves the platform

    [infra/observability/langfuse_exporter.py].  The client of the third party is
    a port: a trace id from a seed, an observation that is entered and left, an
    update and a flush, each of which may fail.  A [with] block leaves its
    observation on every way out.  The division of the cost is a parameter.  The
    allow-list of audit fields is a Python set; its order, which decides the order
    of the keys only, is that of the listing. *)

From S2P Require Import Prelude PyText Utf8 Domain Worker Configs.
Import Utf8.

Record LangfuseConfig : Type := mkLangfuseConfig {
  lf_host : string; lf_public_key : string; lf_secret_key : string
}.
(** [(source.get(k) or d)]. *)
Definition env_or (env : environ) (k d : string) : string :=
  match dget env k with Some v => if nonempty v then v else d | None => d end.
Definition langfuse_from_env (env : environ) : res (option LangfuseConfig) :=
  let public_key := py_strip (env_or env "LANGFUSE_PUBLIC_KEY" "") in
  let secret_key := py_strip (env_or env "LANGFUSE_SECRET_KEY" "") in
  if negb (nonempty public_key) && negb (nonempty secret_key) then Ok None
  else if negb (nonempty public_key) || negb (nonempty secret_key) then
    Err (LangfuseExporterError "both LANGFUSE_PUBLIC_KEY and LANGFUSE_SECRET_KEY must be set for Langfuse export")
  else Ok (Some (mkLangfuseConfig
         (OpenRouter.str_rstrip_char 47 (py_strip (env_or env "LANGFUSE_HOST" "https://cloud.langfuse.com")))
         public_key secret_key)).
Definition langfuse_require_from_env (env : environ) : res LangfuseConfig :=
  let? c := langfuse_from_env env in
  match c with
  | Some c => Ok c
  | None => Err (LangfuseExporterError "missing Langfuse config: set LANGFUSE_PUBLIC_KEY and LANGFUSE_SECRET_KEY")
  end.

(** ** Projections of a record *)

Definition drop_none (d : dict) : dict :=
  List.filter (fun kv => match kv.2 with JNull => false | _ => true end) d.
Definition string_or_none (v : json) : json :=
  match v with JStr s => if nonempty s then JStr s else JNull | _ => JNull end.
Definition int_or_none (v : json) : json := match v with JInt n => JInt n | _ => JNull end.
Definition str_field (item : dict) (k : string) : json := string_or_none (getd item k).
Definition int_field (item : dict) (k : string) : json := int_or_none (getd item k).
(** [a or b] of two such strings. *)
Definition or_none (a b : json) : json := match a with JNull => b | _ => a end.

(** [isinstance(raw, Sequence)] and the elements that are mappings. *)
Definition trajectory_items (trajectory : dict) : list dict :=
  match dget trajectory "items" with
  | Some (JList l) => omap as_dict l
  | _ => []
  end.

Definition scalar (v : json) : bool := match v with JList _ | JDict _ => false | _ => true end.
Definition AUDIT_FIELDS : list string :=
  ["tool_name"; "agent_step"; "duration_ms"; "output_bytes"; "error_excerpt"; "error_category";
   "error_message"; "gate_id"; "permission_outcome"].
Definition METADATA_FIELDS : list string := ["exit_code"; "permission_outcome"].
Definition ARGUMENT_FIELDS : list string := ["path"; "command"; "test_command"].
(** [value[:500]]. *)
Definition first_500 (s : string) : string := concat_str (take 500 (code_points s)).

Definition pick (keep : json -> option json) (prefix : string) (fields : list string) (from out : dict) : dict :=
  fold_left (fun out k => match keep (getd from k) with
                          | Some v => dset out (prefix +:+ k) v
                          | None => out
                          end) fields out.
Definition keep_scalar (v : json) : option json := if scalar v then Some v else None.
Definition keep_text (v : json) : option json := match v with JStr s => Some (JStr (first_500 s)) | _ => None end.
Definition safe_audit_payload (payload : dict) : dict :=
  let out := pick keep_scalar "" AUDIT_FIELDS payload [] in
  let out := match getd payload "metadata" with
             | JDict m => pick keep_scalar "metadata." METADATA_FIELDS m out
             | _ => out
             end in
  match getd payload "arguments" with
  | JDict a => pick keep_text "arg." ARGUMENT_FIELDS a out
  | _ => out
  end.

(** ** The observations *)

Section Exporter.
Context (usd_of_micros : Z -> json).

Definition usage_observation (item : dict) : dict :=
  let usage_details := drop_none
    [("input_tokens", int_field item "prompt_tokens"); ("output_tokens", int_field item "completion_tokens");
     ("total_tokens", int_field item "total_tokens")] in
  [("name", JStr (match str_field item "step_kind" with JStr k => "llm:" +:+ k | _ => "llm" end));
   ("as_type", JStr "generation");
   ("model", or_none (str_field item "model") (str_field item "requested_model"));
   ("input", str_field item "prompt_excerpt");
   ("usage_details", match usage_details with [] => JNull | d => JDict d end);
   ("cost_details", match int_field item "cost_usd_micros" with
                    | JInt n => JDict [("total", usd_of_micros n)]
                    | _ => JNull
                    end);
   ("metadata", JDict (drop_none
      [("kind", JStr "usage"); ("record_id", str_field item "record_id"); ("provider", str_field item "provider");
       ("requested_model", str_field item "requested_model"); ("status", str_field item "status");
       ("error_category", str_field item "error_category"); ("error_message", str_field item "error_message");
       ("prompt_id", str_field item "prompt_id"); ("prompt_version", getd item "prompt_version");
       ("step_kind", str_field item "step_kind"); ("occurred_at", str_field item "occurred_at");
       ("latency_ms", int_field item "latency_ms")]))].

Definition audit_observation (item : dict) : dict :=
  let action := match str_field item "action" with JStr a => a | _ => "audit" end in
  let payload := safe_audit_payload (match getd item "payload" with JDict p => p | _ => [] end) in
  [("name", JStr (match as_nonempty_str (getd payload "tool_name") with
                  | Some t => action +:+ ":" +:+ t
                  | None => action
                  end));
   ("as_type", JStr (if String.prefix "tool." action then "tool" else "span"));
   ("metadata", JDict (drop_none (dupdate
      [("kind", JStr "audit"); ("event_id", str_field item "event_id"); ("action", JStr action);
       ("occurred_at", str_field item "occurred_at")] payload)))].

Definition checkpoint_observation (item : dict) : dict :=
  let node_name := or_none (str_field item "node_name") (str_field item "current_node") in
  [("name", JStr ("checkpoint:" +:+ match node_name with JStr n => n | _ => "unknown" end));
   ("as_type", JStr "span");
   ("metadata", JDict (drop_none
      [("kind", JStr "checkpoint"); ("checkpoint_id", str_field item "checkpoint_id");
       ("sequence", int_field item "sequence"); ("node_name", node_name);
       ("awaiting_approval", getd item "awaiting_approval"); ("finished", getd item "finished");
       ("occurred_at", str_field item "occurred_at")]))].

(** What an item is exported as; other kinds are passed over. *)
Definition item_observation (item : dict) : option dict :=
  if is_str (getd item "kind") "usage" then Some (usage_observation item)
  else if is_str (getd item "kind") "audit" then Some (audit_observation item)
  else if is_str (getd item "kind") "checkpoint" then Some (checkpoint_observation item)
  else None.

Definition root_observation (task_id meta_trace_id trace_id : string) (task trajectory : dict) : dict :=
  [("trace_context", JDict [("trace_id", JStr trace_id)]);
   ("name", JStr ("meta-agent task " +:+ task_id)); ("as_type", JStr "span");
   ("input", JDict [("task_id", JStr task_id); ("task_type", getd task "task_type")]);
   ("metadata", JDict (drop_none
      [("source", JStr "meta-agent"); ("task_id", JStr task_id); ("meta_agent_trace_id", JStr meta_trace_id);
       ("tenant_id", str_field task "tenant_id"); ("task_type", str_field task "task_type");
       ("state", str_field task "state"); ("result_status", str_field task "result_status");
       ("failure_category", str_field task "failure_category"); ("failure_kind", str_field task "failure_kind");
       ("error_code", str_field task "error_code"); ("node_sequence", int_field task "node_sequence");
       ("permission_mode", str_field task "permission_mode"); ("budget_policy", str_field task "budget_policy");
       ("truncated", JBool (truthy (getd trajectory "truncated")))]))].

Record LangfuseClient (W : Type) : Type := mkLangfuseClient {
  lc_create_trace_id : string -> M W string;
  lc_enter : dict -> M W unit;
  lc_leave : M W unit;
  lc_update : dict -> M W unit;
  lc_flush : M W unit
}.
Arguments lc_create_trace_id {W}. Arguments lc_enter {W}. Arguments lc_leave {W}.
Arguments lc_update {W}. Arguments lc_flush {W}.

Context {W : Type} (client_factory : LangfuseConfig -> M W (LangfuseClient W)) (config : LangfuseConfig).

(** [with client.start_as_current_observation(...): body]. *)
Definition observed {A} (client : LangfuseClient W) (kwargs : dict) (body : M W A) : M W A :=
  lc_enter client kwargs ;;; try_finally body (lc_leave client).

Definition export_item (client : LangfuseClient W) (item : dict) (count : Z) : M W Z :=
  match item_observation item with
  | None => ret count
  | Some kwargs => observed client kwargs (ret tt) ;;; ret (count + 1)
  end.

Definition export_task (task_id : string) (task : dict) (trajectory : json) : M W (string * Z) :=
  client <- client_factory config ;;
  let trajectory := match trajectory with JDict d => d | _ => [] end in
  let meta_trace_id := match str_field task "trace_id" with JStr s => s | _ => task_id end in
  trace_id <- lc_create_trace_id client meta_trace_id ;;
  count <- observed client (root_observation task_id meta_trace_id trace_id task trajectory)
    (n <- for_each (trajectory_items trajectory) 1 (export_item client) ;;
     lc_update client [("output", JDict [("observations", JInt n); ("truncated", getd trajectory "truncated")])] ;;;
     ret n) ;;
  lc_flush client ;;;
  ret (trace_id, count).
End Exporter.

(** ** What leaves, and what does not *)

Lemma pick_same keep prefix fields : forall from from' out,
  Forall (fun k => keep (getd from k) = keep (getd from' k)) fields ->
  pick keep prefix fields from out = pick keep prefix fields from' out.
Proof.
  induction fields as [|k fields IH]; intros from from' out Hk; [done|].
  inversion_clear Hk as [|? ? H1 H2]. unfold pick in *. simpl. rewrite H1. by apply IH.
Qed.

(** Two sub-dictionaries that agree on the fields that are read. *)
Definition same_sub (keep : json -> option json) (fields : list string) (v v' : json) : Prop :=
  match v, v' with
  | JDict d, JDict d' => Forall (fun k => keep (getd d k) = keep (getd d' k)) fields
  | JDict _, _ | _, JDict _ => False
  | _, _ => True
  end.
Definition same_public (p p' : dict) : Prop :=
  Forall (fun k => keep_scalar (getd p k) = keep_scalar (getd p' k)) AUDIT_FIELDS /\
  same_sub keep_scalar METADATA_FIELDS (getd p "metadata") (getd p' "metadata") /\
  same_sub keep_text ARGUMENT_FIELDS (getd p "arguments") (getd p' "arguments").

(** The payload of an audit event reaches the exporter's client through the
    allow-list alone: payloads that agree on it, and on the first 500 characters
    of the three arguments, are exported alike, whatever else they hold. *)
Theorem audit_export_allow_listed p p' : same_public p p' -> safe_audit_payload p = safe_audit_payload p'.
Proof.
  intros (H1 & H2 & H3). unfold safe_audit_payload. rewrite (pick_same _ _ _ p p' [] H1).
  set (out := pick keep_scalar "" AUDIT_FIELDS p' []).
  assert (match getd p "metadata" with JDict m => pick keep_scalar "metadata." METADATA_FIELDS m out | _ => out end =
          match getd p' "metadata" with JDict m => pick keep_scalar "metadata." METADATA_FIELDS m out | _ => out end) as ->.
  { destruct (getd p "metadata"), (getd p' "metadata"); simpl in H2; try done. by apply pick_same. }
  destruct (getd p "arguments"), (getd p' "arguments"); simpl in H3; try done. by apply pick_same.
Qed.

(** A client that records what it is told. *)
Inductive LfEvent : Type :=
  | Entered (kwargs : dict)
  | Left
  | Updated (kwargs : dict)
  | Flushed.
Definition recorder (id_of : string -> string) : LangfuseClient (list LfEvent) :=
  let say e : M (list LfEvent) unit := fun w => (Ok tt, w ++ [e]) in
  mkLangfuseClient _ (fun seed w => (Ok (id_of seed), w)) (fun k => say (Entered k)) (say Left)
    (fun k => say (Updated k)) (say Flushed).

Definition exported_items (usd_of_micros : Z -> json) (items : list dict) : list dict :=
  omap (item_observation usd_of_micros) items.

Lemma export_items_recorded usd id_of items : forall n w,
  for_each items n (export_item usd (recorder id_of)) w =
  (Ok (n + Z.of_nat (length (exported_items usd items))),
   w ++ concat (map (fun k => [Entered k; Left]) (exported_items usd items))).
Proof.
  induction items as [|item items IH]; intros n w; cbn [for_each].
  - unfold ret. rewrite app_nil_r. simpl. do 2 f_equal. lia.
  - unfold exported_items in *. unfold bind, export_item at 1.
    change (omap (item_observation usd) (item :: items)) with
      (match item_observation usd item with Some y => y :: omap (item_observation usd) items
       | None => omap (item_observation usd) items end).
    destruct (item_observation usd item) as [k|].
    + cbn -[for_each item_observation Z.add]. rewrite IH. simpl. rewrite <- !app_assoc. do 2 f_equal. lia.
    + cbn -[for_each item_observation]. by rewrite IH.
Qed.

(** An export whose client does not fail sends the root observation, then one
    closed observation per usage, audit and checkpoint item in the order of the
    trajectory, then the totals, and reports their number. *)
Theorem export_task_recorded usd id_of config task_id task trajectory w :
  let seed := match str_field task "trace_id" with JStr s => s | _ => task_id end in
  let obs := exported_items usd (trajectory_items trajectory) in
  let n := 1 + Z.of_nat (length obs) in
  export_task usd (fun _ => ret (recorder id_of)) config task_id task (JDict trajectory) w =
  (Ok (id_of seed, n),
   w ++ [Entered (root_observation task_id seed (id_of seed) task trajectory)]
     ++ concat (map (fun k => [Entered k; Left]) obs)
     ++ [Updated [("output", JDict [("observations", JInt n); ("truncated", getd trajectory "truncated")])];
         Left; Flushed]).
Proof.
  intros seed obs n. unfold export_task, observed. unfold bind at 1, ret at 1. unfold bind at 1.
  cbn [lc_create_trace_id recorder]. fold seed. unfold bind at 1. unfold bind at 1.
  cbn [lc_enter recorder]. unfold try_finally, bind at 1.
  rewrite (export_items_recorded usd id_of (trajectory_items trajectory) 1).
  cbn [lc_update lc_leave lc_flush recorder]. unfold bind, ret. subst obs n. by rewrite <- !app_assoc.
Qed.
