(* ===== verification/Cli.v ===== *)
(** * Cli: the command line and its HTTP client

    [cli/client.py], [cli/commands.py] and [cli/__main__.py].  The other end of the
    wire, [httpx] and the clock are a [Peer] with a state of its own: it opens a
    client, answers a request or fails in the transport, closes, and moves on
    while the command sleeps; each of these may raise anything else.  What the
    process sends, prints and waits for is recorded in [Term].

    [argparse] splits the arguments (its treatment of optional positionals
    differs between releases): [split] is that step and says which values were
    given before and after the name of the command.  Defaults, suppressed
    defaults and the merge of the two namespaces are modelled.  The polling loop
    of the code has no cap; [tail_until_terminal] takes fuel.  [json.loads] is a
    parameter, [json.dumps] is in [JsonText]. *)

From S2P Require Import Prelude PyText Utf8 JsonText Domain Worker Configs Langfuse.
Import Utf8.

(** ** [client.py] *)

Definition EXIT_OK : Z := 0.
Definition EXIT_USAGE : Z := 2.
Definition EXIT_NETWORK : Z := 3.
Definition EXIT_TASK_FAILED : Z := 4.
Definition TERMINAL_STATES : list string := ["succeeded"; "failed"; "cancelled"; "expired"].
Definition DEFAULT_API_URL : string := "http://localhost:8000".

Record CLIConfig : Type := mkCLIConfig { cc_api_url : string; cc_token : string }.

(** [x or y] of two optional strings. *)
Definition opt_or (x : option string) (y : string) : string :=
  match x with Some v => if nonempty v then v else y | None => y end.
Definition cli_config_from_env (api_url token : option string) (env : environ) : res CLIConfig :=
  let resolved_url := opt_or api_url (opt_or (dget env "META_AGENT_API_URL") DEFAULT_API_URL) in
  let resolved_token := opt_or token (env_get env "META_AGENT_TOKEN" "") in
  if negb (nonempty resolved_token)
  then Err (CLIError EXIT_USAGE "missing bearer token: set $META_AGENT_TOKEN or pass --token")
  else Ok (mkCLIConfig (OpenRouter.str_rstrip_char 47 resolved_url) resolved_token).

Record HttpRequest : Type := mkHttpRequest {
  hq_base : string; hq_authorization : string; hq_method : string; hq_path : string;
  hq_params : list (string * string); hq_json : option dict
}.
(** [hr_json] is [response.json()], or the text of its [ValueError]. *)
Record CliResponse : Type := mkCliResponse { hr_status : Z; hr_text : string; hr_json : string + json }.
Inductive CliReply : Type :=
  | Replied (r : CliResponse)
  | TransportError (msg : string).

Record Peer (S : Type) : Type := mkPeer {
  pr_open : CLIConfig -> M S unit;
  pr_send : HttpRequest -> M S CliReply;
  pr_close : M S unit;
  pr_sleep : Z -> M S unit
}.
Arguments mkPeer {S}. Arguments pr_open {S}. Arguments pr_send {S}. Arguments pr_close {S}. Arguments pr_sleep {S}.

Record Term (S : Type) : Type := mkTerm {
  tm_peer : S; tm_sent : list HttpRequest; tm_out : list string; tm_err : list string; tm_slept : list Z
}.
Arguments mkTerm {S}. Arguments tm_peer {S}. Arguments tm_sent {S}. Arguments tm_out {S}.
Arguments tm_err {S}. Arguments tm_slept {S}.

Definition http_error (resp : CliResponse) (expected : option string) : exn :=
  let detail :=
    match hr_json resp with
    | inr (JDict body) => match dget body "detail" with Some v => ": " +:+ py_str v | None => "" end
    | inr _ => ""
    | inl _ => if nonempty (hr_text resp)
               then ": " +:+ concat_str (take 200 (code_points (hr_text resp))) else ""
    end in
  let suffix := match expected with
                | Some e => if nonempty e then " (expected " +:+ e +:+ ")" else ""
                | None => ""
                end in
  CLIError (if hr_status resp <? 500 then EXIT_USAGE else EXIT_NETWORK)
    ("HTTP " +:+ pretty (hr_status resp) +:+ suffix +:+ detail).

Definition decode_or_raise (resp : CliResponse) : res dict :=
  if (200 <=? hr_status resp) && (hr_status resp <? 300) then
    match hr_json resp with
    | inl msg => Err (CLIError EXIT_NETWORK ("server returned non-JSON body: " +:+ msg))
    | inr (JDict body) => Ok body
    | inr _ => Err (CLIError EXIT_NETWORK "server response is not a JSON object")
    end
  else Err (http_error resp None).

Definition is_terminal_state (state : option string) : bool :=
  match state with Some s => existsb (String.eqb s) TERMINAL_STATES | None => false end.

(** ** The terminal *)

Section Client.
Context {S : Type} (peer : Peer S).

Definition on_peer {A} (f : M S A) : M (Term S) A := fun w =>
  let '(r, s) := f (tm_peer w) in (r, mkTerm s (tm_sent w) (tm_out w) (tm_err w) (tm_slept w)).
Definition print_out (line : string) : M (Term S) unit := fun w =>
  (Ok tt, mkTerm (tm_peer w) (tm_sent w) (tm_out w ++ [line +:+ newline]) (tm_err w) (tm_slept w)).
Definition print_err (line : string) : M (Term S) unit := fun w =>
  (Ok tt, mkTerm (tm_peer w) (tm_sent w) (tm_out w) (tm_err w ++ [line +:+ newline]) (tm_slept w)).
(** [await _sleep(d)], in microseconds. *)
Definition cli_sleep (d : Z) : M (Term S) unit := fun w =>
  on_peer (pr_sleep peer d) (mkTerm (tm_peer w) (tm_sent w) (tm_out w) (tm_err w) (tm_slept w ++ [d])).
Definition cli_send (q : HttpRequest) : M (Term S) CliReply := fun w =>
  on_peer (pr_send peer q) (mkTerm (tm_peer w) (tm_sent w ++ [q]) (tm_out w) (tm_err w) (tm_slept w)).

(** ** [TaskClient] *)

Context (cfg : CLIConfig).

Definition client_request (meth path : string) (params : list (string * string)) (body : option dict) : HttpRequest :=
  mkHttpRequest (cc_api_url cfg) ("Bearer " +:+ cc_token cfg) meth path params body.
(** What the four methods share: the request, the transport errors, the decoding. *)
Definition client_call (q : HttpRequest) : M (Term S) dict :=
  reply <- cli_send q ;;
  match reply with
  | TransportError msg => raise (CLIError EXIT_NETWORK ("network error reaching " +:+ cc_api_url cfg +:+ ": " +:+ msg))
  | Replied resp => lift (decode_or_raise resp)
  end.

Definition submit_body (task_type : string) (input_payload : dict) (idempotency_key session_id : option string) : dict :=
  [("task_type", JStr task_type); ("input_payload", JDict input_payload)] ++
  match idempotency_key with Some k => [("idempotency_key", JStr k)] | None => [] end ++
  match session_id with Some k => [("session_id", JStr k)] | None => [] end.
Definition client_submit_task (task_type : string) (input_payload : dict)
    (idempotency_key session_id : option string) : M (Term S) dict :=
  client_call (client_request "POST" "/v1/tasks" []
    (Some (submit_body task_type input_payload idempotency_key session_id))).
Definition client_get_task (task_id : string) : M (Term S) dict :=
  client_call (client_request "GET" ("/v1/tasks/" +:+ task_id) [] None).
Definition client_get_result (task_id : string) : M (Term S) dict :=
  client_call (client_request "GET" ("/v1/tasks/" +:+ task_id +:+ "/result") [] None).
Definition client_get_trajectory (task_id : string) (limit_per_source : Z) : M (Term S) dict :=
  client_call (client_request "GET" ("/v1/tasks/" +:+ task_id +:+ "/trajectory")
    [("limit_per_source", pretty limit_per_source)] None).

(** ** [_tail_until_terminal] *)

Definition state_of (task : dict) : option string := as_str (getd task "state").
Definition state_line (state : string) : string := "[state=" +:+ state +:+ "]".
Definition exit_of_state (state : option string) : Z :=
  if bool_decide (state = Some "succeeded") then EXIT_OK else EXIT_TASK_FAILED.

Fixpoint tail_until_terminal (fuel : nat) (task_id : string) (show_events : bool) (last_state : option string)
    : M (Term S) Z :=
  match fuel with
  | O => raise OutOfFuel
  | Datatypes.S fuel' =>
      task <- client_get_task task_id ;;
      let state := state_of task in
      match state with
      | Some st => if negb (bool_decide (state = last_state)) && show_events
                   then print_err (state_line st) else ret tt
      | None => ret tt
      end ;;;
      if is_terminal_state state then ret (exit_of_state state)
      else cli_sleep 1000000 ;;; tail_until_terminal fuel' task_id show_events state
  end.
End Client.

(** ** Rendering of [commands.py] *)

(** [v or d] in an f-string. *)
Definition or_text (v : json) (d : string) : string := if truthy v then py_str v else d.
Definition fget (item : dict) (k : string) (d : string) : string := or_text (getd item k) d.

Definition cli_int_or_zero (v : json) : Z := match v with JInt n => n | _ => 0 end.
(** The values reach this from decoded JSON, which [json.dumps] never rejects. *)
Definition render_json_compact (v : json) : string := dumps_compact v.

Definition render_tool_audit (occurred action : string) (payload : dict) : string :=
  let field (d : dict) (k label : string) :=
    match dget d k with Some v => [label +:+ "=" +:+ py_str v] | None => [] end in
  str_join " "
    ([occurred +:+ " " +:+ action +:+ " tool=" +:+ fget payload "tool_name" "-" +:+
        " step=" +:+ fget payload "agent_step" "-"] ++
     field payload "duration_ms" "duration_ms" ++
     field payload "output_bytes" "output_bytes" ++
     match getd payload "metadata" with
     | JDict m => field m "exit_code" "exit_code" ++ field m "permission_outcome" "permission"
     | _ => []
     end ++
     match getd payload "arguments" with
     | JDict ((_ :: _) as a) => ["args=" +:+ render_json_compact (JDict a)]
     | _ => []
     end).

Definition kind_is (k : string) (item : dict) : bool := is_str (getd item "kind") k.
Definition is_tool_action (action : string) : bool := String.prefix "tool." action.

Definition render_trace_item (item : dict) : string :=
  let occurred := match dget item "occurred_at" with Some v => py_str v | None => "?" end in
  if kind_is "usage" item then
    occurred +:+ " usage step=" +:+ fget item "step_kind" "-" +:+
    " model=" +:+ (if truthy (getd item "model") then py_str (getd item "model") else fget item "requested_model" "-") +:+
    " tokens=" +:+ fget item "total_tokens" "0" +:+
    " cost_usd_micros=" +:+ fget item "cost_usd_micros" "0" +:+
    " latency_ms=" +:+ fget item "latency_ms" "0" +:+
    " status=" +:+ fget item "status" "-"
  else if kind_is "checkpoint" item then
    occurred +:+ " checkpoint node=" +:+
    (if truthy (getd item "node_name") then py_str (getd item "node_name") else fget item "current_node" "-") +:+
    " seq=" +:+ fget item "sequence" "-"
  else if negb (kind_is "audit" item) then ""
  else
    let action := fget item "action" "-" in
    let payload := match getd item "payload" with JDict p => p | _ => [] end in
    if is_tool_action action then render_tool_audit occurred action payload
    else occurred +:+ " audit " +:+ action.

Definition trace_failure_diagnostics (tool_failures llm_failures : Z) : list string :=
  (if tool_failures =? 0 then []
   else ["category=tool_failed summary=" +:+ pretty tool_failures +:+
         " tool call(s) returned an error; inspect tool.failed events around the failing step."]) ++
  (if llm_failures =? 0 then []
   else ["category=llm_failed summary=" +:+ pretty llm_failures +:+
         " LLM call(s) failed; inspect usage rows with status != ok."]).

Definition trace_sum (k : string) (items : list dict) : Z :=
  foldr Z.add 0 (map (fun item => cli_int_or_zero (getd item k)) items).
Definition trace_count (f : dict -> bool) (items : list dict) : Z := Z.of_nat (length (List.filter f items)).
Definition is_tool_item (item : dict) : bool :=
  match getd item "action" with JStr a => is_tool_action a | _ => false end.
(** [str(item.get("status") or "").lower() not in {"ok", ""}]. *)
Definition llm_failed (item : dict) : bool :=
  let s := py_lower (or_text (getd item "status") "") in
  negb (String.eqb s "ok" || String.eqb s "").

(** The figures of the report. *)
Record TraceSummary : Type := mkTraceSummary {
  tf_llm_calls : Z; tf_tool_events : Z; tf_tool_failures : Z; tf_llm_failures : Z;
  tf_total_tokens : Z; tf_total_cost : Z; tf_total_latency : Z
}.
Definition trace_summary (items : list dict) : TraceSummary :=
  let usage_items := List.filter (kind_is "usage") items in
  let tool_items := List.filter is_tool_item (List.filter (kind_is "audit") items) in
  mkTraceSummary (Z.of_nat (length usage_items)) (Z.of_nat (length tool_items))
    (trace_count (fun i => is_str (getd i "action") "tool.failed") tool_items)
    (trace_count llm_failed usage_items)
    (trace_sum "total_tokens" usage_items) (trace_sum "cost_usd_micros" usage_items) (trace_sum "latency_ms" usage_items).

Definition summary_line (t : TraceSummary) : string :=
  "summary: llm_calls=" +:+ pretty (tf_llm_calls t) +:+ " tool_events=" +:+ pretty (tf_tool_events t) +:+
  " tool_failures=" +:+ pretty (tf_tool_failures t) +:+ " total_tokens=" +:+ pretty (tf_total_tokens t) +:+
  " cost_usd_micros=" +:+ pretty (tf_total_cost t) +:+ " llm_latency_ms=" +:+ pretty (tf_total_latency t).

Definition trace_lines (task_id : string) (raw : list json) (truncated : bool) : list string :=
  let items := omap as_dict raw in
  let t := trace_summary items in
  ["task trace: " +:+ task_id; summary_line t] ++
  match trace_failure_diagnostics (tf_tool_failures t) (tf_llm_failures t) with
  | [] => []
  | ds => "diagnostics:" :: map (fun l => "  " +:+ l) ds
  end ++
  (if truncated then ["warning: trajectory truncated by limit_per_source"] else []) ++
  ["" : string; "timeline:"] ++
  map (fun l => "  " +:+ l) (List.filter nonempty (map render_trace_item items)).
Definition render_trace_report (task_id : string) (items : list json) (truncated : bool) : string :=
  str_join newline (trace_lines task_id items truncated).

(** ** [__main__.py]: the parser *)

Inductive Command : Type := CmdSubmit | CmdTail | CmdTrace | CmdExportLangfuse | CmdRun.
#[global] Instance Command_eq_dec : EqDecision Command.
Proof. solve_decision. Defined.

Inductive ArgKind : Type :=
  | Required          (** a positional *)
  | Optional          (** [nargs="?"] *)
  | Valued            (** an option with a value *)
  | ValuedInt         (** [type=int] *)
  | StoreTrue
  | Append.           (** [action="append"]: repeatable *)
(** [arg_default = None] is [argparse.SUPPRESS]. *)
Record ArgSpec : Type := mkArg {
  arg_dest : string; arg_flags : list string; arg_kind : ArgKind; arg_default : option json
}.
Record Parser : Type := mkParser { ps_args : list ArgSpec; ps_commands : list (string * (list ArgSpec * Command)) }.

Definition add_global_args (suppress_default : bool) : list ArgSpec :=
  let dflt (v : json) := if suppress_default then None else Some v in
  [mkArg "api_url" ["--api-url"] Valued (dflt JNull);
   mkArg "token" ["--token"] Valued (dflt JNull);
   mkArg "verbose" ["--verbose"; "-v"] StoreTrue (dflt (JBool false))].
Definition add_task_args : list ArgSpec :=
  [mkArg "prompt" [] Optional (Some JNull);
   mkArg "task_type" ["--task-type"] Valued (Some (JStr "system_shell_agent"));
   mkArg "payload" ["--payload"] Valued (Some JNull);
   mkArg "idempotency_key" ["--idempotency-key"] Valued (Some JNull);
   mkArg "session_id" ["--session-id"] Valued (Some JNull)].

Definition build_parser : Parser :=
  let common := add_global_args true in
  let task_id := mkArg "task_id" [] Required (Some JNull) in
  let quiet := mkArg "quiet_events" ["--quiet-events"] StoreTrue (Some (JBool false)) in
  let limit := mkArg "limit_per_source" ["--limit-per-source"] ValuedInt (Some (JInt 1000)) in
  mkParser (add_global_args false)
    [("submit", (common ++ add_task_args, CmdSubmit));
     ("tail", (common ++ [task_id; quiet], CmdTail));
     ("trace", (common ++ [task_id; limit], CmdTrace));
     ("export-langfuse", (common ++ [task_id; limit], CmdExportLangfuse));
     ("run", (common ++ add_task_args ++ [quiet], CmdRun))].

(** [ArgumentParser.parse_args]: the namespace starts from the defaults that are
    not suppressed; a sub-parser fills a namespace of its own, which is then
    copied over the first. *)
Definition arg_defaults (args : list ArgSpec) : dict :=
  omap (fun a => (fun v => (arg_dest a, v)) <$> arg_default a) args.
Definition SystemExit : exn := ExternalError "SystemExit".
Definition parse_namespace (p : Parser) (before : dict) (command : string) (after : dict) : res (Command * dict) :=
  match dget (ps_commands p) command with
  | None => Err SystemExit
  | Some (args, func) =>
      let outer := dset (dupdate (arg_defaults (ps_args p)) before) "command" (JStr command) in
      Ok (func, dupdate outer (dupdate (arg_defaults args) after))
  end.

(** Attributes of a namespace. *)
Definition attr (args : dict) (k : string) : res json :=
  match dget args k with Some v => Ok v | None => Err (ExternalError "AttributeError") end.
Definition attr_opt (args : dict) (k : string) : res (option string) := let? v := attr args k in Ok (as_str v).
Definition attr_str (args : dict) (k : string) : res string :=
  let? v := attr args k in match v with JStr s => Ok s | _ => Err (TypeError k) end.
Definition attr_int (args : dict) (k : string) : res Z :=
  let? v := attr args k in match v with JInt n => Ok n | _ => Err (TypeError k) end.
Definition attr_bool (args : dict) (k : string) : res bool := let? v := attr args k in Ok (truthy v).

(** ** [commands.py]: the commands *)

Definition build_payload (loads : string -> string + json) (prompt payload_json : option string) : res dict :=
  match payload_json with
  | Some text =>
      match loads text with
      | inl msg => Err (CLIError 2 ("--payload is not valid JSON: " +:+ msg))
      | inr (JDict d) => Ok d
      | inr _ => Err (CLIError 2 "--payload must decode to a JSON object")
      end
  | None =>
      match prompt with
      | None => Err (CLIError 2 "either a prompt argument or --payload is required")
      | Some p => Ok [("user_prompt", JStr p)]
      end
  end.

(** [task.get("task_id")], which has to be a string. *)
Definition submitted_id (task : dict) : res string :=
  match getd task "task_id" with JStr s => Ok s | _ => Err (CLIError 2 "server response missing task_id") end.

Section Commands.
Context {S : Type} (peer : Peer S) (loads : string -> string + json) (env : environ).
Context (usd_of_micros : Z -> json) (client_factory : LangfuseConfig -> M (Term S) (LangfuseClient (Term S))).
Context (fuel : nat).

(** The submission [submit] and [run] share. *)
Definition submit_from_args (cfg : CLIConfig) (args : dict) : M (Term S) dict :=
  prompt <- lift (attr_opt args "prompt") ;;
  payload_json <- lift (attr_opt args "payload") ;;
  payload <- lift (build_payload loads prompt payload_json) ;;
  task_type <- lift (attr_str args "task_type") ;;
  idempotency_key <- lift (attr_opt args "idempotency_key") ;;
  session_id <- lift (attr_opt args "session_id") ;;
  client_submit_task peer cfg task_type payload idempotency_key session_id.

Definition cmd_submit (args : dict) (cfg : CLIConfig) : M (Term S) Z :=
  task <- submit_from_args cfg args ;;
  task_id <- lift (submitted_id task) ;;
  verbose <- lift (attr_bool args "verbose") ;;
  (if verbose then print_err ("task submitted: " +:+ task_id +:+ " (" +:+ py_str (getd task "state") +:+ ")")
   else ret tt) ;;;
  print_out task_id ;;;
  ret EXIT_OK.

Definition cmd_tail (args : dict) (cfg : CLIConfig) : M (Term S) Z :=
  task_id <- lift (attr_str args "task_id") ;;
  quiet <- lift (attr_bool args "quiet_events") ;;
  tail_until_terminal peer cfg fuel task_id (negb quiet) None.

Definition cmd_run (args : dict) (cfg : CLIConfig) : M (Term S) Z :=
  task <- submit_from_args cfg args ;;
  task_id <- lift (submitted_id task) ;;
  print_err ("task: " +:+ task_id) ;;;
  quiet <- lift (attr_bool args "quiet_events") ;;
  tail_until_terminal peer cfg fuel task_id (negb quiet) None.

Definition cmd_trace (args : dict) (cfg : CLIConfig) : M (Term S) Z :=
  task_id <- lift (attr_str args "task_id") ;;
  limit <- lift (attr_int args "limit_per_source") ;;
  page <- client_get_trajectory peer cfg task_id limit ;;
  let items := match dget page "items" with Some (JList l) => l | _ => [] end in
  print_out (render_trace_report task_id items (truthy (getd page "truncated"))) ;;;
  ret EXIT_OK.

Definition export_failed {A} (e : exn) : option (M (Term S) A) :=
  match e with LangfuseExporterError msg => Some (raise (CLIError 2 msg)) | _ => None end.
Definition cmd_export_langfuse (args : dict) (cfg : CLIConfig) : M (Term S) Z :=
  result <- try_except (
    config <- lift (langfuse_require_from_env env) ;;
    task_id <- lift (attr_str args "task_id") ;;
    task <- client_get_task peer cfg task_id ;;
    limit <- lift (attr_int args "limit_per_source") ;;
    trajectory <- client_get_trajectory peer cfg task_id limit ;;
    export_task usd_of_micros client_factory config task_id task (JDict trajectory)) export_failed ;;
  print_out ("langfuse export: trace_id=" +:+ result.1 +:+ " observations=" +:+ pretty result.2) ;;;
  ret EXIT_OK.

(** ** [__main__.py]: dispatch and exit codes *)

Definition run_command (func : Command) : dict -> CLIConfig -> M (Term S) Z :=
  match func with
  | CmdSubmit => cmd_submit | CmdTail => cmd_tail | CmdTrace => cmd_trace
  | CmdExportLangfuse => cmd_export_langfuse | CmdRun => cmd_run
  end.

Definition cli_dispatch (func : Command) (args : dict) : M (Term S) Z :=
  api_url <- lift (attr_opt args "api_url") ;;
  token <- lift (attr_opt args "token") ;;
  config <- lift (cli_config_from_env api_url token env) ;;
  on_peer (pr_open peer config) ;;;
  try_finally (run_command func args config) (on_peer (pr_close peer)).

(** The two [except] clauses of an entry point called [prog]. *)
Definition exit_on (prog : string) (e : exn) : option (M (Term S) Z) :=
  match e with
  | CLIError code msg => Some (print_err (prog +:+ ": " +:+ msg) ;;; ret code)
  | KeyboardInterrupt => Some (print_err (prog +:+ ": interrupted") ;;; ret EXIT_USAGE)
  | _ => None
  end.

Definition cli_main (split : list string -> res (dict * string * dict)) (argv : list string) : M (Term S) Z :=
  given <- lift (split argv) ;;
  ns <- lift (parse_namespace build_parser given.1.1 given.1.2 given.2) ;;
  try_except (cli_dispatch ns.1 ns.2) (exit_on "meta-agent").
End Commands.
