(* ===== verification/CliFacts.v ===== *)
(** * CliFacts: what the exit codes of the command line mean *)

From S2P Require Import Prelude PyText Utf8 Domain Worker Configs ShellAgentFacts Langfuse Cli.

(** ** Answers *)

(** A 2xx answer is its object; anything else is an error whose code tells the
    caller's mistakes from the server's. *)
Lemma decode_or_raise_spec r :
  match decode_or_raise r with
  | Ok d => 200 <= hr_status r < 300 /\ hr_json r = inr (JDict d)
  | Err e => exists msg, e = CLIError (if (300 <=? hr_status r) && (hr_status r <? 500) || (hr_status r <? 200)
                                       then EXIT_USAGE else EXIT_NETWORK) msg
  end.
Proof.
  unfold decode_or_raise, http_error.
  destruct (Z.leb_spec 200 (hr_status r)), (Z.ltb_spec (hr_status r) 300), (Z.leb_spec 300 (hr_status r)),
    (Z.ltb_spec (hr_status r) 500), (Z.ltb_spec (hr_status r) 200); simpl; try lia; try by eexists.
  destruct (hr_json r) as [m|[]]; by try eexists.
Qed.

(** The states the command line stops at are the terminal states of a task. *)
Lemma terminal_state_agrees s :
  is_terminal_state (Some (TaskState_value s)) = bool_decide (s ∈ [SUCCEEDED; FAILED; CANCELLED; EXPIRED]).
Proof. by destruct s. Qed.

(** ** Polling *)

Section Polling.
Context {S : Type} (peer : Peer S) (cfg : CLIConfig) (task_id : string).

Definition poll_request : HttpRequest := client_request cfg "GET" ("/v1/tasks/" +:+ task_id) [] None.

(** One poll, seen from the peer. *)
Definition poll : M S dict := fun s =>
  match pr_send peer poll_request s with
  | (Ok (Replied r), s') => (decode_or_raise r, s')
  | (Ok (TransportError msg), s') =>
      (Err (CLIError EXIT_NETWORK ("network error reaching " +:+ cc_api_url cfg +:+ ": " +:+ msg)), s')
  | (Err e, s') => (Err e, s')
  end.

(** [waits s states st s']: polled once a second from [s], the task is seen in
    [states], none of them terminal, and then in the terminal state [st]. *)
Inductive waits : S -> list (option string) -> option string -> S -> Prop :=
  | waits_end s task s' :
      poll s = (Ok task, s') -> is_terminal_state (state_of task) = true ->
      waits s [] (state_of task) s'
  | waits_more s task s1 s2 states st s' :
      poll s = (Ok task, s1) -> is_terminal_state (state_of task) = false ->
      pr_sleep peer 1000000 s1 = (Ok tt, s2) -> waits s2 states st s' ->
      waits s (state_of task :: states) st s'.

(** The lines that report a sequence of states: one per change. *)
Fixpoint changes (last : option string) (states : list (option string)) : list string :=
  match states with
  | [] => []
  | st :: rest =>
      match st with
      | Some s => if bool_decide (st = last) then [] else [state_line s +:+ newline]
      | None => []
      end ++ changes st rest
  end.

(** The terminal after [states] and [st] have been seen. *)
Definition tailed (show : bool) (last : option string) (states : list (option string)) (st : option string)
    (s' : S) (w : Term S) : Term S :=
  mkTerm s' (tm_sent w ++ repeat poll_request (Datatypes.S (length states))) (tm_out w)
    (tm_err w ++ if show then changes last (states ++ [st]) else [])
    (tm_slept w ++ repeat 1000000 (length states)).

Lemma get_task_poll w :
  client_get_task peer cfg task_id w =
  ((poll (tm_peer w)).1,
   mkTerm (poll (tm_peer w)).2 (tm_sent w ++ [poll_request]) (tm_out w) (tm_err w) (tm_slept w)).
Proof.
  unfold client_get_task, client_call, bind, cli_send, on_peer, poll. fold poll_request. cbn [tm_peer].
  by destruct (pr_send peer poll_request (tm_peer w)) as [[[r|m]|e] s'].
Qed.

(** The event line of a poll. *)
Lemma event_line show (state last : option string) (w : Term S) :
  match state with
  | Some st => if negb (bool_decide (state = last)) && show then print_err (state_line st) else ret tt
  | None => ret tt
  end w =
  (Ok tt, mkTerm (tm_peer w) (tm_sent w) (tm_out w)
            (tm_err w ++ if show then changes last [state] else []) (tm_slept w)).
Proof.
  destruct state as [st|]; simpl; [|destruct show; unfold ret; rewrite app_nil_r; by destruct w].
  destruct (bool_decide _), show; simpl; unfold ret, print_err; rewrite ?app_nil_r; by destruct w.
Qed.

Lemma tailed_more show last st0 states st s' w s2 :
  tailed show st0 states st s'
    (mkTerm s2 (tm_sent w ++ [poll_request]) (tm_out w) (tm_err w ++ if show then changes last [st0] else [])
       (tm_slept w ++ [1000000])) =
  tailed show last (st0 :: states) st s' w.
Proof.
  unfold tailed. cbn [tm_peer tm_sent tm_out tm_err tm_slept]. rewrite <- !app_assoc.
  f_equal; try done. f_equal. destruct show; [|done]. simpl. rewrite app_nil_r. done.
Qed.

(** One turn of the loop. *)
Lemma tail_step fuel show last w :
  tail_until_terminal peer cfg (Datatypes.S fuel) task_id show last w =
  match poll (tm_peer w) with
  | (Err e, s1) => (Err e, mkTerm s1 (tm_sent w ++ [poll_request]) (tm_out w) (tm_err w) (tm_slept w))
  | (Ok task, s1) =>
      let state := state_of task in
      let err := tm_err w ++ if show then changes last [state] else [] in
      if is_terminal_state state
      then (Ok (exit_of_state state), mkTerm s1 (tm_sent w ++ [poll_request]) (tm_out w) err (tm_slept w))
      else match pr_sleep peer 1000000 s1 with
           | (Ok _, s2) => tail_until_terminal peer cfg fuel task_id show state
               (mkTerm s2 (tm_sent w ++ [poll_request]) (tm_out w) err (tm_slept w ++ [1000000]))
           | (Err e, s2) => (Err e, mkTerm s2 (tm_sent w ++ [poll_request]) (tm_out w) err (tm_slept w ++ [1000000]))
           end
  end.
Proof.
  cbn [tail_until_terminal]. unfold bind at 1. rewrite get_task_poll.
  destruct (poll (tm_peer w)) as [[task|e] s1]; [|done]. cbn [fst snd]. cbv zeta. unfold bind at 1.
  rewrite event_line. cbn [tm_peer tm_sent tm_out tm_err tm_slept].
  destruct (is_terminal_state (state_of task)); [done|].
  unfold bind, cli_sleep, on_peer. cbn [tm_peer tm_sent tm_out tm_err tm_slept].
  by destruct (pr_sleep peer 1000000 s1) as [[u|e] s2].
Qed.

Lemma tail_complete show states st s s' :
  waits s states st s' -> forall fuel last w, tm_peer w = s -> (length states < fuel)%nat ->
  tail_until_terminal peer cfg fuel task_id show last w = (Ok (exit_of_state st), tailed show last states st s' w).
Proof.
  induction 1 as [s task s' Hp Ht|s task s1 s2 states st s' Hp Ht Hs _ IH]; intros [|fuel] last w Hw Hl;
    try (simpl in Hl; lia); rewrite tail_step, Hw, Hp; cbv zeta; rewrite Ht.
  - unfold tailed. simpl. by rewrite !app_nil_r.
  - rewrite Hs. simpl in Hl. rewrite IH by (done || lia). f_equal. apply tailed_more.
Qed.

Lemma tail_sound show fuel : forall last w c w',
  tail_until_terminal peer cfg fuel task_id show last w = (Ok c, w') ->
  exists states st s', (length states < fuel)%nat /\ waits (tm_peer w) states st s' /\
    c = exit_of_state st /\ w' = tailed show last states st s' w.
Proof.
  induction fuel as [|fuel IH]; intros last w c w'; [done|]. rewrite tail_step.
  destruct (poll (tm_peer w)) as [[task|e] s1] eqn:Hp; [|done]. cbv zeta.
  destruct (is_terminal_state (state_of task)) eqn:Ht.
  - intros [= <- <-]. exists [], (state_of task), s1. split; [simpl; lia|]. split; [by constructor|].
    unfold tailed. simpl. by rewrite !app_nil_r.
  - destruct (pr_sleep peer 1000000 s1) as [[[]|e] s2] eqn:Hs; [|done].
    intros (states & st & s' & Hl & Hw & -> & ->)%IH.
    exists (state_of task :: states), st, s'. split; [simpl; lia|].
    split; [by eapply waits_more|]. split; [done|]. apply tailed_more.
Qed.

Lemma waits_terminal s states st s' : waits s states st s' -> is_terminal_state st = true.
Proof. by induction 1. Qed.

(** C31: [meta-agent tail] returns exactly when the task is seen in a terminal
    state: after [n] polls in other states and as many sleeps of a second.  It then
    has sent [n + 1] reads of that task and nothing else, has printed one line per
    change of state (none with [--quiet-events]) and nothing on standard output, and
    returns 0 if the last state was [succeeded] and 4 otherwise.  Fuel beyond the
    number of polls changes nothing. *)
Theorem tail_spec fuel show w c w' :
  tail_until_terminal peer cfg fuel task_id show None w = (Ok c, w') <->
  exists states st s', (length states < fuel)%nat /\ waits (tm_peer w) states st s' /\
    w' = tailed show None states st s' w /\
    c = (if bool_decide (st = Some "succeeded") then 0 else 4).
Proof.
  split.
  - intros (states & st & s' & Hl & Hw & -> & ->)%tail_sound. by exists states, st, s'.
  - intros (states & st & s' & Hl & Hw & -> & ->). by apply tail_complete with (s := tm_peer w).
Qed.
End Polling.

(** ** Which exit codes there are *)

(** A call whose [CLIError]s carry codes of [P] and whose results are in [Q]. *)
Definition exits {W A} (P : Z -> Prop) (Q : A -> Prop) (m : M W A) : Prop := forall w,
  match (m w).1 with
  | Ok a => Q a
  | Err (CLIError c _) => P c
  | Err _ => True
  end.

Section Exits.
Context {W : Type} (P : Z -> Prop).

Lemma exits_bind {A B} (R : A -> Prop) (Q : B -> Prop) (m : M W A) (k : A -> M W B) :
  exits P R m -> (forall a, R a -> exits P Q (k a)) -> exits P Q (bind m k).
Proof.
  intros Hm Hk w. specialize (Hm w). unfold bind. destruct (m w) as [[a|e] w1]; [|done].
  exact (Hk a Hm w1).
Qed.
Lemma exits_seq {A B} (Q : B -> Prop) (m : M W A) (k : A -> M W B) :
  exits P (fun _ => True) m -> (forall a, exits P Q (k a)) -> exits P Q (bind m k).
Proof. intros. eapply exits_bind; eauto. Qed.
Lemma exits_weaken {A} (Q Q' : A -> Prop) (m : M W A) : exits P Q m -> (forall a, Q a -> Q' a) -> exits P Q' m.
Proof. intros Hm H w. specialize (Hm w). destruct (m w) as [[a|e] w1]; simpl in *; auto. Qed.
Lemma exits_ret {A} (Q : A -> Prop) a : Q a -> exits P Q (ret a : M W A).
Proof. by intros ? w. Qed.
Lemma exits_lift {A} (r : res A) : (forall c m, r = Err (CLIError c m) -> P c) -> exits P (fun _ => True) (lift r : M W A).
Proof. intros H w. simpl. destruct r as [a|[]]; try done. by eapply H. Qed.
Lemma exits_finally {A} (Q : A -> Prop) (m : M W A) f :
  exits P Q m -> exits P (fun _ => True) f -> exits P Q (try_finally m f).
Proof.
  intros Hm Hf w. specialize (Hm w). unfold try_finally. destruct (m w) as [r w1]. specialize (Hf w1).
  destruct (f w1) as [[u|e] w2]; [exact Hm|]. simpl in Hf |- *. by destruct e.
Qed.
End Exits.

#[local] Ltac attr_done :=
  let v := fresh "v" in
  unfold attr_opt, attr_str, attr_int, attr_bool, attr; intros ? ?;
  match goal with |- context [dget ?d ?k] => destruct (dget d k) as [v|]; simpl; try done; destruct v; done end.

Section Codes.
Context {S : Type} (peer : Peer S) (loads : string -> string + json) (env : environ).
Context (usd_of_micros : Z -> json) (client_factory : LangfuseConfig -> M (Term S) (LangfuseClient (Term S))).
Context (fuel : nat).

Definition no_code (c : Z) : Prop := False.
Definition error_code (c : Z) : Prop := c = EXIT_USAGE \/ c = EXIT_NETWORK.

(** The other end, and the exporter's client, raise no error of this program. *)
Record foreign : Prop := mkForeign {
  fo_open cfg : exits no_code (fun _ => True) (pr_open peer cfg);
  fo_send q : exits no_code (fun _ => True) (pr_send peer q);
  fo_close : exits no_code (fun _ => True) (pr_close peer);
  fo_sleep d : exits no_code (fun _ => True) (pr_sleep peer d);
  fo_export config id task tr :
    exits no_code (fun _ => True) (export_task usd_of_micros client_factory config id task tr)
}.
Context (Hf : foreign).

Lemma exits_on_peer {A} (f : M S A) (P : Z -> Prop) :
  exits no_code (fun _ => True) f -> exits P (fun _ => True) (on_peer f).
Proof.
  intros H w. unfold on_peer. specialize (H (tm_peer w)). destruct (f (tm_peer w)) as [[a|e] s]; simpl in *; [done|].
  by destruct e.
Qed.

Lemma client_call_codes cfg q : exits error_code (fun _ => True) (client_call peer cfg q).
Proof.
  apply exits_seq; [intros w; unfold cli_send; by apply exits_on_peer, fo_send|].
  intros [r|msg]; [|intros w; by right]. apply exits_lift. intros c m E.
  pose proof (decode_or_raise_spec r) as H. rewrite E in H. destruct H as (m' & [= -> _]).
  destruct (_ || _); [by left|by right].
Qed.

Lemma tail_codes cfg id show : forall n last,
  exits error_code (fun c => c = 0 \/ c = 4) (tail_until_terminal peer cfg n id show last).
Proof.
  induction n as [|n IH]; intros last; [done|]. cbn [tail_until_terminal].
  apply exits_seq; [apply client_call_codes|]. intros task. cbv zeta.
  apply exits_seq; [intros w; by rewrite event_line|]. intros _.
  destruct (is_terminal_state _).
  - apply exits_ret. unfold exit_of_state. case_bool_decide; auto.
  - apply exits_seq; [intros w; unfold cli_sleep; by apply exits_on_peer, fo_sleep|]. intros _. apply IH.
Qed.

Lemma submit_codes cfg args : exits error_code (fun _ => True) (submit_from_args peer loads cfg args).
Proof.
  unfold submit_from_args.
  repeat (apply exits_seq; [apply exits_lift; first [by attr_done|idtac]|intros ?]); [|apply client_call_codes].
  intros c m. unfold build_payload. destruct a0 as [t|]; [destruct (loads t) as [e|[]]|destruct a];
    try done; intros [= <- _]; by left.
Qed.

Lemma submitted_id_codes task c m : submitted_id task = Err (CLIError c m) -> error_code c.
Proof. unfold submitted_id. destruct (getd task "task_id"); intros [= <- _]; by left. Qed.

Lemma run_command_codes func args cfg :
  exits error_code (fun c => c = 0 \/ (c = 4 /\ (func = CmdTail \/ func = CmdRun)))
    (run_command peer loads env usd_of_micros client_factory fuel func args cfg).
Proof.
  destruct func; simpl.
  - unfold cmd_submit. apply exits_seq; [apply submit_codes|intros task].
    apply exits_seq; [apply exits_lift, submitted_id_codes|intros id].
    apply exits_seq; [apply exits_lift; attr_done|intros v]. apply exits_seq; [by destruct v|intros _].
    apply exits_seq; [done|intros _]. apply exits_ret; auto.
  - unfold cmd_tail. apply exits_seq; [apply exits_lift; attr_done|intros id].
    apply exits_seq; [apply exits_lift; attr_done|intros q].
    eapply exits_weaken; [apply tail_codes|]. naive_solver.
  - unfold cmd_trace. apply exits_seq; [apply exits_lift; attr_done|intros id].
    apply exits_seq; [apply exits_lift; attr_done|intros l].
    apply exits_seq; [apply client_call_codes|intros page]. apply exits_seq; [done|intros _]. apply exits_ret; auto.
  - unfold cmd_export_langfuse. apply exits_seq; [|intros r; apply exits_seq; [done|intros _; apply exits_ret; auto]].
    intros w. unfold try_except.
    match goal with |- context [bind ?m ?k w] => assert (exits error_code (fun _ => True) (bind m k)) as H end.
    { apply exits_seq; [apply exits_lift|intros config].
      { intros c m. unfold langfuse_require_from_env, langfuse_from_env.
        destruct (_ && _); [done|]. by destruct (_ || _). }
      apply exits_seq; [apply exits_lift; attr_done|intros id]. apply exits_seq; [apply client_call_codes|intros task].
      apply exits_seq; [apply exits_lift; attr_done|intros l]. apply exits_seq; [apply client_call_codes|intros tr].
      intros w'. pose proof (fo_export Hf config id task (JDict tr) w') as H.
      destruct (export_task _ _ _ _ _ _ w') as [[a|e] w2]; simpl in *; [done|]. by destruct e. }
    specialize (H w). destruct (bind _ _ w) as [[a|e] w1]; simpl in *; [done|]. destruct e; simpl; try done. by left.
  - unfold cmd_run. apply exits_seq; [apply submit_codes|intros task].
    apply exits_seq; [apply exits_lift, submitted_id_codes|intros id]. apply exits_seq; [done|intros _].
    apply exits_seq; [apply exits_lift; attr_done|intros q].
    eapply exits_weaken; [apply tail_codes|]. naive_solver.
Qed.
End Codes.

(** ** The command line as a whole *)

Section Main.
Context {S : Type} (peer : Peer S) (loads : string -> string + json) (env : environ).
Context (usd_of_micros : Z -> json) (client_factory : LangfuseConfig -> M (Term S) (LangfuseClient (Term S))).
Context (fuel : nat) (split : list string -> res (dict * string * dict)).

Notation main := (cli_main peer loads env usd_of_micros client_factory fuel split).

Lemma cli_config_codes api_url token c m :
  cli_config_from_env api_url token env = Err (CLIError c m) -> error_code c.
Proof. unfold cli_config_from_env. destruct (negb _); intros [= <- _]; by left. Qed.

Lemma dispatch_codes func args : foreign peer usd_of_micros client_factory ->
  exits error_code (fun c => c = 0 \/ (c = 4 /\ (func = CmdTail \/ func = CmdRun)))
    (cli_dispatch peer loads env usd_of_micros client_factory fuel func args).
Proof.
  intros Hf. unfold cli_dispatch. apply exits_seq; [apply exits_lift; attr_done|intros u].
  apply exits_seq; [apply exits_lift; attr_done|intros t].
  apply exits_seq; [apply exits_lift, cli_config_codes|intros cfg].
  apply exits_seq; [apply exits_on_peer, Hf|intros _].
  apply exits_finally; [by apply run_command_codes|apply exits_on_peer, Hf].
Qed.

(** The exit code of [meta-agent] is one of 0, 2, 3 and 4.  It is 4 only for
    [tail] and [run]; every error of the program ends in 2 or 3 with its message as
    the last line of standard error and never in a traceback; and an interrupt is
    reported and returns 2. *)
Theorem main_exit_codes argv before command after func args w :
  foreign peer usd_of_micros client_factory ->
  split argv = Ok (before, command, after) -> parse_namespace build_parser before command after = Ok (func, args) ->
  let '(r, w') := main argv w in
  let '(d, w1) := cli_dispatch peer loads env usd_of_micros client_factory fuel func args w in
  match d with
  | Ok c => (r, w') = (Ok c, w1) /\ (c = 0 \/ (c = 4 /\ (func = CmdTail \/ func = CmdRun)))
  | Err (CLIError c msg) => r = Ok c /\ (c = 2 \/ c = 3) /\
      tm_err w' = tm_err w1 ++ ["meta-agent: " +:+ msg +:+ newline]
  | Err KeyboardInterrupt => r = Ok 2 /\ tm_err w' = tm_err w1 ++ ["meta-agent: interrupted" +:+ newline]
  | Err e => (r, w') = (Err e, w1)
  end.
Proof.
  intros Hf Hs Hp. unfold cli_main, bind at 1, lift. rewrite Hs. unfold bind. cbn [fst snd]. rewrite Hp.
  unfold try_except. cbn [fst snd]. pose proof (dispatch_codes func args Hf w) as H.
  destruct (cli_dispatch _ _ _ _ _ _ func args w) as [[c|e] w1]; simpl in H; [done|].
  by destruct e.
Qed.
End Main.

(** ** Options before and after the name of the command *)

(** The name determines arguments without a default for the global options. *)
Lemma command_defaults command args func :
  dget (ps_commands build_parser) command = Some (args, func) ->
  NoDup (arg_defaults args).*1 /\
  Forall (fun k => dget (arg_defaults args) k = None) ["api_url"; "token"; "verbose"; "command"].
Proof.
  intros H. assert ((args, func) ∈ (ps_commands build_parser).*2) as Hin.
  { revert H. simpl. repeat (case_match; [intros [= <- <-]; set_solver|]). done. }
  assert (Forall (fun x => bool_decide (NoDup (arg_defaults x.1).*1 /\
    Forall (fun k => dget (arg_defaults x.1) k = None) ["api_url"; "token"; "verbose"; "command"]))
    (ps_commands build_parser).*2) as Hall by (repeat constructor).
  rewrite Forall_forall in Hall. specialize (Hall _ Hin). by apply bool_decide_unpack in Hall.
Qed.

(** A global option may stand before or after the command; one that is given
    after it wins, and one that is given before it is not overwritten by the
    default of the command's own parser. *)
Theorem global_options before command after func args k :
  parse_namespace build_parser before command after = Ok (func, args) ->
  NoDup before.*1 -> NoDup after.*1 -> k ∈ ["api_url"; "token"; "verbose"] ->
  dget args k = Some (match dget after k, dget before k with
                      | Some v, _ | None, Some v => v
                      | None, None => if String.eqb k "verbose" then JBool false else JNull
                      end).
Proof.
  unfold parse_namespace. destruct (dget (ps_commands build_parser) command) as [[sub f]|] eqn:Hc; [|done].
  intros [= <- <-] Hb Ha Hk. apply command_defaults in Hc as [Hn Hd]. rewrite Forall_forall in Hd.
  rewrite dget_dupdate by (by apply dupdate_NoDup). rewrite dget_dupdate by done.
  rewrite (Hd k) by set_solver. destruct (dget after k) as [v|]; [done|].
  rewrite dget_dset_ne by set_solver. rewrite dget_dupdate by done.
  destruct (dget before k) as [v|]; [done|].
  rewrite !elem_of_cons in Hk. by destruct Hk as [->|[->|[->|Hk%elem_of_nil]]].
Qed.
