(* ===== verification/Server.v ===== *)
(** * Server: the API process, as the command line meets it

    [api/app.py] and the wire forms of [api/schemas.py].  [serve] routes a request
    to the handlers of [Api] and turns what they return or raise into a response,
    the way FastAPI does: the context comes from the [Authorization] header before
    the body is checked, an [HTTPException] is its status and detail, any other
    exception is a plain 500.  Routes the command line never uses are a parameter,
    as are requests whose path needs escaping in a URL.  [api_peer] is the peer of
    [Cli] on the world of [Persistence]; what the other processes do while the
    command line sleeps is a parameter.

    The lifespan of the process is modelled on a log of what is opened, started,
    stopped and closed. *)

From S2P Require Import Prelude PyText Utf8 Domain Cursor Keyset GraphRuntime Gates Results Persistence PersistenceFacts Approval Reporting Auth Observability QueryApi Api Langfuse Cli.

(** ** Wire forms *)

Definition ErrorCategory_value (c : ErrorCategory) : string :=
  match c with
  | TRANSIENT => "transient" | EXTERNAL => "external" | PERMISSION => "permission"
  | VALIDATION => "validation" | LOGIC => "logic" | USER_CANCELLED => "user_cancelled"
  end.
Definition LLMUsageStatus_value (s : LLMUsageStatus) : string :=
  match s with USAGE_OK => "ok" | USAGE_ERROR => "error" end.

Section Wire.
(** [datetime] in JSON. *)
Context (iso : Z -> string).

Definition task_response_json (r : TaskResponse) : dict :=
  [("task_id", JStr (tk_task_id r)); ("tenant_id", JStr (tk_tenant_id r));
   ("state", JStr (TaskState_value (tk_state r))); ("task_type", JStr (TaskType_value (tk_task_type r)));
   ("trace_id", JStr (tk_trace_id r)); ("session_id", opt_json JStr (tk_session_id r));
   ("permission_mode", JStr (PermissionMode_value (tk_permission_mode r)));
   ("budget_policy", JStr (BudgetPolicy_value (tk_budget_policy r)));
   ("budget_threshold_micros", opt_json JInt (tk_budget_threshold_micros r));
   ("created_at", JStr (iso (tk_created_at r))); ("updated_at", JStr (iso (tk_updated_at r)))].

(** [item.model_dump(mode="json")] of the three variants. *)
Definition item_json (i : TrajectoryItem) : dict :=
  match i with
  | TrajectoryAuditItem t event_id action payload =>
      [("kind", JStr "audit"); ("occurred_at", JStr (iso t)); ("event_id", JStr event_id);
       ("action", JStr action); ("payload", JDict payload)]
  | TrajectoryCheckpointItem t id sequence node current awaiting finished =>
      [("kind", JStr "checkpoint"); ("occurred_at", JStr (iso t)); ("checkpoint_id", JStr id);
       ("sequence", JInt sequence); ("node_name", JStr node); ("current_node", opt_json JStr current);
       ("awaiting_approval", JBool awaiting); ("finished", JBool finished)]
  | TrajectoryUsageItem t id provider model requested prompt completion total cost latency status cat msg
      prompt_id version excerpt step =>
      [("kind", JStr "usage"); ("occurred_at", JStr (iso t)); ("record_id", JStr id); ("provider", JStr provider);
       ("model", opt_json JStr model); ("requested_model", opt_json JStr requested);
       ("prompt_tokens", opt_json JInt prompt); ("completion_tokens", opt_json JInt completion);
       ("total_tokens", opt_json JInt total); ("cost_usd_micros", opt_json JInt cost);
       ("latency_ms", JInt latency); ("status", JStr (LLMUsageStatus_value status));
       ("error_category", opt_json (fun c => JStr (ErrorCategory_value c)) cat);
       ("error_message", opt_json JStr msg); ("prompt_id", opt_json JStr prompt_id);
       ("prompt_version", opt_json JInt version); ("prompt_excerpt", opt_json JStr excerpt);
       ("step_kind", opt_json JStr step)]
  end.
Definition trajectory_response_json (p : TrajectoryPage) : dict :=
  [("items", JList (map (fun i => JDict (item_json i)) (tp_items p))); ("truncated", JBool (tp_truncated p))].
End Wire.

(** ** [create_app] *)

Section App.
Context `{!PydanticInt} (validate : TokenValidator) (topic : string) (iso : Z -> string).
Context (render : dict -> string) (other : HttpRequest -> M World CliResponse).

Definition json_response (status : Z) (d : dict) : CliResponse := mkCliResponse status (render d) (inr (JDict d)).
(** An exception that reaches the framework. *)
Definition error_response (e : exn) : CliResponse :=
  match e with
  | HTTPException status detail => json_response status [("detail", JStr detail)]
  | _ => mkCliResponse 500 "Internal Server Error" (inl "Expecting value: line 1 column 1 (char 0)")
  end.

(** Characters of an identifier that a URL leaves as they are. *)
Definition url_safe (s : string) : bool :=
  nonempty s && negb (str_exists (fun c => negb (is_alpha c || is_digit c || char_is 45 c || char_is 95 c)) s).

Inductive Route : Type :=
  | RouteHealth
  | RouteSubmit
  | RouteTask (task_id : string)
  | RouteTrajectory (task_id : string)
  | RouteOther.
Definition route (q : HttpRequest) : Route :=
  let get := String.eqb (hq_method q) "GET" in
  let post := String.eqb (hq_method q) "POST" in
  if get && String.eqb (hq_path q) "/health" then RouteHealth
  else if post && String.eqb (hq_path q) "/v1/tasks" then RouteSubmit
  else match str_drop_prefix "/v1/tasks/" (hq_path q) with
  | None => RouteOther
  | Some rest =>
      if get && url_safe rest then RouteTask rest
      else match str_drop_suffix "/trajectory" rest with
      | Some id => if get && url_safe id then RouteTrajectory id else RouteOther
      | None => RouteOther
      end
  end.

(** [limit_per_source: int = Query(default=1000, ...)]. *)
Definition limit_param (q : HttpRequest) : res Z :=
  match dget (hq_params q) "limit_per_source" with
  | None => Ok 1000
  | Some s => match int_of (JStr s) with Some n => Ok n | None => Err unprocessable end
  end.

Definition handle_request (q : HttpRequest) : M World CliResponse :=
  let authorized := get_request_ctx validate (Some (hq_authorization q)) None in
  match route q with
  | RouteHealth => ret (json_response 200 [("status", JStr "ok")])
  | RouteSubmit =>
      ctx <- authorized ;;
      match hq_json q with
      | None => raise unprocessable
      | Some body => t <- submit_task body ctx topic ;; ret (json_response 201 (task_response_json iso t))
      end
  | RouteTask id =>
      ctx <- authorized ;;
      t <- get_task_handler id ctx ;; ret (json_response 200 (task_response_json iso t))
  | RouteTrajectory id =>
      ctx <- authorized ;;
      limit <- lift (limit_param q) ;;
      page <- get_task_trajectory id limit ctx ;; ret (json_response 200 (trajectory_response_json iso page))
  | RouteOther => other q
  end.

(** A handler that is cancelled drops the connection. *)
Definition serve (q : HttpRequest) : M World CliReply := fun w =>
  match handle_request q w with
  | (Ok r, w') => (Ok (Replied r), w')
  | (Err OutOfFuel, w') => (Err OutOfFuel, w')
  | (Err e, w') => if is_exception e then (Ok (Replied (error_response e)), w')
                   else (Ok (TransportError "Server disconnected without sending a response."), w')
  end.

Definition api_peer (elsewhere : Z -> M World unit) : Peer World :=
  mkPeer (fun _ => ret tt) serve (ret tt) elsewhere.
End App.
