(* ===== verification/ServerFacts.v ===== *)
(** * ServerFacts: the command line against the API

    The exit codes and the output of the command line in terms of the tables of
    the server. *)

From S2P Require Import Prelude PyText Utf8 Domain Cursor Keyset GraphRuntime Gates Results Persistence PersistenceFacts Approval ShellAgentFacts Reporting Auth Observability QueryApi Api Langfuse Cli CliFacts Server.

Lemma drop_prefix_app p s : str_drop_prefix p (p +:+ s) = Some s.
Proof. induction p as [|c p IH]; [done|]. simpl. by rewrite Ascii.eqb_refl. Qed.

Lemma drop_suffix_app p s : str_drop_suffix p (s +:+ p) = Some s.
Proof.
  induction s as [|c s IH].
  - change ("" +:+ p) with p. destruct p; simpl; [done|]. by rewrite Ascii.eqb_refl, String.eqb_refl.
  - change (String c s +:+ p) with (String c (s +:+ p)). cbn [str_drop_suffix].
    destruct (String.eqb_spec (String c (s +:+ p)) p) as [E|_]; [|by rewrite IH].
    apply (f_equal String.length) in E. simpl in E. rewrite Utf8.length_app_str in E. lia.
Qed.

(** A path that goes on after the identifier is not one. *)
Lemma url_safe_slash s t : url_safe (s +:+ String (Ascii.ascii_of_nat 47) t) = false.
Proof.
  unfold url_safe. assert (str_exists (fun c => negb (is_alpha c || is_digit c || char_is 45 c || char_is 95 c))
    (s +:+ String (Ascii.ascii_of_nat 47) t) = true) as ->; [|by rewrite andb_false_r].
  induction s as [|c s IH]; [done|]. change (String c s +:+ ?x) with (String c (s +:+ x)). simpl.
  by rewrite IH, orb_true_r.
Qed.

Section Routes.
Context {PI : PydanticInt} (validate : TokenValidator) (topic : string) (iso : Z -> string).
Context (render : dict -> string) (other : HttpRequest -> M World CliResponse) (elsewhere : Z -> M World unit).
Context (cfg : CLIConfig).

Notation peer := (api_peer validate topic iso render other elsewhere).
Definition bearer : string := "Bearer " +:+ cc_token cfg.

Lemma route_submit body : route (client_request cfg "POST" "/v1/tasks" [] (Some body)) = RouteSubmit.
Proof. done. Qed.

Lemma route_task id : url_safe id = true -> route (poll_request cfg id) = RouteTask id.
Proof.
  intros H. unfold route, poll_request, client_request. cbn [hq_method hq_path].
  rewrite drop_prefix_app, H. change (String.eqb "GET" "GET") with true. change (String.eqb "GET" "POST") with false.
  simpl. done.
Qed.

Lemma route_trajectory id params : url_safe id = true ->
  route (client_request cfg "GET" ("/v1/tasks/" +:+ id +:+ "/trajectory") params None) = RouteTrajectory id.
Proof.
  intros H. unfold route, client_request. cbn [hq_method hq_path].
  rewrite drop_prefix_app. change "/trajectory" with (String (Ascii.ascii_of_nat 47) "trajectory").
  rewrite url_safe_slash, drop_suffix_app, H. simpl. done.
Qed.

(** The body of an error is not a task. *)
Lemma error_stateless e task :
  decode_or_raise (error_response render e) = Ok task -> state_of task = None.
Proof.
  intros H. pose proof (decode_or_raise_spec (error_response render e)) as Hd. rewrite H in Hd.
  destruct Hd as [_ Hd]. destruct e; simpl in Hd; try done. by injection Hd as <-.
Qed.
Lemma serve_error q w e w1 task w' :
  handle_request validate topic iso render other q w = (Err e, w1) ->
  match serve validate topic iso render other q w with
  | (Ok (Replied r), w2) => (decode_or_raise r, w2)
  | (Ok (TransportError msg), w2) => (Err (CLIError EXIT_NETWORK msg), w2)
  | (Err x, w2) => (Err x, w2)
  end = (Ok task, w') -> state_of task = None.
Proof.
  intros H. unfold serve. rewrite H.
  assert (forall w2, (decode_or_raise (error_response render e), w2) = (Ok task, w') -> state_of task = None) as Hs.
  { intros w2 [= Hd _]. by apply error_stateless in Hd. }
  destruct e; cbn [is_exception]; try done; apply Hs.
Qed.

(** A poll of the API is the read of one row under the token's tenant. *)
Lemma api_poll id w task w' :
  url_safe id = true -> poll peer cfg id w = (Ok task, w') -> state_of task <> None ->
  exists ctx t w1, get_request_ctx validate (Some bearer) None w = (Ok ctx, w1) /\
    row_task <$> select_task (w_db w') (ctx_tenant_id ctx) id = Some t /\ w_db w' = w_db w1 /\
    task = task_response_json iso (to_task_response t).
Proof.
  intros Hid Hp Hst.
  destruct (handle_request validate topic iso render other (poll_request cfg id) w) as [[r|e] w2] eqn:Hh.
  2:{ exfalso. apply Hst. revert Hp. unfold poll, api_peer. cbn [pr_send]. intros Hp.
      eapply serve_error; [exact Hh|]. revert Hp. by destruct (serve _ _ _ _ _ _ w) as [[[]|] ?]. }
  unfold poll, api_peer, serve in Hp. cbn [pr_send] in Hp. rewrite Hh in Hp.
  unfold handle_request in Hh. rewrite (route_task id Hid) in Hh.
  change (hq_authorization (poll_request cfg id)) with bearer in Hh.
  apply bind_inv_ok in Hh as (ctx & w1 & Hc & Hh). apply bind_inv_ok in Hh as (tr & w3 & Ht & Hh).
  injection Hh as <- <-. injection Hp as <- <-. apply bind_inv_ok in Ht as (o & w4 & Hg & Ht).
  unfold bind_context in Hg. pose proof (get_task_cases (ctx_tenant_id ctx) id (set_ctx (Some ctx) w1)) as Hcase.
  destruct (get_task (ctx_tenant_id ctx) id (set_ctx (Some ctx) w1)) as [[o'|e] w5]; [|done].
  injection Hg as <- <-. destruct Hcase as [Hdb ->].
  destruct (row_task <$> _) as [t|] eqn:Hrow; [|done]. injection Ht as <- <-.
  exists ctx, t, w1. split; [done|]. simpl. by rewrite Hdb.
Qed.

Lemma state_of_response t : state_of (task_response_json iso (to_task_response t)) = Some (TaskState_value (t_state t)).
Proof. done. Qed.

Lemma waits_last {S} (p : Peer S) id s states st s' :
  waits p cfg id s states st s' ->
  exists s0 task, poll p cfg id s0 = (Ok task, s') /\ st = state_of task /\ is_terminal_state st = true.
Proof. induction 1 as [s task s'|]; eauto 10. Qed.

(** C30: what the exit code of [meta-agent tail] says about the database: the
    command ends with 0 only when the row of the task, in the tenant of the token
    it presented, is SUCCEEDED, and with 4 only when that row is FAILED, CANCELLED
    or EXPIRED, whatever the other processes do between two polls. *)
Theorem tail_reports_row fuel id show (w : Term World) c w' :
  url_safe id = true -> tail_until_terminal peer cfg fuel id show None w = (Ok c, w') ->
  exists ctx t w0 w1, get_request_ctx validate (Some bearer) None w0 = (Ok ctx, w1) /\
    row_task <$> select_task (w_db (tm_peer w')) (ctx_tenant_id ctx) id = Some t /\
    ((c = 0 /\ t_state t = SUCCEEDED) \/ (c = 4 /\ t_state t ∈ [FAILED; CANCELLED; EXPIRED])).
Proof.
  intros Hid (states & st & s' & _ & Hw & -> & ->)%tail_sound.
  apply waits_last in Hw as (s0 & task & Hp & -> & Ht).
  apply api_poll in Hp as (ctx & t & w1 & Hc & Hrow & _ & ->); [|done|by destruct (state_of task)].
  exists ctx, t, s0, w1. split; [done|]. split; [done|].
  rewrite state_of_response in *. rewrite terminal_state_agrees in Ht.
  destruct (t_state t); simpl in Ht; try done; [left|right..]; split; try done; set_solver.
Qed.
End Routes.

(** ** Submitting *)

(** What the arguments of [submit] and [run] ask for. *)
Record submits (loads : string -> string + json) (args : dict) (task_type : string) (payload : dict)
    (idem session : option string) : Prop := mkSubmits {
  su_payload : exists prompt payload_json, attr_opt args "prompt" = Ok prompt /\
    attr_opt args "payload" = Ok payload_json /\ build_payload loads prompt payload_json = Ok payload;
  su_task_type : attr_str args "task_type" = Ok task_type;
  su_idem : attr_opt args "idempotency_key" = Ok idem;
  su_session : attr_opt args "session_id" = Ok session
}.

Lemma submit_from_args_call {S} (p : Peer S) loads cfg args task_type payload idem session w :
  submits loads args task_type payload idem session ->
  submit_from_args p loads cfg args w = client_submit_task p cfg task_type payload idem session w.
Proof.
  intros [(prompt & pj & H1 & H2 & H3) H4 H5 H6]. unfold submit_from_args, bind, lift.
  rewrite H1, H2, H3, H4, H5, H6. done.
Qed.

Section Submit.
Context {PI : PydanticInt} (validate : TokenValidator) (topic : string) (iso : Z -> string).
Context (render : dict -> string) (other : HttpRequest -> M World CliResponse) (elsewhere : Z -> M World unit).
Context (cfg : CLIConfig) (loads : string -> string + json).

Notation peer := (api_peer validate topic iso render other elsewhere).

(** The API's answer to a submission that passes its checks. *)
Lemma api_submit body req ctx w w1 :
  get_request_ctx validate (Some (bearer cfg)) None w = (Ok ctx, w1) -> submit_validate body = Ok req ->
  serve validate topic iso render other (client_request cfg "POST" "/v1/tasks" [] (Some body)) w =
  match submit_task_transaction req ctx topic w1 with
  | (Ok t, w2) => (Ok (Replied (json_response render 201 (task_response_json iso (to_task_response t)))), w2)
  | (Err OutOfFuel, w2) => (Err OutOfFuel, w2)
  | (Err e, w2) => if is_exception e then (Ok (Replied (error_response render e)), w2)
                   else (Ok (TransportError "Server disconnected without sending a response."), w2)
  end.
Proof.
  intros Hc Hv. unfold serve, handle_request. rewrite route_submit. cbn [hq_json client_request].
  change (hq_authorization _) with (bearer cfg). unfold bind at 1. rewrite Hc. unfold submit_task.
  unfold bind at 1, bind at 1, lift. rewrite Hv. unfold bind at 1.
  destruct (submit_task_transaction req ctx topic w1) as [[t|e] w2]; [done|]. by destruct e.
Qed.

(** The names a submission gets and the rows it writes, in the world [w1] in
    which the handler starts. *)
Section Created.
Context (req : SubmitTaskRequest) (ctx : RequestContext) (w1 : World).
Definition new_task : Task := submitted_task req ctx (w_ids w1 (w_nids w1)) (w_clock w1 (w_ticks w1)).
Definition new_event : OutboxEvent :=
  submitted_event req ctx topic (w_ids w1 (w_nids w1)) (w_ids w1 (S (w_nids w1))) (w_clock w1 (w_ticks w1)).
Definition submission_refused : bool := task_idem_conflict (w_db w1) new_task || outbox_conflict (w_db w1) new_event.
Definition after_submission : Db :=
  with_submission (session_row req ctx (w_clock w1 (w_ticks w1))) new_task new_event (w_db w1).
(** The API answers: the database works, the names are new and nothing is empty. *)
Record submittable : Prop := mkSubmittable {
  sb_healthy : healthy w1;
  sb_fresh : db_tasks (w_db w1) !! w_ids w1 (w_nids w1) = None;
  sb_named : forallb nonempty [w_ids w1 (w_nids w1); ctx_tenant_id ctx; ctx_principal_id ctx; ctx_trace_id ctx;
                               w_ids w1 (S (w_nids w1)); topic] = true
}.
End Created.

Lemma client_submit_run task_type payload idem session req ctx w1 (w : Term World) :
  get_request_ctx validate (Some (bearer cfg)) None (tm_peer w) = (Ok ctx, w1) ->
  submit_validate (submit_body task_type payload idem session) = Ok req -> submittable ctx w1 ->
  exists w2, client_submit_task peer cfg task_type payload idem session w =
    (if submission_refused req ctx w1 then Err (CLIError 3 "HTTP 500: Internal Server Error")
     else Ok (task_response_json iso (to_task_response (new_task req ctx w1))),
     mkTerm w2 (tm_sent w ++ [client_request cfg "POST" "/v1/tasks" [] (Some (submit_body task_type payload idem session))])
       (tm_out w) (tm_err w) (tm_slept w)) /\
    w_db w2 = if submission_refused req ctx w1 then w_db w1 else after_submission req ctx w1.
Proof.
  intros Hc Hv [Hh Hnew Hne].
  pose proof (submission_effect req ctx topic w1 Hnew Hne) as He. cbv zeta in He.
  unfold client_submit_task, client_call, bind at 1, cli_send, on_peer. cbn [tm_peer api_peer pr_send].
  rewrite (api_submit _ req ctx _ w1 Hc Hv).
  destruct (submit_task_transaction req ctx topic w1) as [r2 w2]. destruct He as (_ & He & Hr).
  specialize (Hr Hh). fold (new_task req ctx w1) in Hr, He. fold (new_event req ctx w1) in Hr, He.
  fold (submission_refused req ctx w1) in Hr. exists w2.
  destruct (submission_refused req ctx w1); subst r2; [by split|]. split; [done|]. exact (proj1 (proj2 He)).
Qed.

Lemma cmd_submit_run args task_type payload idem session req ctx w1 (w : Term World) :
  submits loads args task_type payload idem session -> attr_bool args "verbose" = Ok false ->
  get_request_ctx validate (Some (bearer cfg)) None (tm_peer w) = (Ok ctx, w1) ->
  submit_validate (submit_body task_type payload idem session) = Ok req -> submittable ctx w1 ->
  let '(r, w') := cmd_submit peer loads args cfg w in
  if submission_refused req ctx w1
  then r = Err (CLIError 3 "HTTP 500: Internal Server Error") /\ w_db (tm_peer w') = w_db w1 /\ tm_out w' = tm_out w
  else r = Ok 0 /\ tm_out w' = tm_out w ++ [t_task_id (new_task req ctx w1) +:+ newline] /\ tm_err w' = tm_err w /\
       w_db (tm_peer w') = after_submission req ctx w1.
Proof.
  intros Hs Hverb Hc Hv Hb. destruct (client_submit_run _ _ _ _ req ctx w1 w Hc Hv Hb) as (w2 & Hrun & Hdb).
  unfold cmd_submit, bind at 1. rewrite (submit_from_args_call peer loads cfg args _ _ _ _ w Hs), Hrun.
  destruct (submission_refused req ctx w1); [by split|]. unfold bind, lift. rewrite Hverb. simpl. by split_and!.
Qed.

(** C29: [meta-agent submit] end to end, on the first use of an idempotency key.
    With a token the API accepts, a body that passes its checks, a database that
    answers and fresh identifiers, and no task or command of the tenant under the
    same key, the command returns 0 and prints, with nothing on the error stream,
    the identifier of exactly the task it has just created: the row stored under
    this identifier is a pending task of the token's tenant and principal with the
    payload the API accepted, one command for this task is added to the outbox
    under the configured topic, and besides them only the session the submission
    names is written. *)
Theorem submit_end_to_end args task_type payload idem session req ctx w1 (w : Term World) :
  submits loads args task_type payload idem session -> attr_bool args "verbose" = Ok false ->
  get_request_ctx validate (Some (bearer cfg)) None (tm_peer w) = (Ok ctx, w1) ->
  submit_validate (submit_body task_type payload idem session) = Ok req -> submittable ctx w1 ->
  submission_refused req ctx w1 = false ->
  let '(r, w') := cmd_submit peer loads args cfg w in
  exists id t row, r = Ok 0 /\ tm_out w' = tm_out w ++ [id +:+ newline] /\ tm_err w' = tm_err w /\
    db_tasks (w_db w1) !! id = None /\
    db_tasks (w_db (tm_peer w')) = <[id := mkTaskRow t None]> (db_tasks (w_db w1)) /\
    t_task_id t = id /\ t_tenant_id t = ctx_tenant_id ctx /\ t_principal_id t = ctx_principal_id ctx /\
    t_state t = PENDING /\ t_task_type t = sr_task_type req /\ t_input_payload t = sr_input_payload req /\
    db_outbox (w_db (tm_peer w')) = db_outbox (w_db w1) ++ [row] /\
    ob_aggregate_id (or_event row) = id /\ ob_tenant_id (or_event row) = ctx_tenant_id ctx /\
    ob_topic (or_event row) = topic /\ ob_status (or_event row) = OB_PENDING /\
    w_db (tm_peer w') = after_submission req ctx w1.
Proof.
  intros Hs Hverb Hc Hv Hb Hfirst. pose proof (cmd_submit_run _ _ _ _ _ req ctx w1 w Hs Hverb Hc Hv Hb) as H.
  destruct (cmd_submit peer loads args cfg w) as [r w']. rewrite Hfirst in H. destruct H as (-> & Ho & He & Hdb).
  eexists _, (new_task req ctx w1), _. split; [done|]. split; [exact Ho|]. split; [exact He|].
  split; [exact (sb_fresh _ _ Hb)|]. rewrite Hdb. unfold after_submission, with_submission.
  destruct (session_row _ _ _); split_and!; reflexivity.
Qed.

(** A key the tenant has used before: nothing is written or printed, and the
    answer is reported as a server error, code 3. *)
Theorem submit_repeated_key args task_type payload idem session req ctx w1 (w : Term World) :
  submits loads args task_type payload idem session -> attr_bool args "verbose" = Ok false ->
  get_request_ctx validate (Some (bearer cfg)) None (tm_peer w) = (Ok ctx, w1) ->
  submit_validate (submit_body task_type payload idem session) = Ok req -> submittable ctx w1 ->
  submission_refused req ctx w1 = true ->
  let '(r, w') := cmd_submit peer loads args cfg w in
  r = Err (CLIError 3 "HTTP 500: Internal Server Error") /\ w_db (tm_peer w') = w_db w1 /\ tm_out w' = tm_out w.
Proof.
  intros Hs Hverb Hc Hv Hb Hused. pose proof (cmd_submit_run _ _ _ _ _ req ctx w1 w Hs Hverb Hc Hv Hb) as H.
  destruct (cmd_submit peer loads args cfg w) as [r w']. by rewrite Hused in H.
Qed.
End Submit.

(** ** The figures of a trace *)

#[global] Instance filter_Proper {A} (f : A -> bool) : Proper ((≡ₚ) ==> (≡ₚ)) (List.filter f).
Proof. intros l1 l2. apply filter_perm. Qed.
#[global] Instance trace_sum_Proper k : Proper ((≡ₚ) ==> (=)) (trace_sum k).
Proof. intros l1 l2 H. unfold trace_sum. induction H; simpl; lia. Qed.
#[global] Instance trace_count_Proper f : Proper ((≡ₚ) ==> (=)) (trace_count f).
Proof. intros l1 l2 H. unfold trace_count. by rewrite H. Qed.

(** The figures do not depend on the order of the timeline. *)
#[global] Instance trace_summary_Proper : Proper ((≡ₚ) ==> (=)) trace_summary.
Proof. intros l1 l2 H. unfold trace_summary. by rewrite H. Qed.

(** The figures of a task, from the rows of the database. *)
Definition table_summary (d : Db) (tenant task : string) : TraceSummary :=
  let usages := trajectory_usages d tenant task None in
  let tools := List.filter (fun e => is_tool_action (ae_action e)) (trajectory_audits d tenant task None) in
  mkTraceSummary (Z.of_nat (length usages)) (Z.of_nat (length tools))
    (Z.of_nat (length (List.filter (fun e => String.eqb (ae_action e) "tool.failed") tools)))
    (Z.of_nat (length (List.filter (fun r => bool_decide (ur_status r = USAGE_ERROR)) usages)))
    (sum_over (fun r => default 0 (ur_total_tokens r)) usages)
    (sum_over (fun r => default 0 (ur_cost_usd_micros r)) usages)
    (sum_over ur_latency_ms usages).

Section Trace.
Context (iso : Z -> string).

Lemma kind_audit a items k : mapM_res audit_to_item a = Ok items ->
  List.filter (kind_is k) (map (item_json iso) items) = if String.eqb "audit" k then map (item_json iso) items else [].
Proof.
  revert items. induction a as [|e a IH]; intros items; [intros [= <-]; by destruct (String.eqb _ k)|]. cbn [mapM_res].
  intros (i & [= <-] & (l & Hl & [= <-])%res_bind_inv)%res_bind_inv. specialize (IH l Hl). cbn [map List.filter].
  rewrite IH. change (kind_is k _) with (String.eqb "audit" k). by destruct (String.eqb "audit" k).
Qed.
Lemma kind_checkpoint c items k : mapM_res checkpoint_to_item c = Ok items ->
  List.filter (kind_is k) (map (item_json iso) items) = if String.eqb "checkpoint" k then map (item_json iso) items else [].
Proof.
  revert items. induction c as [|e c IH]; intros items; [intros [= <-]; by destruct (String.eqb _ k)|]. cbn [mapM_res].
  intros (i & Hi & H)%res_bind_inv. apply res_bind_inv in H as (l & Hl & [= <-]). specialize (IH l Hl).
  apply res_bind_inv in Hi as (cur & _ & [= <-]). cbn [map List.filter].
  rewrite IH. change (kind_is k _) with (String.eqb "checkpoint" k). by destruct (String.eqb "checkpoint" k).
Qed.
Lemma kind_usage u items k : mapM_res usage_to_item u = Ok items ->
  List.filter (kind_is k) (map (item_json iso) items) = if String.eqb "usage" k then map (item_json iso) items else [].
Proof.
  revert items. induction u as [|e u IH]; intros items; [intros [= <-]; by destruct (String.eqb _ k)|]. cbn [mapM_res].
  intros (i & Hi & H)%res_bind_inv. apply res_bind_inv in H as (l & Hl & [= <-]). specialize (IH l Hl).
  unfold usage_to_item in Hi. destruct (_ <? _); [done|]. injection Hi as <-. cbn [map List.filter].
  rewrite IH. change (kind_is k _) with (String.eqb "usage" k). by destruct (String.eqb "usage" k).
Qed.

(** A figure over the items of a source is the same figure over its rows. *)
Lemma audit_figures a items : mapM_res audit_to_item a = Ok items ->
  let tools := List.filter is_tool_item (map (item_json iso) items) in
  let rows := List.filter (fun e => is_tool_action (ae_action e)) a in
  length tools = length rows /\
  trace_count (fun i => is_str (getd i "action") "tool.failed") tools =
    Z.of_nat (length (List.filter (fun e => String.eqb (ae_action e) "tool.failed") rows)).
Proof.
  unfold trace_count. revert items. induction a as [|e a IH]; intros items; [by intros [= <-]|].
  cbn [mapM_res]. intros (i & [= <-] & (l & Hl & [= <-])%res_bind_inv)%res_bind_inv.
  destruct (IH l Hl) as [H1 H2]. cbn [map List.filter].
  change (is_tool_item (item_json iso _)) with (is_tool_action (ae_action e)).
  destruct (is_tool_action (ae_action e)); [|by split]. cbn [List.filter length].
  change (is_str (getd (item_json iso _) "action") "tool.failed") with (String.eqb (ae_action e) "tool.failed").
  destruct (String.eqb (ae_action e) "tool.failed"); cbn [length]; split; lia.
Qed.

Lemma usage_figures u items : mapM_res usage_to_item u = Ok items ->
  let js := map (item_json iso) items in
  length js = length u /\
  trace_count llm_failed js = Z.of_nat (length (List.filter (fun r => bool_decide (ur_status r = USAGE_ERROR)) u)) /\
  trace_sum "total_tokens" js = sum_over (fun r => default 0 (ur_total_tokens r)) u /\
  trace_sum "cost_usd_micros" js = sum_over (fun r => default 0 (ur_cost_usd_micros r)) u /\
  trace_sum "latency_ms" js = sum_over ur_latency_ms u.
Proof.
  unfold trace_count, trace_sum. revert items. induction u as [|r u IH]; intros items; simpl; [by intros [= <-]|].
  intros (i & Hi & H)%res_bind_inv. apply res_bind_inv in H as (l & Hl & [= <-]).
  destruct (IH l Hl) as (H1 & H2 & H3 & H4 & H5). unfold usage_to_item in Hi.
  destruct (_ <? _); [done|]. injection Hi as <-. simpl. rewrite H3, H4, H5. rewrite H1.
  split; [done|]. split; [|split; [|split; [|done]]].
  - unfold llm_failed at 1. simpl. destruct (ur_status r); simpl; lia.
  - by destruct (ur_total_tokens r).
  - by destruct (ur_cost_usd_micros r).
Qed.

Lemma summary_of_sources d tenant task items a c u :
  mapM_res audit_to_item (trajectory_audits d tenant task None) = Ok a ->
  mapM_res checkpoint_to_item (trajectory_checkpoints d tenant task None) = Ok c ->
  mapM_res usage_to_item (trajectory_usages d tenant task None) = Ok u ->
  items ≡ₚ a ++ c ++ u ->
  trace_summary (map (item_json iso) items) = table_summary d tenant task.
Proof.
  intros Ha Hc Hu Hp. rewrite Hp, !map_app. unfold trace_summary. rewrite !filter_app.
  rewrite !(kind_audit _ _ _ Ha), !(kind_checkpoint _ _ _ Hc), !(kind_usage _ _ _ Hu). simpl. rewrite app_nil_r.
  destruct (audit_figures _ _ Ha) as [H1 H2]. destruct (usage_figures _ _ Hu) as (H3 & H4 & H5 & H6 & H7).
  unfold table_summary. f_equal; try done; [by rewrite H3|by rewrite H1].
Qed.
End Trace.

Section TraceCommand.
Context {PI : PydanticInt} (validate : TokenValidator) (topic : string) (iso : Z -> string).
Context (render : dict -> string) (other : HttpRequest -> M World CliResponse) (elsewhere : Z -> M World unit).
Context (cfg : CLIConfig).

Notation peer := (api_peer validate topic iso render other elsewhere).

Lemma trajectory_handler id limit ctx w page :
  1 <= limit <= 1000 -> healthy w -> select_task (w_db w) (ctx_tenant_id ctx) id <> None ->
  (forall w1, healthy w1 -> bound_to w1 (ctx_tenant_id ctx) -> w_db w1 = w_db w ->
    (trajectory (ctx_tenant_id ctx) id None limit w1).1 = Ok page) ->
  exists w', get_task_trajectory id limit ctx w = (Ok page, w').
Proof.
  intros Hl Hh Hs Ht. unfold get_task_trajectory.
  assert (negb ((1 <=? limit) && (limit <=? 1000)) = false) as -> by (rewrite negb_false_iff, andb_true_iff; lia).
  unfold bind_context, bind. set (w1 := set_ctx (Some ctx) w).
  assert (healthy w1) as Hh1 by exact Hh. assert (bound_to w1 (ctx_tenant_id ctx)) as Hb1 by (by exists ctx).
  rewrite get_task_healthy by done. change (w_db w1) with (w_db w).
  destruct (select_task (w_db w) (ctx_tenant_id ctx) id) as [row|]; [|done]. cbn [fmap option_fmap option_map].
  specialize (Ht (ticked w1) (ticked_healthy _ Hh1)).
  assert (bound_to (ticked w1) (ctx_tenant_id ctx)) as Hb by (exists ctx; by rewrite ticked_ctx).
  specialize (Ht Hb (ticked_db w1)).
  destruct (trajectory (ctx_tenant_id ctx) id None limit (ticked w1)) as [r w2]. simpl in Ht. subst r. by eexists.
Qed.

End TraceCommand.
