(* ===== verification/Smoke.v ===== *)
(** * Smoke: the runner of the external smoke cases

    [evals/smoke_catalog.py] and [evals/smoke_runner.py], on the terminal and the
    client of [Cli].  The catalog is fetched over HTTP by a client of its own or
    read from a file; both, and [urllib.parse.urlparse], are ports. *)

From S2P Require Import Prelude PyText Utf8 JsonText Domain Worker Configs Langfuse Cli.
Import Utf8.

Definition DEFAULT_REMOTE_CATALOG_URL : string :=
  "https://raw.githubusercontent.com/gududefengzhong/meta-agent-smoke/master/catalog/cases.json".
Definition DEFAULT_REPO_URL : string := "https://github.com/gududefengzhong/meta-agent-smoke.git".
Definition SMOKE_VERIFY_SUITE : string := "python_test".
Definition DEFAULT_MODEL : string := "deepseek/deepseek-v4-pro".

(** ** The catalog *)

Definition smoke_catalog (source : string) : string := "smoke catalog " +:+ source.

(** One entry: the checks in the order of the code. *)
Definition validate_case (source : string) (idx : nat) (item : json) : res dict :=
  let entry := smoke_catalog source +:+ " entry " in
  match item with
  | JDict d =>
      match as_nonempty_str (getd d "case") with
      | None => Err (CLIError EXIT_USAGE (entry +:+ "#" +:+ pretty idx +:+ " missing case"))
      | Some name =>
          match as_nonempty_str (getd d "issue_description") with
          | None => Err (CLIError EXIT_USAGE (entry +:+ py_repr_str name +:+ " missing issue_description"))
          | Some _ =>
              match getd d "target_files" with
              | JList ((_ :: _) as files) =>
                  if forallb (fun v => match as_nonempty_str v with Some _ => true | None => false end) files
                  then Ok d
                  else Err (CLIError EXIT_USAGE (entry +:+ py_repr_str name +:+ " missing target_files"))
              | _ => Err (CLIError EXIT_USAGE (entry +:+ py_repr_str name +:+ " missing target_files"))
              end
          end
      end
  | _ => Err (CLIError EXIT_USAGE (entry +:+ "#" +:+ pretty idx +:+ " must be a JSON object"))
  end.
Fixpoint validate_from (source : string) (idx : nat) (items : list json) : res (list dict) :=
  match items with
  | [] => Ok []
  | item :: rest =>
      let? d := validate_case source idx item in
      let? ds := validate_from source (Datatypes.S idx) rest in
      Ok (d :: ds)
  end.
Definition validate_cases (raw : json) (source : string) : res (list dict) :=
  match raw with
  | JList items => validate_from source 0 items
  | _ => Err (CLIError EXIT_USAGE (smoke_catalog source +:+ " must be a JSON array"))
  end.

Definition string_list (v : json) : list string := match v with JList l => omap as_str l | _ => [] end.

(** [str(case.get(k, ""))]. *)
Definition case_text (case : dict) (k : string) : string :=
  match dget case k with Some v => py_str v | None => "" end.
Definition str_among (s : string) (l : list string) : bool := existsb (String.eqb s) l.

(** An empty filter admits every case. *)
Definition case_selected (case_names batches categories : list string) (case : dict) : bool :=
  let admits (filter : list string) (ok : bool) := match filter with [] => true | _ => ok end in
  let lower := map py_lower in
  admits case_names (str_among (case_text case "case") case_names) &&
  admits batches (str_among (py_lower (case_text case "batch")) (lower batches)) &&
  admits categories (existsb (fun c => str_among c (lower categories)) (lower (string_list (getd case "categories")))).
Definition select_cases (cases : list dict) (case_names batches categories : list string) : list dict :=
  List.filter (case_selected case_names batches categories) cases.

(** [case["issue_description"]] and [case["case"]] are subscripts. *)
Definition subscript (case : dict) (k : string) : res json :=
  match dget case k with Some v => Ok v | None => Err (KeyError k) end.
Definition smoke_payload (case : dict) (repo_url verify_suite model : string) : res dict :=
  let? issue := subscript case "issue_description" in
  let? base := subscript case "case" in
  Ok [("issue_description", issue); ("repo_url", JStr repo_url); ("base_ref", base);
      ("target_files", JList (map JStr (string_list (getd case "target_files"))));
      ("verify_suite", JStr verify_suite); ("model", JStr model)].

Definition render_case_summary (case : dict) : res string :=
  let? name := subscript case "case" in
  Ok (py_str name +:+ " | batch=" +:+ match dget case "batch" with Some v => py_str v | None => "-" end +:+
      " | categories=" +:+ str_join ", " (string_list (getd case "categories"))).

(** ** The runner *)

(** [argparse.Namespace] of the runner. *)
Record SmokeArgs : Type := mkSmokeArgs {
  sa_catalog : string; sa_case : list string; sa_batch : list string; sa_category : list string;
  sa_list : bool; sa_print_payload : bool; sa_run : bool;
  sa_repo_url : string; sa_verify_suite : string; sa_model : string; sa_task_type : string;
  sa_api_url : option string; sa_token : option string;
  sa_idempotency_key : option string; sa_session_id : option string;
  sa_quiet_events : bool; sa_verbose : bool
}.
Definition smoke_parser : list ArgSpec :=
  [mkArg "catalog" ["--catalog"] Valued (Some (JStr DEFAULT_REMOTE_CATALOG_URL));
   mkArg "case" ["--case"] Append (Some (JList [])); mkArg "batch" ["--batch"] Append (Some (JList []));
   mkArg "category" ["--category"] Append (Some (JList []));
   mkArg "list" ["--list"] StoreTrue (Some (JBool false));
   mkArg "print_payload" ["--print-payload"] StoreTrue (Some (JBool false));
   mkArg "run" ["--run"] StoreTrue (Some (JBool false));
   mkArg "repo_url" ["--repo-url"] Valued (Some (JStr DEFAULT_REPO_URL));
   mkArg "verify_suite" ["--verify-suite"] Valued (Some (JStr SMOKE_VERIFY_SUITE));
   mkArg "model" ["--model"] Valued (Some (JStr DEFAULT_MODEL));
   mkArg "task_type" ["--task-type"] Valued (Some (JStr "bug_fix"));
   mkArg "api_url" ["--api-url"] Valued (Some JNull); mkArg "token" ["--token"] Valued (Some JNull);
   mkArg "idempotency_key" ["--idempotency-key"] Valued (Some JNull);
   mkArg "session_id" ["--session-id"] Valued (Some JNull);
   mkArg "quiet_events" ["--quiet-events"] StoreTrue (Some (JBool false));
   mkArg "verbose" ["--verbose"; "-v"] StoreTrue (Some (JBool false))].
Definition attr_strs (args : dict) (k : string) : res (list string) :=
  let? v := attr args k in Ok (string_list v).
(** The attributes [run_smoke] reads. *)
Definition smoke_args (ns : dict) : res SmokeArgs :=
  let? catalog := attr_str ns "catalog" in
  let? case := attr_strs ns "case" in let? batch := attr_strs ns "batch" in
  let? category := attr_strs ns "category" in
  let? list := attr_bool ns "list" in let? print_payload := attr_bool ns "print_payload" in
  let? run := attr_bool ns "run" in
  let? repo_url := attr_str ns "repo_url" in let? verify_suite := attr_str ns "verify_suite" in
  let? model := attr_str ns "model" in let? task_type := attr_str ns "task_type" in
  let? api_url := attr_opt ns "api_url" in let? token := attr_opt ns "token" in
  let? idempotency_key := attr_opt ns "idempotency_key" in let? session_id := attr_opt ns "session_id" in
  let? quiet_events := attr_bool ns "quiet_events" in let? verbose := attr_bool ns "verbose" in
  Ok (mkSmokeArgs catalog case batch category list print_payload run repo_url verify_suite model task_type
        api_url token idempotency_key session_id quiet_events verbose).
(** A command line without arguments. *)
Definition smoke_defaults : SmokeArgs :=
  mkSmokeArgs DEFAULT_REMOTE_CATALOG_URL [] [] [] false false false DEFAULT_REPO_URL SMOKE_VERIFY_SUITE
    DEFAULT_MODEL "bug_fix" None None None None false false.
Example smoke_no_arguments : smoke_args (arg_defaults smoke_parser) = Ok smoke_defaults.
Proof. reflexivity. Qed.

(** [fetch url]: the catalog client; [read path]: [None] if the path is no file,
    else the text, or the error of reading it.  [urlparse]: scheme and netloc. *)
Record CatalogPorts (S : Type) : Type := mkCatalogPorts {
  ct_fetch : string -> M (Term S) CliReply;
  ct_read : string -> M (Term S) (option string);
  ct_urlparse : string -> res (string * string);
  ct_loads : string -> string + json
}.
Arguments mkCatalogPorts {S}. Arguments ct_fetch {S}. Arguments ct_read {S}.
Arguments ct_urlparse {S}. Arguments ct_loads {S}.

Section Runner.
Context {S : Type} (peer : Peer S) (ports : CatalogPorts S) (env : environ) (fuel : nat).

Definition is_http_url (value : string) : res bool :=
  let? p := ct_urlparse ports value in
  Ok ((String.eqb p.1 "http" || String.eqb p.1 "https") && nonempty p.2).

Definition not_json {A} (source : string) : res A :=
  Err (CLIError EXIT_USAGE (smoke_catalog source +:+ " is not valid JSON")).
(** A [ValueError] of reading or decoding the file. *)
Definition undecodable {A} (source : string) (e : exn) : option (M (Term S) A) :=
  match e with ValueError _ => Some (lift (not_json source)) | _ => None end.

Definition load_cases (source : string) : M (Term S) (list dict) :=
  remote <- lift (is_http_url source) ;;
  if remote then
    reply <- ct_fetch ports source ;;
    match reply with
    | TransportError msg =>
        raise (CLIError EXIT_NETWORK ("failed to fetch smoke catalog " +:+ source +:+ ": " +:+ msg))
    | Replied resp =>
        if negb (hr_status resp =? 200)
        then raise (CLIError EXIT_USAGE ("failed to fetch smoke catalog " +:+ source +:+ ": HTTP " +:+
                                         pretty (hr_status resp)))
        else match hr_json resp with
             | inl _ => lift (not_json source)
             | inr decoded => lift (validate_cases decoded source)
             end
    end
  else
    text <- try_except (ct_read ports source) (undecodable source) ;;
    match text with
    | None => raise (CLIError EXIT_USAGE ("smoke catalog not found: " +:+ source))
    | Some text => match ct_loads ports text with
                   | inl _ => lift (not_json source)
                   | inr decoded => lift (validate_cases decoded source)
                   end
    end.

Definition no_match : exn := CLIError 2 "no smoke cases matched the requested filters".
Definition one_case : exn := CLIError 2
  "submit/run requires exactly one matching case; use --list to inspect matches or narrow with --case/--batch/--category".

Definition print_case (case : dict) (u : unit) : M (Term S) unit :=
  line <- lift (render_case_summary case) ;; print_out line.

(** The part of [run_smoke] inside [async with TaskClient(config)]. *)
Definition smoke_submit (args : SmokeArgs) (payload : dict) (cfg : CLIConfig) : M (Term S) Z :=
  task <- client_submit_task peer cfg (sa_task_type args) payload (sa_idempotency_key args) (sa_session_id args) ;;
  task_id <- lift (submitted_id task) ;;
  if negb (sa_run args) then
    (if sa_verbose args
     then print_err ("task submitted: " +:+ task_id +:+ " (" +:+ py_str (getd task "state") +:+ ")")
     else ret tt) ;;;
    print_out task_id ;;;
    ret EXIT_OK
  else
    print_err ("task: " +:+ task_id) ;;;
    tail_until_terminal peer cfg fuel task_id (negb (sa_quiet_events args)) None.

Definition run_smoke (args : SmokeArgs) : M (Term S) Z :=
  cases <- load_cases (sa_catalog args) ;;
  let selected := select_cases cases (sa_case args) (sa_batch args) (sa_category args) in
  if sa_list args then
    match selected with
    | [] => raise no_match
    | _ => for_each selected tt print_case ;;; ret EXIT_OK
    end
  else match selected with
  | [] => raise no_match
  | [case] =>
      payload <- lift (smoke_payload case (sa_repo_url args) (sa_verify_suite args) (sa_model args)) ;;
      if sa_print_payload args then print_out (dumps_indent 0 (JDict payload)) ;;; ret EXIT_OK
      else
        config <- lift (cli_config_from_env (sa_api_url args) (sa_token args) env) ;;
        on_peer (pr_open peer config) ;;;
        try_finally (smoke_submit args payload config) (on_peer (pr_close peer))
  | _ => raise one_case
  end.

(** [split] is [argparse]: the options given on the command line. *)
Definition smoke_main (split : list string -> res dict) (argv : list string) : M (Term S) Z :=
  given <- lift (split argv) ;;
  args <- lift (smoke_args (dupdate (arg_defaults smoke_parser) given)) ;;
  try_except (run_smoke args) (exit_on "smoke_case_runner").
End Runner.
