(* ===== verification/SmokeFacts.v ===== *)
(** * SmokeFacts: from a catalog entry to a runnable bug-fix task *)

From S2P Require Import Prelude PyText Utf8 Domain Cursor Keyset GraphRuntime Gates Results Persistence PersistenceFacts Approval Worker ShellAgentFacts BugFix Configs Reporting Auth Observability QueryApi Api Langfuse Cli CliFacts Server ServerFacts Smoke.

(** ** What validation establishes *)

Record case_ok (d : dict) (name issue : string) (files : list string) : Prop := mkCaseOk {
  co_name : dget d "case" = Some (JStr name) /\ nonempty name = true;
  co_issue : dget d "issue_description" = Some (JStr issue) /\ nonempty issue = true;
  co_files : getd d "target_files" = JList (map JStr files) /\ files <> [] /\
    Forall (fun f => nonempty f = true) files
}.

Lemma nonempty_str_inv v s : as_nonempty_str v = Some s -> v = JStr s /\ nonempty s = true.
Proof.
  destruct v; try done. simpl. destruct (String.eqb_spec s0 "") as [->|Hne]; [done|]. intros [= <-].
  split; [done|by apply nonempty_true].
Qed.
Lemma getd_str d k s : getd d k = JStr s -> dget d k = Some (JStr s).
Proof. unfold getd. destruct (dget d k); simpl; naive_solver. Qed.

Lemma nonempty_strs l :
  forallb (fun v => match as_nonempty_str v with Some _ => true | None => false end) l = true ->
  exists fs, l = map JStr fs /\ Forall (fun f => nonempty f = true) fs.
Proof.
  induction l as [|v l IH]; simpl; [intros _; by exists []|]. rewrite andb_true_iff. intros [Hv Hl].
  destruct (as_nonempty_str v) as [s|] eqn:E; [|done]. apply nonempty_str_inv in E as [-> Hs].
  destruct (IH Hl) as (fs & -> & Hfs). exists (s :: fs). by split; [|constructor].
Qed.

Lemma validate_case_inv source idx item d :
  validate_case source idx item = Ok d -> item = JDict d /\ exists name issue files, case_ok d name issue files.
Proof.
  unfold validate_case. destruct item as [| | | | | |d0]; try done.
  destruct (as_nonempty_str (getd d0 "case")) as [name|] eqn:Hn; [|done].
  destruct (as_nonempty_str (getd d0 "issue_description")) as [issue|] eqn:Hi; [|done].
  destruct (getd d0 "target_files") as [| | | | |[|v l]|] eqn:Hf; try done.
  destruct (forallb _ (v :: l)) eqn:Hall; [|done]. intros [= <-]. split; [done|].
  apply nonempty_str_inv in Hn as [Hn Hn']. apply nonempty_str_inv in Hi as [Hi Hi'].
  destruct (nonempty_strs _ Hall) as (fs & E & Hfs). exists name, issue, fs.
  split; [by split; [apply getd_str|]..|]. rewrite Hf, E. split; [done|]. split; [by destruct fs|done].
Qed.

(** A catalog is accepted as a whole: every entry is an object with a name, an
    issue and target files, and none is dropped or changed. *)
Theorem validate_cases_sound raw source cases :
  validate_cases raw source = Ok cases ->
  raw = JList (map JDict cases) /\ Forall (fun d => exists name issue files, case_ok d name issue files) cases.
Proof.
  unfold validate_cases. destruct raw as [| | | | |items|]; try done.
  cut (forall idx, validate_from source idx items = Ok cases -> items = map JDict cases /\
    Forall (fun d => exists name issue files, case_ok d name issue files) cases).
  { intros H Hv. destruct (H _ Hv) as [-> ?]. by split. }
  revert cases. induction items as [|item items IH]; intros cases idx; simpl; [intros [= <-]; by split|].
  intros (d & Hd & (ds & Hds & [= <-])%res_bind_inv)%res_bind_inv.
  apply validate_case_inv in Hd as [-> Hd]. destruct (IH _ _ Hds) as [-> Hall]. by split; [|constructor].
Qed.

(** ** The payload *)

Lemma string_list_strs fs : string_list (JList (map JStr fs)) = fs.
Proof. unfold string_list. induction fs as [|f fs IH]; [done|]. csimpl. by rewrite IH. Qed.

Definition case_request (name issue : string) (files : list string) (repo suite model : string) : BugFixInputPayload :=
  mkBugFixPayload issue repo (Some name) files suite (Some model) None.

Section Accepted.
Context {PI : PydanticInt}.
Context (case : dict) (name issue : string) (files : list string) (repo suite model : string).
Context (Hcase : case_ok case name issue files) (Hblank : Forall (fun f => nonempty (py_strip f) = true) files).
Context (Hrepo : nonempty repo = true) (Hmodel : nonempty model = true) (Hsuite : In suite VERIFY_SUITES).

Definition case_payload : dict :=
  [("issue_description", JStr issue); ("repo_url", JStr repo); ("base_ref", JStr name);
   ("target_files", JList (map JStr files)); ("verify_suite", JStr suite); ("model", JStr model)].

Lemma smoke_payload_run : smoke_payload case repo suite model = Ok case_payload.
Proof.
  destruct Hcase as [[Hn _] [Hi _] [Hf _]]. unfold smoke_payload, subscript. rewrite Hi, Hn, Hf.
  by rewrite string_list_strs.
Qed.

Lemma str_field_of d k v : dget d k = Some (JStr v) -> nonempty v = true ->
  Api.str_field d k = Ok v /\ body_opt_str d k = Ok (Some v).
Proof.
  intros Hd Hv%nonempty_true. unfold Api.str_field, body_opt_str. rewrite Hd. simpl.
  by apply String.eqb_neq in Hv as ->.
Qed.

Lemma case_payload_valid : bug_fix_validate case_payload = Ok (case_request name issue files repo suite model).
Proof using Hcase Hblank Hrepo Hmodel Hsuite.
  destruct Hcase as [[_ Hn] [_ Hi] (_ & Hne & _)]. unfold bug_fix_validate.
  rewrite (proj1 (str_field_of case_payload "issue_description" issue eq_refl Hi)).
  rewrite (proj1 (str_field_of case_payload "repo_url" repo eq_refl Hrepo)).
  rewrite (proj2 (str_field_of case_payload "base_ref" name eq_refl Hn)).
  rewrite (proj2 (str_field_of case_payload "model" model eq_refl Hmodel)).
  assert (enum_field (fun s => List.find (String.eqb s) VERIFY_SUITES) case_payload "verify_suite"
    (Some "python_test") = Ok suite) as ->.
  { unfold enum_field, case_payload. simpl. simpl in Hsuite. by destruct Hsuite as [<-|[<-|[<-|[<-|[]]]]]. }
  change (dget case_payload "target_files") with (Some (JList (map JStr files))).
  destruct files as [|f fs]; [done|]. cbn [map].
  change (JStr f :: map JStr fs) with (map JStr (f :: fs)).
  rewrite (mapM_res_map _ JStr (f :: fs)) by (apply Forall_forall; done). cbn -[forallb].
  assert (forallb (fun p => nonempty (py_strip p)) (f :: fs) = true) as ->; [|done].
  apply forallb_forall. rewrite Forall_forall in Hblank. intros x Hx. by apply Hblank, list_elem_of_In.
Qed.

Definition case_submission (idem session : option string) : SubmitTaskRequest :=
  mkSubmit BUG_FIX (bug_fix_dump (case_request name issue files repo suite model)) None idem session AUTO BP_NONE None.
Definition given (o : option string) : Prop := match o with Some k => nonempty k = true | None => True end.

Lemma smoke_body_accepted idem session :
  given idem -> given session ->
  submit_validate (submit_body "bug_fix" case_payload idem session) = Ok (case_submission idem session).
Proof using Hcase Hblank Hrepo Hmodel Hsuite.
  intros Hidem Hses. unfold submit_validate. set (body := submit_body "bug_fix" case_payload idem session).
  assert (body_opt_str body "idempotency_key" = Ok idem) as ->.
  { subst body. destruct idem as [k|], session; try done; by apply str_field_of. }
  assert (body_opt_str body "session_id" = Ok session) as ->.
  { subst body. destruct idem, session as [k|]; try done; by apply str_field_of. }
  assert (only_keys ["task_type"; "input_payload"; "graph_id"; "idempotency_key"; "session_id";
    "permission_mode"; "budget_policy"; "budget_threshold_micros"] body = Ok tt) as -> by (subst body; by destruct idem, session).
  assert (dget body "input_payload" = Some (JDict case_payload)) as -> by done.
  assert (body_opt_str body "graph_id" = Ok None /\
    enum_field TaskType_of_value body "task_type" None = Ok BUG_FIX /\
    enum_field PermissionMode_of_value body "permission_mode" (Some AUTO) = Ok AUTO /\
    enum_field BudgetPolicy_of_value body "budget_policy" (Some BP_NONE) = Ok BP_NONE /\
    body_opt_int 0 body "budget_threshold_micros" = Ok None) as (-> & -> & -> & -> & ->)
    by (subst body; by destruct idem, session).
  cbn [res_bind]. unfold validate_bug_fix_payload. cbn [sr_task_type sr_input_payload].
  by rewrite case_payload_valid.
Qed.
End Accepted.

(** ** The whole way *)

Section EndToEnd.
Context {PI : PydanticInt} (validate : TokenValidator) (topic : string) (iso : Z -> string).
Context (render : dict -> string) (other : HttpRequest -> M World CliResponse) (elsewhere : Z -> M World unit).
Context (ports : CatalogPorts World) (env : environ) (fuel : nat).

Notation peer := (api_peer validate topic iso render other elsewhere).

Lemma load_cases_ok source w cases w' :
  load_cases ports source w = (Ok cases, w') ->
  Forall (fun d => exists name issue files, case_ok d name issue files) cases.
Proof.
  assert (forall decoded w1 w2, lift (validate_cases decoded source) w1 = (Ok cases, w2 : Term World) ->
    Forall (fun d => exists name issue files, case_ok d name issue files) cases) as Hv.
  { intros decoded w1 w2 [= H _]. exact (proj2 (validate_cases_sound _ _ _ H)). }
  intros (remote & w1 & _ & H)%bind_inv_ok. destruct remote.
  - apply bind_inv_ok in H as ([r|m] & w2 & _ & H); [|done]. destruct (negb _); [done|].
    destruct (hr_json r); [done|]. by eapply Hv.
  - apply bind_inv_ok in H as ([t|] & w2 & _ & H); [|done]. destruct (ct_loads ports t); [done|]. by eapply Hv.
Qed.

(** C32: a smoke case goes all the way: when the filters leave one case of the
    catalog, whose target files are not blank, and the API accepts the token and
    answers, the runner prints the identifier of the task it has created and
    returns 0; the stored task is a bug fix whose payload passes every check of the
    bug-fix graph, which reads the case's issue, its branch as the base ref, its
    target files and the requested suite. *)
Theorem smoke_case_runs args cases case cfg ctx w0 w w1 :
  sa_list args = false -> sa_print_payload args = false -> sa_run args = false -> sa_verbose args = false ->
  sa_task_type args = "bug_fix" -> given (sa_idempotency_key args) -> given (sa_session_id args) ->
  nonempty (sa_repo_url args) = true -> nonempty (sa_model args) = true -> In (sa_verify_suite args) VERIFY_SUITES ->
  load_cases ports (sa_catalog args) w0 = (Ok cases, w) ->
  select_cases cases (sa_case args) (sa_batch args) (sa_category args) = [case] ->
  Forall (fun f => nonempty (py_strip f) = true) (string_list (getd case "target_files")) ->
  cli_config_from_env (sa_api_url args) (sa_token args) env = Ok cfg ->
  get_request_ctx validate (Some (bearer cfg)) None (tm_peer w) = (Ok ctx, w1) -> submittable topic ctx w1 ->
  exists name issue files, case_ok case name issue files /\
    let req := case_submission name issue files (sa_repo_url args) (sa_verify_suite args) (sa_model args)
                 (sa_idempotency_key args) (sa_session_id args) in
    (submission_refused topic req ctx w1 = false ->
     exists w', run_smoke peer ports env fuel args w0 = (Ok 0, w') /\
       tm_out w' = tm_out w ++ [t_task_id (new_task req ctx w1) +:+ newline] /\
       w_db (tm_peer w') = after_submission topic req ctx w1) /\
    forall s, carries s (t_input_payload (new_task req ctx w1)) ->
      required_str s "issue_description" = Ok issue /\ optional_str s "base_ref" = Ok (Some name) /\
      target_files s = Ok files /\ verify_suite s = Ok (sa_verify_suite args).
Proof.
  intros Hlist Hprint Hrun Hverb Htype Hidem Hses Hrepo Hmodel Hsuite Hload Hsel Hblank Hcfg Hctx Hsub.
  pose proof (load_cases_ok _ _ _ _ Hload) as Hall. rewrite Forall_forall in Hall.
  assert (In case cases) as Hin.
  { assert (In case [case]) as H by by left. rewrite <- Hsel in H. by apply filter_In in H as [H _]. }
  destruct (Hall case) as (name & issue & files & Hok); [by apply list_elem_of_In|].
  exists name, issue, files. split; [done|]. pose proof (co_files _ _ _ _ Hok) as (Hf & _ & _).
  rewrite Hf, string_list_strs in Hblank. cbv zeta. split.
  - intros Href.
    pose proof (smoke_body_accepted case name issue files _ _ _ Hok Hblank Hrepo Hmodel Hsuite _ _ Hidem Hses) as Hv.
    destruct (client_submit_run validate topic iso render other elsewhere cfg _ _ _ _ _ ctx w1 w Hctx Hv Hsub)
      as (w2 & Hr & Hdb). rewrite Href in Hr, Hdb.
    unfold run_smoke, bind at 1. rewrite Hload. cbv zeta. rewrite Hlist, Hsel. unfold bind at 1, lift.
    rewrite (smoke_payload_run case name issue files) by done. rewrite Hprint. unfold bind at 1. rewrite Hcfg.
    unfold bind at 1, on_peer at 1. cbn [api_peer pr_open ret].
    replace (mkTerm (tm_peer w) (tm_sent w) (tm_out w) (tm_err w) (tm_slept w)) with w by by destruct w.
    unfold try_finally, smoke_submit, bind at 1. rewrite Htype, Hr, Hrun, Hverb.
    eexists. split; [reflexivity|]. split; [done|exact Hdb].
  - intros s Hs.
    pose proof (case_payload_valid case name issue files _ _ _ Hok Hblank Hrepo Hmodel Hsuite) as Hv.
    destruct (bug_fix_payload_read _ _ s Hv Hs) as (H1 & _ & H2 & H3 & H4 & _). done.
Qed.
End EndToEnd.
