(* ===== verification/Telemetry.v ===== *)
(** * Telemetry: structured logs and spans

    [infra/observability/logging.py] and [tracing.py].  The state of the [logging]
    module that matters here is the root logger: its handlers, their formatter and
    filters, and the module's own flag.  A record carries the attributes its
    [extra] gave it.  The tracer is a port that is told the attributes of a span;
    the span identifiers of a context are never set in this code base and are
    read as absent. *)

From S2P Require Import Prelude PyText Utf8 JsonText Domain Persistence.

(** ** Context attributes *)

(** [getattr(ctx, key, None)]. *)
Definition ctx_attr (ctx : RequestContext) (key : string) : option string :=
  if String.eqb key "tenant_id" then Some (ctx_tenant_id ctx)
  else if String.eqb key "principal_id" then Some (ctx_principal_id ctx)
  else if String.eqb key "session_id" then ctx_session_id ctx
  else if String.eqb key "task_id" then ctx_task_id ctx
  else if String.eqb key "trace_id" then Some (ctx_trace_id ctx)
  else if String.eqb key "request_id" then Some (ctx_request_id ctx)
  else if String.eqb key "idempotency_key" then ctx_idempotency_key ctx
  else None.
Definition bound_attr (ctx : option RequestContext) (key : string) : option string := ctx ≫= fun c => ctx_attr c key.

(** ** [logging.py] *)

Definition CONTEXT_LOG_KEYS : list string :=
  ["tenant_id"; "principal_id"; "session_id"; "task_id"; "trace_id"; "span_id"; "parent_span_id"; "request_id";
   "idempotency_key"].

Record LogRecord : Type := mkLogRecord {
  lr_time : string;                 (** [formatTime] of the record *)
  lr_level : string; lr_name : string; lr_message : string;
  lr_exc_info : option string;      (** the formatted traceback *)
  lr_attrs : list (string * option string)
}.

(** [ContextFilter.filter]: [setattr] of every key, and the record passes. *)
Definition context_filter (ctx : option RequestContext) (r : LogRecord) : LogRecord :=
  mkLogRecord (lr_time r) (lr_level r) (lr_name r) (lr_message r) (lr_exc_info r)
    (fold_left (fun attrs key => dset attrs key (bound_attr ctx key)) CONTEXT_LOG_KEYS (lr_attrs r)).

(** The fields [JsonFormatter.format] writes, in order. *)
Definition log_payload (r : LogRecord) : list (string * string) :=
  [("ts", lr_time r); ("level", lr_level r); ("logger", lr_name r); ("message", lr_message r)] ++
  omap (fun key => v ← default None (dget (lr_attrs r) key); Some (key, v)) CONTEXT_LOG_KEYS ++
  match lr_exc_info r with Some t => [("exc_info", t)] | None => [] end.
Definition json_format (r : LogRecord) : string :=
  dumps_with false (JDict (map (fun kv => (kv.1, JStr kv.2)) (log_payload r))).

(** The root logger. *)
Record LogHandler : Type := mkLogHandler { lh_stream : string; lh_json : bool; lh_context : bool }.
Record LogState : Type := mkLogState { ls_configured : bool; ls_handlers : list LogHandler; ls_level : Z }.
Definition configure_logging (level : Z) (stream : option string) (s : LogState) : LogState :=
  if ls_configured s then s
  else mkLogState true [mkLogHandler (default "stderr" stream) true true] level.
Definition reset_logging (s : LogState) : LogState := mkLogState false [] (ls_level s).

(** What a configured process writes for a record. *)
Definition log_line (ctx : option RequestContext) (r : LogRecord) : string := json_format (context_filter ctx r).

(** ** [tracing.py] *)

Definition CONTEXT_SPAN_ATTRS : list string :=
  ["tenant_id"; "principal_id"; "session_id"; "task_id"; "request_id"; "idempotency_key"].

Record TraceState : Type := mkTraceState { tr_configured : bool; tr_provider : option (string * option string) }.
(** A provider is its service name and the exporter of its processor. *)
Definition configure_tracing (service_name : string) (exporter : option string) (s : TraceState) : TraceState :=
  if tr_configured s then s else mkTraceState true (Some (service_name, exporter)).

Section Spans.
Context {W : Type} `{HC : HasContext W}.
(** [tracer.start_as_current_span(name, attributes=..)]: entered and left. *)
Context (span_enter : string -> dict -> M W unit) (span_leave : M W unit).

Definition span_attributes (ctx : option RequestContext) (attributes : dict) : dict :=
  dupdate (match ctx with
           | None => []
           | Some c => omap (fun key => v ← ctx_attr c key; Some (key, JStr v)) CONTEXT_SPAN_ATTRS
           end) attributes.
Definition start_span {A} (name : string) (attributes : dict) (body : M W A) : M W A := fun w =>
  (span_enter name (span_attributes (current_ctx w) attributes) ;;; try_finally body span_leave) w.
End Spans.

(** ** What a log line holds *)

Lemma bound_attr_None key : bound_attr None key = None.
Proof. done. Qed.

Lemma filter_attrs ctx keys attrs key :
  dget (fold_left (fun a k => dset a k (bound_attr ctx k)) keys attrs) key =
  if existsb (String.eqb key) keys then Some (bound_attr ctx key) else dget attrs key.
Proof.
  revert attrs. induction keys as [|k keys IH]; intros attrs; simpl; [done|]. rewrite IH, dget_dset.
  rewrite (String.eqb_sym key k). destruct (String.eqb_spec k key) as [->|]; simpl; [|done].
  by destruct (existsb _ keys).
Qed.

(** The identifiers of a line are those of the bound context, and nothing of the
    record's own attributes reaches it: an identifier passed as [extra] is
    overwritten, and dropped when no context is bound. *)
Theorem log_line_context ctx r :
  log_payload (context_filter ctx r) =
  [("ts", lr_time r); ("level", lr_level r); ("logger", lr_name r); ("message", lr_message r)] ++
  omap (fun key => v ← bound_attr ctx key; Some (key, v)) CONTEXT_LOG_KEYS ++
  match lr_exc_info r with Some t => [("exc_info", t)] | None => [] end.
Proof.
  unfold log_payload, context_filter. cbn [lr_time lr_level lr_name lr_message lr_exc_info lr_attrs].
  f_equal. f_equal. apply list_omap_ext. apply Forall_Forall2_diag, Forall_forall. intros key Hkey.
  rewrite filter_attrs. assert (existsb (String.eqb key) CONTEXT_LOG_KEYS = true) as ->; [|done].
  apply existsb_exists. exists key. rewrite String.eqb_refl. split; [by apply list_elem_of_In|done].
Qed.

Corollary log_extra_lost r attrs :
  log_line None (mkLogRecord (lr_time r) (lr_level r) (lr_name r) (lr_message r) (lr_exc_info r) attrs) = log_line None r.
Proof. unfold log_line, json_format. by rewrite !log_line_context. Qed.

(** A record is one line of output, whatever the message, the names and the
    traceback contain: no caller can forge a second record. *)
Theorem log_line_is_one_line ctx r : one_line (log_line ctx r).
Proof. apply flat_record_line. Qed.

Theorem configure_logging_once level level' stream stream' s :
  configure_logging level' stream' (configure_logging level stream s) = configure_logging level stream s.
Proof. unfold configure_logging. by destruct (ls_configured s) eqn:E; simpl; rewrite ?E. Qed.

(** A span carries the caller's attributes, and the identifiers of the context the
    caller did not name. *)
Theorem span_attributes_spec ctx attributes key :
  NoDup attributes.*1 ->
  dget (span_attributes ctx attributes) key =
  match dget attributes key with
  | Some v => Some v
  | None => if existsb (String.eqb key) CONTEXT_SPAN_ATTRS then JStr <$> bound_attr ctx key else None
  end.
Proof.
  intros Hn. unfold span_attributes. rewrite dget_dupdate by done. destruct (dget attributes key); [done|].
  destruct ctx as [c|]; [|by destruct (existsb _ _)]. unfold bound_attr. cbn [mbind option_bind].
  unfold CONTEXT_SPAN_ATTRS. cbn [omap list_omap existsb].
  repeat match goal with
  | |- context [String.eqb key ?k] => destruct (String.eqb_spec key k) as [->|?];
      [destruct c as [? ? ? ? [] [] []]; done|]
  end.
  destruct c as [? ? ? ? [] [] []]; cbn;
    repeat match goal with H : key <> ?k |- _ => apply String.eqb_neq in H; rewrite ?H; clear H end; done.
Qed.
