(* ===== verification/Scenarios.v ===== *)
(** * Scenarios: concrete runs of the library

    A small concrete database, one tenant with one task, on which the theorems
    about the repositories, the operator gateway and the registry are applied.
    Every hypothesis is discharged by evaluation. *)

From S2P Require Import Prelude Domain GraphRuntime SystemGraphs Gates Results Persistence PersistenceFacts Approval Worker WorkerFacts WorkerRuns Outbox.

(** Tenant [acme], task [t1] paused at a gate, two clock ticks a second apart. *)
Definition demo_task (st : TaskState) : Task :=
  mkTask "t1" "acme" None "alice" "tr1" None SYSTEM_ECHO None st AUTO BP_NONE None
    [("message", JStr "hi")] 100 200.

Definition demo_ctx : RequestContext := mkContext "acme" "alice" "tr1" "r1" None (Some "t1") None.

Definition demo_snapshot : TaskRunState :=
  mkRunState "t1" "acme" "tr1" "g" "gate" 1 [] false true None.

Definition demo_checkpoint : TaskCheckpoint :=
  mkCheckpoint "c1" "t1" "acme" "tr1" "gate" 1 (model_dump demo_snapshot) 200.

Definition demo_db (st : TaskState) : Db :=
  mkDb {[ "t1" := mkTaskRow (demo_task st) None ]} [demo_checkpoint] [] [] ∅ [] [].

Definition demo_world (c : option RequestContext) (st : TaskState) : World :=
  mkWorld c (demo_db st) [] (fun n => 1000 + Z.of_nat n) 0 (fun n => "id" +:+ pretty (Z.of_nat n)) 0
    (fun _ => None) 0.

Definition demo_result : TaskResult :=
  mkTaskResult "t1" "acme" "tr1" "g" RS_succeeded None None 3 200 900.

Lemma demo_bound st : bound_to (demo_world (Some demo_ctx) st) "acme".
Proof. by exists demo_ctx. Qed.

(** ** Registry *)

Definition demo_registry : Registry.GraphRegistry unit unit :=
  let r1 := (Registry.register Echo.ECHO_GRAPH_ID (fun _ => Echo.build_echo_graph) (Some SYSTEM_ECHO) false
               Registry.empty_registry).2 in
  (Registry.materialize tt r1).2.

Lemma demo_registry_reachable : RegistryFacts.reachable demo_registry.
Proof.
  eapply RegistryFacts.reach_materialize; [|apply surjective_pairing].
  eapply RegistryFacts.reach_register; [apply RegistryFacts.reach_empty|apply surjective_pairing].
Qed.

Lemma resolve_sound_witness :
  exists g, Registry.resolve demo_registry SYSTEM_ECHO None = Ok g /\ compile g = Ok tt.
Proof.
  pose proof (RegistryFacts.resolve_sound demo_registry SYSTEM_ECHO None demo_registry_reachable) as H.
  assert (Hok : match Registry.resolve demo_registry SYSTEM_ECHO None with
                | Ok _ => True | Err _ => False end) by exact I.
  destruct (Registry.resolve demo_registry SYSTEM_ECHO None) as [g|e]; [|destruct Hok].
  exists g. split; [reflexivity|exact (proj1 H)].
Defined.

(** ** Repositories *)

Lemma complete_spec_witness :
  let w := demo_world (Some demo_ctx) RUNNING in
  let out := complete "acme" "t1" demo_result SUCCEEDED 900 w in
  out.1 = Ok tt /\
  w_db out.2 = with_tasks (<["t1" := mkTaskRow (task_with_state (demo_task RUNNING) SUCCEEDED 900)
                                       (Some demo_result)]>) (w_db w).
Proof.
  exact (complete_spec "acme" "t1" demo_result SUCCEEDED 900 (demo_world (Some demo_ctx) RUNNING)
           (demo_bound RUNNING) eq_refl eq_refl).
Defined.

Definition next_checkpoint : TaskCheckpoint :=
  mkCheckpoint "c2" "t1" "acme" "tr1" "gate" 2 (model_dump demo_snapshot) 300.

Lemma demo_checkpoints_unique st : checkpoints_unique (demo_db st).
Proof.
  intros i j a b Hi Hj _ _. simpl in *.
  apply list_lookup_singleton_Some in Hi as [-> _], Hj as [-> _]. done.
Qed.

Lemma checkpoint_append_latest_witness :
  exists w' w'', append_checkpoint next_checkpoint (demo_world (Some demo_ctx) RUNNING) = (Ok tt, w') /\
    latest "acme" "t1" w' = (Ok (Some next_checkpoint), w'').
Proof.
  pose proof (checkpoint_append_latest next_checkpoint (demo_world (Some demo_ctx) RUNNING)
    (demo_bound RUNNING) (fun _ => eq_refl) (demo_checkpoints_unique RUNNING)) as H.
  destruct (append_checkpoint next_checkpoint (demo_world (Some demo_ctx) RUNNING)) as [[[]|e] w'] eqn:E.
  - destruct H as (_ & w'' & H).
    { intros x Hx. apply list_elem_of_singleton in Hx as ->. reflexivity. }
    exists w', w''. split; [reflexivity|exact H].
  - vm_compute in E. discriminate E.
Defined.

(** ** Operator decisions *)

Definition paused_graph : Graph unit :=
  mkGraph "g" [("gate", gate "only" "work" None); ("work", fun _ => ret (node_update []))]
    [("gate", mkEdge (Some "work") None); ("work", mkEdge (Some END) None)] (Some "gate").

Lemma paused_graph_compiled : compiled paused_graph.
Proof.
  assert (H : (let? g := new_graph "g" in
               let? g := add_node g "gate" (gate "only" "work" None) in
               let? g := add_node g "work" (fun _ => ret (node_update [])) in
               let? g := set_entry g "gate" in
               let? g := add_edge g "gate" "work" in
               let? g := add_edge g "work" END in
               let? _ := compile g in Ok g) = Ok paused_graph) by reflexivity.
  solve_compiled H.
Qed.

Lemma demo_snapshot_wf : wf_state paused_graph demo_snapshot.
Proof. split; simpl; try done; right; right; reflexivity. Qed.

Lemma decision_resumes_gate_witness :
  exists snap s1 s2,
    merge_decision (model_dump demo_snapshot) "approve" (Some "go on") 2 = Ok snap /\
    model_validate snap = Ok s1 /\ step paused_graph s1 tt = (Ok s2, tt) /\
    current_node s2 = "work".
Proof.
  destruct (decision_resumes_gate paused_graph demo_snapshot "only" "work" None "approve"
              (Some "go on") tt paused_graph_compiled demo_snapshot_wf)
    as (snap & s1 & s2 & H1 & H2 & H3 & _ & H4 & _);
    [by repeat split|reflexivity|discriminate|reflexivity|by right|by left|by left|].
  exists snap, s1, s2. split_and!; [exact H1|exact H2|exact H3|exact H4].
Defined.

Definition demo_event (id key : string) : OutboxEvent :=
  mkOutboxEvent id "acme" "tr1" "task" "t1" "task.commands" [] key OB_PENDING 0 300 None.

(** The paused task, after the first of two operators has approved it. *)
Definition approved_world : World :=
  (resume_tx next_checkpoint "acme" "t1" RUNNING 300 (demo_event "e1" "resume:t1:2")
     (demo_world (Some demo_ctx) AWAITING_APPROVAL)).2.

Lemma racing_decisions_witness :
  exists e w2,
    resume_tx next_checkpoint "acme" "t1" CANCELLED 301 (demo_event "e2" "k2") approved_world
      = (Err e, w2) /\ w_db w2 = w_db approved_world.
Proof.
  apply (racing_decisions next_checkpoint next_checkpoint "acme" "t1" RUNNING CANCELLED 300 301
           (demo_event "e1" "resume:t1:2") (demo_event "e2" "k2")
           (demo_world (Some demo_ctx) AWAITING_APPROVAL)).
  - vm_compute. reflexivity.
  - discriminate.
Defined.

Lemma sweeper_unbound_expires_nothing_witness :
  let w := demo_world None AWAITING_APPROVAL in
  t_state <$> (row_task <$> db_tasks (w_db (sweeper_run_once 0 10 (fun _ => "") w).2) !! "t1")
  = Some AWAITING_APPROVAL.
Proof.
  cbv zeta.
  rewrite (proj1 (sweeper_unbound_expires_nothing 0 10 (fun _ => "")
                    (demo_world None AWAITING_APPROVAL) eq_refl)).
  reflexivity.
Defined.

(** ** The worker *)

Definition bare_ports : Ports := mkPorts None None None true None None None None.

Lemma bare_ports_quiet : quiet_ports bare_ports.
Proof. by split. Qed.

Definition echo_registry : Registry.GraphRegistry World unit :=
  Registry.mkRegistry [(Echo.ECHO_GRAPH_ID, fun _ => Echo.build_echo_graph)]
    [(TaskType_value SYSTEM_ECHO, Echo.ECHO_GRAPH_ID)] [(Echo.ECHO_GRAPH_ID, Echo.echo_graph)] [] true.

Lemma echo_registry_quiet : quiet_nodes echo_registry.
Proof.
  intros gid g n fn s Hg Hn. simpl in Hg. destruct (String.eqb gid Echo.ECHO_GRAPH_ID); [|done].
  injection Hg as <-. revert Hn. unfold Echo.echo_graph. simpl.
  repeat (match goal with |- context [String.eqb ?a ?b] => destruct (String.eqb a b) end;
          [intros [= <-]; by intros w|]).
  done.
Qed.

Definition demo_message (count : Z) : DeliveredMessage :=
  mkDelivered
    (mkEnvelope "m1" "task.commands" "acme" "tr1" "k" None None (Some "t1") None None None "task" []
       0 100 100) "1-0" count.

Definition no_str : exn -> string := fun _ => "".
Definition iso0 : Z -> string := fun _ => "".

Abbreviation handle_echo fuel count w :=
  (handle echo_registry bare_ports 3 no_str no_str iso0 fuel (demo_message count) w).

(** The same database without checkpoints: a task that was never started. *)
Definition fresh_world (st : TaskState) : World :=
  mkWorld None (mkDb {[ "t1" := mkTaskRow (demo_task st) None ]} [] [] [] ∅ [] []) []
    (fun n => 1000 + Z.of_nat n) 0 (fun n => "id" +:+ pretty n) 0 (fun _ => None) 0.

Lemma fresh_world_keyed st : keyed (w_db (fresh_world st)).
Proof.
  intros id r Hr. simpl in Hr. apply lookup_singleton_Some in Hr as [<- <-]. done.
Qed.

Lemma fresh_world_ids st : fresh_ids (fresh_world st).
Proof.
  split; simpl.
  - intros i j E. by apply (inj (String.append "id")) in E; apply (inj pretty) in E.
  - intros n _. apply lookup_singleton_ne. intros E. injection E. intros _ E'. done.
Qed.

Lemma handle_safe_witness :
  let w' := (handle_echo 10 1 (fresh_world PENDING)).2 in
  w_acked w' = ["1-0"] /\ (t_state <$> (row_task <$> db_tasks (w_db w') !! "t1")) = Some SUCCEEDED /\
  evolves (w_db (fresh_world PENDING)) (w_db w').
Proof.
  cbv zeta. split; [vm_compute; reflexivity|]. split; [vm_compute; reflexivity|].
  exact (proj1 (handle_safe echo_registry bare_ports 3 no_str no_str iso0 bare_ports_quiet
           echo_registry_quiet (demo_message 1) 10 (fresh_world PENDING) (fresh_world_keyed PENDING)
           (fresh_world_ids PENDING))).
Defined.

(** A worker whose registry has no graph for the task. *)
Definition no_graphs : Registry.GraphRegistry World unit := Registry.mkRegistry [] [] [] [] true.

Lemma poison_never_acked_witness :
  let out := handle no_graphs bare_ports 3 no_str no_str iso0 10 (demo_message 4) (fresh_world PENDING) in
  w_acked out.2 = [] /\ exists x, out.1 = Err x.
Proof.
  cbv zeta.
  destruct (poison_never_acked no_graphs bare_ports 3 no_str no_str iso0 bare_ports_quiet
              (demo_message 4) 10 (fresh_world PENDING) "t1" (mkTaskRow (demo_task PENDING) None)
              (GraphError "no default graph registered for task_type")
              eq_refl eq_refl eq_refl eq_refl) as (H1 & _ & H3).
  split; [exact H1|apply H3; reflexivity].
Defined.

Lemma build_result_spec_witness :
  let s := mkRunState "t1" "acme" "tr1" "g" END 3 [] true false (Some "boom") in
  exists r, build_result (demo_task RUNNING) Echo.echo_graph s 5 9 = Ok (r, FAILED) /\ result_contract r.
Proof.
  cbv zeta.
  pose proof (build_result_spec (demo_task RUNNING) Echo.echo_graph
    (mkRunState "t1" "acme" "tr1" "g" END 3 [] true false (Some "boom")) 5 9
    eq_refl eq_refl eq_refl eq_refl ltac:(discriminate)) as H.
  eexists. split; [reflexivity|]. exact (proj1 H).
Defined.

Lemma drive_fuel_irrelevant_witness :
  let s := initial_state "t1" "acme" "tr1" Echo.ECHO_GRAPH_ID [] in
  let w := with_ctx (Some demo_ctx) (fresh_world RUNNING) in
  drive bare_ports (demo_task RUNNING) Echo.echo_graph 50 s w
  = drive bare_ports (demo_task RUNNING) Echo.echo_graph 3 s w.
Proof.
  cbv zeta.
  set (s := initial_state "t1" "acme" "tr1" Echo.ECHO_GRAPH_ID []).
  set (w := with_ctx (Some demo_ctx) (fresh_world RUNNING)).
  transitivity ((drive bare_ports (demo_task RUNNING) Echo.echo_graph 3 s w).1,
                (drive bare_ports (demo_task RUNNING) Echo.echo_graph 3 s w).2);
    [|symmetry; apply surjective_pairing].
  apply (drive_fuel_irrelevant bare_ports (demo_task RUNNING) Echo.echo_graph 3 47 s w);
    [apply surjective_pairing|].
  vm_compute. discriminate.
Defined.

Lemma terminal_redelivery_drains_witness :
  let w' := (handle_echo 10 2 (fresh_world SUCCEEDED)).2 in
  same_work (w_db (fresh_world SUCCEEDED)) (w_db w') /\ w_acked w' = ["1-0"].
Proof.
  cbv zeta. split; [|vm_compute; reflexivity].
  apply (terminal_redelivery_drains echo_registry bare_ports 3 no_str no_str iso0 (demo_message 2) 10
           (fresh_world SUCCEEDED) "t1" (mkTaskRow (demo_task SUCCEEDED) None));
    [discriminate|reflexivity|reflexivity|reflexivity|discriminate].
Defined.

Lemma recover_in_flight_spec_witness :
  exists w' rows, recover_in_flight bare_ports "task.commands" no_str 100 (fresh_world RUNNING) = (Ok 1, w') /\
    db_outbox (w_db w') = rows /\ length rows = 1%nat.
Proof.
  destruct (recover_in_flight bare_ports "task.commands" no_str 100 (fresh_world RUNNING)) as [o w'] eqn:E.
  assert (Ho : o = Ok 1) by (apply (f_equal fst) in E; vm_compute in E; symmetry; exact E). subst o.
  destruct (recover_in_flight_spec bare_ports "task.commands" no_str ltac:(discriminate) 100
              (fresh_world RUNNING) 1 w' E) as (_ & rows & H1 & H2 & _).
  exists w', rows. split; [reflexivity|]. split; [exact H1|lia].
Defined.

(** An earlier succeeded turn of session [s1]. *)
Definition turn_task : Task :=
  mkTask "t0" "acme" (Some "s1") "alice" "tr0" None SYSTEM_SHELL_AGENT None SUCCEEDED AUTO BP_NONE None
    [("user_prompt", JStr "hello")] 50 60.
Definition turn_row : TaskRow :=
  mkTaskRow turn_task (Some (mkTaskResult "t0" "acme" "tr0" "g" RS_succeeded
    (Some [("assistant_message", JStr "hi there")]) None 1 50 60)).
Definition session_world : World :=
  mkWorld (Some demo_ctx) (mkDb {[ "t0" := turn_row ]} [] [] [] ∅ [] []) [] (fun _ => 0) 0 (fun _ => "") 0
    (fun _ => None) 0.

Lemma prior_messages_thread_witness :
  exists turns, (build_prior_messages "acme" "s1" "t1" 20 session_world).1 = Ok (thread turns) /\
    Z.of_nat (length turns) <= 21.
Proof.
  destruct (prior_messages_thread "acme" "s1" "t1" 20 session_world
              [chat "user" "hello"; chat "assistant" "hi there"]
              (build_prior_messages "acme" "s1" "t1" 20 session_world).2) as (_ & turns & H & Hl & _).
  { vm_compute. reflexivity. }
  exists turns. split; [|exact Hl]. rewrite <- H. vm_compute. reflexivity.
Defined.

(** ** The outbox *)

Lemma backoff_schedule_witness :
  1000000 <= backoff default_config 3 <= 300000000 /\ backoff default_config 0 = 1000000.
Proof.
  destruct (backoff_schedule default_config 3 ltac:(simpl; lia) ltac:(lia)) as (H1 & H2 & _).
  split; [exact H1|exact H2].
Defined.

Definition outbox_world : World :=
  mkWorld None (mkDb ∅ [] [mkOutboxRow (demo_event "e1" "k1") None (Some 300)] [] ∅ [] []) []
    (fun n => 1000 + Z.of_nat n) 0 (fun _ => "") 0 (fun _ => None) 0.

(** A broker that refuses everything. *)
Definition broken_publish : MessageEnvelope -> M World unit := fun _ => raise (ExternalError "QueueError").

Lemma outbox_run_once_inv_witness :
  outbox_inv default_config (w_db (outbox_run_once default_config broken_publish no_str outbox_world).2).
Proof.
  apply (outbox_run_once_inv default_config broken_publish no_str (fun _ _ => eq_refl) outbox_world).
  split; [apply NoDup_singleton|].
  intros r Hr. apply list_elem_of_singleton in Hr as ->. split; [split; discriminate|].
  split; [reflexivity|discriminate].
Defined.

Lemma claim_not_exclusive_witness :
  exists es w1 w2, claim_pending 10 1000 outbox_world = (Ok es, w1) /\
    claim_pending 10 1000 w1 = (Ok es, w2) /\ w_db w2 = w_db outbox_world.
Proof. exact (claim_not_exclusive 10 1000 outbox_world (fun _ => eq_refl)). Defined.
