(* ===== verification/ApiScenarios.v ===== *)
(** * ApiScenarios: concrete requests

    A small database of one tenant, and the parameters of the reading side given
    concrete values: byte order for text, a tally for ISO dates, UTC for the local
    zone.  The theorems about the API are applied to requests on it. *)

From S2P Require Import Prelude PyText Utf8 Domain Cursor Keyset GraphRuntime Gates Results Persistence PersistenceFacts Approval BugFix LlmClients Reporting Auth Observability QueryApi Api TenantIsolation.

#[local] Instance byte_order : TextOrder := {| text_lt := byte_lt; text_lt_strict := byte_lt_strict |}.
#[local] Instance utc_zone : LocalZone := {| local_to_utc := id |}.
#[local] Instance day_number : DayKey := {| day_key t := pretty (t / day_micros) |}.
#[local] Instance json_int : PydanticInt := {| int_of := as_int |}.

(** ** Dates written as tallies *)

Fixpoint tally (n : nat) : string := match n with O => "" | S n' => String (Ascii.ascii_of_nat 49) (tally n') end.
Definition tally_iso (t : DateTime) : string :=
  String (Ascii.ascii_of_nat (if dt_aware t then 90 else 76))
    (String (Ascii.ascii_of_nat (if 0 <=? dt_instant t then 43 else 45)) (tally (Z.abs_nat (dt_instant t)))).
Definition tally_read (s : string) : option DateTime :=
  match s with
  | String a (String g rest) =>
      let n := Z.of_nat (String.length rest) in
      Some (mkDateTime (char_is 90 a) (if char_is 43 g then n else - n))
  | _ => None
  end.
#[local] Instance tally_format : IsoFormat := {| isoformat := tally_iso; fromisoformat := tally_read |}.

Lemma tally_length n : String.length (tally n) = n.
Proof. induction n as [|n IH]; simpl; congruence. Qed.
Lemma tally_ascii n : is_ascii (tally n) = true.
Proof. by induction n as [|n IH]. Qed.
Lemma tally_split n : str_split_once "|" (tally n) = None.
Proof. induction n as [|n IH]; [done|]. simpl tally. rewrite split_once_cons, IH. done. Qed.

#[local] Instance tally_laws : IsoFormatLaws.
Proof.
  split.
  - intros [[] z]; [intros _|done]. unfold isoformat, tally_format, tally_iso. cbn [dt_aware dt_instant].
    unfold fromisoformat, tally_read. cbv zeta. rewrite tally_length.
    destruct (Z.leb_spec 0 z); (f_equal; refine (f_equal2 mkDateTime _ _); [done|]).
    + change (Z.of_nat (Z.abs_nat z) = z). lia.
    + change (- Z.of_nat (Z.abs_nat z) = z). lia.
  - intros [[] z]; unfold isoformat, tally_format, tally_iso; cbn [dt_aware dt_instant];
      destruct (0 <=? z); exact (tally_ascii _).
  - intros [[] z]; unfold str_contains, isoformat, tally_format, tally_iso; cbn [dt_aware dt_instant];
      destruct (0 <=? z); by rewrite !split_once_cons, tally_split.
Qed.

(** ** A database *)

Definition api_ctx : RequestContext := mkContext "acme" "alice" "tr1" "r1" None None None.
Definition api_audit (id action : string) (at_ : Z) : AuditEvent :=
  mkAuditEvent id "acme" "alice" None (Some "t1") "tr1" action [] at_.
Definition api_usage (id : string) (model : option string) (tokens cost : option Z) (at_ : Z) : LLMUsageRecord :=
  mkUsageRecord id "acme" "tr1" None None None (Some "t1") "openrouter" model None None None tokens
    None None None None None (Some "plan") cost 5 USAGE_OK None None at_.
Definition api_task : Task :=
  mkTask "t1" "acme" (Some "s1") "alice" "tr1" None BUG_FIX None SUCCEEDED AUTO BP_NONE None
    [("user_prompt", JStr "hello")] 1 2.

Definition api_db : Db :=
  mkDb {[ "t1" := mkTaskRow api_task None ]}
    [mkCheckpoint "c1" "t1" "acme" "tr1" "plan" 1 [("current_node", JStr "edit")] 12] []
    [api_audit "a1" "tool.invoked" 10; api_audit "a2" "tool.failed" 12; api_audit "a3" "task.done" 12]
    {[ "s1" := mkSession "s1" "acme" "alice" 1 1 false ]}
    [api_usage "u1" (Some "m") (Some 7) (Some 20) 11; api_usage "u2" None None (Some 1) 12]
    [mkApiKey "k1" "h:secret" "acme" "alice" [] None None].

Definition api_world (c : option RequestContext) : World :=
  mkWorld c api_db [] (fun _ => 100) 0 (fun n => "id" +:+ pretty (Z.of_nat n)) 0 (fun _ => None) 0.

Lemma api_healthy c : healthy (api_world c).
Proof. done. Qed.
Lemma api_bound : bound_to (api_world (Some api_ctx)) "acme".
Proof. by exists api_ctx. Qed.

Lemma usage_report_conserves_witness :
  (aggregate_grouped "acme" (utc 0) (utc 50) GB_MODEL (api_world (Some api_ctx))).1 =
    Ok [mkUsageAggregate "m" 7 20 1; mkUsageAggregate "unknown" 0 1 1] /\
  aggregate_since "acme" 0 (api_world (Some api_ctx)) =
    (Ok (mkBudgetUsage 7 21), ticked (api_world (Some api_ctx))).
Proof.
  destruct (usage_report_conserves "acme" (utc 0) (utc 50) GB_MODEL _ (api_healthy (Some api_ctx)) api_bound)
    as (bs & Hb & _ & _ & _ & Ht & Hc & _ & Hs).
  split; [vm_compute; reflexivity|]. specialize (Hs ltac:(intros r Hr _; vm_compute in Hr; set_solver)).
  refine (eq_trans Hs _). rewrite Ht, Hc. vm_compute. reflexivity.
Defined.

Lemma trajectory_spec_witness :
  exists page, (trajectory "acme" "t1" None 10 (api_world (Some api_ctx))).1 = Ok page /\
    by_key item_time (tp_items page) /\ length (tp_items page) = 6%nat /\ tp_truncated page = false.
Proof.
  pose proof (trajectory_spec "acme" "t1" None 10 (api_world (Some api_ctx)) (api_healthy _) api_bound ltac:(lia)) as H.
  cbv zeta in H. assert (exists a c u, page_sources (Z.to_nat 10) (w_db (api_world (Some api_ctx))) "acme" "t1" None =
    Ok (a, c, u)) as (a & c & u & E) by (eexists _, _, _; vm_compute; reflexivity).
  rewrite E in H. destruct H as (page & Hp & _ & Hs & _). exists page. split; [exact Hp|]. split; [exact Hs|].
  assert (exists p, (trajectory "acme" "t1" None 10 (api_world (Some api_ctx))).1 = Ok p /\
    length (tp_items p) = 6%nat /\ tp_truncated p = false) as (p & Hp' & H6)
    by (eexists; split; [vm_compute; reflexivity|split; reflexivity]).
  rewrite Hp in Hp'. injection Hp' as ->. exact H6.
Defined.

Definition api_over_budget : TaskRunState :=
  mkRunState "t1" "acme" "tr1" "g" "plan" 1
    [("_budget_policy", JStr "gate_on_threshold"); ("_budget_threshold_micros", JInt 21)] false false None.

Lemma budget_gate_on_usage_witness :
  match check_budget_policy (fun tenant task => aggregate_for_task tenant task GB_STEP_KIND) api_over_budget true "plan"
          (api_world (Some api_ctx)) with
  | (Ok (Some r), _) => nr_awaiting_approval r = true /\ getd (nr_data_update r) "_budget_spent_micros" = JInt 21
  | _ => False
  end.
Proof.
  pose proof (budget_gate_on_usage api_over_budget 21 "plan" (api_world (Some api_ctx)) ltac:(by repeat split)
    (api_healthy _) api_bound) as H. cbv zeta in H.
  destruct (check_budget_policy _ _ _ _ _) as [[[r|]|e] w1]; [|destruct H as [_ H]; vm_compute in H; discriminate|done].
  destruct H as (_ & _ & Hs & _ & Ha & _). split; [exact Ha|]. rewrite Hs. vm_compute. reflexivity.
Defined.

(** ** Requests *)

Definition api_hash (token : string) : string := "h:" +:+ token.
Definition api_config : AuthConfig := mkAuthConfig BACKEND_PG "" true.


Lemma tenant_isolation_witness :
  exec_repo (TaskGet "other" "t1") (api_world (Some api_ctx)) = (Err TenantIsolationError, api_world (Some api_ctx)) /\
  exec_repo (SessionTouch "acme" "s1" 5) (api_world None) = (Err MissingContextError, api_world None) /\
  other_tenants_same "acme" api_db (w_db (exec_repo (TaskUpdateState "acme" "t1" RUNNING 5) (api_world (Some api_ctx))).2) /\
  w_db (exec_repo (TaskListRunningForResume 10) (api_world None)).2 = api_db.
Proof.
  destruct tenant_isolation as [H _]. split; [|split; [|split]].
  - destruct (H (TaskGet "other" "t1") (api_world (Some api_ctx))) as (_ & Hx & _).
    apply (Hx api_ctx); [reflexivity|discriminate].
  - destruct (H (SessionTouch "acme" "s1" 5) (api_world None)) as (Hx & _ & _). apply Hx. reflexivity.
  - destruct (H (TaskUpdateState "acme" "t1" RUNNING 5) (api_world (Some api_ctx))) as (_ & _ & Hx). apply Hx. exact I.
  - exact (H (TaskListRunningForResume 10) (api_world None)).
Defined.

Definition accented : string := String (Ascii.ascii_of_nat 195) (String (Ascii.ascii_of_nat 169) "").

Lemma env_validate_non_ascii_witness :
  get_request_ctx (fun t => lift (env_validate [("key", mkPrincipal "acme" "alice" [])] t))
    (Some ("Bearer " +:+ accented)) None (api_world None) =
  (Err (TypeError "comparing strings with non-ASCII characters is not supported"), api_world None).
Proof. apply (env_validate_non_ascii [("key", mkPrincipal "acme" "alice" [])] accented None); [discriminate|reflexivity|reflexivity]. Defined.

Lemma api_ids : audit_ids_unique api_db.
Proof. apply (bool_decide_unpack _). vm_compute. exact I. Qed.

Lemma observability_complete_witness :
  exists s w', build_task_observability 5 "acme" api_task (api_world (Some api_ctx)) = (Ok s, w') /\
    ts_total_cost_usd_micros s = 21 /\ ts_tool_events s = 2 /\ ts_llm_calls s = 2.
Proof.
  destruct (observability_complete 5 api_task (api_world (Some api_ctx))) as (s & w' & Hr & _ & Hc & _ & Hcost & _ & Ht & _).
  - apply api_healthy.
  - apply api_bound.
  - apply api_ids.
  - intros r c Hr. vm_compute in Hr. set_solver by lia.
  - apply Nat.ltb_lt. vm_compute. reflexivity.
  - exists s, w'. split; [exact Hr|]. rewrite Hc, Hcost, Ht. vm_compute. repeat split.
Defined.

Lemma api_cursor_ids e : e ∈ db_audits api_db -> cursor_id (ae_event_id e).
Proof.
  simpl. intros H. repeat (apply elem_of_cons in H as [->|H]; [vm_compute; repeat split|]).
  by apply not_elem_of_nil in H.
Qed.

Lemma audits_paged_witness :
  exists rows w', follow_audits 5 api_ctx (Some (utc 11)) (Some (utc 20)) None (Some "t1") None 1 (api_world None) =
    (Ok rows, w') /\ NoDup (map ae_event_id rows) /\ map ae_event_id rows = ["a3"; "a2"].
Proof.
  destruct (audits_paged api_ctx (utc 11) (utc 20) None (Some "t1") 1 5 (api_world None) (api_healthy None) api_ids
    api_cursor_ids eq_refl eq_refl ltac:(simpl; lia) eq_refl ltac:(apply Nat.ltb_lt; vm_compute; reflexivity)) as (rows & w' & Hr & _ & _ & Hn & _).
  exists rows, w'. split; [exact Hr|]. split; [exact Hn|].
  assert (forall r, (follow_audits 5 api_ctx (Some (utc 11)) (Some (utc 20)) None (Some "t1") None 1 (api_world None)).1
    = Ok r -> map ae_event_id r = ["a3"; "a2"]) as Hev.
  { vm_compute. intros r [= <-]. reflexivity. }
  apply Hev. by rewrite Hr.
Defined.

Definition api_request : SubmitTaskRequest :=
  mkSubmit SYSTEM_ECHO [("message", JStr "hi")] None (Some "key") (Some "s2") AUTO BP_NONE None.

Lemma submission_atomic_witness :
  exists t w', submit_task_transaction api_request api_ctx "task.commands" (api_world None) = (Ok t, w') /\
    t_state t = PENDING /\ length (db_outbox (w_db w')) = 1%nat /\ is_Some (db_sessions (w_db w') !! "s2").
Proof.
  pose proof (submission_atomic api_request api_ctx "task.commands" (api_world None) eq_refl eq_refl) as H.
  destruct (submit_task_transaction _ _ _ (api_world None)) as [r w'] eqn:E.
  destruct H as (_ & Hr & Hh). specialize (Hh (api_healthy None)). vm_compute in Hh. subst r.
  destruct Hr as (Ht & Hd & Hs & _). eexists _, w'. split; [reflexivity|]. split; [exact Hs|].
  rewrite Hd. split; [reflexivity|]. by eexists.
Defined.

Definition api_body : dict :=
  [("task_type", JStr "bug_fix"); ("graph_id", JNull);
   ("input_payload", JDict [("issue_description", JStr "crash"); ("repo_url", JStr "r");
      ("target_files", JList [JStr "a.py"]); ("max_steps", JInt 3)])].

Lemma accepted_bug_fix_runs_witness :
  exists r, submit_validate api_body = Ok r /\
    target_files (mkRunState "t1" "acme" "tr1" "g" "n" 0 (sr_input_payload r) false false None) = Ok ["a.py"].
Proof.
  destruct (submit_validate api_body) as [r|e] eqn:E; [|vm_compute in E; discriminate].
  exists r. split; [reflexivity|].
  assert (sr_task_type r = BUG_FIX) as Ht by (vm_compute in E; injection E as <-; reflexivity).
  destruct (accepted_bug_fix_runs api_body r (mkRunState "t1" "acme" "tr1" "g" "n" 0 (sr_input_payload r) false false None)
    E Ht (fun k _ => eq_refl)) as (_ & p & Hd & _ & _ & _ & Hf & _).
  rewrite Hf. vm_compute in E. injection E as <-. destruct p as [i rr [b|] f v [m|] [n|]]; simpl in Hd; try discriminate.
  injection Hd as _ _ Hf' _. destruct f as [|f [|]]; simpl in Hf'; try discriminate. by injection Hf' as ->.
Defined.

Lemma session_messages_never_witness :
  exists w', get_session_messages "s1" 50 api_ctx (api_world None) = (Err MissingContextError, w').
Proof.
  destruct (session_messages_never "s1" 50 api_ctx (api_world None) (mkSession "s1" "acme" "alice" 1 1 false)
    eq_refl (api_healthy None) ltac:(lia) eq_refl) as (w' & Hr & _).
  exists w'. exact Hr.
Defined.
