(* ===== verification/Rows.v ===== *)
(** * Rows: entities as the columns of the database

    The [_row_to_*] functions of [infra/persistence/] and of
    [infra/prompt_registry/postgres.py], and the column lists of the [INSERT] and
    [UPDATE] statements next to them.  [Persistence], [Reporting], [Webhooks] and
    [PromptRegistry] keep entities in their tables; here a row is a list of named
    cells, and the two views are shown to agree.

    A cell has the type the schema gives its column.  [DatabasePool] registers
    [json.dumps] and [json.loads] as the codec of [jsonb]: a parameter is encoded
    once by the driver, and a second time where the repository has encoded it
    itself.  [jsonb] is what the column makes of a value (it may reorder keys). *)

From S2P Require Import Prelude PyText Domain Results Persistence Webhooks PromptRegistry Api Server.

Inductive Cell : Type :=
  | Null
  | Text (s : string)
  | Int (n : Z)
  | Flag (b : bool)
  | Stamp (t : Z)
  | Json (j : json)
  | Texts (l : list string).
Abbreviation Row := (list (string * Cell)).

Fixpoint column (r : Row) (k : string) : option Cell :=
  match r with
  | [] => None
  | (k', c) :: r' => if String.eqb k' k then Some c else column r' k
  end.
(** [SET k = c]. *)
Fixpoint put (k : string) (c : Cell) (r : Row) : Row :=
  match r with
  | [] => [(k, c)]
  | (k', c') :: r' => if String.eqb k' k then (k, c) :: r' else (k', c') :: put k c r'
  end.
Definition puts (l : Row) (r : Row) : Row := fold_left (fun r kc => put kc.1 kc.2 r) l r.

Lemma column_put k c r k' : column (put k c r) k' = if String.eqb k k' then Some c else column r k'.
Proof.
  induction r as [|[k0 c0] r IH]; simpl; [done|].
  destruct (String.eqb_spec k0 k) as [->|Hne]; simpl; [by destruct (String.eqb_spec k k')|].
  destruct (String.eqb_spec k0 k') as [->|Hne']; [|exact IH]. by apply not_eq_sym, String.eqb_neq in Hne as ->.
Qed.
#[export] Hint Rewrite column_put : rows.

(** ** Reading a column *)

Definition mistyped {A} : res A := Err (ValidationError "column").
Definition text (c : Cell) : res string := match c with Text s => Ok s | _ => mistyped end.
Definition int (c : Cell) : res Z := match c with Int n => Ok n | _ => mistyped end.
Definition flag (c : Cell) : res bool := match c with Flag b => Ok b | _ => mistyped end.
Definition stamp (c : Cell) : res Z := match c with Stamp t => Ok t | _ => mistyped end.
Definition texts (c : Cell) : res (list string) := match c with Texts l => Ok l | _ => mistyped end.
Definition object (c : Cell) : res dict := match c with Json (JDict d) => Ok d | _ => mistyped end.
Definition nullable {A} (f : Cell -> res A) (c : Cell) : res (option A) :=
  match c with Null => Ok None | _ => let? a := f c in Ok (Some a) end.
(** [Enum(value)]. *)
Definition member {A} (of_value : string -> option A) (c : Cell) : res A :=
  match c with
  | Text s => match of_value s with Some a => Ok a | None => Err (ValueError s) end
  | _ => Err (ValueError "enum")
  end.

(** [row[k]] and [row.get(k)]. *)
Definition field {A} (r : Row) (k : string) (f : Cell -> res A) : res A :=
  match column r k with Some c => f c | None => Err (KeyError k) end.
Definition field_get {A} (r : Row) (k : string) (f : Cell -> res A) : res A := f (default Null (column r k)).
(** [Enum(row.get(k) or d)]. *)
Definition member_or {A} (of_value : string -> option A) (d : string) (c : Cell) : res A :=
  member of_value (match c with Null | Text EmptyString => Text d | _ => c end).

Definition null_or {A} (f : A -> Cell) (o : option A) : Cell := match o with Some a => f a | None => Null end.

Definition enum_of {A} (value : A -> string) (all : list A) (s : string) : option A :=
  List.find (fun a => String.eqb (value a) s) all.
Definition OutboxStatus_value (s : OutboxStatus) : string :=
  match s with OB_PENDING => "pending" | OB_DISPATCHED => "dispatched" | OB_FAILED => "failed" end.
Definition OutboxStatus_of_value : string -> option OutboxStatus :=
  enum_of OutboxStatus_value [OB_PENDING; OB_DISPATCHED; OB_FAILED].
Definition WebhookDeliveryStatus_of_value : string -> option WebhookDeliveryStatus :=
  enum_of WebhookDeliveryStatus_value [WD_PENDING; WD_DISPATCHED; WD_DEAD_LETTER].
Definition LLMUsageStatus_of_value : string -> option LLMUsageStatus :=
  enum_of LLMUsageStatus_value [USAGE_OK; USAGE_ERROR].
Definition ErrorCategory_of_value : string -> option ErrorCategory :=
  enum_of ErrorCategory_value [TRANSIENT; EXTERNAL; PERMISSION; VALIDATION; LOGIC; USER_CANCELLED].
Definition TaskResultStatus_of_value : string -> option TaskResultStatus :=
  enum_of TaskResultStatus_value [RS_succeeded; RS_failed].
Definition TaskErrorCode_of_value : string -> option TaskErrorCode :=
  enum_of TaskErrorCode_value [GRAPH_ERROR; ABANDONED; INTERNAL].

(** ** What the database and the codecs do *)

(** [json_dumps] and [json_loads]; [jsonb]: the value of a [jsonb] column after it
    was sent one; [time_json] and [time_of]: pydantic's JSON form of a timestamp. *)
Class RowPorts := {
  jsonb : json -> json;
  json_dumps : json -> string;
  json_loads : string -> res json;
  time_json : Z -> string;
  time_of : json -> option Z
}.
(** Text is kept as it is, an object stays one; ISO text is read back. *)
Class RowLaws `{!RowPorts} `{!PydanticInt} : Prop := {
  jsonb_text s : jsonb (JStr s) = JStr s;
  jsonb_object d : exists d', jsonb (JDict d) = JDict d';
  time_roundtrip t : time_of (JStr (time_json t)) = Some t;
  int_of_int n : int_of (JInt n) = Some n
}.

Section Codecs.
Context `{!RowPorts} `{!PydanticInt}.

Definition stored (d : dict) : dict := match jsonb (JDict d) with JDict d' => d' | _ => d end.

(** ** Tasks ([task_repo.py]) *)

Definition task_columns (t : Task) : Row :=
  [("task_id", Text (t_task_id t)); ("tenant_id", Text (t_tenant_id t));
   ("session_id", null_or Text (t_session_id t)); ("principal_id", Text (t_principal_id t));
   ("trace_id", Text (t_trace_id t)); ("idempotency_key", null_or Text (t_idempotency_key t));
   ("task_type", Text (TaskType_value (t_task_type t))); ("graph_id", null_or Text (t_graph_id t));
   ("state", Text (TaskState_value (t_state t)));
   ("permission_mode", Text (PermissionMode_value (t_permission_mode t)));
   ("budget_policy", Text (BudgetPolicy_value (t_budget_policy t)));
   ("budget_threshold_micros", null_or Int (t_budget_threshold_micros t));
   ("input_payload", Json (jsonb (JDict (t_input_payload t))));
   ("created_at", Stamp (t_created_at t)); ("updated_at", Stamp (t_updated_at t))].
(** The columns after [ON CONFLICT (task_id) DO UPDATE SET]. *)
Definition task_conflict_columns : list string :=
  ["session_id"; "graph_id"; "state"; "permission_mode"; "budget_policy"; "budget_threshold_micros";
   "input_payload"; "updated_at"].

(** The field constraints of [Task]. *)
Definition check_task (t : Task) : res Task :=
  if nonempty (t_task_id t) && nonempty (t_tenant_id t) && nonempty (t_principal_id t) && nonempty (t_trace_id t)
     && negb (bool_decide (t_graph_id t = Some ""))
     && match t_budget_threshold_micros t with Some n => 0 <=? n | None => true end
  then Ok t else Err (ValidationError "Task").

Definition row_to_task (r : Row) : res Task :=
  let? task_id := field r "task_id" text in
  let? tenant_id := field r "tenant_id" text in
  let? session_id := field r "session_id" (nullable text) in
  let? principal_id := field r "principal_id" text in
  let? trace_id := field r "trace_id" text in
  let? idempotency_key := field r "idempotency_key" (nullable text) in
  let? task_type := field r "task_type" (member TaskType_of_value) in
  let? graph_id := field r "graph_id" (nullable text) in
  let? state := field r "state" (member TaskState_of_value) in
  let? permission_mode := field_get r "permission_mode" (member_or PermissionMode_of_value "auto") in
  let? budget_policy := field_get r "budget_policy" (member_or BudgetPolicy_of_value "none") in
  let? threshold := field_get r "budget_threshold_micros" (nullable int) in
  let? input_payload := field r "input_payload" object in
  let? created_at := field r "created_at" stamp in
  let? updated_at := field r "updated_at" stamp in
  check_task (mkTask task_id tenant_id session_id principal_id trace_id idempotency_key task_type graph_id state
                permission_mode budget_policy threshold input_payload created_at updated_at).

(** ** Results ([core/orchestration/result.py]) *)

Definition error_dump (e : TaskError) : json :=
  JDict [("code", JStr (TaskErrorCode_value (te_code e))); ("message", JStr (te_message e));
         ("details", opt_json JDict (te_details e))].
(** [result.model_dump(mode="json")]. *)
Definition result_dump (r : TaskResult) : json :=
  JDict [("task_id", JStr (tr_task_id r)); ("tenant_id", JStr (tr_tenant_id r)); ("trace_id", JStr (tr_trace_id r));
         ("graph_id", JStr (tr_graph_id r)); ("status", JStr (TaskResultStatus_value (tr_status r)));
         ("output", opt_json JDict (tr_output r)); ("error", opt_json error_dump (tr_error r));
         ("node_sequence", JInt (tr_node_sequence r));
         ("started_at", JStr (time_json (tr_started_at r))); ("finished_at", JStr (time_json (tr_finished_at r)))].

Definition invalid {A} : res A := Err (ValidationError "TaskResult").
Definition need {A} (f : json -> option A) (d : dict) (k : string) : res A :=
  match dget d k ≫= f with Some a => Ok a | None => invalid end.
Definition need_or_none {A} (f : json -> res A) (d : dict) (k : string) : res (option A) :=
  match dget d k with None | Some JNull => Ok None | Some v => let? a := f v in Ok (Some a) end.
Definition as_object (v : json) : res dict := match v with JDict d => Ok d | _ => invalid end.
Definition known_keys (allowed : list string) (d : dict) : res unit :=
  if forallb (fun kv => existsb (String.eqb kv.1) allowed) d then Ok tt else invalid.

Definition error_validate (v : json) : res TaskError :=
  let? d := as_object v in
  let? _ := known_keys ["code"; "message"; "details"] d in
  let? code := need (fun v => as_str v ≫= TaskErrorCode_of_value) d "code" in
  let? message := need as_str d "message" in
  let? details := need_or_none as_object d "details" in
  make_task_error code message details.
(** [TaskResult.model_validate]. *)
Definition result_validate (v : json) : res TaskResult :=
  let? d := as_object v in
  let? _ := known_keys ["task_id"; "tenant_id"; "trace_id"; "graph_id"; "status"; "output"; "error"; "node_sequence";
                        "started_at"; "finished_at"] d in
  let? task_id := need as_str d "task_id" in
  let? tenant_id := need as_str d "tenant_id" in
  let? trace_id := need as_str d "trace_id" in
  let? graph_id := need as_str d "graph_id" in
  let? status := need (fun v => as_str v ≫= TaskResultStatus_of_value) d "status" in
  let? output := need_or_none as_object d "output" in
  let? error := need_or_none error_validate d "error" in
  let? node_sequence := need int_of d "node_sequence" in
  let? started_at := need time_of d "started_at" in
  let? finished_at := need time_of d "finished_at" in
  check_task_result (mkTaskResult task_id tenant_id trace_id graph_id status output error node_sequence
                       started_at finished_at).

(** [complete] sends the text of the result to the [jsonb] column, whose codec
    encodes it again: what is stored is a JSON string. *)
Definition result_cell (result : TaskResult) : Cell := Json (jsonb (JStr (json_dumps (result_dump result)))).
(** [get_result] on a row that was found. *)
Definition row_to_result (r : Row) : res (option TaskResult) :=
  match column r "result_json" with
  | None => Err (KeyError "result_json")
  | Some Null => Ok None
  | Some (Json (JStr s)) => let? v := json_loads s in let? x := result_validate v in Ok (Some x)
  | Some (Json v) => let? x := result_validate v in Ok (Some x)
  | Some _ => mistyped
  end.

(** ** The statements of [task_repo.py], on columns *)

(** [DO UPDATE SET k = EXCLUDED.k, ..]. *)
Definition excluded (new : Row) (ks : list string) : Row :=
  omap (fun k => (fun c => (k, c)) <$> column new k) ks.

Inductive TaskWrite : Type :=
  | WriteUpsert (t : Task)
  | WriteState (s : TaskState) (at_ : Z)
  | WriteComplete (result : TaskResult) (terminal : TaskState) (at_ : Z).
Definition insert_columns (t : Task) : Row := task_columns t ++ [("result_json", Null)].
Definition write_columns (w : TaskWrite) (r : Row) : Row :=
  match w with
  | WriteUpsert t => puts (excluded (task_columns t) task_conflict_columns) r
  | WriteState s at_ => puts [("state", Text (TaskState_value s)); ("updated_at", Stamp at_)] r
  | WriteComplete result terminal at_ =>
      puts [("state", Text (TaskState_value terminal)); ("result_json", result_cell result); ("updated_at", Stamp at_)] r
  end.
(** [state NOT IN ('succeeded', 'failed', 'cancelled', 'expired')] and [state = ..]. *)
Definition state_not_terminal (r : Row) : bool :=
  match column r "state" with
  | Some (Text s) => negb (existsb (String.eqb s) ["succeeded"; "failed"; "cancelled"; "expired"])
  | _ => false
  end.
Definition state_equals (value : string) (r : Row) : bool :=
  match column r "state" with Some (Text s) => String.eqb s value | _ => false end.

(** ** The other tables *)

Definition checkpoint_columns (c : TaskCheckpoint) : Row :=
  [("checkpoint_id", Text (cp_checkpoint_id c)); ("task_id", Text (cp_task_id c)); ("tenant_id", Text (cp_tenant_id c));
   ("trace_id", Text (cp_trace_id c)); ("node_name", Text (cp_node_name c)); ("sequence", Int (cp_sequence c));
   ("state_snapshot", Json (jsonb (JDict (cp_state_snapshot c)))); ("created_at", Stamp (cp_created_at c))].
Definition check_checkpoint (c : TaskCheckpoint) : res TaskCheckpoint :=
  if nonempty (cp_checkpoint_id c) && nonempty (cp_task_id c) && nonempty (cp_tenant_id c) && nonempty (cp_trace_id c)
     && nonempty (cp_node_name c) && (0 <=? cp_sequence c)
  then Ok c else Err (ValidationError "TaskCheckpoint").
Definition row_to_checkpoint (r : Row) : res TaskCheckpoint :=
  let? checkpoint_id := field r "checkpoint_id" text in
  let? task_id := field r "task_id" text in
  let? tenant_id := field r "tenant_id" text in
  let? trace_id := field r "trace_id" text in
  let? node_name := field r "node_name" text in
  let? sequence := field r "sequence" int in
  let? state_snapshot := field r "state_snapshot" object in
  let? created_at := field r "created_at" stamp in
  check_checkpoint (mkCheckpoint checkpoint_id task_id tenant_id trace_id node_name sequence state_snapshot created_at).

(** [$11] is both [created_at] and the first [next_attempt_at]. *)
Definition outbox_columns (e : OutboxEvent) : Row :=
  [("event_id", Text (ob_event_id e)); ("tenant_id", Text (ob_tenant_id e)); ("trace_id", Text (ob_trace_id e));
   ("aggregate_type", Text (ob_aggregate_type e)); ("aggregate_id", Text (ob_aggregate_id e));
   ("topic", Text (ob_topic e)); ("payload", Json (jsonb (JDict (ob_payload e))));
   ("idempotency_key", Text (ob_idempotency_key e)); ("status", Text (OutboxStatus_value (ob_status e)));
   ("attempts", Int (ob_attempts e)); ("created_at", Stamp (ob_created_at e));
   ("dispatched_at", null_or Stamp (ob_dispatched_at e)); ("next_attempt_at", Stamp (ob_created_at e));
   ("last_error", Null)].
Definition check_outbox_event (e : OutboxEvent) : res OutboxEvent :=
  if nonempty (ob_event_id e) && nonempty (ob_tenant_id e) && nonempty (ob_trace_id e) && nonempty (ob_aggregate_type e)
     && nonempty (ob_aggregate_id e) && nonempty (ob_topic e) && nonempty (ob_idempotency_key e) && (0 <=? ob_attempts e)
  then Ok e else Err (ValidationError "OutboxEvent").
Definition row_to_outbox_event (r : Row) : res OutboxEvent :=
  let? event_id := field r "event_id" text in
  let? tenant_id := field r "tenant_id" text in
  let? trace_id := field r "trace_id" text in
  let? aggregate_type := field r "aggregate_type" text in
  let? aggregate_id := field r "aggregate_id" text in
  let? topic := field r "topic" text in
  let? payload := field r "payload" object in
  let? idempotency_key := field r "idempotency_key" text in
  let? status := field r "status" (member OutboxStatus_of_value) in
  let? attempts := field r "attempts" int in
  let? created_at := field r "created_at" stamp in
  let? dispatched_at := field r "dispatched_at" (nullable stamp) in
  check_outbox_event (mkOutboxEvent event_id tenant_id trace_id aggregate_type aggregate_id topic payload
                        idempotency_key status attempts created_at dispatched_at).

Definition audit_columns (e : AuditEvent) : Row :=
  [("event_id", Text (ae_event_id e)); ("tenant_id", Text (ae_tenant_id e)); ("principal_id", Text (ae_principal_id e));
   ("session_id", null_or Text (ae_session_id e)); ("task_id", null_or Text (ae_task_id e));
   ("trace_id", Text (ae_trace_id e)); ("action", Text (ae_action e)); ("payload", Json (jsonb (JDict (ae_payload e))));
   ("occurred_at", Stamp (ae_occurred_at e))].
Definition check_audit_event (e : AuditEvent) : res AuditEvent :=
  if nonempty (ae_event_id e) && nonempty (ae_tenant_id e) && nonempty (ae_principal_id e) && nonempty (ae_trace_id e)
     && nonempty (ae_action e)
  then Ok e else Err (ValidationError "AuditEvent").
Definition row_to_audit_event (r : Row) : res AuditEvent :=
  let? event_id := field r "event_id" text in
  let? tenant_id := field r "tenant_id" text in
  let? principal_id := field r "principal_id" text in
  let? session_id := field r "session_id" (nullable text) in
  let? task_id := field r "task_id" (nullable text) in
  let? trace_id := field r "trace_id" text in
  let? action := field r "action" text in
  let? payload := field r "payload" object in
  let? occurred_at := field r "occurred_at" stamp in
  check_audit_event (mkAuditEvent event_id tenant_id principal_id session_id task_id trace_id action payload occurred_at).

Definition session_columns (s : Session) : Row :=
  [("session_id", Text (se_session_id s)); ("tenant_id", Text (se_tenant_id s)); ("principal_id", Text (se_principal_id s));
   ("created_at", Stamp (se_created_at s)); ("last_active_at", Stamp (se_last_active_at s));
   ("is_closed", Flag (se_is_closed s))].
Definition check_session (s : Session) : res Session :=
  if nonempty (se_session_id s) && nonempty (se_tenant_id s) && nonempty (se_principal_id s)
  then Ok s else Err (ValidationError "Session").
Definition row_to_session (r : Row) : res Session :=
  let? session_id := field r "session_id" text in
  let? tenant_id := field r "tenant_id" text in
  let? principal_id := field r "principal_id" text in
  let? created_at := field r "created_at" stamp in
  let? last_active_at := field r "last_active_at" stamp in
  let? is_closed := field r "is_closed" flag in
  check_session (mkSession session_id tenant_id principal_id created_at last_active_at is_closed).

Definition usage_columns (u : LLMUsageRecord) : Row :=
  [("record_id", Text (ur_record_id u)); ("tenant_id", Text (ur_tenant_id u)); ("trace_id", Text (ur_trace_id u));
   ("request_id", null_or Text (ur_request_id u)); ("principal_id", null_or Text (ur_principal_id u));
   ("session_id", null_or Text (ur_session_id u)); ("task_id", null_or Text (ur_task_id u));
   ("provider", Text (ur_provider u)); ("model", null_or Text (ur_model u));
   ("requested_model", null_or Text (ur_requested_model u)); ("prompt_tokens", null_or Int (ur_prompt_tokens u));
   ("completion_tokens", null_or Int (ur_completion_tokens u)); ("total_tokens", null_or Int (ur_total_tokens u));
   ("finish_reason", null_or Text (ur_finish_reason u)); ("provider_response_id", null_or Text (ur_provider_response_id u));
   ("prompt_id", null_or Text (ur_prompt_id u)); ("prompt_version", null_or Int (ur_prompt_version u));
   ("prompt_excerpt", null_or Text (ur_prompt_excerpt u)); ("step_kind", null_or Text (ur_step_kind u));
   ("cost_usd_micros", null_or Int (ur_cost_usd_micros u)); ("latency_ms", Int (ur_latency_ms u));
   ("status", Text (LLMUsageStatus_value (ur_status u)));
   ("error_category", null_or (fun c => Text (ErrorCategory_value c)) (ur_error_category u));
   ("error_message", null_or Text (ur_error_message u)); ("created_at", Stamp (ur_created_at u))].
(** All field constraints of the record; [check_usage_record] has the numeric ones. *)
Definition check_usage_row (u : LLMUsageRecord) : res LLMUsageRecord :=
  let sized (n : nat) (o : option string) :=
    match o with Some s => nonempty s && Nat.leb (String.length s) n | None => true end in
  if nonempty (ur_record_id u) && nonempty (ur_tenant_id u) && nonempty (ur_trace_id u) && nonempty (ur_provider u)
     && sized 128%nat (ur_prompt_id u) && sized 32%nat (ur_step_kind u)
     && match ur_prompt_version u with Some n => 1 <=? n | None => true end
  then check_usage_record u else Err (ValidationError "LLMUsageRecord").
(** [ErrorCategory(raw) if raw else None]. *)
Definition category_or_none (c : Cell) : res (option ErrorCategory) :=
  match c with
  | Null | Text EmptyString => Ok None
  | _ => let? x := member ErrorCategory_of_value c in Ok (Some x)
  end.
Definition row_to_record (r : Row) : res LLMUsageRecord :=
  let? record_id := field r "record_id" text in
  let? tenant_id := field r "tenant_id" text in
  let? trace_id := field r "trace_id" text in
  let? request_id := field r "request_id" (nullable text) in
  let? principal_id := field r "principal_id" (nullable text) in
  let? session_id := field r "session_id" (nullable text) in
  let? task_id := field r "task_id" (nullable text) in
  let? provider := field r "provider" text in
  let? model := field r "model" (nullable text) in
  let? requested_model := field r "requested_model" (nullable text) in
  let? prompt_tokens := field r "prompt_tokens" (nullable int) in
  let? completion_tokens := field r "completion_tokens" (nullable int) in
  let? total_tokens := field r "total_tokens" (nullable int) in
  let? finish_reason := field r "finish_reason" (nullable text) in
  let? provider_response_id := field r "provider_response_id" (nullable text) in
  let? prompt_id := field_get r "prompt_id" (nullable text) in
  let? prompt_version := field_get r "prompt_version" (nullable int) in
  let? prompt_excerpt := field_get r "prompt_excerpt" (nullable text) in
  let? step_kind := field_get r "step_kind" (nullable text) in
  let? cost_usd_micros := field r "cost_usd_micros" (nullable int) in
  let? latency_ms := field r "latency_ms" int in
  let? status := field r "status" (member LLMUsageStatus_of_value) in
  let? error_category := field r "error_category" category_or_none in
  let? error_message := field r "error_message" (nullable text) in
  let? created_at := field r "created_at" stamp in
  check_usage_row (mkUsageRecord record_id tenant_id trace_id request_id principal_id session_id task_id provider model
    requested_model prompt_tokens completion_tokens total_tokens finish_reason provider_response_id prompt_id
    prompt_version prompt_excerpt step_kind cost_usd_micros latency_ms status error_category error_message created_at).

Definition subscription_columns (s : WebhookSubscription) : Row :=
  [("subscription_id", Text (ws_subscription_id s)); ("tenant_id", Text (ws_tenant_id s)); ("url", Text (ws_url s));
   ("secret", Text (ws_secret s)); ("events", Texts (ws_events s)); ("active", Flag (ws_active s));
   ("created_at", Stamp (ws_created_at s))].
Definition row_to_subscription (r : Row) : res WebhookSubscription :=
  let? subscription_id := field r "subscription_id" text in
  let? tenant_id := field r "tenant_id" text in
  let? url := field r "url" text in
  let? secret := field r "secret" text in
  let? events := field r "events" texts in
  let? active := field r "active" flag in
  let? created_at := field r "created_at" stamp in
  check_subscription (mkSubscription subscription_id tenant_id url secret events active created_at).

(** [json.dumps(delivery.payload)] is encoded a second time by the driver. *)
Definition delivery_columns (d : WebhookDelivery) : Row :=
  [("delivery_id", Text (wd_delivery_id d)); ("subscription_id", Text (wd_subscription_id d));
   ("tenant_id", Text (wd_tenant_id d)); ("trace_id", Text (wd_trace_id d)); ("event_action", Text (wd_event_action d));
   ("payload", Json (jsonb (JStr (json_dumps (JDict (wd_payload d))))));
   ("idempotency_key", Text (wd_idempotency_key d)); ("status", Text (WebhookDeliveryStatus_value (wd_status d)));
   ("attempts", Int (wd_attempts d)); ("next_attempt_at", Stamp (wd_next_attempt_at d));
   ("last_error", null_or Text (wd_last_error d)); ("created_at", Stamp (wd_created_at d));
   ("dispatched_at", null_or Stamp (wd_dispatched_at d))].
(** [if isinstance(payload, str): payload = json.loads(payload)], then [payload or {}]. *)
Definition loaded_object (c : Cell) : res dict :=
  let? v := match c with Json (JStr s) => json_loads s | Json v => Ok v | Null => Ok JNull | _ => mistyped end in
  if truthy v then match v with JDict d => Ok d | _ => mistyped end else Ok [].
Definition row_to_delivery (r : Row) : res WebhookDelivery :=
  let? payload := field r "payload" loaded_object in
  let? delivery_id := field r "delivery_id" text in
  let? subscription_id := field r "subscription_id" text in
  let? tenant_id := field r "tenant_id" text in
  let? trace_id := field r "trace_id" text in
  let? event_action := field r "event_action" text in
  let? idempotency_key := field r "idempotency_key" text in
  let? status := field r "status" (member WebhookDeliveryStatus_of_value) in
  let? attempts := field r "attempts" int in
  let? next_attempt_at := field r "next_attempt_at" stamp in
  let? last_error := field r "last_error" (nullable text) in
  let? created_at := field r "created_at" stamp in
  let? dispatched_at := field r "dispatched_at" (nullable stamp) in
  check_delivery (mkDelivery delivery_id subscription_id tenant_id trace_id event_action payload idempotency_key status
                    attempts next_attempt_at last_error created_at dispatched_at).

(** [content_hash] is written and never selected. *)
Definition asset_columns (hash : string -> string) (a : PromptAsset) : Row :=
  [("prompt_id", Text (pa_prompt_id a)); ("version", Int (pa_version a)); ("tenant_id", null_or Text (pa_tenant_id a));
   ("content", Text (pa_content a)); ("description", null_or Text (pa_description a));
   ("content_hash", Text (hash (pa_content a))); ("created_at", Stamp (pa_created_at a))].
Definition row_to_asset (r : Row) : res PromptAsset :=
  let? prompt_id := field r "prompt_id" text in
  let? version := field r "version" int in
  let? tenant_id := field r "tenant_id" (nullable text) in
  let? content := field r "content" text in
  let? description := field r "description" (nullable text) in
  let? created_at := field r "created_at" stamp in
  check_asset (mkPromptAsset prompt_id version tenant_id content description created_at).
End Codecs.
