(* ===== verification/RowsFacts.v ===== *)
(** * RowsFacts: the columns of a table represent its entities

    [RowCodec] is the contract of a table: a valid entity is read back from the
    columns it was written to.  Every table of the repositories is an instance; for
    the tasks, whose rows are updated in place, every statement on columns is shown
    to be the operation of [Persistence] on entities. *)

From S2P Require Import Prelude PyText JsonText Domain Results Persistence Webhooks PromptRegistry Api Server Rows.

(** ** Cells *)

Lemma nullable_text o : nullable text (null_or Text o) = Ok o.
Proof. by destruct o. Qed.
Lemma nullable_int o : nullable int (null_or Int o) = Ok o.
Proof. by destruct o. Qed.
Lemma nullable_stamp o : nullable stamp (null_or Stamp o) = Ok o.
Proof. by destruct o. Qed.
Lemma TaskType_back x : TaskType_of_value (TaskType_value x) = Some x.
Proof. by destruct x. Qed.
Lemma permission_cell x : member_or PermissionMode_of_value "auto" (Text (PermissionMode_value x)) = Ok x.
Proof. by destruct x. Qed.
Lemma budget_cell x : member_or BudgetPolicy_of_value "none" (Text (BudgetPolicy_value x)) = Ok x.
Proof. by destruct x. Qed.
Lemma OutboxStatus_back x : OutboxStatus_of_value (OutboxStatus_value x) = Some x.
Proof. by destruct x. Qed.
Lemma WebhookDeliveryStatus_back x : WebhookDeliveryStatus_of_value (WebhookDeliveryStatus_value x) = Some x.
Proof. by destruct x. Qed.
Lemma LLMUsageStatus_back x : LLMUsageStatus_of_value (LLMUsageStatus_value x) = Some x.
Proof. by destruct x. Qed.
Lemma TaskErrorCode_back x : TaskErrorCode_of_value (TaskErrorCode_value x) = Some x.
Proof. by destruct x. Qed.
Lemma TaskResultStatus_back x : TaskResultStatus_of_value (TaskResultStatus_value x) = Some x.
Proof. by destruct x. Qed.
Lemma category_cell o : category_or_none (null_or (fun c => Text (ErrorCategory_value c)) o) = Ok o.
Proof. by destruct o as [[]|]. Qed.
#[export] Hint Rewrite nullable_text nullable_int nullable_stamp TaskType_back TaskState_value_roundtrip permission_cell budget_cell
  OutboxStatus_back WebhookDeliveryStatus_back LLMUsageStatus_back TaskErrorCode_back TaskResultStatus_back
  category_cell : rows.

(** Look the columns up, then read the cells. *)
Ltac read_cells :=
  unfold field, field_get; cbn [column String.eqb Ascii.eqb Bool.eqb default from_option id];
  cbn [text int flag stamp texts object member]; autorewrite with rows; cbn [res_bind].

(** ** The contract of a table *)

Section Tables.
Context {RP : RowPorts} {PI : PydanticInt} {RL : RowLaws}.

Lemma jsonb_stored d : jsonb (JDict d) = JDict (stored d).
Proof. unfold stored. destruct (jsonb_object d) as [d' H]. by rewrite H. Qed.

(** [rc_kept]: the entity with its [jsonb] fields as the column keeps them;
    [rc_ok]: it satisfies its constraints, and what was encoded by hand can be
    decoded. *)
Class RowCodec (A : Type) := {
  to_row : A -> Row;
  of_row : Row -> res A;
  rc_kept : A -> A;
  rc_ok : A -> Prop;
  rc_roundtrip a : rc_ok a -> of_row (to_row a) = Ok (rc_kept a)
}.

Definition task_kept (t : Task) : Task :=
  mkTask (t_task_id t) (t_tenant_id t) (t_session_id t) (t_principal_id t) (t_trace_id t) (t_idempotency_key t)
    (t_task_type t) (t_graph_id t) (t_state t) (t_permission_mode t) (t_budget_policy t) (t_budget_threshold_micros t)
    (stored (t_input_payload t)) (t_created_at t) (t_updated_at t).
Lemma check_task_kept t : check_task t = Ok t -> check_task (task_kept t) = Ok (task_kept t).
Proof. unfold check_task. cbn. by destruct (_ && _). Qed.

#[global] Instance task_codec : RowCodec Task.
Proof using RL.
  refine {| to_row := task_columns; of_row := row_to_task; rc_kept := task_kept; rc_ok t := check_task t = Ok t |}.
  intros t Ht. unfold row_to_task, task_columns. read_cells. rewrite jsonb_stored. cbn [res_bind].
  by apply check_task_kept.
Defined.

Definition checkpoint_kept (c : TaskCheckpoint) : TaskCheckpoint :=
  mkCheckpoint (cp_checkpoint_id c) (cp_task_id c) (cp_tenant_id c) (cp_trace_id c) (cp_node_name c) (cp_sequence c)
    (stored (cp_state_snapshot c)) (cp_created_at c).
#[global] Instance checkpoint_codec : RowCodec TaskCheckpoint.
Proof using RL.
  refine {| to_row := checkpoint_columns; of_row := row_to_checkpoint; rc_kept := checkpoint_kept;
            rc_ok c := check_checkpoint c = Ok c |}.
  intros c Hc. unfold row_to_checkpoint, checkpoint_columns. read_cells. rewrite jsonb_stored. cbn [res_bind].
  revert Hc. unfold check_checkpoint. cbn. by destruct (_ && _).
Defined.

Definition outbox_kept (e : OutboxEvent) : OutboxEvent :=
  mkOutboxEvent (ob_event_id e) (ob_tenant_id e) (ob_trace_id e) (ob_aggregate_type e) (ob_aggregate_id e) (ob_topic e)
    (stored (ob_payload e)) (ob_idempotency_key e) (ob_status e) (ob_attempts e) (ob_created_at e) (ob_dispatched_at e).
#[global] Instance outbox_codec : RowCodec OutboxEvent.
Proof using RL.
  refine {| to_row := outbox_columns; of_row := row_to_outbox_event; rc_kept := outbox_kept;
            rc_ok e := check_outbox_event e = Ok e |}.
  intros e He. unfold row_to_outbox_event, outbox_columns. read_cells. rewrite jsonb_stored. cbn [res_bind].
  revert He. unfold check_outbox_event. cbn. by destruct (_ && _).
Defined.

Definition audit_kept (e : AuditEvent) : AuditEvent :=
  mkAuditEvent (ae_event_id e) (ae_tenant_id e) (ae_principal_id e) (ae_session_id e) (ae_task_id e) (ae_trace_id e)
    (ae_action e) (stored (ae_payload e)) (ae_occurred_at e).
#[global] Instance audit_codec : RowCodec AuditEvent.
Proof using RL.
  refine {| to_row := audit_columns; of_row := row_to_audit_event; rc_kept := audit_kept;
            rc_ok e := check_audit_event e = Ok e |}.
  intros e He. unfold row_to_audit_event, audit_columns. read_cells. rewrite jsonb_stored. cbn [res_bind].
  revert He. unfold check_audit_event. cbn. by destruct (_ && _).
Defined.

#[global] Instance session_codec : RowCodec Session.
Proof.
  refine {| to_row := session_columns; of_row := row_to_session; rc_kept := id; rc_ok s := check_session s = Ok s |}.
  intros [] Hs. unfold row_to_session, session_columns. read_cells. exact Hs.
Defined.

#[global] Instance usage_codec : RowCodec LLMUsageRecord.
Proof.
  refine {| to_row := usage_columns; of_row := row_to_record; rc_kept := id; rc_ok u := check_usage_row u = Ok u |}.
  intros [] Hu. unfold row_to_record, usage_columns. read_cells. exact Hu.
Defined.

#[global] Instance subscription_codec : RowCodec WebhookSubscription.
Proof.
  refine {| to_row := subscription_columns; of_row := row_to_subscription; rc_kept := id;
            rc_ok s := check_subscription s = Ok s |}.
  intros [] Hs. unfold row_to_subscription, subscription_columns. read_cells. exact Hs.
Defined.

(** The payload was encoded twice; it is decoded once by the driver and once here,
    so that, unlike the other payloads, it keeps its order. *)
#[global] Instance delivery_codec : RowCodec WebhookDelivery.
Proof using RL.
  refine {| to_row := delivery_columns; of_row := row_to_delivery; rc_kept := id;
            rc_ok d := check_delivery d = Ok d /\
              json_loads (json_dumps (JDict (wd_payload d))) = Ok (JDict (wd_payload d)) |}.
  intros [id1 id2 id3 id4 action payload key st n t1 e t2 t3] [Hd Hl]. unfold row_to_delivery, delivery_columns.
  read_cells. rewrite jsonb_text. unfold loaded_object. cbn [wd_payload] in *. rewrite Hl. cbn [res_bind].
  destruct payload; exact Hd.
Defined.

#[global] Instance asset_codec (hash : string -> string) : RowCodec PromptAsset.
Proof.
  refine {| to_row := asset_columns hash; of_row := row_to_asset; rc_kept := id; rc_ok a := check_asset a = Ok a |}.
  intros [] Ha. unfold row_to_asset, asset_columns. read_cells. exact Ha.
Defined.

(** A page of a table is the page of its entities. *)
Lemma rows_read_back {A} `{!RowCodec A} (l : list A) :
  Forall rc_ok l -> mapM_res of_row (map to_row l) = Ok (map rc_kept l).
Proof. induction 1 as [|a l Ha _ IH]; cbn; [done|]. by rewrite (rc_roundtrip a Ha), IH. Qed.

(** ** Results *)

Definition result_ok (r : TaskResult) : Prop :=
  check_task_result r = Ok r /\ (forall e, tr_error r = Some e -> nonempty (te_message e) = true) /\
  json_loads (json_dumps (result_dump r)) = Ok (result_dump r).

Lemma error_back e : nonempty (te_message e) = true -> error_validate (error_dump e) = Ok e.
Proof.
  destruct e as [code msg details]. intros Hm. cbn [te_message] in Hm.
  assert (make_task_error code msg details = Ok (mkTaskError code msg details)) as Hk
    by (unfold make_task_error; by rewrite Hm).
  by destruct code, details.
Qed.
Lemma result_back r : check_task_result r = Ok r -> (forall e, tr_error r = Some e -> nonempty (te_message e) = true) ->
  result_validate (result_dump r) = Ok r.
Proof using RL.
  intros Hr He. destruct r as [a b c d st out err n t1 t2]. cbn [tr_error] in He.
  unfold result_validate, result_dump, need, need_or_none. cbn [tr_error tr_status].
  assert (as_str (JStr (TaskResultStatus_value st)) ≫= TaskResultStatus_of_value = Some st) as Hst by by destruct st.
  cbn -[error_validate error_dump check_task_result TaskResultStatus_of_value as_str].
  rewrite Hst, int_of_int, !time_roundtrip. cbn -[error_validate error_dump check_task_result].
  destruct err as [e|]; [|by destruct out].
  assert (error_validate (error_dump e) = Ok e) as Hb by by apply error_back, He.
  destruct out; cbn -[error_validate error_dump check_task_result]; by rewrite Hb.
Qed.

Lemma result_cell_back r result : result_ok result ->
  column r "result_json" = Some (result_cell result) -> row_to_result r = Ok (Some result).
Proof using RL.
  intros (Hc & He & Hl) Hr. unfold row_to_result. rewrite Hr. unfold result_cell. rewrite jsonb_text, Hl.
  cbn -[result_validate result_dump]. by rewrite result_back.
Qed.

(** ** A row of [tasks] through its life *)

(** The columns [r] hold the entity [tr]. *)
Definition holds (r : Row) (tr : TaskRow) : Prop :=
  row_to_task r = Ok (row_task tr) /\ row_to_result r = Ok (row_result tr).

(** The operation of [Persistence] a statement stands for. *)
Definition write_entity (w : TaskWrite) (tr : TaskRow) : TaskRow :=
  match w with
  | WriteUpsert t => upsert_row tr (task_kept t)
  | WriteState s at_ => row_with_state s at_ tr
  | WriteComplete result terminal at_ => mkTaskRow (task_with_state (row_task tr) terminal at_) (Some result)
  end.
Definition write_ok (w : TaskWrite) : Prop :=
  match w with
  | WriteUpsert t => check_task t = Ok t
  | WriteState _ _ => True
  | WriteComplete result _ _ => result_ok result
  end.

Lemma insert_holds t : check_task t = Ok t -> holds (insert_columns t) (mkTaskRow (task_kept t) None).
Proof using RL. intros Ht. split; [exact (rc_roundtrip (RowCodec:=task_codec) t Ht)|done]. Qed.

(** Constraints do not mention the state, and are those of the two sides of an
    upsert. *)
Lemma check_task_iff t : check_task t = Ok t <->
  nonempty (t_task_id t) = true /\ nonempty (t_tenant_id t) = true /\ nonempty (t_principal_id t) = true /\
  nonempty (t_trace_id t) = true /\ t_graph_id t <> Some "" /\
  match t_budget_threshold_micros t with Some n => 0 <=? n | None => true end = true.
Proof.
  unfold check_task. match goal with |- context [if ?b then _ else _] => destruct b eqn:E end.
  - rewrite !andb_true_iff, negb_true_iff, bool_decide_eq_false in E. destruct E as [[[[[? ?] ?] ?] ?] ?]. by split_and!.
  - split; [done|]. intros (H1 & H2 & H3 & H4 & H5 & H6). by rewrite H1, H2, H3, H4, H6, (bool_decide_eq_false_2 _ H5) in E.
Qed.
Lemma check_task_state t s at_ : check_task t = Ok t -> check_task (task_with_state t s at_) = Ok (task_with_state t s at_).
Proof. by rewrite !check_task_iff. Qed.
Lemma check_task_upsert tr t : check_task (row_task tr) = Ok (row_task tr) -> check_task t = Ok t ->
  check_task (row_task (upsert_row tr t)) = Ok (row_task (upsert_row tr t)).
Proof. rewrite !check_task_iff. intros (? & ? & ? & ? & _ & _) (_ & _ & _ & _ & ? & ?). by split_and!. Qed.

(** What the columns of a task say. *)
Record task_reads (r : Row) (t : Task) : Prop := mkReads {
  rd_task_id : field r "task_id" text = Ok (t_task_id t);
  rd_tenant_id : field r "tenant_id" text = Ok (t_tenant_id t);
  rd_session_id : field r "session_id" (nullable text) = Ok (t_session_id t);
  rd_principal_id : field r "principal_id" text = Ok (t_principal_id t);
  rd_trace_id : field r "trace_id" text = Ok (t_trace_id t);
  rd_idempotency_key : field r "idempotency_key" (nullable text) = Ok (t_idempotency_key t);
  rd_task_type : field r "task_type" (member TaskType_of_value) = Ok (t_task_type t);
  rd_graph_id : field r "graph_id" (nullable text) = Ok (t_graph_id t);
  rd_state : field r "state" (member TaskState_of_value) = Ok (t_state t);
  rd_mode : field_get r "permission_mode" (member_or PermissionMode_of_value "auto") = Ok (t_permission_mode t);
  rd_policy : field_get r "budget_policy" (member_or BudgetPolicy_of_value "none") = Ok (t_budget_policy t);
  rd_threshold : field_get r "budget_threshold_micros" (nullable int) = Ok (t_budget_threshold_micros t);
  rd_payload : field r "input_payload" object = Ok (t_input_payload t);
  rd_created : field r "created_at" stamp = Ok (t_created_at t);
  rd_updated : field r "updated_at" stamp = Ok (t_updated_at t)
}.
Lemma row_to_task_iff r t : row_to_task r = Ok t <-> task_reads r t /\ check_task t = Ok t.
Proof.
  unfold row_to_task. split.
  - intros H. repeat (apply res_bind_inv in H as (? & ? & H)). revert H. unfold check_task at 1.
    match goal with |- context [if ?b then _ else _] => destruct b eqn:E end; [|done]. intros [= <-].
    split; [by constructor|]. unfold check_task. by rewrite E.
  - intros [[-> -> -> -> -> -> -> -> -> -> -> -> -> -> ->] Hc]. cbn [res_bind]. by destruct t.
Qed.

Lemma field_put {A} k c r k' (f : Cell -> res A) :
  field (put k c r) k' f = if String.eqb k k' then f c else field r k' f.
Proof. unfold field. rewrite column_put. by destruct (String.eqb k k'). Qed.
Lemma field_get_put {A} k c r k' (f : Cell -> res A) :
  field_get (put k c r) k' f = if String.eqb k k' then f c else field_get r k' f.
Proof. unfold field_get. rewrite column_put. by destruct (String.eqb k k'). Qed.

(** Each statement on columns is its operation on entities. *)
Lemma write_task w r tr : write_ok w -> row_to_task r = Ok (row_task tr) ->
  row_to_task (write_columns w r) = Ok (row_task (write_entity w tr)).
Proof using RL.
  rewrite !row_to_task_iff. intros Hw [[] Hc]. split; cycle 1.
  { destruct w as [t|s at_|result terminal at_]; [apply check_task_upsert; [|apply check_task_kept]|..];
      try apply check_task_state; done. }
  destruct w as [t|s at_|result terminal at_]; constructor; cbn -[field field_get];
    rewrite ?field_put, ?field_get_put; cbn -[field field_get nullable null_or member_or];
    autorewrite with rows; try done.
  by rewrite jsonb_stored.
Qed.
Lemma write_result w r tr : write_ok w -> row_to_result r = Ok (row_result tr) ->
  row_to_result (write_columns w r) = Ok (row_result (write_entity w tr)).
Proof using RL.
  destruct w as [t|s at_|result terminal at_]; cbn -[row_to_result result_cell]; intros Hw Hr.
  - revert Hr. unfold row_to_result. by autorewrite with rows.
  - revert Hr. unfold row_to_result. by autorewrite with rows.
  - apply result_cell_back; [done|]. by autorewrite with rows.
Qed.
Lemma write_holds w r tr : write_ok w -> holds r tr -> holds (write_columns w r) (write_entity w tr).
Proof using RL. intros Hw [Ht Hr]. split; [by apply write_task|by apply write_result]. Qed.

Lemma TaskState_of_value_inv s st : TaskState_of_value s = Some st -> s = TaskState_value st.
Proof.
  unfold TaskState_of_value.
  repeat (match goal with |- context [String.eqb s ?v] => destruct (String.eqb_spec s v) as [->|_] end; [by intros [= <-]|]).
  done.
Qed.
Lemma state_column r t : row_to_task r = Ok t -> column r "state" = Some (Text (TaskState_value (t_state t))).
Proof.
  rewrite row_to_task_iff. intros [[] _]. revert rd_state0. unfold field. destruct (column r "state") as [c|]; [|done].
  destruct c; try done. unfold member. destruct (TaskState_of_value s) as [st|] eqn:E; [|done]. intros [= <-].
  by rewrite (TaskState_of_value_inv _ _ E).
Qed.

(** Rows from before the permission and budget columns run unattended and without
    a ceiling. *)
Lemma old_row_defaults r t : row_to_task r = Ok t ->
  (column r "permission_mode" = None -> t_permission_mode t = AUTO) /\
  (column r "budget_policy" = None -> t_budget_policy t = BP_NONE) /\
  (column r "budget_threshold_micros" = None -> t_budget_threshold_micros t = None).
Proof.
  rewrite row_to_task_iff. intros [[] _]. unfold field_get in *.
  split_and!; intros E; rewrite E in *; cbn in *; by simplify_eq.
Qed.

(** C5: a row of [tasks] always holds the task the repositories reason about.
    Insert a valid task and run any sequence of the table's statements on its
    columns (the conflict branch of the upsert, the state updates, the completion):
    reading the columns back, as [get] and [get_result] do, gives exactly the
    entity that the operations of [Persistence] compute, with its payload as the
    [jsonb] column keeps it and its result although that is encoded twice.  The
    guards of the statements, which compare the text of the state, agree with those
    on entities. *)
Theorem task_rows_refine t ws :
  check_task t = Ok t -> Forall write_ok ws ->
  let r := fold_left (fun r w => write_columns w r) ws (insert_columns t) in
  let tr := fold_left (fun tr w => write_entity w tr) ws (mkTaskRow (task_kept t) None) in
  row_to_task r = Ok (row_task tr) /\ row_to_result r = Ok (row_result tr) /\
  state_not_terminal r = negb (TERMINAL_TASK_STATES (t_state (row_task tr))) /\
  forall s, state_equals (TaskState_value s) r = bool_decide (t_state (row_task tr) = s).
Proof using RL.
  intros Ht Hws r tr. assert (holds r tr) as [H1 H2].
  { subst r tr. generalize (insert_holds t Ht).
    generalize (insert_columns t), (mkTaskRow (task_kept t) None). induction Hws as [|w ws Hw _ IH]; intros r tr H; [done|].
    by apply IH, write_holds. }
  split; [done|]. split; [done|]. unfold state_not_terminal, state_equals. rewrite (state_column _ _ H1).
  destruct (t_state (row_task tr)); (split; [done|]); by intros [].
Qed.
End Tables.

(** ** A database that reverses the keys of an object *)

Fixpoint strokes (n : nat) : string := match n with O => "" | S n' => String (Ascii.ascii_of_nat 49) (strokes n') end.
Lemma strokes_length n : String.length (strokes n) = n.
Proof. induction n as [|n IH]; cbn; congruence. Qed.
Definition unary (t : Z) : string :=
  String (Ascii.ascii_of_nat (if t <? 0 then 45 else 43)) (strokes (Z.to_nat (Z.abs t))).
Definition of_unary (v : json) : option Z :=
  match v with
  | JStr (String c s) => Some (if char_is 45 c then - Z.of_nat (String.length s) else Z.of_nat (String.length s))
  | _ => None
  end.

Definition demo_result : TaskResult :=
  mkTaskResult "t1" "acme" "tr1" "bug_fix" RS_failed None (Some (mkTaskError GRAPH_ERROR "boom" None)) 3 1 4.
Definition demo_json : json :=
  JDict [("task_id", JStr "t1"); ("tenant_id", JStr "acme"); ("trace_id", JStr "tr1"); ("graph_id", JStr "bug_fix");
         ("status", JStr "failed"); ("output", JNull);
         ("error", JDict [("code", JStr "graph_error"); ("message", JStr "boom"); ("details", JNull)]);
         ("node_sequence", JInt 3); ("started_at", JStr (unary 1)); ("finished_at", JStr (unary 4))].
#[local] Instance demo_ports : RowPorts :=
  {| jsonb := fun v => match v with JDict d => JDict (rev d) | _ => v end; json_dumps := dumps_with false;
     json_loads := fun s => if String.eqb s (dumps_with false demo_json) then Ok demo_json else Err (ValueError s);
     time_json := unary; time_of := of_unary |}.
#[local] Instance demo_int : PydanticInt := {| int_of := as_int |}.
Lemma demo_laws : RowLaws.
Proof.
  split; try done; [intros d; by eexists|]. intros t. cbn [time_json time_of demo_ports].
  unfold unary. destruct (Z.ltb_spec t 0); cbn -[Z.abs]; rewrite strokes_length; f_equal.
  - change (char_is 45 (Ascii.ascii_of_nat 45)) with true. cbv iota. lia.
  - change (char_is 45 (Ascii.ascii_of_nat 43)) with false. cbv iota. lia.
Qed.

Definition demo_task : Task :=
  mkTask "t1" "acme" None "alice" "tr1" None BUG_FIX None PENDING AUTO BP_NONE (Some 5)
    [("issue_description", JStr "crash"); ("repo_url", JStr "r")] 1 1.

Lemma task_rows_refine_witness :
  let ws := [WriteState RUNNING 2; WriteUpsert demo_task; WriteComplete demo_result FAILED 4] in
  let r := fold_left (fun r w => write_columns w r) ws (insert_columns demo_task) in
  row_to_result r = Ok (Some demo_result) /\ state_not_terminal r = false /\
  (t_input_payload <$> (match row_to_task r with Ok t => Some t | Err _ => None end)) =
    Some [("repo_url", JStr "r"); ("issue_description", JStr "crash")].
Proof.
  intros ws r.
  destruct (task_rows_refine (RL:=demo_laws) demo_task ws eq_refl) as (Ht & Hr & Hg & _).
  { repeat constructor; try (vm_compute; reflexivity). intros e [= <-]. reflexivity. }
  split; [exact Hr|]. split; [exact Hg|]. subst r. rewrite Ht. reflexivity.
Defined.
