(* ===== verification/CliScenarios.v ===== *)
(** * CliScenarios: the command line on a small deployment

    The database of [ApiScenarios], served to the command line, and the theorems
    about the command line, the smoke runner, the loops and the repository
    contract applied to it. *)

From S2P Require Import Prelude PyText Utf8 JsonText Domain Cursor Keyset GraphRuntime Gates Results Persistence PersistenceFacts Approval BugFix LlmClients Reporting RepositoryPorts Configs Auth Observability QueryApi Api Langfuse Cli CliFacts Server ServerFacts Smoke SmokeFacts Lifecycle ApiScenarios.

#[local] Instance text_int : PydanticInt :=
  {| int_of := fun v => match v with JStr s => match py_int s with Ok n => Some n | Err _ => None end | _ => as_int v end |}.

Definition key_validator : TokenValidator := fun t => r <- pg_validate api_hash true t ;; ret r.1.
Definition cli_cfg : CLIConfig := mkCLIConfig "http://api" "secret".
Definition cli_iso (t : Z) : string := pretty t.
Definition cli_peer : Peer World :=
  api_peer key_validator "task.commands" cli_iso (fun _ => "") (fun _ => raise (not_found "Not Found")) (fun _ => ret tt).
Definition cli_term : Term World := mkTerm (api_world None) [] [] [] [].

Definition cli_ctx : RequestContext := mkContext "acme" "alice" "id0" "id1" None None None.
Definition cli_w1 : World := (get_request_ctx key_validator (Some (bearer cli_cfg)) None (api_world None)).2.
Lemma cli_auth : get_request_ctx key_validator (Some (bearer cli_cfg)) None (api_world None) = (Ok cli_ctx, cli_w1).
Proof.
  unfold cli_w1. rewrite (surjective_pairing (get_request_ctx _ _ _ _)) at 1.
  apply (f_equal (fun r => (r, _))). vm_compute. reflexivity.
Qed.

Lemma cli_submittable : submittable "task.commands" cli_ctx cli_w1.
Proof. split; [done|by vm_compute|by vm_compute]. Qed.

Lemma tail_reports_row_witness :
  exists c w', tail_until_terminal cli_peer cli_cfg 1 "t1" true None cli_term = (Ok c, w') /\
    tm_err w' = ["[state=succeeded]" +:+ newline] /\
    exists t, ((c = 0 /\ t_state t = SUCCEEDED) \/ (c = 4 /\ t_state t ∈ [FAILED; CANCELLED; EXPIRED])).
Proof.
  pose (run := tail_until_terminal cli_peer cli_cfg 1 "t1" true None cli_term).
  assert (run.1 = Ok 0 /\ tm_err run.2 = ["[state=succeeded]" +:+ newline]) as [Hr He] by (split; vm_compute; reflexivity).
  subst run. destruct (tail_until_terminal cli_peer cli_cfg 1 "t1" true None cli_term) as [r w'] eqn:E.
  simpl in Hr, He. subst r. exists 0, w'. split; [reflexivity|]. split; [exact He|].
  destruct (tail_reports_row key_validator "task.commands" cli_iso (fun _ => "") (fun _ => raise (not_found "Not Found"))
      (fun _ => ret tt) cli_cfg 1 "t1" true cli_term 0 w' eq_refl E) as (ctx & t & w0 & w1 & _ & _ & H).
  exists t. exact H.
Defined.

Definition submit_args : dict :=
  match parse_namespace build_parser [] "submit" [("prompt", JStr "hello")] with Ok (_, a) => a | Err _ => [] end.
Definition json_reader (s : string) : string + json := inl "no JSON here".

Lemma submit_args_ok : submits json_reader submit_args "system_shell_agent" [("user_prompt", JStr "hello")] None None.
Proof. split; try reflexivity. exists (Some "hello"), None. split; [|split]; reflexivity. Qed.

Lemma submit_end_to_end_witness :
  exists w', cmd_submit cli_peer json_reader submit_args cli_cfg cli_term = (Ok 0, w') /\
    tm_out w' = ["id2" +:+ newline] /\ length (db_outbox (w_db (tm_peer w'))) = 1%nat.
Proof.
  destruct (submit_validate (submit_body "system_shell_agent" [("user_prompt", JStr "hello")] None None)) as [req|e] eqn:Ev;
    [|vm_compute in Ev; discriminate].
  pose proof (submit_end_to_end key_validator "task.commands" cli_iso (fun _ => "") (fun _ => raise (not_found "Not Found"))
    (fun _ => ret tt) cli_cfg json_reader submit_args "system_shell_agent" [("user_prompt", JStr "hello")] None None req
    cli_ctx cli_w1 cli_term submit_args_ok eq_refl cli_auth Ev cli_submittable) as H.
  vm_compute in Ev. injection Ev as <-. specialize (H ltac:(vm_compute; reflexivity)).
  fold cli_peer in H. pose (run := cmd_submit cli_peer json_reader submit_args cli_cfg cli_term).
  assert (tm_out run.2 = ["id2" +:+ newline]) as Hout by (vm_compute; reflexivity). subst run.
  destruct (cmd_submit cli_peer json_reader submit_args cli_cfg cli_term) as [r w'].
  destruct H as (id & t & row & -> & _ & _ & _ & _ & _ & _ & _ & _ & _ & _ & _ & _ & _ & _ & _ & Hdb).
  exists w'. split; [reflexivity|]. split; [exact Hout|]. rewrite Hdb. vm_compute. reflexivity.
Defined.

Definition trace_args : dict :=
  match parse_namespace build_parser [] "trace" [("task_id", JStr "t1"); ("limit_per_source", JInt 10)] with
  | Ok (_, a) => a | Err _ => [] end.


(** One smoke case, read from a local file. *)
Definition smoke_case : dict :=
  [("case", JStr "null-deref"); ("issue_description", JStr "crashes on None"); ("batch", JStr "B1");
   ("target_files", JList [JStr "src/a.py"; JStr "src/b.py"])].
Definition catalog_ports : CatalogPorts World :=
  mkCatalogPorts (fun _ => ret (TransportError "offline")) (fun _ => ret (Some "the catalog")) (fun _ => Ok ("", ""))
    (fun _ => inr (JList [JDict smoke_case])).
Definition smoke_run : SmokeArgs :=
  mkSmokeArgs "cases.json" ["null-deref"] ["b1"] [] false false false DEFAULT_REPO_URL "python_test" DEFAULT_MODEL
    "bug_fix" (Some "http://api") (Some "secret") None None false false.

Lemma smoke_case_runs_witness :
  exists w', run_smoke cli_peer catalog_ports [] 0 smoke_run cli_term = (Ok 0, w') /\
    tm_out w' = ["id2" +:+ newline] /\ length (db_outbox (w_db (tm_peer w'))) = 1%nat.
Proof.
  destruct (smoke_case_runs (PI:=text_int) key_validator "task.commands" cli_iso (fun _ => "")
      (fun _ => raise (not_found "Not Found")) (fun _ => ret tt) catalog_ports [] 0 smoke_run [smoke_case] smoke_case
      cli_cfg cli_ctx cli_term cli_term cli_w1 eq_refl eq_refl eq_refl eq_refl eq_refl I I eq_refl eq_refl
      ltac:(by left) eq_refl ltac:(vm_compute; reflexivity) ltac:(repeat constructor)
      ltac:(vm_compute; reflexivity) cli_auth cli_submittable) as (name & issue & files & Hok & Hgo & _).
  destruct Hok as [(Hn & _) (Hi & _) (Hf & _ & _)]. injection Hn as <-. injection Hi as <-. injection Hf as Hf.
  destruct files as [|f1 [|f2 [|]]]; try discriminate. injection Hf as <- <-.
  destruct (Hgo ltac:(vm_compute; reflexivity)) as (w' & Hr & Ho & Hdb).
  exists w'. split; [exact Hr|]. split; [exact Ho|]. rewrite Hdb. vm_compute. reflexivity.
Defined.
